(* ===== verification/_CoqProject ===== *)
-Q . S2P
Prelude.v
Memory.v
Kstate.v
Spinlock.v
Smp.v
Kalloc.v
Cprintf.v
Vm.v
VmFacts.v
UvmFacts.v
Sched.v
SchedFacts.v
StateList.v
UvmSpec.v
SchedulerFacts.v
ProcFacts.v
Sleeplock.v
Bio.v
BioRing.v
BioFacts.v
Io.v
Mp.v
Ide.v
IdeFacts.v
IdePorts.v
Log.v
LogFacts.v
CrashFacts.v
TxFacts.v
Inode.v
Console.v
Fs.v
FsFacts.v
PathFacts.v
Ondisk.v
Alloc.v
FileMap.v
BmapFacts.v
WriteMap.v
WriteFacts.v
FsInv.v
Mkfs.v
MkfsFacts.v
MkfsImage.v
MkfsTree.v
MkfsInv.v
FsSpec.v
Pipe.v
PipeFacts.v
File.v
FileWrite.v
WriteSpec.v
Proc.v
Rtc.v
Syscall.v
Exec.v
Bootmain.v
Sysfile.v
SyscallFacts.v
Trap.v
Boot.v
BootFacts.v
Asm.v
AsmFacts.v
TrapFacts.v
FileFacts.v
User.v
Ulib.v
Umalloc.v
UmallocFacts.v
UmallocSpec.v
Grep.v
GrepFacts.v
Sh.v
ShTokens.v
ShHeap.v
ShFacts.v
ShSpec.v
Progs.v
Usertests.v
