(* ===== verification/Prelude.v ===== *)
(** * xv6: a verification library for the operating system of src/xv6

    src/xv6 is xv6 for the 32-bit x86 with added system calls (cps, getppid,
    getsz, chpr, getcount, time, utctime, dup2): a kernel, a user library, a
    shell, small programs and mkfs, which makes the disk image.  The build
    sets PDX_XV6 and none of CS333_P1 to CS333_P5; what is modelled is the
    code of that build, and of the others the process lists of proc.c and
    date.c.

    ** How code is translated

    Every C function is a definition with the function's name (a suffix or
    prefix where two files use the same one), in a file named after its part
    of the program.  A computation of type [M W S A] takes a bound [n] and a
    state and has one of five outcomes ([comp]): it returns ([Done]), panics
    ([Panic]), does something C leaves undefined or reads what was never
    written ([Undef]), needs more rounds than its bound ([NoFuel]), or waits
    ([Block w s k]): the reason, the state it leaves behind, and what it will
    do with the state it finds later.  A context switch, a disk interrupt and,
    in user programs, a system call are such waits, so that other CPUs and
    processes, or the kernel under a program, are whatever relation a theorem
    quantifies over.  [wp R c Q] says that when every wait is answered by a
    step of [R], [c] neither panics nor is undefined nor runs out of its bound,
    and ends in [Q]; [wpg G R c Q] says besides that [G] holds at every wait;
    [uwp] is [wp] for user programs under a contract [K] of the kernel.
    Between two waits a computation is one step; where the order of its lock
    operations matters (sleep and wait) the code is a function of acquire and
    release, and [acquire_smp] and [release_smp] of SchedFacts make each of
    them a wait too, at which other CPUs run.

    Integers are [Z] within the range of their C type, and the operators [+u],
    [-u], [*u] and the conversions u8, u16, u32, s8, s16, s32 write out the
    wrap-around.  Memory is a map from addresses to bytes, words in it are
    little-endian.  Records are updated with [r <| f := v |>].

    ** The parts and their files

    - Memory: memory, the kernel's string.c, words in arrays of bytes.
    - Kstate: the structures and global variables of the kernel as one record
      [kst], whose half [km] is the machine (flags, CPUs, spin locks) and whose
      half [kd] is the data; the constants of the header files.
    - Spinlock, Smp: spinlock.c; mutual exclusion for any number of CPUs that
      interleave the steps of acquire and release.
    - Kalloc: kalloc.c; the free list refines a stack of pages.
    - Cprintf, Console: console.c, uart.c and kbd.c; what cprintf prints.
    - Vm, VmFacts, UvmFacts, UvmSpec: vm.c; page tables as functions from pages
      to entries, the memory of a process, no page lost or shared.
    - Sched, SchedFacts, SchedulerFacts, ProcFacts, Proc: proc.c; the process
      table, sleep and wakeup, the scheduler's handoff, wait, growproc.
    - StateList: the lists of processes that proc.c has under CS333_P3.
    - Sleeplock: sleeplock.c.
    - Bio, BioRing, BioFacts: bio.c above any disk driver.  [Disk] is the
      interface of a driver, [DiskLaw] what it promises; [fs_ok m d v E D H]
      says that the cache shows the blocks [v].
    - Ide, IdeFacts: ide.c and memide.c, instances of [Disk] and [DiskLaw];
      here a command to the controller reads or writes one block, and always
      succeeds.
    - Io: accesses to ports and device registers as a history, which the class
      [Devices] answers; the descriptors of the processor.  IdePorts: ide.c
      with every access to its ports, waits and error status included, over a
      model of an ATA controller; it refines the driver of Ide.
    - Log, LogFacts, CrashFacts: log.c; commit and recovery under crashes.
      TxFacts: what a transaction has written so far.
    - Inode, Fs, FsFacts, PathFacts: fs.c; [fbytes] is the contents of a file,
      [icache] the inode cache as a view of the inodes on disk, [walk] the way
      along a path.
    - Mkfs, MkfsFacts, MkfsImage, MkfsTree: mkfs.c; [afile] is a file with its
      blocks, [mk_ok] an image that holds a list of them, and MkfsTree reads
      such an image with the kernel's functions.
    - FsSpec: the theorems on the file system and the round trip from mkfs.
    - Ondisk, Alloc, FileMap, BmapFacts, WriteMap, WriteFacts, FsInv, FileWrite,
      MkfsInv, WriteSpec: the writing side of fs.c and file.c.  [fs_inv] is the
      invariant of the disk: every block is the system's, in the free map or in
      one place of one file.
    - Mp, Bootmain, Boot, BootFacts: mp.c; bootmain.c; main.c, lapic.c, picirq.c,
      ioapic.c, uartinit, ideinit, seginit, tvinit, idtinit; what the boot leaves in the
      processor's tables and in the interrupt controllers.
    - Asm, AsmFacts: swtch.S, trapasm.S, vectors.S, usys.S and initcode.S as
      lists of instructions, and the processor that runs them.
    - Pipe, PipeFacts: pipe.c; a pipe is a stream.
    - File, FileFacts, Rtc, Syscall, SyscallFacts, Exec, Sysfile, Trap,
      TrapFacts: file.c, the clock of lapic.c, syscall.c, sysproc.c, exec.c,
      sysfile.c, trap.c.
    - User: the interface of user programs; Ulib, Umalloc: ulib.c, printf.c,
      umalloc.c; UmallocFacts, UmallocSpec: the allocator.
    - Grep, GrepFacts: grep.c; Sh, ShTokens, ShHeap, ShFacts, ShSpec: sh.c.
    - Progs, Usertests: the other programs and tests of the build.

    The kernel's files stack as the code does: locks, pages, page tables,
    processes, sleep locks, buffers over a driver, log, inodes, paths, open
    files, system calls, traps.  A lemma named [f_done] gives the result of [f]
    as an equation, [f_wp] the same through [wp] when [f] may wait; the facts
    of a layer are proved from those of the layers it calls.

    ** What the theorems show

    - Locks: no two CPUs are in a critical section of the same lock and
      interrupts are off there; acquire and release panic exactly on misuse.
    - Memory: kalloc and kfree are pop and push; the boot fills the list with
      every page; mappages, allocuvm, deallocuvm, copyuvm, freevm, setupkvm do
      what they should on the entries and account for every page, also when
      memory runs out.
    - Processes: sleep misses no wakeup and wait no exit of a child, with
      other CPUs running at each of their lock operations; the scheduler hands
      the CPU over with the lock; allocproc, wait, kill, growproc on every
      branch; the lists of processes are queues.
    - Instructions: for its caller swtch is a function that returns; a trap
      saves the whole state in the frame that trap gets and goes on with what
      the frame then holds; a system call passes its number, arguments and
      result; the stack that allocproc builds starts the process.
    - Boot: bootmain loads the kernel's segments; mpinit reads the table of
      processors; the descriptor tables protect the kernel; the interrupts are
      routed to the traps that trap.c expects; every processor is started with
      what it needs.
    - Storage: the buffer cache refines the disk; a crash at any write of a
      commit leaves the old or the new contents; recovery finishes it and may
      itself be interrupted; ide.c's waiting process is woken by its own
      interrupt; ide.c over the ports refines ide.c over blocks.
    - File system: readi returns the file's bytes on every branch, namex finds
      what the walk along the path finds and balances the references, and the
      kernel reads from mkfs's image what was put in.  writei changes the bytes
      of one file and keeps the invariant of the disk, which mkfs establishes;
      filewrite does so in transactions, each of which a crash leaves done or
      not begun.
    - System calls: pointers from user space are checked exactly; calls are
      dispatched and counted; pipes are first-in first-out, and end when the
      writers have closed; dup2 and its defects.
    - Users: malloc and free give separate arrays; grep's matcher decides its
      regular language and grep prints the matching lines; the shell parses
      every command back from its text.
    Some theorems state defects of the code: dup2_defects, kill_zero,
    syscall_count_overflow, malloc_huge, grep_short_reads, mpinit_unknown_entry,
    remove_head_keeps_next; the others exclude by a hypothesis what a defect
    breaks, and say so.

    ** Bounds

    The bound of a computation counts the rounds of its loops that have no
    structural measure: spinning, waiting again after a wakeup.  Theorems that
    promise a result give a bound that is enough (usually [2 <= n], for a
    thread that finds its locks free), or hold for every bound.  Recursions
    over data carry their own fuel, computed from the data where they are
    called: the length of a path plus one, the bytes left to read plus one,
    the size of the line for the shell, the length of pattern and text for
    grep's matcher; the theorems prove that it never runs out.

    ** Not modelled

    - bootasm.S, entry.S, entryother.S: the changes of the processor's mode
      before C code runs.  In the files of the kernel swtch is the [Block]
      outcome of a computation; Asm has its instructions.
    - The time that the loops of lapic.c wait; the descriptor of the task state
      segment in switchuvm; what panic prints before it stops.
    - The programs that belong to other builds (p2-test.c and so on): they test
      system calls that this source does not have, and the built-in commands
      of the shell under USE_BUILTINS use them too.
    - The order of memory accesses between CPUs finer than the steps of Smp;
      the return addresses that acquire records for debugging.
    dirlink, create and the system calls on directories, exec, fork, exit, the
    console's input and the programs of Progs and Usertests are modelled
    without theorems of their own. *)

From Stdlib Require Export ZArith Lia.
From stdpp Require Export base tactics numbers gmap strings functions list.

#[global] Open Scope Z_scope.

(** ** C integers

    A value of a C integer type is a [Z] in the range of the type; the
    conversions below are what assignment to the type does on a 32-bit x86
    (two's complement, wrap-around). *)

Definition u8 (x : Z) : Z := x mod 2 ^ 8.
Definition u16 (x : Z) : Z := x mod 2 ^ 16.
Definition u32 (x : Z) : Z := x mod 2 ^ 32.
Definition s8 (x : Z) : Z := (x + 2 ^ 7) mod 2 ^ 8 - 2 ^ 7.
Definition s16 (x : Z) : Z := (x + 2 ^ 15) mod 2 ^ 16 - 2 ^ 15.
Definition s32 (x : Z) : Z := (x + 2 ^ 31) mod 2 ^ 32 - 2 ^ 31.

Declare Scope cint_scope.
Delimit Scope cint_scope with cint.
(** Arithmetic of the C type [uint]. *)
Notation "x +u y" := (u32 (x + y)) (at level 50, left associativity) : cint_scope.
Notation "x -u y" := (u32 (x - y)) (at level 50, left associativity) : cint_scope.
Notation "x *u y" := (u32 (x * y)) (at level 40, left associativity) : cint_scope.
#[global] Open Scope cint_scope.

Definition is_u8 (x : Z) : Prop := 0 <= x < 2 ^ 8.
Definition is_u32 (x : Z) : Prop := 0 <= x < 2 ^ 32.
Definition is_s32 (x : Z) : Prop := - 2 ^ 31 <= x < 2 ^ 31.

Lemma u32_small x : 0 <= x < 2 ^ 32 → u32 x = x.
Proof. apply Z.mod_small. Qed.
Lemma u32_range x : 0 <= u32 x < 2 ^ 32.
Proof. apply Z.mod_pos_bound. lia. Qed.
Lemma u8_small x : 0 <= x < 2 ^ 8 → u8 x = x.
Proof. apply Z.mod_small. Qed.
Lemma u8_range x : 0 <= u8 x < 2 ^ 8.
Proof. apply Z.mod_pos_bound. lia. Qed.
Lemma u32_idemp x : u32 (u32 x) = u32 x.
Proof. apply u32_small, u32_range. Qed.
Lemma u32_add_l x y : u32 (u32 x + y) = u32 (x + y).
Proof. unfold u32. apply Zplus_mod_idemp_l. Qed.
Lemma u32_add_r x y : u32 (x + u32 y) = u32 (x + y).
Proof. unfold u32. apply Zplus_mod_idemp_r. Qed.
Lemma u32_sub_l x y : u32 (u32 x - y) = u32 (x - y).
Proof. unfold u32. apply Zminus_mod_idemp_l. Qed.
Lemma u32_sub_r x y : u32 (x - u32 y) = u32 (x - y).
Proof. unfold u32. apply Zminus_mod_idemp_r. Qed.
Lemma s32_small x : - 2 ^ 31 <= x < 2 ^ 31 → s32 x = x.
Proof. intros. unfold s32. rewrite Z.mod_small; lia. Qed.
Lemma s32_range x : - 2 ^ 31 <= s32 x < 2 ^ 31.
Proof. unfold s32. pose proof (Z.mod_pos_bound (x + 2 ^ 31) (2 ^ 32)). lia. Qed.
Lemma u32_s32 x : u32 (s32 x) = u32 x.
Proof.
  unfold u32, s32. rewrite Zminus_mod_idemp_l.
  f_equal. lia.
Qed.
Lemma s32_u32 x : s32 (u32 x) = s32 x.
Proof. unfold u32, s32. rewrite Zplus_mod_idemp_l. done. Qed.

(** The word lemmas as a rewriting base: [cint] normalises nested
    wrap-arounds. *)
Create Rewrite HintDb cint.
#[export] Hint Rewrite u32_idemp u32_add_l u32_add_r u32_sub_l u32_sub_r u32_s32 s32_u32 : cint.
Ltac cint := autorewrite with cint in *.

(** ** Bits *)

Lemma testbit_high x k i : 0 <= x < 2 ^ k → 0 <= k <= i → Z.testbit x i = false.
Proof. intros. rewrite <- (Z.mod_small x (2 ^ k)) by lia. apply Z.mod_pow2_bits_high. lia. Qed.

(** A number below [2^k] and a multiple of [2^k] share no bit. *)
Lemma land_high_low y x k : 0 <= k → 0 <= x < 2 ^ k → Z.land (y * 2 ^ k) x = 0.
Proof.
  intros Hk Hx. apply Z.bits_inj'. intros i Hi. rewrite Z.land_spec, Z.bits_0.
  destruct (decide (i < k)).
  - by rewrite Z.mul_pow2_bits_low by lia.
  - by rewrite (testbit_high x k), andb_false_r by lia.
Qed.
Lemma lor_high_low y x k : 0 <= k → 0 <= x < 2 ^ k → Z.lor (y * 2 ^ k) x = y * 2 ^ k + x.
Proof.
  intros. pose proof (Z.add_lor_land (y * 2 ^ k) x) as H'.
  rewrite land_high_low in H' by lia. lia.
Qed.

(** Masking off the low [k] bits rounds down to a multiple of [2^k]. *)
Lemma land_lnot_ones x k : 0 <= k → Z.land x (Z.lnot (Z.ones k)) = x / 2 ^ k * 2 ^ k.
Proof.
  intros. rewrite <- Z.ldiff_land, Z.ldiff_ones_r, Z.shiftl_mul_pow2, Z.shiftr_div_pow2 by lia. done.
Qed.

(** ** Lists updated in place *)

Lemma alter_ext_at {A} (f g : A → A) (l : list A) i x :
  l !! i = Some x → f x = g x → alter f i l = alter g i l.
Proof.
  intros Hx Hfg. apply list_alter_ext; [|done]. intros y Hy. rewrite Hx in Hy. by injection Hy as <-.
Qed.
Lemma alter_id_at {A} (f : A → A) (l : list A) i x : l !! i = Some x → f x = x → alter f i l = l.
Proof.
  intros Hx Hf. rewrite (alter_ext_at f (λ y, y) l i x) by done. by apply list_alter_id.
Qed.
Lemma alter_none {A} (f : A → A) (l : list A) i : l !! i = None → alter f i l = l.
Proof.
  revert i. induction l as [|x l IH]; intros [|i] Hl; simpl in *; try done. f_equal. by apply IH.
Qed.
Lemma lookup_total_Some {A} `{!Inhabited A} (l : list A) i x : l !! i = Some x → l !!! i = x.
Proof. intros H. by rewrite list_lookup_total_alt, H. Qed.
Lemma lookup_Some_total {A} `{!Inhabited A} (l : list A) i : (i < length l)%nat → l !! i = Some (l !!! i).
Proof. intros H. by apply list_lookup_lookup_total_lt. Qed.

Lemma list_alter_insert_at {A} (f : A → A) (l : list A) i x : l !! i = Some x → alter f i l = <[i := f x]> l.
Proof.
  intros Hx. rewrite <- (list_insert_id l i x Hx) at 1.
  revert i Hx. induction l as [|y l IH]; intros [|i] Hx; simpl; try done. f_equal. by apply IH.
Qed.
Lemma alter_insert_at `{Countable X} {A} (f : A → A) (m : gmap X A) i x :
  m !! i = Some x → alter f i m = <[i := f x]> m.
Proof.
  intros Hx. rewrite <- (insert_id m i x Hx) at 1. by rewrite alter_insert_eq.
Qed.

(** ** Record updates

    [r <| f := v |>] is the C assignment [r.f = v] on a value. *)
Class Setter {R E : Type} (f : R → E) := set_field : (E → E) → R → R.
Arguments set_field {R E} f {_} _ _ /.
#[warnings="-postfix-notation-not-level-1"]
Notation "r '<|' f ':=' v '|>'" := (set_field f (λ _, v) r)
  (at level 12, f at next level, left associativity, format "r  '<|'  f  ':='  v  '|>'").

(** ** Computations of C code

    [comp W S A] is the outcome of running code that returns an [A] on a state
    [S]:
    - [Done a s]: it returned [a] in state [s];
    - [Panic msg]: it called [panic(msg)];
    - [Undef msg]: it did what C leaves undefined (or faulted): a null or
      wild dereference, an array index out of range;
    - [Block w s k]: it gave up the processor (or spins) for reason [w] in
      state [s]; when it goes on, in whatever state the others left, it is [k];
    - [NoFuel]: a loop that waits was re-entered more often than the bound. *)
Inductive comp (W S A : Type) : Type :=
| Done (a : A) (s : S)
| Panic (msg : string)
| Undef (msg : string)
| NoFuel
| Block (w : W) (s : S) (k : S → comp W S A).
Arguments Done {W S A} a s.
Arguments Panic {W S A} msg.
Arguments Undef {W S A} msg.
Arguments NoFuel {W S A}.
Arguments Block {W S A} w s k.

(** Code is a function of the bound on waiting loops and of the state. *)
Definition M (W S A : Type) : Type := nat → S → comp W S A.

Section monad.
Context {W S : Type}.

Fixpoint comp_bind {A B} (c : comp W S A) (f : A → S → comp W S B) : comp W S B :=
  match c with
  | Done a s => f a s
  | Panic msg => Panic msg
  | Undef msg => Undef msg
  | NoFuel => NoFuel
  | Block w s k => Block w s (λ s', comp_bind (k s') f)
  end.

#[global] Instance M_ret : MRet (M W S) := λ A a n s, Done a s.
#[global] Instance M_bind : MBind (M W S) :=
  λ A B f m n s, comp_bind (m n s) (λ a s', f a n s').

Definition gets {A} (f : S → A) : M W S A := λ n s, Done (f s) s.
Definition modify (f : S → S) : M W S unit := λ n s, Done tt (f s).
Definition panic {A} (msg : string) : M W S A := λ n s, Panic msg.
Definition undef {A} (msg : string) : M W S A := λ n s, Undef msg.
Definition when (b : bool) (m : M W S unit) : M W S unit :=
  if b then m else mret tt.

(** A loop that waits takes its bound from the environment. *)
Definition with_fuel {A} (f : nat → M W S A) : M W S A := λ n s, f n n s.
Definition out_of_fuel {A} : M W S A := λ n s, NoFuel.

(** A value that C code reads through a pointer that may be wild. *)
Definition from_opt {A} (msg : string) (o : option A) : M W S A :=
  match o with Some a => mret a | None => undef msg end.

(** [for(x in l) body(x)] *)
Fixpoint forM {I} (l : list I) (body : I → M W S unit) : M W S unit :=
  match l with
  | [] => mret tt
  | i :: l' => body i ;; forM l' body
  end.

(** [for(x in l) ...] whose body may leave the loop with a value. *)
Fixpoint searchM {I R} (l : list I) (body : I → M W S (option R)) : M W S (option R) :=
  match l with
  | [] => mret None
  | i :: l' => o ← body i; match o with Some r => mret (Some r) | None => searchM l' body end
  end.

Lemma bind_done {A B} (m : M W S A) (f : A → M W S B) n s a s' :
  m n s = Done a s' → (m ≫= f) n s = f a n s'.
Proof. intros H. unfold mbind, M_bind. by rewrite H. Qed.
Lemma bind_panic {A B} (m : M W S A) (f : A → M W S B) n s msg :
  m n s = Panic msg → (m ≫= f) n s = Panic msg.
Proof. intros H. unfold mbind, M_bind. by rewrite H. Qed.
Lemma bind_undef {A B} (m : M W S A) (f : A → M W S B) n s msg :
  m n s = Undef msg → (m ≫= f) n s = Undef msg.
Proof. intros H. unfold mbind, M_bind. by rewrite H. Qed.
Lemma bind_block {A B} (m : M W S A) (f : A → M W S B) n s w s' k :
  m n s = Block w s' k →
  (m ≫= f) n s = Block w s' (λ s'', comp_bind (k s'') (λ a s3, f a n s3)).
Proof. intros H. unfold mbind, M_bind. by rewrite H. Qed.
Lemma bind_done_inv {A B} (m : M W S A) (f : A → M W S B) n s b s'' :
  (m ≫= f) n s = Done b s'' → ∃ a s', m n s = Done a s' ∧ f a n s' = Done b s''.
Proof.
  unfold mbind, M_bind. destruct (m n s) eqn:E; simpl; try discriminate. eauto.
Qed.

(** [wp R c Q]: when every wait of [c] is answered by a step of [R], [c]
    neither panics nor does anything undefined nor waits more often than its
    bound allows, and [Q] holds when it returns. *)
Fixpoint wp {A} (R : W → S → S → Prop) (c : comp W S A) (Q : A → S → Prop) : Prop :=
  match c with
  | Done a s => Q a s
  | Panic _ | Undef _ | NoFuel => False
  | Block w s k => ∀ s', R w s s' → wp R (k s') Q
  end.

(** The same with a guarantee: [G w s] holds of every state [s] in which the
    computation waits for [w]. *)
Fixpoint wpg {A} (G : W → S → Prop) (R : W → S → S → Prop) (c : comp W S A) (Q : A → S → Prop) : Prop :=
  match c with
  | Done a s => Q a s
  | Panic _ | Undef _ | NoFuel => False
  | Block w s k => G w s ∧ ∀ s', R w s s' → wpg G R (k s') Q
  end.

(** A search whose body changes the state only when it finds something:
    [hit i] is the result at [i] and the state then. *)
Fixpoint first_some {I X} (hit : I → option X) (l : list I) : option X :=
  match l with
  | [] => None
  | i :: l' => match hit i with Some x => Some x | None => first_some hit l' end
  end.
Lemma searchM_done {I R} (hit : I → option (R * S)) (l : list I) (body : I → M W S (option R)) n s :
  (∀ i, i ∈ l → body i n s = match hit i with Some (r, s') => Done (Some r) s' | None => Done None s end) →
  searchM l body n s = match first_some hit l with Some (r, s') => Done (Some r) s' | None => Done None s end.
Proof.
  induction l as [|i l IH]; intros Hb; simpl; [done|].
  pose proof (Hb i ltac:(apply list_elem_of_here)) as Hi. unfold mbind, M_bind. rewrite Hi.
  destruct (hit i) as [[r s']|]; simpl; [done|].
  apply IH. intros j Hj. apply Hb. by apply list_elem_of_further.
Qed.

Lemma wp_mono {A} R (c : comp W S A) (Q Q' : A → S → Prop) :
  (∀ a s, Q a s → Q' a s) → wp R c Q → wp R c Q'.
Proof. intros HQ. induction c; simpl; eauto. Qed.

Lemma wp_bind {A B} R (m : M W S A) (f : A → M W S B) n s Q :
  wp R (m n s) (λ a s', wp R (f a n s') Q) → wp R ((m ≫= f) n s) Q.
Proof.
  unfold mbind, M_bind. generalize (m n s) as c.
  induction c; simpl; eauto.
Qed.

Lemma wpg_mono {A} G R (c : comp W S A) (Q Q' : A → S → Prop) :
  (∀ a s, Q a s → Q' a s) → wpg G R c Q → wpg G R c Q'.
Proof. intros HQ. induction c; simpl; naive_solver. Qed.
Lemma wpg_bind {A B} G R (m : M W S A) (f : A → M W S B) n s Q :
  wpg G R (m n s) (λ a s', wpg G R (f a n s') Q) → wpg G R ((m ≫= f) n s) Q.
Proof.
  unfold mbind, M_bind. generalize (m n s) as c.
  induction c; simpl; naive_solver.
Qed.

Lemma wp_bind_inv {A B} R (m : M W S A) (f : A → M W S B) n s Q :
  wp R ((m ≫= f) n s) Q → wp R (m n s) (λ a s', wp R (f a n s') Q).
Proof.
  unfold mbind, M_bind. generalize (m n s) as c.
  induction c; simpl; eauto.
Qed.
(** The first two of three computations. *)
Lemma wp_bind2 {A B C} R (m : M W S A) (f : A → M W S B) (g : B → M W S C) n s Q :
  wp R ((m ≫= f) n s) (λ b s', wp R (g b n s') Q) → wp R ((m ≫= (λ a, f a ≫= g)) n s) Q.
Proof.
  intros H%wp_bind_inv. apply wp_bind. eapply wp_mono; [|exact H]. intros a s'. apply wp_bind.
Qed.

(** A loop over the indices below [k] keeps an invariant of the index. *)
Lemma wp_forM_seqZ R (k : nat) (body : Z → M W S unit) n (I : nat → S → Prop) s :
  (∀ i s, (i < k)%nat → I i s → wp R (body (Z.of_nat i) n s) (λ _, I (Datatypes.S i))) →
  I O s → wp R (forM (seqZ 0 (Z.of_nat k)) body n s) (λ _, I k).
Proof.
  intros Hb H0. assert (Hgen : ∀ j i s, (i + j = k)%nat → I i s →
    wp R (forM (seqZ (Z.of_nat i) (Z.of_nat j)) body n s) (λ _, I k)).
  { induction j as [|j IH]; intros i s1 Hij Hi.
    - simpl. by replace k with i by lia.
    - rewrite seqZ_cons by lia. cbn [forM]. apply wp_bind.
      eapply wp_mono; [|apply (Hb i s1); [lia | done]]. intros a s2 Hi2.
      replace (Z.succ (Z.of_nat i)) with (Z.of_nat (Datatypes.S i)) by lia.
      replace (Z.pred (Z.of_nat (Datatypes.S j))) with (Z.of_nat j) by lia. apply IH; [lia | done]. }
  by apply (Hgen k O s).
Qed.
End monad.

(** ** Automation *)

(** Run the first statement of a sequence with an equation for it. *)
Ltac kbind H := erewrite bind_done; [ | solve [eapply H; eauto] ].
(** Run the statements that are only reads and writes of the state. *)
Ltac kstep := progress (unfold mbind, M_bind, mret, M_ret, gets, modify, when, panic, undef, from_opt; simpl).

(** Destruct the innermost test of a conditional in the goal or in [H]. *)
Ltac case_if_in H :=
  match type of H with
  | context [if ?b then _ else _] => let E := fresh "E" in destruct b eqn:E
  end.
