(* ===== verification/Memory.v ===== *)
(** * Memory: byte-addressed memory and the kernel's string.c

    A memory is a total map from addresses to bytes (the kernel never checks
    its own pointers; what it must not touch is stated by the theorems, not by
    a fault).  Words are little-endian, as on the x86.  The functions of
    string.c are translated loop by loop, the two inlined string instructions
    of x86.h ([rep stosb], [rep stosl]) included. *)

From S2P Require Import Prelude.

Definition mem : Type := Z → Z.

(** Every cell holds a byte. *)
Definition mem_ok (m : mem) : Prop := ∀ a, 0 <= m a < 256.

Definition store8 (m : mem) (a v : Z) : mem := <[a := u8 v]> m.

Definition load16 (m : mem) (a : Z) : Z := m a + 2 ^ 8 * m (a + 1).
Definition load32 (m : mem) (a : Z) : Z :=
  m a + 2 ^ 8 * m (a + 1) + 2 ^ 16 * m (a + 2) + 2 ^ 24 * m (a + 3).
Definition store32 (m : mem) (a v : Z) : mem :=
  store8 (store8 (store8 (store8 m a v) (a + 1) (v / 2 ^ 8))
    (a + 2) (v / 2 ^ 16)) (a + 3) (v / 2 ^ 24).

(** [n] bytes read from [a]. *)
Fixpoint load_bytes (m : mem) (a : Z) (n : nat) : list Z :=
  match n with
  | O => []
  | S n' => m a :: load_bytes m (a + 1) n'
  end.

Fixpoint store_bytes (m : mem) (a : Z) (l : list Z) : mem :=
  match l with
  | [] => m
  | b :: l' => store_bytes (store8 m a b) (a + 1) l'
  end.

(** A word from its bytes and back. *)
Definition word_of (l : list Z) : Z := foldr (λ b w, b + 2 ^ 8 * w) 0 l.
Definition bytes_of (w : Z) : list Z := [u8 w; u8 (w / 2 ^ 8); u8 (w / 2 ^ 16); u8 (w / 2 ^ 24)].
(** Words inside an array of bytes, at a byte offset. *)
Definition ld32 (l : list Z) (off : Z) : Z := word_of (take 4 (drop (Z.to_nat off) l)).
Definition st32 (l : list Z) (off w : Z) : list Z := list_inserts (Z.to_nat off) (bytes_of w) l.
Definition ld16 (l : list Z) (off : Z) : Z := word_of (take 2 (drop (Z.to_nat off) l)).
Definition st16 (l : list Z) (off w : Z) : list Z := list_inserts (Z.to_nat off) [u8 w; u8 (w / 2 ^ 8)] l.

(** ** x86.h: the string instructions *)

Fixpoint stosb (cnt : nat) (m : mem) (addr data : Z) : mem :=
  match cnt with
  | O => m
  | S cnt' => stosb cnt' (store8 m addr data) (addr + 1) data
  end.

Fixpoint stosl (cnt : nat) (m : mem) (addr data : Z) : mem :=
  match cnt with
  | O => m
  | S cnt' => stosl cnt' (store32 m addr data) (addr + 4) data
  end.

(** ** string.c *)

Definition memset (m : mem) (dst c n : Z) : mem :=
  if (Z.rem (s32 dst) 4 =? 0) && (n mod 4 =? 0) then
    let c := Z.land c 0xFF in
    stosl (Z.to_nat (n / 4)) m dst
      (Z.lor (Z.lor (Z.lor (Z.shiftl c 24) (Z.shiftl c 16)) (Z.shiftl c 8)) c)
  else stosb (Z.to_nat n) m dst c.

Fixpoint memcmp_loop (n : nat) (m : mem) (s1 s2 : Z) : Z :=
  match n with
  | O => 0
  | S n' => if negb (m s1 =? m s2) then m s1 - m s2 else memcmp_loop n' m (s1 + 1) (s2 + 1)
  end.
Definition memcmp (m : mem) (v1 v2 n : Z) : Z := memcmp_loop (Z.to_nat n) m v1 v2.

(** [while(n-- > 0) *--d = *--s;] *)
Fixpoint copy_down (n : nat) (m : mem) (d s : Z) : mem :=
  match n with
  | O => m
  | S n' => copy_down n' (store8 m (d - 1) (m (s - 1))) (d - 1) (s - 1)
  end.
(** [while(n-- > 0) *d++ = *s++;] *)
Fixpoint copy_up (n : nat) (m : mem) (d s : Z) : mem :=
  match n with
  | O => m
  | S n' => copy_up n' (store8 m d (m s)) (d + 1) (s + 1)
  end.
Definition memmove (m : mem) (dst src n : Z) : mem :=
  if (src <? dst) && (src + n >? dst) then copy_down (Z.to_nat n) m (dst + n) (src + n)
  else copy_up (Z.to_nat n) m dst src.

Definition memcpy (m : mem) (dst src n : Z) : mem := memmove m dst src n.

Fixpoint strncmp (n : nat) (m : mem) (p q : Z) : Z :=
  match n with
  | O => 0
  | S n' =>
    if negb (m p =? 0) && (m p =? m q) then strncmp n' m (p + 1) (q + 1)
    else m p - m q
  end.

Fixpoint zero_fill (n : nat) (m : mem) (s : Z) : mem :=
  match n with
  | O => m
  | S n' => zero_fill n' (store8 m s 0) (s + 1)
  end.
Fixpoint strncpy (n : nat) (m : mem) (s t : Z) : mem :=
  match n with
  | O => m
  | S n' =>
    let c := m t in
    let m' := store8 m s c in
    if c =? 0 then zero_fill n' m' (s + 1) else strncpy n' m' (s + 1) (t + 1)
  end.

Fixpoint safestrcpy_loop (k : nat) (m : mem) (s t : Z) : mem :=
  match k with
  | O => store8 m s 0
  | S k' =>
    let c := m t in
    let m' := store8 m s c in
    if c =? 0 then store8 m' (s + 1) 0 else safestrcpy_loop k' m' (s + 1) (t + 1)
  end.
Definition safestrcpy (m : mem) (s t n : Z) : mem :=
  if n <=? 0 then m else safestrcpy_loop (Z.to_nat (n - 1)) m s t.

(** [for(n = 0; s[n]; n++)]: [None] when no NUL is met in [fuel] bytes. *)
Fixpoint strlen_loop (fuel : nat) (m : mem) (s n : Z) : option Z :=
  match fuel with
  | O => None
  | S fuel' => if m (s + n) =? 0 then Some n else strlen_loop fuel' m s (n + 1)
  end.
Definition strlen (fuel : nat) (m : mem) (s : Z) : option Z := strlen_loop fuel m s 0.

(** ** Reasoning about stores *)

#[global] Arguments memset : simpl never.
#[global] Arguments memmove : simpl never.

Lemma store8_eq m a v : store8 m a v a = u8 v.
Proof. unfold store8. apply fn_lookup_insert. Qed.
Lemma store8_ne m a v b : a ≠ b → store8 m a v b = m b.
Proof. intros. unfold store8. by apply fn_lookup_insert_ne. Qed.
Lemma store8_lookup m a v b : store8 m a v b = if decide (a = b) then u8 v else m b.
Proof. case_decide; [subst; apply store8_eq | by apply store8_ne]. Qed.
Lemma store8_ok m a v : mem_ok m → mem_ok (store8 m a v).
Proof. intros H b. rewrite store8_lookup. case_decide; [apply u8_range | apply H]. Qed.

Ltac mem_case :=
  rewrite ?store8_lookup; repeat (case_decide; try lia); try done.

Lemma store32_frame m a v b : ¬ (a <= b < a + 4) → store32 m a v b = m b.
Proof. intros. unfold store32. mem_case. Qed.
Lemma store32_ok m a v : mem_ok m → mem_ok (store32 m a v).
Proof. intros. unfold store32. auto 10 using store8_ok. Qed.

(** The four bytes of a word put together again. *)
Lemma bytes_word v :
  u8 v + 2 ^ 8 * u8 (v / 2 ^ 8) + 2 ^ 16 * u8 (v / 2 ^ 16) + 2 ^ 24 * u8 (v / 2 ^ 24) = u32 v.
Proof.
  unfold u8, u32. change (2 ^ 16) with (2 ^ 8 * 2 ^ 8). change (2 ^ 24) with (2 ^ 8 * 2 ^ 8 * 2 ^ 8).
  change (2 ^ 32) with (2 ^ 8 * (2 ^ 8 * (2 ^ 8 * 2 ^ 8))).
  rewrite <- !Z.div_div by lia.
  rewrite (Z.rem_mul_r v), (Z.rem_mul_r (v / 2 ^ 8)), (Z.rem_mul_r (v / 2 ^ 8 / 2 ^ 8)) by lia.
  ring.
Qed.

Lemma load32_store32 m a v : load32 (store32 m a v) a = u32 v.
Proof.
  rewrite <- bytes_word. unfold load32, store32. f_equal; [f_equal; [f_equal|]|]; mem_case.
Qed.
Lemma load32_frame m m' a : (∀ b, a <= b < a + 4 → m' b = m b) → load32 m' a = load32 m a.
Proof. intros H. unfold load32. rewrite !H by lia. done. Qed.
Lemma load32_store32_ne m a v b :
  b + 4 <= a ∨ a + 4 <= b → load32 (store32 m a v) b = load32 m b.
Proof. intros. apply load32_frame. intros. apply store32_frame. lia. Qed.
Lemma load32_range m a : mem_ok m → 0 <= load32 m a < 2 ^ 32.
Proof.
  intros H. unfold load32.
  pose proof (H a). pose proof (H (a + 1)). pose proof (H (a + 2)). pose proof (H (a + 3)). lia.
Qed.

(** Bytes stored one after the other. *)
Lemma store_bytes_out m a l b : ¬ (a <= b < a + Z.of_nat (length l)) → store_bytes m a l b = m b.
Proof.
  revert m a. induction l as [|c l IH]; intros m a H; simpl in *; [done|].
  rewrite IH by lia. apply store8_ne. lia.
Qed.
Lemma store_bytes_in m a l i x :
  l !! i = Some x → 0 <= x < 256 → store_bytes m a l (a + Z.of_nat i) = x.
Proof.
  revert m a i. induction l as [|c l IH]; intros m a i H Hx; [done|]. destruct i as [|i]; simpl in *.
  - injection H as ->. rewrite store_bytes_out by lia. rewrite Z.add_0_r, store8_eq. by apply u8_small.
  - replace (a + Z.of_nat (S i)) with (a + 1 + Z.of_nat i) by lia. by apply IH.
Qed.
Lemma store_bytes_ok l : ∀ m a, mem_ok m → mem_ok (store_bytes m a l).
Proof. induction l as [|x l IH]; intros m a Hm; simpl; [done|]. apply IH. by apply store8_ok. Qed.

(** ** The functions of string.c meet their specifications *)

Lemma stosb_lookup cnt m addr d b :
  stosb cnt m addr d b = if decide (addr <= b < addr + Z.of_nat cnt) then u8 d else m b.
Proof.
  revert m addr. induction cnt as [|cnt IH]; intros m addr; simpl.
  - by rewrite decide_False by lia.
  - rewrite IH. mem_case.
Qed.

Lemma land_ones_u8 c : Z.land c 0xFF = u8 c.
Proof. unfold u8. change 0xFF with (Z.ones 8). by rewrite Z.land_ones by lia. Qed.

(** A word made of four equal bytes. *)
Lemma byte_pattern c :
  0 <= c < 256 →
  Z.lor (Z.lor (Z.lor (Z.shiftl c 24) (Z.shiftl c 16)) (Z.shiftl c 8)) c
  = c * 2 ^ 24 + c * 2 ^ 16 + c * 2 ^ 8 + c.
Proof.
  intros Hc. rewrite !Z.shiftl_mul_pow2 by lia.
  rewrite (lor_high_low c (c * 2 ^ 16) 24) by lia.
  replace (c * 2 ^ 24 + c * 2 ^ 16) with ((c * 2 ^ 8 + c) * 2 ^ 16) by lia.
  rewrite (lor_high_low _ (c * 2 ^ 8) 16) by lia.
  replace ((c * 2 ^ 8 + c) * 2 ^ 16 + c * 2 ^ 8) with ((c * 2 ^ 16 + c * 2 ^ 8 + c) * 2 ^ 8) by lia.
  rewrite (lor_high_low _ c 8) by lia. lia.
Qed.

Lemma stosl_lookup cnt m addr c b :
  0 <= c < 256 →
  stosl cnt m addr (c * 2 ^ 24 + c * 2 ^ 16 + c * 2 ^ 8 + c) b
  = if decide (addr <= b < addr + 4 * Z.of_nat cnt) then c else m b.
Proof.
  intros Hc. set (w := c * 2 ^ 24 + c * 2 ^ 16 + c * 2 ^ 8 + c).
  assert (Hw : u8 w = c ∧ u8 (w / 2 ^ 8) = c ∧ u8 (w / 2 ^ 16) = c ∧ u8 (w / 2 ^ 24) = c).
  { subst w. unfold u8. split_and!; Z.div_mod_to_equations; lia. }
  destruct Hw as (H0 & H1 & H2 & H3).
  revert m addr. induction cnt as [|cnt IH]; intros m addr; simpl stosl.
  - by rewrite decide_False by lia.
  - rewrite IH. unfold store32. rewrite !store8_lookup, H0, H1, H2, H3. mem_case.
Qed.

(** memset fills exactly the [n] bytes at [dst], on its word-wise path too. *)
Lemma memset_lookup m dst c n b :
  0 <= n → memset m dst c n b = if decide (dst <= b < dst + n) then u8 c else m b.
Proof.
  intros Hn. unfold memset.
  destruct ((Z.rem (s32 dst) 4 =? 0) && (n mod 4 =? 0)) eqn:E.
  - apply andb_true_iff in E as [_ E%Z.eqb_eq].
    rewrite land_ones_u8, byte_pattern, stosl_lookup by apply u8_range.
    rewrite Z2Nat.id by (apply Z.div_pos; lia).
    replace (4 * (n / 4)) with n by (Z.div_mod_to_equations; lia). done.
  - rewrite stosb_lookup, Z2Nat.id by lia. done.
Qed.

Lemma memset_ok m dst c n : 0 <= n → mem_ok m → mem_ok (memset m dst c n).
Proof. intros Hn H b. rewrite memset_lookup by done. case_decide; [apply u8_range | apply H]. Qed.

(** The cells from [a] to [a + n] hold bytes. *)
Definition bytes_at (m : mem) (a n : Z) : Prop := ∀ b, a <= b < a + n → 0 <= m b < 256.
Lemma bytes_at_ok m a n : mem_ok m → bytes_at m a n.
Proof. intros H b _. apply H. Qed.
Lemma bytes_at_store8 m a n a' n' d v :
  bytes_at m a n → a <= a' → a' + n' <= a + n → bytes_at (store8 m d v) a' n'.
Proof.
  intros H H1 H2 b Hb. rewrite store8_lookup. case_decide; [apply u8_range | apply H; lia].
Qed.

Lemma copy_up_lookup n m d s b :
  bytes_at m s (Z.of_nat n) → d <= s ∨ s + Z.of_nat n <= d →
  copy_up n m d s b = if decide (d <= b < d + Z.of_nat n) then m (b - d + s) else m b.
Proof.
  revert m d s. induction n as [|n IH]; intros m d s Hm Hds; simpl.
  - by rewrite decide_False by lia.
  - rewrite IH by (lia || (eapply bytes_at_store8; [done | lia | lia])).
    destruct (decide (d + 1 <= b < d + 1 + Z.of_nat n)).
    + rewrite decide_True by lia. rewrite store8_ne by lia. f_equal. lia.
    + rewrite store8_lookup. case_decide.
      * subst. rewrite decide_True by lia. rewrite u8_small by (apply Hm; lia). f_equal. lia.
      * by rewrite decide_False by lia.
Qed.

Lemma copy_down_lookup n m d s b :
  bytes_at m (s - Z.of_nat n) (Z.of_nat n) → s <= d →
  copy_down n m d s b = if decide (d - Z.of_nat n <= b < d) then m (b - d + s) else m b.
Proof.
  revert m d s. induction n as [|n IH]; intros m d s Hm Hds; simpl.
  - by rewrite decide_False by lia.
  - rewrite IH by (lia || (eapply bytes_at_store8; [done | lia | lia])).
    destruct (decide (d - 1 - Z.of_nat n <= b < d - 1)).
    + rewrite decide_True by lia. rewrite store8_ne by lia. f_equal. lia.
    + rewrite store8_lookup. case_decide.
      * subst. rewrite decide_True by lia. rewrite u8_small by (apply Hm; lia). f_equal. lia.
      * by rewrite decide_False by lia.
Qed.

(** memmove copies the old source, whichever way the two ranges overlap. *)
Lemma memmove_lookup m dst src n b :
  bytes_at m src n → 0 <= n →
  memmove m dst src n b = if decide (dst <= b < dst + n) then m (b - dst + src) else m b.
Proof.
  intros Hm Hn. unfold memmove.
  destruct ((src <? dst) && (src + n >? dst)) eqn:E.
  - apply andb_true_iff in E as [E1%Z.ltb_lt E2].
    rewrite copy_down_lookup, Z2Nat.id
      by (rewrite ?Z2Nat.id by lia; (lia || by replace (src + n - n) with src by lia)).
    repeat case_decide; try lia; f_equal; lia.
  - apply andb_false_iff in E. rewrite copy_up_lookup, Z2Nat.id by (rewrite ?Z2Nat.id by lia; (done || lia)). done.
Qed.

Lemma memmove_ok m dst src n : 0 <= n → mem_ok m → mem_ok (memmove m dst src n).
Proof. intros Hn H b. rewrite memmove_lookup by (done || by apply bytes_at_ok). case_decide; apply H. Qed.

Lemma memcmp_zero m v1 v2 n :
  memcmp m v1 v2 n = 0 ↔ ∀ i, 0 <= i < n → m (v1 + i) = m (v2 + i).
Proof.
  unfold memcmp. remember (Z.to_nat n) as k eqn:Hk.
  assert (Hr : (∀ i, 0 <= i < n → m (v1 + i) = m (v2 + i))
             ↔ (∀ i, 0 <= i < Z.of_nat k → m (v1 + i) = m (v2 + i))).
  { split; intros H i Hi; apply H; lia. }
  rewrite Hr. clear Hr Hk n. revert v1 v2. induction k as [|k IH]; intros v1 v2; simpl.
  - split; [intros _ i Hi; lia | done].
  - destruct (Z.eqb_spec (m v1) (m v2)) as [E|E]; simpl.
    + rewrite IH. split; intros H i Hi.
      * destruct (decide (i = 0)) as [->|]; [by rewrite !Z.add_0_r|].
        specialize (H (i - 1) ltac:(lia)).
        by replace (v1 + 1 + (i - 1)) with (v1 + i) in H by lia;
           replace (v2 + 1 + (i - 1)) with (v2 + i) in H by lia.
      * specialize (H (i + 1) ltac:(lia)).
        by replace (v1 + (i + 1)) with (v1 + 1 + i) in H by lia;
           replace (v2 + (i + 1)) with (v2 + 1 + i) in H by lia.
    + split; [lia | intros H]. specialize (H 0 ltac:(lia)). rewrite !Z.add_0_r in H. lia.
Qed.

(** ** C strings

    [cstr m p l]: at [p] there are the bytes [l], none of them NUL, and then a
    NUL. *)
Fixpoint cstr (m : mem) (p : Z) (l : list Z) : Prop :=
  match l with
  | [] => m p = 0
  | c :: l' => m p = c ∧ c ≠ 0 ∧ cstr m (p + 1) l'
  end.

Lemma strncmp_zero n m p q l1 l2 :
  cstr m p l1 → cstr m q l2 → strncmp n m p q = 0 ↔ take n l1 = take n l2.
Proof.
  revert p q l1 l2. induction n as [|n IH]; intros p q l1 l2 H1 H2; [done|].
  destruct l1 as [|c1 l1], l2 as [|c2 l2]; simpl in *.
  - rewrite H1, H2. done.
  - destruct H2 as (H2 & Hc & _). rewrite H1. simpl. split; [lia | done].
  - destruct H1 as (H1 & Hc & _). rewrite H1, H2.
    destruct (Z.eqb_spec c1 0); [done|]. simpl.
    destruct (Z.eqb_spec c1 0); [done|]. split; [lia | done].
  - destruct H1 as (H1 & Hc1 & H1'), H2 as (H2 & Hc2 & H2'). rewrite H1, H2.
    destruct (Z.eqb_spec c1 0); [done|]. simpl.
    destruct (Z.eqb_spec c1 c2) as [->|Hne].
    + rewrite (IH _ _ _ _ H1' H2'). split; [by intros -> | by intros [= ->]].
    + split; [lia | congruence].
Qed.

Lemma zero_fill_lookup n m s b :
  zero_fill n m s b = if decide (s <= b < s + Z.of_nat n) then 0 else m b.
Proof.
  revert m s. induction n as [|n IH]; intros m s; simpl.
  - by rewrite decide_False by lia.
  - rewrite IH. mem_case.
Qed.

Lemma cstr_frame m m' p l :
  (∀ b, p <= b <= p + Z.of_nat (length l) → m' b = m b) → cstr m p l → cstr m' p l.
Proof.
  revert p. induction l as [|c l IH]; intros p H; simpl in *.
  - rewrite H by lia. done.
  - intros (H1 & H2 & H3). rewrite H by lia. split_and!; try done.
    apply IH; [intros; apply H; lia | done].
Qed.

Lemma cstr_bytes m p l : mem_ok m → cstr m p l → Forall (λ c, 0 < c < 256) l.
Proof.
  intros Hm. revert p. induction l as [|c l IH]; intros p; simpl; [done|].
  intros (H1 & H2 & H3). constructor; [pose proof (Hm p); lia | eauto].
Qed.

(** strncpy writes exactly [n] bytes: the string cut at [n], padded with NULs. *)
Lemma strncpy_lookup n m s t l b :
  mem_ok m → cstr m t l → s + Z.of_nat n <= t ∨ t + Z.of_nat (length l) < s →
  strncpy n m s t b =
    if decide (s <= b < s + Z.of_nat n) then default 0 (l !! Z.to_nat (b - s)) else m b.
Proof.
  revert m s t l. induction n as [|n IH]; intros m s t l Hm Ht Hd; simpl.
  { by rewrite decide_False by lia. }
  destruct l as [|c l]; simpl in Ht.
  - rewrite Ht. simpl. rewrite zero_fill_lookup.
    destruct (decide (s + 1 <= b < s + 1 + Z.of_nat n)).
    + rewrite decide_True by lia. done.
    + rewrite store8_lookup. case_decide; [rewrite decide_True by lia; done|].
      by rewrite decide_False by lia.
  - destruct Ht as (Ht & Hc & Ht'). rewrite Ht. destruct (Z.eqb_spec c 0); [done|].
    simpl in Hd. rewrite (IH _ _ _ l).
    + destruct (decide (s + 1 <= b < s + 1 + Z.of_nat n)).
      * rewrite decide_True by lia.
        replace (Z.to_nat (b - s)) with (S (Z.to_nat (b - (s + 1)))) by lia. done.
      * rewrite store8_lookup. case_decide.
        -- subst b. rewrite decide_True by lia. rewrite Z.sub_diag. simpl.
           apply u8_small. rewrite <- Ht. apply Hm.
        -- by rewrite decide_False by lia.
    + by apply store8_ok.
    + eapply cstr_frame; [|done]. intros. apply store8_ne. lia.
    + lia.
Qed.

(** safestrcpy leaves a NUL-terminated prefix of the source of fewer than [n]
    bytes, and touches nothing outside the [n] bytes of the destination. *)
Lemma safestrcpy_loop_spec k m s t l :
  mem_ok m → cstr m t l → s + Z.of_nat k < t ∨ t + Z.of_nat (length l) < s →
  let m' := safestrcpy_loop k m s t in
  cstr m' s (take k l) ∧ ∀ b, ¬ (s <= b <= s + Z.of_nat k) → m' b = m b.
Proof.
  revert m s t l. induction k as [|k IH]; intros m s t l Hm Ht Hd; simpl.
  { split; [apply store8_eq | intros; apply store8_ne; lia]. }
  destruct l as [|c l]; simpl in Ht.
  - rewrite Ht. simpl. split.
    + rewrite store8_ne by lia. apply store8_eq.
    + intros. rewrite !store8_ne by lia. done.
  - destruct Ht as (Ht & Hc & Ht'). rewrite Ht. destruct (Z.eqb_spec c 0); [done|].
    simpl in Hd. destruct (IH (store8 m s c) (s + 1) (t + 1) l) as [H1 H2].
    + by apply store8_ok.
    + eapply cstr_frame; [|done]. intros. apply store8_ne. lia.
    + lia.
    + split.
      * simpl. split_and!; [|done|done]. rewrite H2 by lia. rewrite store8_eq.
        apply u8_small. rewrite <- Ht. apply Hm.
      * intros b Hb. rewrite H2 by lia. apply store8_ne. lia.
Qed.

Lemma safestrcpy_spec m s t l n :
  0 < n → mem_ok m → cstr m t l → s + n <= t ∨ t + Z.of_nat (length l) < s →
  cstr (safestrcpy m s t n) s (take (Z.to_nat (n - 1)) l)
  ∧ ∀ b, ¬ (s <= b < s + n) → safestrcpy m s t n b = m b.
Proof.
  intros Hn Hm Ht Hd. unfold safestrcpy. destruct (Z.leb_spec n 0); [lia|].
  destruct (safestrcpy_loop_spec (Z.to_nat (n - 1)) m s t l) as [H1 H2]; [done|done|lia|].
  split; [done|]. intros. apply H2. lia.
Qed.

Lemma strlen_loop_cstr m s l fuel n :
  cstr m (s + n) l → (length l < fuel)%nat → strlen_loop fuel m s n = Some (n + Z.of_nat (length l)).
Proof.
  revert n l. induction fuel as [|fuel IH]; intros n l H Hf; [lia|].
  destruct l as [|c l]; simpl in *.
  - rewrite H. simpl. f_equal. lia.
  - destruct H as (H1 & H2 & H3). rewrite H1. destruct (Z.eqb_spec c 0); [done|].
    rewrite <- Z.add_assoc in H3. rewrite (IH _ _ H3) by lia. f_equal. lia.
Qed.
Lemma strlen_cstr m s l fuel :
  cstr m s l → (length l < fuel)%nat → strlen fuel m s = Some (Z.of_nat (length l)).
Proof. intros. unfold strlen. rewrite (strlen_loop_cstr _ _ l); [done | by rewrite Z.add_0_r | done]. Qed.

(** ** Words in arrays of bytes

    The contents of disk blocks are lists of bytes; these are the round trips
    of the 16- and 32-bit fields stored in them. *)

(** [n] bytes at offset [off]. *)
Definition slice (off n : nat) (l : list Z) : list Z := take n (drop off l).

Lemma slice_lookup off n l k : slice off n l !! k = if decide (k < n)%nat then l !! (off + k)%nat else None.
Proof.
  unfold slice. destruct (decide (k < n)%nat) as [Hk|Hk].
  - by rewrite lookup_take_lt, lookup_drop by done.
  - by rewrite lookup_take_ge by lia.
Qed.
Lemma slice_inserts_eq off w l : (off + length w <= length l)%nat → slice off (length w) (list_inserts off w l) = w.
Proof.
  intros Hl. apply list_eq. intros k. rewrite slice_lookup. destruct (decide (k < length w)%nat) as [Hk|Hk].
  - rewrite list_lookup_inserts by lia. f_equal. lia.
  - symmetry. apply lookup_ge_None. lia.
Qed.
Lemma slice_inserts_ne off' n off w l :
  (off' + n <= off)%nat ∨ (off + length w <= off')%nat → slice off' n (list_inserts off w l) = slice off' n l.
Proof.
  intros Hd. apply list_eq. intros k. rewrite !slice_lookup. destruct (decide (k < n)%nat) as [Hk|Hk]; [|done].
  destruct Hd; [rewrite list_lookup_inserts_lt by lia | rewrite list_lookup_inserts_ge by lia]; done.
Qed.
Lemma slice_length off n l : (off + n <= length l)%nat → length (slice off n l) = n.
Proof. intros H. unfold slice. rewrite length_take, length_drop. lia. Qed.

Lemma length_st32 l off w : length (st32 l off w) = length l.
Proof. apply length_inserts. Qed.
Lemma length_st16 l off w : length (st16 l off w) = length l.
Proof. apply length_inserts. Qed.

Lemma word_of_bytes w : word_of (bytes_of w) = u32 w.
Proof. rewrite <- bytes_word. unfold word_of, bytes_of. simpl. lia. Qed.
Lemma word_of_bytes16 w : word_of [u8 w; u8 (w / 2 ^ 8)] = u16 w.
Proof. unfold word_of, u8, u16. simpl. Z.div_mod_to_equations. lia. Qed.

Lemma ld32_st32 l off w : 0 <= off → off + 4 <= Z.of_nat (length l) → ld32 (st32 l off w) off = u32 w.
Proof.
  intros H0 H1. unfold ld32, st32. rewrite <- word_of_bytes. f_equal.
  apply (slice_inserts_eq (Z.to_nat off) (bytes_of w)). simpl. lia.
Qed.
Lemma ld16_st16 l off w : 0 <= off → off + 2 <= Z.of_nat (length l) → ld16 (st16 l off w) off = u16 w.
Proof.
  intros H0 H1. unfold ld16, st16. rewrite <- word_of_bytes16. f_equal.
  apply (slice_inserts_eq (Z.to_nat off) [u8 w; u8 (w / 2 ^ 8)]). simpl. lia.
Qed.
Lemma ld32_st32_ne l off off' w : 0 <= off → 0 <= off' → off' + 4 <= off ∨ off + 4 <= off' →
  ld32 (st32 l off w) off' = ld32 l off'.
Proof. intros. unfold ld32, st32. f_equal. apply (slice_inserts_ne (Z.to_nat off') 4). simpl. lia. Qed.
Lemma ld16_st32_ne l off off' w : 0 <= off → 0 <= off' → off' + 2 <= off ∨ off + 4 <= off' →
  ld16 (st32 l off w) off' = ld16 l off'.
Proof. intros. unfold ld16, st32. f_equal. apply (slice_inserts_ne (Z.to_nat off') 2). simpl. lia. Qed.
Lemma ld16_st16_ne l off off' w : 0 <= off → 0 <= off' → off' + 2 <= off ∨ off + 2 <= off' →
  ld16 (st16 l off w) off' = ld16 l off'.
Proof. intros. unfold ld16, st16. f_equal. apply (slice_inserts_ne (Z.to_nat off') 2). simpl. lia. Qed.
Lemma ld32_st16_ne l off off' w : 0 <= off → 0 <= off' → off' + 4 <= off ∨ off + 2 <= off' →
  ld32 (st16 l off w) off' = ld32 l off'.
Proof. intros. unfold ld32, st16. f_equal. apply (slice_inserts_ne (Z.to_nat off') 4). simpl. lia. Qed.
