(* ===== verification/Kstate.v ===== *)
(** * Kstate: the kernel's data structures and its state

    The constants of param.h, mmu.h, memlayout.h, fs.h, the structures of
    proc.h, spinlock.h, sleeplock.h, buf.h, file.h, fs.h and the global
    variables of the kernel's C files, gathered in one record [kst] on which
    every kernel function of the development works.

    [kst] has two halves.  [km] is what the locking code works on: the flags
    register, the CPUs and the spin locks.  [kd] is the data the locks protect.
    Keeping them apart makes "the lock is released again and nothing else of
    the machine changed" an equality.

    Pointers to elements of a static array are indices into the list that
    models the array; a pointer that may be null is an [option].  Pointers to
    pages of physical memory are addresses. *)

From S2P Require Import Prelude Memory.

(** ** Constants *)

(** param.h (NPROC and min/max again in pdx.h) *)
Definition NPROC : nat := 64.
Definition KSTACKSIZE : Z := 4096.
Definition NCPU : nat := 8.
Definition NOFILE : nat := 16.
Definition NFILE : nat := 100.
Definition NINODE : nat := 50.
Definition NDEV : Z := 10.
Definition ROOTDEV : Z := 1.
Definition MAXARG : Z := 32.
Definition MAXOPBLOCKS : Z := 10.
Definition LOGSIZE : Z := MAXOPBLOCKS * 3.
Definition NBUF : nat := 30.
Definition FSSIZE : Z := 2000.

(** mmu.h *)
Definition FL_IF : Z := 0x200.
Definition SEG_KCODE : Z := 1.
Definition SEG_KDATA : Z := 2.
Definition SEG_UCODE : Z := 3.
Definition SEG_UDATA : Z := 4.
Definition SEG_TSS : Z := 5.
Definition DPL_USER : Z := 3.
Definition NPDENTRIES : Z := 1024.
Definition NPTENTRIES : Z := 1024.
Definition PGSIZE : Z := 4096.
Definition PTXSHIFT : Z := 12.
Definition PDXSHIFT : Z := 22.
Definition PDX (va : Z) : Z := Z.land (Z.shiftr va PDXSHIFT) 0x3FF.
Definition PTX (va : Z) : Z := Z.land (Z.shiftr va PTXSHIFT) 0x3FF.
Definition PGADDR (d t o : Z) : Z :=
  u32 (Z.lor (Z.lor (Z.shiftl d PDXSHIFT) (Z.shiftl t PTXSHIFT)) o).
Definition PGROUNDUP (sz : Z) : Z := Z.land (sz +u (PGSIZE - 1)) (Z.lnot (PGSIZE - 1)).
Definition PGROUNDDOWN (a : Z) : Z := Z.land a (Z.lnot (PGSIZE - 1)).
Definition PTE_P : Z := 0x001.
Definition PTE_W : Z := 0x002.
Definition PTE_U : Z := 0x004.
Definition PTE_ADDR (pte : Z) : Z := Z.land pte (Z.lnot 0xFFF).
Definition PTE_FLAGS (pte : Z) : Z := Z.land pte 0xFFF.

(** memlayout.h *)
Definition EXTMEM : Z := 0x100000.
Definition PHYSTOP : Z := 0xE000000.
Definition DEVSPACE : Z := 0xFE000000.
Definition KERNBASE : Z := 0x80000000.
Definition KERNLINK : Z := KERNBASE + EXTMEM.
Definition V2P (a : Z) : Z := a -u KERNBASE.
Definition P2V (a : Z) : Z := a +u KERNBASE.

(** fs.h, stat.h, buf.h *)
Definition ROOTINO : Z := 1.
Definition BSIZE : Z := 512.
Definition NDIRECT : Z := 12.
Definition NINDIRECT : Z := BSIZE / 4.
Definition MAXFILE : Z := NDIRECT + NINDIRECT.
Definition DIRSIZ : Z := 14.
Definition T_DIR : Z := 1.
Definition T_FILE : Z := 2.
Definition T_DEV : Z := 3.
Definition B_VALID : Z := 0x2.
Definition B_DIRTY : Z := 0x4.

(** ** Names of locks and of sleep channels

    A lock or a channel is an address in C; distinct objects have distinct
    addresses, so a name per object is enough. *)

Inductive slid : Set := SL_buf (i : nat) | SL_inode (i : nat).
Inductive lockid : Set :=
| L_kmem | L_ptable | L_bcache | L_log | L_icache | L_ftable | L_ide | L_cons
| L_pipe (p : Z)
| L_sleep (sl : slid).
Inductive chan : Set :=
| Ch_proc (i : nat)        (* a struct proc: wait() *)
| Ch_ticks                 (* &ticks: sys_sleep() *)
| Ch_log                   (* &log *)
| Ch_buf (i : nat)         (* a struct buf: iderw() *)
| Ch_sleep (sl : slid)     (* a struct sleeplock *)
| Ch_nread (p : Z)         (* &p->nread *)
| Ch_nwrite (p : Z)        (* &p->nwrite *)
| Ch_input.                (* &input.r *)

#[export] Instance slid_eq_dec : EqDecision slid.
Proof. solve_decision. Defined.
#[export] Instance lockid_eq_dec : EqDecision lockid.
Proof. solve_decision. Defined.
#[export] Instance chan_eq_dec : EqDecision chan.
Proof. solve_decision. Defined.

#[export] Instance slid_countable : Countable slid.
Proof.
  refine (inj_countable' (λ x, match x with SL_buf i => inl i | SL_inode i => inr i end)
    (λ y, match y with inl i => SL_buf i | inr i => SL_inode i end) _).
  by intros [].
Defined.
#[export] Instance lockid_countable : Countable lockid.
Proof.
  refine (inj_countable'
    (λ x, match x with
          | L_kmem => inl 0%nat | L_ptable => inl 1%nat | L_bcache => inl 2%nat
          | L_log => inl 3%nat | L_icache => inl 4%nat | L_ftable => inl 5%nat
          | L_ide => inl 6%nat | L_cons => inl 7%nat
          | L_pipe p => inr (inl p) | L_sleep sl => inr (inr sl)
          end)
    (λ y, match y with
          | inl 0%nat => L_kmem | inl 1%nat => L_ptable | inl 2%nat => L_bcache
          | inl 3%nat => L_log | inl 4%nat => L_icache | inl 5%nat => L_ftable
          | inl 6%nat => L_ide | inl _ => L_cons
          | inr (inl p) => L_pipe p | inr (inr sl) => L_sleep sl
          end) _).
  by intros [].
Defined.

(** ** The machine *)



(** struct spinlock (the call stack [pcs], recorded for debugging, left out) *)
Record spinlock := Spinlock {
  sl_locked : Z;             (* is the lock held? *)
  sl_name : string;
  sl_cpu : option nat        (* the cpu holding the lock *)}.
#[export] Instance set_sl_locked : Setter sl_locked :=
  λ g r, Spinlock (g (sl_locked r)) (sl_name r) (sl_cpu r).
#[export] Instance set_sl_name : Setter sl_name :=
  λ g r, Spinlock (sl_locked r) (g (sl_name r)) (sl_cpu r).
#[export] Instance set_sl_cpu : Setter sl_cpu :=
  λ g r, Spinlock (sl_locked r) (sl_name r) (g (sl_cpu r)).


(** struct cpu: the fields the kernel's C code reads and writes *)
Record cpu := Cpu {
  c_apicid : Z;
  c_ncli : Z;                (* depth of pushcli nesting *)
  c_intena : Z;              (* were interrupts enabled before pushcli? *)
  c_proc : option nat;       (* the process running on this cpu or null *)
  c_started : Z;
  c_ss0 : Z;                 (* ts.ss0, ts.esp0, ts.iomb *)
  c_esp0 : Z;
  c_iomb : Z}.
#[export] Instance set_c_apicid : Setter c_apicid :=
  λ g r, Cpu (g (c_apicid r)) (c_ncli r) (c_intena r) (c_proc r) (c_started r) (c_ss0 r) (c_esp0 r) (c_iomb r).
#[export] Instance set_c_ncli : Setter c_ncli :=
  λ g r, Cpu (c_apicid r) (g (c_ncli r)) (c_intena r) (c_proc r) (c_started r) (c_ss0 r) (c_esp0 r) (c_iomb r).
#[export] Instance set_c_intena : Setter c_intena :=
  λ g r, Cpu (c_apicid r) (c_ncli r) (g (c_intena r)) (c_proc r) (c_started r) (c_ss0 r) (c_esp0 r) (c_iomb r).
#[export] Instance set_c_proc : Setter c_proc :=
  λ g r, Cpu (c_apicid r) (c_ncli r) (c_intena r) (g (c_proc r)) (c_started r) (c_ss0 r) (c_esp0 r) (c_iomb r).
#[export] Instance set_c_started : Setter c_started :=
  λ g r, Cpu (c_apicid r) (c_ncli r) (c_intena r) (c_proc r) (g (c_started r)) (c_ss0 r) (c_esp0 r) (c_iomb r).
#[export] Instance set_c_ss0 : Setter c_ss0 :=
  λ g r, Cpu (c_apicid r) (c_ncli r) (c_intena r) (c_proc r) (c_started r) (g (c_ss0 r)) (c_esp0 r) (c_iomb r).
#[export] Instance set_c_esp0 : Setter c_esp0 :=
  λ g r, Cpu (c_apicid r) (c_ncli r) (c_intena r) (c_proc r) (c_started r) (c_ss0 r) (g (c_esp0 r)) (c_iomb r).
#[export] Instance set_c_iomb : Setter c_iomb :=
  λ g r, Cpu (c_apicid r) (c_ncli r) (c_intena r) (c_proc r) (c_started r) (c_ss0 r) (c_esp0 r) (g (c_iomb r)).


Record mach := Mach {
  m_eflags : Z;              (* EFLAGS of the executing processor *)
  m_cr3 : Z;
  m_lapic : option Z;        (* its local APIC's ID register; None: lapic == 0 *)
  m_cpus : list cpu;
  m_ncpu : nat;
  m_locks : gmap lockid spinlock}.
#[export] Instance set_m_eflags : Setter m_eflags :=
  λ g r, Mach (g (m_eflags r)) (m_cr3 r) (m_lapic r) (m_cpus r) (m_ncpu r) (m_locks r).
#[export] Instance set_m_cr3 : Setter m_cr3 :=
  λ g r, Mach (m_eflags r) (g (m_cr3 r)) (m_lapic r) (m_cpus r) (m_ncpu r) (m_locks r).
#[export] Instance set_m_lapic : Setter m_lapic :=
  λ g r, Mach (m_eflags r) (m_cr3 r) (g (m_lapic r)) (m_cpus r) (m_ncpu r) (m_locks r).
#[export] Instance set_m_cpus : Setter m_cpus :=
  λ g r, Mach (m_eflags r) (m_cr3 r) (m_lapic r) (g (m_cpus r)) (m_ncpu r) (m_locks r).
#[export] Instance set_m_ncpu : Setter m_ncpu :=
  λ g r, Mach (m_eflags r) (m_cr3 r) (m_lapic r) (m_cpus r) (g (m_ncpu r)) (m_locks r).
#[export] Instance set_m_locks : Setter m_locks :=
  λ g r, Mach (m_eflags r) (m_cr3 r) (m_lapic r) (m_cpus r) (m_ncpu r) (g (m_locks r)).


(** ** The data *)

Inductive procstate : Set := UNUSED | EMBRYO | SLEEPING | RUNNABLE | RUNNING | ZOMBIE.
#[export] Instance procstate_eq_dec : EqDecision procstate.
Proof. solve_decision. Defined.

Definition DEFAULTPRIORITY : Z := 10.
Definition SYS_cn : nat := 29.

(** struct proc *)
Record proc := Proc {
  p_sz : Z;
  p_pgdir : Z;
  p_kstack : Z;
  p_state : procstate;
  p_pid : Z;
  p_parent : option nat;
  p_tf : Z;                  (* address of the trap frame, in the kernel stack *)
  p_context : Z;             (* address of the saved context *)
  p_chan : option chan;
  p_killed : Z;
  p_ofile : list (option nat);
  p_cwd : option nat;
  p_name : list Z;           (* char name[16] *)
  p_priority : Z;
  p_sys_count : list Z;      (* int sys_count[SYS_cn] *)
  p_arrivalt : Z;
  p_endt : Z;
  p_burstt : Z;
  p_iot : Z}.
#[export] Instance set_p_sz : Setter p_sz :=
  λ g r, Proc (g (p_sz r)) (p_pgdir r) (p_kstack r) (p_state r) (p_pid r) (p_parent r) (p_tf r) (p_context r) (p_chan r) (p_killed r) (p_ofile r) (p_cwd r) (p_name r) (p_priority r) (p_sys_count r) (p_arrivalt r) (p_endt r) (p_burstt r) (p_iot r).
#[export] Instance set_p_pgdir : Setter p_pgdir :=
  λ g r, Proc (p_sz r) (g (p_pgdir r)) (p_kstack r) (p_state r) (p_pid r) (p_parent r) (p_tf r) (p_context r) (p_chan r) (p_killed r) (p_ofile r) (p_cwd r) (p_name r) (p_priority r) (p_sys_count r) (p_arrivalt r) (p_endt r) (p_burstt r) (p_iot r).
#[export] Instance set_p_kstack : Setter p_kstack :=
  λ g r, Proc (p_sz r) (p_pgdir r) (g (p_kstack r)) (p_state r) (p_pid r) (p_parent r) (p_tf r) (p_context r) (p_chan r) (p_killed r) (p_ofile r) (p_cwd r) (p_name r) (p_priority r) (p_sys_count r) (p_arrivalt r) (p_endt r) (p_burstt r) (p_iot r).
#[export] Instance set_p_state : Setter p_state :=
  λ g r, Proc (p_sz r) (p_pgdir r) (p_kstack r) (g (p_state r)) (p_pid r) (p_parent r) (p_tf r) (p_context r) (p_chan r) (p_killed r) (p_ofile r) (p_cwd r) (p_name r) (p_priority r) (p_sys_count r) (p_arrivalt r) (p_endt r) (p_burstt r) (p_iot r).
#[export] Instance set_p_pid : Setter p_pid :=
  λ g r, Proc (p_sz r) (p_pgdir r) (p_kstack r) (p_state r) (g (p_pid r)) (p_parent r) (p_tf r) (p_context r) (p_chan r) (p_killed r) (p_ofile r) (p_cwd r) (p_name r) (p_priority r) (p_sys_count r) (p_arrivalt r) (p_endt r) (p_burstt r) (p_iot r).
#[export] Instance set_p_parent : Setter p_parent :=
  λ g r, Proc (p_sz r) (p_pgdir r) (p_kstack r) (p_state r) (p_pid r) (g (p_parent r)) (p_tf r) (p_context r) (p_chan r) (p_killed r) (p_ofile r) (p_cwd r) (p_name r) (p_priority r) (p_sys_count r) (p_arrivalt r) (p_endt r) (p_burstt r) (p_iot r).
#[export] Instance set_p_tf : Setter p_tf :=
  λ g r, Proc (p_sz r) (p_pgdir r) (p_kstack r) (p_state r) (p_pid r) (p_parent r) (g (p_tf r)) (p_context r) (p_chan r) (p_killed r) (p_ofile r) (p_cwd r) (p_name r) (p_priority r) (p_sys_count r) (p_arrivalt r) (p_endt r) (p_burstt r) (p_iot r).
#[export] Instance set_p_context : Setter p_context :=
  λ g r, Proc (p_sz r) (p_pgdir r) (p_kstack r) (p_state r) (p_pid r) (p_parent r) (p_tf r) (g (p_context r)) (p_chan r) (p_killed r) (p_ofile r) (p_cwd r) (p_name r) (p_priority r) (p_sys_count r) (p_arrivalt r) (p_endt r) (p_burstt r) (p_iot r).
#[export] Instance set_p_chan : Setter p_chan :=
  λ g r, Proc (p_sz r) (p_pgdir r) (p_kstack r) (p_state r) (p_pid r) (p_parent r) (p_tf r) (p_context r) (g (p_chan r)) (p_killed r) (p_ofile r) (p_cwd r) (p_name r) (p_priority r) (p_sys_count r) (p_arrivalt r) (p_endt r) (p_burstt r) (p_iot r).
#[export] Instance set_p_killed : Setter p_killed :=
  λ g r, Proc (p_sz r) (p_pgdir r) (p_kstack r) (p_state r) (p_pid r) (p_parent r) (p_tf r) (p_context r) (p_chan r) (g (p_killed r)) (p_ofile r) (p_cwd r) (p_name r) (p_priority r) (p_sys_count r) (p_arrivalt r) (p_endt r) (p_burstt r) (p_iot r).
#[export] Instance set_p_ofile : Setter p_ofile :=
  λ g r, Proc (p_sz r) (p_pgdir r) (p_kstack r) (p_state r) (p_pid r) (p_parent r) (p_tf r) (p_context r) (p_chan r) (p_killed r) (g (p_ofile r)) (p_cwd r) (p_name r) (p_priority r) (p_sys_count r) (p_arrivalt r) (p_endt r) (p_burstt r) (p_iot r).
#[export] Instance set_p_cwd : Setter p_cwd :=
  λ g r, Proc (p_sz r) (p_pgdir r) (p_kstack r) (p_state r) (p_pid r) (p_parent r) (p_tf r) (p_context r) (p_chan r) (p_killed r) (p_ofile r) (g (p_cwd r)) (p_name r) (p_priority r) (p_sys_count r) (p_arrivalt r) (p_endt r) (p_burstt r) (p_iot r).
#[export] Instance set_p_name : Setter p_name :=
  λ g r, Proc (p_sz r) (p_pgdir r) (p_kstack r) (p_state r) (p_pid r) (p_parent r) (p_tf r) (p_context r) (p_chan r) (p_killed r) (p_ofile r) (p_cwd r) (g (p_name r)) (p_priority r) (p_sys_count r) (p_arrivalt r) (p_endt r) (p_burstt r) (p_iot r).
#[export] Instance set_p_priority : Setter p_priority :=
  λ g r, Proc (p_sz r) (p_pgdir r) (p_kstack r) (p_state r) (p_pid r) (p_parent r) (p_tf r) (p_context r) (p_chan r) (p_killed r) (p_ofile r) (p_cwd r) (p_name r) (g (p_priority r)) (p_sys_count r) (p_arrivalt r) (p_endt r) (p_burstt r) (p_iot r).
#[export] Instance set_p_sys_count : Setter p_sys_count :=
  λ g r, Proc (p_sz r) (p_pgdir r) (p_kstack r) (p_state r) (p_pid r) (p_parent r) (p_tf r) (p_context r) (p_chan r) (p_killed r) (p_ofile r) (p_cwd r) (p_name r) (p_priority r) (g (p_sys_count r)) (p_arrivalt r) (p_endt r) (p_burstt r) (p_iot r).
#[export] Instance set_p_arrivalt : Setter p_arrivalt :=
  λ g r, Proc (p_sz r) (p_pgdir r) (p_kstack r) (p_state r) (p_pid r) (p_parent r) (p_tf r) (p_context r) (p_chan r) (p_killed r) (p_ofile r) (p_cwd r) (p_name r) (p_priority r) (p_sys_count r) (g (p_arrivalt r)) (p_endt r) (p_burstt r) (p_iot r).
#[export] Instance set_p_endt : Setter p_endt :=
  λ g r, Proc (p_sz r) (p_pgdir r) (p_kstack r) (p_state r) (p_pid r) (p_parent r) (p_tf r) (p_context r) (p_chan r) (p_killed r) (p_ofile r) (p_cwd r) (p_name r) (p_priority r) (p_sys_count r) (p_arrivalt r) (g (p_endt r)) (p_burstt r) (p_iot r).
#[export] Instance set_p_burstt : Setter p_burstt :=
  λ g r, Proc (p_sz r) (p_pgdir r) (p_kstack r) (p_state r) (p_pid r) (p_parent r) (p_tf r) (p_context r) (p_chan r) (p_killed r) (p_ofile r) (p_cwd r) (p_name r) (p_priority r) (p_sys_count r) (p_arrivalt r) (p_endt r) (g (p_burstt r)) (p_iot r).
#[export] Instance set_p_iot : Setter p_iot :=
  λ g r, Proc (p_sz r) (p_pgdir r) (p_kstack r) (p_state r) (p_pid r) (p_parent r) (p_tf r) (p_context r) (p_chan r) (p_killed r) (p_ofile r) (p_cwd r) (p_name r) (p_priority r) (p_sys_count r) (p_arrivalt r) (p_endt r) (p_burstt r) (g (p_iot r)).


(** A static struct proc before its first use: all zero. *)
Definition proc0 : proc :=
  Proc 0 0 0 UNUSED 0 None 0 0 None 0 (replicate NOFILE None) None (replicate 16 0)
    0 (replicate SYS_cn 0) 0 0 0 0.
#[export] Instance proc_inhabited : Inhabited proc := populate proc0.

(** Offsets of the fields of struct trapframe and struct context (x86.h, proc.h) *)
Definition tf_eax : Z := 28.
Definition tf_es : Z := 40.
Definition tf_ds : Z := 44.
Definition tf_trapno : Z := 48.
Definition tf_err : Z := 52.
Definition tf_eip : Z := 56.
Definition tf_cs : Z := 60.
Definition tf_eflags : Z := 64.
Definition tf_esp : Z := 68.
Definition tf_ss : Z := 72.
Definition sizeof_trapframe : Z := 76.
Definition ctx_ebp : Z := 12.
Definition ctx_eip : Z := 16.
Definition sizeof_context : Z := 20.

(** struct sleeplock; its inner spin lock is [L_sleep] of the same name *)
Record sleeplock := Sleeplock {
  slk_locked : Z;
  slk_name : string;
  slk_pid : Z}.
#[export] Instance set_slk_locked : Setter slk_locked :=
  λ g r, Sleeplock (g (slk_locked r)) (slk_name r) (slk_pid r).
#[export] Instance set_slk_name : Setter slk_name :=
  λ g r, Sleeplock (slk_locked r) (g (slk_name r)) (slk_pid r).
#[export] Instance set_slk_pid : Setter slk_pid :=
  λ g r, Sleeplock (slk_locked r) (slk_name r) (g (slk_pid r)).


(** struct buf; its sleep lock is [SL_buf] of its index.  Links are indices
    into the buffer array, whose last element is the list head. *)
Record buf := Buf {
  b_flags : Z;
  b_dev : Z;
  b_blockno : Z;
  b_refcnt : Z;
  b_prev : nat;
  b_next : nat;
  b_qnext : option nat;
  b_data : list Z}.
#[export] Instance set_b_flags : Setter b_flags :=
  λ g r, Buf (g (b_flags r)) (b_dev r) (b_blockno r) (b_refcnt r) (b_prev r) (b_next r) (b_qnext r) (b_data r).
#[export] Instance set_b_dev : Setter b_dev :=
  λ g r, Buf (b_flags r) (g (b_dev r)) (b_blockno r) (b_refcnt r) (b_prev r) (b_next r) (b_qnext r) (b_data r).
#[export] Instance set_b_blockno : Setter b_blockno :=
  λ g r, Buf (b_flags r) (b_dev r) (g (b_blockno r)) (b_refcnt r) (b_prev r) (b_next r) (b_qnext r) (b_data r).
#[export] Instance set_b_refcnt : Setter b_refcnt :=
  λ g r, Buf (b_flags r) (b_dev r) (b_blockno r) (g (b_refcnt r)) (b_prev r) (b_next r) (b_qnext r) (b_data r).
#[export] Instance set_b_prev : Setter b_prev :=
  λ g r, Buf (b_flags r) (b_dev r) (b_blockno r) (b_refcnt r) (g (b_prev r)) (b_next r) (b_qnext r) (b_data r).
#[export] Instance set_b_next : Setter b_next :=
  λ g r, Buf (b_flags r) (b_dev r) (b_blockno r) (b_refcnt r) (b_prev r) (g (b_next r)) (b_qnext r) (b_data r).
#[export] Instance set_b_qnext : Setter b_qnext :=
  λ g r, Buf (b_flags r) (b_dev r) (b_blockno r) (b_refcnt r) (b_prev r) (b_next r) (g (b_qnext r)) (b_data r).
#[export] Instance set_b_data : Setter b_data :=
  λ g r, Buf (b_flags r) (b_dev r) (b_blockno r) (b_refcnt r) (b_prev r) (b_next r) (b_qnext r) (g (b_data r)).

Definition buf0 : buf := Buf 0 0 0 0 0 0 None (replicate (Z.to_nat BSIZE) 0).
#[export] Instance buf_inhabited : Inhabited buf := populate buf0.

(** struct inode; its sleep lock is [SL_inode] of its index *)
Record inode := Inode {
  i_dev : Z;
  i_inum : Z;
  i_ref : Z;
  i_valid : Z;
  i_type : Z;
  i_major : Z;
  i_minor : Z;
  i_nlink : Z;
  i_size : Z;
  i_addrs : list Z}.
#[export] Instance set_i_dev : Setter i_dev :=
  λ g r, Inode (g (i_dev r)) (i_inum r) (i_ref r) (i_valid r) (i_type r) (i_major r) (i_minor r) (i_nlink r) (i_size r) (i_addrs r).
#[export] Instance set_i_inum : Setter i_inum :=
  λ g r, Inode (i_dev r) (g (i_inum r)) (i_ref r) (i_valid r) (i_type r) (i_major r) (i_minor r) (i_nlink r) (i_size r) (i_addrs r).
#[export] Instance set_i_ref : Setter i_ref :=
  λ g r, Inode (i_dev r) (i_inum r) (g (i_ref r)) (i_valid r) (i_type r) (i_major r) (i_minor r) (i_nlink r) (i_size r) (i_addrs r).
#[export] Instance set_i_valid : Setter i_valid :=
  λ g r, Inode (i_dev r) (i_inum r) (i_ref r) (g (i_valid r)) (i_type r) (i_major r) (i_minor r) (i_nlink r) (i_size r) (i_addrs r).
#[export] Instance set_i_type : Setter i_type :=
  λ g r, Inode (i_dev r) (i_inum r) (i_ref r) (i_valid r) (g (i_type r)) (i_major r) (i_minor r) (i_nlink r) (i_size r) (i_addrs r).
#[export] Instance set_i_major : Setter i_major :=
  λ g r, Inode (i_dev r) (i_inum r) (i_ref r) (i_valid r) (i_type r) (g (i_major r)) (i_minor r) (i_nlink r) (i_size r) (i_addrs r).
#[export] Instance set_i_minor : Setter i_minor :=
  λ g r, Inode (i_dev r) (i_inum r) (i_ref r) (i_valid r) (i_type r) (i_major r) (g (i_minor r)) (i_nlink r) (i_size r) (i_addrs r).
#[export] Instance set_i_nlink : Setter i_nlink :=
  λ g r, Inode (i_dev r) (i_inum r) (i_ref r) (i_valid r) (i_type r) (i_major r) (i_minor r) (g (i_nlink r)) (i_size r) (i_addrs r).
#[export] Instance set_i_size : Setter i_size :=
  λ g r, Inode (i_dev r) (i_inum r) (i_ref r) (i_valid r) (i_type r) (i_major r) (i_minor r) (i_nlink r) (g (i_size r)) (i_addrs r).
#[export] Instance set_i_addrs : Setter i_addrs :=
  λ g r, Inode (i_dev r) (i_inum r) (i_ref r) (i_valid r) (i_type r) (i_major r) (i_minor r) (i_nlink r) (i_size r) (g (i_addrs r)).

Definition inode0 : inode := Inode 0 0 0 0 0 0 0 0 0 (replicate (Z.to_nat (NDIRECT + 1)) 0).
#[export] Instance inode_inhabited : Inhabited inode := populate inode0.

(** struct superblock *)
Record superblock := Superblock {
  sb_size : Z;
  sb_nblocks : Z;
  sb_ninodes : Z;
  sb_nlog : Z;
  sb_logstart : Z;
  sb_inodestart : Z;
  sb_bmapstart : Z}.
#[export] Instance set_sb_size : Setter sb_size :=
  λ g r, Superblock (g (sb_size r)) (sb_nblocks r) (sb_ninodes r) (sb_nlog r) (sb_logstart r) (sb_inodestart r) (sb_bmapstart r).
#[export] Instance set_sb_nblocks : Setter sb_nblocks :=
  λ g r, Superblock (sb_size r) (g (sb_nblocks r)) (sb_ninodes r) (sb_nlog r) (sb_logstart r) (sb_inodestart r) (sb_bmapstart r).
#[export] Instance set_sb_ninodes : Setter sb_ninodes :=
  λ g r, Superblock (sb_size r) (sb_nblocks r) (g (sb_ninodes r)) (sb_nlog r) (sb_logstart r) (sb_inodestart r) (sb_bmapstart r).
#[export] Instance set_sb_nlog : Setter sb_nlog :=
  λ g r, Superblock (sb_size r) (sb_nblocks r) (sb_ninodes r) (g (sb_nlog r)) (sb_logstart r) (sb_inodestart r) (sb_bmapstart r).
#[export] Instance set_sb_logstart : Setter sb_logstart :=
  λ g r, Superblock (sb_size r) (sb_nblocks r) (sb_ninodes r) (sb_nlog r) (g (sb_logstart r)) (sb_inodestart r) (sb_bmapstart r).
#[export] Instance set_sb_inodestart : Setter sb_inodestart :=
  λ g r, Superblock (sb_size r) (sb_nblocks r) (sb_ninodes r) (sb_nlog r) (sb_logstart r) (g (sb_inodestart r)) (sb_bmapstart r).
#[export] Instance set_sb_bmapstart : Setter sb_bmapstart :=
  λ g r, Superblock (sb_size r) (sb_nblocks r) (sb_ninodes r) (sb_nlog r) (sb_logstart r) (sb_inodestart r) (g (sb_bmapstart r)).


(** struct logheader, struct log *)
Record logheader := Logheader {
  lh_n : Z;
  lh_block : list Z}.
#[export] Instance set_lh_n : Setter lh_n :=
  λ g r, Logheader (g (lh_n r)) (lh_block r).
#[export] Instance set_lh_block : Setter lh_block :=
  λ g r, Logheader (lh_n r) (g (lh_block r)).

Record logst := Log {
  log_start : Z;
  log_size : Z;
  log_outstanding : Z;
  log_committing : Z;
  log_dev : Z;
  log_lh : logheader}.
#[export] Instance set_log_start : Setter log_start :=
  λ g r, Log (g (log_start r)) (log_size r) (log_outstanding r) (log_committing r) (log_dev r) (log_lh r).
#[export] Instance set_log_size : Setter log_size :=
  λ g r, Log (log_start r) (g (log_size r)) (log_outstanding r) (log_committing r) (log_dev r) (log_lh r).
#[export] Instance set_log_outstanding : Setter log_outstanding :=
  λ g r, Log (log_start r) (log_size r) (g (log_outstanding r)) (log_committing r) (log_dev r) (log_lh r).
#[export] Instance set_log_committing : Setter log_committing :=
  λ g r, Log (log_start r) (log_size r) (log_outstanding r) (g (log_committing r)) (log_dev r) (log_lh r).
#[export] Instance set_log_dev : Setter log_dev :=
  λ g r, Log (log_start r) (log_size r) (log_outstanding r) (log_committing r) (g (log_dev r)) (log_lh r).
#[export] Instance set_log_lh : Setter log_lh :=
  λ g r, Log (log_start r) (log_size r) (log_outstanding r) (log_committing r) (log_dev r) (g (log_lh r)).


(** struct file *)
Inductive fdtype : Set := FD_NONE | FD_PIPE | FD_INODE.
#[export] Instance fdtype_eq_dec : EqDecision fdtype.
Proof. solve_decision. Defined.
Record file := File {
  f_type : fdtype;
  f_ref : Z;
  f_readable : Z;
  f_writable : Z;
  f_pipe : Z;
  f_ip : option nat;
  f_off : Z}.
#[export] Instance set_f_type : Setter f_type :=
  λ g r, File (g (f_type r)) (f_ref r) (f_readable r) (f_writable r) (f_pipe r) (f_ip r) (f_off r).
#[export] Instance set_f_ref : Setter f_ref :=
  λ g r, File (f_type r) (g (f_ref r)) (f_readable r) (f_writable r) (f_pipe r) (f_ip r) (f_off r).
#[export] Instance set_f_readable : Setter f_readable :=
  λ g r, File (f_type r) (f_ref r) (g (f_readable r)) (f_writable r) (f_pipe r) (f_ip r) (f_off r).
#[export] Instance set_f_writable : Setter f_writable :=
  λ g r, File (f_type r) (f_ref r) (f_readable r) (g (f_writable r)) (f_pipe r) (f_ip r) (f_off r).
#[export] Instance set_f_pipe : Setter f_pipe :=
  λ g r, File (f_type r) (f_ref r) (f_readable r) (f_writable r) (g (f_pipe r)) (f_ip r) (f_off r).
#[export] Instance set_f_ip : Setter f_ip :=
  λ g r, File (f_type r) (f_ref r) (f_readable r) (f_writable r) (f_pipe r) (g (f_ip r)) (f_off r).
#[export] Instance set_f_off : Setter f_off :=
  λ g r, File (f_type r) (f_ref r) (f_readable r) (f_writable r) (f_pipe r) (f_ip r) (g (f_off r)).

Definition file0 : file := File FD_NONE 0 0 0 0 None 0.
#[export] Instance file_inhabited : Inhabited file := populate file0.

(** struct pipe *)
Record pipe := Pipe {
  pi_data : list Z;
  pi_nread : Z;
  pi_nwrite : Z;
  pi_readopen : Z;
  pi_writeopen : Z}.
#[export] Instance set_pi_data : Setter pi_data :=
  λ g r, Pipe (g (pi_data r)) (pi_nread r) (pi_nwrite r) (pi_readopen r) (pi_writeopen r).
#[export] Instance set_pi_nread : Setter pi_nread :=
  λ g r, Pipe (pi_data r) (g (pi_nread r)) (pi_nwrite r) (pi_readopen r) (pi_writeopen r).
#[export] Instance set_pi_nwrite : Setter pi_nwrite :=
  λ g r, Pipe (pi_data r) (pi_nread r) (g (pi_nwrite r)) (pi_readopen r) (pi_writeopen r).
#[export] Instance set_pi_readopen : Setter pi_readopen :=
  λ g r, Pipe (pi_data r) (pi_nread r) (pi_nwrite r) (g (pi_readopen r)) (pi_writeopen r).
#[export] Instance set_pi_writeopen : Setter pi_writeopen :=
  λ g r, Pipe (pi_data r) (pi_nread r) (pi_nwrite r) (pi_readopen r) (g (pi_writeopen r)).


(** The variables of console.c, uart.c and kbd.c and their devices: the screen
    memory and cursor, the bytes sent to the serial port (last one last), and
    the bytes that wait at the keyboard controller and at the serial port. *)
Record console := Console {
  cn_locking : Z;
  cn_panicked : Z;
  cn_buf : list Z;           (* input.buf[INPUT_BUF] *)
  cn_r : Z;
  cn_w : Z;
  cn_e : Z;
  cn_uart : Z;
  cn_shift : Z;
  cn_crt : mem;              (* CGA memory, from crt on *)
  cn_pos : Z;                (* CGA cursor *)
  cn_out : list Z;
  cn_kbd : list Z;
  cn_rx : list Z}.
#[export] Instance set_cn_locking : Setter cn_locking :=
  λ g r, Console (g (cn_locking r)) (cn_panicked r) (cn_buf r) (cn_r r) (cn_w r) (cn_e r) (cn_uart r) (cn_shift r) (cn_crt r) (cn_pos r) (cn_out r) (cn_kbd r) (cn_rx r).
#[export] Instance set_cn_panicked : Setter cn_panicked :=
  λ g r, Console (cn_locking r) (g (cn_panicked r)) (cn_buf r) (cn_r r) (cn_w r) (cn_e r) (cn_uart r) (cn_shift r) (cn_crt r) (cn_pos r) (cn_out r) (cn_kbd r) (cn_rx r).
#[export] Instance set_cn_buf : Setter cn_buf :=
  λ g r, Console (cn_locking r) (cn_panicked r) (g (cn_buf r)) (cn_r r) (cn_w r) (cn_e r) (cn_uart r) (cn_shift r) (cn_crt r) (cn_pos r) (cn_out r) (cn_kbd r) (cn_rx r).
#[export] Instance set_cn_r : Setter cn_r :=
  λ g r, Console (cn_locking r) (cn_panicked r) (cn_buf r) (g (cn_r r)) (cn_w r) (cn_e r) (cn_uart r) (cn_shift r) (cn_crt r) (cn_pos r) (cn_out r) (cn_kbd r) (cn_rx r).
#[export] Instance set_cn_w : Setter cn_w :=
  λ g r, Console (cn_locking r) (cn_panicked r) (cn_buf r) (cn_r r) (g (cn_w r)) (cn_e r) (cn_uart r) (cn_shift r) (cn_crt r) (cn_pos r) (cn_out r) (cn_kbd r) (cn_rx r).
#[export] Instance set_cn_e : Setter cn_e :=
  λ g r, Console (cn_locking r) (cn_panicked r) (cn_buf r) (cn_r r) (cn_w r) (g (cn_e r)) (cn_uart r) (cn_shift r) (cn_crt r) (cn_pos r) (cn_out r) (cn_kbd r) (cn_rx r).
#[export] Instance set_cn_uart : Setter cn_uart :=
  λ g r, Console (cn_locking r) (cn_panicked r) (cn_buf r) (cn_r r) (cn_w r) (cn_e r) (g (cn_uart r)) (cn_shift r) (cn_crt r) (cn_pos r) (cn_out r) (cn_kbd r) (cn_rx r).
#[export] Instance set_cn_shift : Setter cn_shift :=
  λ g r, Console (cn_locking r) (cn_panicked r) (cn_buf r) (cn_r r) (cn_w r) (cn_e r) (cn_uart r) (g (cn_shift r)) (cn_crt r) (cn_pos r) (cn_out r) (cn_kbd r) (cn_rx r).
#[export] Instance set_cn_crt : Setter cn_crt :=
  λ g r, Console (cn_locking r) (cn_panicked r) (cn_buf r) (cn_r r) (cn_w r) (cn_e r) (cn_uart r) (cn_shift r) (g (cn_crt r)) (cn_pos r) (cn_out r) (cn_kbd r) (cn_rx r).
#[export] Instance set_cn_pos : Setter cn_pos :=
  λ g r, Console (cn_locking r) (cn_panicked r) (cn_buf r) (cn_r r) (cn_w r) (cn_e r) (cn_uart r) (cn_shift r) (cn_crt r) (g (cn_pos r)) (cn_out r) (cn_kbd r) (cn_rx r).
#[export] Instance set_cn_out : Setter cn_out :=
  λ g r, Console (cn_locking r) (cn_panicked r) (cn_buf r) (cn_r r) (cn_w r) (cn_e r) (cn_uart r) (cn_shift r) (cn_crt r) (cn_pos r) (g (cn_out r)) (cn_kbd r) (cn_rx r).
#[export] Instance set_cn_kbd : Setter cn_kbd :=
  λ g r, Console (cn_locking r) (cn_panicked r) (cn_buf r) (cn_r r) (cn_w r) (cn_e r) (cn_uart r) (cn_shift r) (cn_crt r) (cn_pos r) (cn_out r) (g (cn_kbd r)) (cn_rx r).
#[export] Instance set_cn_rx : Setter cn_rx :=
  λ g r, Console (cn_locking r) (cn_panicked r) (cn_buf r) (cn_r r) (cn_w r) (cn_e r) (cn_uart r) (cn_shift r) (cn_crt r) (cn_pos r) (cn_out r) (cn_kbd r) (g (cn_rx r)).


(** What the linker and the build put into the kernel image. *)
Record image := Image {
  im_end : Z;                (* extern char end[] *)
  im_data : Z;               (* extern char data[] *)
  im_forkret : Z;
  im_trapret : Z;
  im_initcode : list Z       (* _binary_initcode_start .. size *)}.
#[export] Instance set_im_end : Setter im_end :=
  λ g r, Image (g (im_end r)) (im_data r) (im_forkret r) (im_trapret r) (im_initcode r).
#[export] Instance set_im_data : Setter im_data :=
  λ g r, Image (im_end r) (g (im_data r)) (im_forkret r) (im_trapret r) (im_initcode r).
#[export] Instance set_im_forkret : Setter im_forkret :=
  λ g r, Image (im_end r) (im_data r) (g (im_forkret r)) (im_trapret r) (im_initcode r).
#[export] Instance set_im_trapret : Setter im_trapret :=
  λ g r, Image (im_end r) (im_data r) (im_forkret r) (g (im_trapret r)) (im_initcode r).
#[export] Instance set_im_initcode : Setter im_initcode :=
  λ g r, Image (im_end r) (im_data r) (im_forkret r) (im_trapret r) (g (im_initcode r)).


(** Page allocator and memory: struct kmem, the physical memory seen at the
    kernel's addresses, and kpgdir. *)
Record mmst := Mm {
  mm_mem : mem;
  mm_use_lock : Z;
  mm_freelist : Z;
  mm_kpgdir : Z}.
#[export] Instance set_mm_mem : Setter mm_mem :=
  λ g r, Mm (g (mm_mem r)) (mm_use_lock r) (mm_freelist r) (mm_kpgdir r).
#[export] Instance set_mm_use_lock : Setter mm_use_lock :=
  λ g r, Mm (mm_mem r) (g (mm_use_lock r)) (mm_freelist r) (mm_kpgdir r).
#[export] Instance set_mm_freelist : Setter mm_freelist :=
  λ g r, Mm (mm_mem r) (mm_use_lock r) (g (mm_freelist r)) (mm_kpgdir r).
#[export] Instance set_mm_kpgdir : Setter mm_kpgdir :=
  λ g r, Mm (mm_mem r) (mm_use_lock r) (mm_freelist r) (g (mm_kpgdir r)).


(** The IDE driver's variables (memide.c's disksize too) and the disks:
    block [b] of device [d], and the history of the blocks written to them,
    the last one last, which says what a crash leaves. *)
Record idest := Ide {
  ide_queue : option nat;
  ide_havedisk1 : Z;
  ide_disksize : Z;
  ide_disk : Z → Z → list Z;
  ide_writes : list (Z * Z * list Z)}.
#[export] Instance set_ide_queue : Setter ide_queue :=
  λ g r, Ide (g (ide_queue r)) (ide_havedisk1 r) (ide_disksize r) (ide_disk r) (ide_writes r).
#[export] Instance set_ide_havedisk1 : Setter ide_havedisk1 :=
  λ g r, Ide (ide_queue r) (g (ide_havedisk1 r)) (ide_disksize r) (ide_disk r) (ide_writes r).
#[export] Instance set_ide_disksize : Setter ide_disksize :=
  λ g r, Ide (ide_queue r) (ide_havedisk1 r) (g (ide_disksize r)) (ide_disk r) (ide_writes r).
#[export] Instance set_ide_disk : Setter ide_disk :=
  λ g r, Ide (ide_queue r) (ide_havedisk1 r) (ide_disksize r) (g (ide_disk r)) (ide_writes r).
#[export] Instance set_ide_writes : Setter ide_writes :=
  λ g r, Ide (ide_queue r) (ide_havedisk1 r) (ide_disksize r) (ide_disk r) (g (ide_writes r)).


(** The real-time clock: the value of register [reg] at the [t]-th read of the
    device, and the number of reads so far. *)
Record cmos := Cmos {
  cm_reg : Z → Z → Z;
  cm_now : Z}.
#[export] Instance set_cm_reg : Setter cm_reg :=
  λ g r, Cmos (g (cm_reg r)) (cm_now r).
#[export] Instance set_cm_now : Setter cm_now :=
  λ g r, Cmos (cm_reg r) (g (cm_now r)).


Record kdata := Kdata {
  d_im : image;
  d_mm : mmst;
  d_procs : list proc;       (* ptable.proc *)
  d_nextpid : Z;
  d_initproc : option nat;
  d_first : Z;               (* forkret's static first *)
  d_ticks : Z;
  d_sl : gmap slid sleeplock;
  d_bufs : list buf;         (* bcache.buf, then bcache.head *)
  d_ide : idest;
  d_log : logst;
  d_sb : superblock;
  d_inodes : list inode;     (* icache.inode *)
  d_files : list file;       (* ftable.file *)
  d_pipes : gmap Z pipe;
  d_devsw : list bool;       (* devsw[]: is the console's driver installed? *)
  d_cons : console;
  d_cmos : cmos}.
#[export] Instance set_d_im : Setter d_im :=
  λ g r, Kdata (g (d_im r)) (d_mm r) (d_procs r) (d_nextpid r) (d_initproc r) (d_first r) (d_ticks r) (d_sl r) (d_bufs r) (d_ide r) (d_log r) (d_sb r) (d_inodes r) (d_files r) (d_pipes r) (d_devsw r) (d_cons r) (d_cmos r).
#[export] Instance set_d_mm : Setter d_mm :=
  λ g r, Kdata (d_im r) (g (d_mm r)) (d_procs r) (d_nextpid r) (d_initproc r) (d_first r) (d_ticks r) (d_sl r) (d_bufs r) (d_ide r) (d_log r) (d_sb r) (d_inodes r) (d_files r) (d_pipes r) (d_devsw r) (d_cons r) (d_cmos r).
#[export] Instance set_d_procs : Setter d_procs :=
  λ g r, Kdata (d_im r) (d_mm r) (g (d_procs r)) (d_nextpid r) (d_initproc r) (d_first r) (d_ticks r) (d_sl r) (d_bufs r) (d_ide r) (d_log r) (d_sb r) (d_inodes r) (d_files r) (d_pipes r) (d_devsw r) (d_cons r) (d_cmos r).
#[export] Instance set_d_nextpid : Setter d_nextpid :=
  λ g r, Kdata (d_im r) (d_mm r) (d_procs r) (g (d_nextpid r)) (d_initproc r) (d_first r) (d_ticks r) (d_sl r) (d_bufs r) (d_ide r) (d_log r) (d_sb r) (d_inodes r) (d_files r) (d_pipes r) (d_devsw r) (d_cons r) (d_cmos r).
#[export] Instance set_d_initproc : Setter d_initproc :=
  λ g r, Kdata (d_im r) (d_mm r) (d_procs r) (d_nextpid r) (g (d_initproc r)) (d_first r) (d_ticks r) (d_sl r) (d_bufs r) (d_ide r) (d_log r) (d_sb r) (d_inodes r) (d_files r) (d_pipes r) (d_devsw r) (d_cons r) (d_cmos r).
#[export] Instance set_d_first : Setter d_first :=
  λ g r, Kdata (d_im r) (d_mm r) (d_procs r) (d_nextpid r) (d_initproc r) (g (d_first r)) (d_ticks r) (d_sl r) (d_bufs r) (d_ide r) (d_log r) (d_sb r) (d_inodes r) (d_files r) (d_pipes r) (d_devsw r) (d_cons r) (d_cmos r).
#[export] Instance set_d_ticks : Setter d_ticks :=
  λ g r, Kdata (d_im r) (d_mm r) (d_procs r) (d_nextpid r) (d_initproc r) (d_first r) (g (d_ticks r)) (d_sl r) (d_bufs r) (d_ide r) (d_log r) (d_sb r) (d_inodes r) (d_files r) (d_pipes r) (d_devsw r) (d_cons r) (d_cmos r).
#[export] Instance set_d_sl : Setter d_sl :=
  λ g r, Kdata (d_im r) (d_mm r) (d_procs r) (d_nextpid r) (d_initproc r) (d_first r) (d_ticks r) (g (d_sl r)) (d_bufs r) (d_ide r) (d_log r) (d_sb r) (d_inodes r) (d_files r) (d_pipes r) (d_devsw r) (d_cons r) (d_cmos r).
#[export] Instance set_d_bufs : Setter d_bufs :=
  λ g r, Kdata (d_im r) (d_mm r) (d_procs r) (d_nextpid r) (d_initproc r) (d_first r) (d_ticks r) (d_sl r) (g (d_bufs r)) (d_ide r) (d_log r) (d_sb r) (d_inodes r) (d_files r) (d_pipes r) (d_devsw r) (d_cons r) (d_cmos r).
#[export] Instance set_d_ide : Setter d_ide :=
  λ g r, Kdata (d_im r) (d_mm r) (d_procs r) (d_nextpid r) (d_initproc r) (d_first r) (d_ticks r) (d_sl r) (d_bufs r) (g (d_ide r)) (d_log r) (d_sb r) (d_inodes r) (d_files r) (d_pipes r) (d_devsw r) (d_cons r) (d_cmos r).
#[export] Instance set_d_log : Setter d_log :=
  λ g r, Kdata (d_im r) (d_mm r) (d_procs r) (d_nextpid r) (d_initproc r) (d_first r) (d_ticks r) (d_sl r) (d_bufs r) (d_ide r) (g (d_log r)) (d_sb r) (d_inodes r) (d_files r) (d_pipes r) (d_devsw r) (d_cons r) (d_cmos r).
#[export] Instance set_d_sb : Setter d_sb :=
  λ g r, Kdata (d_im r) (d_mm r) (d_procs r) (d_nextpid r) (d_initproc r) (d_first r) (d_ticks r) (d_sl r) (d_bufs r) (d_ide r) (d_log r) (g (d_sb r)) (d_inodes r) (d_files r) (d_pipes r) (d_devsw r) (d_cons r) (d_cmos r).
#[export] Instance set_d_inodes : Setter d_inodes :=
  λ g r, Kdata (d_im r) (d_mm r) (d_procs r) (d_nextpid r) (d_initproc r) (d_first r) (d_ticks r) (d_sl r) (d_bufs r) (d_ide r) (d_log r) (d_sb r) (g (d_inodes r)) (d_files r) (d_pipes r) (d_devsw r) (d_cons r) (d_cmos r).
#[export] Instance set_d_files : Setter d_files :=
  λ g r, Kdata (d_im r) (d_mm r) (d_procs r) (d_nextpid r) (d_initproc r) (d_first r) (d_ticks r) (d_sl r) (d_bufs r) (d_ide r) (d_log r) (d_sb r) (d_inodes r) (g (d_files r)) (d_pipes r) (d_devsw r) (d_cons r) (d_cmos r).
#[export] Instance set_d_pipes : Setter d_pipes :=
  λ g r, Kdata (d_im r) (d_mm r) (d_procs r) (d_nextpid r) (d_initproc r) (d_first r) (d_ticks r) (d_sl r) (d_bufs r) (d_ide r) (d_log r) (d_sb r) (d_inodes r) (d_files r) (g (d_pipes r)) (d_devsw r) (d_cons r) (d_cmos r).
#[export] Instance set_d_devsw : Setter d_devsw :=
  λ g r, Kdata (d_im r) (d_mm r) (d_procs r) (d_nextpid r) (d_initproc r) (d_first r) (d_ticks r) (d_sl r) (d_bufs r) (d_ide r) (d_log r) (d_sb r) (d_inodes r) (d_files r) (d_pipes r) (g (d_devsw r)) (d_cons r) (d_cmos r).
#[export] Instance set_d_cons : Setter d_cons :=
  λ g r, Kdata (d_im r) (d_mm r) (d_procs r) (d_nextpid r) (d_initproc r) (d_first r) (d_ticks r) (d_sl r) (d_bufs r) (d_ide r) (d_log r) (d_sb r) (d_inodes r) (d_files r) (d_pipes r) (d_devsw r) (g (d_cons r)) (d_cmos r).
#[export] Instance set_d_cmos : Setter d_cmos :=
  λ g r, Kdata (d_im r) (d_mm r) (d_procs r) (d_nextpid r) (d_initproc r) (d_first r) (d_ticks r) (d_sl r) (d_bufs r) (d_ide r) (d_log r) (d_sb r) (d_inodes r) (d_files r) (d_pipes r) (d_devsw r) (d_cons r) (g (d_cmos r)).


Record kst := K {
  km : mach;
  kd : kdata}.
#[export] Instance set_km : Setter km :=
  λ g r, K (g (km r)) (kd r).
#[export] Instance set_kd : Setter kd :=
  λ g r, K (km r) (g (kd r)).




(** The static data before main() runs: zeroed, as C initialises it, apart
    from [nextpid = 1] and forkret's [first = 1]; the disks and the image are
    what the machine is given. *)
Definition zero_data (im : image) (m : mem) (disk : Z → Z → list Z) : kdata :=
  {| d_im := im;
     d_mm := Mm m 0 0 0;
     d_procs := replicate NPROC proc0;
     d_nextpid := 1;
     d_initproc := None;
     d_first := 1;
     d_ticks := 0;
     d_sl := ∅;
     d_bufs := replicate (S NBUF) buf0;
     d_ide := Ide None 0 0 disk [];
     d_log := Log 0 0 0 0 0 (Logheader 0 (replicate (Z.to_nat LOGSIZE) 0));
     d_sb := Superblock 0 0 0 0 0 0 0;
     d_inodes := replicate NINODE inode0;
     d_files := replicate NFILE file0;
     d_pipes := ∅;
     d_devsw := replicate (Z.to_nat NDEV) false;
     d_cons := Console 0 0 (replicate 128 0) 0 0 0 0 0 (λ _, 0) 0 [] [] [];
     d_cmos := Cmos (λ _ _, 0) 0 |}.

(** A machine of [n] processors that have reached the scheduler with
    interrupts on, executing on the one with APIC id [i], with the locks [lks]
    initialised. *)
Definition idle_cpu (i : nat) : cpu := Cpu (Z.of_nat i) 0 FL_IF None 1 0 0 0.
Definition idle_mach (i n : nat) (lks : list (lockid * string)) : mach :=
  Mach FL_IF 0 (Some (Z.shiftl (Z.of_nat i) 24)) (idle_cpu <$> seq 0 n) n
    (list_to_map ((λ p, (p.1, Spinlock 0 p.2 None)) <$> lks)).

(** The same, but running process [p]. *)
Definition proc_mach (p : nat) (lks : list (lockid * string)) : mach :=
  let m := idle_mach 0 1 lks in
  m <| m_cpus := [idle_cpu 0 <| c_proc := Some p |>] |>.

(** ** Kernel code

    What a thread of the kernel waits for when it does not run: a spin lock
    to be free, the scheduler to pick it again, or (the scheduler's own
    thread) the process it switched to to come back.  [W_lock] and
    [W_unlocked] are the points before a lock is taken and after one is given
    back; only the interleaved [acquire_smp] and [release_smp] of SchedFacts stop there. *)
Inductive wait_reason : Set :=
| W_spin (lk : lockid)
| W_sched
| W_switch (p : nat)
| W_hlt                    (* hlt: the next interrupt *)
| W_halt                   (* the machine was told to power off *)
| W_lock (lk : lockid)
| W_unlocked (lk : lockid).

Abbreviation KM := (M wait_reason kst).
Abbreviation kcomp := (comp wait_reason kst).

(** Reads and writes of the data half. *)
Definition getd {A} (f : kdata → A) : KM A := gets (λ s, f (kd s)).
Definition modd (f : kdata → kdata) : KM unit := modify (λ s, s <| kd := f (kd s) |>).

(** [ptable.proc[i]] *)
Definition get_proc (i : nat) : KM proc := getd (λ d, d_procs d !!! i).
Definition mod_proc (i : nat) (f : proc → proc) : KM unit :=
  modd (λ d, d <| d_procs := alter f i (d_procs d) |>).

(** The memory. *)
Definition get_mem : KM mem := getd (λ d, mm_mem (d_mm d)).
Definition mod_mem (f : mem → mem) : KM unit :=
  modd (λ d, d <| d_mm := d_mm d <| mm_mem := f (mm_mem (d_mm d)) |> |>).

(** C's truth value of an int. *)
Definition ctrue (z : Z) : bool := negb (z =? 0).

(** Writing back what is there changes nothing. *)
Lemma eta_mm d : d <| d_mm := d_mm d |> = d.
Proof. by destruct d. Qed.
Lemma eta_procs d : d <| d_procs := d_procs d |> = d.
Proof. by destruct d. Qed.
Lemma eta_cons d : d <| d_cons := d_cons d |> = d.
Proof. by destruct d. Qed.

(** ** Running code step by step *)

Lemma bind_getd {A B} (f : kdata → A) (k : A → KM B) n m d :
  (getd f ≫= k) n (K m d) = k (f d) n (K m d).
Proof. done. Qed.
Lemma bind_modd {B} (f : kdata → kdata) (k : unit → KM B) n m d :
  (modd f ≫= k) n (K m d) = k tt n (K m (f d)).
Proof. done. Qed.
Lemma getd_done {A} (f : kdata → A) n m d : getd f n (K m d) = Done (f d) (K m d).
Proof. done. Qed.
Lemma modd_done (f : kdata → kdata) n m d : modd f n (K m d) = Done tt (K m (f d)).
Proof. done. Qed.
Lemma bind_mret {A B} (a : A) (k : A → KM B) n s : (mret a ≫= k) n s = k a n s.
Proof. done. Qed.
Lemma mret_done {A} (a : A) n (s : kst) : (mret a : KM A) n s = Done a s.
Proof. done. Qed.
Lemma ctrue_0 : ctrue 0 = false.
Proof. done. Qed.
Lemma ctrue_ne z : z ≠ 0 → ctrue z = true.
Proof. intros. unfold ctrue. by rewrite (proj2 (Z.eqb_neq _ _)). Qed.

(** Reads, writes and tests, one after the other; stops at a call. *)
Ltac krun :=
  unfold get_proc, mod_proc, get_mem, mod_mem;
  repeat (progress (repeat first
    [ rewrite bind_getd | rewrite bind_modd | rewrite bind_mret
    | rewrite getd_done | rewrite modd_done | rewrite mret_done
    | progress cbn [when from_opt] ]; simpl)).
(** Run the next call with an equation for it. *)
Tactic Notation "kcall" uconstr(H) := erewrite bind_done; [ | solve [eapply H; eauto] ].
