(* ===== verification/Spinlock.v ===== *)
(** * Spinlock: spinlock.c, and the per-CPU part of proc.c and lapic.c

    pushcli/popcli, holding, acquire and release on the machine half of the
    kernel state, mycpu/cpuid/myproc which find the executing CPU, and
    getcallerpcs.  The lemmas give the rest of the development two state
    transformers, [acq lk] and [rel lk], with [rel lk (acq lk m) = m]. *)

From S2P Require Import Prelude Memory Kstate.

(** ** x86.h: the flags register *)

Definition readeflags : KM Z := gets (λ s, m_eflags (km s)).
Definition modm (f : mach → mach) : KM unit := modify (λ s, s <| km := f (km s) |>).
Definition cli : KM unit := modm (λ m, m <| m_eflags := Z.ldiff (m_eflags m) FL_IF |>).
Definition sti : KM unit := modm (λ m, m <| m_eflags := Z.lor (m_eflags m) FL_IF |>).

(** ** lapic.c, proc.c: which CPU is this? *)

Definition lapicid_of (m : mach) : Z :=
  match m_lapic m with None => 0 | Some id => Z.shiftr id 24 end.
Definition lapicid : KM Z := gets (λ s, lapicid_of (km s)).

(** The loop of mycpu over [cpus[0..ncpu)]. *)
Fixpoint find_cpu (apicid : Z) (cs : list cpu) (ncpu : nat) : option nat :=
  match ncpu, cs with
  | S n, c :: cs' => if c_apicid c =? apicid then Some 0%nat else S <$> find_cpu apicid cs' n
  | _, _ => None
  end.

Definition mycpu : KM nat :=
  e ← readeflags;
  if ctrue (Z.land e FL_IF) then panic "mycpu called with interrupts enabled" else
  apicid ← lapicid;
  m ← gets km;
  match find_cpu apicid (m_cpus m) (m_ncpu m) with
  | Some i => mret i
  | None => panic "unknown apicid"
  end.

Definition cpuid : KM Z := c ← mycpu; mret (Z.of_nat c).

#[export] Instance cpu_inhabited : Inhabited cpu := populate (Cpu 0 0 0 None 0 0 0 0).
Definition get_cpu (i : nat) : KM cpu := gets (λ s, m_cpus (km s) !!! i).
Definition mod_cpu (i : nat) (f : cpu → cpu) : KM unit :=
  modm (λ m, m <| m_cpus := alter f i (m_cpus m) |>).

(** ** pushcli, popcli *)

Definition pushcli : KM unit :=
  eflags ← readeflags;
  cli ;;
  c ← mycpu; cp ← get_cpu c;
  when (c_ncli cp =? 0) (c ← mycpu; mod_cpu c (λ cp, cp <| c_intena := Z.land eflags FL_IF |>)) ;;
  c ← mycpu; mod_cpu c (λ cp, cp <| c_ncli := c_ncli cp + 1 |>).

Definition popcli : KM unit :=
  e ← readeflags;
  if ctrue (Z.land e FL_IF) then panic "popcli - interruptible" else
  c ← mycpu; mod_cpu c (λ cp, cp <| c_ncli := c_ncli cp - 1 |>) ;;
  cp ← get_cpu c;
  if c_ncli cp <? 0 then panic "popcli" else
  c ← mycpu; cp ← get_cpu c;
  when ((c_ncli cp =? 0) && ctrue (c_intena cp)) sti.

(** ** Spin locks *)

#[export] Instance spinlock_inhabited : Inhabited spinlock := populate (Spinlock 0 "" None).
Definition get_lock (lk : lockid) : KM spinlock :=
  gets (λ s, default inhabitant (m_locks (km s) !! lk)).
Definition put_lock (lk : lockid) (l : spinlock) : KM unit :=
  modm (λ m, m <| m_locks := <[lk := l]> (m_locks m) |>).

Definition initlock (lk : lockid) (name : string) : KM unit :=
  put_lock lk (Spinlock 0 name None).

Definition holding (lk : lockid) : KM bool :=
  pushcli ;;
  l ← get_lock lk; c ← mycpu;
  popcli ;;
  mret (ctrue (sl_locked l) && bool_decide (sl_cpu l = Some c)).

(** Up to the spin loop: interrupts off, and the lock is not already ours. *)
Definition acquire_enter (lk : lockid) : KM unit :=
  pushcli ;;
  h ← holding lk;
  if (h : bool) then panic "acquire" else mret tt.

(** [while(xchg(&lk->locked, 1) != 0);]  A failed xchg writes back the 1 it
    read; the loop then waits for another CPU. *)
Fixpoint spin_loop (lk : lockid) (n : nat) (s : kst) : kcomp unit :=
  let l := default inhabitant (m_locks (km s) !! lk) in
  let s' := s <| km := km s <| m_locks := <[lk := l <| sl_locked := 1 |>]> (m_locks (km s)) |> |> in
  if sl_locked l =? 0 then Done tt s'
  else match n with
       | O => NoFuel
       | S n' => Block (W_spin lk) s (spin_loop lk n')
       end.
Definition spin (lk : lockid) : KM unit := spin_loop lk.

(** Record the owner. *)
Definition acquire_own (lk : lockid) : KM unit :=
  c ← mycpu; l ← get_lock lk; put_lock lk (l <| sl_cpu := Some c |>).

Definition acquire (lk : lockid) : KM unit :=
  acquire_enter lk ;; spin lk ;; acquire_own lk.

(** Check that the lock is ours and disown it. *)
Definition release_disown (lk : lockid) : KM unit :=
  h ← holding lk;
  if negb h then panic "release" else
  l ← get_lock lk; put_lock lk (l <| sl_cpu := None |>).

(** Store 0 into [lk->locked]. *)
Definition release_store (lk : lockid) : KM unit :=
  l ← get_lock lk; put_lock lk (l <| sl_locked := 0 |>).

Definition release (lk : lockid) : KM unit :=
  release_disown lk ;; release_store lk ;; popcli.

(** proc.c: myproc *)
Definition myproc : KM (option nat) :=
  pushcli ;;
  c ← mycpu; cp ← get_cpu c;
  popcli ;;
  mret (c_proc cp).

(** getcallerpcs: walk the saved frame pointers from the argument's address. *)
Fixpoint pcs_loop (k : nat) (m : mem) (ebp : Z) : list Z :=
  match k with
  | O => []
  | S k' =>
    if (ebp =? 0) || (ebp <? KERNBASE) || (ebp =? 0xffffffff) then replicate k 0
    else load32 m (ebp + 4) :: pcs_loop k' m (load32 m ebp)
  end.
Definition getcallerpcs (m : mem) (v : Z) : list Z := pcs_loop 10 m (v -u 8).

(** ** What these do to a machine in good order *)

Definition this_cpu (m : mach) : option nat := find_cpu (lapicid_of m) (m_cpus m) (m_ncpu m).

(** The executing CPU is number [i] with record [c]; interrupts are off while
    its nesting depth is positive, and at depth 0 the saved flag agrees with
    the flags register.  (Every pushcli at depth 0 establishes the latter.) *)
Record mach_ok (m : mach) (i : nat) (c : cpu) : Prop := {
  mo_this : this_cpu m = Some i;
  mo_cpu : m_cpus m !! i = Some c;
  mo_depth : 0 <= c_ncli c;
  mo_on : c_ncli c = 0 → c_intena c = Z.land (m_eflags m) FL_IF;
  mo_off : 0 < c_ncli c → Z.land (m_eflags m) FL_IF = 0;
  mo_saved : c_intena c = 0 ∨ c_intena c = FL_IF
}.

Definition lk_free (m : mach) (lk : lockid) : Prop :=
  ∃ nm, m_locks m !! lk = Some (Spinlock 0 nm None).
Definition lk_held (m : mach) (i : nat) (lk : lockid) : Prop :=
  ∃ nm, m_locks m !! lk = Some (Spinlock 1 nm (Some i)).

(** The CPU's record after one pushcli, after one popcli. *)
Definition cpu_push (e : Z) (c : cpu) : cpu :=
  (if c_ncli c =? 0 then c <| c_intena := Z.land e FL_IF |> else c) <| c_ncli := c_ncli c + 1 |>.
Definition push (m : mach) : mach :=
  match this_cpu m with
  | None => m
  | Some i => m <| m_eflags := Z.ldiff (m_eflags m) FL_IF |>
                <| m_cpus := alter (cpu_push (m_eflags m)) i (m_cpus m) |>
  end.
Definition pop (m : mach) : mach :=
  match this_cpu m with
  | None => m
  | Some i =>
    let c := m_cpus m !!! i in
    m <| m_eflags := if (c_ncli c - 1 =? 0) && ctrue (c_intena c)
                     then Z.lor (m_eflags m) FL_IF else m_eflags m |>
      <| m_cpus := alter (λ cp, cp <| c_ncli := c_ncli cp - 1 |>) i (m_cpus m) |>
  end.
Definition set_lock (lk : lockid) (locked : Z) (o : option nat) (m : mach) : mach :=
  m <| m_locks := alter (λ l, Spinlock locked (sl_name l) o) lk (m_locks m) |>.
Definition acq (lk : lockid) (m : mach) : mach := set_lock lk 1 (this_cpu m) (push m).
Definition rel (lk : lockid) (m : mach) : mach := pop (set_lock lk 0 None m).

Lemma FL_IF_bit : FL_IF = 2 ^ 9.
Proof. reflexivity. Qed.
Lemma land_FL_IF e : Z.land e FL_IF = if Z.testbit e 9 then FL_IF else 0.
Proof.
  apply Z.bits_inj'. intros j Hj. rewrite Z.land_spec, FL_IF_bit, Z.pow2_bits_eqb by lia.
  destruct (Z.eqb_spec 9 j) as [<-|Hne].
  - destruct (Z.testbit e 9); [by rewrite Z.pow2_bits_true by lia | by rewrite Z.bits_0].
  - rewrite andb_false_r.
    destruct (Z.testbit e 9); [by rewrite Z.pow2_bits_false by lia | by rewrite Z.bits_0].
Qed.
Lemma cli_off e : Z.land (Z.ldiff e FL_IF) FL_IF = 0.
Proof. apply Z.land_ldiff. Qed.
Lemma cli_idemp e : Z.land e FL_IF = 0 → Z.ldiff e FL_IF = e.
Proof.
  intros H. rewrite land_FL_IF in H. apply Z.bits_inj'. intros j Hj.
  rewrite Z.ldiff_spec, FL_IF_bit, Z.pow2_bits_eqb by lia.
  destruct (Z.eqb_spec 9 j) as [<-|]; [|by rewrite andb_true_r].
  destruct (Z.testbit e 9); [done|]. done.
Qed.
Lemma sti_cli e : Z.land e FL_IF ≠ 0 → Z.lor (Z.ldiff e FL_IF) FL_IF = e.
Proof.
  intros H. rewrite land_FL_IF in H. apply Z.bits_inj'. intros j Hj.
  rewrite Z.lor_spec, Z.ldiff_spec, FL_IF_bit, Z.pow2_bits_eqb by lia.
  destruct (Z.eqb_spec 9 j) as [<-|].
  - destruct (Z.testbit e 9); done.
  - by rewrite andb_true_r, orb_false_r.
Qed.

(** find_cpu only looks at the APIC ids. *)
Lemma find_cpu_alter a cs n i f :
  (∀ c, c_apicid (f c) = c_apicid c) → find_cpu a (alter f i cs) n = find_cpu a cs n.
Proof.
  intros Hf. revert n i. induction cs as [|c cs IH]; intros n i; [done|].
  destruct n as [|n]; [by destruct i|].
  destruct i as [|i]; simpl; rewrite ?Hf; [done|].
  by rewrite <- (IH n i).
Qed.
Lemma find_cpu_lt a cs n i : find_cpu a cs n = Some i → (i < length cs)%nat.
Proof.
  revert n i. induction cs as [|c cs IH]; intros [|n] i; simpl; try done.
  destruct (c_apicid c =? a).
  - intros [= <-]. lia.
  - intros (j & Hj & ->)%fmap_Some. apply IH in Hj. lia.
Qed.

Lemma mycpu_done n m d i :
  this_cpu m = Some i → Z.land (m_eflags m) FL_IF = 0 → mycpu n (K m d) = Done i (K m d).
Proof.
  intros Hi He. unfold mycpu. kstep. rewrite He. simpl.
  unfold this_cpu in Hi. by rewrite Hi.
Qed.

Lemma this_cpu_cpus m f i :
  (∀ c, c_apicid (f c) = c_apicid c) →
  this_cpu (m <| m_cpus := alter f i (m_cpus m) |>) = this_cpu m.
Proof. intros. unfold this_cpu. simpl. by apply find_cpu_alter. Qed.
Lemma cpu_push_apicid e c : c_apicid (cpu_push e c) = c_apicid c.
Proof. unfold cpu_push. by destruct (c_ncli c =? 0). Qed.
Lemma this_cpu_push m : this_cpu (push m) = this_cpu m.
Proof.
  unfold push. destruct (this_cpu m) as [i|] eqn:E; [|done].
  rewrite <- E. unfold this_cpu. simpl. apply find_cpu_alter, cpu_push_apicid.
Qed.
Lemma this_cpu_acq lk m : this_cpu (acq lk m) = this_cpu m.
Proof. apply this_cpu_push. Qed.

(** pushcli from any depth is [push]; from depth 0 it saves the flag. *)
Lemma pushcli_done n m d i c :
  this_cpu m = Some i → m_cpus m !! i = Some c → pushcli n (K m d) = Done tt (K (push m) d).
Proof.
  intros Hi Hc. unfold pushcli.
  set (m1 := m <| m_eflags := Z.ldiff (m_eflags m) FL_IF |>).
  assert (H1 : this_cpu m1 = Some i) by done.
  assert (He : Z.land (m_eflags m1) FL_IF = 0) by apply cli_off.
  erewrite bind_done by done. erewrite bind_done by done.
  change (set_field km _ _) with (K m1 d).
  erewrite bind_done by by apply mycpu_done. erewrite bind_done by done. simpl.
  rewrite (lookup_total_Some _ _ _ Hc).
  unfold push. rewrite Hi.
  destruct (c_ncli c =? 0) eqn:E; simpl.
  - set (m2 := m1 <| m_cpus := alter (λ cp, cp <| c_intena := Z.land (m_eflags m) FL_IF |>) i (m_cpus m) |>).
    assert (H2 : this_cpu m2 = Some i).
    { unfold this_cpu. simpl. rewrite find_cpu_alter by done. done. }
    erewrite bind_done.
    2:{ erewrite bind_done by by apply mycpu_done. reflexivity. }
    change (set_field km _ _) with (K m2 d).
    erewrite bind_done by by apply mycpu_done. unfold mod_cpu, modm, modify. simpl.
    rewrite list_alter_alter_eq, (alter_ext_at _ (cpu_push (m_eflags m)) _ _ c); [done|done|].
    unfold cpu_push. simpl. by rewrite E.
  - erewrite bind_done by done. erewrite bind_done by by apply mycpu_done.
    unfold mod_cpu, modm, modify. simpl.
    rewrite (alter_ext_at _ (cpu_push (m_eflags m)) _ _ c); [done|done|].
    unfold cpu_push. by rewrite E.
Qed.

Lemma popcli_done n m d i c :
  this_cpu m = Some i → m_cpus m !! i = Some c → Z.land (m_eflags m) FL_IF = 0 → 0 < c_ncli c →
  popcli n (K m d) = Done tt (K (pop m) d).
Proof.
  intros Hi Hc He Hn. unfold popcli. erewrite bind_done by done. simpl. rewrite He. simpl.
  erewrite bind_done by by apply mycpu_done.
  set (m1 := m <| m_cpus := alter (λ cp, cp <| c_ncli := c_ncli cp - 1 |>) i (m_cpus m) |>).
  erewrite bind_done by done. change (set_field km _ _) with (K m1 d).
  erewrite bind_done by done. simpl.
  assert (Hc1 : m_cpus m1 !! i = Some (c <| c_ncli := c_ncli c - 1 |>)).
  { simpl. rewrite list_lookup_alter_eq, Hc. done. }
  assert (H1 : this_cpu m1 = Some i) by (unfold m1; by rewrite this_cpu_cpus).
  rewrite (lookup_total_Some _ _ _ Hc1). simpl.
  destruct (Z.ltb_spec (c_ncli c - 1) 0); [lia|].
  erewrite bind_done by by apply mycpu_done. erewrite bind_done by done. simpl.
  rewrite (lookup_total_Some _ _ _ Hc1). simpl.
  unfold pop. rewrite Hi, (lookup_total_Some _ _ _ Hc).
  destruct ((c_ncli c - 1 =? 0) && ctrue (c_intena c)); done.
Qed.

Lemma mach_ok_push m i c : mach_ok m i c → mach_ok (push m) i (cpu_push (m_eflags m) c).
Proof.
  intros [Hi Hc Hd Hon Hoff Hsv]. split.
  - by rewrite this_cpu_push.
  - unfold push. rewrite Hi. simpl. by rewrite list_lookup_alter_eq, Hc.
  - unfold cpu_push. simpl. lia.
  - unfold cpu_push. simpl. lia.
  - intros _. unfold push. rewrite Hi. apply cli_off.
  - unfold cpu_push. destruct (c_ncli c =? 0); simpl; [|done].
    rewrite land_FL_IF. destruct (Z.testbit _ _); auto.
Qed.

Lemma sti_on e : Z.land (Z.lor e FL_IF) FL_IF = FL_IF.
Proof. by rewrite land_FL_IF, Z.lor_spec, orb_true_r. Qed.

Lemma this_cpu_pop m : this_cpu (pop m) = this_cpu m.
Proof.
  unfold pop. destruct (this_cpu m) as [i|] eqn:E; [|done].
  rewrite <- E. unfold this_cpu. simpl. by apply find_cpu_alter.
Qed.
Lemma mach_ok_pop m i c :
  mach_ok m i c → 0 < c_ncli c → mach_ok (pop m) i (c <| c_ncli := c_ncli c - 1 |>).
Proof.
  intros [Hi Hc Hd Hon Hoff Hsv] Hn. split; simpl.
  - by rewrite this_cpu_pop.
  - unfold pop. rewrite Hi. simpl. by rewrite list_lookup_alter_eq, Hc.
  - lia.
  - intros E. unfold pop. rewrite Hi, (lookup_total_Some _ _ _ Hc). simpl.
    rewrite E. simpl. unfold ctrue. destruct Hsv as [Hsv|Hsv]; rewrite Hsv; simpl.
    + symmetry. auto.
    + by rewrite sti_on.
  - intros E. unfold pop. rewrite Hi, (lookup_total_Some _ _ _ Hc). simpl.
    destruct (Z.eqb_spec (c_ncli c - 1) 0); [lia|]. auto.
  - done.
Qed.

Lemma pop_push m i c : mach_ok m i c → pop (push m) = m.
Proof.
  intros Hok. pose proof (mach_ok_push m i c Hok) as [Hi' Hc' _ _ _ _].
  destruct Hok as [Hi Hc Hd Hon Hoff _].
  assert (Hgen : ∀ e cs, e = m_eflags m → cs = m_cpus m →
    m <| m_eflags := e |> <| m_cpus := cs |> = m) by by intros ?? -> ->; destruct m.
  unfold pop. rewrite Hi', (lookup_total_Some _ _ _ Hc'). etransitivity.
  { unfold push. rewrite Hi. reflexivity. }
  apply Hgen; simpl.
  - replace (c_ncli c + 1 - 1) with (c_ncli c) by lia. unfold cpu_push.
    destruct (Z.eqb_spec (c_ncli c) 0) as [E|E]; simpl.
    + unfold ctrue. destruct (Z.eqb_spec (Z.land (m_eflags m) FL_IF) 0) as [E'|E']; simpl.
      * by apply cli_idemp.
      * by apply sti_cli.
    + apply cli_idemp, Hoff. lia.
  - rewrite list_alter_alter_eq, (alter_id_at _ _ _ c); [done|done|].
    unfold cpu_push, compose. destruct c as [a ncli ie pr st s0 e0 io]; simpl in *.
    destruct (Z.eqb_spec ncli 0) as [E|E]; rewrite <- ?(Hon E); unfold set_field, set_c_ncli, set_c_intena; simpl; f_equal; lia.
Qed.

Lemma holding_done n m d i c lk l :
  mach_ok m i c → m_locks m !! lk = Some l →
  holding lk n (K m d) = Done (ctrue (sl_locked l) && bool_decide (sl_cpu l = Some i)) (K m d).
Proof.
  intros Hok Hl. pose proof (mach_ok_push m i c Hok) as Hok'. unfold holding.
  erewrite bind_done by (eapply pushcli_done; apply Hok).
  erewrite bind_done by done.
  erewrite bind_done.
  2:{ apply mycpu_done; [apply Hok'|]. apply (mo_off _ _ _ Hok').
      unfold cpu_push. simpl. pose proof (mo_depth _ _ _ Hok). lia. }
  erewrite bind_done.
  2:{ eapply popcli_done; [apply Hok' | apply Hok' | |].
      - apply (mo_off _ _ _ Hok'). unfold cpu_push. simpl. pose proof (mo_depth _ _ _ Hok). lia.
      - unfold cpu_push. simpl. pose proof (mo_depth _ _ _ Hok). lia. }
  rewrite (pop_push m i c) by done. simpl.
  unfold push. rewrite (mo_this _ _ _ Hok). simpl. by rewrite Hl.
Qed.

Lemma locks_push m : m_locks (push m) = m_locks m.
Proof. unfold push. by destruct (this_cpu m). Qed.

Lemma acq_locks lk m : m_locks (acq lk m) = alter (λ l, Spinlock 1 (sl_name l) (this_cpu m)) lk (m_locks m).
Proof. unfold acq, set_lock. simpl. by rewrite locks_push. Qed.

Lemma mach_ok_acq lk m i c : mach_ok m i c → mach_ok (acq lk m) i (cpu_push (m_eflags m) c).
Proof. intros Hok%mach_ok_push. destruct Hok. by split. Qed.

Lemma acq_held lk m i c : mach_ok m i c → lk_free m lk → lk_held (acq lk m) i lk.
Proof.
  intros Hok [nm Hf]. exists nm. rewrite acq_locks, lookup_alter_eq, Hf. simpl.
  by rewrite (mo_this _ _ _ Hok).
Qed.
Lemma acq_other lk lk' m : lk ≠ lk' → m_locks (acq lk m) !! lk' = m_locks m !! lk'.
Proof. intros. by rewrite acq_locks, lookup_alter_ne. Qed.
Lemma acq_free_other lk lk' m : lk ≠ lk' → lk_free m lk' → lk_free (acq lk m) lk'.
Proof. intros Hne [nm H]. exists nm. by rewrite acq_other. Qed.
Lemma acq_held_other lk lk' m i : lk ≠ lk' → lk_held m i lk' → lk_held (acq lk m) i lk'.
Proof. intros Hne [nm H]. exists nm. by rewrite acq_other. Qed.

(** acquire of a free lock. *)
Lemma acquire_done n m d i c lk :
  mach_ok m i c → lk_free m lk → acquire lk n (K m d) = Done tt (K (acq lk m) d).
Proof.
  intros Hok [nm Hf]. pose proof (mach_ok_push m i c Hok) as Hok'. unfold acquire.
  assert (Hl : m_locks (push m) !! lk = Some (Spinlock 0 nm None)) by by rewrite locks_push.
  erewrite bind_done.
  2:{ unfold acquire_enter. erewrite bind_done by (eapply pushcli_done; apply Hok).
      erewrite bind_done by by eapply holding_done. simpl. reflexivity. }
  erewrite bind_done.
  2:{ unfold spin. destruct n; simpl; rewrite Hl; simpl; reflexivity. }
  unfold acquire_own.
  erewrite bind_done.
  2:{ apply mycpu_done; [apply Hok'|]. apply (mo_off _ _ _ Hok').
      unfold cpu_push. simpl. pose proof (mo_depth _ _ _ Hok). lia. }
  erewrite bind_done by done. unfold put_lock, modm, modify, acq, set_lock. simpl.
  rewrite lookup_insert_eq. simpl. rewrite insert_insert_eq, (mo_this _ _ _ Hok).
  by rewrite (alter_insert_at _ _ _ _ Hl).
Qed.

(** acquire of a lock this CPU already holds. *)
Lemma acquire_held n m d i c lk :
  mach_ok m i c → lk_held m i lk → acquire lk n (K m d) = Panic "acquire".
Proof.
  intros Hok [nm Hl]. pose proof (mach_ok_push m i c Hok) as Hok'.
  unfold acquire. apply bind_panic. unfold acquire_enter.
  erewrite bind_done by (eapply pushcli_done; apply Hok).
  erewrite bind_done by (eapply holding_done; [done | by rewrite locks_push]).
  simpl. by rewrite bool_decide_eq_true_2.
Qed.

(** acquire of a lock another CPU holds waits for it. *)
Lemma acquire_busy n m d i j c lk nm :
  mach_ok m i c → m_locks m !! lk = Some (Spinlock 1 nm (Some j)) → i ≠ j →
  ∃ k, acquire lk (S n) (K m d) = Block (W_spin lk) (K (push m) d) k.
Proof.
  intros Hok Hl Hij. pose proof (mach_ok_push m i c Hok) as Hok'.
  unfold acquire. eexists. erewrite bind_done.
  2:{ unfold acquire_enter. erewrite bind_done by (eapply pushcli_done; apply Hok).
      erewrite bind_done by (eapply holding_done; [done | by rewrite locks_push]).
      simpl. rewrite bool_decide_eq_false_2 by congruence. reflexivity. }
  apply bind_block. unfold spin. simpl. rewrite locks_push, Hl. reflexivity.
Qed.

Lemma release_disown_done n m d i c lk :
  mach_ok m i c → lk_held m i lk →
  release_disown lk n (K m d) = Done tt (K (set_lock lk 1 None m) d).
Proof.
  intros Hok [nm Hl]. unfold release_disown.
  erewrite bind_done by by eapply holding_done. simpl.
  rewrite bool_decide_eq_true_2 by done. simpl.
  erewrite bind_done by done. unfold put_lock, modm, modify, set_lock. simpl.
  by rewrite Hl, (alter_insert_at _ _ _ _ Hl).
Qed.
Lemma release_store_done n m d lk l :
  m_locks m !! lk = Some l →
  release_store lk n (K m d) = Done tt (K (set_lock lk 0 (sl_cpu l) m) d).
Proof.
  intros Hl. unfold release_store. erewrite bind_done by done.
  unfold put_lock, modm, modify, set_lock. simpl.
  by rewrite Hl, (alter_insert_at _ _ _ _ Hl).
Qed.
Lemma set_lock_set_lock lk v o v' o' m : set_lock lk v o (set_lock lk v' o' m) = set_lock lk v o m.
Proof. unfold set_lock. simpl. by rewrite alter_alter_eq. Qed.
Lemma lookup_set_lock lk v o m l :
  m_locks m !! lk = Some l → m_locks (set_lock lk v o m) !! lk = Some (Spinlock v (sl_name l) o).
Proof. intros Hl. simpl. by rewrite lookup_alter_eq, Hl. Qed.

Lemma release_done n m d i c lk :
  mach_ok m i c → lk_held m i lk → 0 < c_ncli c → release lk n (K m d) = Done tt (K (rel lk m) d).
Proof.
  intros Hok Hh Hn. pose proof Hh as [nm Hl]. unfold release.
  erewrite bind_done by by eapply release_disown_done.
  erewrite bind_done by by eapply release_store_done, lookup_set_lock.
  rewrite set_lock_set_lock. destruct Hok. eapply popcli_done; eauto.
Qed.

(** release of a lock this CPU does not hold. *)
Lemma release_unheld n m d i c lk l :
  mach_ok m i c → m_locks m !! lk = Some l → sl_locked l = 0 ∨ sl_cpu l ≠ Some i →
  release lk n (K m d) = Panic "release".
Proof.
  intros Hok Hl Hnot. unfold release. apply bind_panic. unfold release_disown.
  erewrite bind_done by by eapply holding_done. simpl.
  destruct Hnot as [->|Hne]; [done|]. by rewrite bool_decide_eq_false_2, andb_false_r.
Qed.

Lemma set_lock_free lk m : lk_free m lk → set_lock lk 0 None m = m.
Proof.
  intros [nm Hl]. unfold set_lock. destruct m. simpl in *. unfold set_field, set_m_locks; simpl. by rewrite (alter_insert_at _ _ _ _ Hl), insert_id.
Qed.
Lemma push_free lk m : lk_free m lk → lk_free (push m) lk.
Proof. intros [nm Hl]. exists nm. by rewrite locks_push. Qed.

(** What acquire took, release gives back: the machine is as before. *)
Lemma rel_acq lk m i c : mach_ok m i c → lk_free m lk → rel lk (acq lk m) = m.
Proof.
  intros Hok Hf. unfold rel, acq.
  rewrite set_lock_set_lock, set_lock_free by by apply push_free. by eapply pop_push.
Qed.

Lemma push_set_lock lk v o m : push (set_lock lk v o m) = set_lock lk v o (push m).
Proof. unfold push, this_cpu. simpl. by destruct (find_cpu _ _ _). Qed.
Lemma pop_set_lock lk v o m : pop (set_lock lk v o m) = set_lock lk v o (pop m).
Proof. unfold pop, this_cpu. simpl. by destruct (find_cpu _ _ _). Qed.
Lemma set_lock_comm lk lk' v o v' o' m :
  lk ≠ lk' → set_lock lk v o (set_lock lk' v' o' m) = set_lock lk' v' o' (set_lock lk v o m).
Proof. intros. unfold set_lock. simpl. by rewrite alter_alter_ne. Qed.

(** Locks may be given back in another order than they were taken: what
    sleep() does with the lock it is passed and ptable.lock. *)
Lemma rel_acq_acq lk lk' m i c :
  mach_ok m i c → lk_free m lk → lk ≠ lk' → rel lk (acq lk' (acq lk m)) = acq lk' m.
Proof.
  intros Hok Hf Hne. unfold rel, acq at 1.
  rewrite (set_lock_comm lk lk'), pop_set_lock, <- push_set_lock by done.
  unfold acq at 2. rewrite set_lock_set_lock, set_lock_free by by apply push_free.
  erewrite pop_push by by apply mach_ok_push. rewrite this_cpu_acq. done.
Qed.

(** A critical section: code that leaves the machine half alone, run under a
    free lock, has the effect it has without the lock. *)
Lemma critical {A} n m d i c lk (body : KM A) a d' :
  mach_ok m i c → lk_free m lk →
  body n (K (acq lk m) d) = Done a (K (acq lk m) d') →
  (acquire lk ;; x ← body; release lk ;; mret x) n (K m d) = Done a (K m d').
Proof.
  intros Hok Hf Hb. pose proof (mach_ok_acq lk m i c Hok) as Hok'.
  erewrite bind_done by by eapply acquire_done. erewrite bind_done by done.
  erewrite bind_done.
  2:{ eapply release_done; [done | by eapply acq_held |].
      unfold cpu_push. simpl. pose proof (mo_depth _ _ _ Hok). lia. }
  by erewrite rel_acq.
Qed.

Lemma cpu_push_depth e c : c_ncli (cpu_push e c) = c_ncli c + 1.
Proof. done. Qed.
Lemma cpu_push_proc e c : c_proc (cpu_push e c) = c_proc c.
Proof. unfold cpu_push. by destruct (c_ncli c =? 0). Qed.

Lemma mo_off' m i c : mach_ok m i c → 0 < c_ncli c → Z.land (m_eflags m) FL_IF = 0.
Proof. intros []. auto. Qed.

Lemma release_acq n m d i c lk :
  mach_ok m i c → lk_free m lk → release lk n (K (acq lk m) d) = Done tt (K m d).
Proof.
  intros Hok Hf. pose proof (mach_ok_acq lk m i c Hok) as Hok'.
  erewrite release_done; [by erewrite rel_acq | done | by eapply acq_held |].
  rewrite cpu_push_depth. pose proof (mo_depth _ _ _ Hok). lia.
Qed.

Lemma myproc_done n m d i c :
  mach_ok m i c → myproc n (K m d) = Done (c_proc c) (K m d).
Proof.
  intros Hok. pose proof (mach_ok_push m i c Hok) as Hok'. unfold myproc.
  pose proof (mo_depth _ _ _ Hok) as Hd.
  assert (He : Z.land (m_eflags (push m)) FL_IF = 0).
  { apply (mo_off _ _ _ Hok'). rewrite cpu_push_depth. lia. }
  erewrite bind_done by (eapply pushcli_done; apply Hok).
  erewrite bind_done by (apply mycpu_done; [apply Hok' | done]).
  erewrite bind_done by done.
  erewrite bind_done.
  2:{ eapply popcli_done; [apply Hok' | apply Hok' | done |]. rewrite cpu_push_depth. lia. }
  erewrite pop_push by done. unfold mret, M_ret. simpl.
  by rewrite (lookup_total_Some _ _ _ (mo_cpu _ _ _ Hok')), cpu_push_proc.
Qed.

(** With interrupts already off (inside a critical section) mycpu is direct. *)
Lemma mycpu_ok n m d i c :
  mach_ok m i c → 0 < c_ncli c → mycpu n (K m d) = Done i (K m d).
Proof. intros Hok Hn. apply mycpu_done; [apply Hok | by eapply mo_off']. Qed.

Lemma acq_cr3 lk m : m_cr3 (acq lk m) = m_cr3 m.
Proof. unfold acq, push. simpl. by destruct (this_cpu m). Qed.

(** The same code [k] times. *)
Fixpoint times (k : nat) (m : KM unit) : KM unit :=
  match k with O => mret tt | S k' => m ;; times k' m end.

Lemma pushcli_times n m d i c k :
  mach_ok m i c →
  times k pushcli n (K m d) = Done tt (K (Nat.iter k push m) d)
  ∧ ∃ c', mach_ok (Nat.iter k push m) i c' ∧ c_ncli c' = c_ncli c + Z.of_nat k.
Proof.
  revert m c. induction k as [|k IH]; intros m c Hok; [simpl; split; [done|]; exists c; split; [done|lia]|].
  pose proof (mach_ok_push m i c Hok) as Hok'.
  destruct (IH (push m) _ Hok') as (H1 & c' & H2 & H3).
  rewrite Nat.iter_succ_r. split.
  - simpl. erewrite bind_done by (eapply pushcli_done; apply Hok). done.
  - exists c'. split; [done|]. rewrite cpu_push_depth in H3. lia.
Qed.

Lemma popcli_times n m d i c k :
  mach_ok m i c → times k popcli n (K (Nat.iter k push m) d) = Done tt (K m d).
Proof.
  intros Hok. induction k as [|k IH]; [done|].
  destruct (pushcli_times n m d i c k Hok) as (_ & c' & Hok' & Hc').
  pose proof (mach_ok_push _ _ _ Hok') as Hok''. pose proof (mo_depth _ _ _ Hok) as Hd.
  simpl. erewrite bind_done.
  2:{ eapply popcli_done; [apply Hok''|apply Hok''| |]; [|rewrite cpu_push_depth; lia].
      apply (mo_off _ _ _ Hok''). rewrite cpu_push_depth. lia. }
  by erewrite pop_push.
Qed.

#[global] Arguments acq lk m : simpl never.
#[global] Arguments rel lk m : simpl never.
