(* ===== verification/Smp.v ===== *)
(** * Smp: several CPUs on the same spin locks

    CPUs run the pieces of acquire and release (Spinlock.v) in any order, each
    piece one atomic step: what acquire does before its xchg loop, a
    successful xchg, recording the owner; disowning the lock, and the final
    store with popcli.  The invariant, by induction on the steps, gives mutual
    exclusion, and interrupts that are off on every CPU inside a critical
    section. *)

From S2P Require Import Prelude Memory Kstate Spinlock.

Inductive pc : Set :=
| P_run                  (* in no lock operation *)
| P_spin (lk : lockid)   (* acquire: before the xchg *)
| P_own (lk : lockid)    (* acquire: after the xchg *)
| P_store (lk : lockid). (* release: before the store *)

(** What is private to a CPU: its flags register and APIC id, where it is in
    the lock code, and the locks whose critical sections it is in. *)
Record core := Core { k_eflags : Z; k_id : Z; k_pc : pc; k_held : list lockid }.

Record smp := Smp {
  s_core : nat → core;
  s_cpus : list cpu;
  s_ncpu : nat;
  s_locks : gmap lockid spinlock
}.

(** The machine as CPU [i] sees it. *)
Definition mach_of (σ : smp) (i : nat) : mach :=
  Mach (k_eflags (s_core σ i)) 0 (Some (k_id (s_core σ i))) (s_cpus σ) (s_ncpu σ) (s_locks σ).

(** The system after CPU [i] took it to [m] and went on to [p], holding [h]. *)
Definition put (σ : smp) (i : nat) (m : mach) (p : pc) (h : list lockid) : smp :=
  Smp (<[i := Core (m_eflags m) (k_id (s_core σ i)) p h]> (s_core σ))
    (m_cpus m) (s_ncpu σ) (m_locks m).

Section smp.
Context (d : kdata).

Definition runs (code : KM unit) (m m' : mach) : Prop := code 0%nat (K m d) = Done tt (K m' d).

Inductive step (σ : smp) : smp → Prop :=
| step_enter i lk m' :
    (i < s_ncpu σ)%nat → k_pc (s_core σ i) = P_run → is_Some (s_locks σ !! lk) →
    runs (acquire_enter lk) (mach_of σ i) m' →
    step σ (put σ i m' (P_spin lk) (k_held (s_core σ i)))
| step_xchg i lk m' :
    (i < s_ncpu σ)%nat → k_pc (s_core σ i) = P_spin lk →
    runs (spin lk) (mach_of σ i) m' →
    step σ (put σ i m' (P_own lk) (k_held (s_core σ i)))
| step_own i lk m' :
    (i < s_ncpu σ)%nat → k_pc (s_core σ i) = P_own lk →
    runs (acquire_own lk) (mach_of σ i) m' →
    step σ (put σ i m' P_run (lk :: k_held (s_core σ i)))
| step_disown i lk m' :
    (i < s_ncpu σ)%nat → k_pc (s_core σ i) = P_run →
    is_Some (s_locks σ !! lk) →
    runs (release_disown lk) (mach_of σ i) m' →
    step σ (put σ i m' (P_store lk) (filter (λ x, x ≠ lk) (k_held (s_core σ i))))
| step_store i lk m' :
    (i < s_ncpu σ)%nat → k_pc (s_core σ i) = P_store lk →
    runs (release_store lk ;; popcli) (mach_of σ i) m' →
    step σ (put σ i m' P_run (k_held (s_core σ i))).

(** All CPUs idle, in good order, every lock free. *)
Definition init (σ : smp) : Prop :=
  (∀ i, (i < s_ncpu σ)%nat →
    k_pc (s_core σ i) = P_run ∧ k_held (s_core σ i) = [] ∧
    ∃ c, mach_ok (mach_of σ i) i c ∧ c_ncli c = 0)
  ∧ ∀ lk l, s_locks σ !! lk = Some l → sl_locked l = 0 ∧ sl_cpu l = None.

(** ** The invariant *)

Definition pc_depth (p : pc) : Z := match p with P_run => 0 | _ => 1 end.
Definition pc_has (p : pc) (lk : lockid) : Prop := p = P_own lk ∨ p = P_store lk.
(** CPU [i] has the lock: in its critical section, or on the way in or out. *)
Definition has (σ : smp) (i : nat) (lk : lockid) : Prop :=
  lk ∈ k_held (s_core σ i) ∨ pc_has (k_pc (s_core σ i)) lk.

Definition core_inv (σ : smp) (i : nat) : Prop :=
  let k := s_core σ i in
  NoDup (k_held k)
  ∧ (∀ lk, pc_has (k_pc k) lk → lk ∉ k_held k)
  ∧ (∀ lk, has σ i lk ∨ k_pc k = P_spin lk → is_Some (s_locks σ !! lk))
  ∧ ∃ c, mach_ok (mach_of σ i) i c ∧ c_ncli c = Z.of_nat (length (k_held k)) + pc_depth (k_pc k).

Definition lock_inv (σ : smp) (lk : lockid) (l : spinlock) : Prop :=
  (sl_locked l = 0 ∧ sl_cpu l = None ∧ ∀ i, (i < s_ncpu σ)%nat → ¬ has σ i lk)
  ∨ (sl_locked l = 1 ∧ ∃ i, (i < s_ncpu σ)%nat ∧ has σ i lk
      ∧ (∀ j, (j < s_ncpu σ)%nat → has σ j lk → j = i)
      ∧ sl_cpu l = if decide (lk ∈ k_held (s_core σ i)) then Some i else None).

Definition inv (σ : smp) : Prop :=
  (∀ i, (i < s_ncpu σ)%nat → core_inv σ i)
  ∧ ∀ lk l, s_locks σ !! lk = Some l → lock_inv σ lk l.

Lemma init_inv σ : init σ → inv σ.
Proof.
  intros [Hc Hl]. split.
  - intros i Hi. destruct (Hc i Hi) as (Hp & Hh & c & Hok & Hn). unfold core_inv, has.
    rewrite Hp, Hh. split_and!; [constructor | | | ].
    + intros lk [?|?]; done.
    + intros lk [[H|[?|?]]|?]; [by apply not_elem_of_nil in H | done..].
    + exists c. split; [done|]. simpl. lia.
  - intros lk l H. destruct (Hl lk l H) as [H1 H2]. left. split_and!; [done..|].
    intros i Hi. destruct (Hc i Hi) as (Hp & Hh & _). unfold has. rewrite Hp, Hh.
    intros [H'|[?|?]]; [by apply not_elem_of_nil in H' | done..].
Qed.

(** A CPU changes only its own record. *)
Definition own_step (i : nat) (m m' : mach) : Prop :=
  (∃ f, m_cpus m' = alter f i (m_cpus m) ∧ ∀ c, c_apicid (f c) = c_apicid c)
  ∧ m_lapic m' = m_lapic m ∧ m_ncpu m' = m_ncpu m ∧ m_cr3 m' = m_cr3 m.

Lemma own_step_push m i : this_cpu m = Some i → own_step i m (push m).
Proof.
  intros Hi. unfold push. rewrite Hi. split; [|done]. exists (cpu_push (m_eflags m)).
  split; [done | apply cpu_push_apicid].
Qed.
Lemma own_step_pop m i : this_cpu m = Some i → own_step i m (pop m).
Proof. intros Hi. unfold pop. rewrite Hi. split; [|done]. by eexists. Qed.
Lemma own_step_set_lock m i lk v o : own_step i m (set_lock lk v o m).
Proof. split; [|done]. exists (λ c, c). split; [|done]. simpl. by rewrite list_alter_id. Qed.
Lemma own_step_trans m1 m2 m3 i : own_step i m1 m2 → own_step i m2 m3 → own_step i m1 m3.
Proof.
  intros [(f & Hf & Hf') (? & ? & ?)] [(g & Hg & Hg') (? & ? & ?)].
  split; [|split_and!; congruence]. exists (g ∘ f).
  rewrite Hg, Hf, list_alter_alter_eq. split; [done|]. intros c. simpl. by rewrite Hg', Hf'.
Qed.

Lemma mach_of_put σ i m' p h : own_step i (mach_of σ i) m' → mach_of (put σ i m' p h) i = m'.
Proof.
  intros [_ (H1 & H2 & H3)]. unfold mach_of, put. simpl. rewrite fn_lookup_insert. simpl.
  destruct m'; simpl in *. by subst.
Qed.

Lemma mach_of_put_ne σ i j m' p h c :
  i ≠ j → own_step i (mach_of σ i) m' →
  mach_ok (mach_of σ j) j c → mach_ok (mach_of (put σ i m' p h) j) j c.
Proof.
  intros Hne [(f & Hf & Hf') _] [H1 H2 H3 H4 H5 H6].
  unfold mach_of, put in *; simpl in *. rewrite fn_lookup_insert_ne by done.
  split; simpl; try done.
  - unfold this_cpu in *. simpl in *. rewrite Hf. by rewrite find_cpu_alter.
  - rewrite Hf. by rewrite list_lookup_alter_ne.
Qed.

(** A step of CPU [i] that leaves the other CPUs alone keeps the invariant
    if the CPU itself and the locks are as they should. *)
Lemma inv_put σ i m' p h c :
  inv σ → (i < s_ncpu σ)%nat → own_step i (mach_of σ i) m' →
  (∀ lk, is_Some (s_locks σ !! lk) → is_Some (m_locks m' !! lk)) →
  NoDup h → (∀ lk, pc_has p lk → lk ∉ h) →
  (∀ lk, lk ∈ h ∨ pc_has p lk ∨ p = P_spin lk → is_Some (m_locks m' !! lk)) →
  mach_ok m' i c → c_ncli c = Z.of_nat (length h) + pc_depth p →
  (∀ lk l, m_locks m' !! lk = Some l → lock_inv (put σ i m' p h) lk l) →
  inv (put σ i m' p h).
Proof.
  intros [Hcore _] Hi Hown Hdom Hnd Hph Hin Hok Hn Hlocks. split; [|done].
  intros j Hj. destruct (decide (i = j)) as [<-|Hne].
  - unfold core_inv, has. simpl. rewrite fn_lookup_insert. simpl. split_and!; [done|done| |].
    + intros lk H. apply Hin. tauto.
    + exists c. split; [|done]. by rewrite mach_of_put.
  - destruct (Hcore j Hj) as (H1 & H2 & H3 & cj & H4 & H5). unfold core_inv, has. simpl.
    rewrite fn_lookup_insert_ne by done. split_and!; [done|done| |].
    + intros lk H. apply Hdom, H3, H.
    + exists cj. split; [by apply mach_of_put_ne | done].
Qed.

(** A lock that nobody touched. *)
Lemma lock_inv_frame σ i m' p h lk l :
  (lk ∈ h ↔ lk ∈ k_held (s_core σ i)) → (pc_has p lk ↔ pc_has (k_pc (s_core σ i)) lk) →
  lock_inv σ lk l → lock_inv (put σ i m' p h) lk l.
Proof.
  intros Hh Hp.
  assert (Hhas : ∀ j, has (put σ i m' p h) j lk ↔ has σ j lk).
  { intros j. unfold has, put. simpl. destruct (decide (i = j)) as [<-|].
    - rewrite fn_lookup_insert. simpl. tauto.
    - by rewrite fn_lookup_insert_ne. }
  intros [(H1 & H2 & H3)|(H1 & j & H2 & H3 & H4 & H5)].
  - left. split_and!; [done..|]. intros j Hj. rewrite Hhas. auto.
  - right. split; [done|]. exists j. split_and!; [done | by apply Hhas | | ].
    + intros j' Hj' H. apply H4; [done | by apply Hhas].
    + rewrite H5. unfold put. simpl. destruct (decide (i = j)) as [<-|].
      * rewrite fn_lookup_insert. simpl. repeat case_decide; tauto.
      * by rewrite fn_lookup_insert_ne.
Qed.

(** ** What each piece does when it runs *)

Lemma runs_enter m m' i c lk l :
  mach_ok m i c → m_locks m !! lk = Some l → runs (acquire_enter lk) m m' → m' = push m.
Proof.
  intros Hok Hl. pose proof (mach_ok_push m i c Hok) as Hok'. unfold runs, acquire_enter.
  erewrite bind_done by (eapply pushcli_done; apply Hok).
  erewrite bind_done by (eapply holding_done; [done | by rewrite locks_push]).
  destruct (_ && _); [done|]. by intros [= <-].
Qed.

Lemma runs_spin m m' lk l :
  m_locks m !! lk = Some l → runs (spin lk) m m' →
  sl_locked l = 0 ∧ m' = set_lock lk 1 (sl_cpu l) m.
Proof.
  intros Hl. unfold runs, spin. simpl. rewrite Hl. simpl.
  destruct (Z.eqb_spec (sl_locked l) 0); [|done]. intros [= <-]. split; [done|].
  unfold set_lock. by rewrite (alter_insert_at _ _ _ _ Hl).
Qed.

Lemma runs_own m m' i c lk l :
  mach_ok m i c → 0 < c_ncli c → m_locks m !! lk = Some l → runs (acquire_own lk) m m' →
  m' = set_lock lk (sl_locked l) (Some i) m.
Proof.
  intros Hok Hn Hl. unfold runs, acquire_own. erewrite bind_done by by eapply mycpu_ok.
  erewrite bind_done by done. unfold put_lock, modm, modify. simpl. rewrite Hl. intros [= <-].
  unfold set_lock. by rewrite (alter_insert_at _ _ _ _ Hl).
Qed.

Lemma runs_disown m m' i c lk l :
  mach_ok m i c → m_locks m !! lk = Some l → runs (release_disown lk) m m' →
  sl_cpu l = Some i ∧ m' = set_lock lk (sl_locked l) None m.
Proof.
  intros Hok Hl. unfold runs, release_disown. erewrite bind_done by by eapply holding_done.
  destruct (ctrue (sl_locked l) && bool_decide (sl_cpu l = Some i)) eqn:E; [|done]. simpl.
  apply andb_true_iff in E as [_ E%bool_decide_eq_true_1].
  erewrite bind_done by done. unfold put_lock, modm, modify. simpl. rewrite Hl. intros [= <-].
  split; [done|]. unfold set_lock. by rewrite (alter_insert_at _ _ _ _ Hl).
Qed.

Lemma mach_ok_set_lock lk v o m i c : mach_ok m i c → mach_ok (set_lock lk v o m) i c.
Proof. intros []. by split. Qed.

Lemma runs_store m m' i c lk l :
  mach_ok m i c → 0 < c_ncli c → m_locks m !! lk = Some l →
  runs (release_store lk ;; popcli) m m' → m' = pop (set_lock lk 0 (sl_cpu l) m).
Proof.
  intros Hok Hn Hl. unfold runs. erewrite bind_done by by eapply release_store_done.
  pose proof (mach_ok_set_lock lk 0 (sl_cpu l) m i c Hok) as Hok'.
  erewrite popcli_done; [|apply Hok'|apply Hok'| |done]; [|by eapply mo_off'].
  by intros [= <-].
Qed.

Lemma set_lock_dom lk v o m lk' :
  is_Some (m_locks m !! lk') → is_Some (m_locks (set_lock lk v o m) !! lk').
Proof. simpl. rewrite lookup_alter_is_Some. done. Qed.
Lemma locks_pop m : m_locks (pop m) = m_locks m.
Proof. unfold pop. by destruct (this_cpu m). Qed.

(** A step that rewrites one lock [lk0]: the others keep their status. *)
Lemma locks_set σ i m' p h lk0 v o l0 :
  inv σ → m_locks m' = m_locks (set_lock lk0 v o (mach_of σ i)) →
  s_locks σ !! lk0 = Some l0 →
  (∀ lk, lk ≠ lk0 → (lk ∈ h ↔ lk ∈ k_held (s_core σ i))
                  ∧ (pc_has p lk ↔ pc_has (k_pc (s_core σ i)) lk)) →
  lock_inv (put σ i m' p h) lk0 (Spinlock v (sl_name l0) o) →
  ∀ lk l, m_locks m' !! lk = Some l → lock_inv (put σ i m' p h) lk l.
Proof.
  intros [_ Hinv] Hm Hl0 Hother Hlk0 lk l. rewrite Hm. simpl.
  destruct (decide (lk = lk0)) as [->|Hne].
  - rewrite lookup_alter_eq, Hl0. simpl. by intros [= <-].
  - rewrite lookup_alter_ne by done. intros Hl. destruct (Hother lk Hne).
    apply lock_inv_frame; [done..|]. by apply Hinv.
Qed.

(** What [i] has after its step, and what the others have. *)
Lemma has_put σ i m' p h lk : has (put σ i m' p h) i lk ↔ lk ∈ h ∨ pc_has p lk.
Proof. unfold has, put. simpl. by rewrite fn_lookup_insert. Qed.
Lemma has_put_ne σ i j m' p h lk : j ≠ i → has (put σ i m' p h) j lk ↔ has σ j lk.
Proof. intros. unfold has, put. simpl. by rewrite fn_lookup_insert_ne. Qed.

(** After its step CPU [i] alone has the lock, which nobody else had. *)
Lemma lock_inv_taken σ i m' p h lk name o :
  (i < s_ncpu σ)%nat → lk ∈ h ∨ pc_has p lk →
  (∀ j, (j < s_ncpu σ)%nat → has σ j lk → j = i) →
  o = (if decide (lk ∈ h) then Some i else None) →
  lock_inv (put σ i m' p h) lk (Spinlock 1 name o).
Proof.
  intros Hi Hh Hj Ho. right. split; [done|]. exists i. split_and!; [done | by apply has_put | | ].
  - intros j Hlt. destruct (decide (j = i)); [done|]. rewrite has_put_ne by done. auto.
  - subst o. unfold put. simpl. by rewrite fn_lookup_insert.
Qed.

Lemma enter_inv σ i lk m' :
  inv σ → (i < s_ncpu σ)%nat → k_pc (s_core σ i) = P_run → is_Some (s_locks σ !! lk) →
  runs (acquire_enter lk) (mach_of σ i) m' →
  inv (put σ i m' (P_spin lk) (k_held (s_core σ i))).
Proof.
  intros Hinv Hi Hp [l Hl] Hrun.
  destruct (proj1 Hinv i Hi) as (H1 & H2 & H3 & c & Hok & Hn).
  eapply runs_enter in Hrun as ->; [|done|done]. rewrite Hp in Hn.
  eapply inv_put; [done | done | by apply own_step_push, Hok | | done | | | by apply mach_ok_push | | ].
  - intros lk'. by rewrite locks_push.
  - intros lk' [?|?]; done.
  - intros lk' Hlk'. rewrite locks_push. simpl.
    destruct Hlk' as [?|[[?|?]|[= <-]]]; [apply H3; left; by left | done | done | by exists l].
  - rewrite cpu_push_depth. simpl in *. lia.
  - intros lk' l'. rewrite locks_push. simpl. intros Hl'.
    apply lock_inv_frame; [done | | by apply (proj2 Hinv)].
    rewrite Hp. split; intros [?|?]; done.
Qed.

Lemma xchg_inv σ i lk m' :
  inv σ → (i < s_ncpu σ)%nat → k_pc (s_core σ i) = P_spin lk →
  runs (spin lk) (mach_of σ i) m' → inv (put σ i m' (P_own lk) (k_held (s_core σ i))).
Proof.
  intros Hinv Hi Hp Hrun.
  destruct (proj1 Hinv i Hi) as (H1 & H2 & H3 & c & Hok & Hn).
  destruct (H3 lk) as [l Hl]; [by right|].
  eapply runs_spin in Hrun as [Hfree ->]; [|done]. rewrite Hp in Hn.
  destruct (proj2 Hinv lk l Hl) as [(_ & Ho & Hno)|(? & _)]; [|congruence].
  assert (Hnot : lk ∉ k_held (s_core σ i)) by (intros ?; apply (Hno i Hi); by left).
  eapply inv_put; [done | done | apply own_step_set_lock | intros lk'; apply (set_lock_dom _ _ _ (mach_of σ i)) | done | | | by apply mach_ok_set_lock | done | ].
  - intros lk' [[= <-]|?]; done.
  - intros lk' Hlk'. apply set_lock_dom. simpl.
    destruct Hlk' as [?|[[[= <-]|?]|?]]; [apply H3; left; by left | by exists l | done | done].
  - eapply locks_set; [done | done | done | | ].
    + intros lk' Hne. rewrite Hp. split; [done|].
      split; intros [[= ?]|?]; congruence.
    + apply lock_inv_taken; [done | by right; left | | ].
      * intros j Hj ?. by destruct (Hno j Hj).
      * by rewrite decide_False.
Qed.

(** The lock of a CPU that has it. *)
Lemma has_lock σ i lk :
  inv σ → (i < s_ncpu σ)%nat → has σ i lk →
  ∃ l, s_locks σ !! lk = Some l ∧ sl_locked l = 1
    ∧ (∀ j, (j < s_ncpu σ)%nat → has σ j lk → j = i)
    ∧ sl_cpu l = if decide (lk ∈ k_held (s_core σ i)) then Some i else None.
Proof.
  intros [Hcore Hlock] Hi Hh. destruct (Hcore i Hi) as (_ & _ & H3 & _).
  destruct (H3 lk) as [l Hl]; [by left|]. exists l. split; [done|].
  destruct (Hlock lk l Hl) as [(_ & _ & Hno)|(H1 & j & Hj & Hhj & Huniq & Ho)].
  - by destruct (Hno i Hi).
  - assert (i = j) as <- by auto. done.
Qed.

Lemma own_inv σ i lk m' :
  inv σ → (i < s_ncpu σ)%nat → k_pc (s_core σ i) = P_own lk →
  runs (acquire_own lk) (mach_of σ i) m' → inv (put σ i m' P_run (lk :: k_held (s_core σ i))).
Proof.
  intros Hinv Hi Hp Hrun.
  destruct (proj1 Hinv i Hi) as (H1 & H2 & H3 & c & Hok & Hn). rewrite Hp in H2, H3, Hn.
  destruct (has_lock σ i lk) as (l & Hl & Hlk & Huniq & _); [done | done | right; rewrite Hp; by left |].
  assert (lk ∉ k_held (s_core σ i)) by (apply H2; by left). simpl in Hn.
  eapply runs_own in Hrun as ->; [|done | lia | done].
  eapply inv_put; [done | done | apply own_step_set_lock
    | intros lk'; apply (set_lock_dom _ _ _ (mach_of σ i)) | by constructor | | | by apply mach_ok_set_lock | simpl; lia | ].
  - intros lk' [?|?]; done.
  - intros lk' Hlk'. apply set_lock_dom. simpl.
    destruct Hlk' as [[->|?]%elem_of_cons|[[?|?]|?]]; [by exists l | apply H3; left; by left | done..].
  - eapply locks_set; [done | done | done | | ].
    + intros lk' Hne. rewrite Hp, elem_of_cons. split; [tauto|].
      split; intros [?|?]; congruence.
    + rewrite Hlk. apply lock_inv_taken; [done | left; apply elem_of_cons; by left | done | ].
      by rewrite decide_True by (apply elem_of_cons; by left).
Qed.

Lemma filter_ne_length (lk : lockid) (h : list lockid) :
  NoDup h → lk ∈ h → length h = S (length (filter (λ x, x ≠ lk) h)).
Proof.
  induction 1 as [|x h Hx Hnd IH]; [by intros ?%not_elem_of_nil|].
  rewrite elem_of_cons. intros Hin. rewrite filter_cons.
  destruct (decide (x ≠ lk)) as [|Heq%dec_stable]; simpl.
  - f_equal. apply IH. destruct Hin; congruence.
  - subst. f_equal. clear IH Hin Hnd. induction h as [|y h IHh]; [done|].
    apply not_elem_of_cons in Hx as [Hne Hx]. rewrite filter_cons, decide_True by done.
    simpl. f_equal. auto.
Qed.

Lemma disown_inv σ i lk m' :
  inv σ → (i < s_ncpu σ)%nat → k_pc (s_core σ i) = P_run → is_Some (s_locks σ !! lk) →
  runs (release_disown lk) (mach_of σ i) m' →
  inv (put σ i m' (P_store lk) (filter (λ x, x ≠ lk) (k_held (s_core σ i)))).
Proof.
  intros Hinv Hi Hp [l Hl] Hrun.
  destruct (proj1 Hinv i Hi) as (H1 & H2 & H3 & c & Hok & Hn). rewrite Hp in H2, H3, Hn.
  eapply runs_disown in Hrun as [Ho ->]; [|done | done].
  assert (Hheld : lk ∈ k_held (s_core σ i)).
  { destruct (proj2 Hinv lk l Hl) as [(_ & ? & _)|(_ & j & _ & _ & _ & Ho')]; [congruence|].
    rewrite Ho in Ho'. case_decide; [by injection Ho' as <-|done]. }
  destruct (has_lock σ i lk) as (l' & Hl' & Hlk & Huniq & _); [done | done | by left |].
  assert (l' = l) as -> by congruence.
  pose proof (filter_ne_length lk _ H1 Hheld) as Hlen. simpl in Hn.
  eapply inv_put; [done | done | apply own_step_set_lock
    | intros lk'; apply (set_lock_dom _ _ _ (mach_of σ i)) | by apply NoDup_filter | | | by apply mach_ok_set_lock | simpl; lia | ].
  - intros lk' [?|[= <-]]; [done|]. rewrite list_elem_of_filter. tauto.
  - intros lk' Hlk'. apply set_lock_dom. simpl.
    destruct Hlk' as [[_ ?]%list_elem_of_filter|[[?|[= <-]]|?]];
      [apply H3; left; by left | done | by exists l | done].
  - eapply locks_set; [done | done | done | | ].
    + intros lk' Hne. rewrite Hp, list_elem_of_filter. split; [tauto|].
      split; intros [?|?]; congruence.
    + rewrite Hlk. apply lock_inv_taken; [done | by right; right | done | ].
      rewrite decide_False; [done|]. rewrite list_elem_of_filter. tauto.
Qed.

Lemma store_inv σ i lk m' :
  inv σ → (i < s_ncpu σ)%nat → k_pc (s_core σ i) = P_store lk →
  runs (release_store lk ;; popcli) (mach_of σ i) m' → inv (put σ i m' P_run (k_held (s_core σ i))).
Proof.
  intros Hinv Hi Hp Hrun.
  destruct (proj1 Hinv i Hi) as (H1 & H2 & H3 & c & Hok & Hn). rewrite Hp in H2, H3, Hn.
  destruct (has_lock σ i lk) as (l & Hl & Hlk & Huniq & Ho); [done | done | right; rewrite Hp; by right |].
  assert (Hnot : lk ∉ k_held (s_core σ i)) by (apply H2; by right).
  rewrite decide_False in Ho by done. simpl in Hn.
  eapply runs_store in Hrun as ->; [|done | lia | done].
  eapply inv_put; [done | done | | | done | | | apply mach_ok_pop; [by apply mach_ok_set_lock|lia] | simpl; lia | ].
  - eapply own_step_trans; [apply own_step_set_lock | apply own_step_pop, Hok].
  - intros lk' Hlk'. rewrite locks_pop. by apply set_lock_dom.
  - intros lk' [?|?]; done.
  - intros lk' Hlk'. rewrite locks_pop. apply set_lock_dom. simpl.
    destruct Hlk' as [?|[[?|?]|?]]; [apply H3; left; by left | done..].
  - eapply locks_set; [done | by rewrite locks_pop | done | | ].
    + intros lk' Hne. rewrite Hp. split; [done|]. split; intros [?|?]; congruence.
    + left. split_and!; [done..|]. intros j Hj. destruct (decide (j = i)) as [->|Hne].
      * rewrite has_put. intros [?|[?|?]]; done.
      * rewrite has_put_ne by done. intros ?. auto.
Qed.

Lemma step_inv σ σ' : step σ σ' → inv σ → inv σ'.
Proof.
  intros [] Hinv; [by apply enter_inv | by eapply xchg_inv | by eapply own_inv
    | by apply disown_inv | by eapply store_inv].
Qed.

Definition reachable (σ : smp) : Prop := ∃ σ0, init σ0 ∧ rtc step σ0 σ.

Lemma reachable_inv σ : reachable σ → inv σ.
Proof.
  intros (σ0 & Hinit & Hsteps). apply init_inv in Hinit.
  induction Hsteps as [|σ1 σ2 σ3 Hs _ IH]; [done|]. eauto using step_inv.
Qed.
End smp.

(** ** Mutual exclusion *)

(** C1: in every state that several CPUs reach by running acquire and release
    in any order, two CPUs that are in the critical section of the same lock
    are the same CPU, and interrupts are off on it. *)
Theorem mutual_exclusion d σ i j lk :
  reachable d σ → (i < s_ncpu σ)%nat → (j < s_ncpu σ)%nat →
  lk ∈ k_held (s_core σ i) → lk ∈ k_held (s_core σ j) →
  i = j ∧ Z.land (k_eflags (s_core σ i)) FL_IF = 0.
Proof.
  intros Hr%reachable_inv Hi Hj Hhi Hhj. split.
  - destruct (has_lock σ j lk) as (l & _ & _ & Huniq & _); [done | done | by left |].
    apply Huniq; [done | by left].
  - destruct (proj1 Hr i Hi) as (_ & _ & _ & c & Hok & Hn). apply (mo_off _ _ _ Hok).
    apply list_elem_of_lookup in Hhi as [k Hk%lookup_lt_Some]. unfold pc_depth in Hn.
    destruct (k_pc _); lia.
Qed.

(** the lock code's panics are exact.  In every reachable state a CPU that
    is in no lock operation gets through the check of acquire just when it is
    not in the lock's critical section already, and through the check of
    release just when it is. *)
Theorem panics_exact d σ i lk :
  reachable d σ → (i < s_ncpu σ)%nat → k_pc (s_core σ i) = P_run → is_Some (s_locks σ !! lk) →
  ((∃ m', runs d (acquire_enter lk) (mach_of σ i) m') ↔ lk ∉ k_held (s_core σ i))
  ∧ ((∃ m', runs d (release_disown lk) (mach_of σ i) m') ↔ lk ∈ k_held (s_core σ i)).
Proof.
  intros Hr%reachable_inv Hi Hp [l Hl].
  destruct (proj1 Hr i Hi) as (_ & _ & _ & c & Hok & _).
  assert (Hh : ctrue (sl_locked l) && bool_decide (sl_cpu l = Some i)
               = bool_decide (lk ∈ k_held (s_core σ i))).
  { destruct (proj2 Hr lk l Hl) as [(E1 & E2 & Hno)|(E1 & j & Hj & Hhj & Huniq & E2)];
      rewrite E1, E2; simpl.
    - symmetry. apply bool_decide_false. intros ?. apply (Hno i Hi). by left.
    - apply bool_decide_ext. split.
      + destruct (decide (lk ∈ k_held (s_core σ j))) as [Hd|Hd]; [intros [= ->]; done | done].
      + intros Hin. assert (i = j) as <- by (apply Huniq; [done|by left]).
        by rewrite decide_True. }
  pose proof (mach_ok_push _ _ _ Hok) as Hok'. split.
  - unfold runs, acquire_enter. erewrite bind_done by (eapply pushcli_done; apply Hok).
    erewrite bind_done by (eapply holding_done; [done | by rewrite locks_push]). rewrite Hh. clear Hh.
    case_bool_decide; (split; [intros [m' Hm'] | intros ?]); first [done | by eexists].
  - unfold runs, release_disown. erewrite bind_done by by eapply holding_done. rewrite Hh. clear Hh.
    case_bool_decide; (split; [intros [m' Hm'] | intros ?]); first [done | by eexists].
Qed.

(** Two CPUs, the first of which has taken a lock. *)
Definition two : smp :=
  let m := idle_mach 0 2 [(L_kmem, "kmem")] in
  Smp (λ i, Core FL_IF (Z.shiftl (Z.of_nat i) 24) P_run []) (m_cpus m) 2 (m_locks m).
Definition d0 : kdata := zero_data (Image 0 0 0 0 []) (λ _, 0) (λ _ _, []).
Definition after (code : KM unit) (m : mach) : mach :=
  match code 0%nat (K m d0) with Done _ s => km s | _ => m end.
Definition two1 : smp := put two 0 (after (acquire_enter L_kmem) (mach_of two 0)) (P_spin L_kmem) [].
Definition two2 : smp := put two1 0 (after (spin L_kmem) (mach_of two1 0)) (P_own L_kmem) [].
Definition two3 : smp := put two2 0 (after (acquire_own L_kmem) (mach_of two2 0)) P_run [L_kmem].

Lemma init_two : init two.
Proof.
  split.
  - intros i Hi. split_and!; [done..|]. exists (idle_cpu i). split; [|done].
    destruct i as [|[|]]; [| |simpl in Hi; lia]; (split; [done | done | done | done | by intros ? | by right]).
  - intros lk l. simpl. rewrite lookup_insert_Some, lookup_empty. by intros [[_ <-]|[_ ?]].
Qed.
Lemma reachable_two3 : reachable d0 two3.
Proof.
  exists two. split; [apply init_two|].
  eapply rtc_l; [apply (step_enter d0 two 0 L_kmem); [simpl; lia | done | by eexists | reflexivity]|].
  eapply rtc_l; [apply (step_xchg d0 two1 0 L_kmem); [simpl; lia | done | reflexivity]|].
  eapply rtc_l; [apply (step_own d0 two2 0 L_kmem); [simpl; lia | done | reflexivity]|].
  apply rtc_refl.
Qed.

Lemma mutual_exclusion_witness : (0 = 0)%nat ∧ Z.land (k_eflags (s_core two3 0)) FL_IF = 0.
Proof.
  apply (mutual_exclusion d0 two3 0 0 L_kmem); [apply reachable_two3 | simpl; lia | simpl; lia | |];
    apply list_elem_of_here.
Defined.
Lemma panics_exact_witness :
  ((∃ m', runs d0 (acquire_enter L_kmem) (mach_of two3 0) m') ↔ L_kmem ∉ k_held (s_core two3 0))
  ∧ ((∃ m', runs d0 (release_disown L_kmem) (mach_of two3 0) m') ↔ L_kmem ∈ k_held (s_core two3 0)).
Proof.
  apply (panics_exact d0 two3 0 L_kmem); [apply reachable_two3 | simpl; lia | done | by eexists].
Defined.
