(* ===== verification/Kalloc.v ===== *)
(** * Kalloc: kalloc.c, the physical page allocator

    The free list is threaded through the free pages themselves: the first
    word of a free page is the address of the next one.  [kmem_ok] relates the
    words in memory to the list of free pages; kfree is shown to push on that
    list and kalloc to pop, freerange and the two boot-time initialisers to
    build it. *)

From S2P Require Import Prelude Memory Kstate Spinlock.

(** ** kalloc.c *)

Definition use_lock : KM bool := getd (λ d, ctrue (mm_use_lock (d_mm d))).
Definition get_freelist : KM Z := getd (λ d, mm_freelist (d_mm d)).
Definition mod_mm (f : mmst → mmst) : KM unit := modd (λ d, d <| d_mm := f (d_mm d) |>).

Definition kfree (v : Z) : KM unit :=
  im ← getd d_im;
  if ctrue (v mod PGSIZE) || (v <? im_end im) || (V2P v >=? PHYSTOP) then panic "kfree" else
  mod_mem (λ m, memset m v 1 PGSIZE) ;;
  u ← use_lock; when u (acquire L_kmem) ;;
  let r := v in
  next ← get_freelist;
  mod_mem (λ m, store32 m r next) ;;
  mod_mm (λ mm, mm <| mm_freelist := r |>) ;;
  u ← use_lock; when u (release L_kmem).

Definition kalloc : KM Z :=
  u ← use_lock; when u (acquire L_kmem) ;;
  r ← get_freelist;
  m ← get_mem;
  when (ctrue r) (mod_mm (λ mm, mm <| mm_freelist := load32 m r |>)) ;;
  u ← use_lock; when u (release L_kmem) ;;
  mret r.

(** [for(; p + PGSIZE <= vend; p += PGSIZE) kfree(p);] *)
Fixpoint freerange_loop (fuel : nat) (p vend : Z) : KM unit :=
  match fuel with
  | O => out_of_fuel
  | S fuel' =>
    if p + PGSIZE <=? vend then kfree p ;; freerange_loop fuel' (p + PGSIZE) vend else mret tt
  end.
(** More rounds than there are pages in the range. *)
Definition freerange (vstart vend : Z) : KM unit :=
  let p := PGROUNDUP vstart in
  freerange_loop (S (Z.to_nat ((vend - p) / PGSIZE))) p vend.

Definition kinit1 (vstart vend : Z) : KM unit :=
  initlock L_kmem "kmem" ;;
  mod_mm (λ mm, mm <| mm_use_lock := 0 |>) ;;
  freerange vstart vend.
Definition kinit2 (vstart vend : Z) : KM unit :=
  freerange vstart vend ;;
  mod_mm (λ mm, mm <| mm_use_lock := 1 |>).

(** ** What a free list is *)

(** A page the allocator may manage. *)
Definition page_ok (im : image) (v : Z) : Prop :=
  v mod PGSIZE = 0 ∧ im_end im <= v ∧ KERNBASE < v ∧ v < KERNBASE + PHYSTOP.
#[export] Instance page_ok_dec im v : Decision (page_ok im v) := _.

(** The words in memory, from [p] on, link the pages of [l]. *)
Fixpoint chain (m : mem) (p : Z) (l : list Z) : Prop :=
  match l with
  | [] => p = 0
  | x :: l' => p = x ∧ chain m (load32 m x) l'
  end.

Record kmem_ok (d : kdata) (l : list Z) : Prop := {
  ko_chain : chain (mm_mem (d_mm d)) (mm_freelist (d_mm d)) l;
  ko_pages : Forall (page_ok (d_im d)) l;
  ko_nodup : NoDup l
}.

(** The processor may use the allocator: it is in order, and the lock, if it
    is used yet, is free. *)
Definition can_lock (m : mach) (d : kdata) : Prop :=
  mm_use_lock (d_mm d) = 0 ∨ ∃ i c, mach_ok m i c ∧ lk_free m L_kmem.

(** ** The operations as state transformers *)

Definition kfree_mm (v : Z) (mm : mmst) : mmst :=
  mm <| mm_mem := store32 (memset (mm_mem mm) v 1 PGSIZE) v (mm_freelist mm) |>
     <| mm_freelist := v |>.
Definition kalloc_mm (mm : mmst) : mmst :=
  if ctrue (mm_freelist mm) then mm <| mm_freelist := load32 (mm_mem mm) (mm_freelist mm) |> else mm.

Lemma page_ok_checks im v :
  is_u32 v → ctrue (v mod PGSIZE) || (v <? im_end im) || (V2P v >=? PHYSTOP) = false
  ↔ page_ok im v ∨ (v = KERNBASE ∧ im_end im <= KERNBASE).
Proof.
  intros Hv. unfold page_ok, ctrue, V2P, is_u32 in *. rewrite !orb_false_iff, negb_false_iff.
  rewrite Z.eqb_eq, Z.ltb_ge, Z.geb_leb, Z.leb_gt. unfold u32, KERNBASE, PHYSTOP, PGSIZE.
  split.
  - intros [[H1 H2] H3]. destruct (decide (v < 0x80000000)).
    + exfalso. replace (v - 0x80000000) with (v + 0x80000000 + -1 * 2 ^ 32) in H3 by lia.
      rewrite Z.mod_add, Z.mod_small in H3 by lia. lia.
    + rewrite Z.mod_small in H3 by lia. destruct (decide (v = 0x80000000)); [right | left]; lia.
  - intros [(H1 & H2 & H3 & H4)|[-> H2]]; [|done]. rewrite (Z.mod_small (v - _)) by lia. lia.
Qed.

Lemma page_ok_u32 im v : page_ok im v → is_u32 v.
Proof. unfold page_ok, is_u32, KERNBASE, PHYSTOP. lia. Qed.

Lemma kfree_done n m d v :
  can_lock m d → page_ok (d_im d) v →
  kfree v n (K m d) = Done tt (K m (d <| d_mm := kfree_mm v (d_mm d) |>)).
Proof.
  intros Hlk Hv. unfold kfree, use_lock, get_freelist, mod_mm. krun.
  rewrite (proj2 (page_ok_checks _ _ (page_ok_u32 _ _ Hv))) by by left.
  destruct (decide (mm_use_lock (d_mm d) = 0)) as [E|E].
  - krun. rewrite E, ctrue_0. krun. rewrite E. done.
  - destruct Hlk as [?|(i & c & Hok & Hf)]; [done|]. pose proof (ctrue_ne _ E) as E'.
    krun. rewrite E'. kcall acquire_done. krun. rewrite E'. krun. by erewrite release_acq.
Qed.

Lemma kfree_panics n m d v :
  is_u32 v → ¬ page_ok (d_im d) v → v ≠ KERNBASE → kfree v n (K m d) = Panic "kfree".
Proof.
  intros Hv Hno Hne. unfold kfree. krun.
  destruct (_ || _) eqn:E; [done|]. apply page_ok_checks in E as [?|[? _]]; done.
Qed.

Lemma kalloc_done n m d :
  can_lock m d →
  kalloc n (K m d) = Done (mm_freelist (d_mm d)) (K m (d <| d_mm := kalloc_mm (d_mm d) |>)).
Proof.
  intros Hlk. unfold kalloc, kalloc_mm, use_lock, get_freelist, mod_mm. krun.
  destruct (decide (mm_use_lock (d_mm d) = 0)) as [E|E].
  - rewrite E, ctrue_0. krun.
    destruct (ctrue (mm_freelist _)); krun; rewrite E; [done|]. by rewrite eta_mm.
  - destruct Hlk as [?|(i & c & Hok & Hf)]; [done|]. pose proof (ctrue_ne _ E) as E'.
    rewrite E'. simpl. kcall acquire_done. krun.
    destruct (ctrue (mm_freelist _)); krun; rewrite E'; simpl; kcall release_acq; [done|].
    by rewrite eta_mm.
Qed.

Lemma kfree_mm_lookup v mm b :
  ¬ (v <= b < v + PGSIZE) → mm_mem (kfree_mm v mm) b = mm_mem mm b.
Proof.
  intros Hb. unfold kfree_mm, PGSIZE in *. simpl. rewrite store32_frame by lia.
  by rewrite memset_lookup, decide_False by lia.
Qed.
Lemma kfree_mm_ok v mm : mem_ok (mm_mem mm) → mem_ok (mm_mem (kfree_mm v mm)).
Proof. intros. simpl. apply store32_ok, memset_ok; done. Qed.

(** Two pages are the same or do not overlap. *)
Lemma pages_apart v w : v mod PGSIZE = 0 → w mod PGSIZE = 0 → v ≠ w → v + PGSIZE <= w ∨ w + PGSIZE <= v.
Proof. unfold PGSIZE. intros. Z.div_mod_to_equations. lia. Qed.

Lemma chain_frame m m' p l :
  (∀ x, x ∈ l → load32 m' x = load32 m x) → chain m p l → chain m' p l.
Proof.
  revert p. induction l as [|x l IH]; intros p H; simpl; [done|].
  intros [-> Hc]. split; [done|]. rewrite H by apply list_elem_of_here.
  apply IH; [|done]. intros y Hy. apply H. by apply list_elem_of_further.
Qed.
Lemma chain_head m p l : Forall (λ v, v ≠ 0) l → chain m p l → p = 0 ↔ l = [].
Proof.
  destruct 1 as [|x l Hx Hl]; simpl; [done|]. intros [-> _]. done.
Qed.

(** kfree pushes the page. *)
Lemma kfree_mm_push d v l :
  page_ok (d_im d) v → v ∉ l → kmem_ok d l → is_u32 (mm_freelist (d_mm d)) →
  kmem_ok (d <| d_mm := kfree_mm v (d_mm d) |>) (v :: l).
Proof.
  intros Hv Hnin [Hc Hp Hn] Hu. split; simpl; [|by constructor..]. split; [done|].
  rewrite load32_store32, u32_small by done. eapply chain_frame; [|done].
  intros x Hx. apply load32_frame. intros b Hb.
  rewrite Forall_forall in Hp. specialize (Hp x Hx).
  destruct (pages_apart v x) as [?|?]; [apply Hv | apply Hp | by intros -> | |];
    apply (kfree_mm_lookup v (d_mm d)); unfold PGSIZE in *; lia.
Qed.

(** The addresses of pages are not null. *)
Lemma pages_nonnull im l : Forall (page_ok im) l → Forall (λ v, v ≠ 0) l.
Proof. intros H. eapply Forall_impl; [done|]. unfold page_ok, KERNBASE. lia. Qed.
Lemma freelist_u32 d l : kmem_ok d l → is_u32 (mm_freelist (d_mm d)).
Proof.
  intros [Hc Hp _]. destruct Hp as [|x l Hx _]; simpl in Hc.
  - rewrite Hc. unfold is_u32. lia.
  - destruct Hc as [-> _]. by eapply page_ok_u32.
Qed.

(** Writing to the data or to memory outside the free pages keeps the list. *)
Lemma kmem_ok_frame d d' l :
  d_im d' = d_im d → mm_freelist (d_mm d') = mm_freelist (d_mm d) →
  (∀ x b, x ∈ l → x <= b < x + PGSIZE → mm_mem (d_mm d') b = mm_mem (d_mm d) b) →
  kmem_ok d l → kmem_ok d' l.
Proof.
  intros Hi Hf Hm [Hc Hp Hn]. split; [|by rewrite Hi | done]. rewrite Hf.
  eapply chain_frame; [|done]. intros x Hx. apply load32_frame. intros b Hb.
  apply (Hm x); [done | unfold PGSIZE; lia].
Qed.

(** kalloc pops one. *)
Lemma kalloc_mm_nil d : kmem_ok d [] → mm_freelist (d_mm d) = 0 ∧ kalloc_mm (d_mm d) = d_mm d.
Proof. intros [Hc _ _]. simpl in Hc. unfold kalloc_mm. by rewrite Hc. Qed.
Lemma kalloc_mm_pop d x l :
  kmem_ok d (x :: l) →
  mm_freelist (d_mm d) = x ∧ kalloc_mm (d_mm d) = d_mm d <| mm_freelist := load32 (mm_mem (d_mm d)) x |>
  ∧ kmem_ok (d <| d_mm := kalloc_mm (d_mm d) |>) l.
Proof.
  intros [[<- Hc] Hp Hn]. unfold kalloc_mm. split; [done|].
  pose proof (pages_nonnull _ _ Hp) as Hnz. inversion Hnz as [|? ? Hx _]; subst.
  rewrite ctrue_ne by done. split; [done|].
  inversion Hp; inversion Hn; subst. by split.
Qed.
Lemma kmem_ok_NULL d l : kmem_ok d l → mm_freelist (d_mm d) = 0 → l = [].
Proof. intros [Hc Hp _] H. eapply chain_head; [by eapply pages_nonnull | done | done]. Qed.

(** The page kfree returned is the page kalloc takes. *)
Lemma kalloc_kfree mm v : is_u32 v → v ≠ 0 → is_u32 (mm_freelist mm) →
  mm_freelist (kalloc_mm (kfree_mm v mm)) = mm_freelist mm.
Proof.
  intros Hv Hz Hf. unfold kalloc_mm. simpl. rewrite ctrue_ne by done. simpl.
  by rewrite load32_store32, u32_small.
Qed.

(** ** freerange *)

(** The pages of a range, as they end up on the list: the last one first. *)
Fixpoint range_pages (k : nat) (p : Z) (l : list Z) : list Z :=
  match k with
  | O => l
  | S k' => range_pages k' (p + PGSIZE) (p :: l)
  end.
Fixpoint freed (k : nat) (p : Z) (d : kdata) : kdata :=
  match k with
  | O => d
  | S k' => freed k' (p + PGSIZE) (d <| d_mm := kfree_mm p (d_mm d) |>)
  end.

Lemma elem_of_range_pages k p l x :
  x ∈ range_pages k p l ↔ x ∈ l ∨ ∃ j, 0 <= j < Z.of_nat k ∧ x = p + j * PGSIZE.
Proof.
  revert p l. induction k as [|k IH]; intros p l; simpl.
  - split; [auto|]. intros [?|(j & ? & _)]; [done|lia].
  - rewrite IH, elem_of_cons. split.
    + intros [[->|?]|(j & Hj & ->)]; [right; exists 0; lia | by left | right; exists (j + 1); lia].
    + intros [?|(j & Hj & ->)]; [by left; right|].
      destruct (decide (j = 0)) as [->|]; [left; left; lia | right; exists (j - 1); lia].
Qed.

Lemma freerange_loop_done k fuel n m d p vend :
  can_lock m d → (k < fuel)%nat → p + Z.of_nat k * PGSIZE <= vend < p + (Z.of_nat k + 1) * PGSIZE →
  (∀ j, 0 <= j < Z.of_nat k → page_ok (d_im d) (p + j * PGSIZE)) →
  freerange_loop fuel p vend n (K m d) = Done tt (K m (freed k p d)).
Proof.
  revert fuel d p. induction k as [|k IH]; intros fuel d p Hlk Hf Hr Hp;
    (destruct fuel as [|fuel]; [lia|]); simpl; unfold PGSIZE in Hr.
  - rewrite (proj2 (Z.leb_gt _ _)) by (unfold PGSIZE; lia). done.
  - rewrite (proj2 (Z.leb_le _ _)) by (unfold PGSIZE; lia).
    erewrite bind_done by (apply kfree_done; [done | by specialize (Hp 0 ltac:(lia)); rewrite Z.add_0_r in Hp]).
    apply IH; simpl; [destruct Hlk; [by left | by right] | lia | unfold PGSIZE; lia | ].
    intros j Hj. replace (p + PGSIZE + j * PGSIZE) with (p + (j + 1) * PGSIZE) by lia. apply Hp. lia.
Qed.

Lemma freed_ok k p d l :
  kmem_ok d l → (∀ j, 0 <= j < Z.of_nat k → page_ok (d_im d) (p + j * PGSIZE) ∧ p + j * PGSIZE ∉ l) →
  kmem_ok (freed k p d) (range_pages k p l).
Proof.
  revert p d l. induction k as [|k IH]; intros p d l Hok Hp; simpl; [done|].
  destruct (Hp 0 ltac:(lia)) as [H1 H2]. rewrite Z.mul_0_l, Z.add_0_r in H1, H2.
  apply IH; [by apply kfree_mm_push; [..|by eapply freelist_u32]|].
  intros j Hj. destruct (Hp (j + 1) ltac:(lia)) as [H3 H4].
  replace (p + PGSIZE + j * PGSIZE) with (p + (j + 1) * PGSIZE) by lia.
  split; [done|]. rewrite not_elem_of_cons. split; [unfold PGSIZE; lia | done].
Qed.

(** ** Rounding to pages *)

Lemma PGROUNDDOWN_eq a : 0 <= a → PGROUNDDOWN a = a / PGSIZE * PGSIZE.
Proof.
  intros. unfold PGROUNDDOWN. change (PGSIZE - 1) with (Z.ones 12). by rewrite land_lnot_ones.
Qed.
Lemma PGROUNDDOWN_spec a :
  0 <= a → PGROUNDDOWN a mod PGSIZE = 0 ∧ a - PGSIZE < PGROUNDDOWN a <= a ∧ 0 <= PGROUNDDOWN a.
Proof.
  intros. rewrite PGROUNDDOWN_eq by done. unfold PGSIZE. rewrite Z.mod_mul by lia.
  Z.div_mod_to_equations. lia.
Qed.
Lemma PGROUNDUP_spec a :
  0 <= a <= 2 ^ 32 - PGSIZE →
  PGROUNDUP a mod PGSIZE = 0 ∧ a <= PGROUNDUP a < a + PGSIZE ∧ 0 <= PGROUNDUP a < 2 ^ 32.
Proof.
  intros Ha. unfold PGROUNDUP. rewrite u32_small by (unfold PGSIZE in *; lia).
  destruct (PGROUNDDOWN_spec (a + (PGSIZE - 1))) as (H1 & H2 & H3); [unfold PGSIZE; lia|].
  unfold PGROUNDDOWN, PGSIZE in *. lia.
Qed.
Lemma PGROUNDUP_wraps a : 2 ^ 32 - PGSIZE < a < 2 ^ 32 → PGROUNDUP a = 0.
Proof.
  unfold PGROUNDUP, PGSIZE, u32. intros Ha.
  replace (a + (4096 - 1)) with (a + 4095 - 2 ^ 32 + 1 * 2 ^ 32) by lia.
  rewrite Z.mod_add, Z.mod_small by lia.
  change (4096 - 1) with (Z.ones 12). rewrite land_lnot_ones, Z.div_small by lia. done.
Qed.

Lemma freed_im k p d : d_im (freed k p d) = d_im d.
Proof. revert p d. induction k as [|k IH]; intros p d; simpl; [done|]. by etransitivity; [apply IH|]. Qed.
Lemma freed_use_lock k p d : mm_use_lock (d_mm (freed k p d)) = mm_use_lock (d_mm d).
Proof. revert p d. induction k as [|k IH]; intros p d; simpl; [done|]. by etransitivity; [apply IH|]. Qed.

Lemma freerange_done n m d l vstart vend :
  can_lock m d → kmem_ok d l → 0 <= vstart → vstart + PGSIZE <= vend → vend <= KERNBASE + PHYSTOP →
  im_end (d_im d) <= vstart → KERNBASE < vstart →
  (∀ x, x ∈ l → x < vstart ∨ vend <= x) →
  ∃ d' l', freerange vstart vend n (K m d) = Done tt (K m d') ∧ kmem_ok d' l'
    ∧ d_im d' = d_im d ∧ mm_use_lock (d_mm d') = mm_use_lock (d_mm d)
    ∧ ∀ x, x ∈ l' ↔ x ∈ l ∨ x mod PGSIZE = 0 ∧ vstart <= x ∧ x + PGSIZE <= vend.
Proof.
  intros Hlk Hok H0 Hse Hv Hend Hkb Hfresh.
  destruct (PGROUNDUP_spec vstart) as (Ha & Hr & _); [unfold PGSIZE, KERNBASE, PHYSTOP in *; lia|].
  set (p := PGROUNDUP vstart) in *. set (k := Z.to_nat ((vend - p) / PGSIZE)).
  assert (Hk : Z.of_nat k = (vend - p) / PGSIZE).
  { subst k. rewrite Z2Nat.id; [done|]. apply Z.div_pos; unfold PGSIZE in *; lia. }
  assert (Hkr : p + Z.of_nat k * PGSIZE <= vend < p + (Z.of_nat k + 1) * PGSIZE).
  { rewrite Hk. unfold PGSIZE. Z.div_mod_to_equations. lia. }
  assert (Hpage : ∀ j, 0 <= j < Z.of_nat k → page_ok (d_im d) (p + j * PGSIZE)).
  { intros j Hj. unfold page_ok. rewrite Z.mod_add by done. unfold PGSIZE in *. lia. }
  exists (freed k p d), (range_pages k p l).
  split_and!; [| | apply freed_im | apply freed_use_lock |].
  - unfold freerange. fold p. apply freerange_loop_done; [done | fold k; lia | done | done].
  - apply freed_ok; [done|]. intros j Hj. split; [auto|]. intros Hin.
    destruct (Hfresh _ Hin); unfold PGSIZE in *; lia.
  - intros x. rewrite elem_of_range_pages. f_equiv. split.
    + intros (j & Hj & ->). rewrite Z.mod_add by done. unfold PGSIZE in *. lia.
    + intros (H1 & H2 & H3). exists ((x - p) / PGSIZE). unfold PGSIZE in *.
      Z.div_mod_to_equations. lia.
Qed.

(** ** The allocator as an abstract stack of pages *)

Inductive kop : Set := Alloc | Free (v : Z).

(** What a caller may do, and what it gets: a free page or, when there is
    none, 0; only a page that is not free may be freed. *)
Definition kspec (im : image) (l : list Z) (o : kop) : option (Z * list Z) :=
  match o with
  | Alloc => Some (match l with [] => (0, []) | x :: l' => (x, l') end)
  | Free v => if decide (page_ok im v ∧ v ∉ l) then Some (0, v :: l) else None
  end.
Fixpoint kspec_run (im : image) (l : list Z) (os : list kop) : option (list Z * list Z) :=
  match os with
  | [] => Some ([], l)
  | o :: os' => '(r, l1) ← kspec im l o; '(rs, l2) ← kspec_run im l1 os'; Some (r :: rs, l2)
  end.

Definition krun_op (o : kop) : KM Z :=
  match o with Alloc => kalloc | Free v => kfree v ;; mret 0 end.
Fixpoint krun_ops (os : list kop) : KM (list Z) :=
  match os with
  | [] => mret []
  | o :: os' => r ← krun_op o; rs ← krun_ops os'; mret (r :: rs)
  end.

(** [d'] differs from [d] only in the allocator's state, and the memory only
    inside the pages of [vs]. *)
Definition kmem_frame (vs : list Z) (d d' : kdata) : Prop :=
  d' = d <| d_mm := d_mm d' |>
  ∧ mm_use_lock (d_mm d') = mm_use_lock (d_mm d) ∧ mm_kpgdir (d_mm d') = mm_kpgdir (d_mm d)
  ∧ ∀ b, (∀ v, v ∈ vs → ¬ (v <= b < v + PGSIZE)) → mm_mem (d_mm d') b = mm_mem (d_mm d) b.
Lemma kmem_frame_refl vs d : kmem_frame vs d d.
Proof. split_and!; [by rewrite eta_mm | done..]. Qed.
Definition kop_pages (o : kop) : list Z := match o with Alloc => [] | Free v => [v] end.

Lemma krun_op_refines n m d l o r l' :
  can_lock m d → kmem_ok d l → kspec (d_im d) l o = Some (r, l') →
  ∃ d', krun_op o n (K m d) = Done r (K m d') ∧ kmem_ok d' l' ∧ kmem_frame (kop_pages o) d d'.
Proof.
  intros Hlk Hok Hspec. destruct o as [|v]; simpl in *.
  - rewrite kalloc_done by done. destruct l as [|x l]; simplify_eq.
    + destruct (kalloc_mm_nil d Hok) as [-> ->]. rewrite eta_mm. eexists. split; [done|].
      split; [done | apply kmem_frame_refl].
    + destruct (kalloc_mm_pop d r l' Hok) as (-> & E & Hok'). eexists. split; [done|].
      split; [done|]. by rewrite E.
  - case_decide as Hd; [|done]. destruct Hd as [Hv Hnin]. simplify_eq.
    rewrite (bind_done _ _ _ _ _ _ (kfree_done n m d v Hlk Hv)).
    eexists. split; [done|]. split; [by apply kfree_mm_push; [..|by eapply freelist_u32]|].
    split_and!; [done..|]. intros b Hb. apply (kfree_mm_lookup v (d_mm d)). apply Hb.
    apply list_elem_of_here.
Qed.

Lemma kmem_frame_trans vs ws d1 d2 d3 :
  kmem_frame vs d1 d2 → kmem_frame ws d2 d3 → kmem_frame (vs ++ ws) d1 d3.
Proof.
  intros (E & Hu & Hk & Hm) (E' & Hu' & Hk' & Hm'). split_and!; [|congruence..|].
  - rewrite E', E. done.
  - intros b Hb. rewrite Hm', Hm; [done|..]; intros v Hv; apply Hb, elem_of_app; auto.
Qed.
Lemma can_lock_frame vs m d d' : kmem_frame vs d d' → can_lock m d → can_lock m d'.
Proof. intros (_ & E & _ & _). unfold can_lock. by rewrite E. Qed.

(** C16: the allocator refines a stack of pages.  Every sequence of calls of
    kalloc and kfree that frees only managed pages that are not free runs to
    the end without a panic and returns what the abstract stack returns;
    afterwards the free list in memory is the abstract one again, the lock is
    as it was, and no byte outside the freed pages has changed. *)
Theorem kmem_refines_stack n m d l os rs l' :
  can_lock m d → kmem_ok d l → kspec_run (d_im d) l os = Some (rs, l') →
  ∃ d', krun_ops os n (K m d) = Done rs (K m d') ∧ kmem_ok d' l'
    ∧ kmem_frame (concat (kop_pages <$> os)) d d'.
Proof.
  revert d l rs. induction os as [|o os IH]; intros d l rs Hlk Hok Hrun; simpl in Hrun.
  { simplify_eq. exists d. split_and!; [done..|]. apply kmem_frame_refl. }
  destruct (kspec (d_im d) l o) as [[r l1]|] eqn:E1; simpl in Hrun; [|done].
  destruct (kspec_run (d_im d) l1 os) as [[rs' l2]|] eqn:E2; simpl in Hrun; [|done]. simplify_eq.
  destruct (krun_op_refines n m d l o r l1) as (d1 & Hr & Hok1 & Hfr); [done..|].
  assert (Him : d_im d1 = d_im d) by by rewrite (proj1 Hfr).
  destruct (IH d1 l1 rs') as (d2 & Hr' & Hok2 & Hfr');
    [by eapply can_lock_frame | done | by rewrite Him |].
  exists d2. simpl. rewrite (bind_done _ _ _ _ _ _ Hr), (bind_done _ _ _ _ _ _ Hr').
  split_and!; [done | done | by eapply kmem_frame_trans].
Qed.

(** ** Initialisation *)

Definition four_mb : Z := P2V (4 * 1024 * 1024).

Lemma kinit1_done n m d :
  mm_freelist (d_mm d) = 0 → KERNBASE < im_end (d_im d) → im_end (d_im d) + PGSIZE <= four_mb →
  ∃ d' l, kinit1 (im_end (d_im d)) four_mb n (K m d)
      = Done tt (K (m <| m_locks := <[L_kmem := Spinlock 0 "kmem" None]> (m_locks m) |>) d')
    ∧ kmem_ok d' l ∧ d_im d' = d_im d ∧ mm_use_lock (d_mm d') = 0
    ∧ ∀ x, x ∈ l ↔ page_ok (d_im d) x ∧ x < four_mb.
Proof.
  intros Hfl Hlo Hhi. set (m' := m <| m_locks := _ |>).
  set (d1 := d <| d_mm := d_mm d <| mm_use_lock := 0 |> |>).
  destruct (freerange_done n m' d1 [] (im_end (d_im d)) four_mb) as (d' & l & Hr & Hok & Hi & Hu & Hl);
    [by left | by split; [|constructor..] | unfold KERNBASE in *; lia | done
    | by vm_compute | done | done | by intros x ?%not_elem_of_nil |].
  exists d', l. split_and!; [done | done | done | by rewrite Hu | ].
  intros x. rewrite Hl, elem_of_nil. unfold page_ok.
  assert (four_mb mod PGSIZE = 0) by done. assert (four_mb < KERNBASE + PHYSTOP) by done.
  split; [intros [?|(? & ? & ?)]; [done|] | intros [(? & ? & ? & ?) ?]; right];
    unfold PGSIZE in *; [lia|]. split_and!; try done. Z.div_mod_to_equations. lia.
Qed.

Lemma kinit2_done n m d l :
  mm_use_lock (d_mm d) = 0 → im_end (d_im d) <= four_mb → kmem_ok d l → (∀ x, x ∈ l → x < four_mb) →
  ∃ d' l', kinit2 four_mb (P2V PHYSTOP) n (K m d) = Done tt (K m d')
    ∧ kmem_ok d' l' ∧ d_im d' = d_im d ∧ mm_use_lock (d_mm d') = 1
    ∧ ∀ x, x ∈ l' ↔ x ∈ l ∨ page_ok (d_im d) x ∧ four_mb <= x.
Proof.
  intros Hu Hend Hok Hl.
  destruct (freerange_done n m d l four_mb (P2V PHYSTOP)) as (d' & l' & Hr & Hok' & Hi & _ & Hl');
    [by left | done | by vm_compute | by vm_compute | by vm_compute | done | by vm_compute | auto |].
  eexists (d' <| d_mm := d_mm d' <| mm_use_lock := 1 |> |>), l'.
  split_and!; [|by destruct Hok'; split | done | done |].
  - unfold kinit2. by rewrite (bind_done _ _ _ _ _ _ Hr).
  - intros x. rewrite Hl'. f_equiv. unfold page_ok. change (P2V PHYSTOP) with (KERNBASE + PHYSTOP).
    assert ((KERNBASE + PHYSTOP) mod PGSIZE = 0) as Hm by done.
    assert (KERNBASE < four_mb) by done. unfold PGSIZE in *.
    split; [intros (? & ? & ?); lia | intros [(? & ? & ? & ?) ?]]. split_and!; try done.
    Z.div_mod_to_equations. lia.
Qed.

(** kinit1 and kinit2, as main() calls them, put every whole page between
    the end of the kernel image and PHYSTOP on the free list, each once, and
    nothing else; the allocator then uses its lock. *)
Theorem kinit_all_pages n m d :
  mm_freelist (d_mm d) = 0 → KERNBASE < im_end (d_im d) → im_end (d_im d) + PGSIZE <= four_mb →
  ∃ m' d' l,
    (kinit1 (im_end (d_im d)) four_mb ;; kinit2 four_mb (P2V PHYSTOP)) n (K m d) = Done tt (K m' d')
    ∧ lk_free m' L_kmem ∧ mm_use_lock (d_mm d') = 1 ∧ kmem_ok d' l
    ∧ ∀ x, x ∈ l ↔ page_ok (d_im d) x.
Proof.
  intros Hfl Hlo Hhi.
  destruct (kinit1_done n m d) as (d1 & l1 & H1 & Hok1 & Hi1 & Hu1 & Hl1); [done..|].
  set (m' := m <| m_locks := _ |>) in H1.
  destruct (kinit2_done n m' d1 l1) as (d2 & l2 & H2 & Hok2 & Hi2 & Hu2 & Hl2);
    [done | unfold PGSIZE in *; rewrite Hi1; lia | done | by intros x [_ ?]%Hl1 |].
  exists m', d2, l2. rewrite (bind_done _ _ _ _ _ _ H1). split_and!; [done | | done | done |].
  - exists "kmem". subst m'. simpl. by rewrite lookup_insert_eq.
  - intros x. rewrite Hl2, Hl1, Hi1. split; [tauto|]. intros ?.
    destruct (decide (x < four_mb)); [left | right]; split; try done. lia.
Qed.

(** ** Two of the properties on concrete states *)

Definition im1 : image := Image (KERNBASE + 0x110000) 0 0 0 [].
Definition d1 : kdata := zero_data im1 (λ _, 0) (λ _ _, []).
Definition m1 : mach := idle_mach 0 1 [(L_kmem, "kmem")].

Lemma kmem_refines_stack_witness :
  ∃ d', krun_ops [Free (KERNBASE + 0x200000); Alloc; Alloc] 0%nat (K m1 d1)
      = Done [0; KERNBASE + 0x200000; 0] (K m1 d') ∧ kmem_ok d' []
    ∧ kmem_frame (concat (kop_pages <$> [Free (KERNBASE + 0x200000); Alloc; Alloc])) d1 d'.
Proof.
  apply (kmem_refines_stack 0 m1 d1 []); [by left | by split; [|constructor..] | by vm_compute].
Defined.
Lemma kinit_all_pages_witness :
  ∃ m' d' l,
    (kinit1 (im_end (d_im d1)) four_mb ;; kinit2 four_mb (P2V PHYSTOP)) 0%nat (K m1 d1) = Done tt (K m' d')
    ∧ lk_free m' L_kmem ∧ mm_use_lock (d_mm d') = 1 ∧ kmem_ok d' l
    ∧ ∀ x, x ∈ l ↔ page_ok (d_im d1) x.
Proof. apply (kinit_all_pages 0 m1 d1); by vm_compute. Defined.
