(* ===== verification/Cprintf.v ===== *)
(** * Cprintf: the output half of console.c, and uart.c's output

    printint, cprintf, consputc, cgaputc and uartputc.  cprintf's variable
    arguments are a list of [carg]; fetching an argument that was not passed, or
    one of the wrong kind, is undefined.  The screen is the byte memory
    [cn_crt], the cursor position the device register [cn_pos]. *)

From S2P Require Import Prelude Memory Kstate Spinlock.

(** A string constant as C has it, without the final NUL. *)
Definition str (s : string) : list Z := (λ a, Z.of_N (Ascii.N_of_ascii a)) <$> String.list_ascii_of_string s.
(** The escapes \n and \t of C's string constants. *)
Fixpoint esc (l : list Z) : list Z :=
  match l with
  | 92 :: 110 :: l' => 10 :: esc l'
  | 92 :: 116 :: l' => 9 :: esc l'
  | c :: l' => c :: esc l'
  | [] => []
  end.
Definition cstring (s : string) : list Z := esc (str s).
Definition ch_nl : Z := 10.
Definition ch_percent : Z := 37.

Definition getc_ {A} (f : console → A) : KM A := getd (λ d, f (d_cons d)).
Definition mod_cons (f : console → console) : KM unit := modd (λ d, d <| d_cons := f (d_cons d) |>).

(** ** uart.c: output

    The loop that waits for the transmitter (at most 128 rounds of
    microdelay) changes nothing but time and is left out. *)
Definition uartputc (c : Z) : KM unit :=
  u ← getc_ cn_uart;
  if negb (ctrue u) then mret tt else
  mod_cons (λ cn, cn <| cn_out := cn_out cn ++ [u8 c] |>).

(** ** console.c: the screen *)

Definition BACKSPACE : Z := 0x100.
Definition store16 (m : mem) (a v : Z) : mem := store8 (store8 m a v) (a + 1) (v / 2 ^ 8).

(** The new cursor position and screen for a character; [None]: the panic. *)
Definition cga (c pos : Z) (crt : mem) : option (Z * mem) :=
  let '(pos, crt) :=
    if c =? ch_nl then (pos + (80 - Z.rem pos 80), crt)
    else if c =? BACKSPACE then ((if pos >? 0 then pos - 1 else pos), crt)
    else (pos + 1, store16 crt (2 * pos) (Z.lor (Z.land c 0xff) 0x0700)) in
  if (pos <? 0) || (pos >? 25 * 80) then None else
  let '(pos, crt) :=
    if Z.quot pos 80 >=? 24 then
      let crt := memmove crt 0 160 (2 * 23 * 80) in
      let pos := pos - 80 in
      (pos, memset crt (2 * pos) 0 (2 * (24 * 80 - pos)))
    else (pos, crt) in
  Some (pos, store16 crt (2 * pos) (Z.lor 32 0x0700)).

(** The cursor register is read and written in two bytes. *)
Definition cgaputc (c : Z) : KM unit :=
  p ← getc_ cn_pos;
  let pos := Z.lor (Z.shiftl (u8 (Z.shiftr p 8)) 8) (u8 p) in
  crt ← getc_ cn_crt;
  match cga c pos crt with
  | None => panic "pos under/overflow"
  | Some (pos, crt) =>
    mod_cons (λ cn, cn <| cn_pos := Z.lor (Z.shiftl (u8 (Z.shiftr pos 8)) 8) (u8 pos) |>
                       <| cn_crt := crt |>)
  end.

(** After a panic the CPU is frozen here. *)
Definition consputc (c : Z) : KM unit :=
  p ← getc_ cn_panicked;
  if ctrue p then panic "frozen" else
  (if c =? BACKSPACE then uartputc 8 ;; uartputc 32 ;; uartputc 8 else uartputc c) ;;
  cgaputc c.

(** ** printint *)

Definition digits : list Z := str "0123456789abcdef".

(** [do buf[i++] = digits[x % base]; while((x /= base) != 0);] A uint has at
    most 32 digits, so [fuel] 32 is enough. *)
Fixpoint digits_loop (digits : list Z) (fuel : nat) (x base : Z) : list Z :=
  match fuel with
  | O => []
  | S fuel' =>
    (digits !!! Z.to_nat (x mod base))
      :: (let x := x / base in if negb (x =? 0) then digits_loop digits fuel' x base else [])
  end.
(** The characters in the order in which they are printed. *)
Definition printint_chars (xx base : Z) (sign : bool) : list Z :=
  let sign := sign && (xx <? 0) in
  let x := if sign then u32 (- xx) else u32 xx in
  reverse (digits_loop digits 32 x base ++ (if sign then [45] else [])).
Definition printint (xx base : Z) (sign : bool) : KM unit :=
  forM (printint_chars xx base sign) consputc.

(** ** cprintf *)

Inductive carg : Type :=
| A_int (x : Z)                     (* a word, as an int or a uint *)
| A_str (s : option (list Z)).      (* a string, None: the null pointer *)

Fixpoint cprintf_loop (fmt : list Z) (args : list carg) : KM unit :=
  match fmt with
  | [] => mret tt
  | c :: fmt' =>
    if negb (c =? ch_percent) then consputc c ;; cprintf_loop fmt' args else
    match fmt' with
    | [] => mret tt
    | c :: fmt' =>
      if c =? 100 (* d *) then
        match args with
        | A_int x :: args' => printint (s32 x) 10 true ;; cprintf_loop fmt' args'
        | _ => undef "cprintf: argument"
        end
      else if (c =? 120) || (c =? 112) (* x p *) then
        match args with
        | A_int x :: args' => printint (s32 x) 16 false ;; cprintf_loop fmt' args'
        | _ => undef "cprintf: argument"
        end
      else if c =? 115 (* s *) then
        match args with
        | A_str s :: args' => forM (default (str "(null)") s) consputc ;; cprintf_loop fmt' args'
        | _ => undef "cprintf: argument"
        end
      else if c =? ch_percent then consputc ch_percent ;; cprintf_loop fmt' args
      else consputc ch_percent ;; consputc c ;; cprintf_loop fmt' args
    end
  end.

Definition cprintf (fmt : list Z) (args : list carg) : KM unit :=
  locking ← getc_ cn_locking;
  when (ctrue locking) (acquire L_cons) ;;
  cprintf_loop fmt args ;;
  when (ctrue locking) (release L_cons).

(** ** The console in good order *)

Record cons_ok (cn : console) : Prop := {
  cno_run : cn_panicked cn = 0;
  cno_pos : 0 <= cn_pos cn < 24 * 80
}.
Definition bytes_word16 (p : Z) : Z := Z.lor (Z.shiftl (u8 (Z.shiftr p 8)) 8) (u8 p).

(** The console after a character: what consputc does when nothing is wrong. *)
Definition uart_put (c : Z) (cn : console) : console :=
  if ctrue (cn_uart cn) then cn <| cn_out := cn_out cn ++ [u8 c] |> else cn.
Definition cons_put (c : Z) (cn : console) : console :=
  let cn := if c =? BACKSPACE then uart_put 8 (uart_put 32 (uart_put 8 cn)) else uart_put c cn in
  match cga c (bytes_word16 (cn_pos cn)) (cn_crt cn) with
  | None => cn
  | Some (pos, crt) => cn <| cn_pos := bytes_word16 pos |> <| cn_crt := crt |>
  end.
Definition cons_puts (cs : list Z) (cn : console) : console := foldl (λ cn c, cons_put c cn) cn cs.

Lemma bytes_word16_id p : 0 <= p < 2 ^ 16 → bytes_word16 p = p.
Proof.
  intros Hp. unfold bytes_word16, u8. rewrite Z.shiftr_div_pow2, Z.shiftl_mul_pow2 by lia.
  rewrite lor_high_low by (try apply Z.mod_pos_bound; lia).
  rewrite (Z.mod_small (p / 2 ^ 8)) by (Z.div_mod_to_equations; lia).
  rewrite (Z.div_mod p (2 ^ 8)) at 3 by lia. lia.
Qed.

(** From a position on the first 24 rows the cursor stays on them: the panic
    "pos under/overflow" is not reached. *)
Lemma cga_ok c pos crt :
  0 <= pos < 24 * 80 → ∃ pos' crt', cga c pos crt = Some (pos', crt') ∧ 0 <= pos' < 24 * 80.
Proof.
  intros Hp. unfold cga.
  assert (Hnl : 0 < 80 - Z.rem pos 80 ∧ pos + (80 - Z.rem pos 80) <= 24 * 80).
  { rewrite Z.rem_mod_nonneg by lia. Z.div_mod_to_equations. lia. }
  set (t := if c =? ch_nl then _ else _). set (u := t).
  assert (Hr : 0 <= u.1 <= 24 * 80).
  { subst u t. destruct (c =? ch_nl); [simpl; lia|]. destruct (c =? BACKSPACE); simpl; [|lia].
    destruct (pos >? 0) eqn:E; [apply Z.gtb_lt in E|]; lia. }
  subst t. destruct u as [pos1 crt1]; simpl in Hr.
  replace ((pos1 <? 0) || (pos1 >? 25 * 80)) with false.
  2:{ symmetry. apply orb_false_iff. rewrite Z.ltb_ge, Z.gtb_ltb, Z.ltb_ge. lia. }
  rewrite Z.quot_div_nonneg by lia.
  destruct (pos1 / 80 >=? 24) eqn:E; eexists _, _; (split; [reflexivity|]).
  - rewrite Z.geb_leb, Z.leb_le in E. Z.div_mod_to_equations. lia.
  - rewrite Z.geb_leb, Z.leb_gt in E. Z.div_mod_to_equations. lia.
Qed.

Lemma uartputc_done n m d c :
  uartputc c n (K m d) = Done tt (K m (d <| d_cons := uart_put c (d_cons d) |>)).
Proof.
  unfold uartputc, uart_put, getc_, mod_cons. krun. destruct (ctrue _); krun; [done|]. by rewrite eta_cons.
Qed.
Lemma uart_put_keeps c cn :
  cn_panicked (uart_put c cn) = cn_panicked cn ∧ cn_pos (uart_put c cn) = cn_pos cn
  ∧ cn_locking (uart_put c cn) = cn_locking cn ∧ cn_uart (uart_put c cn) = cn_uart cn.
Proof. unfold uart_put. by destruct (ctrue _). Qed.

(** Everything but the screen and the serial line. *)
Definition same_input (cn cn' : console) : Prop :=
  cn_locking cn' = cn_locking cn ∧ cn_panicked cn' = cn_panicked cn ∧ cn_buf cn' = cn_buf cn
  ∧ cn_r cn' = cn_r cn ∧ cn_w cn' = cn_w cn ∧ cn_e cn' = cn_e cn ∧ cn_uart cn' = cn_uart cn
  ∧ cn_shift cn' = cn_shift cn ∧ cn_kbd cn' = cn_kbd cn ∧ cn_rx cn' = cn_rx cn.
#[export] Instance same_input_preorder : PreOrder same_input.
Proof.
  split; [intros ?; by unfold same_input|]. intros ??? H1 H2. unfold same_input in *.
  destruct_and!. split_and!; congruence.
Qed.

Lemma uart_put_same c cn : same_input cn (uart_put c cn).
Proof. unfold uart_put. by destruct (ctrue _). Qed.
Lemma cons_put_same c cn : same_input cn (cons_put c cn).
Proof.
  unfold cons_put. set (cn1 := if c =? BACKSPACE then _ else _).
  assert (same_input cn cn1) by
    (subst cn1; destruct (c =? BACKSPACE); repeat (etransitivity; [|apply uart_put_same]); done).
  destruct (cga _ _ _) as [[pos crt]|]; [by etransitivity|done].
Qed.
Lemma cons_puts_same cs cn : same_input cn (cons_puts cs cn).
Proof.
  unfold cons_puts. revert cn. induction cs as [|c cs IH]; intros cn; simpl; [done|].
  etransitivity; [apply cons_put_same | apply IH].
Qed.

Lemma cons_put_step c cn :
  cons_ok cn →
  let cn1 := if c =? BACKSPACE then uart_put 8 (uart_put 32 (uart_put 8 cn)) else uart_put c cn in
  ∃ pos crt, cga c (bytes_word16 (cn_pos cn1)) (cn_crt cn1) = Some (pos, crt)
    ∧ cons_put c cn = cn1 <| cn_pos := bytes_word16 pos |> <| cn_crt := crt |>
    ∧ cn_panicked cn1 = 0 ∧ 0 <= pos < 24 * 80.
Proof.
  intros [Hp Hpos] cn1. unfold cons_put. fold cn1.
  assert (Hk : cn_pos cn1 = cn_pos cn ∧ cn_panicked cn1 = cn_panicked cn).
  { subst cn1. destruct (c =? BACKSPACE); unfold uart_put; repeat destruct (ctrue _); done. }
  destruct Hk as [E1 E2].
  destruct (cga_ok c (bytes_word16 (cn_pos cn1)) (cn_crt cn1)) as (pos & crt & E & Hr).
  { rewrite E1, bytes_word16_id; lia. }
  exists pos, crt. rewrite E. split_and!; [done | done | congruence | lia | lia].
Qed.
Lemma cons_put_ok c cn : cons_ok cn → cons_ok (cons_put c cn).
Proof.
  intros Hok. destruct (cons_put_step c cn Hok) as (pos & crt & _ & -> & Hp & Hr).
  split; [done|]. simpl. rewrite bytes_word16_id; lia.
Qed.
Lemma cons_puts_ok cs cn : cons_ok cn → cons_ok (cons_puts cs cn).
Proof.
  unfold cons_puts. revert cn. induction cs as [|c cs IH]; intros cn; simpl; [done|].
  auto using cons_put_ok.
Qed.

Lemma consputc_done n m d c :
  cons_ok (d_cons d) →
  consputc c n (K m d) = Done tt (K m (d <| d_cons := cons_put c (d_cons d) |>)).
Proof.
  intros Hok. destruct (cons_put_step c (d_cons d) Hok) as (pos & crt & E & -> & _ & _).
  unfold consputc, getc_. krun. rewrite (cno_run _ Hok), ctrue_0.
  set (cn1 := if c =? BACKSPACE then _ else _) in E |- *.
  rewrite (bind_done _ _ n (K m d) tt (K m (d <| d_cons := cn1 |>))).
  - unfold cgaputc, getc_, mod_cons. krun. fold (bytes_word16 (cn_pos cn1)). rewrite E. by krun.
  - subst cn1. destruct (c =? BACKSPACE); [|apply uartputc_done].
    do 2 (erewrite bind_done by apply uartputc_done). by rewrite uartputc_done.
Qed.
Lemma forM_consputc n m d cs :
  cons_ok (d_cons d) →
  forM cs consputc n (K m d) = Done tt (K m (d <| d_cons := cons_puts cs (d_cons d) |>)).
Proof.
  unfold cons_puts. revert d. induction cs as [|c cs IH]; intros d Hok; simpl.
  - by rewrite eta_cons.
  - rewrite (bind_done _ _ _ _ _ _ (consputc_done n m d c Hok)).
    rewrite IH by by apply cons_put_ok. done.
Qed.

(** ** What cprintf prints *)

(** The text a format and its arguments denote. *)
Fixpoint format (fmt : list Z) (args : list carg) : option (list Z) :=
  match fmt with
  | [] => Some []
  | c :: fmt' =>
    if negb (c =? ch_percent) then cons c <$> format fmt' args else
    match fmt' with
    | [] => Some []
    | c :: fmt' =>
      if c =? 100 then
        match args with
        | A_int x :: args' => app (printint_chars (s32 x) 10 true) <$> format fmt' args'
        | _ => None
        end
      else if (c =? 120) || (c =? 112) then
        match args with
        | A_int x :: args' => app (printint_chars (s32 x) 16 false) <$> format fmt' args'
        | _ => None
        end
      else if c =? 115 then
        match args with
        | A_str s :: args' => app (default (str "(null)") s) <$> format fmt' args'
        | _ => None
        end
      else if c =? ch_percent then cons c <$> format fmt' args
      else (λ t, ch_percent :: c :: t) <$> format fmt' args
    end
  end.

Lemma cons_puts_app cs cs' cn : cons_puts (cs ++ cs') cn = cons_puts cs' (cons_puts cs cn).
Proof. unfold cons_puts. by rewrite foldl_app. Qed.

Lemma print_nothing n m d :
  (mret tt : KM unit) n (K m d) = Done tt (K m (d <| d_cons := cons_puts [] (d_cons d) |>)).
Proof. unfold cons_puts. simpl. by rewrite eta_cons. Qed.
(** A piece of the text, then the rest. *)
Lemma print_then n m d cs (k : KM unit) t :
  cons_ok (d_cons d) →
  (∀ d', cons_ok (d_cons d') → k n (K m d') = Done tt (K m (d' <| d_cons := cons_puts t (d_cons d') |>))) →
  (forM cs consputc ;; k) n (K m d) = Done tt (K m (d <| d_cons := cons_puts (cs ++ t) (d_cons d) |>)).
Proof.
  intros Hok Hk. rewrite (bind_done _ _ _ _ _ _ (forM_consputc n m d cs Hok)).
  rewrite Hk by by apply cons_puts_ok. by rewrite cons_puts_app.
Qed.
Lemma print_then1 n m d c (k : KM unit) t :
  cons_ok (d_cons d) →
  (∀ d', cons_ok (d_cons d') → k n (K m d') = Done tt (K m (d' <| d_cons := cons_puts t (d_cons d') |>))) →
  (consputc c ;; k) n (K m d) = Done tt (K m (d <| d_cons := cons_puts (c :: t) (d_cons d) |>)).
Proof.
  intros Hok Hk. rewrite (bind_done _ _ _ _ _ _ (consputc_done n m d c Hok)).
  by rewrite Hk by by apply cons_put_ok.
Qed.

Lemma cprintf_loop_done n m d fmt args t :
  cons_ok (d_cons d) → format fmt args = Some t →
  cprintf_loop fmt args n (K m d) = Done tt (K m (d <| d_cons := cons_puts t (d_cons d) |>)).
Proof.
  remember (length fmt) as N eqn:HN. assert (Hle : (length fmt <= N)%nat) by lia. clear HN.
  revert fmt d args t Hle. induction N as [|N IH]; intros [|c fmt] d args t Hle Hok Ht;
    simpl in Hle; try lia; simpl in Ht |- *; simplify_eq; [apply print_nothing..|].
  destruct (c =? ch_percent); simpl in Ht |- *.
  2:{ apply fmap_Some in Ht as (t' & Ht & ->). apply print_then1; [done|]. intros. apply IH; auto; lia. }
  destruct fmt as [|c' fmt]; simplify_eq/=; [apply print_nothing|].
  destruct (c' =? 100); [|destruct (_ || _); [|destruct (c' =? 115); [|destruct (Z.eqb_spec c' ch_percent)]]];
    try (destruct args as [|[x|x] args]; [done | try done..]; []);
    apply fmap_Some in Ht as (t' & Ht & ->);
    try (apply print_then; [done|]; intros; apply IH; auto; lia).
  - subst c'. apply print_then1; [done|]. intros. apply IH; auto; lia.
  - apply print_then1; [done|]. intros. apply print_then1; [done|]. intros. apply IH; auto; lia.
Qed.

Lemma cprintf_done n m d i c fmt args t :
  mach_ok m i c → lk_free m L_cons → cons_ok (d_cons d) → format fmt args = Some t →
  cprintf fmt args n (K m d) = Done tt (K m (d <| d_cons := cons_puts t (d_cons d) |>)).
Proof.
  intros Hm Hf Hok Ht. unfold cprintf, getc_. krun.
  destruct (ctrue _); krun.
  - kcall acquire_done. rewrite (bind_done _ _ _ _ _ _ (cprintf_loop_done _ _ _ _ _ _ Hok Ht)).
    by erewrite release_acq.
  - by rewrite (bind_done _ _ _ _ _ _ (cprintf_loop_done _ _ _ _ _ _ Hok Ht)).
Qed.

Lemma cons_puts_out cs cn :
  cons_ok cn → cn_uart cn ≠ 0 → BACKSPACE ∉ cs → cn_out (cons_puts cs cn) = cn_out cn ++ (u8 <$> cs).
Proof.
  unfold cons_puts. revert cn. induction cs as [|c cs IH]; intros cn Hok Hu Hb; simpl.
  - by rewrite app_nil_r.
  - apply not_elem_of_cons in Hb as [Hc Hb].
    destruct (cons_put_same c cn) as (_ & _ & _ & _ & _ & _ & Hu' & _).
    rewrite IH; [| by apply cons_put_ok | congruence | done].
    destruct (cons_put_step c cn Hok) as (pos & crt & _ & -> & _). simpl.
    destruct (Z.eqb_spec c BACKSPACE); [congruence|].
    unfold uart_put. rewrite ctrue_ne by done. simpl. by rewrite <- app_assoc.
Qed.

(** ** printint prints numerals *)

(** The number a most-significant-first list of digit values denotes. *)
Definition numeral (base : Z) (ds : list Z) : Z := foldl (λ a v, a * base + v) 0 ds.

Lemma numeral_snoc base ds v : numeral base (ds ++ [v]) = numeral base ds * base + v.
Proof. unfold numeral. by rewrite foldl_app. Qed.

(** The digits of [x], least significant first, as values. *)
Fixpoint digit_values (fuel : nat) (x base : Z) : list Z :=
  match fuel with
  | O => []
  | S fuel' => x mod base :: (if negb (x / base =? 0) then digit_values fuel' (x / base) base else [])
  end.
Lemma digits_loop_values tbl fuel x base :
  digits_loop tbl fuel x base = (λ v, tbl !!! Z.to_nat v) <$> digit_values fuel x base.
Proof.
  revert x. induction fuel as [|fuel IH]; intros x; simpl; [done|]. f_equal.
  destruct (negb _); [apply IH | done].
Qed.
Lemma digit_values_numeral fuel x base :
  2 <= base → 0 <= x < 2 ^ Z.of_nat fuel → (0 < fuel)%nat →
  numeral base (reverse (digit_values fuel x base)) = x
  ∧ Forall (λ v, 0 <= v < base) (digit_values fuel x base)
  ∧ (x ≠ 0 → last (digit_values fuel x base) ≠ Some 0).
Proof.
  intros Hb. revert x. induction fuel as [|fuel IH]; intros x Hx Hf; [lia|]. cbn [digit_values].
  rewrite reverse_cons, numeral_snoc. rewrite Nat2Z.inj_succ, Z.pow_succ_r in Hx by lia.
  pose proof (Z.div_mod x base ltac:(lia)). pose proof (Z.mod_pos_bound x base ltac:(lia)).
  assert (x / base < 2 ^ Z.of_nat fuel) by (apply Z.div_lt_upper_bound; nia).
  assert (0 <= x / base) by (apply Z.div_pos; lia).
  destruct (Z.eqb_spec (x / base) 0) as [E|E]; cbn [negb].
  - rewrite E in *. split_and!; [done || (unfold numeral; simpl; lia) | by repeat constructor; lia |].
    intros Hnz [= ?]. lia.
  - destruct (decide (fuel = 0%nat)) as [->|]; [simpl in *; lia|].
    destruct (IH (x / base)) as (G1 & G2 & G3); [lia..|]. rewrite G1.
    split_and!; [lia | by constructor |]. intros _. specialize (G3 E).
    destruct (digit_values fuel (x / base) base) eqn:Ed; [|done].
    destruct fuel; [lia|done].
Qed.

(** The characters of a numeral: what a table of digits makes of its values. *)
Definition is_numeral (tbl : list Z) (base x : Z) (cs : list Z) : Prop :=
  ∃ vs, cs = (λ v, tbl !!! Z.to_nat v) <$> vs ∧ vs ≠ [] ∧ Forall (λ v, 0 <= v < base) vs
    ∧ numeral base vs = x ∧ (x ≠ 0 → head vs ≠ Some 0).

Lemma digits_loop_numeral tbl x base :
  2 <= base → is_u32 x → is_numeral tbl base x (reverse (digits_loop tbl 32 x base)).
Proof.
  intros Hb Hx. destruct (digit_values_numeral 32 x base Hb) as (H1 & H2 & H3); [apply Hx | lia |].
  exists (reverse (digit_values 32 x base)). split_and!.
  - by rewrite digits_loop_values, fmap_reverse.
  - intros E%(f_equal reverse). by rewrite reverse_involutive in E.
  - by apply Forall_reverse.
  - done.
  - rewrite head_reverse. done.
Qed.

(** printint prints the decimal (hexadecimal, ...) numeral of its
    argument: digits of the base, no leading zero, of the right value, after
    a minus sign for a negative signed argument; also for the smallest int,
    whose negation is not an int. *)
Theorem printint_numeral xx base sign :
  2 <= base <= 16 → is_s32 xx →
  ∃ cs, printint_chars xx base sign = (if sign && (xx <? 0) then 45 :: cs else cs)
    ∧ is_numeral digits base (if sign then Z.abs xx else u32 xx) cs.
Proof.
  intros Hb Hx. unfold printint_chars, is_s32 in *. destruct (sign && (xx <? 0)) eqn:E.
  - apply andb_true_iff in E as [-> E%Z.ltb_lt]. rewrite reverse_app. eexists. split; [done|].
    rewrite u32_small by lia. replace (Z.abs xx) with (- xx) by lia.
    apply digits_loop_numeral; unfold is_u32; lia.
  - rewrite app_nil_r. eexists. split; [done|].
    assert (u32 xx = if sign then Z.abs xx else u32 xx) as <-.
    { destruct sign; [|done]. apply Z.ltb_ge in E. rewrite u32_small; lia. }
    apply digits_loop_numeral; [lia | apply u32_range].
Qed.
Lemma printint_numeral_witness :
  ∃ cs, printint_chars (- 2 ^ 31) 10 true = 45 :: cs ∧ is_numeral digits 10 (2 ^ 31) cs.
Proof. apply (printint_numeral (- 2 ^ 31) 10 true); unfold is_s32; lia. Defined.

(** cprintf, called with the arguments its format asks for, returns; it
    has sent exactly the text the format denotes to the serial line, the
    cursor is still on the screen, and nothing but the console's output has
    changed: no lock, no input, no other data. *)
Theorem cprintf_serial n m d i c fmt args t :
  mach_ok m i c → lk_free m L_cons → cons_ok (d_cons d) → cn_uart (d_cons d) ≠ 0 →
  format fmt args = Some t → BACKSPACE ∉ t →
  ∃ cn, cprintf fmt args n (K m d) = Done tt (K m (d <| d_cons := cn |>))
    ∧ cn_out cn = cn_out (d_cons d) ++ (u8 <$> t) ∧ cons_ok cn ∧ same_input (d_cons d) cn.
Proof.
  intros Hm Hf Hok Hu Ht Hb. exists (cons_puts t (d_cons d)). split_and!.
  - by eapply cprintf_done.
  - by apply cons_puts_out.
  - by apply cons_puts_ok.
  - apply cons_puts_same.
Qed.
Definition d_uart : kdata :=
  let d := zero_data (Image 0 0 0 0 []) (λ _, 0) (λ _ _, []) in
  d <| d_cons := d_cons d <| cn_uart := 1 |> <| cn_locking := 1 |> |>.
Definition m_cons : mach := idle_mach 0 1 [(L_cons, "console")].
Lemma cprintf_serial_witness :
  ∃ cn, cprintf (cstring "%d %s%%\n") [A_int 4294967254; A_str (Some (str "ok"))] 0%nat (K m_cons d_uart)
      = Done tt (K m_cons (d_uart <| d_cons := cn |>))
    ∧ cn_out cn = [] ++ (u8 <$> cstring "-42 ok%\n") ∧ cons_ok cn ∧ same_input (d_cons d_uart) cn.
Proof.
  apply (cprintf_serial 0 m_cons d_uart 0 (idle_cpu 0) _ _ (cstring "-42 ok%\n")).
  - split; [done..|by right].
  - by eexists.
  - by split.
  - done.
  - by vm_compute.
  - apply (bool_decide_unpack _). by vm_compute.
Defined.
