(* ===== verification/Vm.v ===== *)
(** * Vm: vm.c, page tables and user memory

    Page directories and page tables are pages of the kernel's memory, and the
    functions of vm.c read and write their entries there.  (seginit, which
    only loads segment descriptors, is not modelled; loaduvm, which reads from
    an inode, is with exec.) *)

From S2P Require Import Prelude Memory Kstate Spinlock Kalloc Cprintf.

Definition load32M (a : Z) : KM Z := getd (λ d, load32 (mm_mem (d_mm d)) a).
Definition store32M (a v : Z) : KM unit := mod_mem (λ m, store32 m a v).

(** ** walkpgdir, mappages *)

Definition walkpgdir (pgdir va : Z) (alloc : bool) : KM Z :=
  let pde := pgdir + 4 * PDX va in
  v ← load32M pde;
  if ctrue (Z.land v PTE_P) then
    let pgtab := P2V (PTE_ADDR v) in
    mret (pgtab + 4 * PTX va)
  else if negb alloc then mret 0 else
  pgtab ← kalloc;
  if pgtab =? 0 then mret 0 else
  mod_mem (λ m, memset m pgtab 0 PGSIZE) ;;
  store32M pde (Z.lor (Z.lor (Z.lor (V2P pgtab) PTE_P) PTE_W) PTE_U) ;;
  mret (pgtab + 4 * PTX va).

(** [for(;;) ...]: [a] runs through the pages up to [last]. *)
Fixpoint mappages_loop (fuel : nat) (pgdir a last pa perm : Z) : KM Z :=
  match fuel with
  | O => out_of_fuel
  | S fuel' =>
    pte ← walkpgdir pgdir a true;
    if pte =? 0 then mret (-1) else
    v ← load32M pte;
    if ctrue (Z.land v PTE_P) then panic "remap" else
    store32M pte (Z.lor (Z.lor pa perm) PTE_P) ;;
    if a =? last then mret 0 else
    mappages_loop fuel' pgdir (a +u PGSIZE) last (pa +u PGSIZE) perm
  end.
(** As many rounds as there are pages from [a] to [last]. *)
Definition mappages (pgdir va size pa perm : Z) : KM Z :=
  let a := PGROUNDDOWN va in
  let last := PGROUNDDOWN (u32 (va + size - 1)) in
  mappages_loop (S (Z.to_nat (u32 (last - a) / PGSIZE))) pgdir a last pa perm.

(** ** deallocuvm, freevm *)

Fixpoint deallocuvm_loop (fuel : nat) (pgdir a oldsz : Z) : KM unit :=
  match fuel with
  | O => out_of_fuel
  | S fuel' =>
    if negb (a <? oldsz) then mret tt else
    pte ← walkpgdir pgdir a false;
    if pte =? 0 then
      let a := PGADDR (PDX a + 1) 0 0 -u PGSIZE in
      deallocuvm_loop fuel' pgdir (a +u PGSIZE) oldsz
    else
      v ← load32M pte;
      (if ctrue (Z.land v PTE_P) then
         let pa := PTE_ADDR v in
         if pa =? 0 then panic "kfree" else
         let v := P2V pa in
         kfree v ;; store32M pte 0
       else mret tt) ;;
      deallocuvm_loop fuel' pgdir (a +u PGSIZE) oldsz
  end.
Definition deallocuvm (pgdir oldsz newsz : Z) : KM Z :=
  if newsz >=? oldsz then mret oldsz else
  let a := PGROUNDUP newsz in
  deallocuvm_loop (S (Z.to_nat (oldsz / PGSIZE) + 1)) pgdir a oldsz ;;
  mret newsz.

Definition freevm (pgdir : Z) : KM unit :=
  if pgdir =? 0 then panic "freevm: no pgdir" else
  _ ← deallocuvm pgdir KERNBASE 0;
  forM (seqZ 0 NPDENTRIES) (λ i,
    e ← load32M (pgdir + 4 * i);
    if ctrue (Z.land e PTE_P) then
      let v := P2V (PTE_ADDR e) in kfree v
    else mret tt) ;;
  kfree pgdir.

(** ** The kernel's part of every page table *)

Record kmap := Kmap { virt : Z; phys_start : Z; phys_end : Z; perm : Z }.
Definition kmaps (im : image) : list kmap :=
  [ Kmap KERNBASE 0 EXTMEM PTE_W;
    Kmap KERNLINK (V2P KERNLINK) (V2P (im_data im)) 0;
    Kmap (im_data im) (V2P (im_data im)) PHYSTOP PTE_W;
    Kmap DEVSPACE DEVSPACE 0 PTE_W ].

(** [Some tt]: a mapping failed. *)
Definition map_kernel (pgdir : Z) (ks : list kmap) : KM (option unit) :=
  searchM ks (λ k,
    r ← mappages pgdir (virt k) (phys_end k -u phys_start k) (phys_start k) (perm k);
    mret (if r <? 0 then Some tt else None)).

Definition setupkvm : KM Z :=
  pgdir ← kalloc;
  if pgdir =? 0 then mret 0 else
  mod_mem (λ m, memset m pgdir 0 PGSIZE) ;;
  if P2V PHYSTOP >? DEVSPACE then panic "PHYSTOP too high" else
  im ← getd d_im;
  r ← map_kernel pgdir (kmaps im);
  match r with
  | Some _ => freevm pgdir ;; mret 0
  | None => mret pgdir
  end.

Definition lcr3 (v : Z) : KM unit := modm (λ m, m <| m_cr3 := v |>).
Definition switchkvm : KM unit :=
  k ← getd (λ d, mm_kpgdir (d_mm d));
  lcr3 (V2P k).
Definition kvmalloc : KM unit :=
  k ← setupkvm;
  mod_mm (λ mm, mm <| mm_kpgdir := k |>) ;;
  switchkvm.

(** The descriptor of the task state segment in the CPU's GDT is left out. *)
Definition switchuvm (p : option nat) : KM unit :=
  match p with
  | None => panic "switchuvm: no process"
  | Some i =>
    p ← get_proc i;
    if p_kstack p =? 0 then panic "switchuvm: no kstack" else
    if p_pgdir p =? 0 then panic "switchuvm: no pgdir" else
    pushcli ;;
    c ← mycpu; mod_cpu c (λ cp, cp <| c_ss0 := Z.shiftl SEG_KDATA 3 |>) ;;
    c ← mycpu; mod_cpu c (λ cp, cp <| c_esp0 := p_kstack p +u KSTACKSIZE |>) ;;
    c ← mycpu; mod_cpu c (λ cp, cp <| c_iomb := 0xFFFF |>) ;;
    lcr3 (V2P (p_pgdir p)) ;;
    popcli
  end.

(** ** User memory *)

(** [init] is the array of [sz] bytes in the kernel image. *)
Definition inituvm (pgdir : Z) (init : list Z) : KM unit :=
  let sz := Z.of_nat (length init) in
  if sz >=? PGSIZE then panic "inituvm: more than a page" else
  mem ← kalloc;
  mod_mem (λ m, memset m mem 0 PGSIZE) ;;
  _ ← mappages pgdir 0 PGSIZE (V2P mem) (Z.lor PTE_W PTE_U);
  mod_mem (λ m, store_bytes m mem init).

Fixpoint allocuvm_loop (fuel : nat) (pgdir a oldsz newsz : Z) : KM Z :=
  match fuel with
  | O => out_of_fuel
  | S fuel' =>
    if negb (a <? newsz) then mret newsz else
    mem ← kalloc;
    if mem =? 0 then
      cprintf (cstring "allocuvm out of memory\n") [] ;;
      _ ← deallocuvm pgdir newsz oldsz;
      mret 0
    else
    mod_mem (λ m, memset m mem 0 PGSIZE) ;;
    r ← mappages pgdir a PGSIZE (V2P mem) (Z.lor PTE_W PTE_U);
    if r <? 0 then
      cprintf (cstring "allocuvm out of memory (2)\n") [] ;;
      _ ← deallocuvm pgdir newsz oldsz;
      kfree mem ;;
      mret 0
    else allocuvm_loop fuel' pgdir (a +u PGSIZE) oldsz newsz
  end.
Definition allocuvm (pgdir oldsz newsz : Z) : KM Z :=
  if newsz >=? KERNBASE then mret 0 else
  if newsz <? oldsz then mret oldsz else
  let a := PGROUNDUP oldsz in
  allocuvm_loop (S (Z.to_nat (newsz / PGSIZE) + 1)) pgdir a oldsz newsz.

Definition clearpteu (pgdir uva : Z) : KM unit :=
  pte ← walkpgdir pgdir uva false;
  if pte =? 0 then panic "clearpteu" else
  v ← load32M pte;
  store32M pte (Z.land v (Z.lnot PTE_U)).

(** The loop of copyuvm; [false]: [goto bad]. *)
Fixpoint copyuvm_loop (fuel : nat) (pgdir d i sz : Z) : KM bool :=
  match fuel with
  | O => out_of_fuel
  | S fuel' =>
    if negb (i <? sz) then mret true else
    pte ← walkpgdir pgdir i false;
    if pte =? 0 then panic "copyuvm: pte should exist" else
    v ← load32M pte;
    if negb (ctrue (Z.land v PTE_P)) then panic "copyuvm: page not present" else
    let pa := PTE_ADDR v in
    let flags := PTE_FLAGS v in
    mem ← kalloc;
    if mem =? 0 then mret false else
    mod_mem (λ m, memmove m mem (P2V pa) PGSIZE) ;;
    r ← mappages d i PGSIZE (V2P mem) flags;
    if r <? 0 then mret false else
    copyuvm_loop fuel' pgdir d (i +u PGSIZE) sz
  end.
Definition copyuvm (pgdir sz : Z) : KM Z :=
  d ← setupkvm;
  if d =? 0 then mret 0 else
  ok ← copyuvm_loop (S (Z.to_nat (sz / PGSIZE) + 1)) pgdir d 0 sz;
  if (ok : bool) then mret d else
  freevm d ;; mret 0.

(** The entry is read even when there is no page table: a null dereference. *)
Definition uva2ka (pgdir uva : Z) : KM Z :=
  pte ← walkpgdir pgdir uva false;
  if pte =? 0 then undef "uva2ka: null pte" else
  v ← load32M pte;
  if Z.land v PTE_P =? 0 then mret 0 else
  if Z.land v PTE_U =? 0 then mret 0 else
  mret (P2V (PTE_ADDR v)).

(** The source bytes are read before the call: [buf] is the rest of them. *)
Fixpoint copyout_loop (fuel : nat) (pgdir va : Z) (buf : list Z) : KM Z :=
  match fuel with
  | O => out_of_fuel
  | S fuel' =>
    if negb (bool_decide (buf ≠ [])) then mret 0 else
    let va0 := PGROUNDDOWN va in
    pa0 ← uva2ka pgdir va0;
    if pa0 =? 0 then mret (-1) else
    let n := PGSIZE - (va - va0) in
    let n := if n >? Z.of_nat (length buf) then Z.of_nat (length buf) else n in
    mod_mem (λ m, store_bytes m (pa0 + (va - va0)) (take (Z.to_nat n) buf)) ;;
    copyout_loop fuel' pgdir (va0 +u PGSIZE) (drop (Z.to_nat n) buf)
  end.
Definition copyout (pgdir va : Z) (buf : list Z) : KM Z :=
  copyout_loop (S (length buf)) pgdir va buf.

(** ** Memory as the processor sees it

    Kernel code uses virtual addresses: those from KERNBASE on are the
    kernel's memory, those below are looked up in the page table in %cr3.
    Touching a page that is not mapped (or, for a store, not writable) is a
    fault in the kernel. *)

Definition walk (m : mem) (pgdir va : Z) : option Z :=
  let pde := load32 m (pgdir + 4 * PDX va) in
  if ctrue (Z.land pde PTE_P) then Some (P2V (PTE_ADDR pde) + 4 * PTX va) else None.
Definition translate (m : mem) (pgdir va : Z) (write : bool) : option Z :=
  if KERNBASE <=? va then Some va else
  pte ← load32 m <$> walk m pgdir va;
  if ctrue (Z.land pte PTE_P) && (negb write || ctrue (Z.land pte PTE_W))
  then Some (P2V (PTE_ADDR pte) + Z.land va 0xFFF) else None.

Definition cur_pgdir : KM Z := gets (λ s, P2V (m_cr3 (km s))).
Fixpoint vload (m : mem) (pgdir va : Z) (n : nat) : option (list Z) :=
  match n with
  | O => Some []
  | S n' => a ← translate m pgdir va false; l ← vload m pgdir (va + 1) n'; Some (m a :: l)
  end.
Fixpoint vstore (m : mem) (pgdir va : Z) (l : list Z) : option mem :=
  match l with
  | [] => Some m
  | b :: l' => a ← translate m pgdir va true; vstore (store8 m a b) pgdir (va + 1) l'
  end.
(** Read [n] bytes at [va]; write the bytes [l] to [va]. *)
Definition vloadM (va : Z) (n : nat) : KM (list Z) :=
  pgdir ← cur_pgdir; m ← get_mem;
  from_opt "page fault" (vload m pgdir va n).
Definition vstoreM (va : Z) (l : list Z) : KM unit :=
  pgdir ← cur_pgdir; m ← get_mem;
  m' ← from_opt "page fault" (vstore m pgdir va l);
  mod_mem (λ _, m').
Definition vload32M (va : Z) : KM Z := l ← vloadM va 4; mret (word_of l).
Definition vstore32M (va w : Z) : KM unit := vstoreM va (bytes_of w).

(** Where a function that takes a [char *] stores or fetches bytes: at a
    virtual address, or in a variable of its caller, whose new value is then
    part of the result. *)
Inductive dst : Set := D_va (a : Z) | D_local.
Inductive src : Set := S_va (a : Z) | S_local (l : list Z).
(** Store [l] at offset [off] of [to]; [acc] is what the variable has so far. *)
Definition put_dst (to : dst) (off : Z) (acc l : list Z) : KM (list Z) :=
  match to with
  | D_va a => vstoreM (u32 (a + off)) l ;; mret acc
  | D_local => mret (acc ++ l)
  end.
Definition get_src (from : src) (off : Z) (n : nat) : KM (list Z) :=
  match from with
  | S_va a => vloadM (u32 (a + off)) n
  | S_local l => mret (take n (drop (Z.to_nat off) l))
  end.

Lemma vloadM_done n m d va k l :
  vload (mm_mem (d_mm d)) (P2V (m_cr3 m)) va k = Some l → vloadM va k n (K m d) = Done l (K m d).
Proof. intros E. unfold vloadM, cur_pgdir. erewrite bind_done by done. krun. by rewrite E. Qed.
Lemma vstoreM_done n m d va l mem' :
  vstore (mm_mem (d_mm d)) (P2V (m_cr3 m)) va l = Some mem' →
  vstoreM va l n (K m d) = Done tt (K m (d <| d_mm := d_mm d <| mm_mem := mem' |> |>)).
Proof. intros E. unfold vstoreM, cur_pgdir. erewrite bind_done by done. krun. by rewrite E. Qed.
Lemma vstore_app m pgdir va l1 l2 :
  vstore m pgdir va (l1 ++ l2) = m' ← vstore m pgdir va l1; vstore m' pgdir (va + Z.of_nat (length l1)) l2.
Proof.
  revert m va. induction l1 as [|b l1 IH]; intros m va; simpl; [by rewrite Z.add_0_r|].
  destruct (translate m pgdir va true) as [a|]; simpl; [|done]. rewrite IH.
  by replace (va + 1 + Z.of_nat (length l1)) with (va + Z.of_nat (S (length l1))) by lia.
Qed.
