(* ===== verification/VmFacts.v ===== *)
(** * VmFacts: page tables

    A page directory and its page tables, as they lie in memory, represent a
    function from virtual page numbers to page table entries.  [vm_ok] says
    so, together with what the code relies on to update them: the directory,
    the tables and the free pages are all different pages.  walkpgdir,
    mappages, setupkvm and clearpteu are then updates of the function. *)

From S2P Require Import Prelude Memory Kstate Spinlock Kalloc Cprintf Vm.

(** ** Addresses *)

Lemma PDX_eq va : 0 <= va < 2 ^ 32 → PDX va = va / PGSIZE / 1024.
Proof.
  intros H. unfold PDX, PDXSHIFT, PGSIZE. rewrite Z.shiftr_div_pow2 by lia.
  change 0x3FF with (Z.ones 10). rewrite Z.land_ones, Z.div_div by lia.
  apply Z.mod_small. Z.div_mod_to_equations. lia.
Qed.
Lemma PTX_eq va : 0 <= va < 2 ^ 32 → PTX va = va / PGSIZE mod 1024.
Proof.
  intros H. unfold PTX, PTXSHIFT, PGSIZE. rewrite Z.shiftr_div_pow2 by lia.
  change 0x3FF with (Z.ones 10). by rewrite Z.land_ones by lia.
Qed.
Lemma PTE_ADDR_eq w : PTE_ADDR w = w / PGSIZE * PGSIZE.
Proof. unfold PTE_ADDR. change 0xFFF with (Z.ones 12). by rewrite land_lnot_ones by lia. Qed.
Lemma PTE_FLAGS_eq w : PTE_FLAGS w = w mod PGSIZE.
Proof. unfold PTE_FLAGS. change 0xFFF with (Z.ones 12). by rewrite Z.land_ones by lia. Qed.
Lemma land_P w : Z.land w PTE_P = w mod 2.
Proof. unfold PTE_P. change 1 with (Z.ones 1). by rewrite Z.land_ones by lia. Qed.

Lemma V2P_page im t : page_ok im t → V2P t = t - KERNBASE ∧ 0 < V2P t < PHYSTOP ∧ V2P t mod PGSIZE = 0.
Proof.
  intros (Ha & _ & Hl & Hh). unfold V2P, KERNBASE, PHYSTOP, PGSIZE in *.
  rewrite u32_small by lia. split_and!; [done | lia | lia |]. Z.div_mod_to_equations. lia.
Qed.
Lemma P2V_V2P im t : page_ok im t → P2V (V2P t) = t.
Proof.
  intros H. destruct (V2P_page _ _ H) as (-> & Hr & _). destruct H as (_ & _ & Hl & Hh).
  unfold P2V, KERNBASE, PHYSTOP in *. rewrite u32_small by lia. lia.
Qed.

(** An entry made of a page and flags. *)
Definition entry (t flags : Z) : Z := V2P t + flags.

Lemma entry_addr im t f : page_ok im t → 0 <= f < PGSIZE → PTE_ADDR (entry t f) = V2P t.
Proof.
  intros H Hf. destruct (V2P_page _ _ H) as (_ & _ & Hm). rewrite PTE_ADDR_eq. unfold entry, PGSIZE in *.
  Z.div_mod_to_equations. lia.
Qed.
Lemma entry_flags im t f : page_ok im t → 0 <= f < PGSIZE → PTE_FLAGS (entry t f) = f.
Proof.
  intros H Hf. destruct (V2P_page _ _ H) as (_ & _ & Hm). rewrite PTE_FLAGS_eq. unfold entry, PGSIZE in *.
  Z.div_mod_to_equations. lia.
Qed.
Lemma entry_P im t f : page_ok im t → Z.land (entry t f) PTE_P = f mod 2.
Proof.
  intros H. destruct (V2P_page _ _ H) as (_ & _ & Hm). rewrite land_P. unfold entry, PGSIZE in *.
  Z.div_mod_to_equations. lia.
Qed.
Lemma entry_range im t f : page_ok im t → 0 <= f < PGSIZE → 0 <= entry t f < 2 ^ 32.
Proof.
  intros H Hf. destruct (V2P_page _ _ H) as (_ & Hr & _). unfold entry, PHYSTOP, PGSIZE in *. lia.
Qed.
(** Flags or-ed to an address of a page. *)
Lemma lor_flags a f : a mod PGSIZE = 0 → 0 <= f < PGSIZE → Z.lor a f = a + f.
Proof.
  intros Ha Hf. rewrite (Z.div_mod a PGSIZE), Ha by (unfold PGSIZE; lia).
  rewrite Z.add_0_r, Z.mul_comm. by apply lor_high_low with (k := 12).
Qed.

(** ** The representation of an address space *)

(** The pages of the page table itself. *)
Definition vmpages (pgdir : Z) (pts : gmap Z Z) : list Z := pgdir :: (map_to_list pts).*2.

Record vm_ok (d : kdata) (l : list Z) (pgdir : Z) (pts : gmap Z Z) (e : Z → Z) : Prop := {
  vo_kmem : kmem_ok d l;
  vo_pages : Forall (page_ok (d_im d)) (vmpages pgdir pts);
  vo_apart : NoDup (l ++ vmpages pgdir pts);
  vo_dom : ∀ i t, pts !! i = Some t → 0 <= i < 1024;
  vo_pde : ∀ i, 0 <= i < 1024 →
    load32 (mm_mem (d_mm d)) (pgdir + 4 * i) = default 0 ((λ t, entry t 7) <$> pts !! i);
  vo_pte : ∀ v, 0 <= v < 2 ^ 20 →
    match pts !! (v / 1024) with
    | Some t => load32 (mm_mem (d_mm d)) (t + 4 * (v mod 1024)) = e v
    | None => e v = 0
    end
}.

Lemma elem_of_vmpages pgdir pts x : x ∈ vmpages pgdir pts ↔ x = pgdir ∨ ∃ i, pts !! i = Some x.
Proof.
  unfold vmpages. rewrite elem_of_cons, list_elem_of_fmap. f_equiv. split.
  - intros ([i t] & -> & H%elem_of_map_to_list). eauto.
  - intros [i H]. exists (i, x). by rewrite elem_of_map_to_list.
Qed.

Section props.
Context {d : kdata} {l : list Z} {pgdir : Z} {pts : gmap Z Z} {e : Z → Z} (Hvm : vm_ok d l pgdir pts e).

Lemma vm_page x : x ∈ vmpages pgdir pts → page_ok (d_im d) x.
Proof. intros Hx. pose proof (vo_pages _ _ _ _ _ Hvm) as H. rewrite Forall_forall in H. auto. Qed.
Lemma vm_pgdir_ok : page_ok (d_im d) pgdir.
Proof. apply vm_page, elem_of_vmpages. by left. Qed.
Lemma vm_table_ok i t : pts !! i = Some t → page_ok (d_im d) t.
Proof. intros H. apply vm_page, elem_of_vmpages. eauto. Qed.
Lemma vm_free_ok x : x ∈ l → page_ok (d_im d) x.
Proof. pose proof (ko_pages _ _ (vo_kmem _ _ _ _ _ Hvm)) as H. rewrite Forall_forall in H. auto. Qed.

Lemma vm_not_free x y : x ∈ l → y ∈ vmpages pgdir pts → x ≠ y.
Proof. intros Hx Hy ->. pose proof (vo_apart _ _ _ _ _ Hvm) as H. apply NoDup_app in H as (_ & H & _). by apply (H y). Qed.
Lemma vm_table_dir i t : pts !! i = Some t → t ≠ pgdir.
Proof.
  intros Hi ->. pose proof (vo_apart _ _ _ _ _ Hvm) as H. apply NoDup_app in H as (_ & _ & H).
  apply NoDup_cons in H as [H _]. apply H. apply list_elem_of_fmap. exists (i, pgdir).
  by rewrite elem_of_map_to_list.
Qed.
Lemma vm_table_inj i j t : pts !! i = Some t → pts !! j = Some t → i = j.
Proof.
  intros Hi Hj. pose proof (vo_apart _ _ _ _ _ Hvm) as H. apply NoDup_app in H as (_ & _ & H).
  apply NoDup_cons in H as [_ H].
  apply elem_of_map_to_list, list_elem_of_lookup in Hi as [a Ha].
  apply elem_of_map_to_list, list_elem_of_lookup in Hj as [b Hb].
  assert (a = b) as ->; [|by simplify_eq].
  apply (NoDup_lookup _ a b t H); rewrite list_lookup_fmap; [by rewrite Ha | by rewrite Hb].
Qed.

(** Two of the pages do not overlap. *)
Lemma vm_tables_apart i j s t :
  pts !! i = Some s → pts !! j = Some t → i ≠ j → s + PGSIZE <= t ∨ t + PGSIZE <= s.
Proof.
  intros Hi Hj Hne. apply pages_apart; [by eapply vm_table_ok | by eapply vm_table_ok |].
  intros ->. apply Hne. by eapply vm_table_inj.
Qed.
Lemma vm_table_dir_apart i t : pts !! i = Some t → t + PGSIZE <= pgdir ∨ pgdir + PGSIZE <= t.
Proof.
  intros Hi. apply pages_apart; [by eapply vm_table_ok | apply vm_pgdir_ok | by eapply vm_table_dir].
Qed.
Lemma vm_free_apart x y : x ∈ l → y ∈ vmpages pgdir pts → x + PGSIZE <= y ∨ y + PGSIZE <= x.
Proof.
  intros Hx Hy. apply pages_apart; [by apply vm_free_ok | by apply vm_page | by apply vm_not_free].
Qed.
End props.

(** Memory outside the page table and the free pages may change. *)
Lemma vm_ok_frame d d' l pgdir pts e :
  vm_ok d l pgdir pts e → d_im d' = d_im d → mm_freelist (d_mm d') = mm_freelist (d_mm d) →
  (∀ x b, x ∈ l ++ vmpages pgdir pts → x <= b < x + PGSIZE → mm_mem (d_mm d') b = mm_mem (d_mm d) b) →
  vm_ok d' l pgdir pts e.
Proof.
  intros Hvm Him Hfl Hm. pose proof Hvm as [Hk Hp Ha Hd Hpde Hpte]. split; try done.
  - eapply kmem_ok_frame; [done | done | | done]. intros x b Hx. apply Hm. by apply elem_of_app; left.
  - by rewrite Him.
  - intros i Hi. rewrite <- Hpde by done. apply load32_frame. intros b Hb. apply (Hm pgdir).
    + apply elem_of_app. right. apply elem_of_vmpages. by left.
    + unfold PGSIZE. lia.
  - intros v Hv. specialize (Hpte v Hv). destruct (pts !! (v / 1024)) as [t|] eqn:Et; [|done].
    rewrite <- Hpte. apply load32_frame. intros b Hb. apply (Hm t).
    + apply elem_of_app. right. apply elem_of_vmpages. eauto.
    + unfold PGSIZE. pose proof (Z.mod_pos_bound v 1024). lia.
Qed.
Lemma vm_ok_ext d l pgdir pts e e' :
  (∀ v, 0 <= v < 2 ^ 20 → e v = e' v) → vm_ok d l pgdir pts e → vm_ok d l pgdir pts e'.
Proof.
  intros He [????? Hpte]. split; try done. intros v Hv. rewrite <- He by done. by apply Hpte.
Qed.

(** Writing an entry of a page table. *)
Definition set_pte (v w : Z) (e : Z → Z) : Z → Z := λ u, if decide (u = v) then w else e u.

Definition upd_mem (f : mem → mem) (d : kdata) : kdata := d <| d_mm := d_mm d <| mm_mem := f (mm_mem (d_mm d)) |> |>.

Lemma vm_ok_set_pte d l pgdir pts e v t w :
  vm_ok d l pgdir pts e → 0 <= v < 2 ^ 20 → pts !! (v / 1024) = Some t → 0 <= w < 2 ^ 32 →
  vm_ok (upd_mem (λ m, store32 m (t + 4 * (v mod 1024)) w) d) l pgdir pts (set_pte v w e).
Proof.
  intros Hvm Hv Ht Hw. pose proof (Z.mod_pos_bound v 1024 ltac:(lia)) as Hmod.
  pose proof Hvm as [Hk Hp Ha Hd Hpde Hpte]. split; try done.
  - apply (kmem_ok_frame d); [done | done | | done]. intros x b Hx Hb. simpl. apply store32_frame.
    destruct (vm_free_apart Hvm x t Hx) as [H|H]; [apply elem_of_vmpages; eauto | |]; unfold PGSIZE in *; lia.
  - intros i Hi. rewrite <- Hpde by done. simpl. apply load32_store32_ne.
    destruct (vm_table_dir_apart Hvm _ _ Ht); unfold PGSIZE in *; lia.
  - intros u Hu. specialize (Hpte u Hu). unfold set_pte. simpl.
    destruct (decide (u = v)) as [->|Hne]; [by rewrite Ht, load32_store32, u32_small|].
    destruct (pts !! (u / 1024)) as [s|] eqn:Es; [|done]. rewrite <- Hpte. apply load32_store32_ne.
    pose proof (Z.mod_pos_bound u 1024 ltac:(lia)) as Hmodu.
    destruct (decide (u / 1024 = v / 1024)) as [E|E].
    + assert (s = t) as -> by congruence. Z.div_mod_to_equations. lia.
    + destruct (vm_tables_apart Hvm _ _ _ _ Es Ht E); unfold PGSIZE in *; lia.
Qed.

(** A free page taken for other use, and a page given back. *)
Lemma vm_ok_kalloc d x l pgdir pts e :
  vm_ok d (x :: l) pgdir pts e →
  mm_freelist (d_mm d) = x ∧ page_ok (d_im d) x
  ∧ vm_ok (d <| d_mm := kalloc_mm (d_mm d) |>) l pgdir pts e
  ∧ mm_mem (kalloc_mm (d_mm d)) = mm_mem (d_mm d)
  ∧ x ∉ l ++ vmpages pgdir pts.
Proof.
  intros Hvm. pose proof Hvm as [Hk Hp Ha Hd Hpde Hpte].
  destruct (kalloc_mm_pop _ _ _ Hk) as (Hx & Hkm & Hk').
  assert (Hm : mm_mem (kalloc_mm (d_mm d)) = mm_mem (d_mm d)) by by rewrite Hkm.
  apply NoDup_cons in Ha as [Ha1 Ha2].
  split_and!; [done | apply (vm_free_ok Hvm), list_elem_of_here | | done | done].
  split; simpl; try done; by rewrite Hm.
Qed.

Lemma vm_ok_kfree d x l pgdir pts e :
  vm_ok d l pgdir pts e → page_ok (d_im d) x → x ∉ l ++ vmpages pgdir pts →
  vm_ok (d <| d_mm := kfree_mm x (d_mm d) |>) (x :: l) pgdir pts e.
Proof.
  intros Hvm Hx Hn. pose proof Hvm as [Hk Hp Ha Hd Hpde Hpte].
  assert (Hfr : ∀ y b, y ∈ vmpages pgdir pts → y <= b < y + PGSIZE →
    mm_mem (kfree_mm x (d_mm d)) b = mm_mem (d_mm d) b).
  { intros y b Hy Hb. apply kfree_mm_lookup.
    assert (x ≠ y) by (intros ->; apply Hn, elem_of_app; by right).
    destruct (pages_apart x y) as [Hlt|Hlt]; [apply Hx | by apply (vm_page Hvm) | done | lia | lia]. }
  split; try done.
  - apply kfree_mm_push; [done | | done | by eapply freelist_u32].
    intros H. apply Hn, elem_of_app. by left.
  - apply NoDup_cons. done.
  - intros i Hi. rewrite <- Hpde by done. apply load32_frame. intros b Hb. apply (Hfr pgdir).
    + apply elem_of_vmpages. by left.
    + unfold PGSIZE. lia.
  - intros v Hv. specialize (Hpte v Hv). destruct (pts !! (v / 1024)) as [t|] eqn:Et; [|done].
    rewrite <- Hpte. apply load32_frame. intros b Hb. apply (Hfr t).
    + apply elem_of_vmpages. eauto.
    + unfold PGSIZE. pose proof (Z.mod_pos_bound v 1024). lia.
Qed.

(** ** walkpgdir *)

Lemma vmpages_insert pgdir pts i x :
  pts !! i = None → vmpages pgdir (<[i := x]> pts) ≡ₚ x :: vmpages pgdir pts.
Proof.
  intros H. unfold vmpages. rewrite map_to_list_insert by done. simpl. apply perm_swap.
Qed.

(** A free page that becomes the page table for the directory's entry [i]. *)
Lemma vm_ok_new_table d x l pgdir pts e i :
  vm_ok d (x :: l) pgdir pts e → 0 <= i < 1024 → pts !! i = None →
  vm_ok (upd_mem (λ m, store32 (memset m x 0 PGSIZE) (pgdir + 4 * i) (entry x 7))
           (d <| d_mm := kalloc_mm (d_mm d) |>)) l pgdir (<[i := x]> pts) e.
Proof.
  intros Hvm Hi Hn. destruct (vm_ok_kalloc _ _ _ _ _ _ Hvm) as (_ & Hx & Hvm' & Hm & Hxn).
  pose proof Hvm' as [Hk Hp Ha Hd Hpde Hpte]. simpl in Hpde, Hpte. rewrite Hm in Hpde, Hpte.
  assert (Hap : ∀ y, y ∈ l ++ vmpages pgdir pts → page_ok (d_im d) y → x + PGSIZE <= y ∨ y + PGSIZE <= x).
  { intros y Hy Hyok. apply pages_apart; [apply Hx | apply Hyok | by intros ->]. }
  assert (Hdir : x + PGSIZE <= pgdir ∨ pgdir + PGSIZE <= x).
  { apply Hap; [apply elem_of_app; right; apply elem_of_vmpages; by left | apply (vm_pgdir_ok Hvm)]. }
  assert (Hset : ∀ b, ¬ (x <= b < x + PGSIZE) → ¬ (pgdir + 4 * i <= b < pgdir + 4 * i + 4) →
    store32 (memset (mm_mem (d_mm d)) x 0 PGSIZE) (pgdir + 4 * i) (entry x 7) b = mm_mem (d_mm d) b).
  { intros b H1 H2. rewrite store32_frame, memset_lookup, decide_False by (unfold PGSIZE in *; lia). done. }
  split; simpl; rewrite ?Hm.
  - apply (kmem_ok_frame (d <| d_mm := kalloc_mm (d_mm d) |>)); [done | done | | done].
    intros y b Hy Hb. simpl. rewrite Hm. apply Hset.
    + destruct (Hap y); [apply elem_of_app; by left | by apply (vm_free_ok Hvm'), Hy | lia | lia].
    + destruct (vm_free_apart Hvm' y pgdir Hy); [apply elem_of_vmpages; by left | |]; unfold PGSIZE in *; lia.
  - rewrite vmpages_insert by done. by constructor.
  - rewrite vmpages_insert by done. rewrite <- Permutation_middle. by constructor.
  - intros j t [[<- <-]|[_ Hj]]%lookup_insert_Some; [done | by eapply Hd].
  - intros j Hj. destruct (decide (j = i)) as [->|Hne].
    + rewrite load32_store32, lookup_insert_eq. apply u32_small. by apply (entry_range (d_im d)).
    + rewrite load32_store32_ne, lookup_insert_ne, <- Hpde by (done || lia).
      apply load32_frame. intros b Hb. rewrite memset_lookup, decide_False by (unfold PGSIZE in *; lia). done.
  - intros v Hv. specialize (Hpte v Hv). pose proof (Z.mod_pos_bound v 1024 ltac:(lia)) as Hmod.
    destruct (decide (v / 1024 = i)) as [E|Hne].
    + rewrite E, Hn in Hpte. rewrite E, lookup_insert_eq, Hpte, load32_store32_ne by (unfold PGSIZE in *; lia).
      unfold load32. rewrite !memset_lookup, !decide_True by (unfold PGSIZE; lia). done.
    + rewrite lookup_insert_ne by done. destruct (pts !! (v / 1024)) as [t|] eqn:Et; [|done].
      rewrite <- Hpte. apply load32_frame. intros b Hb. apply Hset.
      * destruct (Hap t); [apply elem_of_app; right; apply elem_of_vmpages; eauto | by apply (vm_table_ok Hvm _ _ Et) | |];
          unfold PGSIZE in *; lia.
      * destruct (vm_table_dir_apart Hvm _ _ Et); unfold PGSIZE in *; lia.
Qed.

(** [d'] is [d] with changes in the pages [ps] and the free list only; the
    pages [ps] are still the same ones. *)
Lemma kmem_frame_mono vs ws d d' : vs ⊆ ws → kmem_frame vs d d' → kmem_frame ws d d'.
Proof. intros Hs (H1 & H2 & H3 & H4). split_and!; [done..|]. intros b Hb. apply H4. auto. Qed.
Lemma kmem_frame_trans_in ps vs d1 d2 d3 :
  vs ⊆ ps → kmem_frame ps d1 d2 → kmem_frame vs d2 d3 → kmem_frame ps d1 d3.
Proof.
  intros Hs H1 H2. eapply kmem_frame_mono; [|by eapply kmem_frame_trans].
  intros x [Hx|Hx]%elem_of_app; auto.
Qed.
Lemma kmem_frame_im vs d d' : kmem_frame vs d d' → d_im d' = d_im d.
Proof. intros (-> & _). done. Qed.
Lemma kmem_frame_upd_mem vs f d :
  (∀ b, (∀ v, v ∈ vs → ¬ (v <= b < v + PGSIZE)) → f (mm_mem (d_mm d)) b = mm_mem (d_mm d) b) →
  kmem_frame vs d (upd_mem f d).
Proof. intros H. split_and!; [by destruct d as [? [] ] | done | done | exact H]. Qed.
Lemma kmem_frame_kalloc d x l :
  kmem_ok d (x :: l) → kmem_frame [] d (d <| d_mm := kalloc_mm (d_mm d) |>).
Proof. intros Hk. destruct (kalloc_mm_pop _ _ _ Hk) as (_ & -> & _). done. Qed.

(** What a call that may take pages for page tables does: [e] becomes [e'],
    and no page is lost. *)
Record vm_step (d : kdata) (l : list Z) (pgdir : Z) (pts : gmap Z Z)
    (d' : kdata) (l' : list Z) (pts' : gmap Z Z) (e' : Z → Z) : Prop := {
  vs_ok : vm_ok d' l' pgdir pts' e';
  vs_frame : kmem_frame (l ++ vmpages pgdir pts) d d';
  vs_pages : l' ++ vmpages pgdir pts' ≡ₚ l ++ vmpages pgdir pts;
  vs_tables : pts ⊆ pts';
  vs_free : ∃ k, l' = drop k l
}.

Lemma vm_step_refl d l pgdir pts e : vm_ok d l pgdir pts e → vm_step d l pgdir pts d l pts e.
Proof. intros H. split; [done | apply kmem_frame_refl | done | done | by exists 0%nat]. Qed.
Lemma vm_step_trans d1 l1 pgdir pts1 d2 l2 pts2 e2 d3 l3 pts3 e3 :
  vm_step d1 l1 pgdir pts1 d2 l2 pts2 e2 → vm_step d2 l2 pgdir pts2 d3 l3 pts3 e3 →
  vm_step d1 l1 pgdir pts1 d3 l3 pts3 e3.
Proof.
  intros [H1 H2 H3 H4 [a Ha]] [H1' H2' H3' H4' [b Hb]]. split; [done | | by rewrite H3' | by etrans | ].
  - eapply kmem_frame_trans_in; [|exact H2 | exact H2']. intros x. by rewrite H3.
  - exists (a + b)%nat. by rewrite Hb, Ha, drop_drop.
Qed.

Section walk.
Context (n : nat) (m : mach).

Lemma walkpgdir_present d l pgdir pts e va alloc t :
  vm_ok d l pgdir pts e → 0 <= va < 2 ^ 32 → pts !! PDX va = Some t →
  walkpgdir pgdir va alloc n (K m d) = Done (t + 4 * PTX va) (K m d).
Proof.
  intros Hvm Hva Ht. pose proof (vm_table_ok Hvm _ _ Ht) as Htok.
  unfold walkpgdir, load32M. krun. rewrite (vo_pde _ _ _ _ _ Hvm) by (by eapply vo_dom). rewrite Ht. simpl.
  rewrite (entry_P (d_im d)), (entry_addr (d_im d)), (P2V_V2P (d_im d)) by (done || unfold PGSIZE; lia). done.
Qed.
Lemma PDX_range va : 0 <= va < 2 ^ 32 → 0 <= PDX va < 1024.
Proof. intros H. rewrite PDX_eq by done. unfold PGSIZE. Z.div_mod_to_equations. lia. Qed.
Lemma walkpgdir_absent d l pgdir pts e va :
  vm_ok d l pgdir pts e → 0 <= va < 2 ^ 32 → pts !! PDX va = None →
  walkpgdir pgdir va false n (K m d) = Done 0 (K m d).
Proof.
  intros Hvm Hva Ht. unfold walkpgdir, load32M. krun.
  rewrite (vo_pde _ _ _ _ _ Hvm) by by apply PDX_range. rewrite Ht. done.
Qed.
Lemma entry7 im x : page_ok im x → Z.lor (Z.lor (Z.lor (V2P x) PTE_P) PTE_W) PTE_U = entry x 7.
Proof.
  intros Hx. destruct (V2P_page _ _ Hx) as (_ & _ & Hm). rewrite <- !Z.lor_assoc.
  rewrite lor_flags; [done | done |]. by vm_compute.
Qed.

(** Without a page table, one is made if there is a free page. *)
Definition new_table (x pgdir i : Z) (d : kdata) : kdata :=
  upd_mem (λ m, store32 (memset m x 0 PGSIZE) (pgdir + 4 * i) (entry x 7)) (d <| d_mm := kalloc_mm (d_mm d) |>).
Lemma walkpgdir_new d l pgdir pts e va :
  can_lock m d → vm_ok d l pgdir pts e → 0 <= va < 2 ^ 32 → pts !! PDX va = None →
  walkpgdir pgdir va true n (K m d) =
    match l with
    | [] => Done 0 (K m d)
    | x :: _ => Done (x + 4 * PTX va) (K m (new_table x pgdir (PDX va) d))
    end.
Proof.
  intros Hcl Hvm Hva Et. unfold walkpgdir, load32M. krun.
  rewrite (vo_pde _ _ _ _ _ Hvm) by by apply PDX_range. rewrite Et. simpl.
  rewrite (bind_done _ _ _ _ _ _ (kalloc_done n m d Hcl)). destruct l as [|x l].
  { destruct (kalloc_mm_nil d (vo_kmem _ _ _ _ _ Hvm)) as [-> ->]. by rewrite eta_mm. }
  destruct (vm_ok_kalloc _ _ _ _ _ _ Hvm) as (-> & Hx & _).
  rewrite (proj2 (Z.eqb_neq x 0)) by (destruct Hx as (_ & _ & ? & _); unfold KERNBASE in *; lia).
  unfold store32M. krun. by rewrite (entry7 (d_im d)).
Qed.
Lemma new_table_step d x l pgdir pts e i :
  vm_ok d (x :: l) pgdir pts e → 0 <= i < 1024 → pts !! i = None →
  vm_step d (x :: l) pgdir pts (new_table x pgdir i d) l (<[i := x]> pts) e.
Proof.
  intros Hvm Hi Hn. destruct (vm_ok_kalloc _ _ _ _ _ _ Hvm) as (_ & Hx & _ & Hm & Hxn). split.
  - by apply vm_ok_new_table.
  - eapply kmem_frame_mono; [|eapply (kmem_frame_trans [] [x; pgdir]);
      [by eapply kmem_frame_kalloc, Hvm | apply kmem_frame_upd_mem]].
    + intros y Hy. rewrite elem_of_app. simpl in Hy.
      apply elem_of_cons in Hy as [->|[->|[]%elem_of_nil]%elem_of_cons].
      * left. apply list_elem_of_here.
      * right. apply elem_of_vmpages. by left.
    + intros b Hb. simpl. rewrite Hm. pose proof (Hb x ltac:(apply list_elem_of_here)) as Hbx.
      pose proof (Hb pgdir ltac:(apply list_elem_of_further, list_elem_of_here)) as Hbp.
      rewrite store32_frame, memset_lookup, decide_False by (unfold PGSIZE in *; lia). done.
  - rewrite vmpages_insert by done. by rewrite <- Permutation_middle.
  - by apply insert_subseteq.
  - by exists 1%nat.
Qed.

(** With [alloc], there is a page table afterwards unless memory is out. *)
Lemma walkpgdir_alloc d l pgdir pts e va :
  can_lock m d → vm_ok d l pgdir pts e → 0 <= va < 2 ^ 32 →
  ∃ r d' l' pts', walkpgdir pgdir va true n (K m d) = Done r (K m d')
    ∧ vm_step d l pgdir pts d' l' pts' e
    ∧ ((∃ t, pts' !! PDX va = Some t ∧ r = t + 4 * PTX va ∧ r ≠ 0)
       ∨ r = 0 ∧ l' = [] ∧ pts' !! PDX va = None).
Proof.
  intros Hcl Hvm Hva. pose proof (PDX_range va Hva) as Hi.
  assert (Hnz : ∀ x, page_ok (d_im d) x → x + 4 * PTX va ≠ 0).
  { intros x (_ & _ & H & _). rewrite PTX_eq by done. unfold KERNBASE in H.
    pose proof (Z.mod_pos_bound (va / PGSIZE) 1024 ltac:(lia)). lia. }
  destruct (pts !! PDX va) as [t|] eqn:Et.
  { exists (t + 4 * PTX va), d, l, pts. split; [by eapply walkpgdir_present|].
    split; [by apply vm_step_refl|]. left. exists t. split_and!; [done | done |].
    by eapply Hnz, vm_table_ok. }
  rewrite (walkpgdir_new d l pgdir pts e) by done. destruct l as [|x l].
  { exists 0, d, [], pts. split; [done|]. split; [by apply vm_step_refl|]. by right. }
  exists (x + 4 * PTX va), (new_table x pgdir (PDX va) d), l, (<[PDX va := x]> pts).
  split; [done|]. split; [by apply new_table_step|].
  left. exists x. rewrite lookup_insert_eq. split_and!; [done | done |].
  eapply Hnz, vm_free_ok; [done | apply list_elem_of_here].
Qed.
End walk.

(** ** mappages *)

Lemma vm_step_ext d l pgdir pts d' l' pts' e e' :
  (∀ v, 0 <= v < 2 ^ 20 → e v = e' v) → vm_step d l pgdir pts d' l' pts' e → vm_step d l pgdir pts d' l' pts' e'.
Proof. intros He []. split; try done. by eapply vm_ok_ext. Qed.

Lemma set_pte_step d l pgdir pts e v t w :
  vm_ok d l pgdir pts e → 0 <= v < 2 ^ 20 → pts !! (v / 1024) = Some t → 0 <= w < 2 ^ 32 →
  vm_step d l pgdir pts (upd_mem (λ m, store32 m (t + 4 * (v mod 1024)) w) d) l pts (set_pte v w e).
Proof.
  intros Hvm Hv Ht Hw. split; [by apply vm_ok_set_pte | | done | done | by exists 0%nat].
  apply kmem_frame_upd_mem. intros b Hb. apply store32_frame.
  pose proof (Z.mod_pos_bound v 1024 ltac:(lia)).
  assert (¬ (t <= b < t + PGSIZE)) by (apply Hb, elem_of_app; right; apply elem_of_vmpages; eauto).
  unfold PGSIZE in *. lia.
Qed.

Definition mapped (pa perm : Z) : Z := Z.lor (Z.lor pa perm) PTE_P.
(** [j] pages from page [v0] on mapped to the physical pages from [pa] on. *)
Definition map_range (v0 j pa perm : Z) (e : Z → Z) : Z → Z :=
  λ v, if decide (v0 <= v < v0 + j) then mapped (pa + (v - v0) * PGSIZE) perm else e v.

Lemma flags_range perm : 0 <= perm < PGSIZE → 0 <= Z.lor perm PTE_P < PGSIZE.
Proof.
  intros Hperm. split; [apply Z.lor_nonneg; unfold PTE_P; lia|].
  apply (Z.log2_lt_cancel _ PGSIZE), Z.le_lt_trans with 11; [|done].
  rewrite Z.log2_lor by (unfold PTE_P; lia). apply Z.max_lub; [|done].
  destruct (decide (perm = 0)) as [->|]; [done|]. apply Z.lt_succ_r, Z.log2_lt_pow2; unfold PGSIZE in *; lia.
Qed.
Lemma mapped_eq pa perm : pa mod PGSIZE = 0 → 0 <= perm < PGSIZE → mapped pa perm = pa + Z.lor perm PTE_P.
Proof.
  intros Hpa Hperm. unfold mapped. rewrite <- Z.lor_assoc. apply lor_flags; [done | by apply flags_range].
Qed.
Lemma mapped_range pa perm :
  pa mod PGSIZE = 0 → 0 <= pa < 2 ^ 32 → 0 <= perm < PGSIZE → 0 <= mapped pa perm < 2 ^ 32.
Proof.
  intros Hm Hpa Hperm. rewrite mapped_eq by done. pose proof (flags_range perm Hperm).
  unfold PGSIZE in *. Z.div_mod_to_equations. lia.
Qed.
Lemma map_range_one v pa perm e u : map_range v 1 pa perm e u = set_pte v (mapped pa perm) e u.
Proof.
  unfold map_range, set_pte. destruct (decide (u = v)) as [->|].
  - rewrite decide_True by lia. by rewrite Z.sub_diag, Z.add_0_r.
  - by rewrite decide_False by lia.
Qed.
Lemma map_range_step v0 j pa perm e u :
  0 <= j →
  map_range (v0 + 1) j (pa + PGSIZE) perm (set_pte v0 (mapped pa perm) e) u = map_range v0 (j + 1) pa perm e u.
Proof.
  intros Hj. unfold map_range, set_pte. destruct (decide (u = v0)) as [->|].
  - rewrite decide_False, decide_True by lia. by rewrite Z.sub_diag, Z.add_0_r.
  - destruct (decide (v0 + 1 <= u < v0 + 1 + j)).
    + rewrite decide_True by lia. f_equal. lia.
    + by rewrite decide_False by lia.
Qed.

Section map.
Context (n : nat) (m : mach) (pgdir perm : Z) (Hperm : 0 <= perm < PGSIZE).

Lemma load32M_done a d : load32M a n (K m d) = Done (load32 (mm_mem (d_mm d)) a) (K m d).
Proof. done. Qed.
Lemma store32M_done a w d : store32M a w n (K m d) = Done tt (K m (upd_mem (λ m, store32 m a w) d)).
Proof. done. Qed.

Lemma page_addr v : 0 <= v < 2 ^ 20 →
  0 <= v * PGSIZE < 2 ^ 32 ∧ PDX (v * PGSIZE) = v / 1024 ∧ PTX (v * PGSIZE) = v mod 1024.
Proof.
  intros Hv. assert (0 <= v * PGSIZE < 2 ^ 32) by (unfold PGSIZE; lia).
  rewrite PDX_eq, PTX_eq, Z.div_mul by (done || unfold PGSIZE; lia). done.
Qed.

(** One round: the page [v] is mapped, or memory is out. *)
Lemma map_one d l pts e v pa :
  can_lock m d → vm_ok d l pgdir pts e → 0 <= v < 2 ^ 20 →
  pa mod PGSIZE = 0 → 0 <= pa < 2 ^ 32 → e v mod 2 = 0 →
  ∃ r d1 l1 pts1, walkpgdir pgdir (v * PGSIZE) true n (K m d) = Done r (K m d1)
    ∧ ((r ≠ 0 ∧ load32 (mm_mem (d_mm d1)) r = e v
        ∧ vm_step d l pgdir pts (upd_mem (λ m, store32 m r (mapped pa perm)) d1) l1 pts1 (set_pte v (mapped pa perm) e))
       ∨ (r = 0 ∧ l1 = [] ∧ pts1 !! (v / 1024) = None ∧ vm_step d l pgdir pts d1 l1 pts1 e)).
Proof.
  intros Hcl Hvm Hv Hpam Hpa He. destruct (page_addr v Hv) as (Hva & Hpd & Hpt).
  destruct (walkpgdir_alloc n m d l pgdir pts e (v * PGSIZE)) as (r & d1 & l1 & pts1 & Hw & Hst & Hr); [done..|].
  rewrite Hpd, Hpt in Hr. exists r, d1, l1, pts1. split; [done|].
  destruct Hr as [(t & Ht & -> & Hnz)|(-> & -> & Hn)]; [left | by right].
  pose proof (vo_pte _ _ _ _ _ (vs_ok _ _ _ _ _ _ _ _ Hst) v Hv) as Hpte. rewrite Ht in Hpte.
  split_and!; [done | done |]. eapply vm_step_trans; [done|].
  apply set_pte_step; [apply Hst | done | done | by apply mapped_range].
Qed.

Lemma mappages_loop_done k fuel v0 pa d l pts e :
  (k < fuel)%nat → can_lock m d → vm_ok d l pgdir pts e →
  0 <= v0 → v0 + Z.of_nat k < 2 ^ 20 →
  pa mod PGSIZE = 0 → 0 <= pa → pa + Z.of_nat k * PGSIZE < 2 ^ 32 →
  (∀ v, v0 <= v <= v0 + Z.of_nat k → e v mod 2 = 0) →
  ∃ r d' l' pts' j,
    mappages_loop fuel pgdir (v0 * PGSIZE) ((v0 + Z.of_nat k) * PGSIZE) pa perm n (K m d) = Done r (K m d')
    ∧ vm_step d l pgdir pts d' l' pts' (map_range v0 j pa perm e)
    ∧ (r = 0 ∧ j = Z.of_nat k + 1 ∨ r = -1 ∧ 0 <= j <= Z.of_nat k ∧ l' = [] ∧ pts' !! ((v0 + j) / 1024) = None).
Proof.
  revert fuel v0 pa d l pts e. induction k as [|k IH]; intros fuel v0 pa d l pts e Hf Hcl Hvm H0 Hk Hpm Hp0 Hpk He;
    destruct fuel as [|fuel]; try lia; cbn [mappages_loop];
    (destruct (map_one d l pts e v0 pa) as (r & d1 & l1 & pts1 & Hw & Hr);
      [done | done | lia | done | unfold PGSIZE in *; lia | apply He; lia|]);
    rewrite (bind_done _ _ _ _ _ _ Hw);
    (destruct Hr as [(Hnz & Hld & Hst)|(-> & -> & Hn & Hst)];
      [|exists (-1), d1, [], pts1, 0; split; [done|]; split;
        [eapply vm_step_ext; [|exact Hst]; intros v _; unfold map_range; by rewrite decide_False by lia
        |right; rewrite Z.add_0_r; split_and!; (done || lia)]]);
    rewrite (proj2 (Z.eqb_neq _ _) Hnz), (bind_done _ _ _ _ _ _ (load32M_done r d1)), Hld, land_P, He by lia;
    cbn [ctrue Z.eqb negb]; rewrite (bind_done _ _ _ _ _ _ (store32M_done r _ d1)); fold (mapped pa perm).
  - replace (v0 + Z.of_nat 0) with v0 by lia. rewrite Z.eqb_refl.
    eexists 0, _, l1, pts1, 1. split; [done|]. split; [|by left].
    eapply vm_step_ext; [|exact Hst]. intros v _. by rewrite map_range_one.
  - rewrite (proj2 (Z.eqb_neq _ _)) by (unfold PGSIZE; lia).
    rewrite !u32_small by (unfold PGSIZE in *; lia).
    replace (v0 * PGSIZE + PGSIZE) with ((v0 + 1) * PGSIZE) by lia.
    replace (v0 + Z.of_nat (S k)) with (v0 + 1 + Z.of_nat k) by lia.
    destruct (IH fuel (v0 + 1) (pa + PGSIZE) (upd_mem (λ m, store32 m r (mapped pa perm)) d1) l1 pts1
        (set_pte v0 (mapped pa perm) e)) as (r' & d' & l' & pts' & j & Hl & Hst' & Hr');
      [lia | by eapply can_lock_frame, Hcl; apply Hst | apply Hst | lia | lia
      | unfold PGSIZE in *; Z.div_mod_to_equations; lia | unfold PGSIZE; lia | unfold PGSIZE in *; lia
      | intros v Hv; unfold set_pte; rewrite decide_False by lia; apply He; lia |].
    exists r', d', l', pts', (j + 1). split; [done|].
    assert (0 <= j) by (destruct Hr' as [[_ ?]|(_ & ? & _)]; lia). split.
    + eapply vm_step_ext; [|eapply vm_step_trans; [exact Hst | exact Hst']].
      intros v _. by apply map_range_step.
    + destruct Hr' as [[-> ->]|(-> & Hj & -> & Hn)]; [left; split; [done|lia]|right].
      split_and!; [done | lia | lia | done |]. by replace (v0 + (j + 1)) with (v0 + 1 + j) by lia.
Qed.

(** The number of pages from the first to the last byte, less one. *)
Definition more_pages (va size : Z) : Z := (va + size - 1) / PGSIZE - va / PGSIZE.
Lemma PGROUNDDOWN_page a : PGROUNDDOWN a = a / PGSIZE * PGSIZE.
Proof. unfold PGROUNDDOWN, PGSIZE. change (4096 - 1) with (Z.ones 12). by rewrite land_lnot_ones by lia. Qed.

Lemma mappages_done va size pa d l pts e :
  can_lock m d → vm_ok d l pgdir pts e → 0 <= va → 0 < size → va + size <= 2 ^ 32 →
  pa mod PGSIZE = 0 → 0 <= pa → pa + more_pages va size * PGSIZE < 2 ^ 32 →
  (∀ v, va / PGSIZE <= v <= (va + size - 1) / PGSIZE → e v mod 2 = 0) →
  ∃ r d' l' pts' j,
    mappages pgdir va size pa perm n (K m d) = Done r (K m d')
    ∧ vm_step d l pgdir pts d' l' pts' (map_range (va / PGSIZE) j pa perm e)
    ∧ (r = 0 ∧ j = more_pages va size + 1
       ∨ r = -1 ∧ 0 <= j <= more_pages va size ∧ l' = [] ∧ pts' !! ((va / PGSIZE + j) / 1024) = None).
Proof.
  intros Hcl Hvm Hva Hsz Hend Hpm Hp0 Hpe He. unfold mappages.
  rewrite (u32_small (va + size - 1)), !PGROUNDDOWN_page by lia.
  assert (Hk : 0 <= more_pages va size).
  { unfold more_pages. pose proof (Z.div_le_mono va (va + size - 1) PGSIZE). unfold PGSIZE in *. lia. }
  replace ((va + size - 1) / PGSIZE * PGSIZE - va / PGSIZE * PGSIZE) with (more_pages va size * PGSIZE)
    by (unfold more_pages; lia).
  assert (Hlast : va / PGSIZE + more_pages va size = (va + size - 1) / PGSIZE) by (unfold more_pages; lia).
  assert (0 <= va / PGSIZE ∧ (va + size - 1) / PGSIZE < 2 ^ 20).
  { unfold PGSIZE. split; Z.div_mod_to_equations; lia. }
  rewrite u32_small, Z.div_mul by (unfold PGSIZE in *; lia). rewrite <- Hlast.
  remember (Z.to_nat (more_pages va size)) as k eqn:Ek.
  assert (Hmk : more_pages va size = Z.of_nat k) by lia. rewrite Hmk in *.
  destruct (mappages_loop_done k (S k) (va / PGSIZE) pa d l pts e) as (r & d' & l' & pts' & j & Hl);
    [lia | done | done | lia | lia | done | done | lia | intros v Hv; apply He; lia |].
  by exists r, d', l', pts', j.
Qed.
End map.
