(* ===== verification/UvmFacts.v ===== *)
(** * UvmFacts: the memory of a process

    On top of VmFacts: the entries below KERNBASE map pages that belong to the
    process, each mapped once.  deallocuvm and freevm give pages back,
    allocuvm adds fresh ones, copyuvm duplicates the memory; no page is lost
    or shared. *)

From S2P Require Import Prelude Memory Kstate Spinlock Kalloc Cprintf Vm VmFacts.

(** Pages below KERNBASE. *)
Definition UPAGES : Z := KERNBASE / PGSIZE.
Lemma UPAGES_eq : UPAGES = 2 ^ 19.
Proof. done. Qed.

(** The user pages: page number to page and flags. *)
Definition upages (us : gmap Z (Z * Z)) : list Z := (map_to_list us).*2.*1.

Lemma upages_insert us v x f : us !! v = None → upages (<[v := (x, f)]> us) ≡ₚ x :: upages us.
Proof. intros H. unfold upages. by rewrite map_to_list_insert. Qed.
Lemma upages_delete us v x f : us !! v = Some (x, f) → upages us ≡ₚ x :: upages (delete v us).
Proof.
  intros H. rewrite <- upages_insert with (f := f) (v := v) by apply lookup_delete_eq.
  by rewrite insert_delete_id.
Qed.
Lemma elem_of_upages us x : x ∈ upages us ↔ ∃ v f, us !! v = Some (x, f).
Proof.
  unfold upages. rewrite list_elem_of_fmap. split.
  - intros ([y f] & -> & H). apply list_elem_of_fmap in H as ([v [y' f']] & [= <- <-] & H%elem_of_map_to_list). eauto.
  - intros (v & f & H). exists (x, f). split; [done|]. apply list_elem_of_fmap. exists (v, (x, f)).
    by rewrite elem_of_map_to_list.
Qed.

Record user_ok (e : Z → Z) (us : gmap Z (Z * Z)) : Prop := {
  ue_entry : ∀ v, 0 <= v < UPAGES → e v = default 0 ((λ p, entry p.1 p.2) <$> us !! v);
  ue_dom : ∀ v x f, us !! v = Some (x, f) → 0 <= v < UPAGES ∧ 0 <= f < PGSIZE ∧ f mod 2 = 1
}.

Record uvm_ok (d : kdata) (l : list Z) (pgdir : Z) (pts : gmap Z Z) (e : Z → Z) (us : gmap Z (Z * Z)) : Prop := {
  uo_vm : vm_ok d l pgdir pts e;
  uo_user : user_ok e us;
  uo_pages : Forall (page_ok (d_im d)) (upages us);
  uo_apart : NoDup (l ++ vmpages pgdir pts ++ upages us)
}.

Section props.
Context {d : kdata} {l : list Z} {pgdir : Z} {pts : gmap Z Z} {e : Z → Z} {us : gmap Z (Z * Z)}
  (Huo : uvm_ok d l pgdir pts e us).

Lemma uo_page v x f : us !! v = Some (x, f) → page_ok (d_im d) x.
Proof.
  intros H. pose proof (uo_pages _ _ _ _ _ _ Huo) as Hp. rewrite Forall_forall in Hp.
  apply Hp, elem_of_upages. eauto.
Qed.
Lemma uo_own v x f : us !! v = Some (x, f) → x ∉ l ++ vmpages pgdir pts.
Proof.
  intros H Hx. pose proof (uo_apart _ _ _ _ _ _ Huo) as Ha. rewrite app_assoc in Ha.
  apply NoDup_app in Ha as (_ & Ha & _). apply (Ha x Hx), elem_of_upages. eauto.
Qed.
Lemma uo_inj v w x f g : us !! v = Some (x, f) → us !! w = Some (x, g) → v = w.
Proof.
  intros Hv Hw. pose proof (uo_apart _ _ _ _ _ _ Huo) as H. rewrite app_assoc in H. apply NoDup_app in H as (_ & _ & H).
  apply elem_of_map_to_list, list_elem_of_lookup in Hv as [a Ha].
  apply elem_of_map_to_list, list_elem_of_lookup in Hw as [b Hb].
  assert (a = b) as ->; [|by simplify_eq].
  apply (NoDup_lookup _ a b x H); unfold upages; rewrite !list_lookup_fmap; [by rewrite Ha | by rewrite Hb].
Qed.
Lemma uo_table v x f : us !! v = Some (x, f) → ∃ t, pts !! (v / 1024) = Some t.
Proof.
  intros H. destruct (ue_dom _ _ (uo_user _ _ _ _ _ _ Huo) _ _ _ H) as (Hv & Hf & Hodd).
  pose proof (ue_entry _ _ (uo_user _ _ _ _ _ _ Huo) v Hv) as He. rewrite H in He. simpl in He.
  destruct (pts !! (v / 1024)) as [t|] eqn:Et; [by eexists|].
  pose proof (vo_pte _ _ _ _ _ (uo_vm _ _ _ _ _ _ Huo) v) as Hp. rewrite Et in Hp.
  rewrite He in Hp. rewrite UPAGES_eq in Hv. specialize (Hp ltac:(lia)).
  destruct (V2P_page _ _ (uo_page _ _ _ H)) as (_ & Hr & _). unfold entry in Hp. lia.
Qed.
End props.

(** Page [v] of the process goes back to the allocator. *)
Lemma uvm_ok_remove d l pgdir pts e us v x f t :
  uvm_ok d l pgdir pts e us → us !! v = Some (x, f) → pts !! (v / 1024) = Some t →
  uvm_ok (upd_mem (λ m, store32 m (t + 4 * (v mod 1024)) 0) (d <| d_mm := kfree_mm x (d_mm d) |>))
    (x :: l) pgdir pts (set_pte v 0 e) (delete v us).
Proof.
  intros Huo Hv Ht. pose proof Huo as [Hvm [He Hdom] Hp Ha].
  pose proof (uo_page Huo _ _ _ Hv) as Hx. pose proof (uo_own Huo _ _ _ Hv) as Hxn.
  destruct (Hdom _ _ _ Hv) as (Hvr & _).
  pose proof (upages_delete _ _ _ _ Hv) as Hperm.
  split.
  - apply vm_ok_set_pte; [by apply vm_ok_kfree | | done | lia]. rewrite UPAGES_eq in Hvr. lia.
  - split.
    + intros u Hu. unfold set_pte. destruct (decide (u = v)) as [->|]; [by rewrite lookup_delete_eq|].
      rewrite lookup_delete_ne by done. by apply He.
    + intros u y g [_ Hu]%lookup_delete_Some. by eapply Hdom.
  - rewrite Hperm in Hp. by inversion Hp.
  - rewrite Hperm, app_assoc, <- Permutation_middle in Ha. by rewrite <- app_assoc in Ha.
Qed.

Lemma can_lock_same m d d' : mm_use_lock (d_mm d') = mm_use_lock (d_mm d) → can_lock m d → can_lock m d'.
Proof. unfold can_lock. by intros ->. Qed.

(** ** deallocuvm *)

(** The pages from [lo] to [hi] are gone; the pages [rm] went back. *)
Record dealloc_step (d : kdata) (l : list Z) (pgdir : Z) (pts : gmap Z Z) (e : Z → Z) (us : gmap Z (Z * Z))
    (lo hi : Z) (d' : kdata) (rm : list Z) (e' : Z → Z) (us' : gmap Z (Z * Z)) : Prop := {
  ds_ok : uvm_ok d' (rm ++ l) pgdir pts e' us';
  ds_us : ∀ u, us' !! u = if decide (lo <= u < hi) then None else us !! u;
  ds_e : ∀ u, ¬ (lo <= u < hi) → e' u = e u;
  ds_pages : upages us ≡ₚ rm ++ upages us';
  ds_frame : kmem_frame (vmpages pgdir pts ++ rm) d d'
}.

Lemma dealloc_refl d l pgdir pts e us lo hi :
  uvm_ok d l pgdir pts e us → (∀ u, lo <= u < hi → us !! u = None) →
  dealloc_step d l pgdir pts e us lo hi d [] e us.
Proof.
  intros Huo Hn. split; [done | | done | done | apply kmem_frame_refl].
  intros u. destruct (decide _); auto.
Qed.
Lemma dealloc_trans d1 l pgdir pts e1 us1 lo mid hi d2 rm1 e2 us2 d3 rm2 e3 us3 :
  lo <= mid <= hi →
  dealloc_step d1 l pgdir pts e1 us1 lo mid d2 rm1 e2 us2 →
  dealloc_step d2 (rm1 ++ l) pgdir pts e2 us2 mid hi d3 rm2 e3 us3 →
  dealloc_step d1 l pgdir pts e1 us1 lo hi d3 (rm2 ++ rm1) e3 us3.
Proof.
  intros Hm [H1 H2 H3 H4 H5] [H1' H2' H3' H4' H5']. split.
  - by rewrite <- app_assoc.
  - intros u. rewrite H2', H2. repeat destruct (decide _); done || lia.
  - intros u Hu. rewrite H3', H3; [done | lia | lia].
  - rewrite H4, H4'. by rewrite (Permutation_app_comm rm2 rm1), <- app_assoc.
  - eapply kmem_frame_mono; [|by eapply kmem_frame_trans].
    intros y. rewrite !elem_of_app. tauto.
Qed.
(** The range may be shifted to where nothing is mapped. *)
Lemma dealloc_ext d l pgdir pts e us lo hi lo' hi' d' rm e' us' :
  dealloc_step d l pgdir pts e us lo hi d' rm e' us' → lo' <= lo → hi <= hi' →
  (∀ u, lo' <= u < hi' → ¬ (lo <= u < hi) → us !! u = None) →
  dealloc_step d l pgdir pts e us lo' hi' d' rm e' us'.
Proof.
  intros [H1 H2 H3 H4 H5] Hlo Hhi Hn. split; try done.
  - intros u. rewrite H2. destruct (decide (lo' <= u < hi')); destruct (decide (lo <= u < hi)); auto. lia.
  - intros u Hu. apply H3. lia.
Qed.

Section dealloc.
Context (n : nat) (m : mach) (pgdir : Z) (pts : gmap Z Z).

(** The body of the loop at page [v] when its page table exists. *)
Definition dealloc_body (pte : Z) : KM unit :=
  v ← load32M pte;
  if ctrue (Z.land v PTE_P) then
    let pa := PTE_ADDR v in
    if pa =? 0 then panic "kfree" else
    let v := P2V pa in
    kfree v ;; store32M pte 0
  else mret tt.

Lemma dealloc_body_done d l e us v t :
  can_lock m d → uvm_ok d l pgdir pts e us → 0 <= v < UPAGES → pts !! (v / 1024) = Some t →
  ∃ d' rm e' us', dealloc_body (t + 4 * (v mod 1024)) n (K m d) = Done tt (K m d')
    ∧ dealloc_step d l pgdir pts e us v (v + 1) d' rm e' us'.
Proof.
  intros Hcl Huo Hv Ht. pose proof Huo as [Hvm Hu Hp Ha].
  pose proof (vo_pte _ _ _ _ _ Hvm v) as Hpte. rewrite Ht in Hpte.
  rewrite UPAGES_eq in Hv. specialize (Hpte ltac:(lia)). rewrite (ue_entry _ _ Hu) in Hpte by (by rewrite UPAGES_eq).
  unfold dealloc_body. rewrite (bind_done _ _ _ _ _ _ (load32M_done n m _ d)), Hpte.
  destruct (us !! v) as [[x f]|] eqn:Ev; simpl.
  - destruct (ue_dom _ _ Hu _ _ _ Ev) as (_ & Hf & Hodd). pose proof (uo_page Huo _ _ _ Ev) as Hx.
    rewrite (entry_P (d_im d)), Hodd, (entry_addr (d_im d)) by done. simpl.
    destruct (V2P_page _ _ Hx) as (_ & Hr & _). rewrite (proj2 (Z.eqb_neq _ _)) by lia.
    rewrite (P2V_V2P (d_im d)) by done.
    rewrite (bind_done _ _ _ _ _ _ (kfree_done n m d x Hcl Hx)), store32M_done.
    eexists _, [x], _, (delete v us). split; [done|]. split.
    + by apply uvm_ok_remove with (f := f).
    + intros u. destruct (decide (v <= u < v + 1)).
      * replace u with v by lia. apply lookup_delete_eq.
      * apply lookup_delete_ne. lia.
    + intros u Hu'. unfold set_pte. by rewrite decide_False by lia.
    + by apply upages_delete with (f := f).
    + eapply kmem_frame_mono; [|eapply (kmem_frame_trans [x] [t]); [| apply kmem_frame_upd_mem]].
      * intros y Hy. rewrite elem_of_app. simpl in Hy.
        apply elem_of_cons in Hy as [->|[->|[]%elem_of_nil]%elem_of_cons];
          [right; apply list_elem_of_here | left; apply elem_of_vmpages; eauto].
      * split_and!; [by destruct d as [? [] ] | done | done |]. intros b Hb. apply kfree_mm_lookup, Hb, list_elem_of_here.
      * intros b Hb. apply store32_frame. pose proof (Hb t ltac:(apply list_elem_of_here)).
        pose proof (Z.mod_pos_bound v 1024). unfold PGSIZE in *. lia.
  - exists d, [], e, us. split; [done|]. apply dealloc_refl; [done|]. intros u Hu'. by replace u with v by lia.
Qed.

(** The number of pages that [sz] bytes need. *)
Definition npages (sz : Z) : Z := (sz + PGSIZE - 1) / PGSIZE.
Lemma npages_lt v sz : v * PGSIZE < sz ↔ v < npages sz.
Proof. unfold npages, PGSIZE. split; intros; Z.div_mod_to_equations; lia. Qed.
Lemma npages_range sz : 0 <= sz <= KERNBASE → 0 <= npages sz <= UPAGES.
Proof. rewrite UPAGES_eq. unfold npages, PGSIZE, KERNBASE. intros. Z.div_mod_to_equations. lia. Qed.

Lemma PGROUNDUP_npages sz : 0 <= sz <= KERNBASE → PGROUNDUP sz = npages sz * PGSIZE.
Proof.
  intros Hsz. unfold PGROUNDUP. rewrite u32_small by (unfold KERNBASE, PGSIZE in *; lia).
  fold (PGROUNDDOWN (sz + (PGSIZE - 1))). rewrite PGROUNDDOWN_page. unfold npages. do 2 f_equal. lia.
Qed.
Lemma PGADDR_next v : 0 <= v < UPAGES →
  u32 (u32 (PGADDR (PDX (v * PGSIZE) + 1) 0 0 - PGSIZE) + PGSIZE) = (v / 1024 + 1) * 1024 * PGSIZE.
Proof.
  rewrite UPAGES_eq. intros Hv. destruct (page_addr v ltac:(lia)) as (_ & -> & _).
  assert (0 <= v / 1024 < 512) by (Z.div_mod_to_equations; lia).
  unfold PGADDR, PDXSHIFT. rewrite Z.shiftl_0_l, !Z.lor_0_r, Z.shiftl_mul_pow2 by lia.
  rewrite u32_add_l, (u32_small ((v / 1024 + 1) * 2 ^ 22)) by lia.
  rewrite u32_small by (unfold PGSIZE; lia). unfold PGSIZE. lia.
Qed.
Lemma no_table_no_page d l e us v u :
  uvm_ok d l pgdir pts e us → pts !! (v / 1024) = None → v <= u < (v / 1024 + 1) * 1024 → us !! u = None.
Proof.
  intros Huo Ht Hu. destruct (us !! u) as [[x f]|] eqn:Eu; [|done].
  destruct (uo_table Huo _ _ _ Eu) as [t Ht'].
  assert (u / 1024 = v / 1024) as E by (Z.div_mod_to_equations; lia). rewrite E in Ht'. congruence.
Qed.

Lemma deallocuvm_loop_done fuel v oldsz d l e us :
  can_lock m d → uvm_ok d l pgdir pts e us → 0 <= v → 0 <= oldsz <= KERNBASE →
  Z.max 0 (npages oldsz - v) < Z.of_nat fuel →
  ∃ d' rm e' us', deallocuvm_loop fuel pgdir (v * PGSIZE) oldsz n (K m d) = Done tt (K m d')
    ∧ dealloc_step d l pgdir pts e us v (npages oldsz) d' rm e' us'.
Proof.
  revert v d l e us. induction fuel as [|fuel IH]; intros v d l e us Hcl Huo Hv Hsz Hf; [lia|].
  cbn [deallocuvm_loop]. pose proof (npages_range _ Hsz) as Hnp.
  destruct (Z.ltb_spec (v * PGSIZE) oldsz) as [Hlt|Hge]; cbn [negb].
  2:{ exists d, [], e, us. split; [done|]. apply dealloc_refl; [done|].
      intros u Hu. assert (u < v); [|lia]. assert (¬ v < npages oldsz); [|lia].
      intros H%npages_lt. lia. }
  apply npages_lt in Hlt. destruct (page_addr v) as (Hva & Hpd & Hpt); [rewrite UPAGES_eq in *; lia|].
  destruct (pts !! (v / 1024)) as [t|] eqn:Et.
  - rewrite (bind_done _ _ _ _ _ _ (walkpgdir_present n m d l pgdir pts e (v * PGSIZE) false t
      (uo_vm _ _ _ _ _ _ Huo) Hva ltac:(by rewrite Hpd))), Hpt.
    rewrite (proj2 (Z.eqb_neq _ _)).
    2:{ destruct (vm_table_ok (uo_vm _ _ _ _ _ _ Huo) _ _ Et) as (_ & _ & ? & _).
        pose proof (Z.mod_pos_bound v 1024). unfold KERNBASE in *. lia. }
    destruct (dealloc_body_done d l e us v t) as (d1 & rm1 & e1 & us1 & Hb & Hst1); [done | done | lia | done |].
    unfold dealloc_body in Hb. rewrite (bind_done _ _ _ _ _ _ (load32M_done n m _ d)) in Hb.
    rewrite (bind_done _ _ _ _ _ _ (load32M_done n m _ d)).
    rewrite (bind_done _ _ _ _ _ _ Hb), u32_small by (rewrite UPAGES_eq in *; unfold PGSIZE; lia).
    replace (v * PGSIZE + PGSIZE) with ((v + 1) * PGSIZE) by lia.
    destruct (IH (v + 1) d1 (rm1 ++ l) e1 us1) as (d2 & rm2 & e2 & us2 & Hl & Hst2);
      [eapply can_lock_frame; [apply Hst1 | done] | apply Hst1 | lia | done | lia |].
    exists d2, (rm2 ++ rm1), e2, us2. split; [done|]. eapply dealloc_trans; [|done|done]. lia.
  - rewrite (bind_done _ _ _ _ _ _ (walkpgdir_absent n m d l pgdir pts e (v * PGSIZE)
      (uo_vm _ _ _ _ _ _ Huo) Hva ltac:(by rewrite Hpd))). cbn [Z.eqb].
    rewrite PGADDR_next by lia.
    assert (v < (v / 1024 + 1) * 1024) by (Z.div_mod_to_equations; lia).
    destruct (IH ((v / 1024 + 1) * 1024) d l e us) as (d2 & rm2 & e2 & us2 & Hl & Hst2); [done | done | lia | done | lia |].
    exists d2, rm2, e2, us2. split; [done|]. eapply dealloc_ext; [done | lia | lia |].
    intros u Hu Hn. eapply no_table_no_page; [done | done | lia].
Qed.

Lemma deallocuvm_done d l e us oldsz newsz :
  can_lock m d → uvm_ok d l pgdir pts e us → 0 <= newsz < oldsz → oldsz <= KERNBASE →
  ∃ d' rm e' us', deallocuvm pgdir oldsz newsz n (K m d) = Done newsz (K m d')
    ∧ dealloc_step d l pgdir pts e us (npages newsz) (npages oldsz) d' rm e' us'.
Proof.
  intros Hcl Huo Hnew Hold. unfold deallocuvm. rewrite Z.geb_leb, (proj2 (Z.leb_gt _ _)) by lia.
  rewrite PGROUNDUP_npages by lia. pose proof (npages_range newsz ltac:(lia)).
  destruct (deallocuvm_loop_done (S (Z.to_nat (oldsz / PGSIZE) + 1)) (npages newsz) oldsz d l e us)
    as (d' & rm & e' & us' & Hl & Hst); [done | done | lia | lia | |].
  { unfold npages, PGSIZE, KERNBASE in *. Z.div_mod_to_equations. lia. }
  rewrite (bind_done _ _ _ _ _ _ Hl). by exists d', rm, e', us'.
Qed.
End dealloc.

(** ** freevm *)

Section free.
Context (n : nat) (m : mach) (pgdir : Z).

(** What is left of the page table while freevm gives back the tables from
    entry [i] on. *)
Record tables_ok (d : kdata) (l : list Z) (pts : gmap Z Z) (i : Z) : Prop := {
  to_kmem : kmem_ok d l;
  to_pages : Forall (page_ok (d_im d)) (vmpages pgdir pts);
  to_apart : NoDup (l ++ vmpages pgdir pts);
  to_dom : ∀ j t, pts !! j = Some t → i <= j < 1024;
  to_pde : ∀ j, i <= j < 1024 →
    load32 (mm_mem (d_mm d)) (pgdir + 4 * j) = default 0 ((λ t, entry t 7) <$> pts !! j)
}.

Lemma vmpages_delete pts i t : pts !! i = Some t → vmpages pgdir pts ≡ₚ t :: vmpages pgdir (delete i pts).
Proof. intros H. rewrite <- vmpages_insert by apply lookup_delete_eq. by rewrite insert_delete_id. Qed.

(** Giving back a page that is not the directory. *)
Lemma tables_ok_kfree d l pts i t :
  tables_ok d l pts i → 0 <= i → pts !! i = Some t →
  tables_ok (d <| d_mm := kfree_mm t (d_mm d) |>) (t :: l) (delete i pts) (i + 1).
Proof.
  intros [Hk Hp Ha Hd He] Hi Ht. rewrite (vmpages_delete _ _ _ Ht) in Hp, Ha.
  inversion Hp as [|? ? Htok Hp']; subst. rewrite <- Permutation_middle in Ha. apply NoDup_cons in Ha as [Hn Ha].
  assert (Hdir : t + PGSIZE <= pgdir ∨ pgdir + PGSIZE <= t).
  { inversion Hp' as [|? ? Hpg _]; subst. apply pages_apart; [apply Htok | apply Hpg |].
    intros ->. apply Hn, elem_of_app. right. apply elem_of_vmpages. by left. }
  split.
  - apply kfree_mm_push; [done | | done | by eapply freelist_u32]. intros H. apply Hn, elem_of_app. by left.
  - done.
  - by constructor.
  - intros j s [Hne Hj]%lookup_delete_Some. specialize (Hd _ _ Hj). lia.
  - intros j Hj. rewrite lookup_delete_ne by lia. rewrite <- He by lia.
    apply load32_frame. intros b Hb. apply kfree_mm_lookup. unfold PGSIZE in *. lia.
Qed.
Lemma tables_ok_skip d l pts i : tables_ok d l pts i → pts !! i = None → tables_ok d l pts (i + 1).
Proof.
  intros [Hk Hp Ha Hd He] Hn. split; try done.
  - intros j t Hj. specialize (Hd _ _ Hj). destruct (decide (j = i)) as [->|]; [congruence | lia].
  - intros j Hj. apply He. lia.
Qed.

Definition free_table (i : Z) : KM unit :=
  e ← load32M (pgdir + 4 * i);
  if ctrue (Z.land e PTE_P) then let v := P2V (PTE_ADDR e) in kfree v else mret tt.

Lemma free_tables_done k d l pts i :
  can_lock m d → 0 <= i → i + Z.of_nat k = 1024 → tables_ok d l pts i →
  ∃ d' l', forM (seqZ i (Z.of_nat k)) free_table n (K m d) = Done tt (K m d')
    ∧ tables_ok d' l' ∅ 1024 ∧ l' ≡ₚ (map_to_list pts).*2 ++ l
    ∧ kmem_frame (map_to_list pts).*2 d d'.
Proof.
  revert d l pts i. induction k as [|k IH]; intros d l pts i Hcl Hi Hk Hto.
  { assert (i = 1024) as -> by lia. assert (pts = ∅) as ->.
    { apply map_empty. intros j. destruct (pts !! j) as [t|] eqn:Ej; [|done].
      pose proof (to_dom _ _ _ _ Hto _ _ Ej). lia. }
    exists d, l. split_and!; [done | done | by rewrite map_to_list_empty | apply kmem_frame_refl]. }
  rewrite seqZ_cons by lia. replace (Z.pred (Z.of_nat (S k))) with (Z.of_nat k) by lia.
  replace (Z.succ i) with (i + 1) by lia. cbn [forM].
  pose proof (to_pde _ _ _ _ Hto i ltac:(lia)) as He. destruct (pts !! i) as [t|] eqn:Et.
  - assert (Htok : page_ok (d_im d) t).
    { pose proof (to_pages _ _ _ _ Hto) as H. rewrite Forall_forall in H. apply H, elem_of_vmpages. eauto. }
    rewrite (bind_done _ _ _ (K m d) tt (K m (d <| d_mm := kfree_mm t (d_mm d) |>))).
    2:{ unfold free_table. rewrite (bind_done _ _ _ _ _ _ (load32M_done n m _ d)), He. simpl.
        rewrite (entry_P (d_im d)), (entry_addr (d_im d)), (P2V_V2P (d_im d)) by (done || unfold PGSIZE; lia).
        by apply kfree_done. }
    destruct (IH (d <| d_mm := kfree_mm t (d_mm d) |>) (t :: l) (delete i pts) (i + 1)) as (d' & l' & Hl & H1 & H2 & H3);
      [by eapply can_lock_same | lia | lia | by apply tables_ok_kfree |].
    assert (Hperm : (map_to_list pts).*2 ≡ₚ t :: (map_to_list (delete i pts)).*2)
      by by rewrite <- (map_to_list_delete _ _ _ Et).
    exists d', l'. split_and!; [done | done | by rewrite H2, Hperm, <- Permutation_middle |].
    eapply kmem_frame_mono; [|eapply (kmem_frame_trans [t]); [|exact H3]].
    + intros y Hy. rewrite Hperm. done.
    + split_and!; [by destruct d as [? []] | done | done |]. intros b Hb. apply kfree_mm_lookup, Hb, list_elem_of_here.
  - rewrite (bind_done _ _ _ (K m d) tt (K m d)).
    2:{ unfold free_table. by rewrite (bind_done _ _ _ _ _ _ (load32M_done n m _ d)), He. }
    destruct (IH d l pts (i + 1)) as (d' & l' & H); [done | lia | lia | by apply tables_ok_skip |].
    by exists d', l'.
Qed.

Lemma freevm_done d l pts e us :
  can_lock m d → uvm_ok d l pgdir pts e us →
  ∃ d' l', freevm pgdir n (K m d) = Done tt (K m d')
    ∧ kmem_ok d' l' ∧ l' ≡ₚ l ++ vmpages pgdir pts ++ upages us
    ∧ kmem_frame (vmpages pgdir pts ++ upages us) d d'.
Proof.
  intros Hcl Huo. unfold freevm. pose proof (vm_pgdir_ok (uo_vm _ _ _ _ _ _ Huo)) as Hpg.
  rewrite (proj2 (Z.eqb_neq pgdir 0)) by (destruct Hpg as (_ & _ & ? & _); unfold KERNBASE in *; lia).
  destruct (deallocuvm_done n m pgdir pts d l e us KERNBASE 0) as (d1 & rm & e1 & us1 & H1 & Hst); [done | done | done | done |].
  rewrite (bind_done _ _ _ _ _ _ H1). destruct Hst as [Huo1 Hus _ Hpages Hfr1].
  assert (us1 = ∅) as ->.
  { apply map_empty. intros v. destruct (us1 !! v) as [[x f]|] eqn:Ev; [|done].
    destruct (ue_dom _ _ (uo_user _ _ _ _ _ _ Huo1) _ _ _ Ev) as (Hv & _).
    rewrite Hus, decide_True in Ev; [done|]. done. }
  unfold upages in Hpages at 2. rewrite map_to_list_empty, app_nil_r in Hpages.
  pose proof (uo_vm _ _ _ _ _ _ Huo1) as Hvm1.
  change NPDENTRIES with (Z.of_nat 1024).
  destruct (free_tables_done 1024 d1 (rm ++ l) pts 0) as (d2 & l2 & H2 & Hto & Hl2 & Hfr2);
    [by eapply can_lock_frame | lia | lia | by destruct Hvm1 |].
  change (forM (seqZ 0 (Z.of_nat 1024)) _) with (forM (seqZ 0 (Z.of_nat 1024)) free_table).
  rewrite (bind_done _ _ _ _ _ _ H2).
  assert (Him : d_im d2 = d_im d) by (rewrite (kmem_frame_im _ _ _ Hfr2); by eapply kmem_frame_im).
  assert (Hcl2 : can_lock m d2) by (eapply can_lock_frame; [exact Hfr2|]; by eapply can_lock_frame).
  destruct Hto as [Hk2 Hp2 Ha2 _ _]. unfold vmpages in Ha2. rewrite map_to_list_empty in Ha2. simpl in Ha2.
  rewrite (Permutation_app_comm l2) in Ha2. apply NoDup_cons in Ha2 as [Hn2 Ha2].
  exists (d2 <| d_mm := kfree_mm pgdir (d_mm d2) |>), (pgdir :: l2).
  rewrite kfree_done by (done || by rewrite Him). split_and!; [done | | |].
  - apply kfree_mm_push; [by rewrite Him | done | done | by eapply freelist_u32].
  - rewrite Hl2, Hpages. unfold vmpages. simpl. rewrite <- Permutation_middle. f_equiv.
    rewrite (app_assoc l), (Permutation_app_comm l). rewrite (Permutation_app_comm rm l). by rewrite app_assoc.
  - eapply kmem_frame_mono; [|eapply kmem_frame_trans; [exact Hfr1 | eapply (kmem_frame_trans _ [pgdir]); [exact Hfr2|]]].
    + intros y. unfold vmpages. rewrite Hpages, !elem_of_app, !elem_of_cons, elem_of_nil. tauto.
    + split_and!; [by destruct d2 as [? []] | done | done |]. intros b Hb. apply kfree_mm_lookup, Hb, list_elem_of_here.
Qed.
End free.

(** ** setupkvm *)

Definition ksize (k : kmap) : Z := phys_end k -u phys_start k.
(** The mappings of the list are page-aligned and lie, in order, above [lo]. *)
Fixpoint kmaps_above (lo : Z) (ks : list kmap) : Prop :=
  match ks with
  | [] => True
  | k :: ks' =>
    lo <= virt k ∧ virt k mod PGSIZE = 0 ∧ 0 < ksize k ∧ ksize k mod PGSIZE = 0 ∧ virt k + ksize k <= 2 ^ 32
    ∧ 0 <= phys_start k ∧ phys_start k mod PGSIZE = 0 ∧ phys_start k + ksize k <= 2 ^ 32 ∧ 0 <= perm k < PGSIZE
    ∧ kmaps_above (virt k + ksize k) ks'
  end.
(** The entries they make. *)
Fixpoint kmaps_entries (ks : list kmap) (e : Z → Z) : Z → Z :=
  match ks with
  | [] => e
  | k :: ks' =>
    kmaps_entries ks' (map_range (virt k / PGSIZE) (ksize k / PGSIZE) (phys_start k) (perm k) e)
  end.

Lemma aligned_pages va size :
  va mod PGSIZE = 0 → size mod PGSIZE = 0 → 0 < size →
  more_pages va size = size / PGSIZE - 1 ∧ (va + size - 1) / PGSIZE = va / PGSIZE + size / PGSIZE - 1.
Proof.
  intros Ha Hs Hsz. unfold more_pages, PGSIZE in *.
  assert (size = size / 4096 * 4096 ∧ va = va / 4096 * 4096) as [Es Ea] by (Z.div_mod_to_equations; lia).
  assert ((va + size - 1) / 4096 = va / 4096 + size / 4096 - 1); [|lia].
  rewrite Es, Ea at 1. Z.div_mod_to_equations. lia.
Qed.

Section setup.
Context (n : nat) (m : mach).

Lemma map_kernel_done ks lo pgdir d l pts e :
  can_lock m d → vm_ok d l pgdir pts e → kmaps_above lo ks → 0 <= lo → lo mod PGSIZE = 0 →
  (∀ v, lo / PGSIZE <= v → e v mod 2 = 0) →
  ∃ r d' l' pts' e', map_kernel pgdir ks n (K m d) = Done r (K m d')
    ∧ vm_step d l pgdir pts d' l' pts' e' ∧ (∀ v, v < lo / PGSIZE → e' v = e v)
    ∧ (r = None ∧ (∀ v, e' v = kmaps_entries ks e v) ∨ r = Some tt ∧ l' = []).
Proof.
  revert lo d l pts e. induction ks as [|k ks IH]; intros lo d l pts e Hcl Hvm Hks Hlo Hal He.
  { exists None, d, l, pts, e. split_and!; [done | by apply vm_step_refl | done | by left]. }
  destruct Hks as (Hlk & Hva & Hsz & Hsa & Hend & Hp0 & Hpa & Hpend & Hperm & Hks).
  destruct (aligned_pages _ _ Hva Hsa Hsz) as [Hmp Hlast].
  assert (Hpg : lo / PGSIZE <= virt k / PGSIZE ∧ 0 < ksize k / PGSIZE ∧ ksize k / PGSIZE * PGSIZE = ksize k).
  { unfold PGSIZE in *. Z.div_mod_to_equations. lia. }
  unfold map_kernel. cbn [searchM].
  destruct (mappages_done n m pgdir (perm k) Hperm (virt k) (ksize k) (phys_start k) d l pts e)
    as (r & d1 & l1 & pts1 & j & Hm & Hst & Hr);
    [done | done | lia | done | done | done | done | unfold PGSIZE in *; lia | intros v Hv; apply He; lia |].
  fold (ksize k). rewrite (bind_done _ _ _ (K m d) (if r <? 0 then Some tt else None) (K m d1)).
  2:{ by rewrite (bind_done _ _ _ _ _ _ Hm). }
  assert (Hlow : ∀ v, v < lo / PGSIZE → map_range (virt k / PGSIZE) j (phys_start k) (perm k) e v = e v).
  { intros v Hv. unfold map_range. by rewrite decide_False by lia. }
  destruct Hr as [[-> ->]|(-> & Hj & -> & _)]; cbn [Z.ltb Z.compare].
  - rewrite Hmp in *. replace (ksize k / PGSIZE - 1 + 1) with (ksize k / PGSIZE) in * by lia.
    destruct (IH (virt k + ksize k) d1 l1 pts1 (map_range (virt k / PGSIZE) (ksize k / PGSIZE) (phys_start k) (perm k) e))
      as (r & d2 & l2 & pts2 & e2 & Hl & Hst2 & Hlow2 & Hr2);
      [eapply can_lock_frame; [apply Hst | done] | apply Hst | done | lia
      | unfold PGSIZE in *; Z.div_mod_to_equations; lia | |].
    { intros v Hv. unfold map_range. rewrite decide_False; [apply He|]; unfold PGSIZE in *; Z.div_mod_to_equations; lia. }
    exists r, d2, l2, pts2, e2. split_and!; [exact Hl | by eapply vm_step_trans | | done].
    intros v Hv. rewrite Hlow2, Hlow; [done | done |]. unfold PGSIZE in *. Z.div_mod_to_equations. lia.
  - eexists (Some tt), d1, [], pts1, _. split_and!; [done | exact Hst | done | by right].
Qed.

(** A fresh page, cleared, is an empty page directory. *)
Definition new_dir (x : Z) (d : kdata) : kdata :=
  upd_mem (λ m, memset m x 0 PGSIZE) (d <| d_mm := kalloc_mm (d_mm d) |>).
Lemma vm_ok_new_dir d x l : kmem_ok d (x :: l) → vm_ok (new_dir x d) l x ∅ (λ _, 0).
Proof.
  intros Hk. destruct (kalloc_mm_pop _ _ _ Hk) as (_ & Hkm & Hk'). destruct Hk as [_ Hp Hn].
  inversion Hp as [|? ? Hx Hpl]; subst. apply NoDup_cons in Hn as [Hxl Hn]. split.
  - apply (kmem_ok_frame (d <| d_mm := kalloc_mm (d_mm d) |>)); [done | done | | done].
    intros y b Hy Hb. simpl. rewrite memset_lookup, decide_False; [done | | unfold PGSIZE; lia].
    rewrite Forall_forall in Hpl. assert (x ≠ y) as Hne by (by intros ->).
    destruct (pages_apart x y); [apply Hx | by apply (Hpl y) | done | lia | lia].
  - unfold vmpages. rewrite map_to_list_empty. by constructor.
  - unfold vmpages. rewrite map_to_list_empty. simpl. rewrite (Permutation_app_comm l). simpl. by constructor.
  - intros i t Hi. by rewrite lookup_empty in Hi.
  - intros i Hi. rewrite lookup_empty. simpl. unfold load32. rewrite !memset_lookup, !decide_True by (unfold PGSIZE; lia). done.
  - done.
Qed.
Lemma new_dir_frame d x l : kmem_ok d (x :: l) → kmem_frame [x] d (new_dir x d).
Proof.
  intros Hk. eapply (kmem_frame_trans []); [by eapply kmem_frame_kalloc|]. apply kmem_frame_upd_mem.
  intros b Hb. rewrite memset_lookup, decide_False; [done | apply Hb, list_elem_of_here | unfold PGSIZE; lia].
Qed.

(** What the linker script makes sure of: the data starts on a page. *)
Record image_ok (im : image) : Prop := {
  io_data : im_data im mod PGSIZE = 0;
  io_lo : KERNLINK < im_data im;
  io_hi : im_data im < KERNBASE + PHYSTOP
}.
Definition kernel_entries (im : image) : Z → Z := kmaps_entries (kmaps im) (λ _, 0).

Lemma kmaps_ok im : image_ok im → kmaps_above KERNBASE (kmaps im).
Proof.
  intros [Ha Hlo Hhi]. unfold kmaps. cbn [kmaps_above]. unfold ksize. cbn [virt phys_start phys_end perm].
  assert (Hd : V2P (im_data im) = im_data im - KERNBASE).
  { unfold V2P. apply u32_small. unfold KERNLINK, KERNBASE, EXTMEM, PHYSTOP in *. lia. }
  rewrite Hd. change (V2P KERNLINK) with EXTMEM. change (DEVSPACE) with 0xFE000000. change (0 -u 0xFE000000) with 0x2000000.
  unfold KERNLINK, KERNBASE, EXTMEM, PHYSTOP, PGSIZE, PTE_W in *.
  rewrite (u32_small (0x100000 - 0)), (u32_small (im_data im - _ - _)), (u32_small (0xE000000 - _)) by lia.
  split_and!; try done; try lia; Z.div_mod_to_equations; lia.
Qed.

Lemma kmaps_entries_low ks lo e v : kmaps_above lo ks → v < lo / PGSIZE → kmaps_entries ks e v = e v.
Proof.
  revert lo e. induction ks as [|k ks IH]; intros lo e Hks Hv; [done|]. cbn [kmaps_entries].
  destruct Hks as (Hlk & Hva & Hsz & Hsa & _ & _ & _ & _ & _ & Hks).
  rewrite (IH (virt k + ksize k)); [| done |].
  - unfold map_range. rewrite decide_False; [done|]. unfold PGSIZE in *. Z.div_mod_to_equations. lia.
  - unfold PGSIZE in *. Z.div_mod_to_equations. lia.
Qed.

Lemma setupkvm_done d l :
  can_lock m d → kmem_ok d l → image_ok (d_im d) →
  ∃ r d' l', setupkvm n (K m d) = Done r (K m d') ∧ kmem_frame l d d' ∧ kmem_ok d' l'
    ∧ (r = 0 ∧ l' ≡ₚ l
       ∨ ∃ pts, r ≠ 0 ∧ vm_ok d' l' r pts (kernel_entries (d_im d)) ∧ l' ++ vmpages r pts ≡ₚ l ∧ ∃ k, l' = drop k l).
Proof.
  intros Hcl Hk Him. unfold setupkvm. rewrite (bind_done _ _ _ _ _ _ (kalloc_done n m d Hcl)).
  destruct l as [|x l].
  { destruct (kalloc_mm_nil d Hk) as [-> ->]. rewrite eta_mm. exists 0, d, [].
    split_and!; [done | apply kmem_frame_refl | done | by left]. }
  destruct (kalloc_mm_pop _ _ _ Hk) as (-> & _ & _).
  assert (Hx : x ≠ 0) by (pose proof (pages_nonnull _ _ (ko_pages _ _ Hk)) as H; by inversion H).
  rewrite (proj2 (Z.eqb_neq x 0) Hx).
  rewrite (bind_done _ _ _ _ tt (K m (new_dir x d))) by done.
  change (P2V PHYSTOP >? DEVSPACE) with false. cbv iota.
  rewrite (bind_done _ _ _ _ (d_im d) (K m (new_dir x d))) by done.
  pose proof (new_dir_frame _ _ _ Hk) as Hfr0.
  destruct (map_kernel_done (kmaps (d_im d)) KERNBASE x (new_dir x d) l ∅ (λ _, 0))
    as (r & d1 & l1 & pts1 & e1 & Hm & Hst & Hlow & Hr);
    [by eapply can_lock_frame | by apply vm_ok_new_dir | by apply kmaps_ok | done | done | done |].
  rewrite (bind_done _ _ _ _ _ _ Hm). destruct Hst as [Hvm1 Hfr1 Hpg1 _ [k Hk1]].
  unfold vmpages in Hfr1, Hpg1 at 2. rewrite map_to_list_empty in Hfr1, Hpg1. simpl in Hfr1, Hpg1.
  rewrite (Permutation_app_comm l) in Hpg1. simpl in Hpg1.
  assert (Hfr : kmem_frame (x :: l) d d1).
  { eapply kmem_frame_mono; [|eapply kmem_frame_trans; [exact Hfr0 | exact Hfr1]].
    intros y. rewrite !elem_of_app, !elem_of_cons, elem_of_nil. tauto. }
  destruct Hr as [[-> He]|[-> ->]].
  - exists x, d1, l1. split_and!; [done | done | apply Hvm1 |]. right. exists pts1. split_and!; [done | | done |].
    + eapply vm_ok_ext; [|exact Hvm1]. intros v _. apply He.
    + exists (S k). done.
  - assert (Huo : uvm_ok d1 [] x pts1 e1 ∅).
    { split; [done | | by constructor | by rewrite app_nil_r; apply Hvm1]. split; [|by intros].
      intros v Hv. rewrite lookup_empty. apply Hlow. apply Hv. }
    destruct (freevm_done n m x d1 [] pts1 e1 ∅) as (d2 & l2 & Hf & Hk2 & Hl2 & Hfr2); [by eapply can_lock_frame | done |].
    rewrite (bind_done _ _ _ _ _ _ Hf). unfold upages in Hl2, Hfr2. rewrite map_to_list_empty, app_nil_r in Hl2, Hfr2.
    exists 0, d2, l2. split_and!; [done | | done | left; split; [done | by rewrite Hl2]].
    eapply kmem_frame_trans_in; [|exact Hfr | exact Hfr2]. intros y. by rewrite <- Hpg1.
Qed.
End setup.

(** ** allocuvm *)

(** Page tables may come and go around the user pages. *)
Lemma uvm_vm_step d l pgdir pts e us d' l' pts' e' :
  uvm_ok d l pgdir pts e us → vm_step d l pgdir pts d' l' pts' e' → user_ok e' us →
  uvm_ok d' l' pgdir pts' e' us.
Proof.
  intros [Hvm Hu Hp Ha] [Hvm' Hfr Hpg _ _] Hu'. split; [done | done | |].
  - by rewrite (kmem_frame_im _ _ _ Hfr).
  - rewrite app_assoc in Ha |- *. by rewrite Hpg.
Qed.
Record alloc_step (d : kdata) (l : list Z) (pgdir : Z) (pts : gmap Z Z) (e : Z → Z) (us : gmap Z (Z * Z))
    (lo hi : Z) (d' : kdata) (l' : list Z) (pts' : gmap Z Z) (e' : Z → Z) (us' : gmap Z (Z * Z)) : Prop := {
  as_ok : uvm_ok d' l' pgdir pts' e' us';
  as_old : ∀ u, ¬ (lo <= u < hi) → us' !! u = us !! u;
  as_new : ∀ u, lo <= u < hi → ∃ x, us' !! u = Some (x, 7) ∧ x ∈ l
    ∧ ∀ b, x <= b < x + PGSIZE → mm_mem (d_mm d') b = 0;
  as_kernel : ∀ u, UPAGES <= u < 2 ^ 20 → e' u = e u;
  as_pages : l' ++ vmpages pgdir pts' ++ upages us' ≡ₚ l ++ vmpages pgdir pts ++ upages us;
  as_frame : kmem_frame (l ++ vmpages pgdir pts) d d';
  as_tables : pts ⊆ pts';
  as_free : l' ⊆ l;
  as_sub : l' ++ vmpages pgdir pts' ⊆ l ++ vmpages pgdir pts
}.

Lemma alloc_refl d l pgdir pts e us lo :
  uvm_ok d l pgdir pts e us → alloc_step d l pgdir pts e us lo lo d l pts e us.
Proof. intros H. split; try done; [lia | apply kmem_frame_refl]. Qed.

(** A page of [us] is neither free nor part of the page table. *)
Lemma uvm_apart d l pgdir pts e us u x f y :
  uvm_ok d l pgdir pts e us → us !! u = Some (x, f) → y ∈ l ++ vmpages pgdir pts →
  x + PGSIZE <= y ∨ y + PGSIZE <= x.
Proof.
  intros Huo Hu Hy. apply pages_apart.
  - by eapply (uo_page Huo).
  - apply elem_of_app in Hy as [Hy|Hy]; [by eapply (vm_free_ok (uo_vm _ _ _ _ _ _ Huo)), Hy|].
    by eapply (vm_page (uo_vm _ _ _ _ _ _ Huo)), Hy.
  - intros ->. by eapply (uo_own Huo).
Qed.

Lemma alloc_trans d1 l1 pgdir pts1 e1 us1 lo mid hi d2 l2 pts2 e2 us2 d3 l3 pts3 e3 us3 :
  lo <= mid <= hi →
  alloc_step d1 l1 pgdir pts1 e1 us1 lo mid d2 l2 pts2 e2 us2 →
  alloc_step d2 l2 pgdir pts2 e2 us2 mid hi d3 l3 pts3 e3 us3 →
  alloc_step d1 l1 pgdir pts1 e1 us1 lo hi d3 l3 pts3 e3 us3.
Proof.
  intros Hm [A1 A2 A3 A4 A5 A6 A7 A8 A9] [B1 B2 B3 B4 B5 B6 B7 B8 B9]. split.
  - done.
  - intros u Hu. rewrite B2, A2; [done | lia | lia].
  - intros u Hu. destruct (decide (u < mid)) as [Hlt|Hge].
    + destruct (A3 u) as (x & Hx & Hxl & Hz); [lia|]. exists x. rewrite B2 by lia. split_and!; [done | done |].
      intros b Hb. rewrite <- (Hz b Hb). destruct B6 as (_ & _ & _ & Hfr). apply Hfr.
      intros y Hy. destruct (uvm_apart _ _ _ _ _ _ _ _ _ y A1 Hx Hy); lia.
    + destruct (B3 u) as (x & Hx & Hxl & Hz); [lia|]. exists x. split_and!; [done | by apply A8 | done].
  - intros u Hu. rewrite B4, A4; done.
  - by rewrite B5.
  - by eapply kmem_frame_trans_in.
  - by etrans.
  - by etrans.
  - by etrans.
Qed.

(** The fresh page, cleared. *)
Definition fresh (x : Z) (d : kdata) : kdata := upd_mem (λ m, memset m x 0 PGSIZE) (d <| d_mm := kalloc_mm (d_mm d) |>).
Lemma fresh_zero x d b : x <= b < x + PGSIZE → mm_mem (d_mm (fresh x d)) b = 0.
Proof. intros Hb. simpl. by rewrite memset_lookup, decide_True by (done || unfold PGSIZE; lia). Qed.
Lemma fresh_frame d x l : kmem_ok d (x :: l) → kmem_frame [x] d (fresh x d).
Proof. apply new_dir_frame. Qed.

Lemma uvm_ok_fresh d x l pgdir pts e us :
  uvm_ok d (x :: l) pgdir pts e us →
  mm_freelist (d_mm d) = x ∧ page_ok (d_im d) x ∧ uvm_ok (fresh x d) l pgdir pts e us
  ∧ x ∉ l ++ vmpages pgdir pts ++ upages us.
Proof.
  intros Huo. pose proof Huo as [Hvm Hu Hp Ha].
  destruct (vm_ok_kalloc _ _ _ _ _ _ Hvm) as (Hx & Hxok & Hvm' & _ & Hxn).
  apply NoDup_cons in Ha as [Ha1 Ha2]. split_and!; [done | done | | done]. split; [|done..].
  eapply vm_ok_frame; [exact Hvm' | done | done |]. intros y b Hy Hb. simpl.
  rewrite memset_lookup, decide_False; [done | | unfold PGSIZE; lia].
  assert (x ≠ y) as Hne by (by intros ->).
  destruct (pages_apart x y); [apply Hxok | | done | lia | lia].
  apply elem_of_app in Hy as [Hy|Hy]; [by eapply (vm_free_ok Hvm'), Hy | by eapply (vm_page Hvm'), Hy].
Qed.

Lemma flags_odd perm : Z.lor perm PTE_P mod 2 = 1.
Proof.
  rewrite <- land_P, Z.land_comm, Z.land_lor_distr_r. change (Z.land PTE_P PTE_P) with 1.
  rewrite (Z.land_comm PTE_P), land_P. pose proof (Z.mod_pos_bound perm 2).
  assert (perm mod 2 = 0 ∨ perm mod 2 = 1) as [->| ->] by lia; done.
Qed.

Section alloc.
Context (n : nat) (m : mach) (pgdir : Z).

(** Mapping a page the process is to own. *)
Lemma map_page d l pts e us v x perm :
  can_lock m d → uvm_ok d l pgdir pts e us → us !! v = None → 0 <= v < UPAGES → 0 <= perm < PGSIZE →
  page_ok (d_im d) x → x ∉ l ++ vmpages pgdir pts ++ upages us →
  ∃ r d' l' pts' e', mappages pgdir (v * PGSIZE) PGSIZE (V2P x) perm n (K m d) = Done r (K m d')
    ∧ vm_step d l pgdir pts d' l' pts' e'
    ∧ (r = 0 ∧ uvm_ok d' l' pgdir pts' e' (<[v := (x, Z.lor perm PTE_P)]> us) ∧ (∀ u, UPAGES <= u → e' u = e u)
       ∨ r = -1 ∧ l' = [] ∧ uvm_ok d' [] pgdir pts' e' us ∧ ∀ u, e' u = e u).
Proof.
  intros Hcl Huo Hv Hvr Hperm Hx Hxn. pose proof Hvr as Hvr'. rewrite UPAGES_eq in Hvr'.
  destruct (V2P_page _ _ Hx) as (_ & Hpr & Hpm).
  assert (Hdiv : v * PGSIZE / PGSIZE = v ∧ more_pages (v * PGSIZE) PGSIZE = 0 ∧ (v * PGSIZE + PGSIZE - 1) / PGSIZE = v).
  { unfold more_pages. rewrite Z.div_mul by done. unfold PGSIZE. Z.div_mod_to_equations. lia. }
  destruct Hdiv as (Hd1 & Hd2 & Hd3).
  destruct (mappages_done n m pgdir perm Hperm (v * PGSIZE) PGSIZE (V2P x) d l pts e)
    as (r & d' & l' & pts' & j & Hm & Hst & Hr);
    [done | apply Huo | unfold PGSIZE; lia | done | unfold PGSIZE; lia | done | lia
    | rewrite Hd2; unfold PHYSTOP in *; lia | |].
  { rewrite Hd1, Hd3. intros u Hu. replace u with v by lia.
    rewrite (ue_entry _ _ (uo_user _ _ _ _ _ _ Huo)), Hv by done. done. }
  rewrite Hd1, ?Hd2 in *. eexists r, d', l', pts', _. split_and!; [done | exact Hst |].
  destruct Hr as [[-> ->]|(-> & Hj & -> & _)].
  - left. split; [done|]. split.
    + pose proof (flags_range perm Hperm).
      pose proof (flags_odd perm).
      pose proof (vs_pages _ _ _ _ _ _ _ _ Hst) as Hpg. pose proof (kmem_frame_im _ _ _ (vs_frame _ _ _ _ _ _ _ _ Hst)) as Him.
      destruct Huo as [Hvm [Hue Hud] Hp Ha]. split; [apply Hst | split | |].
      * intros u Hu. rewrite map_range_one. unfold set_pte. destruct (decide (u = v)) as [->|Hne].
        -- rewrite lookup_insert_eq. simpl. by rewrite mapped_eq.
        -- rewrite lookup_insert_ne by done. by apply Hue.
      * intros u y g [[<- [= <- <-]]|[_ Hu]]%lookup_insert_Some; [done | by eapply Hud].
      * rewrite upages_insert, Him by done. by constructor.
      * rewrite upages_insert by done. rewrite app_assoc, Hpg, <- app_assoc.
        rewrite app_assoc, <- Permutation_middle, <- app_assoc. by constructor.
    + intros u Hu. unfold map_range. rewrite decide_False by lia. done.
  - assert (j = 0) as -> by lia.
    assert (He : ∀ u, map_range v 0 (V2P x) perm e u = e u).
    { intros u. unfold map_range. by rewrite decide_False by lia. }
    right. split_and!; [done | done | | done]. eapply uvm_vm_step; [done | done |].
    destruct (uo_user _ _ _ _ _ _ Huo) as [Hue Hud]. split; [|done]. intros u Hu. rewrite He. by apply Hue.
Qed.

(** One round of allocuvm: a page is added, or memory is out and nothing but
    the page [x] is taken. *)
Lemma alloc_one d x l pts e us v :
  can_lock m d → uvm_ok d (x :: l) pgdir pts e us → us !! v = None → 0 <= v < UPAGES →
  ∃ r d' l' pts' e', mappages pgdir (v * PGSIZE) PGSIZE (V2P x) (Z.lor PTE_W PTE_U) n (K m (fresh x d)) = Done r (K m d')
    ∧ (r = 0 ∧ alloc_step d (x :: l) pgdir pts e us v (v + 1) d' l' pts' e' (<[v := (x, 7)]> us)
       ∨ r = -1 ∧ uvm_ok d' [] pgdir pts' e' us ∧ (∀ u, e' u = e u) ∧ pts ⊆ pts'
         ∧ x :: vmpages pgdir pts' ≡ₚ (x :: l) ++ vmpages pgdir pts
         ∧ kmem_frame ((x :: l) ++ vmpages pgdir pts) d d').
Proof.
  intros Hcl Huo Hv Hvr. destruct (uvm_ok_fresh _ _ _ _ _ _ _ Huo) as (Hfl & Hx & Huo1 & Hxn).
  pose proof (fresh_frame _ _ _ (vo_kmem _ _ _ _ _ (uo_vm _ _ _ _ _ _ Huo))) as Hfr0.
  destruct (map_page (fresh x d) l pts e us v x (Z.lor PTE_W PTE_U)) as (r & d' & l' & pts' & e' & Hm & Hst & Hr);
    [by eapply can_lock_frame | done | done | done | done | done | done |].
  exists r, d', l', pts', e'. split; [done|]. destruct Hst as [Hvm' Hfr Hpg Htb [k Hk]].
  assert (Hfr' : kmem_frame ((x :: l) ++ vmpages pgdir pts) d d').
  { eapply kmem_frame_mono; [|eapply kmem_frame_trans; [exact Hfr0 | exact Hfr]]. done. }
  destruct Hr as [(-> & Huo' & He)|(-> & -> & Huo' & He)]; [left | right]; (split; [done|]).
  - split; try done.
    + intros u Hu. apply lookup_insert_ne. lia.
    + intros u Hu. replace u with v by lia. exists x. rewrite lookup_insert_eq.
      split_and!; [done | apply list_elem_of_here |].
      intros b Hb. rewrite <- (fresh_zero x d b Hb). destruct Hfr as (_ & _ & _ & Hfr). apply Hfr.
      intros y Hy. destruct (uvm_apart _ _ _ _ _ _ v x 7 y Huo'); [by rewrite lookup_insert_eq | by rewrite Hpg | lia | lia].
    + intros u Hu. apply He. lia.
    + rewrite upages_insert by done. rewrite app_assoc, Hpg, <- Permutation_middle. by rewrite <- app_assoc.
    + rewrite Hk. intros y Hy. apply list_elem_of_further. apply (subseteq_drop k l y), Hy.
    + intros y. rewrite Hpg. intros Hy. by apply list_elem_of_further.
  - split_and!; [done | done | done | | done]. simpl. by rewrite <- Hpg.
Qed.

Lemma uvm_ok_cons d cn l pts e us : uvm_ok d l pgdir pts e us → uvm_ok (d <| d_cons := cn |>) l pgdir pts e us.
Proof. intros [[[] ? ? ? ? ?] ? ? ?]. split; [split; [split|..]|..]; done. Qed.
Lemma can_lock_cons d cn : can_lock m d → can_lock m (d <| d_cons := cn |>).
Proof. by apply can_lock_same. Qed.

(** After a failure: the user pages are the old ones again, and every page
    taken meanwhile is free or a page table. *)
Record alloc_failed (d : kdata) (l : list Z) (pts : gmap Z Z) (e : Z → Z) (us : gmap Z (Z * Z))
    (d' : kdata) (l' : list Z) (pts' : gmap Z Z) (e' : Z → Z) : Prop := {
  af_ok : uvm_ok d' l' pgdir pts' e' us;
  af_kernel : ∀ u, UPAGES <= u < 2 ^ 20 → e' u = e u;
  af_pages : l' ++ vmpages pgdir pts' ≡ₚ l ++ vmpages pgdir pts;
  af_frame : kmem_frame (l ++ vmpages pgdir pts) d (d' <| d_cons := d_cons d |>);
  af_tables : pts ⊆ pts'
}.

Context (i : nat) (c : cpu) (Hok : mach_ok m i c) (Hcons : lk_free m L_cons).

(** The cleaning up: the message, and the pages from [lo] on given back. *)
Lemma alloc_undo msg d0 l0 pts0 e0 us0 oldsz newsz v d l pts e us o :
  can_lock m d → cons_ok (d_cons d) → format (cstring msg) [] = Some (cstring msg) →
  0 <= oldsz < newsz → newsz <= KERNBASE → v <= npages newsz →
  (∀ u, npages oldsz <= u < npages newsz → us0 !! u = None) →
  uvm_ok d l pgdir pts e us → (∀ u, UPAGES <= u < 2 ^ 20 → e u = e0 u) → pts0 ⊆ pts →
  (∀ u, ¬ (npages oldsz <= u < v) → us !! u = us0 !! u) →
  o ++ l ++ vmpages pgdir pts ++ upages us ≡ₚ l0 ++ vmpages pgdir pts0 ++ upages us0 →
  kmem_frame (l0 ++ vmpages pgdir pts0) d0 d →
  ∃ d' l' e', (cprintf (cstring msg) [] ;; deallocuvm pgdir newsz oldsz) n (K m d) = Done oldsz (K m d')
    ∧ uvm_ok d' l' pgdir pts e' us0 ∧ (∀ u, UPAGES <= u < 2 ^ 20 → e' u = e0 u)
    ∧ o ++ l' ++ vmpages pgdir pts ≡ₚ l0 ++ vmpages pgdir pts0
    ∧ kmem_frame (l0 ++ vmpages pgdir pts0) d0 (d' <| d_cons := d_cons d0 |>).
Proof.
  intros Hcl Hcn Ht Hsz Hk Hv Hus0 Huo He Htb Hus Hpg Hfr.
  rewrite (bind_done _ _ _ _ _ _ (cprintf_done n m d i c _ _ _ Hok Hcons Hcn Ht)).
  set (d1 := d <| d_cons := cons_puts (cstring msg) (d_cons d) |>).
  destruct (deallocuvm_done n m pgdir pts d1 l e us newsz oldsz) as (d2 & rm & e2 & us2 & H2 & [D1 D2 D3 D4 D5]);
    [by apply can_lock_cons | by apply uvm_ok_cons | lia | lia |].
  assert (us2 = us0) as ->.
  { apply map_eq. intros u. rewrite D2. destruct (decide _) as [Hu|Hu]; [symmetry; by apply Hus0 | apply Hus; lia]. }
  assert (Hperm : o ++ (rm ++ l) ++ vmpages pgdir pts ≡ₚ l0 ++ vmpages pgdir pts0).
  { apply (Permutation_app_inv_r (upages us0)). 
    trans (l0 ++ vmpages pgdir pts0 ++ upages us0); [rewrite <- Hpg, D4; solve_Permutation | by rewrite app_assoc]. }
  exists d2, (rm ++ l), e2. split_and!; [done | done | | done |].
  - intros u Hu. rewrite D3, He; [done | done |]. pose proof (npages_range newsz). lia.
  - eapply kmem_frame_trans_in; [|exact Hfr|].
    2:{ destruct D5 as (F1 & F2 & F3 & F4). split_and!; [| done | done | exact F4].
        assert (d_cons d0 = d_cons d) as -> by (destruct Hfr as (E & _); by rewrite E).
        rewrite F1. subst d1. by destruct d. }
    intros y Hy. rewrite <- Hperm. revert Hy. rewrite !elem_of_app. tauto.
Qed.

Section loop.
Context (d0 : kdata) (l0 : list Z) (pts0 : gmap Z Z) (e0 : Z → Z) (us0 : gmap Z (Z * Z)) (oldsz newsz : Z).
Context (Hcl : can_lock m d0) (Hcn : cons_ok (d_cons d0)) (Hsz : 0 <= oldsz <= newsz) (Hk : newsz < KERNBASE)
  (Hus0 : ∀ u, npages oldsz <= u < npages newsz → us0 !! u = None).

Lemma alloc_step_cons v d l pts e us :
  alloc_step d0 l0 pgdir pts0 e0 us0 (npages oldsz) v d l pts e us → can_lock m d ∧ cons_ok (d_cons d).
Proof.
  intros Hst. pose proof (as_frame _ _ _ _ _ _ _ _ _ _ _ _ _ Hst) as Hfr.
  split; [by eapply can_lock_frame|]. destruct Hfr as (-> & _). done.
Qed.

(** The two ways the loop fails, at page [v]. *)
Lemma allocuvm_no_page v d pts e us :
  npages oldsz <= v < npages newsz →
  alloc_step d0 l0 pgdir pts0 e0 us0 (npages oldsz) v d [] pts e us →
  ∃ d' l' e', (cprintf (cstring "allocuvm out of memory\n") [] ;; _ ← deallocuvm pgdir newsz oldsz; mret 0) n (K m d)
      = Done 0 (K m d')
    ∧ alloc_failed d0 l0 pts0 e0 us0 d' l' pts e'.
Proof.
  intros Hv Hst. destruct (alloc_step_cons _ _ _ _ _ _ Hst) as [Hcl1 Hcn1]. destruct Hst as [A1 A2 A3 A4 A5 A6 A7 A8 A9].
  assert (oldsz < newsz) by (unfold npages, PGSIZE in Hv; Z.div_mod_to_equations; lia).
  destruct (alloc_undo "allocuvm out of memory\n" d0 l0 pts0 e0 us0 oldsz newsz v d [] pts e us [])
    as (d' & l' & e' & Hu & U1 & U2 & U3 & U4); [done | done | by vm_compute | lia | lia | lia | done..|].
  destruct (bind_done_inv _ _ _ _ _ _ Hu) as (a & s1 & Hc & Hd).
  exists d', l', e'. rewrite (bind_done _ _ _ _ _ _ Hc), (bind_done _ _ _ _ _ _ Hd). split; [done|]. by split.
Qed.

Lemma allocuvm_no_table v d x l pts e us d1 pts1 e1 :
  npages oldsz <= v < npages newsz →
  alloc_step d0 l0 pgdir pts0 e0 us0 (npages oldsz) v d (x :: l) pts e us →
  uvm_ok d1 [] pgdir pts1 e1 us → (∀ u, e1 u = e u) → pts ⊆ pts1 →
  x :: vmpages pgdir pts1 ≡ₚ (x :: l) ++ vmpages pgdir pts → kmem_frame ((x :: l) ++ vmpages pgdir pts) d d1 →
  ∃ d' l' e', (cprintf (cstring "allocuvm out of memory (2)\n") [] ;; _ ← deallocuvm pgdir newsz oldsz;
      kfree x ;; mret 0) n (K m d1)
      = Done 0 (K m d')
    ∧ alloc_failed d0 l0 pts0 e0 us0 d' l' pts1 e'.
Proof.
  intros Hv Hst Huo1 He1 Htb1 Hpg1 Hfr1. destruct (alloc_step_cons _ _ _ _ _ _ Hst) as [Hcl1 Hcn1].
  destruct Hst as [A1 A2 A3 A4 A5 A6 A7 A8 A9].
  assert (oldsz < newsz) by (unfold npages, PGSIZE in Hv; Z.div_mod_to_equations; lia).
  assert (Hfr : kmem_frame (l0 ++ vmpages pgdir pts0) d0 d1) by by eapply kmem_frame_trans_in.
  destruct (alloc_undo "allocuvm out of memory (2)\n" d0 l0 pts0 e0 us0 oldsz newsz v d1 [] pts1 e1 us [x])
    as (d' & l' & e' & Hu & U1 & U2 & U3 & U4);
    [by eapply can_lock_frame | by destruct Hfr1 as (-> & _) | by vm_compute | lia | lia | lia | done | done
    | intros u Hu; rewrite He1; by apply A4 | by etrans | done | | done |].
  { simpl. trans (((x :: l) ++ vmpages pgdir pts) ++ upages us); [|by rewrite <- app_assoc].
    by rewrite <- Hpg1. }
  destruct (bind_done_inv _ _ _ _ _ _ Hu) as (a & s1 & Hc & Hd).
  assert (Him : d_im d' = d_im d0) by by apply kmem_frame_im in U4.
  assert (Hx : page_ok (d_im d') x).
  { rewrite Him, <- (kmem_frame_im _ _ _ A6). apply (vm_free_ok (uo_vm _ _ _ _ _ _ A1)), list_elem_of_here. }
  assert (Hxn : x ∉ l' ++ vmpages pgdir pts1 ++ upages us0).
  { pose proof (uo_apart _ _ _ _ _ _ A1) as Hnd. rewrite A5, app_assoc, <- U3 in Hnd.
    simpl in Hnd. apply NoDup_cons in Hnd as [Hnd _]. by rewrite app_assoc. }
  rewrite (bind_done _ _ _ _ _ _ Hc), (bind_done _ _ _ _ _ _ Hd).
  rewrite (bind_done _ _ _ _ _ _ (kfree_done n m d' x ltac:(eapply can_lock_same; [|exact Hcl]; apply U4) Hx)).
  eexists _, (x :: l'), e'. split; [done|]. split; [| done | done | | by etrans].
  - destruct U1 as [V1 V2 V3 V4]. split; [apply vm_ok_kfree; [done | done |] | done | done | by constructor].
    intros Hin. apply Hxn. rewrite app_assoc. apply elem_of_app. by left.
  - eapply (kmem_frame_trans_in _ [x]); [|exact U4|].
    + intros y Hy%list_elem_of_singleton. subst y. rewrite <- U3. apply list_elem_of_here.
    + split_and!; [by destruct d' | done | done |]. intros b Hb. apply kfree_mm_lookup, Hb, list_elem_of_here.
Qed.

Lemma allocuvm_loop_done fuel v d l pts e us :
  npages oldsz <= v <= npages newsz → npages newsz - v < Z.of_nat fuel →
  alloc_step d0 l0 pgdir pts0 e0 us0 (npages oldsz) v d l pts e us →
  ∃ r d' l' pts' e' us', allocuvm_loop fuel pgdir (v * PGSIZE) oldsz newsz n (K m d) = Done r (K m d')
    ∧ (r = newsz ∧ alloc_step d0 l0 pgdir pts0 e0 us0 (npages oldsz) (npages newsz) d' l' pts' e' us'
       ∨ r = 0 ∧ us' = us0 ∧ alloc_failed d0 l0 pts0 e0 us0 d' l' pts' e').
Proof.
  revert v d l pts e us. induction fuel as [|fuel IH]; intros v d l pts e us Hv Hf Hst; [lia|].
  cbn [allocuvm_loop]. destruct (Z.ltb_spec (v * PGSIZE) newsz) as [Hlt|Hge]; cbn [negb].
  2:{ exists newsz, d, l, pts, e, us. split; [done|]. left. split; [done|].
      assert (¬ v < npages newsz) by (intros H%npages_lt; lia). by replace (npages newsz) with v by lia. }
  apply npages_lt in Hlt. destruct (alloc_step_cons _ _ _ _ _ _ Hst) as [Hcl1 Hcn1].
  pose proof (as_ok _ _ _ _ _ _ _ _ _ _ _ _ _ Hst) as Huo.
  rewrite (bind_done _ _ _ _ _ _ (kalloc_done n m d Hcl1)). destruct l as [|x l].
  { destruct (kalloc_mm_nil d (vo_kmem _ _ _ _ _ (uo_vm _ _ _ _ _ _ Huo))) as [-> ->]. rewrite eta_mm. cbn [Z.eqb].
    destruct (allocuvm_no_page v d pts e us) as (d' & l' & e' & Hu & Ha); [lia | done |].
    exists 0, d', l', pts, e', us0. split; [exact Hu | by right]. }
  destruct (uvm_ok_fresh _ _ _ _ _ _ _ Huo) as (-> & Hx & _ & _).
  rewrite (proj2 (Z.eqb_neq x 0)) by (destruct Hx as (_ & _ & ? & _); unfold KERNBASE in *; lia).
  rewrite (bind_done _ _ _ _ tt (K m (fresh x d))) by done.
  pose proof (npages_range oldsz ltac:(lia)) as Hr0. pose proof (npages_range newsz ltac:(lia)) as Hr1.
  destruct (alloc_one d x l pts e us v) as (r & d1 & l1 & pts1 & e1 & Hm & Hr);
    [done | done | rewrite (as_old _ _ _ _ _ _ _ _ _ _ _ _ _ Hst) by lia; apply Hus0; lia | lia |].
  rewrite (bind_done _ _ _ _ _ _ Hm). destruct Hr as [(-> & Hst1)|(-> & Huo1 & He1 & Htb1 & Hpg1 & Hfr1)]; cbn [Z.ltb Z.compare].
  - rewrite u32_small by (rewrite UPAGES_eq in *; unfold PGSIZE; lia).
    replace (v * PGSIZE + PGSIZE) with ((v + 1) * PGSIZE) by lia.
    destruct (IH (v + 1) d1 l1 pts1 e1 (<[v := (x, 7)]> us)) as (r & d2 & l2 & pts2 & e2 & us2 & Hl & Hr);
      [lia | lia | by eapply alloc_trans; [|done|done]; lia |].
    by exists r, d2, l2, pts2, e2, us2.
  - destruct (allocuvm_no_table v d x l pts e us d1 pts1 e1) as (d' & l' & e' & Hu & Ha); [lia | done..|].
    exists 0, d', l', pts1, e', us0. split; [exact Hu | by right].
Qed.
End loop.

Lemma allocuvm_done d l pts e us oldsz newsz :
  can_lock m d → cons_ok (d_cons d) → uvm_ok d l pgdir pts e us → 0 <= oldsz <= newsz → newsz < KERNBASE →
  (∀ u, npages oldsz <= u < npages newsz → us !! u = None) →
  ∃ r d' l' pts' e' us', allocuvm pgdir oldsz newsz n (K m d) = Done r (K m d')
    ∧ (r = newsz ∧ alloc_step d l pgdir pts e us (npages oldsz) (npages newsz) d' l' pts' e' us'
       ∨ r = 0 ∧ us' = us ∧ alloc_failed d l pts e us d' l' pts' e').
Proof.
  intros Hcl Hcn Huo Hsz Hk Hus. unfold allocuvm. rewrite Z.geb_leb, (proj2 (Z.leb_gt _ _)) by lia.
  rewrite (proj2 (Z.ltb_ge _ _)) by lia.
  rewrite PGROUNDUP_npages by lia. apply (allocuvm_loop_done d l pts e us oldsz newsz Hcl Hcn Hsz Hk Hus) with (l := l) (pts := pts) (e := e) (us := us).
  - unfold npages. split; [lia|]. apply Z.div_le_mono; unfold PGSIZE; lia.
  - unfold npages, PGSIZE, KERNBASE in *. Z.div_mod_to_equations. lia.
  - by apply alloc_refl.
Qed.
End alloc.

(** ** copyuvm *)

Lemma lor_odd f : f mod 2 = 1 → Z.lor f PTE_P = f.
Proof.
  intros Hf. apply Z.bits_inj'. intros j Hj. rewrite Z.lor_spec. unfold PTE_P. change 1 with (2 ^ 0).
  rewrite Z.pow2_bits_eqb by lia. destruct (Z.eqb_spec 0 j) as [<-|Hne].
  - rewrite Z.bit0_odd, Zodd_mod, Hf. done.
  - apply orb_false_r.
Qed.

(** A second address space whose pages stay out of the free list. *)
Lemma vm_ok_other d0 l0 pgdir pts e d l :
  vm_ok d0 l0 pgdir pts e → kmem_frame l0 d0 d → kmem_ok d l → l ⊆ l0 → vm_ok d l pgdir pts e.
Proof.
  intros Hvm (Heq & _ & _ & Hfr) Hk Hl. pose proof Hvm as [Hk0 Hp Ha Hd Hpde Hpte].
  assert (Hmem : ∀ x b, x ∈ vmpages pgdir pts → x <= b < x + PGSIZE → mm_mem (d_mm d) b = mm_mem (d_mm d0) b).
  { intros x b Hx Hb. apply Hfr. intros y Hy. destruct (vm_free_apart Hvm y x Hy Hx); lia. }
  split; try done.
  - by rewrite Heq.
  - apply NoDup_app in Ha as (Ha1 & Ha2 & Ha3). apply NoDup_app. split_and!; [apply Hk | | done].
    intros x Hx. by apply Ha2, Hl.
  - intros i Hi. rewrite <- Hpde by done. apply load32_frame. intros b Hb. apply (Hmem pgdir).
    + apply elem_of_vmpages. by left.
    + unfold PGSIZE. lia.
  - intros v Hv. specialize (Hpte v Hv). destruct (pts !! (v / 1024)) as [t|] eqn:Et; [|done].
    rewrite <- Hpte. apply load32_frame. intros b Hb. apply (Hmem t).
    + apply elem_of_vmpages. eauto.
    + unfold PGSIZE. pose proof (Z.mod_pos_bound v 1024). lia.
Qed.

Section copy.
Context (n : nat) (m : mach).
Context (d0 : kdata) (l0 : list Z) (pgdir : Z) (pts : gmap Z Z) (e : Z → Z) (us : gmap Z (Z * Z)).
Context (Huo0 : uvm_ok d0 l0 pgdir pts e us) (Hcl : can_lock m d0).
Context (Hbytes : ∀ x, x ∈ upages us → bytes_at (mm_mem (d_mm d0)) x PGSIZE).

(** The pages below [v] are copied to the page directory [c]. *)
Record copied (v : Z) (d : kdata) (l : list Z) (c : Z) (ptsc : gmap Z Z) (ec : Z → Z) (usc : gmap Z (Z * Z)) : Prop := {
  cp_ok : uvm_ok d l c ptsc ec usc;
  cp_pages : l ++ vmpages c ptsc ++ upages usc ≡ₚ l0;
  cp_frame : kmem_frame l0 d0 d;
  cp_done : ∀ u, 0 <= u < v → ∃ x f y, us !! u = Some (x, f) ∧ usc !! u = Some (y, f)
    ∧ ∀ k, 0 <= k < PGSIZE → mm_mem (d_mm d) (y + k) = mm_mem (d_mm d0) (x + k);
  cp_todo : ∀ u, ¬ (0 <= u < v) → usc !! u = None;
  cp_kernel : ∀ u, UPAGES <= u < 2 ^ 20 → ec u = kernel_entries (d_im d0) u
}.

(** The copy of one page, in the fresh page [y]. *)
Definition copy_page (y x : Z) (d : kdata) : kdata :=
  upd_mem (λ m, memmove m y x PGSIZE) (d <| d_mm := kalloc_mm (d_mm d) |>).

Lemma copied_free v d l c ptsc ec usc : copied v d l c ptsc ec usc → l ⊆ l0.
Proof. intros H x Hx. rewrite <- (cp_pages _ _ _ _ _ _ _ H). apply elem_of_app. by left. Qed.

(** The parent's page is as it was. *)
Lemma parent_same d u x f k :
  kmem_frame l0 d0 d → us !! u = Some (x, f) → 0 <= k < PGSIZE → mm_mem (d_mm d) (x + k) = mm_mem (d_mm d0) (x + k).
Proof.
  intros (_ & _ & _ & Hfr) Hu Hk. apply Hfr. intros y Hy.
  destruct (uvm_apart _ _ _ _ _ _ _ _ _ y Huo0 Hu); [apply elem_of_app; by left | lia | lia].
Qed.

Lemma copy_page_ok v d y l c ptsc ec usc x f :
  copied v d (y :: l) c ptsc ec usc → us !! v = Some (x, f) →
  uvm_ok (copy_page y x d) l c ptsc ec usc ∧ mm_freelist (d_mm d) = y ∧ page_ok (d_im d) y
  ∧ (y ∉ l ++ vmpages c ptsc ++ upages usc) ∧ kmem_frame [y] d (copy_page y x d)
  ∧ ∀ k, 0 <= k < PGSIZE → mm_mem (d_mm (copy_page y x d)) (y + k) = mm_mem (d_mm d0) (x + k).
Proof.
  intros Hc Hv. destruct Hc as [C1 C2 C3 C4 C5 C6]. pose proof C1 as [Hvm Hu Hp Ha].
  destruct (vm_ok_kalloc _ _ _ _ _ _ Hvm) as (Hfl & Hy & Hvm' & Hm & Hyn). apply NoDup_cons in Ha as [Ha1 Ha2].
  assert (Hb : bytes_at (mm_mem (d_mm d)) x PGSIZE).
  { intros b Hb. replace b with (x + (b - x)) by lia. rewrite (parent_same d v x f) by (done || lia).
    apply (Hbytes x); [apply elem_of_upages; eauto | lia]. }
  assert (Hlook : ∀ b, mm_mem (d_mm (copy_page y x d)) b
    = (if decide (y <= b < y + PGSIZE) then mm_mem (d_mm d) (b - y + x) else mm_mem (d_mm d) b)).
  { intros b. simpl. rewrite Hm. apply memmove_lookup; [done | unfold PGSIZE; lia]. }
  split_and!; [| done | done | done | |].
  - split; [|done..]. eapply vm_ok_frame; [exact Hvm' | done | done |]. intros w b Hw Hb'.
    rewrite Hlook, decide_False; [simpl; by rewrite Hm|].
    assert (y ≠ w) as Hne by (by intros ->).
    destruct (pages_apart y w); [apply Hy | | done | lia | lia].
    apply elem_of_app in Hw as [Hw|Hw]; [by eapply (vm_free_ok Hvm'), Hw | by eapply (vm_page Hvm'), Hw].
  - eapply (kmem_frame_trans []); [by eapply kmem_frame_kalloc, Hvm|]. apply kmem_frame_upd_mem.
    intros b Hb'. specialize (Hlook b). rewrite decide_False in Hlook by apply Hb', list_elem_of_here.
    simpl in Hlook |- *. by rewrite Hlook, Hm.
  - intros k Hk. rewrite Hlook, decide_True by lia. replace (y + k - y + x) with (x + k) by lia.
    by apply (parent_same d v x f).
Qed.

Lemma copied_step v d y l c ptsc ec usc x f d' l' ptsc' ec' :
  copied v d (y :: l) c ptsc ec usc → 0 <= v < UPAGES → us !! v = Some (x, f) →
  vm_step (copy_page y x d) l c ptsc d' l' ptsc' ec' →
  uvm_ok d' l' c ptsc' ec' (<[v := (y, f)]> usc) → (∀ u, UPAGES <= u → ec' u = ec u) →
  copied (v + 1) d' l' c ptsc' ec' (<[v := (y, f)]> usc).
Proof.
  intros Hc Hvr Hv [S1 S2 S3 S4 S5] Huo' He. pose proof Hc as [C1 C2 C3 C4 C5 C6].
  destruct (copy_page_ok v d y l c ptsc ec usc x f Hc Hv) as (P1 & P2 & P3 & P4 & P5 & P6).
  assert (Hfr : kmem_frame ((y :: l) ++ vmpages c ptsc) d d').
  { eapply kmem_frame_mono; [|eapply kmem_frame_trans; [exact P5 | exact S2]]. done. }
  assert (Hsame : ∀ u w g k, <[v := (y, f)]> usc !! u = Some (w, g) → 0 <= k < PGSIZE →
    mm_mem (d_mm d') (w + k) = mm_mem (d_mm (copy_page y x d)) (w + k)).
  { intros u w g k Hu Hk. destruct S2 as (_ & _ & _ & S2). apply S2. intros z Hz.
    destruct (uvm_apart _ _ _ _ _ _ u w g z Huo'); [done | by rewrite S3 | lia | lia]. }
  split; [done | | | | |].
  - rewrite upages_insert by (apply C5; lia). rewrite app_assoc, S3, <- C2. rewrite <- app_assoc. solve_Permutation.
  - eapply kmem_frame_trans_in; [|exact C3 | exact Hfr]. intros z Hz. rewrite <- C2.
    revert Hz. rewrite !elem_of_app. tauto.
  - intros u Hu. destruct (decide (u = v)) as [->|Hne].
    + exists x, f, y. rewrite lookup_insert_eq. split_and!; [done | done |]. intros k Hk.
      rewrite (Hsame v y f k) by (done || by rewrite lookup_insert_eq). by apply P6.
    + destruct (C4 u) as (x' & f' & y' & Hx' & Hy' & Hk'); [lia|]. exists x', f', y'.
      assert (Hins : <[v := (y, f)]> usc !! u = Some (y', f')) by by rewrite lookup_insert_ne.
      split_and!; [done | done |]. intros k Hk. rewrite (Hsame u y' f' k Hins Hk), <- (Hk' k Hk).
      destruct P5 as (_ & _ & _ & P5). apply P5. intros z Hz%list_elem_of_singleton. subst z.
      destruct (uvm_apart _ _ _ _ _ _ u y' f' y C1 Hy'); [apply list_elem_of_here | lia | lia].
  - intros u Hu. rewrite lookup_insert_ne by lia. apply C5. lia.
  - intros u Hu. rewrite He by lia. by apply C6.
Qed.

Context (sz : Z) (Hsz : 0 <= sz < KERNBASE) (Hall : ∀ v, 0 <= v < npages sz → is_Some (us !! v)).

(** What is left when the copying stops early; [o] is the page that is lost
    when there is no memory for a page table. *)
Definition copy_stopped (d : kdata) (c : Z) : Prop :=
  ∃ l o ptsc ec usc, uvm_ok d l c ptsc ec usc ∧ (length o <= 1)%nat
    ∧ o ++ l ++ vmpages c ptsc ++ upages usc ≡ₚ l0 ∧ kmem_frame l0 d0 d.

Lemma copyuvm_loop_done fuel v d l c ptsc ec usc :
  copied v d l c ptsc ec usc → 0 <= v <= npages sz → npages sz - v < Z.of_nat fuel →
  ∃ r d', copyuvm_loop fuel pgdir c (v * PGSIZE) sz n (K m d) = Done r (K m d')
    ∧ if (r : bool) then ∃ l' ptsc' ec' usc', copied (npages sz) d' l' c ptsc' ec' usc' else copy_stopped d' c.
Proof.
  revert v d l ptsc ec usc. induction fuel as [|fuel IH]; intros v d l ptsc ec usc Hc Hv Hf; [lia|].
  cbn [copyuvm_loop]. destruct (Z.ltb_spec (v * PGSIZE) sz) as [Hlt|Hge]; cbn [negb].
  2:{ exists true, d. split; [done|]. assert (¬ v < npages sz) by (intros H%npages_lt; lia).
      replace (npages sz) with v by lia. eauto. }
  apply npages_lt in Hlt. pose proof (npages_range sz ltac:(lia)) as Hr.
  destruct (Hall v) as [[x f] Hxf]; [lia|].
  pose proof Hc as [C1 C2 C3 C4 C5 C6]. pose proof (can_lock_frame _ _ _ _ C3 Hcl) as Hcl1.
  assert (Hvm : vm_ok d l pgdir pts e).
  { eapply vm_ok_other; [apply Huo0 | done | apply C1 | by eapply copied_free]. }
  destruct (page_addr v) as (Hva & Hpd & Hpt); [rewrite UPAGES_eq in *; lia|].
  destruct (uo_table Huo0 _ _ _ Hxf) as [t Ht].
  rewrite (bind_done _ _ _ _ _ _ (walkpgdir_present n m d l pgdir pts e (v * PGSIZE) false t Hvm Hva ltac:(by rewrite Hpd))), Hpt.
  rewrite (proj2 (Z.eqb_neq _ _)).
  2:{ destruct (vm_table_ok Hvm _ _ Ht) as (_ & _ & ? & _).
      pose proof (Z.mod_pos_bound v 1024). unfold KERNBASE in *. lia. }
  pose proof (vo_pte _ _ _ _ _ Hvm v ltac:(rewrite UPAGES_eq in *; lia)) as Hpte. rewrite Ht in Hpte.
  rewrite (ue_entry _ _ (uo_user _ _ _ _ _ _ Huo0)), Hxf in Hpte by lia. simpl in Hpte.
  rewrite (bind_done _ _ _ _ _ _ (load32M_done n m _ d)), Hpte.
  destruct (ue_dom _ _ (uo_user _ _ _ _ _ _ Huo0) _ _ _ Hxf) as (_ & Hfr & Hodd).
  pose proof (uo_page Huo0 _ _ _ Hxf) as Hx.
  rewrite (entry_P (d_im d0)), Hodd, (entry_addr (d_im d0)), (entry_flags (d_im d0)), (P2V_V2P (d_im d0)) by done.
  change (negb (ctrue 1)) with false. cbv iota zeta.
  rewrite (bind_done _ _ _ _ _ _ (kalloc_done n m d Hcl1)). destruct l as [|y l].
  { destruct (kalloc_mm_nil d (vo_kmem _ _ _ _ _ Hvm)) as [-> ->]. rewrite eta_mm. cbn [Z.eqb].
    exists false, d. split; [done|]. exists [], [], ptsc, ec, usc. split_and!; [done | simpl; lia | done | done]. }
  destruct (copy_page_ok v d y l c ptsc ec usc x f Hc Hxf) as (P1 & -> & P3 & P4 & P5 & P6).
  rewrite (proj2 (Z.eqb_neq y 0)) by (destruct P3 as (_ & _ & ? & _); unfold KERNBASE in *; lia).
  rewrite (bind_done _ _ _ _ tt (K m (copy_page y x d))) by done.
  destruct (map_page n m c (copy_page y x d) l ptsc ec usc v y f) as (r & d1 & l1 & ptsc1 & ec1 & Hm & Hst & Hres);
    [by eapply can_lock_frame | done | apply C5; lia | lia | done | done | done |].
  rewrite (bind_done _ _ _ _ _ _ Hm). rewrite (lor_odd f Hodd) in Hres.
  destruct Hres as [(-> & Huo1 & He1)|(-> & -> & Huo1 & He1)]; cbn [Z.ltb Z.compare].
  - rewrite u32_small by (rewrite UPAGES_eq in *; unfold PGSIZE; lia).
    replace (v * PGSIZE + PGSIZE) with ((v + 1) * PGSIZE) by lia.
    eapply IH; [|lia|lia]. eapply copied_step; [exact Hc | lia | done..].
  - exists false, d1. split; [done|]. exists [], [y], ptsc1, ec1, usc. split_and!; [done | simpl; lia | |].
    + pose proof (vs_pages _ _ _ _ _ _ _ _ Hst) as Hpg. rewrite app_nil_l in Hpg |- *.
      rewrite <- C2, Hpg. by rewrite <- app_assoc.
    + eapply kmem_frame_trans_in; [|exact C3 | eapply kmem_frame_trans; [exact P5 | apply Hst]].
      intros z Hz. rewrite <- C2. revert Hz. rewrite !elem_of_app, list_elem_of_singleton, elem_of_cons. tauto.
Qed.

Lemma copyuvm_done :
  image_ok (d_im d0) →
  ∃ r d', copyuvm pgdir sz n (K m d0) = Done r (K m d') ∧ kmem_frame l0 d0 d'
    ∧ (r ≠ 0 ∧ (∃ l ptsc ec usc, copied (npages sz) d' l r ptsc ec usc)
       ∨ r = 0 ∧ ∃ l o, kmem_ok d' l ∧ (length o <= 1)%nat ∧ o ++ l ≡ₚ l0).
Proof.
  intros Him. unfold copyuvm. pose proof (vo_kmem _ _ _ _ _ (uo_vm _ _ _ _ _ _ Huo0)) as Hk0.
  destruct (setupkvm_done n m d0 l0) as (c & d1 & l1 & Hs & Hfr1 & Hk1 & Hres); [done | done | done |].
  rewrite (bind_done _ _ _ _ _ _ Hs). destruct Hres as [[-> Hl1]|(ptsc & Hc & Hvm & Hpg & _)].
  { cbn [Z.eqb]. exists 0, d1. split_and!; [done | done |]. right. split; [done|].
    exists l1, []. split_and!; [done | simpl; lia | done]. }
  rewrite (proj2 (Z.eqb_neq c 0) Hc).
  assert (Hnil : upages ∅ = []) by (unfold upages; by rewrite map_to_list_empty).
  assert (Hcp : copied 0 d1 l1 c ptsc (kernel_entries (d_im d0)) ∅).
  { split; [| by rewrite Hnil, app_nil_r | done | lia | done | done]. split.
    - done.
    - split; [|by intros]. intros v Hv. rewrite lookup_empty.
      apply (kmaps_entries_low _ KERNBASE); [by apply kmaps_ok | apply Hv].
    - rewrite Hnil. constructor.
    - rewrite Hnil, app_nil_r. apply Hvm. }
  pose proof (npages_range sz ltac:(lia)).
  destruct (copyuvm_loop_done (S (Z.to_nat (sz / PGSIZE) + 1)) 0 d1 l1 c ptsc _ _ Hcp) as (r & d2 & Hl & Hr); [lia | |].
  { unfold npages, PGSIZE, KERNBASE in *. Z.div_mod_to_equations. lia. }
  change (0 * PGSIZE) with 0 in Hl. rewrite (bind_done _ _ _ _ _ _ Hl). destruct r.
  - destruct Hr as (l2 & ptsc2 & ec2 & usc2 & Hr). exists c, d2. split_and!; [done | apply Hr | left; eauto 10].
  - destruct Hr as (l2 & o & ptsc2 & ec2 & usc2 & Huo2 & Ho & Hpg2 & Hfr2).
    destruct (freevm_done n m c d2 l2 ptsc2 ec2 usc2) as (d3 & l3 & Hf & Hk3 & Hl3 & Hfr3); [by eapply can_lock_frame | done |].
    rewrite (bind_done _ _ _ _ _ _ Hf). exists 0, d3. split_and!; [done | |].
    + eapply kmem_frame_trans_in; [|exact Hfr2 | exact Hfr3]. intros z Hz. rewrite <- Hpg2, !elem_of_app.
      revert Hz. rewrite !elem_of_app. tauto.
    + right. split; [done|]. exists l3, o. split_and!; [done | done |]. by rewrite Hl3.
Qed.
End copy.
