(* ===== verification/Sched.v ===== *)
(** * Sched: the part of proc.c that needs no file system

    The process table, allocproc, the scheduler and its handoff (sched, yield,
    sleep, wakeup), wait and kill, and the added system calls cps, getppid,
    getsz, chpr, getcount and time.  A process is its index in the table. *)

From S2P Require Import Prelude Memory Kstate Spinlock Kalloc Cprintf Vm.

(** All of [ptable.proc[0..NPROC)]. *)
Definition procs : list nat := seq 0 NPROC.
(** [myproc()] where the code uses it without a test. *)
Definition curproc : KM nat := p ← myproc; from_opt "myproc() is null" p.

Definition pinit : KM unit := initlock L_ptable "ptable".

(** ** allocproc *)

Definition allocproc : KM (option nat) :=
  acquire L_ptable ;;
  found ← searchM procs (λ i, p ← get_proc i;
    mret (if bool_decide (p_state p = UNUSED) then Some i else None));
  match found with
  | None => release L_ptable ;; mret None
  | Some i =>
    pid ← getd d_nextpid;
    mod_proc i (λ p, p <| p_state := EMBRYO |>) ;;
    mod_proc i (λ p, p <| p_pid := pid |>) ;;
    modd (λ d, d <| d_nextpid := pid +u 1 |>) ;;
    mod_proc i (λ p, p <| p_priority := DEFAULTPRIORITY |>) ;;
    release L_ptable ;;
    kstack ← kalloc;
    mod_proc i (λ p, p <| p_kstack := kstack |>) ;;
    if kstack =? 0 then mod_proc i (λ p, p <| p_state := UNUSED |>) ;; mret None else
    im ← getd d_im;
    let sp := kstack + KSTACKSIZE in
    let sp := sp - sizeof_trapframe in
    mod_proc i (λ p, p <| p_tf := sp |>) ;;
    let sp := sp - 4 in
    store32M sp (im_trapret im) ;;
    let sp := sp - sizeof_context in
    mod_proc i (λ p, p <| p_context := sp |>) ;;
    mod_mem (λ m, memset m sp 0 sizeof_context) ;;
    store32M (sp + ctx_eip) (im_forkret im) ;;
    mod_proc i (λ p, p <| p_sys_count := replicate SYS_cn 0 |>) ;;
    mret (Some i)
  end.

(** ** The scheduler and the processes *)

(** swtch.S: another thread runs; this one goes on when it is switched to. *)
Definition swtch (w : wait_reason) : KM unit := λ _ s, Block w s (λ s', Done tt s').

Definition sched : KM unit :=
  p ← myproc;
  h ← holding L_ptable;
  if negb (h : bool) then panic "sched ptable.lock" else
  c ← mycpu; cp ← get_cpu c;
  if negb (c_ncli cp =? 1) then panic "sched locks" else
  i ← from_opt "sched: null proc" p;
  pr ← get_proc i;
  if bool_decide (p_state pr = RUNNING) then panic "sched running" else
  e ← readeflags;
  if ctrue (Z.land e FL_IF) then panic "sched interruptible" else
  c ← mycpu; cp ← get_cpu c;
  let intena := c_intena cp in
  swtch W_sched ;;
  c ← mycpu; mod_cpu c (λ cp, cp <| c_intena := intena |>).

Definition yield : KM unit :=
  i ← curproc;
  acquire L_ptable ;;
  mod_proc i (λ p, p <| p_state := RUNNABLE |>) ;;
  sched ;;
  release L_ptable.

(** x86.h: until an interrupt comes *)
Definition hlt : KM unit := swtch W_hlt.

(** The scheduler's loop over the table, on CPU [c]; the result says whether a process ran. *)
Fixpoint sched_scan (c : nat) (l : list nat) (ran : bool) : KM bool :=
  match l with
  | [] => mret ran
  | i :: l' =>
    p ← get_proc i;
    if negb (bool_decide (p_state p = RUNNABLE)) then sched_scan c l' ran else
    mod_cpu c (λ cp, cp <| c_proc := Some i |>) ;;
    switchuvm (Some i) ;;
    mod_proc i (λ p, p <| p_state := RUNNING |>) ;;
    swtch (W_switch i) ;;
    switchkvm ;;
    mod_cpu c (λ cp, cp <| c_proc := None |>) ;;
    sched_scan c l' true
  end.
Definition scheduler_round (c : nat) : KM unit :=
  sti ;;
  acquire L_ptable ;;
  ran ← sched_scan c procs false;
  release L_ptable ;;
  when (negb ran) (sti ;; hlt).
(** scheduler() never returns; [k] of its rounds. *)
Fixpoint scheduler_rounds (k : nat) (c : nat) : KM unit :=
  match k with
  | O => mret tt
  | S k' => scheduler_round c ;; scheduler_rounds k' c
  end.
Definition scheduler (k : nat) : KM unit :=
  c ← mycpu;
  mod_cpu c (λ cp, cp <| c_proc := None |>) ;;
  scheduler_rounds k c.

(** ** sleep, wakeup, kill *)

(** sleep and wait depend on the order in which they take and give back locks.
    They are written over [acquire] and [release], so that the same text runs
    with those of Spinlock ([sleep], [wait] below), and with those of
    SchedFacts that let the other CPUs in at every lock operation. *)
Section sleep.
Variables acquire release : lockid → KM unit.

(** [lk = None]: the null pointer, which sys_sleep passes. *)
Definition sleep_with (ch : chan) (lk : option lockid) : KM unit :=
  p ← myproc;
  match p with
  | None => panic "sleep"
  | Some i =>
    when (negb (bool_decide (lk = Some L_ptable))) (
      acquire L_ptable ;;
      match lk with Some l => release l | None => mret tt end) ;;
    mod_proc i (λ p, p <| p_chan := Some ch |>) ;;
    mod_proc i (λ p, p <| p_state := SLEEPING |>) ;;
    sched ;;
    mod_proc i (λ p, p <| p_chan := None |>) ;;
    when (negb (bool_decide (lk = Some L_ptable))) (
      release L_ptable ;;
      match lk with Some l => acquire l | None => mret tt end)
  end.
End sleep.
Definition sleep : chan → option lockid → KM unit := sleep_with acquire release.

Definition wakeup1 (ch : option chan) : KM unit :=
  forM procs (λ i,
    p ← get_proc i;
    when (bool_decide (p_state p = SLEEPING) && bool_decide (p_chan p = ch))
      (mod_proc i (λ p, p <| p_state := RUNNABLE |>))).
Definition wakeup (ch : chan) : KM unit :=
  acquire L_ptable ;;
  wakeup1 (Some ch) ;;
  release L_ptable.

Definition kill (pid : Z) : KM Z :=
  acquire L_ptable ;;
  r ← searchM procs (λ i,
    p ← get_proc i;
    if negb (p_pid p =? u32 pid) then mret None else
    mod_proc i (λ p, p <| p_killed := 1 |>) ;;
    when (bool_decide (p_state p = SLEEPING)) (mod_proc i (λ p, p <| p_state := RUNNABLE |>)) ;;
    release L_ptable ;;
    mret (Some 0));
  match r with
  | Some v => mret v
  | None => release L_ptable ;; mret (-1)
  end.

(** ** growproc, wait *)

Definition growproc (n : Z) : KM Z :=
  i ← curproc;
  p ← get_proc i;
  let sz := p_sz p in
  r ← (if n >? 0 then
         sz ← allocuvm (p_pgdir p) sz (sz +u n); mret (sz, sz =? 0)
       else if n <? 0 then
         sz ← deallocuvm (p_pgdir p) sz (sz +u n); mret (sz, sz =? 0)
       else mret (sz, false));
  let '(sz, bad) := r in
  if (bad : bool) then mret (-1) else
  mod_proc i (λ p, p <| p_sz := sz |>) ;;
  switchuvm (Some i) ;;
  mret 0.

Section wait.
Variables acquire release : lockid → KM unit.

(** The scan of the table in wait() for the children of [cur]: a zombie is
    freed and its pid returned, otherwise the result says if there are any. *)
Fixpoint wait_scan_with (cur : nat) (l : list nat) (havekids : bool) : KM (Z + bool) :=
  match l with
  | [] => mret (inr havekids)
  | i :: l' =>
    p ← get_proc i;
    if negb (bool_decide (p_parent p = Some cur)) then wait_scan_with cur l' havekids else
    if negb (bool_decide (p_state p = ZOMBIE)) then wait_scan_with cur l' true else
    let pid := p_pid p in
    kfree (p_kstack p) ;;
    mod_proc i (λ p, p <| p_kstack := 0 |>) ;;
    freevm (p_pgdir p) ;;
    mod_proc i (λ p, p <| p_pid := 0 |>) ;;
    mod_proc i (λ p, p <| p_parent := None |>) ;;
    mod_proc i (λ p, p <| p_name := <[0%nat := 0]> (p_name p) |>) ;;
    mod_proc i (λ p, p <| p_killed := 0 |>) ;;
    mod_proc i (λ p, p <| p_state := UNUSED |>) ;;
    release L_ptable ;;
    mret (inl pid)
  end.
Fixpoint wait_loop_with (fuel : nat) (cur : nat) : KM Z :=
  match fuel with
  | O => out_of_fuel
  | S fuel' =>
    r ← wait_scan_with cur procs false;
    match r with
    | inl pid => mret (s32 pid)
    | inr havekids =>
      p ← get_proc cur;
      if negb havekids || ctrue (p_killed p) then release L_ptable ;; mret (-1) else
      sleep_with acquire release (Ch_proc cur) (Some L_ptable) ;;
      wait_loop_with fuel' cur
    end
  end.
Definition wait_with : KM Z :=
  cur ← curproc;
  acquire L_ptable ;;
  with_fuel (λ fuel, wait_loop_with fuel cur).
End wait.
Definition wait : KM Z := wait_with acquire release.

(** ** The added system calls *)

(** A [char] array as a C string: what is before its NUL. *)
Fixpoint c_str (l : list Z) : option (list Z) :=
  match l with
  | [] => None
  | c :: l' => if c =? 0 then Some [] else cons c <$> c_str l'
  end.

Definition cps : KM Z :=
  sti ;;
  acquire L_ptable ;;
  cprintf (cstring "Process Name\tpid\tPriority\tState\n") [] ;;
  forM procs (λ i,
    p ← get_proc i;
    let row fmt :=
      name ← from_opt "name without NUL" (c_str (p_name p));
      cprintf (cstring fmt) [A_str (Some name); A_int (p_pid p); A_int (p_priority p)] in
    if bool_decide (p_state p = SLEEPING) then row "%s\t%d\t%d\tSLEEPING\n"
    else if bool_decide (p_state p = RUNNABLE) then row "%s\t%d\t%d\tRUNNABLE\n"
    else if bool_decide (p_state p = RUNNING) then row "%s\t%d\t%d\tRUNNING\n"
    else mret tt) ;;
  release L_ptable ;;
  mret 22.

Definition getppid : KM Z :=
  i ← curproc; p ← get_proc i;
  pi ← from_opt "getppid: null parent" (p_parent p);
  pp ← get_proc pi;
  mret (s32 (p_pid pp)).

Definition getsz : KM Z := i ← curproc; p ← get_proc i; mret (s32 (p_sz p)).

Definition chpr (pid priority : Z) : KM Z :=
  acquire L_ptable ;;
  _ ← searchM procs (λ i,
    p ← get_proc i;
    if p_pid p =? u32 pid then
      mod_proc i (λ p, p <| p_priority := priority |>) ;; mret (Some tt)
    else mret None);
  release L_ptable ;;
  mret pid.

Definition getcount (procno : Z) : KM Z :=
  i ← curproc; p ← get_proc i;
  let k := procno - 1 in
  from_opt "sys_count out of range"
    (if (k <? 0) then None else p_sys_count p !! Z.to_nat k).

(** As wait_scan, with the two results stored through the pointers. *)
Fixpoint time_scan (cur : nat) (waitt burstt : Z) (l : list nat) (havekids : bool) : KM (Z + bool) :=
  match l with
  | [] => mret (inr havekids)
  | i :: l' =>
    p ← get_proc i;
    if negb (bool_decide (p_parent p = Some cur)) then time_scan cur waitt burstt l' havekids else
    if negb (bool_decide (p_state p = ZOMBIE)) then time_scan cur waitt burstt l' true else
    vstore32M waitt (p_endt p - p_arrivalt p - p_burstt p - p_iot p) ;;
    vstore32M burstt (p_burstt p) ;;
    let pid := p_pid p in
    kfree (p_kstack p) ;;
    mod_proc i (λ p, p <| p_kstack := 0 |>) ;;
    freevm (p_pgdir p) ;;
    mod_proc i (λ p, p <| p_state := UNUSED |>) ;;
    mod_proc i (λ p, p <| p_pid := 0 |>) ;;
    mod_proc i (λ p, p <| p_parent := None |>) ;;
    mod_proc i (λ p, p <| p_name := <[0%nat := 0]> (p_name p) |>) ;;
    mod_proc i (λ p, p <| p_killed := 0 |>) ;;
    release L_ptable ;;
    mret (inl pid)
  end.
Fixpoint time_loop (fuel : nat) (cur : nat) (waitt burstt : Z) : KM Z :=
  match fuel with
  | O => out_of_fuel
  | S fuel' =>
    r ← time_scan cur waitt burstt procs false;
    match r with
    | inl pid => mret (s32 pid)
    | inr havekids =>
      p ← get_proc cur;
      if negb havekids || ctrue (p_killed p) then release L_ptable ;; mret (-1) else
      sleep (Ch_proc cur) (Some L_ptable) ;;
      time_loop fuel' cur waitt burstt
    end
  end.
Definition time (waitt burstt : Z) : KM Z :=
  cur ← curproc;
  acquire L_ptable ;;
  with_fuel (λ fuel, time_loop fuel cur waitt burstt).

(** ** procdump *)

Definition state_name (s : procstate) : list Z :=
  match s with
  | UNUSED => str "unused" | EMBRYO => str "embryo" | SLEEPING => str "sleep "
  | RUNNABLE => str "runble" | RUNNING => str "run   " | ZOMBIE => str "zombie"
  end.
(** [for(i=0; i<10 && pc[i] != 0; i++)] *)
Fixpoint print_pcs (pcs : list Z) : KM unit :=
  match pcs with
  | [] => mret tt
  | pc :: pcs' => if pc =? 0 then mret tt else cprintf (cstring " %p") [A_int pc] ;; print_pcs pcs'
  end.
Definition procdump : KM unit :=
  cprintf (cstring "\n") [] ;;
  forM procs (λ i,
    p ← get_proc i;
    if bool_decide (p_state p = UNUSED) then mret tt else
    name ← from_opt "name without NUL" (c_str (p_name p));
    cprintf (cstring "%d\t%s\t%s\t")
      [A_int (p_pid p); A_str (Some name); A_str (Some (state_name (p_state p)))] ;;
    when (bool_decide (p_state p = SLEEPING)) (
      m ← get_mem;
      let ebp := load32 m (p_context p + ctx_ebp) in
      print_pcs (getcallerpcs m (ebp +u 8))) ;;
    cprintf (cstring "\n") []).
