(* ===== verification/SchedFacts.v ===== *)
(** * SchedFacts: what the functions of Sched.v do

    Equations for the operations on the process table, run by a thread that
    holds none of the locks they take. *)

From S2P Require Import Prelude Memory Kstate Spinlock Kalloc Cprintf Vm Sched.

(** ** Loops over the table *)

Lemma forM_procs_done n m f (body : nat → KM unit) d :
  (∀ i d, (i < length (d_procs d))%nat →
     body i n (K m d) = Done tt (K m (d <| d_procs := alter f i (d_procs d) |>))) →
  length (d_procs d) = NPROC →
  forM procs body n (K m d) = Done tt (K m (d <| d_procs := f <$> d_procs d |>)).
Proof.
  intros Hb Hlen. unfold procs. rewrite <- Hlen.
  enough (Hgen : ∀ l1 l2 d, d_procs d = l1 ++ l2 →
    forM (seq (length l1) (length l2)) body n (K m d)
    = Done tt (K m (d <| d_procs := l1 ++ (f <$> l2) |>))).
  { apply (Hgen [] (d_procs d)). done. }
  clear d Hlen. intros l1 l2. revert l1. induction l2 as [|p l2 IH]; intros l1 d Hd; simpl.
  - rewrite <- Hd. by rewrite eta_procs.
  - rewrite (bind_done _ _ _ _ tt (K m (d <| d_procs := (l1 ++ [f p]) ++ l2 |>))).
    + specialize (IH (l1 ++ [f p])). rewrite length_app, Nat.add_1_r in IH.
      rewrite IH by done. by rewrite <- app_assoc.
    + rewrite Hb by (rewrite Hd, length_app; simpl; lia). do 3 f_equal.
      rewrite Hd, <- app_assoc. simpl. by rewrite alter_app_r_alt, Nat.sub_diag by lia.
Qed.

(** The first process with a property. *)
Definition first_proc (test : proc → bool) (ps : list proc) : option nat :=
  fst <$> list_find (λ p, test p = true) ps.

Lemma first_some_proc {X} (test : proc → bool) (ps : list proc) (g : nat → X) :
  first_some (λ i, if test (ps !!! i) then Some (g i) else None) (seq 0 (length ps))
  = g <$> first_proc test ps.
Proof.
  enough (Hgen : ∀ l1 l2, ps = l1 ++ l2 →
    first_some (λ i, if test (ps !!! i) then Some (g i) else None) (seq (length l1) (length l2))
    = (λ k, g (length l1 + k)%nat) <$> first_proc test l2).
  { apply (Hgen [] ps). done. }
  intros l1 l2. revert l1. unfold first_proc. induction l2 as [|p l2 IH]; intros l1 Hps; simpl; [done|].
  rewrite Hps at 1. rewrite lookup_total_app_r, Nat.sub_diag by lia. simpl.
  destruct (test p) eqn:E; simpl; [by rewrite Nat.add_0_r|].
  specialize (IH (l1 ++ [p])). rewrite length_app, Nat.add_1_r in IH. rewrite IH by (by rewrite <- app_assoc).
  destruct (list_find _ l2) as [[k q]|]; simpl; [|done]. f_equal. f_equal. lia.
Qed.

Lemma first_proc_Some test ps i :
  first_proc test ps = Some i →
  ∃ p, ps !! i = Some p ∧ test p = true ∧ ∀ j q, (j < i)%nat → ps !! j = Some q → test q = false.
Proof.
  unfold first_proc. intros ([j p] & E & ->)%fmap_Some. apply list_find_Some in E as (H1 & H2 & H3).
  exists p. split_and!; [done..|]. intros j' q Hj Hq. simpl in Hj.
  apply not_true_is_false. eauto.
Qed.
Lemma first_proc_None test ps :
  first_proc test ps = None ↔ ∀ p, p ∈ ps → test p = false.
Proof.
  unfold first_proc. rewrite fmap_None, list_find_None, Forall_forall.
  split; intros H p Hp; specialize (H p Hp); [by apply not_true_is_false | by rewrite H].
Qed.

(** ** The running thread *)

(** CPU [i] runs process [p], holds no lock, interrupts are on. *)
Record runs_proc (m : mach) (i : nat) (c : cpu) (p : nat) : Prop := {
  rp_ok : mach_ok m i c;
  rp_proc : c_proc c = Some p;
  rp_depth : c_ncli c = 0;
  rp_if : Z.land (m_eflags m) FL_IF = FL_IF
}.

Lemma curproc_done n m d i c p :
  mach_ok m i c → c_proc c = Some p → curproc n (K m d) = Done p (K m d).
Proof.
  intros Hok Hp. unfold curproc. rewrite (bind_done _ _ _ _ _ _ (myproc_done n m d i c Hok)), Hp. done.
Qed.

(** ** wakeup, kill, chpr *)

Definition wake (ch : option chan) (p : proc) : proc :=
  if bool_decide (p_state p = SLEEPING) && bool_decide (p_chan p = ch)
  then p <| p_state := RUNNABLE |> else p.

Lemma wakeup1_done n m d ch :
  length (d_procs d) = NPROC →
  wakeup1 ch n (K m d) = Done tt (K m (d <| d_procs := wake ch <$> d_procs d |>)).
Proof.
  intros Hlen. apply forM_procs_done; [|done]. clear d Hlen. intros i d Hi. krun.
  destruct (lookup_lt_is_Some_2 _ _ Hi) as [p Hp]. rewrite (lookup_total_Some _ _ _ Hp).
  destruct (_ && _) eqn:E; krun.
  - rewrite (alter_ext_at _ (wake ch) _ _ p); [done | done | unfold wake; by rewrite E].
  - rewrite (alter_id_at (wake ch) _ _ p); [by rewrite eta_procs | done | unfold wake; by rewrite E].
Qed.
Lemma wakeup_done n m d i c ch :
  mach_ok m i c → lk_free m L_ptable → length (d_procs d) = NPROC →
  wakeup ch n (K m d) = Done tt (K m (d <| d_procs := wake (Some ch) <$> d_procs d |>)).
Proof.
  intros Hok Hf Hlen. unfold wakeup. kcall acquire_done.
  rewrite (bind_done _ _ _ _ _ _ (wakeup1_done n _ d _ Hlen)). by erewrite release_acq.
Qed.

Definition has_pid (pid : Z) (p : proc) : bool := p_pid p =? u32 pid.
Definition kill_proc (p : proc) : proc :=
  (if bool_decide (p_state p = SLEEPING) then p <| p_killed := 1 |> <| p_state := RUNNABLE |>
   else p <| p_killed := 1 |>).

(** The loops that look for a pid. *)
Lemma procs_seq d : length (d_procs d) = NPROC → procs = seq 0 (length (d_procs d)).
Proof. by intros ->. Qed.

Lemma kill_done n m d i c pid :
  mach_ok m i c → lk_free m L_ptable → length (d_procs d) = NPROC →
  kill pid n (K m d) =
    match first_proc (has_pid pid) (d_procs d) with
    | Some k => Done 0 (K m (d <| d_procs := alter kill_proc k (d_procs d) |>))
    | None => Done (-1) (K m d)
    end.
Proof.
  intros Hok Hf Hlen. unfold kill. kcall acquire_done.
  rewrite (procs_seq d Hlen). unfold mbind at 1, M_bind at 1.
  rewrite (searchM_done (λ k, if has_pid pid (d_procs d !!! k)
      then Some (0, K m (d <| d_procs := alter kill_proc k (d_procs d) |>)) else None)).
  - rewrite (first_some_proc (has_pid pid) (d_procs d)
      (λ k, (0, K m (d <| d_procs := alter kill_proc k (d_procs d) |>)))).
    destruct (first_proc _ _) as [k|]; simpl; [done|]. by kcall release_acq.
  - intros k Hk%elem_of_seq. destruct (lookup_lt_is_Some_2 (d_procs d) k) as [p Hp]; [lia|].
    krun. rewrite (lookup_total_Some _ _ _ Hp). unfold has_pid. destruct (p_pid p =? u32 pid); simpl; [|by krun].
    krun. destruct (bool_decide (p_state p = SLEEPING)) eqn:E; krun; kcall release_acq; krun.
    + rewrite list_alter_alter_eq, (alter_ext_at _ kill_proc _ _ p); [done | done |].
      unfold kill_proc, compose. by rewrite E.
    + rewrite (alter_ext_at _ kill_proc _ _ p); [done | done |]. unfold kill_proc. by rewrite E.
Qed.

(** ** sched, sleep *)

Lemma runs_proc_push m i c p :
  runs_proc m i c p → cpu_push (m_eflags m) c = c <| c_intena := FL_IF |> <| c_ncli := 1 |>.
Proof. intros [_ _ Hn Hif]. unfold cpu_push. rewrite Hn, Hif. done. Qed.

(** Writing a CPU's field back. *)
Lemma mod_cpu_same n m d i c f : m_cpus m !! i = Some c → f c = c → mod_cpu i f n (K m d) = Done tt (K m d).
Proof.
  intros Hc Hf. unfold mod_cpu, modm, modify. simpl. do 2 f_equal. destruct m; simpl in *.
  unfold set_field, set_km, set_m_cpus; simpl. by rewrite (alter_id_at f m_cpus i c).
Qed.

(** sched gives the processor away with ptable.lock held, and returns when
    some CPU's scheduler runs the process again, holding ptable.lock. *)
Lemma sched_blocks n m i c p d :
  runs_proc m i c p → lk_free m L_ptable →
  p_state (d_procs d !!! p) ≠ RUNNING →
  ∃ k, sched n (K (acq L_ptable m) d) = Block W_sched (K (acq L_ptable m) d) k
    ∧ ∀ m' i' c' d', runs_proc m' i' c' p → lk_free m' L_ptable →
        k (K (acq L_ptable m') d') = Done tt (K (acq L_ptable m') d').
Proof.
  intros Hr Hf Hst. pose proof (rp_ok _ _ _ _ Hr) as Hok.
  pose proof (mach_ok_acq L_ptable m i c Hok) as Hok'.
  pose proof (runs_proc_push _ _ _ _ Hr) as Hc. rewrite Hc in Hok'.
  destruct (acq_held L_ptable m i c Hok Hf) as [nm Hl].
  assert (He : Z.land (m_eflags (push m)) FL_IF = 0) by (apply (mo_off' _ _ _ Hok'); simpl; lia).
  unfold sched.
  erewrite bind_done by by eapply myproc_done. simpl c_proc. rewrite (rp_proc _ _ _ _ Hr).
  erewrite bind_done by by eapply holding_done. simpl. rewrite bool_decide_eq_true_2 by done. simpl.
  erewrite bind_done by (eapply mycpu_ok; [done | simpl; lia]).
  erewrite bind_done by done. simpl. rewrite (lookup_total_Some _ _ _ (mo_cpu _ _ _ Hok')). simpl.
  krun. rewrite bool_decide_eq_false_2 by done.
  erewrite bind_done by done. simpl.
  rewrite He. simpl.
  erewrite bind_done by (eapply mycpu_ok; [done | simpl; lia]).
  erewrite bind_done by done. simpl. rewrite (lookup_total_Some _ _ _ (mo_cpu _ _ _ Hok')). simpl.
  erewrite bind_block by done. eexists. split; [reflexivity|].
  clear - Hst. intros m' i' c' d' Hr Hf. simpl.
  pose proof (mach_ok_acq L_ptable m' i' c' (rp_ok _ _ _ _ Hr)) as Hok'.
  rewrite (runs_proc_push _ _ _ _ Hr) in Hok'.
  erewrite bind_done by (eapply mycpu_ok; [done | simpl; lia]).
  eapply mod_cpu_same; [apply Hok' | done].
Qed.

Definition asleep (ch : chan) (p : proc) : proc := p <| p_chan := Some ch |> <| p_state := SLEEPING |>.
Definition no_chan (p : proc) : proc := p <| p_chan := None |>.

Lemma alter_state_lookup f p (ps : list proc) :
  (p < length ps)%nat → alter f p ps !!! p = f (ps !!! p).
Proof.
  intros Hp. destruct (lookup_lt_is_Some_2 _ _ Hp) as [x Hx].
  rewrite (lookup_total_Some _ _ _ Hx). apply lookup_total_Some. by rewrite list_lookup_alter_eq, Hx.
Qed.

(** The middle of sleep, with ptable.lock held. *)
Lemma sleep_park n m i c p d ch (rest : KM unit) :
  runs_proc m i c p → lk_free m L_ptable → (p < length (d_procs d))%nat →
  ∃ k, (mod_proc p (λ p, p <| p_chan := Some ch |>) ;; mod_proc p (λ p, p <| p_state := SLEEPING |>) ;;
        sched ;; mod_proc p no_chan ;; rest) n (K (acq L_ptable m) d)
      = Block W_sched (K (acq L_ptable m) (d <| d_procs := alter (asleep ch) p (d_procs d) |>)) k
    ∧ ∀ m' i' c' d', runs_proc m' i' c' p → lk_free m' L_ptable →
        k (K (acq L_ptable m') d')
        = rest n (K (acq L_ptable m') (d' <| d_procs := alter no_chan p (d_procs d') |>)).
Proof.
  intros Hr Hf Hp. krun. rewrite list_alter_alter_eq.
  set (d1 := d <| d_procs := alter (asleep ch) p (d_procs d) |>).
  destruct (sched_blocks n m i c p d1) as (k & Hk & Hres); [done | done | |].
  { subst d1. simpl. by rewrite alter_state_lookup. }
  fold (asleep ch). fold d1. erewrite bind_block by done. eexists. split; [done|].
  intros m' i' c' d' Hr' Hf'. simpl. by rewrite (Hres _ _ _ d' Hr' Hf').
Qed.

Lemma release_acq_acq n m d i c lk lk' :
  mach_ok m i c → lk_free m lk → lk ≠ lk' →
  release lk n (K (acq lk' (acq lk m)) d) = Done tt (K (acq lk' m) d).
Proof.
  intros Hok Hf Hne.
  erewrite release_done; [by erewrite rel_acq_acq | by eapply mach_ok_acq, mach_ok_acq
    | apply acq_held_other; [done|by eapply acq_held] |].
  rewrite !cpu_push_depth. pose proof (mo_depth _ _ _ Hok). lia.
Qed.

(** sleep on a channel with the lock [lk] held. *)
Lemma sleep_blocks n m i c p d ch lk :
  runs_proc m i c p → lk_free m lk → lk_free m L_ptable → lk ≠ L_ptable → (p < length (d_procs d))%nat →
  ∃ k, sleep ch (Some lk) n (K (acq lk m) d)
      = Block W_sched (K (acq L_ptable m) (d <| d_procs := alter (asleep ch) p (d_procs d) |>)) k
    ∧ ∀ m' i' c' d', runs_proc m' i' c' p → lk_free m' L_ptable → lk_free m' lk →
        k (K (acq L_ptable m') d') = Done tt (K (acq lk m') (d' <| d_procs := alter no_chan p (d_procs d') |>)).
Proof.
  intros Hr Hlk Hpt Hne Hp. pose proof (rp_ok _ _ _ _ Hr) as Hok.
  pose proof (mach_ok_acq lk m i c Hok) as Hok'. unfold sleep, sleep_with.
  erewrite bind_done by by eapply myproc_done. rewrite cpu_push_proc, (rp_proc _ _ _ _ Hr).
  rewrite bool_decide_eq_false_2 by congruence. simpl.
  assert (Hpt' : lk_free (acq lk m) L_ptable) by by apply acq_free_other.
  rewrite (bind_done _ _ _ (K (acq lk m) d) tt (K (acq L_ptable m) d)).
  2:{ cbn [when]. kcall acquire_done. by eapply release_acq_acq. }
  destruct (sleep_park n m i c p d ch (release L_ptable ;; acquire lk)) as (k & Hk & Hres); [done..|].
  exists k. split; [exact Hk|]. intros m' i' c' d' Hr' Hf' Hlk'. rewrite (Hres _ _ _ d' Hr' Hf').
  pose proof (rp_ok _ _ _ _ Hr'). kcall release_acq. by erewrite acquire_done.
Qed.

(** sleep with ptable.lock itself, as wait() does: no lock is taken or given
    back on the way. *)
Lemma sleep_ptable_blocks acq' rel' n m i c p d ch :
  runs_proc m i c p → lk_free m L_ptable → (p < length (d_procs d))%nat →
  ∃ k, sleep_with acq' rel' ch (Some L_ptable) n (K (acq L_ptable m) d)
      = Block W_sched (K (acq L_ptable m) (d <| d_procs := alter (asleep ch) p (d_procs d) |>)) k
    ∧ ∀ m' i' c' d', runs_proc m' i' c' p → lk_free m' L_ptable →
        k (K (acq L_ptable m') d') = Done tt (K (acq L_ptable m') (d' <| d_procs := alter no_chan p (d_procs d') |>)).
Proof.
  intros Hr Hpt Hp. pose proof (rp_ok _ _ _ _ Hr) as Hok.
  pose proof (mach_ok_acq L_ptable m i c Hok) as Hok'. unfold sleep_with.
  erewrite bind_done by by eapply myproc_done. rewrite cpu_push_proc, (rp_proc _ _ _ _ Hr).
  rewrite bool_decide_eq_true_2 by done. cbn [negb when].
  rewrite bind_mret.
  destruct (sleep_park n m i c p d ch (mret tt)) as (k & Hk & Hres); [done..|].
  exists k. split; [exact Hk|]. intros m' i' c' d' Hr' Hf'. by rewrite (Hres _ _ _ d' Hr' Hf').
Qed.

(** ** The other CPUs at every lock operation

    [acquire_smp] lets the other CPUs run before it takes the lock, and
    [release_smp] after it has given it back.  Code between two such points
    touches only what its locks protect, so these are the points at which
    their steps can be told apart. *)
Definition acquire_smp (lk : lockid) : KM unit := swtch (W_lock lk) ;; acquire lk.
Definition release_smp (lk : lockid) : KM unit := release lk ;; swtch (W_unlocked lk).

(** The machine [m] after this CPU has taken the locks [hl]. *)
Definition acqs (hl : list lockid) (m : mach) : mach := foldr acq m hl.
Definition no_lock (m : mach) (i : nat) : Prop := ∀ lk, ¬ lk_held m i lk.
(** Process [p] runs on CPU [i], which can take the locks [ls] and holds none. *)
Record idle_on (m : mach) (i : nat) (c : cpu) (p : nat) (ls : list lockid) : Prop := {
  io_runs : runs_proc m i c p;
  io_none : no_lock m i;
  io_free : ∀ lk, lk ∈ ls → lk_free m lk
}.
(** What the other CPUs leave alone while [p] runs holding [hl]: the table if
    ptable.lock is among them, and always the state and the channel of [p]. *)
Record kept (p : nat) (hl : list lockid) (d d' : kdata) : Prop := {
  kp_len : length (d_procs d') = length (d_procs d);
  kp_procs : L_ptable ∈ hl → d_procs d' = d_procs d;
  kp_state : p_state (d_procs d' !!! p) = p_state (d_procs d !!! p);
  kp_chan : p_chan (d_procs d' !!! p) = p_chan (d_procs d !!! p)
}.
(** What the other CPUs do while process [p] is at a point [w].  With the
    locks [hl] held they may do anything but take those locks away or break
    [kept]; [p] goes on, possibly on another CPU, and the lock it asks for is free
    then.  Once it has called swtch with ptable.lock held they do anything,
    until a scheduler runs [p] again and hands it ptable.lock. *)
Definition others (p : nat) (w : wait_reason) (s s' : kst) : Prop :=
  ∀ i c hl m d, s = K (acqs hl m) d → idle_on m i c p hl →
    ∃ m' i' c' d', s' = K (acqs hl m') d' ∧
      match w with
      | W_lock l => idle_on m' i' c' p (l :: hl) ∧ kept p hl d d'
      | W_unlocked _ => idle_on m' i' c' p hl ∧ kept p hl d d'
      | W_sched => hl = [L_ptable] → idle_on m' i' c' p hl ∧ length (d_procs d') = length (d_procs d)
      | _ => False
      end.

(** This CPU holds [lk]. *)
Definition holds (s : kst) (lk : lockid) : Prop := ∃ i, this_cpu (km s) = Some i ∧ lk_held (km s) i lk.

Lemma acqs_ok hl m i c : mach_ok m i c → ∃ c', mach_ok (acqs hl m) i c' ∧ c_proc c' = c_proc c.
Proof.
  intros Hok. induction hl as [|l hl (c' & H & Hp)]; [by exists c|].
  eexists. split; [by apply mach_ok_acq|]. by rewrite cpu_push_proc.
Qed.
Lemma acqs_free hl m l : l ∉ hl → lk_free m l → lk_free (acqs hl m) l.
Proof.
  intros Hl Hf. induction hl as [|l' hl IH]; [done|]. apply not_elem_of_cons in Hl as [? ?].
  apply acq_free_other; auto.
Qed.
Lemma holds_acq lk m i c d : mach_ok m i c → lk_free m lk → holds (K (acq lk m) d) lk.
Proof. intros Hok Hf. exists i. split; [apply (mo_this _ _ _ (mach_ok_acq lk _ _ _ Hok)) | by eapply acq_held]. Qed.
Lemma holds_acq_other lk lk' m d : lk ≠ lk' → holds (K m d) lk' → holds (K (acq lk m) d) lk'.
Proof. intros Hne (i & H1 & H2). exists i. split; [by rewrite <- H1; apply this_cpu_acq | by apply acq_held_other]. Qed.
Lemma not_holds_acq lk lk' m i c d :
  mach_ok m i c → no_lock m i → lk ≠ lk' → ¬ holds (K (acq lk m) d) lk'.
Proof.
  intros Hok Hno Hne (j & Hj & [nm Hh]). cbn [km] in *. rewrite this_cpu_acq, (mo_this _ _ _ Hok) in Hj.
  injection Hj as <-. rewrite acq_other in Hh by done. apply (Hno lk'). by exists nm.
Qed.
Lemma idle_on_sub m i c p ls ls' : idle_on m i c p ls → ls' ⊆ ls → idle_on m i c p ls'.
Proof. intros [? ? ?] Hs. split; auto. Qed.
Lemma idle_on_ok m i c p ls : idle_on m i c p ls → mach_ok m i c.
Proof. intros [[? ? ? ?] ? ?]. done. Qed.

Lemma wpg_acquire_smp G p n i c hl m d l Q :
  idle_on m i c p hl → l ∉ hl → G (W_lock l) (K (acqs hl m) d) →
  (∀ m' i' c' d', idle_on m' i' c' p (l :: hl) → kept p hl d d' → Q tt (K (acqs (l :: hl) m') d')) →
  wpg G (others p) (acquire_smp l n (K (acqs hl m) d)) Q.
Proof.
  intros Hi Hl HG HQ. split; [exact HG|]. intros s' Hs.
  destruct (Hs i c hl m d eq_refl Hi) as (m' & i' & c' & d' & -> & Hi' & Hk). cbn.
  destruct (acqs_ok hl m' i' c' (rp_ok _ _ _ _ (io_runs _ _ _ _ _ Hi'))) as (c1 & Hok & _).
  rewrite (acquire_done n _ d' i' c1 l Hok).
  - by apply (HQ m' i' c' d').
  - apply acqs_free; [done|]. apply (io_free _ _ _ _ _ Hi'). apply list_elem_of_here.
Qed.
Lemma wpg_release_smp G p n i c hl m M d l Q :
  idle_on m i c p hl → release l n (K M d) = Done tt (K (acqs hl m) d) → G (W_unlocked l) (K (acqs hl m) d) →
  (∀ m' i' c' d', idle_on m' i' c' p hl → kept p hl d d' → Q tt (K (acqs hl m') d')) →
  wpg G (others p) (release_smp l n (K M d)) Q.
Proof.
  intros Hi Hr HG HQ. unfold release_smp. apply wpg_bind. rewrite Hr. split; [exact HG|].
  intros s' Hs. destruct (Hs i c hl m d eq_refl Hi) as (m' & i' & c' & d' & -> & Hi' & Hk). by apply (HQ m' i' c' d').
Qed.

(** What is true of process [p] at each point inside sleep(ch, lk): it still
    holds lk when it waits for ptable.lock; when lk is free it has
    ptable.lock; when it gives the processor away it is asleep on ch, with
    ptable.lock and without lk; and when it lets go of ptable.lock after that, and
    waits for lk, it is not on ch any more. *)
Definition sleep_points (p : nat) (ch : chan) (lk : lockid) (w : wait_reason) (s : kst) : Prop :=
  let me := d_procs (kd s) !!! p in
  match w with
  | W_lock l => l = L_ptable ∧ holds s lk ∨ l = lk ∧ p_chan me = None
  | W_unlocked l => l = lk ∧ holds s L_ptable ∨ l = L_ptable ∧ p_chan me = None
  | W_sched => holds s L_ptable ∧ ¬ holds s lk ∧ p_state me = SLEEPING ∧ p_chan me = Some ch
  | _ => False
  end.

(** From where lk has been given back. *)
Lemma sleep_smp_park n m i c p d ch lk len :
  idle_on m i c p [L_ptable] → lk ≠ L_ptable → length (d_procs d) = len → (p < len)%nat →
  wpg (sleep_points p ch lk) (others p)
    ((mod_proc p (λ p, p <| p_chan := Some ch |>) ;; mod_proc p (λ p, p <| p_state := SLEEPING |>) ;;
      sched ;; mod_proc p no_chan ;; release_smp L_ptable ;; acquire_smp lk) n (K (acq L_ptable m) d))
    (λ _ s, ∃ m' i' c' d', s = K (acq lk m') d' ∧ idle_on m' i' c' p [lk]
       ∧ length (d_procs d') = len ∧ p_chan (d_procs d' !!! p) = None).
Proof.
  intros Hi Hne Hlen Hp. destruct (sleep_park n m i c p d ch (release_smp L_ptable ;; acquire_smp lk)) as (k & Hk & Hres);
    [apply Hi | apply (io_free _ _ _ _ _ Hi); set_solver | lia |].
  rewrite Hk. split; [|intros s' Hs].
  { unfold sleep_points. cbn [kd d_procs set_field set_d_procs]. rewrite alter_state_lookup by lia.
    split_and!; [eapply holds_acq; [by eapply idle_on_ok | apply (io_free _ _ _ _ _ Hi); set_solver]
      | eapply not_holds_acq; [by eapply idle_on_ok | apply Hi | done] | done | done]. }
  destruct (Hs i c [L_ptable] m _ eq_refl Hi) as (m1 & i1 & c1 & d1 & -> & H1). destruct (H1 eq_refl) as [H2 Hl1].
  cbn [d_procs set_field set_d_procs] in Hl1. rewrite length_alter, Hlen in Hl1.
  assert (Hf : lk_free m1 L_ptable) by (apply (io_free _ _ _ _ _ H2); set_solver).
  pose proof (idle_on_ok _ _ _ _ _ H2) as Hok1. cbn [acqs foldr]. rewrite (Hres m1 i1 c1 d1 (io_runs _ _ _ _ _ H2) Hf).
  assert (Hc : p_chan (alter no_chan p (d_procs d1) !!! p) = None) by (rewrite alter_state_lookup; [done | lia]).
  apply wpg_bind. apply (wpg_release_smp _ p n i1 c1 [] m1);
    [eapply idle_on_sub; [exact H2 | set_solver] | by erewrite release_acq | by right |].
  intros m2 i2 c2 d2 H3 K3. apply (wpg_acquire_smp _ p n i2 c2 [] m2); [done | set_solver | right; split; [done|] |].
  { cbn [kd]. by rewrite (kp_chan _ _ _ _ K3). }
  intros m3 i3 c3 d3 H4 K4. exists m3, i3, c3, d3. split_and!; [done | done | |].
  - rewrite (kp_len _ _ _ _ K4), (kp_len _ _ _ _ K3). cbn [d_procs set_field set_d_procs]. by rewrite length_alter.
  - by rewrite (kp_chan _ _ _ _ K4), (kp_chan _ _ _ _ K3).
Qed.

Lemma sleep_smp n m i c p d ch lk :
  idle_on m i c p [lk] → lk ≠ L_ptable → (p < length (d_procs d))%nat →
  wpg (sleep_points p ch lk) (others p) (sleep_with acquire_smp release_smp ch (Some lk) n (K (acq lk m) d))
    (λ _ s, ∃ m' i' c' d', s = K (acq lk m') d' ∧ idle_on m' i' c' p [lk]
       ∧ length (d_procs d') = length (d_procs d) ∧ p_chan (d_procs d' !!! p) = None).
Proof.
  intros Hi Hne Hp. unfold sleep_with.
  erewrite bind_done by (eapply myproc_done, mach_ok_acq, idle_on_ok; exact Hi).
  rewrite cpu_push_proc, (rp_proc _ _ _ _ (io_runs _ _ _ _ _ Hi)), bool_decide_eq_false_2 by congruence. cbn [negb when].
  apply wpg_bind, wpg_bind. apply (wpg_acquire_smp _ p n i c [lk] m d); [done | set_solver | left; split; [done|] |].
  { eapply holds_acq; [by eapply idle_on_ok | apply (io_free _ _ _ _ _ Hi); set_solver]. }
  intros m1 i1 c1 d1 H1 K1. pose proof (idle_on_ok _ _ _ _ _ H1) as Hok1.
  assert (Hf1 : lk_free m1 L_ptable ∧ lk_free m1 lk) by (split; apply (io_free _ _ _ _ _ H1); set_solver).
  apply (wpg_release_smp _ p n i1 c1 [L_ptable] m1); [eapply idle_on_sub; [exact H1 | set_solver] | | left; split; [done|] |].
  { cbn [acqs foldr]. rewrite (release_acq_acq n m1 d1 i1 c1); naive_solver. }
  { eapply holds_acq; [exact Hok1 | apply Hf1]. }
  intros m2 i2 c2 d2 H2 K2. apply (sleep_smp_park n m2 i2 c2 p d2 ch lk); [done | done | | done].
  by rewrite (kp_len _ _ _ _ K2), (kp_len _ _ _ _ K1).
Qed.

(** C2: sleep and wakeup hand over without losing a wakeup, with the other
    CPUs running at every point where sleep takes or gives back a lock; a lock it
    asks for is free in the end.
    Called with lk held, sleep(ch, lk) still holds lk while it waits for
    ptable.lock; from the moment lk is free until the process is asleep on ch and
    gives the processor away, it holds ptable.lock; and when it returns, with
    any steps of the others in between, it holds lk and no other lock and
    its channel is cleared.
    While a CPU holds ptable.lock, a wakeup on any other CPU does nothing but
    spin, so it cannot run between the release of lk and the sleep.  A wakeup(ch)
    that gets the lock after that makes the process runnable, and changes no
    process that is not asleep on ch.  If nobody interferes, sleep goes
    straight to sched and changes nothing but its own slot. *)
Theorem sleep_wakeup n m i c p d ch lk :
  idle_on m i c p [lk; L_ptable] → lk ≠ L_ptable → (p < length (d_procs d))%nat →
  wpg (sleep_points p ch lk) (others p) (sleep_with acquire_smp release_smp ch (Some lk) n (K (acq lk m) d))
    (λ _ s, ∃ m' i' c' d', s = K (acq lk m') d' ∧ idle_on m' i' c' p [lk]
       ∧ length (d_procs d') = length (d_procs d) ∧ p_chan (d_procs d' !!! p) = None)
  ∧ (∀ mj j cj dj nm h, mach_ok mj j cj → m_locks mj !! L_ptable = Some (Spinlock 1 nm (Some h)) → j ≠ h →
       ∃ k, wakeup ch (S n) (K mj dj) = Block (W_spin L_ptable) (K (push mj) dj) k)
  ∧ (∀ mw iw cw dw q, mach_ok mw iw cw → lk_free mw L_ptable → length (d_procs dw) = NPROC →
       d_procs dw !! p = Some q → p_state q = SLEEPING → p_chan q = Some ch →
       ∃ ps2, wakeup ch n (K mw dw) = Done tt (K mw (dw <| d_procs := ps2 |>))
         ∧ p_state (ps2 !!! p) = RUNNABLE
         ∧ ∀ j q, d_procs dw !! j = Some q → p_state q ≠ SLEEPING ∨ p_chan q ≠ Some ch → ps2 !! j = Some q)
  ∧ ∃ k, sleep ch (Some lk) n (K (acq lk m) d)
        = Block W_sched (K (acq L_ptable m) (d <| d_procs := alter (asleep ch) p (d_procs d) |>)) k
      ∧ (∀ m' i' c' d', runs_proc m' i' c' p → lk_free m' L_ptable → lk_free m' lk →
           k (K (acq L_ptable m') d')
           = Done tt (K (acq lk m') (d' <| d_procs := alter no_chan p (d_procs d') |>))).
Proof.
  intros Hi Hne Hp. split_and!.
  - apply (sleep_smp n m i c p d ch lk); [|exact Hne | exact Hp]. eapply idle_on_sub; [exact Hi|]. clear. set_solver.
  - intros mj j cj dj nm h Hok Hl Hjh. destruct (acquire_busy n mj dj j h cj L_ptable nm Hok Hl Hjh) as [k Hk].
    unfold wakeup. eexists. erewrite bind_block by exact Hk. reflexivity.
  - intros mw iw cw dw q Hmw Hfw Hlen Hq Hs Hc. eexists.
    rewrite (wakeup_done n mw dw iw cw) by done. split_and!; [done | |].
    + rewrite (lookup_total_Some _ _ (wake (Some ch) q)) by by rewrite list_lookup_fmap, Hq.
      unfold wake. by rewrite !bool_decide_eq_true_2.
    + intros j q' Hq' Hno. rewrite list_lookup_fmap, Hq'. simpl. f_equal. unfold wake.
      destruct Hno; [rewrite (bool_decide_eq_false_2 (p_state q' = _)) by done
                    | rewrite (bool_decide_eq_false_2 (p_chan q' = _)), andb_false_r by done]; done.
  - apply (sleep_blocks n m i c p d ch lk); [apply Hi | apply (io_free _ _ _ _ _ Hi); set_solver.. | done | done].
Qed.

(** A concrete thread: process 0 on a machine of one CPU. *)
Definition sched_locks : list (lockid * string) :=
  [(L_ptable, "ptable"); (L_kmem, "kmem"); (L_cons, "console")].
Definition mt : mach := proc_mach 0 sched_locks.
Definition dt : kdata :=
  let d := zero_data (Image (KERNBASE + 0x110000) (KERNBASE + 0x108000) 0x80103000 0x80105000 [])
             (λ _, 0) (λ _ _, []) in
  d <| d_procs := <[0%nat := proc0 <| p_state := RUNNING |> <| p_pid := 7 |>]> (d_procs d) |>.
Definition ct : cpu := idle_cpu 0 <| c_proc := Some 0%nat |>.
Lemma runs_proc_mt : runs_proc mt 0 ct 0.
Proof. split; [split|..]; try done. by right. Qed.

Lemma idle_on_mt ls : (∀ lk, lk ∈ ls → lk_free mt lk) → idle_on mt 0 ct 0 ls.
Proof.
  intros Hls. split; [apply runs_proc_mt | | done]. intros lk [nm H].
  assert (Hall : map_Forall (λ _ l, sl_locked l = 0) (m_locks mt)) by (apply (bool_decide_unpack _); vm_compute; exact I).
  specialize (Hall _ _ H). done.
Qed.

Lemma sleep_wakeup_witness :
  wpg (sleep_points 0 Ch_input L_cons) (others 0)
    (sleep_with acquire_smp release_smp Ch_input (Some L_cons) 0%nat (K (acq L_cons mt) dt))
    (λ _ s, ∃ m' i' c' d', s = K (acq L_cons m') d' ∧ idle_on m' i' c' 0 [L_cons]
       ∧ length (d_procs d') = NPROC ∧ p_chan (d_procs d' !!! 0%nat) = None).
Proof.
  destruct (sleep_wakeup 0 mt 0 ct 0 dt Ch_input L_cons) as [H _]; [|done | simpl; lia | exact H].
  apply idle_on_mt. intros lk [->|[->|[]%not_elem_of_nil]%elem_of_cons]%elem_of_cons; by eexists.
Defined.

(** ** kill *)

(** kill(pid) finds the first process of that pid, marks it killed and
    makes it runnable if it sleeps, changes nothing else of it and no other
    process, and returns 0; it returns -1 and changes nothing exactly when no
    process has the pid. *)
Theorem kill_spec n m i c d pid :
  mach_ok m i c → lk_free m L_ptable → length (d_procs d) = NPROC →
  (∃ k p, d_procs d !! k = Some p ∧ p_pid p = u32 pid ∧
     (∀ j q, (j < k)%nat → d_procs d !! j = Some q → p_pid q ≠ u32 pid) ∧
     kill pid n (K m d) = Done 0 (K m (d <| d_procs := <[k := p <| p_killed := 1 |>
       <| p_state := if bool_decide (p_state p = SLEEPING) then RUNNABLE else p_state p |>]> (d_procs d) |>)))
  ∨ ((∀ p, p ∈ d_procs d → p_pid p ≠ u32 pid) ∧ kill pid n (K m d) = Done (-1) (K m d)).
Proof.
  intros Hok Hf Hlen. rewrite (kill_done n m d i c) by done.
  destruct (first_proc _ _) as [k|] eqn:E.
  - left. apply first_proc_Some in E as (p & Hp & Ht & Hlt). exists k, p.
    unfold has_pid in *. split_and!; [done | by apply Z.eqb_eq | |].
    + intros j q Hj Hq. by apply Z.eqb_neq, (Hlt j q).
    + do 2 f_equal. rewrite (list_alter_insert_at kill_proc _ _ _ Hp).
      unfold kill_proc. destruct p as [????st]; simpl. by destruct (bool_decide (st = SLEEPING)).
  - right. split; [|done]. intros p Hp. apply Z.eqb_neq. by eapply first_proc_None in E.
Qed.
Lemma kill_spec_witness : ∃ r s, kill 7 0%nat (K mt dt) = Done r s.
Proof.
  destruct (kill_spec 0 mt 0 ct dt 7) as [(k & p & _ & _ & _ & H)|[_ H]];
    [apply runs_proc_mt | by eexists | done | |]; eexists _, _; exact H.
Defined.

(** ** allocproc *)

Definition is_unused (p : proc) : bool := bool_decide (p_state p = UNUSED).
(** The process before it has a kernel stack, and after. *)
Definition embryo (pid : Z) (p : proc) : proc :=
  p <| p_state := EMBRYO |> <| p_pid := pid |> <| p_priority := DEFAULTPRIORITY |>.
Definition with_stack (ks : Z) (p : proc) : proc :=
  p <| p_kstack := ks |> <| p_tf := ks + KSTACKSIZE - sizeof_trapframe |>
    <| p_context := ks + KSTACKSIZE - sizeof_trapframe - 4 - sizeof_context |>
    <| p_sys_count := replicate SYS_cn 0 |>.
(** The kernel stack a new process starts on. *)
Definition stack_image (im : image) (ks : Z) (m : mem) : mem :=
  let sp := ks + KSTACKSIZE - sizeof_trapframe - 4 in
  let ctx := sp - sizeof_context in
  store32 (memset (store32 m sp (im_trapret im)) ctx 0 sizeof_context) (ctx + ctx_eip) (im_forkret im).

Lemma alloc_search n m d :
  length (d_procs d) = NPROC →
  searchM procs (λ i, p ← get_proc i; mret (if bool_decide (p_state p = UNUSED) then Some i else None)) n (K m d)
  = Done (first_proc is_unused (d_procs d)) (K m d).
Proof.
  intros Hlen. rewrite (procs_seq d Hlen).
  rewrite (searchM_done (λ k, if is_unused (d_procs d !!! k) then Some (k, K m d) else None)).
  - rewrite (first_some_proc is_unused (d_procs d) (λ k, (k, K m d))). by destruct (first_proc _ _).
  - intros k _. krun. unfold is_unused. by case_bool_decide.
Qed.

Lemma allocproc_none n m d i c :
  mach_ok m i c → lk_free m L_ptable → length (d_procs d) = NPROC →
  first_proc is_unused (d_procs d) = None → allocproc n (K m d) = Done None (K m d).
Proof.
  intros Hok Hf Hlen E. unfold allocproc. kcall acquire_done.
  rewrite (bind_done _ _ _ _ _ _ (alloc_search n _ d Hlen)), E. by kcall release_acq.
Qed.

(** What allocproc does to the data when slot [k] is the first unused one. *)
Definition alloc_data (k : nat) (d : kdata) : kdata :=
  d <| d_procs := alter (embryo (d_nextpid d)) k (d_procs d) |> <| d_nextpid := d_nextpid d +u 1 |>.
Definition alloc_data_stack (k : nat) (ks : Z) (d : kdata) : kdata :=
  d <| d_procs := alter (with_stack ks) k (d_procs d) |>
    <| d_mm := d_mm d <| mm_mem := stack_image (d_im d) ks (mm_mem (d_mm d)) |> |>.

Lemma can_lock_ok m d i c : mach_ok m i c → lk_free m L_kmem → can_lock m d.
Proof. intros. right. by exists i, c. Qed.

Lemma allocproc_done n m d i c k l :
  mach_ok m i c → lk_free m L_ptable → lk_free m L_kmem → length (d_procs d) = NPROC → kmem_ok d l →
  first_proc is_unused (d_procs d) = Some k →
  allocproc n (K m d) =
    match l with
    | [] => Done None (K m (alloc_data k d <| d_procs :=
              alter (λ p, p <| p_kstack := 0 |> <| p_state := UNUSED |>) k (d_procs (alloc_data k d)) |>))
    | x :: _ => Done (Some k) (K m (alloc_data_stack k x (alloc_data k d <| d_mm := kalloc_mm (d_mm d) |>)))
    end.
Proof.
  intros Hok Hf Hkm Hlen Hkok E. unfold allocproc. kcall acquire_done.
  rewrite (bind_done _ _ _ _ _ _ (alloc_search n _ d Hlen)), E. krun.
  rewrite !list_alter_alter_eq. kcall release_acq.
  match goal with |- context [K m ?D] => change D with (alloc_data k d) end.
  pose proof (can_lock_ok m (alloc_data k d) i c Hok Hkm) as Hcl.
  rewrite (bind_done _ _ _ _ _ _ (kalloc_done n m _ Hcl)).
  change (d_mm (alloc_data k d)) with (d_mm d).
  destruct l as [|x l].
  - destruct (kalloc_mm_nil d Hkok) as [-> ->]. krun. krun. by rewrite !list_alter_alter_eq.
  - destruct (kalloc_mm_pop d x l Hkok) as (-> & _ & _). krun.
    pose proof (pages_nonnull _ _ (ko_pages _ _ Hkok)) as Hnz. inversion Hnz as [|? ? Hx _]; subst.
    rewrite (proj2 (Z.eqb_neq _ _) Hx). unfold store32M. krun. unfold alloc_data_stack, alloc_data. simpl. by rewrite !list_alter_alter_eq.
Qed.

Lemma stack_image_frame im ks m b : ¬ (ks <= b < ks + KSTACKSIZE) → stack_image im ks m b = m b.
Proof.
  intros Hb. unfold stack_image, KSTACKSIZE, sizeof_trapframe, sizeof_context, ctx_eip in *.
  rewrite store32_frame, memset_lookup, decide_False, store32_frame by lia. done.
Qed.
(** The saved context starts at forkret, with zeroed registers, and returns
    to trapret. *)
Lemma stack_image_words im ks m :
  is_u32 (im_forkret im) → is_u32 (im_trapret im) →
  let ctx := ks + KSTACKSIZE - sizeof_trapframe - 4 - sizeof_context in
  load32 (stack_image im ks m) (ctx + ctx_eip) = im_forkret im
  ∧ load32 (stack_image im ks m) (ctx + sizeof_context) = im_trapret im
  ∧ ∀ k, 0 <= k < 4 → load32 (stack_image im ks m) (ctx + 4 * k) = 0.
Proof.
  intros H1 H2 ctx. unfold stack_image. fold ctx. split_and!.
  - rewrite load32_store32. by apply u32_small.
  - unfold ctx_eip, sizeof_context in *. rewrite load32_store32_ne by lia.
    rewrite (load32_frame (store32 m (ks + KSTACKSIZE - sizeof_trapframe - 4) (im_trapret im))).
    + replace (ctx + 20) with (ks + KSTACKSIZE - sizeof_trapframe - 4) by (subst ctx; lia).
      rewrite load32_store32. by apply u32_small.
    + intros b Hb. rewrite memset_lookup, decide_False by lia. done.
  - intros k Hk. unfold ctx_eip, sizeof_context in *. rewrite load32_store32_ne by lia.
    unfold load32. rewrite !memset_lookup by lia. rewrite !decide_True by lia. done.
Qed.

(** allocproc takes the first unused slot and a free page: the new
    process is an EMBRYO with the next pid, the default priority and all its
    system call counts zero; its kernel stack is the page, laid out so that
    the first switch to it runs forkret and returns to trapret.  No other
    process and no memory outside the page changes.  Without an unused slot
    it returns null and changes nothing; without memory it returns null and
    the slot is unused again. *)
Theorem allocproc_spec n m d i c l :
  mach_ok m i c → lk_free m L_ptable → lk_free m L_kmem → length (d_procs d) = NPROC → kmem_ok d l →
  is_u32 (im_forkret (d_im d)) → is_u32 (im_trapret (d_im d)) →
  match first_proc is_unused (d_procs d), l with
  | None, _ => allocproc n (K m d) = Done None (K m d)
  | Some k, [] => ∃ d', allocproc n (K m d) = Done None (K m d')
      ∧ p_state (d_procs d' !!! k) = UNUSED ∧ ∀ j, j ≠ k → d_procs d' !! j = d_procs d !! j
  | Some k, x :: l' => ∃ d' p, allocproc n (K m d) = Done (Some k) (K m d') ∧ kmem_ok d' l'
      ∧ d_procs d' !! k = Some p ∧ p_state p = EMBRYO ∧ p_pid p = d_nextpid d
      ∧ d_nextpid d' = d_nextpid d +u 1
      ∧ p_priority p = DEFAULTPRIORITY ∧ p_kstack p = x ∧ p_sys_count p = replicate SYS_cn 0
      ∧ load32 (mm_mem (d_mm d')) (p_context p + ctx_eip) = im_forkret (d_im d)
      ∧ load32 (mm_mem (d_mm d')) (p_context p + sizeof_context) = im_trapret (d_im d)
      ∧ p_tf p = p_context p + sizeof_context + 4 ∧ p_tf p + sizeof_trapframe = x + KSTACKSIZE
      ∧ (∀ j, j ≠ k → d_procs d' !! j = d_procs d !! j)
      ∧ (∀ b, ¬ (x <= b < x + PGSIZE) → mm_mem (d_mm d') b = mm_mem (d_mm d) b)
  end.
Proof.
  intros Hok Hpt Hkm Hlen Hkok Hfr Htr. destruct (first_proc is_unused (d_procs d)) as [k|] eqn:E;
    [|by eapply allocproc_none].
  rewrite (allocproc_done n m d i c k l) by done.
  destruct (first_proc_Some _ _ _ E) as (p & Hp & _ & _). destruct l as [|x l].
  - eexists. split; [done|]. simpl. split.
    + rewrite alter_state_lookup by (rewrite length_alter; by eapply lookup_lt_Some). done.
    + intros j Hj. by rewrite !list_lookup_alter_ne.
  - destruct (kalloc_mm_pop d x l Hkok) as (_ & Ek & Hok').
    destruct (stack_image_words (d_im d) x (mm_mem (kalloc_mm (d_mm d))) Hfr Htr) as (H1 & H2 & _).
    eexists _, (with_stack x (embryo (d_nextpid d) p)). split; [done|]. split_and!; try done.
    + eapply kmem_ok_frame; [| | |exact Hok']; [done | done |].
      intros y b Hy Hb. simpl. apply stack_image_frame.
      destruct (pages_apart x y) as [?|?]; [| | | |].
      * by apply (Forall_inv (ko_pages _ _ Hkok)).
      * by apply (Forall_forall (page_ok (d_im d)) (x :: l)); [apply Hkok | by apply list_elem_of_further].
      * intros ->. pose proof (ko_nodup _ _ Hkok) as [? _]%NoDup_cons. done.
      * unfold PGSIZE, KSTACKSIZE in *; lia.
      * unfold PGSIZE, KSTACKSIZE in *; lia.
    + simpl. by rewrite !list_lookup_alter_eq, Hp.
    + simpl. unfold sizeof_trapframe. lia.
    + simpl. lia.
    + intros j Hj. simpl. by rewrite !list_lookup_alter_ne.
    + intros b Hb. simpl. rewrite stack_image_frame by (unfold KSTACKSIZE, PGSIZE in *; lia). by rewrite Ek.
Qed.

(** The same state with one free page. *)
Definition page1 : Z := KERNBASE + 0x200000.
Definition dt1 : kdata := dt <| d_mm := kfree_mm page1 (d_mm dt) |>.
Lemma kmem_dt1 : kmem_ok dt1 [page1].
Proof.
  apply (kfree_mm_push dt page1 []); [by vm_compute | apply not_elem_of_nil | | done].
  split; [done | constructor..].
Qed.
Lemma allocproc_spec_witness : ∃ d', allocproc 0%nat (K mt dt1) = Done (Some 1%nat) (K mt d').
Proof.
  pose proof (allocproc_spec 0 mt dt1 0 ct [page1]) as H.
  replace (first_proc is_unused (d_procs dt1)) with (Some 1%nat) in H by done.
  destruct H as (d' & p & H & _);
    [apply runs_proc_mt | by eexists | by eexists | done | apply kmem_dt1 | done | done |].
  exists d'. exact H.
Defined.

(** ** kill on a pid that no process has

    The unused slots of the table have pid 0, and allocproc does not clear
    [killed]. *)

Lemma first_proc_alter test f k (ps : list proc) :
  (∀ p, test (f p) = test p) → first_proc test (alter f k ps) = first_proc test ps.
Proof.
  intros Hf. unfold first_proc. revert k. induction ps as [|p ps IH]; intros k; [done|].
  destruct k as [|k]; simpl.
  - rewrite Hf. by destruct (test p).
  - destruct (test p); simpl; [done|]. specialize (IH k).
    change (list_alter f k ps) with (alter f k ps).
    revert IH. destruct (list_find _ (alter f k ps)) as [[]|], (list_find _ ps) as [[]|];
      simpl; intros IH; simplify_eq/=; done.
Qed.

(** kill(0) does not fail when no process has pid 0: it marks an unused
    slot as killed and returns 0; the next process that fork creates there is
    born killed. *)
Theorem kill_zero n m d i c k x l :
  mach_ok m i c → lk_free m L_ptable → lk_free m L_kmem → length (d_procs d) = NPROC →
  kmem_ok d (x :: l) →
  first_proc (has_pid 0) (d_procs d) = Some k → first_proc is_unused (d_procs d) = Some k →
  ∃ d1 d2, kill 0 n (K m d) = Done 0 (K m d1) ∧ allocproc n (K m d1) = Done (Some k) (K m d2)
    ∧ p_killed (d_procs d2 !!! k) = 1.
Proof.
  intros Hok Hpt Hkm Hlen Hkok Epid Eun.
  exists (d <| d_procs := alter kill_proc k (d_procs d) |>).
  assert (Hk : first_proc is_unused (alter kill_proc k (d_procs d)) = Some k).
  { rewrite first_proc_alter; [done|]. intros p. unfold is_unused, kill_proc.
    destruct (bool_decide (p_state p = SLEEPING)) eqn:E; [|done].
    apply bool_decide_eq_true_1 in E. simpl. by rewrite E. }
  destruct (first_proc_Some _ _ _ Eun) as (p & Hp & Hu & _).
  unfold is_unused in Hu. apply bool_decide_eq_true_1 in Hu.
  eexists. rewrite (kill_done n m d i c) by done. rewrite Epid. split; [done|].
  rewrite (allocproc_done n m _ i c k (x :: l)); [split; [done|] | done | done | done | | by destruct Hkok; split | done].
  - simpl. rewrite !list_alter_alter_eq, alter_state_lookup by (by eapply lookup_lt_Some).
    rewrite (lookup_total_Some _ _ _ Hp). unfold kill_proc. simpl. by rewrite Hu.
  - simpl. by rewrite length_alter.
Qed.
Lemma kill_zero_witness :
  ∃ d1 d2, kill 0 0%nat (K mt dt1) = Done 0 (K mt d1) ∧ allocproc 0%nat (K mt d1) = Done (Some 1%nat) (K mt d2)
    ∧ p_killed (d_procs d2 !!! 1%nat) = 1.
Proof.
  apply (kill_zero 0 mt dt1 0 ct 1 page1 []);
    [apply runs_proc_mt | by eexists | by eexists | done | apply kmem_dt1 | done | done].
Defined.
