(* ===== verification/StateList.v ===== *)
(** * StateList: the lists of processes of proc.c (CS333_P3)

    The part of proc.c that a build with CS333_P3 adds: singly queued lists of
    processes with a head and a tail pointer.  [next] is the field next of the
    process table.  A null pointer that the code follows makes the result
    [None].  assertState works on the kernel's state. *)

From S2P Require Import Prelude Memory Kstate Spinlock Kalloc Cprintf Vm Sched.

Record ptrs := Ptrs { l_head : option nat; l_tail : option nat }.
Abbreviation links := (nat → option nat).

Definition stateListAdd (next : links) (l : ptrs) (p : nat) : option (links * ptrs) :=
  match l_head l with
  | None => Some (<[p := None]> next, Ptrs (Some p) (Some p))
  | Some _ =>
    t ← l_tail l;
    let next := <[t := Some p]> next in
    let tl := next t in
    t' ← tl;
    Some (<[t' := None]> next, Ptrs (l_head l) tl)
  end.

(** [while(current) { if(current == p) break; ... }]: previous and current. *)
Fixpoint find_loop (fuel : nat) (next : links) (p : nat) (previous current : option nat) : option (option nat * option nat) :=
  match fuel with
  | O => None
  | S fuel' =>
    match current with
    | None => Some (previous, None)
    | Some c => if bool_decide (c = p) then Some (previous, current) else find_loop fuel' next p current (next c)
    end
  end.

(** [fuel] bounds the length of the list. *)
Definition stateListRemove (fuel : nat) (next : links) (l : ptrs) (p : option nat) : option (Z * links * ptrs) :=
  match l_head l, l_tail l, p with
  | Some h, Some t, Some p =>
    if bool_decide (h = p) then
      let l' := Ptrs (next h) (l_tail l) in
      let l' := if bool_decide (l_tail l' = Some p) then Ptrs (l_head l') None else l' in
      Some (0, next, l')
    else
    r ← find_loop fuel next p None (Some h);
    match r with
    | (_, None) => Some (-1, next, l)
    | (previous, Some current) =>
      r ← (if bool_decide (Some current = l_tail l) then
             t ← previous;
             Some (<[t := None]> next, Ptrs (l_head l) previous)
           else
             q ← previous;
             Some (<[q := next current]> next, l));
      let '(next, l) := r in
      Some (0, <[p := None]> next, l)
    end
  | _, _, _ => Some (-1, next, l)
  end.

(** ptable.list (and ptable.ready): an array of lists *)
Definition empty_list : ptrs := Ptrs None None.
Definition initProcessLists (lists : procstate → ptrs) : procstate → ptrs := λ _, empty_list.

(** [for(p = ptable.proc; ...; ++p) { p->state = UNUSED; stateListAdd(...); }] *)
Fixpoint initFreeList_loop (ps : list nat) (next : links) (state : nat → procstate) (l : ptrs)
    : option (links * (nat → procstate) * ptrs) :=
  match ps with
  | [] => Some (next, state, l)
  | p :: ps' =>
    let state := <[p := UNUSED]> state in
    r ← stateListAdd next l p;
    initFreeList_loop ps' r.1 state r.2
  end.
Definition initFreeList (next : links) (state : nat → procstate) (l : ptrs) :=
  initFreeList_loop (seq 0 NPROC) next state l.

(** panics unless the process is in the given state *)
Definition assertState (p : nat) (state : procstate) (func : list Z) (line : Z) : KM unit :=
  x ← get_proc p;
  if bool_decide (p_state x = state) then mret tt else
  cprintf (cstring "Error: proc state is %s and should be %s.\nCalled from %s line %d\n")
    [A_str (Some (state_name (p_state x))); A_str (Some (state_name state)); A_str (Some func); A_int line] ;;
  panic "Error: Process state incorrect in assertState()".

(** ** The lists *)

(** [xs] is the list from [h] along next. *)
Fixpoint queued (next : links) (h : option nat) (xs : list nat) : Prop :=
  match xs with
  | [] => h = None
  | x :: xs' => h = Some x ∧ queued next (next x) xs'
  end.
Record is_list (next : links) (l : ptrs) (xs : list nat) : Prop := {
  il_head : queued next (l_head l) xs;
  il_tail : l_tail l = last xs;
  il_nodup : NoDup xs }.

Lemma queue_frame next next' h xs :
  (∀ x, x ∈ xs → next' x = next x) → queued next h xs → queued next' h xs.
Proof.
  revert h. induction xs as [|x xs IH]; intros h Hf; simpl; [done|]. intros [-> Hl]. split; [done|].
  rewrite Hf by set_solver. apply IH; [set_solver | done].
Qed.
(** Appending behind the last element. *)
Lemma queued_snoc next h xs t p :
  queued next h (xs ++ [t]) → t ∉ xs → p ∉ xs ++ [t] →
  queued (<[p := None]> (<[t := Some p]> next)) h (xs ++ [t; p]).
Proof.
  revert h. induction xs as [|x xs IH]; intros h; simpl.
  - intros [-> _] _ Hp. split; [done|]. rewrite fn_lookup_insert_ne by set_solver. rewrite fn_lookup_insert.
    split; [done|]. by rewrite fn_lookup_insert.
  - intros [-> Hl] Ht Hp. split; [done|]. rewrite !fn_lookup_insert_ne by set_solver. apply IH; set_solver.
Qed.

Lemma stateListAdd_done next l xs p :
  is_list next l xs → p ∉ xs →
  ∃ next' l', stateListAdd next l p = Some (next', l') ∧ is_list next' l' (xs ++ [p])
    ∧ ∀ q, q ∉ xs → q ≠ p → next' q = next q.
Proof.
  intros [Hh Ht Hn] Hp. unfold stateListAdd. destruct xs as [|x xs _] using rev_ind.
  - simpl in Hh. rewrite Hh. eexists _, _. split; [done|]. split.
    + split; [|done|apply NoDup_singleton]. simpl. by rewrite fn_lookup_insert.
    + intros q _ Hq. by rewrite fn_lookup_insert_ne.
  - rewrite last_snoc in Ht. assert (is_Some (l_head l)) as [y Hy].
    { destruct xs; simpl in Hh; destruct Hh as [-> _]; eauto. }
    apply NoDup_app in Hn as (Hn1 & Hn2 & _).
    rewrite Hy, Ht. cbn [mbind option_bind]. rewrite fn_lookup_insert. cbn [mbind option_bind]. eexists _, _. split; [done|]. split.
    + split.
      * simpl. rewrite <- Hy, <- app_assoc. apply queued_snoc; [done | set_solver | done].
      * simpl. by rewrite last_snoc.
      * apply NoDup_app. split; [|split; [set_solver | apply NoDup_singleton]].
        apply NoDup_app. split; [done|]. split; [done | apply NoDup_singleton].
    + intros q Hq Hqp. rewrite !fn_lookup_insert_ne by set_solver. done.
Qed.

Lemma find_loop_absent next p ys : ∀ fuel prev c,
  queued next c ys → p ∉ ys → (length ys < fuel)%nat →
  ∃ q, find_loop fuel next p prev c = Some (q, None).
Proof.
  induction ys as [|y ys IH]; intros [|fuel] prev c Hl Hp Hf; simpl in *; try lia.
  - rewrite Hl. eauto.
  - destruct Hl as [-> Hl]. rewrite bool_decide_eq_false_2 by set_solver. apply IH; [done | set_solver | lia].
Qed.
Lemma find_loop_found next p zs ys : ∀ fuel prev c,
  queued next c (ys ++ p :: zs) → p ∉ ys → (length ys < fuel)%nat →
  find_loop fuel next p prev c = Some (match last ys with Some q => Some q | None => prev end, Some p).
Proof.
  induction ys as [|y ys IH]; intros [|fuel] prev c Hl Hp Hf; simpl in *; try lia.
  - destruct Hl as [-> _]. by rewrite bool_decide_eq_true_2.
  - destruct Hl as [-> Hl]. rewrite bool_decide_eq_false_2 by set_solver.
    rewrite IH by (done || set_solver || lia). destruct ys as [|z ys]; [done|]. rewrite last_cons_cons.
    destruct (last (z :: ys)) eqn:E; [done|]. by apply last_None in E.
Qed.

(** Taking [p] out behind [q]. *)
Lemma queue_unlink next h ys q p zs :
  queued next h (ys ++ q :: p :: zs) → NoDup (ys ++ q :: p :: zs) →
  queued (<[p := None]> (<[q := next p]> next)) h (ys ++ q :: zs).
Proof.
  revert h. induction ys as [|y ys IH]; intros h; simpl.
  - intros [-> [Hq Hl]] Hn. apply NoDup_cons in Hn as [Hq' Hn]. apply NoDup_cons in Hn as [Hp' Hn]. split; [done|].
    rewrite fn_lookup_insert_ne, fn_lookup_insert by set_solver.
    eapply queue_frame; [|exact Hl]. intros x Hx. rewrite !fn_lookup_insert_ne by set_solver. done.
  - intros [-> Hl] Hn. apply NoDup_cons in Hn as [Hy Hn]. split; [done|].
    rewrite !fn_lookup_insert_ne by set_solver. by apply IH.
Qed.

Lemma queued_at next h ys p zs : queued next h (ys ++ p :: zs) → queued next (next p) zs.
Proof. revert h. induction ys as [|y ys IH]; intros h; simpl; intros [_ Hl]; [done | by eapply IH]. Qed.

(** The list without [p]. *)
Definition without (p : nat) (xs : list nat) : list nat := filter (λ x, x ≠ p) xs.
Lemma without_absent p xs : p ∉ xs → without p xs = xs.
Proof.
  unfold without. induction xs as [|x xs IH]; intros Hp; [done|].
  rewrite filter_cons_True by set_solver. f_equal. apply IH. set_solver.
Qed.
Lemma without_app p ys zs : p ∉ ys → p ∉ zs → without p (ys ++ p :: zs) = ys ++ zs.
Proof.
  intros Hy Hz. unfold without. rewrite filter_app, filter_cons_False by tauto.
  f_equal; by apply without_absent.
Qed.

Lemma stateListRemove_done fuel next l xs p :
  is_list next l xs → (length xs < fuel)%nat →
  ∃ next' l', stateListRemove fuel next l (Some p) = Some (if decide (p ∈ xs) then 0 else -1, next', l')
    ∧ is_list next' l' (without p xs) ∧ ∀ q, q ∉ xs → next' q = next q.
Proof.
  intros [Hh Ht Hn] Hf. unfold stateListRemove. case_decide as Hp.
  2:{ rewrite without_absent by done. exists next, l. split; [|by split].
      destruct (l_head l) as [h|] eqn:Eh; [|done]. destruct (l_tail l) as [t|]; [|done].
      rewrite bool_decide_eq_false_2.
      2:{ intros ->. destruct xs; simpl in Hh; [done|]. destruct Hh as [[= ->] _]. set_solver. }
      rewrite <- Eh in *. destruct (find_loop_absent next p xs fuel None (l_head l) Hh Hp Hf) as [q ->]. done. }
  apply list_elem_of_split in Hp as (ys & zs & ->).
  assert ((p ∉ ys) ∧ (p ∉ zs)) as [Hy Hz] by (apply NoDup_app in Hn as (_ & Hd & [? _]%NoDup_cons); set_solver).
  rewrite without_app by done.
  assert (is_Some (l_head l)) as [h Eh] by (destruct ys; simpl in Hh; destruct Hh as [-> _]; eauto).
  assert (is_Some (l_tail l)) as [t Et] by (rewrite Ht; apply last_is_Some; by destruct ys).
  rewrite Eh, Et. destruct ys as [|q ys _] using rev_ind.
  - simpl in Hh. destruct Hh as [Hh Hl]. rewrite Eh in Hh. injection Hh as ->. rewrite bool_decide_eq_true_2 by done.
    eexists _, _. split; [done|]. split; [|done]. cbn [l_head l_tail app]. simpl in Hn. apply NoDup_cons in Hn as [_ Hn].
    rewrite Ht in Et. simpl in Et. split; [by case_bool_decide| |done].
    destruct zs as [|z zs]; [injection Et as <-; by rewrite bool_decide_eq_true_2|].
    rewrite last_cons_cons in Et. rewrite bool_decide_eq_false_2; [done|].
    intros [= ->]. apply Hz. by eapply last_Some_elem_of.
  - rewrite bool_decide_eq_false_2.
    2:{ intros ->. rewrite Eh in Hh. destruct ys; simpl in Hh; destruct Hh as [[= ->] _]; set_solver. }
    rewrite <- Eh, <- Et in *. rewrite length_app in Hf.
    rewrite (find_loop_found next p zs (ys ++ [q]) fuel None (l_head l) Hh Hy) by lia.
    rewrite last_snoc. cbn [mbind option_bind].
    rewrite <- app_assoc in Hh, Hn |- *. simpl in Hh, Hn |- *.
    pose proof (queue_unlink next (l_head l) ys q p zs Hh Hn) as Hu.
    assert (next p = match zs with [] => None | z :: _ => Some z end) as Hnp.
    { assert (queued next (next p) zs) as Hz'.
      { apply (queued_at next (l_head l) (ys ++ [q])). by rewrite <- app_assoc. }
      destruct zs; simpl in Hz'; [done | apply Hz']. }
    assert (NoDup (ys ++ q :: zs)) as Hn'.
    { apply NoDup_app in Hn as (N1 & N2 & N3). apply NoDup_app. split; [done|]. split; [set_solver|].
      apply NoDup_cons in N3 as [N3 N4]. apply NoDup_cons in N4 as [N4 N5]. apply NoDup_cons. split; [set_solver | done]. }
    destruct zs as [|z zs].
    + rewrite bool_decide_eq_true_2 by (rewrite Ht, <- app_assoc; simpl; by rewrite last_app_cons).
      eexists _, _. split; [done|]. rewrite Hnp in Hu. split; [split; [exact Hu | by rewrite last_snoc | exact Hn']|].
      intros x Hx. rewrite !fn_lookup_insert_ne by set_solver. done.
    + rewrite bool_decide_eq_false_2.
      2:{ rewrite Ht, <- app_assoc. simpl. rewrite last_app_cons, !last_cons_cons. intros Hl%eq_sym%last_Some_elem_of. done. }
      eexists _, _. split; [done|]. split.
      * split; [exact Hu | | exact Hn']. simpl. rewrite Ht, <- app_assoc. simpl. by rewrite !last_app_cons, !last_cons_cons.
      * intros x Hx. rewrite !fn_lookup_insert_ne by set_solver. done.
Qed.

(** ** Sequences of operations *)

Inductive list_op : Set := Add (p : nat) | Remove (p : nat).
(** On the code's list, with the results of the removals. *)
Fixpoint run_ops (ops : list list_op) (next : links) (l : ptrs) : option (list Z * links * ptrs) :=
  match ops with
  | [] => Some ([], next, l)
  | Add p :: ops' => r ← stateListAdd next l p; run_ops ops' r.1 r.2
  | Remove p :: ops' =>
    r ← stateListRemove (S NPROC) next l (Some p);
    let '(v, next, l) := r in
    r ← run_ops ops' next l;
    let '(vs, next, l) := r in Some (v :: vs, next, l)
  end.
(** On a queue. *)
Fixpoint queue_ops (ops : list list_op) (xs : list nat) : list Z * list nat :=
  match ops with
  | [] => ([], xs)
  | Add p :: ops' => queue_ops ops' (xs ++ [p])
  | Remove p :: ops' =>
    let '(vs, xs') := queue_ops ops' (without p xs) in ((if decide (p ∈ xs) then 0 else -1) :: vs, xs')
  end.
(** Processes of the table, none added that is in the list already. *)
Fixpoint ops_ok (ops : list list_op) (xs : list nat) : Prop :=
  match ops with
  | [] => True
  | Add p :: ops' => (p < NPROC)%nat ∧ (p ∉ xs) ∧ ops_ok ops' (xs ++ [p])
  | Remove p :: ops' => ops_ok ops' (without p xs)
  end.

Lemma list_short xs : NoDup xs → Forall (λ x, (x < NPROC)%nat) xs → (length xs < S NPROC)%nat.
Proof.
  intros Hn Hx. apply Nat.lt_succ_r. rewrite <- (length_seq NPROC 0). apply submseteq_length.
  apply NoDup_submseteq; [done|]. intros x Hin. rewrite Forall_forall in Hx. apply elem_of_seq. specialize (Hx x Hin). lia.
Qed.
Lemma without_forall p (P : nat → Prop) xs : Forall P xs → Forall P (without p xs).
Proof.
  rewrite !Forall_forall. intros Hx x [_ Hin]%list_elem_of_filter. by apply Hx.
Qed.

(** C29: the lists of processes are queues.  From a well-formed list, any sequence
    of stateListAdd and stateListRemove on processes of the table, none added
    twice, runs without following a null pointer and without looping; the
    removals return 0 or -1 as the process was in the list or not, and at the
    end head, tail and next are the list of the processes that remain, in the
    order in which they were added. *)
Theorem state_list_refines ops next l xs :
  is_list next l xs → Forall (λ x, (x < NPROC)%nat) xs → ops_ok ops xs →
  ∃ next' l', run_ops ops next l = Some ((queue_ops ops xs).1, next', l') ∧ is_list next' l' (queue_ops ops xs).2.
Proof.
  revert next l xs. induction ops as [|[p|p] ops IH]; intros next l xs Hl Hx Hok; simpl.
  - by eexists _, _.
  - destruct Hok as (Hp & Hnp & Hok). destruct (stateListAdd_done next l xs p Hl Hnp) as (next1 & l1 & -> & Hl1 & _).
    apply IH; [done | | done]. apply Forall_app. split; [done|]. by constructor.
  - destruct (stateListRemove_done (S NPROC) next l xs p Hl) as (next1 & l1 & -> & Hl1 & _).
    { apply list_short; [apply Hl | done]. }
    cbn [mbind option_bind]. destruct (IH next1 l1 (without p xs) Hl1 (without_forall p _ _ Hx) Hok) as (next' & l' & -> & Hl').
    cbn [mbind option_bind]. destruct (queue_ops ops (without p xs)) as [vs xs']. by eexists _, _.
Qed.
Lemma state_list_refines_witness :
  ∃ next' l', run_ops [Add 3; Add 5; Remove 3; Remove 4] (λ _, None) empty_list = Some ([0; -1], next', l')
    ∧ is_list next' l' [5%nat].
Proof.
  apply (state_list_refines [Add 3; Add 5; Remove 3; Remove 4] (λ _, None) empty_list []).
  - split; [reflexivity | reflexivity | constructor].
  - constructor.
  - split; [apply Nat.ltb_lt; reflexivity|]. split; [apply not_elem_of_nil|].
    split; [apply Nat.ltb_lt; reflexivity|]. split; [|exact I]. intros Hin. apply list_elem_of_singleton in Hin. discriminate Hin.
Defined.

(** initFreeList on an empty list gives the table in order. *)
Lemma initFreeList_loop_done ps : ∀ next state l xs,
  is_list next l xs → NoDup (xs ++ ps) →
  ∃ next' state' l', initFreeList_loop ps next state l = Some (next', state', l') ∧ is_list next' l' (xs ++ ps)
    ∧ ∀ p, p ∈ ps → state' p = UNUSED.
Proof.
  assert (∀ ps next state l next' state' l' p, initFreeList_loop ps next state l = Some (next', state', l') →
    state p = UNUSED → state' p = UNUSED) as Hkeep.
  { intros qs. induction qs as [|q qs IH]; intros next state l next' state' l' p; simpl; [by intros [= <- <- <-]|].
    destruct (stateListAdd next l q) as [r|]; [|done]. simpl. intros Hr Hs. eapply IH; [exact Hr|].
    destruct (decide (p = q)) as [->|]; [by rewrite fn_lookup_insert | by rewrite fn_lookup_insert_ne]. }
  induction ps as [|p ps IH]; intros next state l xs Hl Hn; simpl.
  - rewrite app_nil_r. eexists _, _, _. split; [done|]. split; [done|]. intros p Hp. by apply elem_of_nil in Hp.
  - apply NoDup_app in Hn as Hn'. destruct Hn' as (_ & Hd & Hps).
    destruct (stateListAdd_done next l xs p Hl) as (next1 & l1 & -> & Hl1 & _); [intros Hp; apply (Hd p Hp); left|].
    cbn [mbind option_bind fst snd].
    destruct (IH next1 (<[p := UNUSED]> state) l1 (xs ++ [p]) Hl1) as (next' & state' & l' & Hr & Hl' & Hs); [by rewrite <- app_assoc|].
    eexists _, _, _. split; [exact Hr|]. split; [by rewrite <- app_assoc in Hl'|]. intros q [->|Hq]%elem_of_cons; [|by apply Hs].
    eapply Hkeep; [exact Hr|]. by rewrite fn_lookup_insert.
Qed.
Lemma initFreeList_done next state :
  ∃ next' state' l', initFreeList next state (initProcessLists (λ _, empty_list) UNUSED) = Some (next', state', l')
    ∧ is_list next' l' (seq 0 NPROC) ∧ ∀ p, (p < NPROC)%nat → state' p = UNUSED.
Proof.
  destruct (initFreeList_loop_done (seq 0 NPROC) next state empty_list []) as (next' & state' & l' & Hr & Hl & Hs).
  - split; [done | done | constructor].
  - apply NoDup_seq.
  - exists next', state', l'. split; [done|]. split; [done|]. intros p Hp. apply Hs, elem_of_seq. lia.
Qed.

(** Removing the first process leaves its next pointing into the list. *)
Lemma remove_head_keeps_next fuel next l p q xs :
  is_list next l (p :: q :: xs) →
  ∃ l', stateListRemove fuel next l (Some p) = Some (0, next, l') ∧ is_list next l' (q :: xs) ∧ next p = Some q.
Proof.
  intros Hl. destruct Hl as [[Hh [Hp Hl]] Ht Hn]. unfold stateListRemove.
  destruct (last_is_Some (p :: q :: xs)) as [_ [t Et]]; [done|]. rewrite Hh, Ht, Et. rewrite bool_decide_eq_true_2 by done.
  eexists. split; [reflexivity|]. split; [|done]. apply NoDup_cons in Hn as [Hp' Hn].
  rewrite last_cons_cons in Et. cbn [l_head l_tail]. rewrite bool_decide_eq_false_2.
  - split; [by split | by rewrite Et | done].
  - intros [= ->]. apply Hp'. by eapply last_Some_elem_of.
Qed.
