(* ===== verification/UvmSpec.v ===== *)
(** * UvmSpec: what the virtual memory functions promise

    The theorems of VmFacts and UvmFacts, stated for the page table entries
    the hardware finds ([pte_of]) and for the bytes of memory, with a small
    address space on which they are used. *)

From S2P Require Import Prelude Memory Kstate Spinlock Kalloc Cprintf Vm VmFacts UvmFacts SchedFacts.

(** The entry the hardware finds for an address; 0 if there is no table. *)
Definition pte_of (m : mem) (pgdir va : Z) : Z := default 0 (load32 m <$> walk m pgdir va).

Lemma pte_of_entry d l pgdir pts e va :
  vm_ok d l pgdir pts e → 0 <= va < 2 ^ 32 → pte_of (mm_mem (d_mm d)) pgdir va = e (va / PGSIZE).
Proof.
  intros Hvm Hva. unfold pte_of, walk. rewrite (vo_pde _ _ _ _ _ Hvm) by by apply PDX_range.
  pose proof (vo_pte _ _ _ _ _ Hvm (va / PGSIZE)) as Hpte.
  rewrite PTX_eq by done. rewrite PDX_eq in * by done.
  assert (0 <= va / PGSIZE < 2 ^ 20) as Hr by (unfold PGSIZE; Z.div_mod_to_equations; lia). specialize (Hpte Hr).
  destruct (pts !! (va / PGSIZE / 1024)) as [t|] eqn:Et; simpl; [|done].
  rewrite (entry_P (d_im d)), (entry_addr (d_im d)), (P2V_V2P (d_im d))
    by (try (by eapply vm_table_ok); unfold PGSIZE; lia). done.
Qed.

(** ** mappages *)

(** mappages(pgdir, va, size, pa, perm) on pages that are not mapped
    returns 0 with exactly the pages of [va, va+size) mapped to the physical
    pages from pa on and every other translation as it was, or returns -1 when
    memory runs out, with a prefix of the pages mapped.  Page tables are taken
    from the free pages; no page is lost and no memory outside the free pages
    and the page table changes. *)
Theorem mappages_spec n m pgdir va size pa perm d l pts e :
  can_lock m d → vm_ok d l pgdir pts e → 0 <= va → 0 < size → va + size <= 2 ^ 32 →
  pa mod PGSIZE = 0 → 0 <= pa → pa + more_pages va size * PGSIZE < 2 ^ 32 → 0 <= perm < PGSIZE →
  (∀ v, va / PGSIZE <= v <= (va + size - 1) / PGSIZE → e v mod 2 = 0) →
  ∃ r d' l' pts' j, mappages pgdir va size pa perm n (K m d) = Done r (K m d')
    ∧ (r = 0 ∧ j = more_pages va size + 1 ∨ r = -1 ∧ 0 <= j <= more_pages va size ∧ l' = [])
    ∧ (∀ va', 0 <= va' < 2 ^ 32 → pte_of (mm_mem (d_mm d')) pgdir va'
         = let k := va' / PGSIZE - va / PGSIZE in
           if decide (0 <= k < j) then mapped (pa + k * PGSIZE) perm
           else pte_of (mm_mem (d_mm d)) pgdir va')
    ∧ l' ++ vmpages pgdir pts' ≡ₚ l ++ vmpages pgdir pts
    ∧ kmem_ok d' l' ∧ kmem_frame (l ++ vmpages pgdir pts) d d'.
Proof.
  intros Hcl Hvm Hva Hsz Hend Hpm Hp0 Hpe Hperm He.
  destruct (mappages_done n m pgdir perm Hperm va size pa d l pts e) as (r & d' & l' & pts' & j & H1 & Hst & H3); [done..|].
  exists r, d', l', pts', j. split_and!; [done | | | apply Hst | apply Hst | apply Hst].
  - destruct H3 as [H3|(? & ? & ? & _)]; [by left | by right].
  - intros va' Hva'. rewrite (pte_of_entry _ _ _ _ _ _ (vs_ok _ _ _ _ _ _ _ _ Hst) Hva'), (pte_of_entry _ _ _ _ _ _ Hvm Hva').
    cbv zeta. unfold map_range. repeat destruct (decide _); done || lia.
Qed.

(** ** setupkvm *)

(** The entry for a kernel address: all of physical memory at KERNBASE,
    writable but for the kernel's code, and the devices. *)
Definition kernel_pte (im : image) (va : Z) : Z :=
  let page := va / PGSIZE * PGSIZE in
  if decide (KERNBASE <= va < KERNBASE + PHYSTOP) then
    page - KERNBASE + (if decide (KERNLINK <= va < im_data im) then PTE_P else Z.lor PTE_W PTE_P)
  else if decide (DEVSPACE <= va < 2 ^ 32) then page + Z.lor PTE_W PTE_P
  else 0.

Lemma kernel_entries_pte im va :
  image_ok im → 0 <= va < 2 ^ 32 → kernel_entries im (va / PGSIZE) = kernel_pte im va.
Proof.
  intros [Ha Hlo Hhi] Hva. unfold kernel_entries, kmaps. cbn [kmaps_entries virt phys_start phys_end perm].
  assert (Hd : V2P (im_data im) = im_data im - KERNBASE).
  { unfold V2P. apply u32_small. unfold KERNLINK, KERNBASE, EXTMEM, PHYSTOP in *. lia. }
  unfold ksize. cbn [phys_start phys_end]. rewrite Hd. change (V2P KERNLINK) with EXTMEM.
  change (0 -u DEVSPACE) with 0x2000000. unfold kernel_pte, KERNLINK, KERNBASE, EXTMEM, PHYSTOP, PGSIZE, DEVSPACE in *.
  rewrite (u32_small (0x100000 - 0)), (u32_small (im_data im - _ - _)), (u32_small (0xE000000 - _)) by lia.
  set (v := va / 4096). assert (Hv : 4096 * v <= va < 4096 * v + 4096) by (subst v; Z.div_mod_to_equations; lia).
  assert (Hm : ∀ a f, a mod 4096 = 0 → 0 <= f < 4096 → mapped a f = a + Z.lor f PTE_P) by (intros; by apply mapped_eq).
  set (q := im_data im / 4096). assert (Hq : im_data im = 4096 * q) by (subst q; Z.div_mod_to_equations; lia).
  rewrite Hq in *. unfold map_range, PGSIZE, PTE_W.
  rewrite !(Z.mul_comm 4096 q).
  replace ((q * 4096 - 2147483648 - 1048576) / 4096) with (q - 524544) by (Z.div_mod_to_equations; lia).
  replace ((234881024 - (q * 4096 - 2147483648)) / 4096) with (581632 - q) by (Z.div_mod_to_equations; lia).
  change (2147483648 / 4096) with 524288. change ((2147483648 + 1048576) / 4096) with 524544.
  change ((1048576 - 0) / 4096) with 256. change (4261412864 / 4096) with 1040384. change (33554432 / 4096) with 8192.
  repeat match goal with |- context [decide ?P] => destruct (decide P) end; try lia;
    rewrite Hm by (lia || (Z.div_mod_to_equations; lia)); rewrite ?Z.lor_0_l; lia.
Qed.

(** setupkvm returns a page directory in which the hardware finds
    exactly the kernel's mappings, physical memory at KERNBASE with the code
    read-only and the devices, all without PTE_U, and nothing below KERNBASE;
    or it returns 0 and every free page is free again.  Either way the lock is
    as it was and only free pages were written. *)
Theorem setupkvm_spec n m d l :
  can_lock m d → kmem_ok d l → image_ok (d_im d) →
  ∃ r d' l', setupkvm n (K m d) = Done r (K m d') ∧ kmem_ok d' l' ∧ kmem_frame l d d'
    ∧ (r = 0 ∧ l' ≡ₚ l
       ∨ r ≠ 0 ∧ (∃ pts, l' ++ vmpages r pts ≡ₚ l)
         ∧ ∀ va, 0 <= va < 2 ^ 32 → pte_of (mm_mem (d_mm d')) r va = kernel_pte (d_im d) va).
Proof.
  intros Hcl Hk Him. destruct (setupkvm_done n m d l Hcl Hk Him) as (r & d' & l' & H1 & H2 & H3 & H4).
  exists r, d', l'. split_and!; [done..|]. destruct H4 as [H4|(pts & Hr & Hvm & Hpg & _)]; [by left|right].
  split_and!; [done | eauto |]. intros va Hva. rewrite (pte_of_entry _ _ _ _ _ _ Hvm Hva). by apply kernel_entries_pte.
Qed.

(** ** allocuvm, deallocuvm, freevm *)

(** C9: allocuvm(pgdir, oldsz, newsz) either returns newsz, and the process
    has, besides its old pages, a fresh page full of zeros, user-accessible and
    writable, at each page number between the two sizes; or it returns 0, and
    it has exactly its old pages, every page taken on the way being free again or a
    page table.  The old pages' bytes and the kernel's entries do not change. *)
Theorem allocuvm_spec n m i c pgdir d l pts e us oldsz newsz :
  mach_ok m i c → lk_free m L_kmem → lk_free m L_cons → cons_ok (d_cons d) →
  uvm_ok d l pgdir pts e us → 0 <= oldsz <= newsz → newsz < KERNBASE →
  (∀ u, npages oldsz <= u < npages newsz → us !! u = None) →
  ∃ r d' l' pts' e' us', allocuvm pgdir oldsz newsz n (K m d) = Done r (K m d')
    ∧ uvm_ok d' l' pgdir pts' e' us'
    ∧ (∀ u x f b, us !! u = Some (x, f) → x <= b < x + PGSIZE → us' !! u = Some (x, f) ∧ mm_mem (d_mm d') b = mm_mem (d_mm d) b)
    ∧ (∀ u, UPAGES <= u < 2 ^ 20 → e' u = e u)
    ∧ l' ++ vmpages pgdir pts' ++ upages us' ≡ₚ l ++ vmpages pgdir pts ++ upages us
    ∧ (r = newsz ∧ (∀ u, 0 <= u < npages oldsz → us' !! u = us !! u)
         ∧ (∀ u, npages oldsz <= u < npages newsz → ∃ x, us' !! u = Some (x, 7) ∧ x ∈ l
              ∧ ∀ b, x <= b < x + PGSIZE → mm_mem (d_mm d') b = 0)
       ∨ r = 0 ∧ us' = us).
Proof.
  intros Hok Hkm Hcons Hcn Huo Hsz Hk Hn.
  destruct (allocuvm_done n m pgdir i c Hok Hcons d l pts e us oldsz newsz) as (r & d' & l' & pts' & e' & us' & Ha & Hr);
    [by eapply can_lock_ok | done..|].
  exists r, d', l', pts', e', us'. split; [done|].
  assert (Hfr : ∀ b, (∀ y, y ∈ l ++ vmpages pgdir pts → ¬ (y <= b < y + PGSIZE)) → mm_mem (d_mm d') b = mm_mem (d_mm d) b).
  { destruct Hr as [[_ Hst]|(_ & _ & Hst)]; [destruct (as_frame _ _ _ _ _ _ _ _ _ _ _ _ _ Hst) as (_ & _ & _ & H)
      |destruct (af_frame _ _ _ _ _ _ _ _ _ _ Hst) as (_ & _ & _ & H)]; exact H. }
  assert (Hold : ∀ u x f b, us !! u = Some (x, f) → x <= b < x + PGSIZE → mm_mem (d_mm d') b = mm_mem (d_mm d) b).
  { intros u x f b Hu Hb. apply Hfr. intros y Hy. destruct (uvm_apart _ _ _ _ _ _ _ _ _ y Huo Hu Hy); lia. }
  destruct Hr as [[-> [A1 A2 A3 A4 A5 A6 A7 A8 A9]]|(-> & -> & [A1 A2 A3 A4 A5])].
  - split_and!; [done | | done | done |].
    + intros u x f b Hu Hb. split; [|by eapply Hold]. rewrite A2; [done|]. intros Hu'. by rewrite Hn in Hu.
    + left. split_and!; [done | intros u Hu; apply A2; lia | done].
  - split_and!; [done | | done | | by right].
    + intros u x f b Hu Hb. split; [done | by eapply Hold].
    + by rewrite !app_assoc, A3.
Qed.

(** deallocuvm(pgdir, oldsz, newsz) with newsz < oldsz frees exactly the
    process's pages between the two sizes, also across missing page tables:
    they are unmapped and on the free list, the others are untouched. *)
Theorem deallocuvm_spec n m pgdir pts d l e us oldsz newsz :
  can_lock m d → uvm_ok d l pgdir pts e us → 0 <= newsz < oldsz → oldsz <= KERNBASE →
  ∃ d' l' e' us', deallocuvm pgdir oldsz newsz n (K m d) = Done newsz (K m d')
    ∧ uvm_ok d' l' pgdir pts e' us'
    ∧ (∀ u, us' !! u = if decide (npages newsz <= u < npages oldsz) then None else us !! u)
    ∧ (∀ x, x ∈ l' ↔ x ∈ l ∨ ∃ u f, npages newsz <= u < npages oldsz ∧ us !! u = Some (x, f))
    ∧ (∀ u x f b, us' !! u = Some (x, f) → x <= b < x + PGSIZE → mm_mem (d_mm d') b = mm_mem (d_mm d) b).
Proof.
  intros Hcl Huo Hsz Hk.
  destruct (deallocuvm_done n m pgdir pts d l e us oldsz newsz) as (d' & rm & e' & us' & H1 & [D1 D2 D3 D4 D5]); [done..|].
  exists d', (rm ++ l), e', us'. split_and!; [done | done | done | |].
  - intros x. rewrite elem_of_app, (comm _ (x ∈ rm)). f_equiv.
    assert (Hnd : NoDup (rm ++ upages us')).
    { rewrite <- D4. pose proof (uo_apart _ _ _ _ _ _ Huo) as H. rewrite app_assoc in H. by apply NoDup_app in H as (_ & _ & ?). }
    split.
    + intros Hx. assert (x ∈ upages us) as (u & f & Hu)%elem_of_upages by (rewrite D4; apply elem_of_app; by left).
      exists u, f. split; [|done]. destruct (decide (npages newsz <= u < npages oldsz)) as [Hin|Hout]; [done|].
      exfalso. apply NoDup_app in Hnd as (_ & Hnd & _). apply (Hnd x Hx), elem_of_upages. exists u, f.
      rewrite D2. by destruct (decide _).
    + intros (u & f & Hr & Hu). assert (x ∈ upages us) as Hx by (apply elem_of_upages; eauto).
      rewrite D4 in Hx. apply elem_of_app in Hx as [Hx|Hx]; [done|]. exfalso.
      apply elem_of_upages in Hx as (u' & f' & Hu'). rewrite D2 in Hu'. destruct (decide _) as [|Hn]; [done|].
      assert (u = u') as ->; [|lia]. by eapply (uo_inj Huo).
  - intros u x f b Hu Hb. destruct D5 as (_ & _ & _ & Hfr). apply Hfr. intros y [Hy|Hy]%elem_of_app.
    + destruct (uvm_apart _ _ _ _ _ _ _ _ _ y D1 Hu); [apply elem_of_app; by right | lia | lia].
    + destruct (uvm_apart _ _ _ _ _ _ _ _ _ y D1 Hu); [apply elem_of_app; left; apply elem_of_app; by left | lia | lia].
Qed.

(** C8: freevm gives back every page of the address space, the user's pages,
    the page tables and the directory, each once: the free list afterwards is the
    old one with these pages, and no other memory changes. *)
Theorem freevm_spec n m pgdir pts d l e us :
  can_lock m d → uvm_ok d l pgdir pts e us →
  ∃ d' l', freevm pgdir n (K m d) = Done tt (K m d')
    ∧ kmem_ok d' l' ∧ l' ≡ₚ l ++ vmpages pgdir pts ++ upages us
    ∧ kmem_frame (vmpages pgdir pts ++ upages us) d d'.
Proof. intros Hcl Huo. by apply freevm_done with (e := e). Qed.

(** ** copyuvm *)

(** C7: copyuvm(pgdir, sz) of a process whose pages below sz are all there
    returns a new address space with, at each page number, a page of its own
    with the same bytes and the same flags, the kernel's entries above, and
    nothing else; the original is untouched.  If memory runs out it returns 0
    and gives everything back, except that the last page taken is lost when it
    was a page table that could not be had. *)
Theorem copyuvm_spec n m pgdir pts d l e us sz :
  can_lock m d → uvm_ok d l pgdir pts e us → image_ok (d_im d) →
  (∀ x, x ∈ upages us → bytes_at (mm_mem (d_mm d)) x PGSIZE) →
  0 <= sz < KERNBASE → (∀ v, 0 <= v < npages sz → is_Some (us !! v)) →
  ∃ r d', copyuvm pgdir sz n (K m d) = Done r (K m d') ∧ kmem_frame l d d'
    ∧ (r ≠ 0 ∧ (∃ l' pts' e' us', uvm_ok d' l' r pts' e' us' ∧ l' ++ vmpages r pts' ++ upages us' ≡ₚ l
         ∧ (∀ u, UPAGES <= u < 2 ^ 20 → e' u = kernel_entries (d_im d) u)
         ∧ (∀ u, ¬ (0 <= u < npages sz) → us' !! u = None)
         ∧ ∀ u, 0 <= u < npages sz → ∃ x f y, us !! u = Some (x, f) ∧ us' !! u = Some (y, f) ∧ x ≠ y
             ∧ ∀ k, 0 <= k < PGSIZE → mm_mem (d_mm d') (y + k) = mm_mem (d_mm d') (x + k)
                                      ∧ mm_mem (d_mm d') (x + k) = mm_mem (d_mm d) (x + k))
       ∨ r = 0 ∧ ∃ l' o, kmem_ok d' l' ∧ (length o <= 1)%nat ∧ o ++ l' ≡ₚ l).
Proof.
  intros Hcl Huo Him Hb Hsz Hall.
  destruct (copyuvm_done n m d l pgdir pts e us Huo Hcl Hb sz Hsz Hall Him) as (r & d' & H1 & Hfr & Hr).
  exists r, d'. split_and!; [done | done |]. destruct Hr as [(Hnz & l' & pts' & e' & us' & [C1 C2 C3 C4 C5 C6])|Hr]; [left|by right].
  split; [done|]. exists l', pts', e', us'. split_and!; [done..|]. intros u Hu.
  destruct (C4 u Hu) as (x & f & y & Hx & Hy & Hk). exists x, f, y. split_and!; [done | done | |].
  - intros ->. apply (uo_own Huo _ _ _ Hx), elem_of_app. left. rewrite <- C2, !elem_of_app. right; right.
    apply elem_of_upages. eauto.
  - intros k Hk'. rewrite Hk by done. assert (E : mm_mem (d_mm d') (x + k) = mm_mem (d_mm d) (x + k)).
    { eapply parent_same; [exact Huo | exact Hfr | exact Hx | done]. }
    by rewrite E.
Qed.

(** ** A small address space *)

Definition pg (k : Z) : Z := KERNBASE + 0x200000 + k * PGSIZE.
(** Page directory pg 0, one page table pg 1, one user page pg 2 at address 0,
    free pages pg 3 and pg 4. *)
Definition vm_mem : mem :=
  store32 (store32 (store32 (λ _, 0) (pg 3) (pg 4)) (pg 0) (entry (pg 1) 7)) (pg 1) (entry (pg 2) 7).
Definition dv : kdata :=
  dt <| d_mm := d_mm dt <| mm_mem := vm_mem |> <| mm_freelist := pg 3 |> <| mm_use_lock := 1 |> |>.
Definition ev (v : Z) : Z := if decide (v = 0) then entry (pg 2) 7 else 0.

Lemma vm_mem_zero a : pg 0 + 4 <= a ∧ a + 4 <= pg 1 ∨ pg 1 + 4 <= a ∧ a + 4 <= pg 3 → load32 vm_mem a = 0.
Proof. intros Ha. unfold vm_mem, pg, PGSIZE, KERNBASE in *. by rewrite !load32_store32_ne by lia. Qed.
Lemma vm_ok_dv : vm_ok dv [pg 3; pg 4] (pg 0) {[ 0 := pg 1 ]} ev.
Proof.
  assert (Hl : (map_to_list ({[ 0 := pg 1 ]} : gmap Z Z)).*2 = [pg 1]) by by rewrite map_to_list_singleton.
  split; unfold vmpages; rewrite ?Hl.
  - split; [by vm_compute | | apply (bool_decide_unpack _); by vm_compute].
    repeat constructor; by vm_compute.
  - repeat constructor; by vm_compute.
  - apply (bool_decide_unpack _). by vm_compute.
  - intros i t [<- <-]%lookup_singleton_Some. lia.
  - intros i Hi. destruct (decide (i = 0)) as [->|Hne].
    + rewrite lookup_singleton_eq. by vm_compute.
    + rewrite lookup_singleton_ne by done. apply vm_mem_zero. unfold pg, PGSIZE. lia.
  - intros v Hv. destruct (decide (v / 1024 = 0)) as [E|Hne].
    + rewrite E, lookup_singleton_eq. unfold ev. rewrite Z.mod_small by (Z.div_mod_to_equations; lia).
      destruct (decide (v = 0)) as [->|Hv0]; [by vm_compute|]. apply vm_mem_zero. unfold pg, PGSIZE.
      Z.div_mod_to_equations. lia.
    + rewrite lookup_singleton_ne by done. unfold ev. rewrite decide_False; [done|]. by intros ->.
Qed.
Lemma uvm_ok_dv : uvm_ok dv [pg 3; pg 4] (pg 0) {[ 0 := pg 1 ]} ev {[ 0 := (pg 2, 7) ]}.
Proof.
  assert (Hl : upages {[ 0 := (pg 2, 7) ]} = [pg 2]) by (unfold upages; by rewrite map_to_list_singleton).
  split; rewrite ?Hl.
  - apply vm_ok_dv.
  - split.
    + intros v Hv. unfold ev. destruct (decide (v = 0)) as [->|Hne]; [done|].
      by rewrite lookup_singleton_ne.
    + intros v x f [<- [= <- <-]]%lookup_singleton_Some. done.
  - repeat constructor; by vm_compute.
  - unfold vmpages. rewrite map_to_list_singleton. apply (bool_decide_unpack _). by vm_compute.
Qed.
Lemma can_lock_dv : can_lock mt dv.
Proof. right. exists 0%nat, ct. split; [apply runs_proc_mt | by eexists]. Qed.

Lemma mappages_spec_witness : ∃ r d', mappages (pg 0) 0x3000 0x2000 0x5000 PTE_W 0%nat (K mt dv) = Done r (K mt d').
Proof.
  destruct (mappages_spec 0 mt (pg 0) 0x3000 0x2000 0x5000 PTE_W dv [pg 3; pg 4] {[ 0 := pg 1 ]} ev)
    as (r & d' & _ & _ & _ & H & _);
    [apply can_lock_dv | apply vm_ok_dv | lia | lia | lia | done | lia | by vm_compute | by vm_compute | | by exists r, d'].
  intros v Hv. unfold ev. rewrite decide_False; [done|]. intros ->. by destruct Hv as [Hv _].
Defined.
Lemma setupkvm_spec_witness : ∃ r d', setupkvm 0%nat (K mt dv) = Done r (K mt d').
Proof.
  destruct (setupkvm_spec 0 mt dv [pg 3; pg 4]) as (r & d' & _ & H & _);
    [apply can_lock_dv | apply vm_ok_dv | by split | by exists r, d'].
Defined.
Lemma allocuvm_spec_witness : ∃ r d', allocuvm (pg 0) 4096 8192 0%nat (K mt dv) = Done r (K mt d').
Proof.
  destruct (allocuvm_spec 0 mt 0 ct (pg 0) dv [pg 3; pg 4] {[ 0 := pg 1 ]} ev {[ 0 := (pg 2, 7) ]} 4096 8192)
    as (r & d' & _ & _ & _ & _ & H & _);
    [apply runs_proc_mt | by eexists | by eexists | by split | apply uvm_ok_dv | lia | done | | by exists r, d'].
  intros u [Hu _]. rewrite lookup_singleton_ne; [done|]. intros <-. by apply Hu.
Defined.
Lemma deallocuvm_spec_witness : ∃ d', deallocuvm (pg 0) 4096 0 0%nat (K mt dv) = Done 0 (K mt d').
Proof.
  destruct (deallocuvm_spec 0 mt (pg 0) {[ 0 := pg 1 ]} dv [pg 3; pg 4] ev {[ 0 := (pg 2, 7) ]} 4096 0)
    as (d' & _ & _ & _ & H & _); [apply can_lock_dv | apply uvm_ok_dv | lia | done | by exists d'].
Defined.
Lemma freevm_spec_witness : ∃ d', freevm (pg 0) 0%nat (K mt dv) = Done tt (K mt d').
Proof.
  destruct (freevm_spec 0 mt (pg 0) {[ 0 := pg 1 ]} dv [pg 3; pg 4] ev {[ 0 := (pg 2, 7) ]})
    as (d' & _ & H & _); [apply can_lock_dv | apply uvm_ok_dv | by exists d'].
Defined.
Lemma copyuvm_spec_witness : ∃ r d', copyuvm (pg 0) 4096 0%nat (K mt dv) = Done r (K mt d').
Proof.
  destruct (copyuvm_spec 0 mt (pg 0) {[ 0 := pg 1 ]} dv [pg 3; pg 4] ev {[ 0 := (pg 2, 7) ]} 4096)
    as (r & d' & H & _); [apply can_lock_dv | apply uvm_ok_dv | by split | | done | | by exists r, d'].
  - intros x Hx b Hb. simpl. unfold vm_mem, store32. rewrite !store8_lookup.
    repeat (case_decide; [apply u8_range|]). lia.
  - intros v Hv. assert (v = 0) as -> by (change (npages 4096) with 1 in Hv; lia). by eexists.
Defined.
