(* ===== verification/SchedulerFacts.v ===== *)
(** * SchedulerFacts: the scheduler's side of a context switch

    SchedFacts has what a process does around sched; here is what the
    scheduler does, and that the two fit: the machine the scheduler switches
    with is the one a process expects to wake up on. *)

From S2P Require Import Prelude Memory Kstate Spinlock Kalloc Cprintf Vm Sched SchedFacts.

(** ** Changes of a CPU's record that commute with the locking code *)

Record cpu_neutral (f : cpu → cpu) : Prop := {
  cn_apicid : ∀ c, c_apicid (f c) = c_apicid c;
  cn_push : ∀ e c, f (cpu_push e c) = cpu_push e (f c);
  cn_ncli : ∀ c, c_ncli (f c) = c_ncli c;
  cn_intena : ∀ c, c_intena (f c) = c_intena c
}.
Ltac neutral := split; try done; intros e c; unfold cpu_push; simpl; by destruct (c_ncli c =? 0).
(** Change CPU [i]'s record, and the page table in use. *)
Definition on_cpu (i : nat) (f : cpu → cpu) (cr3 : Z → Z) (m : mach) : mach :=
  m <| m_cpus := alter f i (m_cpus m) |> <| m_cr3 := cr3 (m_cr3 m) |>.

Lemma this_cpu_on i f g m : cpu_neutral f → this_cpu (on_cpu i f g m) = this_cpu m.
Proof. intros Hf. unfold this_cpu, on_cpu. simpl. apply find_cpu_alter, Hf. Qed.
Lemma mach_ok_on i f g m c : cpu_neutral f → mach_ok m i c → mach_ok (on_cpu i f g m) i (f c).
Proof.
  intros Hf [Hi Hc Hd Hon Hoff Hsv]. split; rewrite ?(cn_ncli _ Hf), ?(cn_intena _ Hf); try done.
  - by rewrite this_cpu_on.
  - simpl. by rewrite list_lookup_alter_eq, Hc.
Qed.
Lemma push_on i f g m : cpu_neutral f → this_cpu m = Some i → push (on_cpu i f g m) = on_cpu i f g (push m).
Proof.
  intros Hf Hi. unfold push. rewrite this_cpu_on, Hi by done. unfold on_cpu. destruct m; simpl in *.
  unfold set_field, set_m_eflags, set_m_cpus, set_m_cr3; simpl. f_equal.
  rewrite !list_alter_alter_eq. apply list_alter_ext; [|done]. intros c _. symmetry. apply Hf.
Qed.
Lemma acq_on lk i f g m : cpu_neutral f → this_cpu m = Some i → acq lk (on_cpu i f g m) = on_cpu i f g (acq lk m).
Proof. intros Hf Hi. unfold acq. by rewrite this_cpu_on, push_on. Qed.
Lemma lk_free_on lk i f g m : lk_free (on_cpu i f g m) lk ↔ lk_free m lk.
Proof. done. Qed.

Lemma cpu_neutral_proc o : cpu_neutral (λ c, c <| c_proc := o |>).
Proof. neutral. Qed.
Definition tss (ks : Z) (c : cpu) : cpu :=
  c <| c_ss0 := Z.shiftl SEG_KDATA 3 |> <| c_esp0 := ks +u KSTACKSIZE |> <| c_iomb := 0xFFFF |>.
Lemma cpu_neutral_tss ks : cpu_neutral (tss ks).
Proof. neutral. Qed.

Lemma mod_cpu_on n m d i f : mod_cpu i f n (K m d) = Done tt (K (on_cpu i f id m) d).
Proof. unfold mod_cpu, modm, modify, on_cpu. by destruct m. Qed.
Lemma lcr3_on n m d i v : lcr3 v n (K m d) = Done tt (K (on_cpu i id (λ _, v) m) d).
Proof. unfold lcr3, modm, modify, on_cpu. simpl. destruct m; simpl. unfold set_field, set_m_cpus, set_m_cr3, set_km; simpl. by rewrite list_alter_id. Qed.
Lemma on_cpu_on i f g f' g' m : on_cpu i f g (on_cpu i f' g' m) = on_cpu i (f ∘ f') (g ∘ g') m.
Proof. unfold on_cpu. destruct m; simpl. unfold set_field, set_m_cpus, set_m_cr3; simpl. by rewrite list_alter_alter_eq. Qed.

Lemma on_cpu_id i m : on_cpu i id id m = m.
Proof. unfold on_cpu. destruct m; simpl. unfold set_field, set_m_cpus, set_m_cr3; simpl. by rewrite list_alter_id. Qed.
Lemma cpu_neutral_ss0 v : cpu_neutral ((λ c, c <| c_ss0 := v |>) ∘ id).
Proof. neutral. Qed.
Lemma cpu_neutral_esp0 v w : cpu_neutral ((λ c, c <| c_esp0 := w |>) ∘ ((λ c, c <| c_ss0 := v |>) ∘ id)).
Proof. neutral. Qed.

(** ** switchuvm, switchkvm *)

Lemma switchuvm_done n m d i c k :
  mach_ok m i c → p_kstack (d_procs d !!! k) ≠ 0 → p_pgdir (d_procs d !!! k) ≠ 0 →
  switchuvm (Some k) n (K m d)
  = Done tt (K (on_cpu i (tss (p_kstack (d_procs d !!! k))) (λ _, V2P (p_pgdir (d_procs d !!! k))) m) d).
Proof.
  intros Hok Hks Hpg. unfold switchuvm. krun. set (p := d_procs d !!! k) in *.
  rewrite (proj2 (Z.eqb_neq _ _) Hks), (proj2 (Z.eqb_neq _ _) Hpg).
  pose proof (mach_ok_push _ _ _ Hok) as Hok1. pose proof (mo_depth _ _ _ Hok) as Hd.
  assert (Hmy : ∀ f g, cpu_neutral f → mycpu n (K (on_cpu i f g (push m)) d) = Done i (K (on_cpu i f g (push m)) d)).
  { intros f g Hf. eapply mycpu_ok; [by apply mach_ok_on|]. rewrite (cn_ncli _ Hf), cpu_push_depth. lia. }
  rewrite (bind_done _ _ _ _ _ _ (pushcli_done n m d i c (mo_this _ _ _ Hok) (mo_cpu _ _ _ Hok))).
  rewrite <- (on_cpu_id i (push m)).
  rewrite (bind_done _ _ _ _ _ _ (Hmy id id ltac:(by split))), (bind_done _ _ _ _ _ _ (mod_cpu_on n _ d i _)), on_cpu_on.
  rewrite (bind_done _ _ _ _ _ _ (Hmy _ _ ltac:(apply cpu_neutral_ss0))), (bind_done _ _ _ _ _ _ (mod_cpu_on n _ d i _)), on_cpu_on.
  rewrite (bind_done _ _ _ _ _ _ (Hmy _ _ ltac:(apply cpu_neutral_esp0))), (bind_done _ _ _ _ _ _ (mod_cpu_on n _ d i _)), on_cpu_on.
  rewrite (bind_done _ _ _ _ _ _ (lcr3_on n _ d i _)), on_cpu_on.
  change (on_cpu i _ _ (push m)) with (on_cpu i (tss (p_kstack p)) (λ _, V2P (p_pgdir p)) (push m)).
  pose proof (mach_ok_on i _ (λ _, V2P (p_pgdir p)) _ _ (cpu_neutral_tss (p_kstack p)) Hok1) as Hok2.
  erewrite popcli_done; [| apply Hok2 | apply Hok2 | apply (mo_off _ _ _ Hok2) |];
    rewrite ?(cn_ncli _ (cpu_neutral_tss _)), ?cpu_push_depth; [|lia..].
  rewrite <- push_on; [|apply cpu_neutral_tss | apply Hok].
  by erewrite pop_push by (apply mach_ok_on; [apply cpu_neutral_tss | exact Hok]).
Qed.

Lemma switchkvm_done n m d i :
  switchkvm n (K m d) = Done tt (K (on_cpu i id (λ _, V2P (mm_kpgdir (d_mm d))) m) d).
Proof. unfold switchkvm. krun. apply lcr3_on. Qed.

(** ** The scheduler's scan *)

(** The machine after the scheduler picked process [k], and after it came back. *)
Definition dispatch (i k : nat) (p : proc) (m : mach) : mach :=
  on_cpu i (tss (p_kstack p) ∘ (λ c, c <| c_proc := Some k |>)) (λ _, V2P (p_pgdir p)) m.
Definition undispatch (i : nat) (d : kdata) (m : mach) : mach :=
  on_cpu i (λ c, c <| c_proc := None |>) (λ _, V2P (mm_kpgdir (d_mm d))) m.
Lemma cpu_neutral_dispatch ks o : cpu_neutral (tss ks ∘ (λ c, c <| c_proc := o |>)).
Proof. neutral. Qed.

Definition is_runnable (p : proc) : bool := bool_decide (p_state p = RUNNABLE).
Definition start (p : proc) : proc := p <| p_state := RUNNING |>.

Lemma sched_scan_skip n m d i l ran :
  (∀ k, k ∈ l → is_runnable (d_procs d !!! k) = false) →
  ∀ l2, sched_scan i (l ++ l2) ran n (K m d) = sched_scan i l2 ran n (K m d).
Proof.
  intros Hl l2. induction l as [|k l IH]; [done|]. cbn [app sched_scan]. krun.
  pose proof (Hl k ltac:(apply list_elem_of_here)) as Hk. unfold is_runnable in Hk. rewrite Hk. simpl.
  apply IH. intros j Hj. apply Hl. by apply list_elem_of_further.
Qed.

Lemma sched_scan_switch n m i c d k l ran :
  mach_ok m i c → is_runnable (d_procs d !!! k) = true →
  p_kstack (d_procs d !!! k) ≠ 0 → p_pgdir (d_procs d !!! k) ≠ 0 →
  ∃ kont, sched_scan i (k :: l) ran n (K (acq L_ptable m) d)
      = Block (W_switch k) (K (acq L_ptable (dispatch i k (d_procs d !!! k) m))
          (d <| d_procs := alter start k (d_procs d) |>)) kont
    ∧ ∀ m' c' d', mach_ok m' i c' →
        kont (K (acq L_ptable m') d') = sched_scan i l true n (K (acq L_ptable (undispatch i d' m')) d').
Proof.
  intros Hok Hr Hks Hpg. pose proof (mach_ok_acq L_ptable _ _ _ Hok) as Hok1.
  cbn [sched_scan]. unfold get_proc, mod_proc. rewrite bind_getd. cbn [kd]. unfold is_runnable in Hr. rewrite Hr. cbn [negb].
  rewrite (bind_done _ _ _ _ _ _ (mod_cpu_on n _ d i _)).
  pose proof (mach_ok_on i _ id _ _ (cpu_neutral_proc (Some k)) Hok1) as Hok2.
  rewrite (bind_done _ _ _ _ _ _ (switchuvm_done n _ d i _ k Hok2 Hks Hpg)). rewrite on_cpu_on, bind_modd.
  rewrite <- acq_on; [| apply cpu_neutral_dispatch | apply Hok].
  erewrite bind_block by done. eexists. split; [done|].
  intros m' c' d' Hok'. simpl.
  rewrite (bind_done _ _ _ _ _ _ (switchkvm_done n _ d' i)), (bind_done _ _ _ _ _ _ (mod_cpu_on n _ d' i _)), on_cpu_on.
  rewrite <- acq_on; [done | apply cpu_neutral_proc | apply Hok'].
Qed.

Lemma first_proc_split test ps k :
  first_proc test ps = Some k →
  seq 0 (length ps) = seq 0 k ++ k :: seq (S k) (length ps - S k) ∧ (k < length ps)%nat.
Proof.
  intros E. apply first_proc_Some in E as (p & Hp & _). apply lookup_lt_Some in Hp. split; [|done].
  replace (length ps) with (k + S (length ps - S k))%nat at 1 by lia. by rewrite seq_app.
Qed.

Lemma sti_same n m d : Z.land (m_eflags m) FL_IF = FL_IF → sti n (K m d) = Done tt (K m d).
Proof.
  intros He. unfold sti, modm, modify. do 2 f_equal. destruct m; simpl in *. unfold set_field, set_km, set_m_eflags; simpl.
  do 2 f_equal. apply Z.bits_inj'. intros j Hj. rewrite Z.lor_spec.
  rewrite land_FL_IF in He. destruct (Z.testbit m_eflags 9) eqn:E9; [|done].
  rewrite FL_IF_bit, Z.pow2_bits_eqb by lia. destruct (Z.eqb_spec 9 j) as [<-|]; [by rewrite E9 | apply orb_false_r].
Qed.

(** C33: a round of the scheduler on an idle CPU.  If no process is runnable it
    changes nothing and halts until the next interrupt.  Otherwise it switches to the first runnable process k,
    with ptable.lock held, the process RUNNING and current on this CPU, its page
    table and kernel stack loaded: exactly what sched, on the process's side, returns
    with.  When the process gives the CPU back, whatever happened meanwhile, the
    scan goes on behind it with the kernel's page table and no current process,
    so that no process is passed over. *)
Theorem scheduler_handoff n m i c d :
  mach_ok m i c → c_ncli c = 0 → Z.land (m_eflags m) FL_IF = FL_IF → lk_free m L_ptable →
  length (d_procs d) = NPROC →
  (∀ k, (k < NPROC)%nat → is_runnable (d_procs d !!! k) = true →
     p_kstack (d_procs d !!! k) ≠ 0 ∧ p_pgdir (d_procs d !!! k) ≠ 0) →
  match first_proc is_runnable (d_procs d) with
  | None => ∃ kont, scheduler_round i n (K m d) = Block W_hlt (K m d) kont ∧ ∀ s, kont s = Done tt s
  | Some k =>
    ∃ kont m1 c1, let p := d_procs d !!! k in
      scheduler_round i n (K m d)
      = Block (W_switch k) (K (acq L_ptable m1) (d <| d_procs := alter start k (d_procs d) |>)) kont
      ∧ runs_proc m1 i c1 k ∧ lk_free m1 L_ptable ∧ m_cr3 m1 = V2P (p_pgdir p) ∧ c_esp0 c1 = p_kstack p +u KSTACKSIZE
      ∧ ∀ m' c' d', mach_ok m' i c' →
          kont (K (acq L_ptable m') d')
          = (ran ← sched_scan i (seq (S k) (NPROC - S k)) true; release L_ptable ;; when (negb ran) (sti ;; hlt)) n
              (K (acq L_ptable (undispatch i d' m')) d')
  end.
Proof.
  intros Hok Hn0 Hif Hpt Hlen Hready. unfold scheduler_round.
  rewrite (bind_done _ _ _ _ _ _ (sti_same n m d Hif)), (bind_done _ _ _ _ _ _ (acquire_done n m d i c _ Hok Hpt)).
  rewrite (procs_seq d Hlen). destruct (first_proc is_runnable (d_procs d)) as [k|] eqn:E.
  - destruct (first_proc_split _ _ _ E) as [-> Hk]. apply first_proc_Some in E as (p & Hp & Hr & Hlt).
    assert (Hpk : d_procs d !!! k = p) by by apply lookup_total_Some.
    destruct (Hready k) as [Hks Hpg]; [lia | by rewrite Hpk |].
    destruct (sched_scan_switch n m i c d k (seq (S k) (length (d_procs d) - S k)) false) as (kont & Hs & Hres);
      [done | by rewrite Hpk | done | done |].
    assert (Hskip : sched_scan i (seq 0 k ++ k :: seq (S k) (length (d_procs d) - S k)) false n (K (acq L_ptable m) d)
      = Block (W_switch k) (K (acq L_ptable (dispatch i k (d_procs d !!! k) m))
          (d <| d_procs := alter start k (d_procs d) |>)) kont).
    { rewrite sched_scan_skip; [done|]. intros j Hj%elem_of_seq.
      apply (Hlt j); [lia|]. apply lookup_Some_total. lia. }
    rewrite (bind_block _ _ _ _ _ _ _ Hskip).
    pose proof (mach_ok_on i _ (λ _, V2P (p_pgdir p)) _ _ (cpu_neutral_dispatch (p_kstack p) (Some k)) Hok) as Hok1.
    eexists _, (dispatch i k (d_procs d !!! k) m), _. cbv zeta.
    split; [done|]. rewrite Hpk. split; [split; [exact Hok1 | done | exact Hn0 | exact Hif]|].
    split_and!; [done | done | done |]. intros m' c' d' Hok'. rewrite (Hres m' c' d' Hok'). by rewrite Hlen.
  - rewrite <- (app_nil_r (seq 0 (length (d_procs d)))).
    rewrite (bind_done _ _ _ (K (acq L_ptable m) d) false (K (acq L_ptable m) d)).
    + rewrite (bind_done _ _ _ _ _ _ (release_acq n m d i c _ Hok Hpt)). cbn [negb when].
      rewrite (bind_done _ _ _ _ _ _ (sti_same n m d Hif)). by eexists.
    + rewrite sched_scan_skip; [done|]. intros j Hj%elem_of_seq.
      eapply first_proc_None in E; [exact E|]. apply list_elem_of_lookup. exists j. apply lookup_Some_total. lia.
Qed.

Definition drun : kdata :=
  dt <| d_procs := alter (λ p, p <| p_state := RUNNABLE |> <| p_kstack := P2V 0x9000 |> <| p_pgdir := P2V 0xA000 |>) 3%nat (d_procs dt) |>.
Lemma scheduler_handoff_witness :
  ∃ s kont, scheduler_round 0 0%nat (K (idle_mach 0 1 sched_locks) drun) = Block (W_switch 3) s kont.
Proof.
  pose proof (scheduler_handoff 0 (idle_mach 0 1 sched_locks) 0 (idle_cpu 0) drun) as H.
  change (first_proc is_runnable (d_procs drun)) with (Some 3%nat) in H. cbv iota in H.
  destruct H as (kont & m1 & c1 & H & _); [split; try done; by right | done | done | by eexists | done | |].
  - intros k Hk Hr. destruct (decide (k = 3%nat)) as [->|Hne]; [done|]. exfalso.
    do 64 (destruct k as [|k]; [done || by apply Hne|]). unfold NPROC in Hk. lia.
  - eexists _, kont. exact H.
Defined.
