(* ===== verification/ProcFacts.v ===== *)
(** * ProcFacts: growing a process, waiting for children *)

From S2P Require Import Prelude Memory Kstate Spinlock Kalloc Cprintf Vm VmFacts UvmFacts Sched SchedFacts UvmSpec SchedulerFacts.

Lemma uvm_ok_same d d' l pgdir pts e us :
  d_mm d' = d_mm d → d_im d' = d_im d → uvm_ok d l pgdir pts e us → uvm_ok d' l pgdir pts e us.
Proof.
  intros Hm Hi [[[] ? ? ? ? ?] ? ? ?]. split; [split; [split|..]|..]; rewrite ?Hm, ?Hi; done.
Qed.

(** ** growproc *)

(** The process has exactly the pages below [sz]. *)
Definition covers (us : gmap Z (Z * Z)) (sz : Z) : Prop := ∀ u, is_Some (us !! u) ↔ 0 <= u < npages sz.

(** The bytes of the pages both maps have are the same. *)
Definition same_bytes (us us' : gmap Z (Z * Z)) (d d' : kdata) : Prop :=
  ∀ u x f b, us !! u = Some (x, f) → us' !! u = Some (x, f) → x <= b < x + PGSIZE →
    mm_mem (d_mm d') b = mm_mem (d_mm d) b.

(** What growproc does to the address space: the new size or none, for failure. *)
Record grown (d : kdata) (l : list Z) (pgdir : Z) (pts : gmap Z Z) (e : Z → Z) (us : gmap Z (Z * Z))
    (d' : kdata) (l' : list Z) (pts' : gmap Z Z) (e' : Z → Z) (us' : gmap Z (Z * Z)) : Prop := {
  gr_ok : uvm_ok d' l' pgdir pts' e' us';
  gr_kernel : ∀ u, UPAGES <= u < 2 ^ 20 → e' u = e u;
  gr_pages : l' ++ vmpages pgdir pts' ++ upages us' ≡ₚ l ++ vmpages pgdir pts ++ upages us;
  gr_bytes : same_bytes us us' d d';
  gr_procs : d_procs d' = d_procs d
}.

Lemma npages_mono a b : a <= b → npages a <= npages b.
Proof. intros. apply Z.div_le_mono; unfold PGSIZE; lia. Qed.

Section grow.
Context (n : nat) (m : mach) (i : nat) (c : cpu) (Hok : mach_ok m i c) (Hkm : lk_free m L_kmem) (Hcs : lk_free m L_cons).

Lemma alloc_grown d l pgdir pts e us oldsz newsz :
  cons_ok (d_cons d) → uvm_ok d l pgdir pts e us → 0 <= oldsz <= newsz → newsz < KERNBASE → covers us oldsz →
  ∃ r d' l' pts' e' us', allocuvm pgdir oldsz newsz n (K m d) = Done r (K m d')
    ∧ grown d l pgdir pts e us d' l' pts' e' us'
    ∧ (r = newsz ∧ covers us' newsz ∨ r = 0 ∧ us' = us).
Proof.
  intros Hcn Huo Hsz Hk Hcov.
  destruct (allocuvm_done n m pgdir i c Hok Hcs d l pts e us oldsz newsz) as (r & d' & l' & pts' & e' & us' & Ha & Hr);
    [by eapply can_lock_ok | done | done | done | done | |].
  { intros u Hu. destruct (us !! u) eqn:E; [|done]. assert (is_Some (us !! u)) as Hs%Hcov by by eexists. lia. }
  exists r, d', l', pts', e', us'. split; [done|].
  assert (Hfr : ∀ fr : kdata, kmem_frame (l ++ vmpages pgdir pts) d fr → mm_mem (d_mm fr) = mm_mem (d_mm d') →
    same_bytes us us' d d').
  { intros fr (_ & _ & _ & H) Hm u x f b Hu _ Hb. rewrite <- Hm. apply H. intros y Hy.
    destruct (uvm_apart _ _ _ _ _ _ _ _ _ y Huo Hu Hy); lia. }
  destruct Hr as [[-> [A1 A2 A3 A4 A5 A6 A7 A8 A9]]|(-> & -> & [A1 A2 A3 A4 A5])].
  - split; [split; [done | done | done | by eapply Hfr | by destruct A6 as (-> & _)]|]. left. split; [done|]. intros u.
    pose proof (npages_mono _ _ (proj2 Hsz)). pose proof (npages_range oldsz ltac:(lia)).
    destruct (decide (npages oldsz <= u < npages newsz)) as [Hin|Hout].
    + destruct (A3 u Hin) as (x & -> & _). split; [intros _; lia | by eexists].
    + rewrite A2 by done. rewrite (Hcov u). lia.
  - split; [|by right]. split; [done | done | by rewrite !app_assoc, A3 | by eapply Hfr |].
    destruct A4 as (E & _). by apply (f_equal d_procs) in E.
Qed.

Lemma dealloc_grown d l pgdir pts e us oldsz newsz :
  uvm_ok d l pgdir pts e us → 0 <= newsz < oldsz → oldsz <= KERNBASE → covers us oldsz →
  ∃ d' l' e' us', deallocuvm pgdir oldsz newsz n (K m d) = Done newsz (K m d')
    ∧ grown d l pgdir pts e us d' l' pts e' us' ∧ covers us' newsz.
Proof.
  intros Huo Hsz Hk Hcov. pose proof (npages_range oldsz ltac:(lia)). pose proof (npages_range newsz ltac:(lia)).
  destruct (deallocuvm_done n m pgdir pts d l e us oldsz newsz) as (d' & rm & e' & us' & H1 & [D1 D2 D3 D4 D5]);
    [by eapply can_lock_ok | done..|].
  exists d', (rm ++ l), e', us'. split; [done|]. split.
  - split; [done | | rewrite D4; solve_Permutation | | by destruct D5 as (-> & _)].
    + intros u Hu. apply D3. lia.
    + intros u x f b _ Hu Hb. destruct D5 as (_ & _ & _ & Hfr). apply Hfr. intros y [Hy|Hy]%elem_of_app;
        (destruct (uvm_apart _ _ _ _ _ _ _ _ _ y D1 Hu); [rewrite !elem_of_app; tauto | lia | lia]).
  - intros u. rewrite D2. pose proof (npages_mono newsz oldsz ltac:(lia)). destruct (decide _) as [Hin|Hout].
    + split; [by intros [? ?] | lia].
    + rewrite (Hcov u). lia.
Qed.
End grow.

(** The last lines of growproc: the size is stored and the page table loaded
    again. *)
Lemma growproc_end n m i c d k sz :
  mach_ok m i c → (k < length (d_procs d))%nat → p_kstack (d_procs d !!! k) ≠ 0 → p_pgdir (d_procs d !!! k) ≠ 0 →
  (mod_proc k (λ p, p <| p_sz := sz |>) ;; switchuvm (Some k) ;; mret 0) n (K m d)
  = Done 0 (K (on_cpu i (tss (p_kstack (d_procs d !!! k))) (λ _, V2P (p_pgdir (d_procs d !!! k))) m)
      (d <| d_procs := alter (λ p, p <| p_sz := sz |>) k (d_procs d) |>)).
Proof.
  intros Hok Hk Hks Hpg. unfold mod_proc. rewrite bind_modd.
  set (d1 := d <| d_procs := alter (λ p, p <| p_sz := sz |>) k (d_procs d) |>).
  assert (Hp : p_kstack (d_procs d1 !!! k) = p_kstack (d_procs d !!! k) ∧ p_pgdir (d_procs d1 !!! k) = p_pgdir (d_procs d !!! k))
    by (simpl; by rewrite alter_state_lookup).
  destruct Hp as [Hp1 Hp2].
  rewrite (bind_done _ _ _ _ _ _ (switchuvm_done n m d1 i c k Hok ltac:(by rewrite Hp1) ltac:(by rewrite Hp2))).
  by rewrite Hp1, Hp2.
Qed.

Lemma covers_0 us : covers us 0 → us = ∅.
Proof.
  intros Hc. apply map_empty. intros u. destruct (us !! u) eqn:E; [|done].
  assert (is_Some (us !! u)) as Hs%Hc by by eexists. change (npages 0) with 0 in Hs. lia.
Qed.

Section growproc.
Context (n : nat) (m : mach) (i : nat) (c : cpu) (d : kdata) (k : nat) (l : list Z) (pts : gmap Z Z) (e : Z → Z)
  (us : gmap Z (Z * Z)) (p : proc).
Context (Hp : d_procs d !!! k = p) (Hok : mach_ok m i c) (Hcp : c_proc c = Some k) (Hkm : lk_free m L_kmem) (Hcs : lk_free m L_cons)
  (Hcn : cons_ok (d_cons d)) (Hk : (k < length (d_procs d))%nat) (Hks : p_kstack p ≠ 0)
  (Huo : uvm_ok d l (p_pgdir p) pts e us) (Hsz : 0 <= p_sz p < KERNBASE) (Hcov : covers us (p_sz p)).

(** The state afterwards: the result, and what became of size and pages. *)
Definition growproc_post (nb : Z) (res : kcomp Z) : Prop :=
  ∃ r m' d' l' pts' e' us', res = Done r (K m' d')
    ∧ m_locks m' = m_locks m ∧ uvm_ok d' l' (p_pgdir p) pts' e' us'
    ∧ l' ++ vmpages (p_pgdir p) pts' ++ upages us' ≡ₚ l ++ vmpages (p_pgdir p) pts ++ upages us
    ∧ same_bytes us us' d d'
    ∧ (r = 0 ∧ covers us' (p_sz (d_procs d' !!! k))
         ∧ p_sz (d_procs d' !!! k) = (if decide (p_sz p + nb < 0) then p_sz p else p_sz p + nb)
       ∨ r = -1 ∧ d_procs d' = d_procs d ∧ 0 < nb ∧ us' = us
       ∨ r = -1 ∧ d_procs d' = d_procs d ∧ nb < 0 ∧ (p_sz p = 0 ∨ p_sz p + nb = 0) ∧ us' = ∅).

Lemma growproc_success nb d1 l1 pts1 e1 us1 sz :
  grown d l (p_pgdir p) pts e us d1 l1 pts1 e1 us1 → covers us1 sz →
  sz = (if decide (p_sz p + nb < 0) then p_sz p else p_sz p + nb) →
  growproc_post nb ((mod_proc k (λ p, p <| p_sz := sz |>) ;; switchuvm (Some k) ;; mret 0) n (K m d1)).
Proof.
  intros [G1 G2 G3 G4 G5] Hc1 Hs.
  assert (Hpg : p_pgdir p ≠ 0).
  { destruct (vm_pgdir_ok (uo_vm _ _ _ _ _ _ Huo)) as (_ & _ & ? & _). unfold KERNBASE in *. lia. }
  rewrite (growproc_end n m i c d1 k sz) by (rewrite ?G5, ?Hp; done).
  eexists 0, _, _, l1, pts1, e1, us1. split; [done|]. split; [done|].
  split; [by apply (uvm_ok_same d1)|]. split_and!; [done | exact G4 | left].
  simpl. rewrite alter_state_lookup by (by rewrite G5). simpl. by rewrite <- Hs.
Qed.
Lemma growproc_grow nb : 0 < nb < 2 ^ 31 → growproc_post nb (growproc nb n (K m d)).
Proof.
  intros Hnb. unfold growproc. rewrite (bind_done _ _ _ _ _ _ (curproc_done n m d i c k Hok Hcp)).
  unfold get_proc at 1. rewrite bind_getd. cbn [kd]. rewrite Hp, Z.gtb_ltb, (proj2 (Z.ltb_lt _ _)) by lia.
  rewrite (u32_small (p_sz p + nb)) by (unfold KERNBASE in *; lia).
  destruct (decide (p_sz p + nb < KERNBASE)) as [Hlt|Hge].
  - destruct (alloc_grown n m i c Hok Hkm Hcs d l (p_pgdir p) pts e us (p_sz p) (p_sz p + nb))
      as (r & d1 & l1 & pts1 & e1 & us1 & Ha & Hg & Hr); [done | done | lia | done | done |].
    rewrite (bind_done _ _ _ (K m d) (r, r =? 0) (K m d1)) by (by rewrite (bind_done _ _ _ _ _ _ Ha)).
    destruct Hr as [[-> Hc1]|[-> ->]].
    + rewrite (proj2 (Z.eqb_neq _ _)) by lia. eapply growproc_success; [done | done |]. by rewrite decide_False by lia.
    + exists (-1), m, d1, l1, pts1, e1, us. split_and!; [done | done | apply Hg | apply Hg | apply Hg |].
      right; left. split_and!; [done | apply Hg | lia | done].
  - rewrite (bind_done _ _ _ (K m d) (0, true) (K m d)).
    2:{ unfold allocuvm. rewrite Z.geb_leb, (proj2 (Z.leb_le _ _)) by lia. done. }
    exists (-1), m, d, l, pts, e, us. split_and!; [done | done | done | done | done |].
    right; left. split_and!; [done | done | lia | done].
Qed.
Lemma grown_refl : grown d l (p_pgdir p) pts e us d l pts e us.
Proof. by split. Qed.
Lemma growproc_shrink nb : - 2 ^ 31 <= nb <= 0 → growproc_post nb (growproc nb n (K m d)).
Proof.
  intros Hnb. unfold growproc. rewrite (bind_done _ _ _ _ _ _ (curproc_done n m d i c k Hok Hcp)).
  unfold get_proc at 1. rewrite bind_getd. cbn [kd]. rewrite Hp, Z.gtb_ltb, (proj2 (Z.ltb_ge _ _)) by lia.
  destruct (Z.ltb_spec nb 0) as [Hneg|Hz].
  2:{ rewrite bind_mret. eapply growproc_success; [apply grown_refl | done |]. rewrite decide_False by lia. lia. }
  destruct (decide (p_sz p + nb < 0)) as [Hlt|Hge].
  { assert (Hwrap : p_sz p <= p_sz p +u nb).
    { unfold u32. rewrite <- (Z.mod_add _ 1) by lia. rewrite Z.mod_small; unfold KERNBASE in *; lia. }
    rewrite (bind_done _ _ _ (K m d) (p_sz p, p_sz p =? 0) (K m d)).
    2:{ unfold deallocuvm. rewrite Z.geb_leb, (proj2 (Z.leb_le _ _)) by done. done. }
    destruct (Z.eqb_spec (p_sz p) 0) as [E0|].
    - exists (-1), m, d, l, pts, e, us. split_and!; [done | done | done | done | done |].
      right; right. split_and!; [done | done | lia | by left | apply covers_0; by rewrite E0 in Hcov].
    - eapply growproc_success; [apply grown_refl | done | by rewrite decide_True by lia]. }
  rewrite (u32_small (p_sz p + nb)) by (unfold KERNBASE in *; lia).
  destruct (dealloc_grown n m i c Hok Hkm d l (p_pgdir p) pts e us (p_sz p) (p_sz p + nb))
    as (d1 & l1 & e1 & us1 & Hd & Hg & Hc1); [done | lia | lia | done |].
  rewrite (bind_done _ _ _ (K m d) (p_sz p + nb, p_sz p + nb =? 0) (K m d1)) by (by rewrite (bind_done _ _ _ _ _ _ Hd)).
  destruct (Z.eqb_spec (p_sz p + nb) 0) as [E0|].
  - exists (-1), m, d1, l1, pts, e1, us1. split_and!; [done | done | apply Hg | apply Hg | apply Hg |].
    right; right. split_and!; [done | apply Hg | lia | by right | apply covers_0; by rewrite E0 in Hc1].
  - eapply growproc_success; [done | done | by rewrite decide_False by lia].
Qed.
End growproc.

(** growproc(nb), on a process that has exactly the pages below its size,
    keeps that so: it returns 0 with the size changed by nb (a decrease below 0
    is ignored), or -1 with size and pages unchanged, when memory or address
    space runs out.  The one exception: a decrease to exactly 0 frees every
    page and yet returns -1 without storing the size, so the process's size no
    longer says what is mapped.  In all cases no page is lost, the pages that
    stay keep their bytes, and no lock is held. *)
Theorem growproc_spec n m i c d k nb l pts e us p :
  d_procs d !!! k = p → mach_ok m i c → c_proc c = Some k → lk_free m L_kmem → lk_free m L_cons → cons_ok (d_cons d) →
  (k < length (d_procs d))%nat → p_kstack p ≠ 0 → uvm_ok d l (p_pgdir p) pts e us →
  0 <= p_sz p < KERNBASE → covers us (p_sz p) → - 2 ^ 31 <= nb < 2 ^ 31 →
  ∃ r m' d' l' pts' e' us', growproc nb n (K m d) = Done r (K m' d')
    ∧ m_locks m' = m_locks m ∧ uvm_ok d' l' (p_pgdir p) pts' e' us'
    ∧ l' ++ vmpages (p_pgdir p) pts' ++ upages us' ≡ₚ l ++ vmpages (p_pgdir p) pts ++ upages us
    ∧ same_bytes us us' d d'
    ∧ (r = 0 ∧ covers us' (p_sz (d_procs d' !!! k))
         ∧ p_sz (d_procs d' !!! k) = (if decide (p_sz p + nb < 0) then p_sz p else p_sz p + nb)
       ∨ r = -1 ∧ d_procs d' = d_procs d ∧ 0 < nb ∧ us' = us
       ∨ r = -1 ∧ d_procs d' = d_procs d ∧ nb < 0 ∧ (p_sz p = 0 ∨ p_sz p + nb = 0) ∧ us' = ∅).
Proof.
  intros Hp Hok Hcp Hkm Hcs Hcn Hk Hks Huo Hsz Hcov Hnb. destruct (decide (0 < nb)).
  - apply (growproc_grow n m i c d k l pts e us p); (done || lia).
  - apply (growproc_shrink n m i c d k l pts e us p); (done || lia).
Qed.

Definition dgrow : kdata :=
  dv <| d_procs := alter (λ p, p <| p_sz := 4096 |> <| p_pgdir := pg 0 |> <| p_kstack := P2V 0x9000 |>) 0%nat (d_procs dv) |>.
Lemma growproc_spec_witness : ∃ r m' d', growproc (-4096) 0%nat (K mt dgrow) = Done r (K m' d').
Proof.
  destruct (growproc_spec 0 mt 0 ct dgrow 0 (-4096) [pg 3; pg 4] {[ 0 := pg 1 ]} ev {[ 0 := (pg 2, 7) ]} (d_procs dgrow !!! 0%nat))
    as (r & m' & d' & _ & _ & _ & _ & H & _);
    [done | apply runs_proc_mt | done | by eexists | by eexists | by split | simpl; lia | done
    | by apply (uvm_ok_same dv), uvm_ok_dv | by vm_compute | | lia | by exists r, m', d'].
  intros u. change (npages (p_sz (d_procs dgrow !!! 0%nat))) with 1.
  destruct (decide (u = 0)) as [->|Hne]; [split; [lia | by eexists]|].
  rewrite lookup_singleton_ne by done. split; [by intros [? ?] | lia].
Defined.

(** ** wait *)

Definition is_child (cur : nat) (p : proc) : bool := bool_decide (p_parent p = Some cur).
Definition is_zombie_child (cur : nat) (p : proc) : bool := is_child cur p && bool_decide (p_state p = ZOMBIE).
(** The slot of a child that has been waited for. *)
Definition reaped (p : proc) : proc :=
  p <| p_kstack := 0 |> <| p_pid := 0 |> <| p_parent := None |> <| p_name := <[0%nat := 0]> (p_name p) |>
    <| p_killed := 0 |> <| p_state := UNUSED |>.

Lemma wait_scan_skip rel' n m d cur l l2 hk :
  (∀ k, k ∈ l → is_zombie_child cur (d_procs d !!! k) = false) →
  wait_scan_with rel' cur (l ++ l2) hk n (K m d)
  = wait_scan_with rel' cur l2 (hk || existsb (λ k, is_child cur (d_procs d !!! k)) l) n (K m d).
Proof.
  revert hk. induction l as [|k l IH]; intros hk Hl; [by rewrite orb_false_r|].
  pose proof (Hl k ltac:(apply list_elem_of_here)) as Hk. assert (Hl' : ∀ j, j ∈ l → is_zombie_child cur (d_procs d !!! j) = false) by (intros j Hj; by apply Hl, list_elem_of_further).
  cbn [app wait_scan_with existsb]. unfold get_proc. rewrite bind_getd. cbn [kd].
  unfold is_zombie_child, is_child in *. destruct (bool_decide (p_parent _ = _)); simpl in *.
  - rewrite Hk. simpl. rewrite IH by done. by rewrite orb_true_r.
  - by rewrite IH by done.
Qed.

Lemma wait_scan_reap rel' n m i c d cur k l hk lf pts e us :
  mach_ok m i c → lk_free m L_ptable → lk_free m L_kmem → (k < length (d_procs d))%nat →
  is_zombie_child cur (d_procs d !!! k) = true →
  uvm_ok d lf (p_pgdir (d_procs d !!! k)) pts e us → page_ok (d_im d) (p_kstack (d_procs d !!! k)) →
  p_kstack (d_procs d !!! k) ∉ lf ++ vmpages (p_pgdir (d_procs d !!! k)) pts ++ upages us →
  ∃ d' lf', wait_scan_with rel' cur (k :: l) hk n (K (acq L_ptable m) d)
      = (rel' L_ptable ;; mret (inl (p_pid (d_procs d !!! k)))) n (K (acq L_ptable m) d')
    ∧ kmem_ok d' lf' ∧ lf' ≡ₚ p_kstack (d_procs d !!! k) :: lf ++ vmpages (p_pgdir (d_procs d !!! k)) pts ++ upages us
    ∧ d' = d <| d_mm := d_mm d' |> <| d_procs := alter reaped k (d_procs d) |>.
Proof.
  intros Hok Hpt Hkm Hk Hz Huo Hks Hksn. apply andb_prop in Hz as [Hc Hz]. unfold is_child in Hc.
  cbn [wait_scan_with]. unfold get_proc at 1. rewrite bind_getd. cbn [kd]. rewrite Hc, Hz. cbn [negb].
  set (p := d_procs d !!! k) in *.
  pose proof (mach_ok_acq L_ptable _ _ _ Hok) as Hok1.
  assert (Hcl : ∀ d, can_lock (acq L_ptable m) d).
  { intros d0. eapply can_lock_ok; [exact Hok1 | by apply acq_free_other]. }
  rewrite (bind_done _ _ _ _ _ _ (kfree_done n _ d _ (Hcl d) Hks)).
  unfold mod_proc. rewrite bind_modd.
  set (d1 := d <| d_mm := kfree_mm (p_kstack p) (d_mm d) |> <| d_procs := alter (λ p, p <| p_kstack := 0 |>) k (d_procs d) |>).
  assert (Huo1 : uvm_ok d1 (p_kstack p :: lf) (p_pgdir p) pts e us).
  { apply (uvm_ok_same (d <| d_mm := kfree_mm (p_kstack p) (d_mm d) |>)); [done | done |].
    destruct Huo as [Hvm Hu Hp Ha]. split; [apply vm_ok_kfree; [done | done |] | done | done | by constructor].
    intros Hin. apply Hksn. rewrite app_assoc. apply elem_of_app. by left. }
  destruct (freevm_done n (acq L_ptable m) (p_pgdir p) d1 (p_kstack p :: lf) pts e us (Hcl d1) Huo1)
    as (d2 & lf2 & Hf & Hk2 & Hl2 & (Heq & _)).
  rewrite (bind_done _ _ _ _ _ _ Hf), !bind_modd.
  eexists _, lf2. split; [done|]. split; [by destruct Hk2 as [? ? ?]; split|]. split; [done|].
  rewrite Heq. subst d1. cbn [d_procs set_field set_d_procs set_d_mm]. rewrite !list_alter_alter_eq.
  rewrite (alter_ext_at _ reaped (d_procs d) k p); [done | by apply lookup_Some_total |].
  clear. clearbody p. by destruct p.
Qed.

(** What wait() frees of a zombie child of [cur] is there to be freed, and [lf] are the free pages. *)
Definition reapable (d : kdata) (lf : list Z) (cur : nat) : Prop :=
  ∀ k, is_zombie_child cur (d_procs d !!! k) = true → ∃ pts e us,
    uvm_ok d lf (p_pgdir (d_procs d !!! k)) pts e us ∧ page_ok (d_im d) (p_kstack (d_procs d !!! k))
    ∧ p_kstack (d_procs d !!! k) ∉ lf ++ vmpages (p_pgdir (d_procs d !!! k)) pts ++ upages us.

Lemma wait_scan_none rel' n m d cur :
  length (d_procs d) = NPROC → first_proc (is_zombie_child cur) (d_procs d) = None →
  wait_scan_with rel' cur procs false n (K m d)
  = Done (inr (existsb (λ k, is_child cur (d_procs d !!! k)) procs)) (K m d).
Proof.
  intros Hlen E. rewrite <- (app_nil_r procs) at 1. rewrite wait_scan_skip; [done|].
  intros k Hk. unfold procs in Hk. apply elem_of_seq in Hk. eapply first_proc_None in E; [exact E|].
  apply list_elem_of_lookup. exists k. apply lookup_Some_total. lia.
Qed.

Lemma release_smp_then {A} n m d i c lk (a : A) :
  mach_ok m i c → lk_free m lk →
  (release_smp lk ;; mret a) n (K (acq lk m) d) = Block (W_unlocked lk) (K m d) (λ s, Done a s).
Proof. intros Hok Hf. unfold release_smp, mbind, M_bind. by rewrite (release_acq n m d i c lk Hok Hf). Qed.

Lemma wait_scan_first rel' n m i c d cur k lf :
  mach_ok m i c → lk_free m L_ptable → lk_free m L_kmem → length (d_procs d) = NPROC → reapable d lf cur →
  first_proc (is_zombie_child cur) (d_procs d) = Some k →
  ∃ d' lf' pts e us, wait_scan_with rel' cur procs false n (K (acq L_ptable m) d)
      = (rel' L_ptable ;; mret (inl (p_pid (d_procs d !!! k)))) n (K (acq L_ptable m) d')
    ∧ uvm_ok d lf (p_pgdir (d_procs d !!! k)) pts e us ∧ kmem_ok d' lf'
    ∧ lf' ≡ₚ p_kstack (d_procs d !!! k) :: lf ++ vmpages (p_pgdir (d_procs d !!! k)) pts ++ upages us
    ∧ d' = d <| d_mm := d_mm d' |> <| d_procs := alter reaped k (d_procs d) |>.
Proof.
  intros Hok Hpt Hkm Hlen Hz E.
  destruct (first_proc_split _ _ _ E) as [Hsplit Hk]. apply first_proc_Some in E as (p & Hp & Ht & Hlt).
  assert (Hpk : d_procs d !!! k = p) by by apply lookup_total_Some.
  destruct (Hz k) as (pts & e & us & Huo & Hks & Hksn); [by rewrite Hpk|].
  destruct (wait_scan_reap rel' n m i c d cur k (seq (S k) (length (d_procs d) - S k))
    (false || existsb (λ k, is_child cur (d_procs d !!! k)) (seq 0 k)) lf pts e us)
    as (d' & lf' & Hs & H1 & H2 & H3); [done | done | done | lia | by rewrite Hpk | done | done | done |].
  exists d', lf', pts, e, us. split_and!; [|done..].
  rewrite (procs_seq d Hlen), Hsplit, wait_scan_skip; [exact Hs|]. intros j Hj%elem_of_seq.
  apply (Hlt j); [lia|]. apply lookup_Some_total. lia.
Qed.

(** C34: wait() by process cur, with the other CPUs running whenever it takes
    or gives back ptable.lock.  It first waits for ptable.lock.  In whatever state [K m d]
    the others leave when it gets the lock: if some child is a zombie, the
    first one in the table is reaped before the lock is given back: its kernel
    stack and its whole address space are free again, its slot is unused and
    cleared, nothing else has changed, and its pid is returned.  If there is no child,
    or cur has been killed, the lock is given back with nothing changed and -1 returned.  Otherwise the
    very next point at which another CPU can run is the one where cur is asleep
    on its own slot with ptable.lock still held, so no exit of a child
    (which wakes its parent under ptable.lock) falls between the scan and the
    sleep; woken, it holds ptable.lock again and scans again. *)
Theorem wait_spec n m0 i0 c0 d0 cur :
  runs_proc m0 i0 c0 cur → (cur < NPROC)%nat →
  ∃ k0, wait_with acquire_smp release_smp (S n) (K m0 d0) = Block (W_lock L_ptable) (K m0 d0) k0 ∧
  ∀ m i c d lf, runs_proc m i c cur → lk_free m L_ptable → lk_free m L_kmem → length (d_procs d) = NPROC →
  reapable d lf cur →
  match first_proc (is_zombie_child cur) (d_procs d) with
  | Some k =>
    ∃ d' lf' pts e us kont, k0 (K m d) = Block (W_unlocked L_ptable) (K m d') kont
      ∧ (∀ s, kont s = Done (s32 (p_pid (d_procs d !!! k))) s)
      ∧ uvm_ok d lf (p_pgdir (d_procs d !!! k)) pts e us ∧ kmem_ok d' lf'
      ∧ lf' ≡ₚ p_kstack (d_procs d !!! k) :: lf ++ vmpages (p_pgdir (d_procs d !!! k)) pts ++ upages us
      ∧ d' = d <| d_mm := d_mm d' |> <| d_procs := alter reaped k (d_procs d) |>
  | None =>
    if existsb (λ k, is_child cur (d_procs d !!! k)) procs && (p_killed (d_procs d !!! cur) =? 0) then
      ∃ kont, k0 (K m d)
          = Block W_sched (K (acq L_ptable m) (d <| d_procs := alter (asleep (Ch_proc cur)) cur (d_procs d) |>)) kont
        ∧ ∀ m' i' c' d', runs_proc m' i' c' cur → lk_free m' L_ptable →
            kont (K (acq L_ptable m') d') = wait_loop_with acquire_smp release_smp n cur (S n)
              (K (acq L_ptable m') (d' <| d_procs := alter no_chan cur (d_procs d') |>))
    else ∃ kont, k0 (K m d) = Block (W_unlocked L_ptable) (K m d) kont ∧ ∀ s, kont s = Done (-1) s
  end.
Proof.
  intros Hr0 Hcur. eexists. split.
  { unfold wait_with, with_fuel, acquire_smp at 1.
    rewrite (bind_done _ _ _ _ _ _ (curproc_done (S n) m0 d0 i0 c0 cur (rp_ok _ _ _ _ Hr0) (rp_proc _ _ _ _ Hr0))).
    reflexivity. }
  intros m i c d lf Hr Hpt Hkm Hlen Hz. pose proof (rp_ok _ _ _ _ Hr) as Hok. cbn [comp_bind].
  rewrite (acquire_done (S n) m d i c _ Hok Hpt). cbn [comp_bind wait_loop_with].
  destruct (first_proc (is_zombie_child cur) (d_procs d)) as [k|] eqn:E.
  - destruct (wait_scan_first release_smp (S n) m i c d cur k lf) as (d' & lf' & pts & e & us & Hs & H); [done..|].
    rewrite (release_smp_then (S n) m d' i c L_ptable _ Hok Hpt) in Hs. rewrite (bind_block _ _ _ _ _ _ _ Hs).
    eexists d', lf', pts, e, us, _. split; [reflexivity|]. by split; [intros s|].
  - rewrite (bind_done _ _ _ _ _ _ (wait_scan_none release_smp (S n) _ d cur Hlen E)). unfold get_proc. rewrite bind_getd. cbn [kd].
    assert (Hrel : ∃ kont, (release_smp L_ptable ;; mret (-1)) (S n) (K (acq L_ptable m) d)
      = Block (W_unlocked L_ptable) (K m d) kont ∧ ∀ s, kont s = Done (-1) s).
    { eexists. by rewrite (release_smp_then (S n) m d i c L_ptable (-1) Hok Hpt). }
    set (hk := existsb _ procs). destruct hk; cbn [negb orb andb]; [|exact Hrel].
    unfold ctrue. destruct (p_killed (d_procs d !!! cur) =? 0); cbn [negb]; [|exact Hrel].
    destruct (sleep_ptable_blocks acquire_smp release_smp (S n) m i c cur d (Ch_proc cur)) as (kont & Hs & Hres);
      [done | done | lia |].
    rewrite (bind_block _ _ _ _ _ _ _ Hs). eexists. split; [done|].
    intros m' i' c' d' Hr' Hpt'. cbv beta. by rewrite (Hres m' i' c' d' Hr' Hpt').
Qed.

(** Process 1 is a zombie child of process 0 with the address space of UvmSpec. *)
Definition dwait : kdata :=
  dv <| d_procs := alter (λ p, p <| p_state := ZOMBIE |> <| p_pid := 8 |> <| p_parent := Some 0%nat |>
    <| p_pgdir := pg 0 |> <| p_kstack := pg 5 |>) 1%nat (d_procs dv) |>.
Lemma wait_spec_witness :
  ∃ k0 d' kont, wait_with acquire_smp release_smp 1%nat (K mt dwait) = Block (W_lock L_ptable) (K mt dwait) k0
    ∧ k0 (K mt dwait) = Block (W_unlocked L_ptable) (K mt d') kont ∧ ∀ s, kont s = Done 8 s.
Proof.
  destruct (wait_spec 0 mt 0 ct dwait 0) as (k0 & Hw & H); [apply runs_proc_mt | unfold NPROC; lia |].
  specialize (H mt 0%nat ct dwait [pg 3; pg 4]).
  change (first_proc (is_zombie_child 0) (d_procs dwait)) with (Some 1%nat) in H. cbv iota in H.
  destruct H as (d' & _ & _ & _ & _ & kont & H & Hd & _);
    [apply runs_proc_mt | by eexists | by eexists | done | | by exists k0, d', kont].
  intros k Hk. assert (k = 1%nat) as ->.
  { destruct (decide (k < 64)%nat) as [Hlt|Hge].
    - do 64 (destruct k as [|k]; [done || by vm_compute in Hk|]). lia.
    - rewrite list_lookup_total_alt, lookup_ge_None_2 in Hk; [done|]. change (length (d_procs dwait)) with 64%nat. lia. }
  exists {[ 0 := pg 1 ]}, ev, {[ 0 := (pg 2, 7) ]}. split_and!; [by apply (uvm_ok_same dv), uvm_ok_dv | by vm_compute |].
  unfold vmpages, upages. rewrite !map_to_list_singleton. apply (bool_decide_unpack _). by vm_compute.
Defined.
