(* ===== verification/Sleeplock.v ===== *)
(** * Sleeplock: sleeplock.c

    Long-term locks: a flag guarded by a spin lock, and processes that sleep
    while it is set. Below the functions are
    their equations for a thread that holds no spin lock, and the frame that says
    what the lower layers of the file system leave alone. *)

From S2P Require Import Prelude Memory Kstate Spinlock Kalloc Cprintf Vm Sched SchedFacts.

#[export] Instance sleeplock_inhabited : Inhabited sleeplock := populate (Sleeplock 0 "sleep lock" 0).
Definition get_sl (lk : slid) : KM sleeplock := getd (λ d, default inhabitant (d_sl d !! lk)).
Definition mod_sl (lk : slid) (f : sleeplock → sleeplock) : KM unit :=
  modd (λ d, d <| d_sl := alter f lk (d_sl d) |>).

Definition initsleeplock (lk : slid) (name : string) : KM unit :=
  initlock (L_sleep lk) "sleep lock" ;;
  modd (λ d, d <| d_sl := <[lk := Sleeplock 0 name 0]> (d_sl d) |>).

(** [while (lk->locked) sleep(lk, &lk->lk);] *)
Fixpoint acquiresleep_loop (fuel : nat) (lk : slid) : KM unit :=
  match fuel with
  | O => out_of_fuel
  | S fuel' =>
    l ← get_sl lk;
    if ctrue (slk_locked l) then sleep (Ch_sleep lk) (Some (L_sleep lk)) ;; acquiresleep_loop fuel' lk
    else mret tt
  end.
Definition acquiresleep (lk : slid) : KM unit :=
  acquire (L_sleep lk) ;;
  with_fuel (λ fuel, acquiresleep_loop fuel lk) ;;
  mod_sl lk (λ l, l <| slk_locked := 1 |>) ;;
  i ← curproc; p ← get_proc i;
  mod_sl lk (λ l, l <| slk_pid := p_pid p |>) ;;
  release (L_sleep lk).

Definition releasesleep (lk : slid) : KM unit :=
  acquire (L_sleep lk) ;;
  mod_sl lk (λ l, l <| slk_locked := 0 |>) ;;
  mod_sl lk (λ l, l <| slk_pid := 0 |>) ;;
  wakeup (Ch_sleep lk) ;;
  release (L_sleep lk).

Definition holdingsleep (lk : slid) : KM bool :=
  acquire (L_sleep lk) ;;
  l ← get_sl lk;
  let r := slk_locked l in
  release (L_sleep lk) ;;
  mret (ctrue r).

(** ** The thread that uses the file system *)

(** The spin locks of the layers below the file system. *)
Definition fs_lock (lk : lockid) : Prop :=
  match lk with
  | L_ptable | L_bcache | L_log | L_icache | L_ide => True
  | L_sleep (SL_buf b) => (b < NBUF)%nat
  | L_sleep (SL_inode i) => (i < NINODE)%nat
  | _ => False
  end.

(** The page directories of the processes. *)
Definition pdirs (d : kdata) : list Z := p_pgdir <$> d_procs d.
(** Process [p] runs on its page table, holds no spin lock, and these locks are free. *)
Record fs_thread (p : nat) (m : mach) (d : kdata) : Prop := {
  ft_run : ∃ i c, runs_proc m i c p;
  ft_free : ∀ lk, fs_lock lk → lk_free m lk;
  ft_procs : length (d_procs d) = NPROC;
  ft_p : (p < NPROC)%nat;
  ft_cr3 : pdirs d !! p = Some (P2V (m_cr3 m))
}.

Lemma fs_thread_data p m d d' :
  fs_thread p m d → pdirs d' = pdirs d → fs_thread p m d'.
Proof.
  intros [Hr Hf Hl Hp Hc] E. split; [done | done | | done | congruence].
  apply (f_equal length) in E. unfold pdirs in E. rewrite !length_fmap in E. congruence.
Qed.

(** A process apart from what sleep and wakeup change of it. *)
Definition quiet (p : proc) : proc := p <| p_state := UNUSED |> <| p_chan := None |>.
Lemma quiet_wake ch (ps : list proc) : quiet <$> (wake ch <$> ps) = quiet <$> ps.
Proof.
  rewrite <- list_fmap_compose. apply list_fmap_ext. intros _ p _. unfold wake, compose. by destruct (_ && _).
Qed.
Lemma quiet_alter f i (ps : list proc) :
  (∀ p, quiet (f p) = quiet p) → quiet <$> alter f i ps = quiet <$> ps.
Proof.
  intros Hf. apply list_eq. intros k. rewrite !list_lookup_fmap.
  destruct (decide (k = i)) as [->|Hne].
  - rewrite list_lookup_alter_eq. destruct (ps !! i); simpl; [by rewrite Hf | done].
  - by rewrite list_lookup_alter_ne.
Qed.

Lemma pdirs_quiet d d' : quiet <$> d_procs d' = quiet <$> d_procs d → pdirs d' = pdirs d.
Proof.
  intros E. assert (Hq : ∀ ps : list proc, p_pgdir <$> ps = p_pgdir <$> (quiet <$> ps)) by (intros ps; by rewrite <- list_fmap_compose).
  unfold pdirs. rewrite (Hq (d_procs d')), (Hq (d_procs d)). by rewrite E.
Qed.

(** ** Sleep locks *)

Section sleeplock.
Context (p n : nat) (m : mach) (lk : slid) (Hlk : fs_lock (L_sleep lk)).

Lemma thread_acq d (Ht : fs_thread p m d) :
  ∃ i c, mach_ok m i c ∧ mach_ok (acq (L_sleep lk) m) i (cpu_push (m_eflags m) c)
    ∧ c_proc (cpu_push (m_eflags m) c) = Some p.
Proof.
  destruct (ft_run _ _ _ Ht) as (i & c & Hr). exists i, c. pose proof (rp_ok _ _ _ _ Hr) as Hok.
  split_and!; [done | by apply mach_ok_acq | rewrite cpu_push_proc; apply Hr].
Qed.

Lemma acquiresleep_done d l :
  fs_thread p m d → (1 <= n)%nat → d_sl d !! lk = Some l → slk_locked l = 0 →
  acquiresleep lk n (K m d)
  = Done tt (K m (d <| d_sl := <[lk := Sleeplock 1 (slk_name l) (p_pid (d_procs d !!! p))]> (d_sl d) |>)).
Proof.
  intros Ht Hn Hl H0. destruct (thread_acq d Ht) as (i & c & Hok & Hok' & Hc). unfold acquiresleep.
  rewrite (bind_done _ _ _ _ _ _ (acquire_done n m d i c _ Hok (ft_free _ _ _ Ht _ Hlk))).
  rewrite (bind_done _ _ _ _ tt (K (acq (L_sleep lk) m) d)).
  2:{ unfold with_fuel. destruct n as [|n']; [lia|]. simpl. unfold get_sl. rewrite bind_getd, Hl. simpl.
      by rewrite H0. }
  unfold mod_sl. rewrite bind_modd, (bind_done _ _ _ _ _ _ (curproc_done n _ _ i _ p Hok' Hc)).
  unfold get_proc. rewrite bind_getd, bind_modd.
  rewrite (release_acq n m _ i c _ Hok (ft_free _ _ _ Ht _ Hlk)). do 2 f_equal.
  destruct d; unfold set_field, set_d_sl; simpl in *. f_equal.
  rewrite (alter_insert_at _ _ _ _ Hl), alter_insert_eq. by destruct l.
Qed.

Lemma releasesleep_done d l :
  fs_thread p m d → d_sl d !! lk = Some l →
  releasesleep lk n (K m d)
  = Done tt (K m (d <| d_sl := <[lk := Sleeplock 0 (slk_name l) 0]> (d_sl d) |>
                    <| d_procs := wake (Some (Ch_sleep lk)) <$> d_procs d |>)).
Proof.
  intros Ht Hl. destruct (thread_acq d Ht) as (i & c & Hok & Hok' & Hc). unfold releasesleep.
  rewrite (bind_done _ _ _ _ _ _ (acquire_done n m d i c _ Hok (ft_free _ _ _ Ht _ Hlk))).
  unfold mod_sl. rewrite !bind_modd.
  set (d1 := set_field d_sl _ _). assert (Hp1 : length (d_procs d1) = NPROC) by apply Ht.
  rewrite (bind_done _ _ _ _ _ _ (wakeup_done n _ d1 i _ (Ch_sleep lk) Hok'
    (acq_free_other (L_sleep lk) L_ptable m ltac:(done) (ft_free _ _ _ Ht L_ptable I)) Hp1)).
  rewrite (release_acq n m _ i c _ Hok (ft_free _ _ _ Ht _ Hlk)). do 2 f_equal. subst d1.
  destruct d; unfold set_field, set_d_sl, set_d_procs; simpl in *. f_equal.
  rewrite (alter_insert_at _ _ _ _ Hl), alter_insert_eq. by destruct l.
Qed.

Lemma holdingsleep_done d l :
  fs_thread p m d → d_sl d !! lk = Some l →
  holdingsleep lk n (K m d) = Done (ctrue (slk_locked l)) (K m d).
Proof.
  intros Ht Hl. destruct (thread_acq d Ht) as (i & c & Hok & Hok' & Hc). unfold holdingsleep.
  rewrite (bind_done _ _ _ _ _ _ (acquire_done n m d i c _ Hok (ft_free _ _ _ Ht _ Hlk))).
  unfold get_sl. rewrite bind_getd, Hl. simpl.
  by rewrite (bind_done _ _ _ _ _ _ (release_acq n m _ i c _ Hok (ft_free _ _ _ Ht _ Hlk))).
Qed.
End sleeplock.
