(* ===== verification/Bio.v ===== *)
(** * Bio: bio.c, the buffer cache

    Buffers are indices into [d_bufs], whose last element is the head of the
    list that prev and next thread through them.  The disk driver is an
    interface, [Disk]: ide.c and memide.c both implement it (Ide.v). *)

From S2P Require Import Prelude Memory Kstate Spinlock Kalloc Cprintf Vm Sched Sleeplock.

(** What the rest of the kernel calls: sync a locked buffer with the disk, and
    the handler of the disk's interrupt. *)
Class Disk : Type := { iderw : nat → KM unit; ideintr : KM unit }.

Definition get_buf (b : nat) : KM buf := getd (λ d, d_bufs d !!! b).
Definition mod_buf (b : nat) (f : buf → buf) : KM unit :=
  modd (λ d, d <| d_bufs := alter f b (d_bufs d) |>).
(** &bcache.head *)
Definition bhead : nat := NBUF.

Definition binit : KM unit :=
  initlock L_bcache "bcache" ;;
  mod_buf bhead (λ b, b <| b_prev := bhead |>) ;;
  mod_buf bhead (λ b, b <| b_next := bhead |>) ;;
  forM (seq 0 NBUF) (λ b,
    h ← get_buf bhead; mod_buf b (λ x, x <| b_next := b_next h |>) ;;
    mod_buf b (λ x, x <| b_prev := bhead |>) ;;
    initsleeplock (SL_buf b) "buffer" ;;
    h ← get_buf bhead; mod_buf (b_next h) (λ x, x <| b_prev := b |>) ;;
    mod_buf bhead (λ x, x <| b_next := b |>)).

(** [for(b = ...; b != &bcache.head; b = link(b)) if(test(b)) ...]: the first
    buffer with the property.  The list has NBUF buffers. *)
Fixpoint ring_find (fuel : nat) (link : buf → nat) (test : buf → bool) (b : nat) : KM (option nat) :=
  match fuel with
  | O => out_of_fuel
  | S fuel' =>
    if bool_decide (b = bhead) then mret None else
    x ← get_buf b;
    if test x then mret (Some b) else ring_find fuel' link test (link x)
  end.

Definition bget (dev blockno : Z) : KM nat :=
  acquire L_bcache ;;
  h ← get_buf bhead;
  hit ← ring_find (S NBUF) b_next (λ x, (b_dev x =? dev) && (b_blockno x =? blockno)) (b_next h);
  match hit with
  | Some b =>
    mod_buf b (λ x, x <| b_refcnt := b_refcnt x +u 1 |>) ;;
    release L_bcache ;;
    acquiresleep (SL_buf b) ;;
    mret b
  | None =>
    h ← get_buf bhead;
    free ← ring_find (S NBUF) b_prev
      (λ x, (b_refcnt x =? 0) && (Z.land (b_flags x) B_DIRTY =? 0)) (b_prev h);
    match free with
    | Some b =>
      mod_buf b (λ x, x <| b_dev := dev |>) ;;
      mod_buf b (λ x, x <| b_blockno := blockno |>) ;;
      mod_buf b (λ x, x <| b_flags := 0 |>) ;;
      mod_buf b (λ x, x <| b_refcnt := 1 |>) ;;
      release L_bcache ;;
      acquiresleep (SL_buf b) ;;
      mret b
    | None => panic "bget: no buffers"
    end
  end.

Definition bread `{Disk} (dev blockno : Z) : KM nat :=
  b ← bget dev blockno;
  x ← get_buf b;
  when (Z.land (b_flags x) B_VALID =? 0) (iderw b) ;;
  mret b.

Definition bwrite `{Disk} (b : nat) : KM unit :=
  h ← holdingsleep (SL_buf b);
  if negb (h : bool) then panic "bwrite" else
  mod_buf b (λ x, x <| b_flags := Z.lor (b_flags x) B_DIRTY |>) ;;
  iderw b.

Definition brelse (b : nat) : KM unit :=
  h ← holdingsleep (SL_buf b);
  if negb (h : bool) then panic "brelse" else
  releasesleep (SL_buf b) ;;
  acquire L_bcache ;;
  mod_buf b (λ x, x <| b_refcnt := b_refcnt x -u 1 |>) ;;
  x ← get_buf b;
  when (b_refcnt x =? 0) (
    x ← get_buf b; mod_buf (b_next x) (λ y, y <| b_prev := b_prev x |>) ;;
    x ← get_buf b; mod_buf (b_prev x) (λ y, y <| b_next := b_next x |>) ;;
    h ← get_buf bhead; mod_buf b (λ y, y <| b_next := b_next h |>) ;;
    mod_buf b (λ y, y <| b_prev := bhead |>) ;;
    h ← get_buf bhead; mod_buf (b_next h) (λ y, y <| b_prev := b |>) ;;
    mod_buf bhead (λ y, y <| b_next := b |>)) ;;
  release L_bcache.
