(* ===== verification/BioRing.v ===== *)
(** * BioRing: the list of buffers of Bio.v as a ring

    Paths along the links, the searches of bget, and moving a buffer to the
    front as brelse does. *)

From S2P Require Import Prelude Memory Kstate Spinlock Kalloc Cprintf Vm Sched SchedFacts Sleeplock Bio.

(** ** The ring *)

(** [l] is the path along the links from [a]. *)
Fixpoint linked (nx pv : nat → nat) (a : nat) (l : list nat) : Prop :=
  match l with
  | [] => True
  | b :: l' => nx a = b ∧ pv b = a ∧ linked nx pv b l'
  end.

Lemma linked_app nx pv a l1 x l2 :
  linked nx pv a (l1 ++ x :: l2) ↔ linked nx pv a (l1 ++ [x]) ∧ linked nx pv x l2.
Proof. revert a. induction l1 as [|y l1 IH]; intros a; simpl; [naive_solver|]. rewrite IH. naive_solver. Qed.

(** A path depends on the links out of its nodes but the last, and into them. *)
Lemma linked_frame nx pv nx' pv' a l z :
  linked nx pv a (l ++ [z]) →
  (∀ x, x ∈ a :: l → nx' x = nx x) → (∀ x, x ∈ l ++ [z] → pv' x = pv x) →
  linked nx' pv' a (l ++ [z]).
Proof.
  revert a. induction l as [|y l IH]; intros a; simpl.
  - intros (H1 & H2 & _) Hn Hp. rewrite Hn, Hp by set_solver. done.
  - intros (H1 & H2 & H3) Hn Hp. rewrite Hn, Hp by set_solver. split_and!; [done..|].
    apply IH; [done | intros x Hx; apply Hn; set_solver | intros x Hx; apply Hp; set_solver].
Qed.

Definition nexts (bs : list buf) (a : nat) : nat := b_next (bs !!! a).
Definition prevs (bs : list buf) (a : nat) : nat := b_prev (bs !!! a).

Record ring_ok (bs : list buf) (ring : list nat) : Prop := {
  rg_len : length bs = S NBUF;
  rg_perm : ring ≡ₚ seq 0 NBUF;
  rg_links : linked (nexts bs) (prevs bs) bhead (ring ++ [bhead])
}.

Lemma rg_elem bs ring b : ring_ok bs ring → b ∈ ring ↔ (b < NBUF)%nat.
Proof. intros H. rewrite (rg_perm _ _ H), elem_of_seq. lia. Qed.
Lemma rg_nodup bs ring : ring_ok bs ring → NoDup ring.
Proof. intros H. rewrite (rg_perm _ _ H). apply NoDup_seq. Qed.
Lemma rg_bhead bs ring : ring_ok bs ring → bhead ∉ ring.
Proof. intros H. rewrite (rg_elem _ _ _ H). unfold bhead. lia. Qed.

Lemma buf_lookup bs ring b : ring_ok bs ring → (b < NBUF)%nat → bs !! b = Some (bs !!! b).
Proof. intros H Hb. apply lookup_Some_total. rewrite (rg_len _ _ H). lia. Qed.

(** Updates that leave the links alone. *)
Lemma total_alter {A} `{!Inhabited A} (f : A → A) (l : list A) i k :
  (i < length l)%nat → alter f i l !!! k = if decide (k = i) then f (l !!! k) else l !!! k.
Proof.
  intros Hi. rewrite !list_lookup_total_alt. destruct (decide (k = i)) as [->|Hne].
  - rewrite list_lookup_alter_eq. destruct (lookup_lt_is_Some_2 l i Hi) as [x ->]. done.
  - by rewrite list_lookup_alter_ne.
Qed.
Lemma ring_ok_alter bs ring f b :
  ring_ok bs ring → (b <= NBUF)%nat → (∀ x, b_next (f x) = b_next x) → (∀ x, b_prev (f x) = b_prev x) →
  ring_ok (alter f b bs) ring.
Proof.
  intros [Hl Hp Hk] Hb Hn Hpv. split; [by rewrite length_alter | done |].
  eapply linked_frame; [done | |]; intros x _; unfold nexts, prevs; rewrite total_alter by lia;
    destruct (decide _); by rewrite ?Hn, ?Hpv.
Qed.

(** The search along the list, in either direction, finds the first buffer
    with the property. *)
Definition first_buf (bs : list buf) (test : buf → bool) (l : list nat) : option nat :=
  first_some (λ b, if test (bs !!! b) then Some b else None) l.

Lemma ring_find_next n m d test a l fuel :
  linked (nexts (d_bufs d)) (prevs (d_bufs d)) a (l ++ [bhead]) → bhead ∉ l → (length l < fuel)%nat →
  ring_find fuel b_next test (nexts (d_bufs d) a) n (K m d) = Done (first_buf (d_bufs d) test l) (K m d).
Proof.
  revert a fuel. induction l as [|b l IH]; intros a fuel Hk Hh Hf; (destruct fuel as [|fuel]; [simpl in Hf; lia|]).
  - destruct Hk as (-> & _). cbn [ring_find]. by rewrite bool_decide_eq_true_2.
  - destruct Hk as (-> & _ & Hk). cbn [ring_find]. rewrite bool_decide_eq_false_2 by set_solver.
    unfold get_buf. rewrite bind_getd. unfold first_buf. simpl. destruct (test _); [done|].
    apply IH; [done | set_solver | simpl in Hf; lia].
Qed.
Lemma ring_find_prev n m d test l z fuel :
  linked (nexts (d_bufs d)) (prevs (d_bufs d)) bhead (l ++ [z]) → bhead ∉ l → (length l < fuel)%nat →
  ring_find fuel b_prev test (prevs (d_bufs d) z) n (K m d) = Done (first_buf (d_bufs d) test (reverse l)) (K m d).
Proof.
  revert z fuel. induction l as [|b l IH] using rev_ind; intros z fuel Hk Hh Hf;
    (destruct fuel as [|fuel]; [rewrite ?length_app in Hf; simpl in Hf; lia|]).
  - destruct Hk as (_ & -> & _). cbn [ring_find]. by rewrite bool_decide_eq_true_2.
  - rewrite <- app_assoc in Hk. simpl in Hk. apply linked_app in Hk as (Hk & _ & -> & _).
    cbn [ring_find]. rewrite bool_decide_eq_false_2 by set_solver.
    unfold get_buf. rewrite bind_getd, reverse_snoc. unfold first_buf. simpl. destruct (test _); [done|].
    apply IH; [done | set_solver | rewrite length_app in Hf; simpl in Hf; lia].
Qed.

(** *** Moving a buffer to the front *)

Definition fupd (f : nat → nat) (k v : nat) : nat → nat := λ x, if decide (x = k) then v else f x.
Lemma fupd_eq f k v : fupd f k v k = v.
Proof. unfold fupd. by rewrite decide_True. Qed.
Lemma fupd_ne f k v x : x ≠ k → fupd f k v x = f x.
Proof. intros. unfold fupd. by rewrite decide_False. Qed.

Lemma linked_in nx pv a l b : linked nx pv a (l ++ [b]) → pv b ∈ a :: l.
Proof.
  revert a. induction l as [|c l IH]; intros a; simpl.
  - intros (_ & -> & _). apply list_elem_of_here.
  - intros (_ & _ & Hk). apply list_elem_of_further. by apply IH.
Qed.
Lemma linked_out nx pv a l z : linked nx pv a (l ++ [z]) → nx a ∈ l ++ [z].
Proof. destruct l; simpl; intros (-> & _); apply list_elem_of_here. Qed.

(** [x] is another element of a list without duplicates than its head. *)
Lemma not_head (a : nat) l x : NoDup (a :: l) → x ∈ l → x ≠ a.
Proof. intros [Ha _]%NoDup_cons Hx ->. done. Qed.

Lemma linked_unlink nx pv a l1 b l2 z :
  linked nx pv a (l1 ++ b :: l2 ++ [z]) → NoDup (a :: l1 ++ b :: l2) → z ∉ l1 ++ b :: l2 →
  linked (fupd nx (pv b) (nx b)) (fupd pv (nx b) (pv b)) a (l1 ++ l2 ++ [z]).
Proof.
  revert a. induction l1 as [|c l1 IH]; intros a Hk Hnd Hz; simpl in Hk, Hnd, Hz.
  - destruct Hk as (Hab & Hba & Hk). rewrite Hba.
    destruct l2 as [|y l2]; simpl in *; destruct Hk as (Hy & Hyb & Hk); rewrite Hy;
      (split_and!; [apply fupd_eq | apply fupd_eq |]); [done|].
    pose proof (NoDup_cons_1_2 _ _ (NoDup_cons_1_2 _ _ Hnd)) as Hyl.
    eapply linked_frame; [exact Hk | |]; intros x Hx; apply fupd_ne.
    + apply (not_head a (b :: y :: l2)); [done | by right].
    + apply elem_of_app in Hx as [Hx | ->%list_elem_of_singleton]; [by apply (not_head y l2)|].
      intros ->. apply Hz. right. left.
  - destruct Hk as (Hac & Hca & Hk). pose proof (NoDup_cons_1_2 _ _ Hnd) as Hnd'.
    pose proof (proj1 (linked_app _ _ _ _ _ _) Hk) as [H1 H2]. apply linked_in in H1. apply linked_out in H2.
    simpl. split_and!.
    + rewrite fupd_ne; [done|]. intros E. eapply (not_head a _ (pv b)); [exact Hnd | | done].
      rewrite app_comm_cons. apply elem_of_app. by left.
    + rewrite fupd_ne; [done|]. intros E. rewrite <- E in H2. apply elem_of_app in H2 as [H2 | ->%list_elem_of_singleton].
      * eapply (not_head c _ c); [exact Hnd' | | done]. apply elem_of_app. right. by right.
      * apply Hz. left.
    + apply IH; [done | done |]. intros Hz'. apply Hz. by right.
Qed.

Lemma linked_insert nx pv h l b :
  linked nx pv h (l ++ [h]) → NoDup (h :: l) → b ∉ h :: l →
  linked (fupd (fupd nx b (nx h)) h b) (fupd (fupd pv b h) (nx h) b) h (b :: l ++ [h]).
Proof.
  intros Hk Hnd Hb. apply not_elem_of_cons in Hb as [Hbh Hbl].
  assert (Hne : ∀ x, x ∈ l ++ [h] → x ≠ b).
  { intros x [Hx | ->%list_elem_of_singleton]%elem_of_app; [intros ->|]; done. }
  simpl. split_and!; [by rewrite fupd_eq | |].
  - rewrite fupd_ne, fupd_eq; [done|]. intros E. by apply (Hne (nx h)); [eapply linked_out|].
  - destruct l as [|y l]; simpl in *; destruct Hk as (Hy & Hyh & Hk); rewrite Hy;
      (split_and!; [by rewrite fupd_ne, fupd_eq | by rewrite fupd_eq |]); [done|].
    eapply linked_frame; [exact Hk | |]; intros x Hx.
    + rewrite !fupd_ne; [done | | by apply (not_head h (y :: l))].
      apply Hne. rewrite app_comm_cons. apply elem_of_app. by left.
    + rewrite !fupd_ne; [done | apply Hne; by right |]. apply NoDup_cons in Hnd as [Hh Hnd].
      apply elem_of_app in Hx as [Hx | ->%list_elem_of_singleton]; [by apply (not_head y l)|].
      intros ->. apply Hh. left.
Qed.

(** What brelse does to the links. *)
Definition set_next (k v : nat) (bs : list buf) : list buf := alter (λ y, y <| b_next := v |>) k bs.
Definition set_prev (k v : nat) (bs : list buf) : list buf := alter (λ y, y <| b_prev := v |>) k bs.
Definition unlink (b : nat) (bs : list buf) : list buf :=
  set_next (prevs bs b) (nexts bs b) (set_prev (nexts bs b) (prevs bs b) bs).
Definition to_front (b : nat) (bs : list buf) : list buf :=
  set_next bhead b (set_prev (nexts bs bhead) b (set_prev b bhead (set_next b (nexts bs bhead) bs))).

Lemma length_set_next k v bs : length (set_next k v bs) = length bs.
Proof. apply length_alter. Qed.
Lemma length_set_prev k v bs : length (set_prev k v bs) = length bs.
Proof. apply length_alter. Qed.
Lemma nexts_set_next k v bs a : (k < length bs)%nat → nexts (set_next k v bs) a = fupd (nexts bs) k v a.
Proof. intros Hk. unfold nexts, set_next, fupd. rewrite total_alter by done. by destruct (decide _). Qed.
Lemma prevs_set_next k v bs a : prevs (set_next k v bs) a = prevs bs a.
Proof.
  unfold prevs, set_next. rewrite !list_lookup_total_alt. destruct (decide (a = k)) as [->|].
  - rewrite list_lookup_alter_eq. by destruct (bs !! k).
  - by rewrite list_lookup_alter_ne.
Qed.
Lemma prevs_set_prev k v bs a : (k < length bs)%nat → prevs (set_prev k v bs) a = fupd (prevs bs) k v a.
Proof. intros Hk. unfold prevs, set_prev, fupd. rewrite total_alter by done. by destruct (decide _). Qed.
Lemma nexts_set_prev k v bs a : nexts (set_prev k v bs) a = nexts bs a.
Proof.
  unfold nexts, set_prev. rewrite !list_lookup_total_alt. destruct (decide (a = k)) as [->|].
  - rewrite list_lookup_alter_eq. by destruct (bs !! k).
  - by rewrite list_lookup_alter_ne.
Qed.

Lemma linked_ext nx pv nx' pv' a l :
  linked nx pv a l → (∀ x, nx' x = nx x) → (∀ x, pv' x = pv x) → linked nx' pv' a l.
Proof.
  intros Hk Hn Hp. revert a Hk. induction l as [|b l IH]; intros a; simpl; [done|].
  rewrite Hn, Hp. intros (? & ? & ?). auto.
Qed.

(** Taking a buffer out of the list and putting it in front. *)
Lemma unlink_links bs l1 b l2 :
  ring_ok bs (l1 ++ b :: l2) →
  length (unlink b bs) = S NBUF ∧ linked (nexts (unlink b bs)) (prevs (unlink b bs)) bhead ((l1 ++ l2) ++ [bhead]).
Proof.
  intros Hr. pose proof Hr as [Hl _ Hk].
  assert (Hin : ∀ x, x ∈ (l1 ++ b :: l2) ++ [bhead] → (x < length bs)%nat).
  { intros x. rewrite elem_of_app, (rg_elem _ _ _ Hr), list_elem_of_singleton, Hl. unfold bhead. lia. }
  rewrite <- app_assoc in Hk. simpl in Hk. pose proof (proj1 (linked_app _ _ _ _ _ _) Hk) as [H1 H2].
  apply linked_in in H1. apply linked_out in H2.
  assert (Hpb : (prevs bs b < length bs)%nat).
  { apply elem_of_cons in H1 as [->|H1]; apply Hin; rewrite !elem_of_app; [by right; left | auto]. }
  assert (Hnb : (nexts bs b < length bs)%nat).
  { apply Hin. rewrite <- app_assoc. apply elem_of_app. right. by right. }
  split; [unfold unlink; by rewrite length_set_next, length_set_prev|].
  rewrite <- app_assoc. eapply linked_ext; [apply (linked_unlink _ _ _ _ _ _ _ Hk) | |].
  - apply NoDup_cons. split; [by eapply rg_bhead | by eapply rg_nodup].
  - by eapply rg_bhead.
  - intros x. unfold unlink. rewrite nexts_set_next by (by rewrite length_set_prev). unfold fupd.
    destruct (decide _); [done|]. apply nexts_set_prev.
  - intros x. unfold unlink. rewrite prevs_set_next. by apply prevs_set_prev.
Qed.

Lemma to_front_links bs b l :
  length bs = S NBUF → linked (nexts bs) (prevs bs) bhead (l ++ [bhead]) → NoDup (bhead :: l) → b ∉ bhead :: l →
  (b < NBUF)%nat → (∀ x, x ∈ l → (x < NBUF)%nat) →
  length (to_front b bs) = S NBUF
  ∧ linked (nexts (to_front b bs)) (prevs (to_front b bs)) bhead ((b :: l) ++ [bhead]).
Proof.
  intros Hl Hk Hnd Hb HbN Hin.
  assert (Hh : (nexts bs bhead < length bs)%nat).
  { apply linked_out, elem_of_app in Hk as [Hx | ->%list_elem_of_singleton]; [apply Hin in Hx; lia | unfold bhead; lia]. }
  unfold to_front. split; [by rewrite !length_set_next, !length_set_prev, length_set_next|].
  eapply linked_ext; [apply (linked_insert _ _ _ _ b Hk Hnd Hb) | |]; intros x.
  - rewrite nexts_set_next by (rewrite !length_set_prev, length_set_next; unfold bhead; lia).
    unfold fupd. destruct (decide (x = bhead)); [done|]. rewrite !nexts_set_prev, nexts_set_next by lia. done.
  - rewrite prevs_set_next, prevs_set_prev by (by rewrite length_set_prev, length_set_next).
    unfold fupd. destruct (decide (x = nexts bs bhead)); [done|].
    rewrite prevs_set_prev by (rewrite length_set_next; lia).
    unfold fupd. destruct (decide _); [done|]. apply prevs_set_next.
Qed.

Lemma move_front bs ring b :
  ring_ok bs ring → (b < NBUF)%nat → ∃ ring', ring_ok (to_front b (unlink b bs)) ring'.
Proof.
  intros Hr Hb. pose proof (rg_bhead _ _ Hr) as Hbh. pose proof (rg_nodup _ _ Hr) as Hnd.
  pose proof (rg_elem _ _ b Hr) as Hel. apply Hel, list_elem_of_split in Hb as (l1 & l2 & ->).
  destruct (unlink_links _ _ _ _ Hr) as [Hl Hk].
  rewrite <- Permutation_middle in Hnd. apply NoDup_cons in Hnd as [Hbl Hnd].
  assert (Hsub : ∀ x, x ∈ l1 ++ l2 → x ∈ l1 ++ b :: l2) by (intros x; rewrite !elem_of_app, elem_of_cons; tauto).
  assert (HbN : (b < NBUF)%nat) by (apply Hel, elem_of_app; right; left).
  destruct (to_front_links (unlink b bs) b (l1 ++ l2)) as [Hl' Hk']; [done | done | | | done | |].
  - apply NoDup_cons. split; [|done]. intros Hx. by apply Hbh, Hsub.
  - apply not_elem_of_cons. split; [unfold bhead; lia | done].
  - intros x Hx. apply (rg_elem _ _ _ Hr). auto.
  - exists (b :: l1 ++ l2). split; [done | | done]. rewrite <- (rg_perm _ _ Hr). by rewrite Permutation_middle.
Qed.

(** The links of brelse, statement by statement. *)
Lemma nexts_ne bs ring b : ring_ok bs ring → (b < NBUF)%nat → nexts bs b ≠ b.
Proof.
  intros Hr Hb E. pose proof (rg_nodup _ _ Hr) as Hnd. pose proof (rg_links _ _ Hr) as Hk.
  pose proof (rg_bhead _ _ Hr) as Hbh. apply (rg_elem _ _ _ Hr), list_elem_of_split in Hb as (l1 & l2 & ->).
  rewrite <- app_assoc in Hk. apply linked_app in Hk as [_ Hk]. apply linked_out in Hk. rewrite E in Hk.
  apply NoDup_app in Hnd as (_ & _ & Hnd). apply NoDup_cons in Hnd as [Hnd _].
  apply elem_of_app in Hk as [?| ->%list_elem_of_singleton]; [done|]. apply Hbh, elem_of_app. right. left.
Qed.
Lemma set_prev_bind {A} n m d bs k v (g : unit → KM A) :
  (mod_buf k (λ y, y <| b_prev := v |>) ≫= g) n (K m (d <| d_bufs := bs |>))
  = g tt n (K m (d <| d_bufs := set_prev k v bs |>)).
Proof. done. Qed.
Lemma set_next_bind {A} n m d bs k v (g : unit → KM A) :
  (mod_buf k (λ y, y <| b_next := v |>) ≫= g) n (K m (d <| d_bufs := bs |>))
  = g tt n (K m (d <| d_bufs := set_next k v bs |>)).
Proof. done. Qed.
Lemma get_buf_bind {A} n m d b x (g : buf → KM A) :
  d_bufs d !! b = Some x → (get_buf b ≫= g) n (K m d) = g x n (K m d).
Proof. intros Hx. unfold get_buf. by rewrite bind_getd, (lookup_total_Some _ _ _ Hx). Qed.
Lemma links_bind {A} n m d bs b (g : nat → nat → KM A) :
  (x ← get_buf b; g (b_next x) (b_prev x)) n (K m (d <| d_bufs := bs |>))
  = g (nexts bs b) (prevs bs b) n (K m (d <| d_bufs := bs |>)).
Proof. done. Qed.

Lemma relink_done n m d ring b bs :
  ring_ok bs ring → (b < NBUF)%nat →
  (x ← get_buf b; mod_buf (b_next x) (λ y, y <| b_prev := b_prev x |>) ;;
   x ← get_buf b; mod_buf (b_prev x) (λ y, y <| b_next := b_next x |>) ;;
   h ← get_buf bhead; mod_buf b (λ y, y <| b_next := b_next h |>) ;;
   mod_buf b (λ y, y <| b_prev := bhead |>) ;;
   h ← get_buf bhead; mod_buf (b_next h) (λ y, y <| b_prev := b |>) ;;
   mod_buf bhead (λ y, y <| b_next := b |>)) n (K m (d <| d_bufs := bs |>))
  = Done tt (K m (d <| d_bufs := to_front b (unlink b bs) |>)).
Proof.
  intros Hr Hb. assert (Hbh : b ≠ bhead) by (unfold bhead; lia).
  rewrite (links_bind n m d bs b (λ nb pb, mod_buf nb (λ y, y <| b_prev := pb |>) ;; _)).
  rewrite set_prev_bind. set (bs1 := set_prev _ _ bs).
  rewrite (links_bind n m d bs1 b (λ nb pb, mod_buf pb (λ y, y <| b_next := nb |>) ;; _)).
  assert (E1 : nexts bs1 b = nexts bs b) by apply nexts_set_prev.
  assert (E2 : prevs bs1 b = prevs bs b).
  { unfold bs1, set_prev, prevs. rewrite !list_lookup_total_alt, list_lookup_alter_ne; [done|].
    by apply (nexts_ne _ _ _ Hr Hb). }
  rewrite E1, E2, set_next_bind. unfold unlink. fold bs1. set (bs2 := set_next _ _ bs1).
  rewrite (links_bind n m d bs2 bhead (λ nb pb, mod_buf b (λ y, y <| b_next := nb |>) ;; _)).
  rewrite set_next_bind, set_prev_bind. set (bs3 := set_prev b bhead _).
  rewrite (links_bind n m d bs3 bhead (λ nb pb, mod_buf nb (λ y, y <| b_prev := b |>) ;; _)).
  rewrite set_prev_bind. unfold to_front. fold bs3.
  assert (E3 : nexts bs3 bhead = nexts bs2 bhead).
  { unfold bs3. rewrite nexts_set_prev. unfold nexts, set_next. by rewrite !list_lookup_total_alt, list_lookup_alter_ne. }
  by rewrite E3.
Qed.

