(* ===== verification/BioFacts.v ===== *)
(** * BioFacts: the buffer cache

    What a disk driver promises ([DiskLaw]), and the cache as a view of the disk: [cache_ok d v E D H] says that block
    [b] has the contents [v b], that the disk itself agrees outside [E], that
    the blocks of [D] are pinned in the cache by the log, and that the buffers
    of [H] are locked by the running thread. *)

From S2P Require Import Prelude Memory Kstate Spinlock Kalloc Cprintf Vm Sched SchedFacts Sleeplock Bio BioRing.

(** ** What a disk driver promises *)

(** The disk after a sequence of block writes. *)
Definition blocks : Type := Z → list Z.
Definition bupd (v : blocks) (b : Z) (l : list Z) : blocks := λ b', if b' =? b then l else v b'.
Definition apply_writes (ws : list (Z * list Z)) (v : blocks) : blocks :=
  foldl (λ v w, bupd v w.1 w.2) v ws.
Definition disk_of (d : kdata) : blocks := ide_disk (d_ide d) ROOTDEV.

Lemma bupd_eq v b l : bupd v b l b = l.
Proof. unfold bupd. by rewrite Z.eqb_refl. Qed.
Lemma bupd_ne v b l b' : b' ≠ b → bupd v b l b' = v b'.
Proof. intros H. unfold bupd. by rewrite (proj2 (Z.eqb_neq _ _) H). Qed.
Lemma apply_writes_app ws ws' v : apply_writes (ws ++ ws') v = apply_writes ws' (apply_writes ws v).
Proof. apply foldl_app. Qed.
Lemma apply_writes_ext ws v v' b : (∀ b, v b = v' b) → apply_writes ws v b = apply_writes ws v' b.
Proof.
  revert v v'. induction ws as [|[b1 l1] ws IH]; intros v v' Hv; simpl; [done|].
  apply IH. intros b2. unfold bupd. simpl. by rewrite Hv.
Qed.

(** From [d] to [d'] exactly the blocks [ws] were written, in this order. *)
Record wrote (ws : list (Z * list Z)) (d d' : kdata) : Prop := {
  wr_hist : ide_writes (d_ide d') = ide_writes (d_ide d) ++ ((λ w, (ROOTDEV, w.1, w.2)) <$> ws);
  wr_disk : ∀ b, disk_of d' b = apply_writes ws (disk_of d) b
}.
Lemma wrote_nil d d' : d_ide d' = d_ide d → wrote [] d d'.
Proof. intros E. split; unfold disk_of; rewrite E; [by rewrite app_nil_r | done]. Qed.
Lemma wrote_app ws ws' d d1 d' : wrote ws d d1 → wrote ws' d1 d' → wrote (ws ++ ws') d d'.
Proof.
  intros [H1 D1] [H2 D2]. split.
  - by rewrite H2, H1, fmap_app, app_assoc.
  - intros b. rewrite D2, apply_writes_app. by apply apply_writes_ext.
Qed.

Lemma wrote_pre ws d d1 d' : d_ide d1 = d_ide d → wrote ws d1 d' → wrote ws d d'.
Proof. intros E. by apply (wrote_app []), wrote_nil. Qed.
Lemma wrote_post ws d d1 d' : d_ide d' = d_ide d1 → wrote ws d d1 → wrote ws d d'.
Proof. intros E Hw. rewrite <- (app_nil_r ws). eapply wrote_app; [done | by apply wrote_nil]. Qed.

(** What the cache and the drivers leave alone: all but the buffers, their
    locks, the disk, and what sleeping changes of a process. *)
Definition fs_core (d : kdata) : kdata :=
  d <| d_bufs := [] |> <| d_sl := ∅ |> <| d_ide := Ide None 0 0 (λ _ _, []) [] |>
    <| d_procs := quiet <$> d_procs d |>.
Record fs_frame (d d' : kdata) : Prop := {
  ff_core : fs_core d' = fs_core d;
  ff_locks : ∀ i, d_sl d' !! SL_inode i = d_sl d !! SL_inode i
}.
#[export] Instance fs_frame_refl : Reflexive fs_frame.
Proof. by split. Qed.
#[export] Instance fs_frame_trans : Transitive fs_frame.
Proof. intros d1 d2 d3 [H1 L1] [H2 L2]. split; [congruence|]. intros i. by rewrite L2. Qed.

Lemma fs_frame_procs d d' : fs_frame d d' → length (d_procs d') = length (d_procs d).
Proof. intros [H _]. apply (f_equal d_procs) in H. simpl in H. apply (f_equal length) in H. by rewrite !length_fmap in H. Qed.
Lemma fs_frame_pdirs d d' : fs_frame d d' → pdirs d' = pdirs d.
Proof. intros [H _]. apply (f_equal d_procs) in H. by apply pdirs_quiet. Qed.
Lemma fs_frame_log d d' : fs_frame d d' → d_log d' = d_log d.
Proof. intros [H _]. by apply (f_equal d_log) in H. Qed.
Lemma fs_frame_upd d bs sl ide ps :
  (∀ i, sl !! SL_inode i = d_sl d !! SL_inode i) → quiet <$> ps = quiet <$> d_procs d →
  fs_frame d (d <| d_bufs := bs |> <| d_sl := sl |> <| d_ide := ide |> <| d_procs := ps |>).
Proof. intros Hsl Hps. split; [|done]. unfold fs_core. simpl. by rewrite Hps. Qed.

(** The state of a buffer: unused, read, or changed and not yet written. *)
Definition flags_ok (x : buf) : Prop := b_flags x = 0 ∨ b_flags x = B_VALID ∨ b_flags x = Z.lor B_VALID B_DIRTY.
Definition is_valid (x : buf) : bool := negb (Z.land (b_flags x) B_VALID =? 0).
Definition is_dirty (x : buf) : bool := negb (Z.land (b_flags x) B_DIRTY =? 0).

(** The buffer [b] was [x] and is now in step with the disk. *)
Definition synced (b : nat) (x : buf) (d d' : kdata) : Prop :=
  fs_frame d d' ∧ d_sl d' = d_sl d ∧
  ∃ x', d_bufs d' = <[b := x']> (d_bufs d) ∧ b_flags x' = B_VALID
    ∧ b_dev x' = b_dev x ∧ b_blockno x' = b_blockno x ∧ b_refcnt x' = b_refcnt x
    ∧ b_next x' = b_next x ∧ b_prev x' = b_prev x
    ∧ if is_dirty x then b_data x' = b_data x ∧ wrote [(b_blockno x, b_data x)] d d'
      else b_data x' = disk_of d (b_blockno x) ∧ wrote [] d d'.

(** [iderw] with a locked buffer of the root disk that needs work does it,
    while the waits of process [p] are answered as [R] allows. *)
Class DiskLaw `{Disk} (p : nat) (R : wait_reason → kst → kst → Prop) := {
  disk_ready : kdata → Prop;
  disk_ready_frame d d' : d_ide d' = d_ide d → disk_ready d → disk_ready d';
  iderw_law n m d b x l :
    (2 <= n)%nat → fs_thread p m d → disk_ready d → (b < NBUF)%nat → d_bufs d !! b = Some x →
    d_sl d !! SL_buf b = Some l → slk_locked l ≠ 0 →
    flags_ok x → b_flags x ≠ B_VALID → b_dev x = ROOTDEV → 0 <= b_blockno x < FSSIZE →
    wp R (iderw b n (K m d)) (λ _ s', ∃ m' d', s' = K m' d' ∧ fs_thread p m' d' ∧ disk_ready d' ∧ synced b x d d')
}.

(** ** The cache *)

Definition is_blk (b : Z) : Prop := 0 <= b < FSSIZE.

(** The buffer [x] at index [b]. *)
Record buf_ok (v : blocks) (D : gset Z) (H : gmap nat Z) (b : nat) (x : buf) : Prop := {
  bo_flags : flags_ok x;
  bo_ref : b_refcnt x = match H !! b with Some _ => 1 | None => 0 end;
  bo_valid : is_valid x = true → b_dev x = ROOTDEV ∧ is_blk (b_blockno x) ∧ b_data x = v (b_blockno x);
  bo_dirty : is_dirty x = true ↔ is_valid x = true ∧ b_blockno x ∈ D;
  bo_held bno : H !! b = Some bno → is_valid x = true ∧ b_blockno x = bno
}.

Record cache_ok (d : kdata) (v : blocks) (E D : gset Z) (H : gmap nat Z) : Prop := {
  co_ring : ∃ ring, ring_ok (d_bufs d) ring;
  co_buf b x : (b < NBUF)%nat → d_bufs d !! b = Some x → buf_ok v D H b x;
  co_uniq b1 b2 x1 x2 :
    (b1 < NBUF)%nat → (b2 < NBUF)%nat → d_bufs d !! b1 = Some x1 → d_bufs d !! b2 = Some x2 →
    b_dev x1 = ROOTDEV → b_dev x2 = ROOTDEV → b_blockno x1 = b_blockno x2 → b1 = b2;
  co_held b bno : H !! b = Some bno → (b < NBUF)%nat;
  co_disk bno : is_blk bno → bno ∉ E → disk_of d bno = v bno;
  co_len bno : is_blk bno → length (v bno) = Z.to_nat BSIZE;
  co_pin bno : bno ∈ D → bno ∈ E ∧ ∃ b x, (b < NBUF)%nat ∧ d_bufs d !! b = Some x ∧ is_dirty x = true ∧ b_blockno x = bno;
  co_pend bno : bno ∈ E → bno ∈ D ∨ ∃ b, H !! b = Some bno;
  co_sl b : (b < NBUF)%nat → ∃ l, d_sl d !! SL_buf b = Some l ∧ slk_locked l = match H !! b with Some _ => 1 | None => 0 end
}.

Lemma co_lookup d v E D H b : cache_ok d v E D H → (b < NBUF)%nat → ∃ x, d_bufs d !! b = Some x.
Proof. intros Hc Hb. destruct (co_ring _ _ _ _ _ Hc) as [ring Hr]. eexists. by eapply buf_lookup. Qed.

(** A valid buffer of the block, wherever it is. *)
Lemma co_cached d v E D H bno :
  cache_ok d v E D H → bno ∈ E →
  ∃ b x, (b < NBUF)%nat ∧ d_bufs d !! b = Some x ∧ is_valid x = true ∧ b_blockno x = bno.
Proof.
  intros Hc [HD | [b Hb]]%(co_pend _ _ _ _ _ Hc).
  - destruct (co_pin _ _ _ _ _ Hc _ HD) as (_ & b & x & Hb & Hx & Hd & Hn). exists b, x.
    apply (bo_dirty _ _ _ _ _ (co_buf _ _ _ _ _ Hc b x Hb Hx)) in Hd as [Hv _]. done.
  - pose proof (co_held _ _ _ _ _ Hc _ _ Hb) as Hlt. destruct (co_lookup _ _ _ _ _ b Hc Hlt) as [x Hx].
    destruct (bo_held _ _ _ _ _ (co_buf _ _ _ _ _ Hc b x Hlt Hx) _ Hb). by exists b, x.
Qed.

Lemma ring_ok_insert bs ring b x x' :
  ring_ok bs ring → bs !! b = Some x → b_next x' = b_next x → b_prev x' = b_prev x → ring_ok (<[b := x']> bs) ring.
Proof.
  intros [Hl Hp Hk] Hx Hn Hpv. pose proof (lookup_lt_Some _ _ _ Hx) as Hlt.
  split; [by rewrite length_insert | done |].
  eapply linked_ext; [exact Hk | |]; intros a; unfold nexts, prevs; rewrite !list_lookup_total_alt;
    (destruct (decide (a = b)) as [->|Hne]; [rewrite list_lookup_insert_eq, Hx by done | by rewrite list_lookup_insert_ne]);
    done.
Qed.
Lemma insert_cases {A} (l : list A) b x k y :
  <[b := x]> l !! k = Some y → k = b ∧ y = x ∨ k ≠ b ∧ l !! k = Some y.
Proof. intros [(<- & <- & _)|[? ?]]%list_lookup_insert_Some; eauto. Qed.

(** Replacing one buffer. *)
Lemma cache_ok_insert d d' v v' E E' D D' H H' b x x' :
  cache_ok d v E D H → (b < NBUF)%nat → d_bufs d !! b = Some x → d_bufs d' = <[b := x']> (d_bufs d) →
  b_next x' = b_next x → b_prev x' = b_prev x → buf_ok v' D' H' b x' →
  (∀ b' y, b' ≠ b → (b' < NBUF)%nat → d_bufs d !! b' = Some y → buf_ok v D H b' y → buf_ok v' D' H' b' y) →
  (b_dev x' = ROOTDEV → ∀ b' y, b' ≠ b → (b' < NBUF)%nat → d_bufs d !! b' = Some y →
     b_dev y = ROOTDEV → b_blockno y ≠ b_blockno x') →
  (∀ b' bno, H' !! b' = Some bno → (b' < NBUF)%nat) →
  (∀ bno, is_blk bno → bno ∉ E' → disk_of d' bno = v' bno) →
  (∀ bno, is_blk bno → length (v' bno) = Z.to_nat BSIZE) →
  (∀ bno, bno ∈ D' → bno ∈ E' ∧ (is_dirty x' = true ∧ b_blockno x' = bno
     ∨ ∃ b' y, b' ≠ b ∧ (b' < NBUF)%nat ∧ d_bufs d !! b' = Some y ∧ is_dirty y = true ∧ b_blockno y = bno)) →
  (∀ bno, bno ∈ E' → bno ∈ D' ∨ ∃ b, H' !! b = Some bno) →
  (∀ b', (b' < NBUF)%nat → ∃ l, d_sl d' !! SL_buf b' = Some l ∧ slk_locked l = match H' !! b' with Some _ => 1 | None => 0 end) →
  cache_ok d' v' E' D' H'.
Proof.
  intros Hc Hb Hx Hd' Hn Hp Hok Hoth Hun Hh Hdisk Hlen Hpin Hpend Hsl.
  assert (Hlt : (b < length (d_bufs d))%nat) by by eapply lookup_lt_Some.
  split; try done; rewrite ?Hd'.
  - destruct (co_ring _ _ _ _ _ Hc) as [ring Hr]. exists ring. by eapply ring_ok_insert.
  - intros b' y Hb' [[-> ->]|[Hne Hy]]%insert_cases; [done|].
    eapply Hoth; [done | done | done |]. by eapply co_buf.
  - intros b1 b2 x1 x2 Hb1 Hb2 [[-> ->]|[Hne1 H1]]%insert_cases [[-> ->]|[Hne2 H2]]%insert_cases Hd1 Hd2 E12;
      [done | | | by eapply (co_uniq _ _ _ _ _ Hc)].
    + by destruct (Hun Hd1 b2 x2).
    + by destruct (Hun Hd2 b1 x1).
  - intros bno HD. destruct (Hpin bno HD) as [HE [[Hdx Hbx]|(b' & y & Hne & Hb' & Hy & Hdy & Hby)]]; (split; [done|]).
    + exists b, x'. by rewrite list_lookup_insert_eq.
    + exists b', y. by rewrite list_lookup_insert_ne.
Qed.

(** Blocks of other buffers than a free one. *)
Definition not_cached (d : kdata) (b : nat) (bno : Z) : Prop :=
  ∀ b' y, b' ≠ b → (b' < NBUF)%nat → d_bufs d !! b' = Some y → b_dev y = ROOTDEV → b_blockno y ≠ bno.

(** The buffer [b] is locked and nothing else of the locks changed. *)
Definition locks_buf (b : nat) (v : Z) (d d' : kdata) : Prop :=
  ∃ l, d_sl d' = <[SL_buf b := l]> (d_sl d) ∧ slk_locked l = v.
Lemma locks_buf_ok d d' v E D (H : gmap nat Z) b (o : option Z) :
  cache_ok d v E D H → locks_buf b (match o with Some _ => 1 | None => 0 end) d d' →
  ∀ b', (b' < NBUF)%nat → ∃ l, d_sl d' !! SL_buf b' = Some l
    ∧ slk_locked l = match partial_alter (λ _, o) b H !! b' with Some _ => 1 | None => 0 end.
Proof.
  intros Hc (l & -> & Hl) b' Hb'. destruct (decide (b' = b)) as [->|Hne].
  - rewrite lookup_insert_eq, lookup_partial_alter_eq. eauto.
  - rewrite lookup_insert_ne, lookup_partial_alter_ne by congruence. by eapply co_sl.
Qed.

(** What the flags say. *)
Lemma valid_flags x : b_flags x = B_VALID → is_valid x = true ∧ is_dirty x = false ∧ flags_ok x.
Proof. intros E. unfold is_valid, is_dirty, flags_ok. rewrite E. auto. Qed.
Lemma dirty_flags x : b_flags x = Z.lor B_VALID B_DIRTY → is_valid x = true ∧ is_dirty x = true ∧ flags_ok x.
Proof. intros E. unfold is_valid, is_dirty, flags_ok. rewrite E. auto. Qed.
Lemma clean_flags x : flags_ok x → is_valid x = true → is_dirty x = false → b_flags x = B_VALID.
Proof. unfold is_valid, is_dirty. intros [E|[E|E]]; rewrite E; done. Qed.
Lemma invalid_flags x : flags_ok x → is_valid x = false → b_flags x = 0.
Proof. unfold is_valid. intros [E|[E|E]]; rewrite E; done. Qed.

Section cache.
Context (d d' : kdata) (v : blocks) (E D : gset Z) (H : gmap nat Z) (Hc : cache_ok d v E D H).
Context (b : nat) (Hb : (b < NBUF)%nat) (x x' : buf) (Hx : d_bufs d !! b = Some x).
Context (Hd' : d_bufs d' = <[b := x']> (d_bufs d)) (Hn : b_next x' = b_next x) (Hp : b_prev x' = b_prev x).

Lemma buf_ok_other D' H' b' y :
  b' ≠ b → (∀ k, k ≠ b → H' !! k = H !! k) → (b_blockno y ∈ D' ↔ b_blockno y ∈ D) →
  buf_ok v D H b' y → buf_ok v D' H' b' y.
Proof. intros Hne HH HD [Hf Hr Hv Hdi Hh]. split; try done; rewrite ?HH by done; try done. by rewrite HD. Qed.

(** A block not yet pinned anywhere is on the disk. *)
Lemma not_cached_disk bno :
  is_blk bno → H !! b = None → is_dirty x = false → not_cached d b bno → bno ∉ E.
Proof.
  intros Hblk HH Hdx Hnc HE. destruct (co_pend _ _ _ _ _ Hc _ HE) as [HD|[b' Hb']].
  - destruct (co_pin _ _ _ _ _ Hc _ HD) as (_ & b' & y & Hb' & Hy & Hdy & Hby).
    destruct (decide (b' = b)) as [->|Hne]; [congruence|].
    pose proof (co_buf _ _ _ _ _ Hc _ _ Hb' Hy) as Hok. apply (bo_dirty _ _ _ _ _ Hok) in Hdy as [Hv _].
    destruct (bo_valid _ _ _ _ _ Hok Hv) as [Hdev _]. by apply (Hnc b' y).
  - assert (Hne : b' ≠ b) by congruence. pose proof (co_held _ _ _ _ _ Hc _ _ Hb') as Hlt.
    destruct (co_lookup _ _ _ _ _ b' Hc Hlt) as [y Hy]. pose proof (co_buf _ _ _ _ _ Hc _ _ Hlt Hy) as Hok.
    destruct (bo_held _ _ _ _ _ Hok _ Hb') as [Hv Hbn]. destruct (bo_valid _ _ _ _ _ Hok Hv) as [Hdev _].
    by apply (Hnc b' y).
Qed.

(** The pinned blocks are still pinned when a buffer that is not dirty changes. *)
Lemma pinned_elsewhere bno :
  is_dirty x = false → bno ∈ D →
  bno ∈ E ∧ ∃ b' y, b' ≠ b ∧ (b' < NBUF)%nat ∧ d_bufs d !! b' = Some y ∧ is_dirty y = true ∧ b_blockno y = bno.
Proof.
  intros Hdx HD. destruct (co_pin _ _ _ _ _ Hc _ HD) as (HE & b' & y & Hb' & Hy & Hdy & Hby).
  split; [done|]. exists b', y. split_and!; try done. intros ->. congruence.
Qed.

(** A free buffer filled from the disk. *)
Lemma cache_ok_install bno :
  is_blk bno → H !! b = None → is_dirty x = false → not_cached d b bno →
  b_flags x' = B_VALID → b_dev x' = ROOTDEV → b_blockno x' = bno → b_refcnt x' = 1 → b_data x' = disk_of d bno →
  locks_buf b 1 d d' → (∀ k, disk_of d' k = disk_of d k) →
  cache_ok d' v E D (<[b := bno]> H).
Proof.
  intros Hblk HH Hdx Hnc Hf Hdev Hbn Hr Hdata Hsl Hdisk.
  pose proof (not_cached_disk bno Hblk HH Hdx Hnc) as HnE. destruct (valid_flags _ Hf) as (Hvx & Hdx' & Hfx).
  eapply (cache_ok_insert d d' v v E E D D H); try done.
  - split; try done.
    + by rewrite lookup_insert_eq.
    + intros _. rewrite Hbn, Hdata. split_and!; [done | done |]. by apply (co_disk _ _ _ _ _ Hc).
    + rewrite Hdx', Hbn. split; [done|]. intros [_ HD]. by destruct (co_pin _ _ _ _ _ Hc _ HD).
    + intros bno'. rewrite lookup_insert_eq. intros [= <-]. done.
  - intros b' y Hne Hb' Hy. apply buf_ok_other; [done | | done]. intros k Hk. by apply lookup_insert_ne.
  - intros _ b' y Hne Hb' Hy Hdy. rewrite Hbn. by apply (Hnc b' y).
  - intros b' bno' Hl. destruct (decide (b' = b)) as [->|Hne]; [done|].
    rewrite lookup_insert_ne in Hl by done. by eapply co_held.
  - intros k Hk HkE. rewrite Hdisk. by apply (co_disk _ _ _ _ _ Hc).
  - apply (co_len _ _ _ _ _ Hc).
  - intros k HD. destruct (pinned_elsewhere k Hdx HD) as [? ?]. eauto.
  - intros k HE. destruct (co_pend _ _ _ _ _ Hc _ HE) as [?|[b' Hb']]; [by left|]. right. exists b'.
    rewrite lookup_insert_ne; [done|]. intros ->. congruence.
  - apply (locks_buf_ok d d' v E D H b (Some bno) Hc Hsl).
Qed.

(** A valid buffer, locked. *)
Lemma cache_ok_hit bno :
  H !! b = None → is_valid x = true → b_blockno x = bno → x' = x <| b_refcnt := 1 |> →
  locks_buf b 1 d d' → (∀ k, disk_of d' k = disk_of d k) →
  cache_ok d' v E D (<[b := bno]> H).
Proof.
  intros HH Hvx Hbn -> Hsl Hdisk. pose proof (co_buf _ _ _ _ _ Hc _ _ Hb Hx) as [Hf Hr Hv Hdi Hh].
  eapply (cache_ok_insert d d' v v E E D D H); try done.
  - split; simpl; try done.
    + by rewrite lookup_insert_eq.
    + intros bno'. rewrite lookup_insert_eq. intros [= <-]. done.
  - intros b' y Hne Hb' Hy. apply buf_ok_other; [done | | done]. intros k Hk. by apply lookup_insert_ne.
  - simpl. intros Hdev b' y Hne Hb' Hy Hdy E'. apply Hne. by eapply (co_uniq _ _ _ _ _ Hc).
  - intros b' bno' Hl. destruct (decide (b' = b)) as [->|Hne]; [done|].
    rewrite lookup_insert_ne in Hl by done. by eapply co_held.
  - intros k Hk HkE. rewrite Hdisk. by apply (co_disk _ _ _ _ _ Hc).
  - apply (co_len _ _ _ _ _ Hc).
  - intros k HD. destruct (co_pin _ _ _ _ _ Hc _ HD) as (HE & b' & y & Hb' & Hy & Hdy & Hby). split; [done|].
    destruct (decide (b' = b)) as [->|Hne]; [left; simplify_eq; done | right; by exists b', y].
  - intros k HE. destruct (co_pend _ _ _ _ _ Hc _ HE) as [?|[b' Hb']]; [by left|]. right. exists b'.
    rewrite lookup_insert_ne; [done|]. intros ->. congruence.
  - apply (locks_buf_ok d d' v E D H b (Some bno) Hc Hsl).
Qed.
End cache.

(** *** A locked buffer *)

Section held.
Context (d d' : kdata) (v : blocks) (E D : gset Z) (H : gmap nat Z) (Hc : cache_ok d v E D H).
Context (b : nat) (bno : Z) (HH : H !! b = Some bno) (x : buf) (Hx : d_bufs d !! b = Some x).

Lemma held_facts :
  (b < NBUF)%nat ∧ is_valid x = true ∧ b_blockno x = bno ∧ b_dev x = ROOTDEV ∧ is_blk bno ∧ b_data x = v bno
  ∧ flags_ok x ∧ b_refcnt x = 1 ∧ (is_dirty x = true ↔ bno ∈ D).
Proof.
  pose proof (co_held _ _ _ _ _ Hc _ _ HH) as Hb. pose proof (co_buf _ _ _ _ _ Hc _ _ Hb Hx) as [Hf Hr Hv Hdi Hh].
  destruct (Hh _ HH) as [Hvx <-]. destruct (Hv Hvx) as (? & ? & ?). rewrite HH in Hr.
  split_and!; try done. rewrite Hdi. naive_solver.
Qed.
Lemma other_blockno b' y :
  b' ≠ b → (b' < NBUF)%nat → d_bufs d !! b' = Some y → b_dev y = ROOTDEV → b_blockno y ≠ bno.
Proof.
  intros Hne Hb' Hy Hdev Ebn. destruct held_facts as (Hb & _ & Hbn & Hdx & _).
  apply Hne. eapply (co_uniq _ _ _ _ _ Hc); eauto. congruence.
Qed.

(** The buffer is replaced; block [bno] now has the contents [data], and the
    two sets change at [bno] only. *)
Lemma cache_ok_held x' data (E' D' : gset Z) (H' : gmap nat Z) :
  d_bufs d' = <[b := x']> (d_bufs d) → b_next x' = b_next x → b_prev x' = b_prev x →
  b_dev x' = b_dev x → b_blockno x' = b_blockno x → b_data x' = data → length data = Z.to_nat BSIZE →
  flags_ok x' → is_valid x' = true → (is_dirty x' = true ↔ bno ∈ D') →
  b_refcnt x' = match H' !! b with Some _ => 1 | None => 0 end →
  (∀ bno', H' !! b = Some bno' → bno' = bno) → (∀ k, k ≠ b → H' !! k = H !! k) →
  (∀ k, k ≠ bno → (k ∈ E' ↔ k ∈ E) ∧ (k ∈ D' ↔ k ∈ D)) → (bno ∈ D' → bno ∈ E') →
  (bno ∈ E' → bno ∈ D' ∨ H' !! b = Some bno) →
  (∀ k, k ≠ bno → disk_of d' k = disk_of d k) → (bno ∉ E' → disk_of d' bno = data) →
  (∀ b', (b' < NBUF)%nat → ∃ l, d_sl d' !! SL_buf b' = Some l ∧ slk_locked l = match H' !! b' with Some _ => 1 | None => 0 end) →
  cache_ok d' (bupd v bno data) E' D' H'.
Proof.
  destruct held_facts as (Hb & Hvx & Hbn & Hdx & Hblk & Hdata & _ & _ & Hdi).
  intros Hd' Hn Hp Hdev Hbn' Hdat Hlen Hf Hv' Hdi' Hr' HHb HHk Hsets HDE HED Hdk Hdb Hsl.
  assert (Hx' : b_blockno x' = bno) by congruence.
  eapply (cache_ok_insert d d' v (bupd v bno data) E E' D D' H H' b x x'); try done.
  - split; try done.
    + intros _. rewrite Hx', bupd_eq. split_and!; congruence.
    + rewrite Hx'. naive_solver.
    + intros bno' Hb'. split; [done|]. rewrite Hx'. by rewrite (HHb _ Hb').
  - intros b' y Hne Hb' Hy [Hf1 Hr1 Hv1 Hd1 Hh1]. split; try done; rewrite ?HHk by done; try done.
    + intros Hvy. destruct (Hv1 Hvy) as (Hdy & Hby & Hday). split_and!; [done..|].
      rewrite bupd_ne; [done|]. by apply (other_blockno b' y).
    + rewrite Hd1. split; intros [Hvy HDy]; (split; [done|]); destruct (Hv1 Hvy) as (Hdy & _);
        pose proof (other_blockno b' y Hne Hb' Hy Hdy) as Hk; apply (Hsets _ Hk); done.
  - intros _ b' y Hne Hb' Hy Hdy. rewrite Hx'. by apply (other_blockno b' y).
  - intros b' bno' Hl. destruct (decide (b' = b)) as [->|Hne]; [done|].
    rewrite HHk in Hl by done. by eapply co_held.
  - intros k Hk HkE. destruct (decide (k = bno)) as [->|Hne]; [rewrite bupd_eq; auto|].
    rewrite bupd_ne, Hdk by done. apply (co_disk _ _ _ _ _ Hc); [done|]. by rewrite <- (proj1 (Hsets k Hne)).
  - intros k Hk. destruct (decide (k = bno)) as [->|Hne]; [by rewrite bupd_eq|].
    rewrite bupd_ne by done. by apply (co_len _ _ _ _ _ Hc).
  - intros k HD. destruct (decide (k = bno)) as [->|Hne]; [split; [auto|left; naive_solver]|].
    apply (Hsets k Hne) in HD. destruct (co_pin _ _ _ _ _ Hc _ HD) as (HE & b' & y & Hb' & Hy & Hdy & Hby).
    split; [by apply (Hsets k Hne)|]. right. exists b', y. split_and!; try done. intros ->. congruence.
  - intros k HE. destruct (decide (k = bno)) as [->|Hne]; [destruct (HED HE); eauto|].
    apply (Hsets k Hne) in HE. destruct (co_pend _ _ _ _ _ Hc _ HE) as [HD|[b' Hb']].
    + left. by apply (Hsets k Hne).
    + right. exists b'. rewrite HHk; [done|]. intros ->. congruence.
Qed.
End held.

Lemma cache_ok_ext d v v' E D H : (∀ k, v' k = v k) → cache_ok d v E D H → cache_ok d v' E D H.
Proof.
  intros Hv [Hr Hb Hu Hh Hd Hl Hp Hpe Hs]. split; try done.
  - intros b x Hlt Hx. destruct (Hb b x Hlt Hx) as [H1 H2 H3 H4 H5]. split; try done. intros Hvx. rewrite Hv. auto.
  - intros k. rewrite Hv. apply Hd.
  - intros k. rewrite Hv. apply Hl.
Qed.
Lemma cache_ok_same d d' v E D H :
  d_bufs d' = d_bufs d → d_sl d' = d_sl d → d_ide d' = d_ide d → cache_ok d v E D H → cache_ok d' v E D H.
Proof.
  intros Eb Es Ei [Hr Hb Hu Hh Hd Hl Hp Hpe Hs]. split; rewrite ?Eb, ?Es; try done.
  intros k. unfold disk_of. rewrite Ei. apply Hd.
Qed.

(** A buffer apart from its links. *)
Definition strip (x : buf) : buf := x <| b_next := 0%nat |> <| b_prev := 0%nat |>.
Lemma strip_alter f k (bs : list buf) : (∀ x, strip (f x) = strip x) → strip <$> alter f k bs = strip <$> bs.
Proof.
  intros Hf. apply list_eq. intros j. rewrite !list_lookup_fmap.
  destruct (decide (j = k)) as [->|Hne]; [|by rewrite list_lookup_alter_ne].
  rewrite list_lookup_alter_eq. destruct (bs !! k); simpl; [by rewrite Hf | done].
Qed.
Lemma strip_relink b bs : strip <$> to_front b (unlink b bs) = strip <$> bs.
Proof. unfold to_front, unlink, set_next, set_prev. by rewrite !strip_alter by done. Qed.

Lemma cache_ok_links d d' v E D H ring :
  cache_ok d v E D H → strip <$> d_bufs d' = strip <$> d_bufs d → ring_ok (d_bufs d') ring →
  d_sl d' = d_sl d → d_ide d' = d_ide d → cache_ok d' v E D H.
Proof.
  intros Hc Hst Hr Hsl Hide.
  assert (Hlk : ∀ k x', d_bufs d' !! k = Some x' → ∃ x, d_bufs d !! k = Some x ∧ strip x' = strip x).
  { intros k x' Hx'. assert (Hk : (strip <$> d_bufs d') !! k = Some (strip x')) by by rewrite list_lookup_fmap, Hx'.
    rewrite Hst, list_lookup_fmap in Hk. destruct (d_bufs d !! k) as [x|]; [|done].
    exists x. split; [done|]. apply (inj Some). by symmetry. }
  assert (Hst' : ∀ x x', strip x' = strip x → b_flags x' = b_flags x ∧ b_dev x' = b_dev x
    ∧ b_blockno x' = b_blockno x ∧ b_refcnt x' = b_refcnt x ∧ b_data x' = b_data x).
  { intros x x' Es. split_and!; [exact (f_equal b_flags Es) | exact (f_equal b_dev Es) | exact (f_equal b_blockno Es)
      | exact (f_equal b_refcnt Es) | exact (f_equal b_data Es)]. }
  split; try apply Hc; [by exists ring | | | | |].
  - intros b x' Hb Hx'. destruct (Hlk b x' Hx') as (x & Hx & Es). destruct (Hst' _ _ Es) as (E1 & E2 & E3 & E4 & E5).
    destruct (co_buf _ _ _ _ _ Hc b x Hb Hx) as [H1 H2 H3 H4 H5]. unfold flags_ok, is_valid, is_dirty in *.
    split; unfold flags_ok, is_valid, is_dirty; rewrite ?E1, ?E2, ?E3, ?E4, ?E5; done.
  - intros b1 b2 x1 x2 Hb1 Hb2 Hx1 Hx2. destruct (Hlk _ _ Hx1) as (y1 & Hy1 & Es1), (Hlk _ _ Hx2) as (y2 & Hy2 & Es2).
    destruct (Hst' _ _ Es1) as (_ & -> & -> & _), (Hst' _ _ Es2) as (_ & -> & -> & _).
    by eapply (co_uniq _ _ _ _ _ Hc).
  - intros k. unfold disk_of. rewrite Hide. apply (co_disk _ _ _ _ _ Hc).
  - intros k HD. destruct (co_pin _ _ _ _ _ Hc _ HD) as (HE & b & x & Hb & Hx & Hdi & Hbn). split; [done|].
    pose proof (buf_lookup _ _ _ Hr Hb) as Hx'. destruct (Hlk _ _ Hx') as (y & Hy & Es).
    rewrite Hx in Hy. apply (inj Some) in Hy as <-.
    destruct (Hst' _ _ Es) as (E1 & _ & E3 & _). eexists b, _. split_and!; [done | done | | congruence].
    unfold is_dirty in *. by rewrite E1.
  - rewrite Hsl. apply (co_sl _ _ _ _ _ Hc).
Qed.

(** *** There is a free buffer while the log and the thread leave one *)

Lemma NoDup_size_le `{Countable A} (l : list A) (X : gset A) :
  NoDup l → (∀ x, x ∈ l → x ∈ X) → (length l <= size X)%nat.
Proof.
  intros Hnd Hl. rewrite <- (size_list_to_set (C := gset A) l Hnd). apply subseteq_size. intros x Hx.
  apply Hl. by apply elem_of_list_to_set in Hx.
Qed.
Lemma NoDup_fmap_on {A B} (f : A → B) (l : list A) :
  NoDup l → (∀ x y, x ∈ l → y ∈ l → f x = f y → x = y) → NoDup (f <$> l).
Proof.
  induction 1 as [|x l Hx Hnd IH]; intros Hf; simpl; [constructor|]. constructor.
  - intros (y & Exy & Hy)%list_elem_of_fmap. apply Hx.
    rewrite (Hf x y); [done | left | by right | done].
  - apply IH. intros. apply Hf; [by right..| done].
Qed.

Definition busy (x : buf) : Prop := b_refcnt x ≠ 0 ∨ is_dirty x = true.
Lemma free_buffer d v E D H :
  cache_ok d v E D H → (size D + size H < NBUF)%nat →
  ¬ ∀ b x, (b < NBUF)%nat → d_bufs d !! b = Some x → busy x.
Proof.
  intros Hc Hsz Hall. set (held := filter (λ b, is_Some (H !! b)) (seq 0 NBUF)).
  set (rest := filter (λ b, ¬ is_Some (H !! b)) (seq 0 NBUF)).
  assert (Hlen : (length held + length rest = NBUF)%nat).
  { unfold held, rest. rewrite <- length_app, (filter_app_complement _), length_seq. done. }
  assert (H1 : (length held <= size H)%nat).
  { rewrite <- size_dom. apply NoDup_size_le; [apply NoDup_filter, NoDup_seq|].
    intros b [Hb _]%list_elem_of_filter. by apply elem_of_dom. }
  assert (Hrest : ∀ b, b ∈ rest → (b < NBUF)%nat ∧ is_dirty (d_bufs d !!! b) = true
      ∧ d_bufs d !! b = Some (d_bufs d !!! b)).
  { intros b [Hno Hb%elem_of_seq]%list_elem_of_filter. assert (Hlt : (b < NBUF)%nat) by lia.
    destruct (co_lookup _ _ _ _ _ b Hc Hlt) as [x Hx]. rewrite (lookup_total_Some _ _ _ Hx).
    split_and!; [done | | done]. destruct (Hall b x Hlt Hx) as [Hr|]; [|done].
    rewrite (bo_ref _ _ _ _ _ (co_buf _ _ _ _ _ Hc _ _ Hlt Hx)) in Hr. destruct (H !! b) eqn:E1; [|done].
    by destruct Hno. }
  assert (Hok : ∀ b, b ∈ rest → b_dev (d_bufs d !!! b) = ROOTDEV ∧ b_blockno (d_bufs d !!! b) ∈ D).
  { intros b Hb. destruct (Hrest b Hb) as (Hlt & Hdi & Hx). pose proof (co_buf _ _ _ _ _ Hc _ _ Hlt Hx) as Hbo.
    apply (bo_dirty _ _ _ _ _ Hbo) in Hdi as [Hv HD]. by destruct (bo_valid _ _ _ _ _ Hbo Hv) as (? & _). }
  assert (H2 : (length rest <= size D)%nat); [|lia].
  rewrite <- (length_fmap (λ b, b_blockno (d_bufs d !!! b))). apply NoDup_size_le.
  - apply NoDup_fmap_on; [apply NoDup_filter, NoDup_seq|]. intros b1 b2 Hb1 Hb2 Eb.
    destruct (Hrest _ Hb1) as (? & _ & ?), (Hrest _ Hb2) as (? & _ & ?).
    eapply (co_uniq _ _ _ _ _ Hc); eauto; by apply Hok.
  - intros k (b & -> & Hb)%list_elem_of_fmap. by apply Hok.
Qed.

(** The two searches of bget. *)
Lemma first_buf_Some bs test l b :
  first_buf bs test l = Some b → b ∈ l ∧ test (bs !!! b) = true.
Proof.
  unfold first_buf. induction l as [|a l IH]; simpl; [done|]. destruct (test (bs !!! a)) eqn:Et.
  - intros [= <-]. split; [left | done].
  - intros [??]%IH. split; [by right | done].
Qed.
Lemma first_buf_None bs test l b : first_buf bs test l = None → b ∈ l → test (bs !!! b) = false.
Proof.
  unfold first_buf. induction l as [|a l IH]; simpl; [by intros _ ?%not_elem_of_nil|].
  destruct (test (bs !!! a)) eqn:Et; [done|]. intros Hn [->|?]%elem_of_cons; auto.
Qed.

(** ** bget *)

(** The state in which bget leaves a buffer that has to be read. *)
Definition unread (bno : Z) (x x1 : buf) : Prop :=
  b_flags x1 = 0 ∧ b_dev x1 = ROOTDEV ∧ b_blockno x1 = bno ∧ b_refcnt x1 = 1
  ∧ b_next x1 = b_next x ∧ b_prev x1 = b_prev x.

Section bget.
Context (p n : nat) (m : mach) (d : kdata) (v : blocks) (E D : gset Z) (H : gmap nat Z) (bno : Z).
Context (Hn : (1 <= n)%nat) (Ht : fs_thread p m d) (Hc : cache_ok d v E D H) (Hblk : is_blk bno).
Context (Hnh : ∀ b, H !! b ≠ Some bno).

(** Locking a buffer that nobody holds, after its record became [x1]. *)
Lemma bget_lock b x1 i c :
  mach_ok m i c → (b < NBUF)%nat → H !! b = None →
  ∃ d1, (release L_bcache ;; acquiresleep (SL_buf b) ;; mret b) n (K (acq L_bcache m) (d <| d_bufs := <[b := x1]> (d_bufs d) |>))
     = Done b (K m d1)
   ∧ d_bufs d1 = <[b := x1]> (d_bufs d) ∧ locks_buf b 1 d d1 ∧ fs_frame d d1 ∧ d_ide d1 = d_ide d
   ∧ d_procs d1 = d_procs d.
Proof.
  intros Hok Hb HH. rewrite (bind_done _ _ _ _ _ _ (release_acq n m _ i c _ Hok (ft_free _ _ _ Ht L_bcache I))).
  set (d1 := d <| d_bufs := _ |>). destruct (co_sl _ _ _ _ _ Hc b Hb) as (l & Hl & H0). rewrite HH in H0.
  assert (Ht1 : fs_thread p m d1) by by eapply fs_thread_data.
  rewrite (bind_done _ _ _ _ _ _ (acquiresleep_done p n m (SL_buf b) Hb d1 l Ht1 Hn Hl H0)).
  eexists. split; [done|]. split_and!; try done.
  - by eexists.
  - split; [done|]. intros k. simpl. by rewrite lookup_insert_ne.
Qed.

(** What bget makes of a free buffer. *)
Definition recycled (x : buf) : buf :=
  x <| b_dev := ROOTDEV |> <| b_blockno := bno |> <| b_flags := 0 |> <| b_refcnt := 1 |>.

Context (ring : list nat) (Hring : ring_ok (d_bufs d) ring) (i : nat) (c : cpu) (Hok : mach_ok m i c).

Let hit := first_buf (d_bufs d) (λ x, (b_dev x =? ROOTDEV) && (b_blockno x =? bno)) ring.
Let free := first_buf (d_bufs d) (λ x, (b_refcnt x =? 0) && (Z.land (b_flags x) B_DIRTY =? 0)) (reverse ring).

(** bget is one of the two searches. *)
Lemma bget_search :
  bget ROOTDEV bno n (K m d) =
    (match hit with
     | Some b => mod_buf b (λ x, x <| b_refcnt := b_refcnt x +u 1 |>) ;; release L_bcache ;; acquiresleep (SL_buf b) ;; mret b
     | None =>
       match free with
       | Some b =>
         mod_buf b recycled ;; release L_bcache ;; acquiresleep (SL_buf b) ;; mret b
       | None => panic "bget: no buffers"
       end
     end) n (K (acq L_bcache m) d).
Proof.
  pose proof (rg_links _ _ Hring) as Hk. pose proof (rg_bhead _ _ Hring) as Hbh.
  assert (Hlen : (length ring < S NBUF)%nat) by (rewrite (rg_perm _ _ Hring), length_seq; lia).
  unfold bget. rewrite (bind_done _ _ _ _ _ _ (acquire_done n m d i c _ Hok (ft_free _ _ _ Ht L_bcache I))).
  unfold get_buf. rewrite bind_getd. fold (nexts (d_bufs d) bhead).
  rewrite (bind_done _ _ _ _ _ _ (ring_find_next n _ d _ bhead ring (S NBUF) Hk Hbh Hlen)). fold hit.
  destruct hit; [done|]. rewrite bind_getd. fold (prevs (d_bufs d) bhead).
  rewrite (bind_done _ _ _ _ _ _ (ring_find_prev n _ d _ ring bhead (S NBUF) Hk Hbh Hlen)). fold free.
  destruct free; [|done]. unfold mod_buf. rewrite !bind_modd. simpl. rewrite !list_alter_alter_eq. done.
Qed.

(** The result of bget: buffer [b] was [x], is now [x1], and is locked. *)
Definition bgot (b : nat) (x x1 : buf) (d1 : kdata) : Prop :=
  bget ROOTDEV bno n (K m d) = Done b (K m d1)
  ∧ (b < NBUF)%nat ∧ H !! b = None ∧ d_bufs d !! b = Some x
  ∧ d_bufs d1 = <[b := x1]> (d_bufs d) ∧ locks_buf b 1 d d1 ∧ fs_frame d d1 ∧ d_ide d1 = d_ide d
  ∧ d_procs d1 = d_procs d
  ∧ (is_valid x = true ∧ b_blockno x = bno ∧ x1 = x <| b_refcnt := 1 |>
     ∨ (bno ∉ D) ∧ is_dirty x = false ∧ not_cached d b bno ∧ unread bno x x1).

Lemma bget_hit b : hit = Some b → ∃ x x1 d1, bgot b x x1 d1.
Proof.
  intros Ehit. pose proof Ehit as [Hb Htest]%first_buf_Some. apply (rg_elem _ _ _ Hring) in Hb.
  pose proof (buf_lookup _ _ b Hring Hb) as Hx. set (x := d_bufs d !!! b) in *.
  apply andb_true_iff in Htest as [Hdev%Z.eqb_eq Hbn%Z.eqb_eq].
  pose proof (co_buf _ _ _ _ _ Hc _ _ Hb Hx) as Hbo.
  assert (HH : H !! b = None).
  { destruct (H !! b) as [k|] eqn:E1; [|done]. destruct (bo_held _ _ _ _ _ Hbo _ E1). by destruct (Hnh b); congruence. }
  destruct (bget_lock b (x <| b_refcnt := 1 |>) i c Hok Hb HH) as (d1 & Hrun & Hrest).
  exists x, (x <| b_refcnt := 1 |>), d1. unfold bgot. rewrite bget_search, Ehit.
  unfold mod_buf. rewrite bind_modd, (list_alter_insert_at _ _ _ _ Hx).
  pose proof (bo_ref _ _ _ _ _ Hbo) as Hr0. rewrite HH in Hr0.
  assert (x <| b_refcnt := b_refcnt x +u 1 |> = x <| b_refcnt := 1 |>) as -> by by rewrite Hr0.
  rewrite Hrun.
  destruct Hrest as (? & ? & ? & ? & ?). split_and!; try done.
  destruct (is_valid x) eqn:Ev; [by left|]. right.
  pose proof (invalid_flags _ (bo_flags _ _ _ _ _ Hbo) Ev) as Ef.
  assert (Hnd : is_dirty x = false) by (unfold is_dirty; by rewrite Ef).
  assert (Hnc : not_cached d b bno).
  { intros b' y Hne Hb' Hy Hdy Eb. apply Hne. eapply (co_uniq _ _ _ _ _ Hc); eauto. congruence. }
  split_and!; try done.
  intros HD. apply (not_cached_disk d v E D H Hc b x Hx bno Hblk HH Hnd Hnc). by eapply co_pin.
Qed.

Lemma bget_miss : hit = None → (bno ∈ D ∨ (size D + size H < NBUF)%nat) → ∃ b x x1 d1, bgot b x x1 d1.
Proof.
  intros Ehit Hroom. pose proof Ehit as Ehit'. unfold hit in Ehit'.
  assert (Hmiss : ∀ b' y, (b' < NBUF)%nat → d_bufs d !! b' = Some y → b_dev y = ROOTDEV → b_blockno y ≠ bno).
  { intros b' y Hb' Hy Hdy Eb. apply (rg_elem _ _ _ Hring) in Hb'.
    pose proof (first_buf_None _ _ _ b' Ehit' Hb') as Hf. rewrite (lookup_total_Some _ _ _ Hy), Hdy, Eb in Hf.
    by rewrite !Z.eqb_refl in Hf. }
  assert (HnD : bno ∉ D).
  { intros HD. destruct (co_cached _ _ _ _ _ bno Hc) as (b & x & Hb & Hx & Hv & Hbn); [by eapply co_pin|].
    apply (Hmiss b x); [done | done | | done]. by apply (bo_valid _ _ _ _ _ (co_buf _ _ _ _ _ Hc _ _ Hb Hx)). }
  destruct Hroom as [|Hroom]; [done|]. destruct free as [b|] eqn:Efree.
  2:{ unfold free in Efree. destruct (free_buffer _ _ _ _ _ Hc Hroom). intros b x Hb Hx.
      apply (rg_elem _ _ _ Hring), elem_of_reverse in Hb. pose proof (first_buf_None _ _ _ b Efree Hb) as Hf.
      rewrite (lookup_total_Some _ _ _ Hx) in Hf. unfold busy, is_dirty.
      apply andb_false_iff in Hf as [Hf%Z.eqb_neq | Hf]; [by left | right; by rewrite Hf]. }
  pose proof Efree as [Hb Htest]%first_buf_Some. rewrite elem_of_reverse in Hb. apply (rg_elem _ _ _ Hring) in Hb.
  pose proof (buf_lookup _ _ b Hring Hb) as Hx. set (x := d_bufs d !!! b) in *.
  apply andb_true_iff in Htest as [Hr0%Z.eqb_eq Hdi]. pose proof (co_buf _ _ _ _ _ Hc _ _ Hb Hx) as Hbo.
  assert (HH : H !! b = None).
  { pose proof (bo_ref _ _ _ _ _ Hbo) as Hr. rewrite Hr0 in Hr. by destruct (H !! b). }
  destruct (bget_lock b (recycled x) i c Hok Hb HH) as (d1 & Hrun & Hrest).
  exists b, x, (recycled x), d1. unfold bgot. rewrite bget_search, Ehit, Efree.
  unfold mod_buf. rewrite bind_modd, (list_alter_insert_at _ _ _ _ Hx), Hrun.
  destruct Hrest as (? & ? & ? & ? & ?). split_and!; try done. right. split_and!; try done.
  - unfold is_dirty. by rewrite Hdi.
  - intros b' y _ Hb' Hy Hdy. by apply (Hmiss b').
Qed.
End bget.

(** ** The cache's operations *)

(** The thread, the driver and the cache are in order. *)
Definition fs_ok {Dk : Disk} {p R} {DL : DiskLaw p R} (m : mach) (d : kdata) (v : blocks) (E D : gset Z) (H : gmap nat Z) : Prop :=
  fs_thread p m d ∧ disk_ready d ∧ cache_ok d v E D H.

Section ops.
Context {Dk : Disk} {p : nat} {R : wait_reason → kst → kst → Prop} {DL : DiskLaw p R} (n : nat) (Hn : (2 <= n)%nat).

(** From [d] on, the blocks [ws] were written, and the cache is as described. *)
Definition fs_post (d : kdata) (ws : list (Z * list Z)) (v : blocks) (E D : gset Z) (H : gmap nat Z) (s' : kst) : Prop :=
  ∃ m' d', s' = K m' d' ∧ fs_ok m' d' v E D H ∧ fs_frame d d' ∧ wrote ws d d'.

Lemma fs_post_trans d d1 ws ws' v E D H s :
  fs_frame d d1 → wrote ws d d1 → fs_post d1 ws' v E D H s → fs_post d (ws ++ ws') v E D H s.
Proof.
  intros Hf Hw (m' & d' & -> & Hok & Hf' & Hw'). exists m', d'. split_and!; try done; [by etransitivity | by eapply wrote_app].
Qed.

Lemma bread_wp m d v E D H bno :
  fs_ok m d v E D H → is_blk bno → (∀ b, H !! b ≠ Some bno) → (bno ∈ D ∨ (size D + size H < NBUF)%nat) →
  wp R (bread ROOTDEV bno n (K m d)) (λ b s', H !! b = None ∧ fs_post d [] v E D (<[b := bno]> H) s').
Proof.
  intros (Ht & Hrd & Hc) Hblk Hnh Hroom. destruct (ft_run _ _ _ Ht) as (i & c & Hr).
  pose proof (rp_ok _ _ _ _ Hr) as Hok. destruct (co_ring _ _ _ _ _ Hc) as [ring Hring].
  assert (Hn1 : (1 <= n)%nat) by lia.
  assert (∃ b x x1 d1, bgot n m d D H bno b x x1 d1) as (b & x & x1 & d1 & Hrun & Hb & HH & Hx & Hd1 & Hsl & Hff & Hide & Hps & Hcase).
  { destruct (first_buf (d_bufs d) (λ x, (b_dev x =? ROOTDEV) && (b_blockno x =? bno)) ring) as [b|] eqn:Ehit.
    - exists b. by eapply bget_hit.
    - by eapply bget_miss. }
  unfold bread. rewrite (bind_done _ _ _ _ _ _ Hrun). unfold get_buf. rewrite bind_getd.
  assert (Hlt : (b < length (d_bufs d))%nat) by by eapply lookup_lt_Some.
  assert (Hx1 : d_bufs d1 !! b = Some x1) by (rewrite Hd1; by apply list_lookup_insert_eq).
  rewrite (lookup_total_Some _ _ _ Hx1).
  assert (Ht1 : fs_thread p m d1) by (eapply fs_thread_data; [done | unfold pdirs; by rewrite Hps]).
  assert (Hrd1 : disk_ready d1) by by apply (disk_ready_frame d).
  destruct Hcase as [(Hv & Hbn & ->) | (HnD & Hdx & Hnc & Hf & Hdev & Hbn & Href & Hnx & Hpv)].
  - assert ((Z.land (b_flags (x <| b_refcnt := 1 |>)) B_VALID =? 0) = false) as ->.
    { unfold is_valid in Hv. by apply negb_true_iff in Hv. }
    cbn [when]. rewrite bind_mret. simpl. split; [done|]. exists m, d1. split_and!; try done; [| by apply wrote_nil].
    split; [done | split; [done|]]. eapply (cache_ok_hit d d1 v E D H Hc b Hb x); try done.
    intros k. unfold disk_of. by rewrite Hide.
  - rewrite Hf. cbn [Z.land Z.eqb when]. apply wp_bind. destruct Hsl as (l & Hsl & Hl1).
    eapply wp_mono; [|apply (iderw_law n m d1 b x1 l Hn Ht1 Hrd1 Hb Hx1)].
    2:{ by rewrite Hsl, lookup_insert_eq. }
    2:{ by rewrite Hl1. }
    2:{ by left. }
    2:{ by rewrite Hf. }
    2:{ done. }
    2:{ by rewrite Hbn. }
    intros [] s' (m' & d' & -> & Ht' & Hrd' & Hff' & Hsl' & x' & Hb' & Hf' & Hdev' & Hbn' & Hr' & Hn' & Hp' & Hcase).
    assert (is_dirty x1 = false) as Hx1d by (unfold is_dirty; by rewrite Hf). rewrite Hx1d in Hcase.
    destruct Hcase as [Hdata Hw]. rewrite Hbn in Hdata.
    assert (Hdk : ∀ k, disk_of d1 k = disk_of d k) by (intros k; unfold disk_of; by rewrite Hide).
    simpl. split; [done|]. exists m', d'. split_and!; try done.
    + split; [done | split; [done|]]. rewrite Hd1, list_insert_insert_eq in Hb'.
      eapply (cache_ok_install d d' v E D H Hc b Hb x x'); try done; try congruence.
      * exists l. by rewrite Hsl', Hsl.
      * intros k. rewrite (wr_disk _ _ _ Hw). simpl. by rewrite Hdk.
    + by etransitivity.
    + apply (wrote_app [] [] d d1 d'); [by apply wrote_nil | done].
Qed.

(** Changing the data of a locked buffer. *)
Lemma bdata_done m d v E D H b bno f :
  fs_ok m d v E D H → H !! b = Some bno → length (f (v bno)) = Z.to_nat BSIZE →
  ∃ d', mod_buf b (λ x, x <| b_data := f (b_data x) |>) n (K m d) = Done tt (K m d')
    ∧ fs_ok m d' (bupd v bno (f (v bno))) ({[bno]} ∪ E) D H ∧ fs_frame d d' ∧ d_ide d' = d_ide d.
Proof.
  intros (Ht & Hrd & Hc) HH Hlen. pose proof (co_held _ _ _ _ _ Hc _ _ HH) as Hb.
  destruct (co_lookup _ _ _ _ _ b Hc Hb) as [x Hx].
  destruct (held_facts _ _ _ _ _ Hc _ _ HH _ Hx) as (_ & Hv & Hbn & Hdev & Hblk & Hdata & Hf & Hr & Hdi).
  unfold mod_buf. rewrite modd_done, (list_alter_insert_at _ _ _ _ Hx). eexists. split; [done|].
  split_and!; [split; [by eapply fs_thread_data | split; [by apply (disk_ready_frame d)|]] | by split | done].
  rewrite Hdata. eapply (cache_ok_held d _ v E D H Hc b bno HH x Hx); try done.
  - by rewrite HH.
  - intros k. rewrite HH. by intros [= <-].
  - intros k Hk. set_solver.
  - intros HD. apply (co_pin _ _ _ _ _ Hc) in HD. set_solver.
  - intros _. by right.
  - set_solver.
  - apply (co_sl _ _ _ _ _ Hc).
Qed.

Lemma bwrite_wp m d v E D H b bno :
  fs_ok m d v E D H → H !! b = Some bno →
  wp R (bwrite b n (K m d)) (λ _, fs_post d [(bno, v bno)] v (E ∖ {[bno]}) (D ∖ {[bno]}) H).
Proof.
  intros (Ht & Hrd & Hc) HH. pose proof (co_held _ _ _ _ _ Hc _ _ HH) as Hb.
  destruct (co_lookup _ _ _ _ _ b Hc Hb) as [x Hx].
  destruct (held_facts _ _ _ _ _ Hc _ _ HH _ Hx) as (_ & Hv & Hbn & Hdev & Hblk & Hdata & Hf & Hr & Hdi).
  destruct (co_sl _ _ _ _ _ Hc b Hb) as (l & Hl & Hl1). rewrite HH in Hl1.
  unfold bwrite. rewrite (bind_done _ _ _ _ _ _ (holdingsleep_done p n m (SL_buf b) Hb d l Ht Hl)), Hl1.
  cbn [ctrue Z.eqb negb]. unfold mod_buf. rewrite bind_modd, (list_alter_insert_at _ _ _ _ Hx).
  set (x1 := x <| b_flags := Z.lor (b_flags x) B_DIRTY |>).
  assert (Ef : b_flags x1 = Z.lor B_VALID B_DIRTY).
  { subst x1. simpl. unfold is_valid in Hv. destruct Hf as [E1|[E1|E1]]; rewrite E1 in *; done. }
  destruct (dirty_flags x1 Ef) as (Hv1 & Hd1 & Hf1).
  assert (Hlt : (b < length (d_bufs d))%nat) by by eapply lookup_lt_Some.
  set (d1 := d <| d_bufs := <[b := x1]> (d_bufs d) |>).
  eapply wp_mono; [|apply (iderw_law n m d1 b x1 l Hn); try done].
  2: by eapply fs_thread_data. 2: by apply (disk_ready_frame d). 2: by apply list_lookup_insert_eq.
  2: by rewrite Hl1. 2: by rewrite Ef. 2: by subst x1; simpl; rewrite Hbn.
  intros [] s' (m' & d' & -> & Ht' & Hrd' & Hff & Hsl & x' & Hb' & Hf' & Hdev' & Hbn' & Hr' & Hn' & Hp' & Hcase).
  rewrite Hd1 in Hcase. destruct Hcase as [Hdat Hw]. simpl in Hdat, Hw. rewrite Hbn, Hdata in Hw.
  simpl in Hb'. rewrite list_insert_insert_eq in Hb'. destruct (valid_flags _ Hf') as (Hv' & Hdi' & Hfo').
  exists m', d'. split; [done|]. split.
  2:{ split; [by transitivity d1 | by apply (wrote_app [] _ d d1 d'); [apply wrote_nil|]]. }
  split; [done | split; [done|]]. eapply (cache_ok_ext _ (bupd v bno (v bno))).
  { intros k. destruct (decide (k = bno)) as [->|Hne]; [by rewrite bupd_eq | by rewrite bupd_ne]. }
  eapply (cache_ok_held d d' v E D H Hc b bno HH x Hx x'); try done.
  - congruence.
  - by apply (co_len _ _ _ _ _ Hc).
  - rewrite Hdi'. set_solver.
  - by rewrite HH, Hr'.
  - intros k. rewrite HH. by intros [= <-].
  - intros k Hk. set_solver.
  - set_solver.
  - intros _. by right.
  - intros k Hk. rewrite (wr_disk _ _ _ Hw). simpl. by rewrite bupd_ne.
  - intros _. rewrite (wr_disk _ _ _ Hw). simpl. by rewrite bupd_eq.
  - rewrite Hsl. apply (co_sl _ _ _ _ _ Hc).
Qed.

(** A buffer is given back once its block is written or pinned by the log. *)
Lemma brelse_done m d v E D H b bno :
  fs_ok m d v E D H → H !! b = Some bno → (bno ∈ E → bno ∈ D) →
  ∃ d', brelse b n (K m d) = Done tt (K m d') ∧ fs_ok m d' v E D (delete b H) ∧ fs_frame d d' ∧ d_ide d' = d_ide d.
Proof.
  intros (Ht & Hrd & Hc) HH HED. pose proof (co_held _ _ _ _ _ Hc _ _ HH) as Hb.
  destruct (co_lookup _ _ _ _ _ b Hc Hb) as [x Hx]. destruct (ft_run _ _ _ Ht) as (i & c & Hr).
  pose proof (rp_ok _ _ _ _ Hr) as Hok. destruct (co_ring _ _ _ _ _ Hc) as [ring Hring].
  destruct (held_facts _ _ _ _ _ Hc _ _ HH _ Hx) as (_ & Hv & Hbn & Hdev & Hblk & Hdata & Hf & Href & Hdi).
  destruct (co_sl _ _ _ _ _ Hc b Hb) as (l & Hl & Hl1). rewrite HH in Hl1.
  unfold brelse. rewrite (bind_done _ _ _ _ _ _ (holdingsleep_done p n m (SL_buf b) Hb d l Ht Hl)), Hl1.
  cbn [ctrue Z.eqb negb]. rewrite (bind_done _ _ _ _ _ _ (releasesleep_done p n m (SL_buf b) Hb d l Ht Hl)).
  set (d1 := d <| d_sl := _ |> <| d_procs := _ |>).
  rewrite (bind_done _ _ _ _ _ _ (acquire_done n m d1 i c _ Hok (ft_free _ _ _ Ht L_bcache I))).
  assert (Hx0 : (b_refcnt x -u 1) = 0) by by rewrite Href.
  set (x1 := x <| b_refcnt := 0 |>). set (bs1 := <[b := x1]> (d_bufs d)).
  rewrite (bind_done _ _ _ _ tt (K (acq L_bcache m) (d1 <| d_bufs := bs1 |>))).
  2:{ unfold mod_buf. rewrite modd_done. change (d_bufs d1) with (d_bufs d).
      rewrite (list_alter_insert_at _ _ _ _ Hx). cbv beta. by rewrite Hx0. }
  assert (Hlt : (b < length (d_bufs d))%nat) by by eapply lookup_lt_Some.
  assert (Hx1 : bs1 !! b = Some x1) by by apply list_lookup_insert_eq.
  assert (Hring1 : ring_ok bs1 ring) by by eapply ring_ok_insert.
  set (d2 := d1 <| d_bufs := bs1 |>). rewrite (get_buf_bind n _ d2 b x1 _ Hx1). unfold d2. change (b_refcnt x1 =? 0) with true. cbn [when].
  rewrite (bind_done _ _ _ _ _ _ (relink_done n _ d1 ring b bs1 Hring1 Hb)).
  rewrite (release_acq n m _ i c _ Hok (ft_free _ _ _ Ht L_bcache I)).
  destruct (move_front bs1 ring b Hring1 Hb) as [ring' Hring'].
  eexists. split; [done|]. split_and!.
  2:{ subst d1. split; [unfold fs_core; simpl; by rewrite quiet_wake|]. intros k. simpl. by rewrite lookup_insert_ne. }
  2:{ done. }
  split; [eapply fs_thread_data; [done | apply pdirs_quiet; simpl; by rewrite quiet_wake] | split; [by apply (disk_ready_frame d)|]].
  eapply (cache_ok_links (d1 <| d_bufs := bs1 |>) _ _ _ _ _ ring'); [| apply strip_relink | done..].
  eapply (cache_ok_ext _ (bupd v bno (v bno))).
  { intros k. destruct (decide (k = bno)) as [->|Hne]; [by rewrite bupd_eq | by rewrite bupd_ne]. }
  eapply (cache_ok_held d _ v E D H Hc b bno HH x Hx x1); try done.
  - by apply (co_len _ _ _ _ _ Hc).
  - by rewrite lookup_delete_eq.
  - intros k. by rewrite lookup_delete_eq.
  - intros k Hk. by rewrite lookup_delete_ne.
  - intros HD. by eapply co_pin.
  - auto.
  - intros HE. by apply (co_disk _ _ _ _ _ Hc).
  - apply (locks_buf_ok d _ v E D H b None Hc). by eexists.
Qed.
End ops.

(** ** binit *)

(** The first [k] buffers are in the list, unused and unlocked. *)
Record binit_inv (k : nat) (d0 d : kdata) : Prop := {
  bi_len : length (d_bufs d) = S NBUF;
  bi_links : linked (nexts (d_bufs d)) (prevs (d_bufs d)) bhead (reverse (seq 0 k) ++ [bhead]);
  bi_strip : strip <$> d_bufs d = strip <$> d_bufs d0;
  bi_sl b : (b < k)%nat → d_sl d !! SL_buf b = Some (Sleeplock 0 "buffer" 0);
  bi_frame : fs_frame d0 d;
  bi_ide : d_ide d = d_ide d0
}.

Lemma initsleeplock_bind {A} n m d lk name (g : unit → KM A) :
  (initsleeplock lk name ≫= g) n (K m d)
  = g tt n (K (m <| m_locks := <[L_sleep lk := Spinlock 0 "sleep lock" None]> (m_locks m) |>)
             (d <| d_sl := <[lk := Sleeplock 0 name 0]> (d_sl d) |>)).
Proof. done. Qed.

(** One round of the loop. *)
Lemma binit_body n m d0 d k :
  binit_inv k d0 d → (k < NBUF)%nat →
  ∃ m' d', (h ← get_buf bhead; mod_buf k (λ x, x <| b_next := b_next h |>) ;;
    mod_buf k (λ x, x <| b_prev := bhead |>) ;;
    initsleeplock (SL_buf k) "buffer" ;;
    h ← get_buf bhead; mod_buf (b_next h) (λ x, x <| b_prev := k |>) ;;
    mod_buf bhead (λ x, x <| b_next := k |>)) n (K m d) = Done tt (K m' d') ∧ binit_inv (S k) d0 d'.
Proof.
  intros [Hl Hk Hst Hsl Hf Hi] Hlt. assert (Hkh : k ≠ bhead) by (unfold bhead; lia).
  set (bs := d_bufs d) in *. assert (E0 : d = d <| d_bufs := bs |>) by by destruct d. rewrite E0.
  rewrite (links_bind n m d bs bhead (λ nb pb, mod_buf k (λ y, y <| b_next := nb |>) ;; _)).
  rewrite set_next_bind, set_prev_bind, initsleeplock_bind.
  set (bs1 := set_prev k bhead _). set (m1 := m <| m_locks := _ |>).
  set (d1 := d <| d_sl := <[SL_buf k := Sleeplock 0 "buffer" 0]> (d_sl d) |>).
  change (_ <| d_bufs := bs1 |> <| d_sl := _ |>) with (d1 <| d_bufs := bs1 |>).
  rewrite (links_bind n m1 d1 bs1 bhead (λ nb pb, mod_buf nb (λ y, y <| b_prev := k |>) ;; _)), set_prev_bind.
  assert (E1 : nexts bs1 bhead = nexts bs bhead).
  { unfold bs1. rewrite nexts_set_prev. unfold nexts, set_next. by rewrite !list_lookup_total_alt, list_lookup_alter_ne. }
  rewrite E1. exists m1, (d1 <| d_bufs := to_front k bs |>). split; [done|].
  destruct (to_front_links bs k (reverse (seq 0 k))) as [Hl' Hk']; [done | done | | | done | |].
  - apply NoDup_cons. split; [rewrite elem_of_reverse, elem_of_seq; unfold bhead; lia | rewrite reverse_Permutation; apply NoDup_seq].
  - apply not_elem_of_cons. split; [done|]. rewrite elem_of_reverse, elem_of_seq. lia.
  - intros x. rewrite elem_of_reverse, elem_of_seq. lia.
  - split; try done.
    + by rewrite seq_S, reverse_snoc.
    + simpl. rewrite <- Hst. unfold to_front, set_next, set_prev. by rewrite !strip_alter by done.
    + intros b Hb. simpl. destruct (decide (b = k)) as [->|Hne]; [by rewrite lookup_insert_eq|].
      rewrite lookup_insert_ne by congruence. apply Hsl. lia.
    + etransitivity; [exact Hf|]. split; [done|]. intros i. simpl. by rewrite lookup_insert_ne.
Qed.

Lemma binit_loop n m d0 d k j :
  binit_inv k d0 d → (k + j = NBUF)%nat →
  ∃ m' d', forM (seq k j) (λ b,
    h ← get_buf bhead; mod_buf b (λ x, x <| b_next := b_next h |>) ;;
    mod_buf b (λ x, x <| b_prev := bhead |>) ;;
    initsleeplock (SL_buf b) "buffer" ;;
    h ← get_buf bhead; mod_buf (b_next h) (λ x, x <| b_prev := b |>) ;;
    mod_buf bhead (λ x, x <| b_next := b |>)) n (K m d) = Done tt (K m' d') ∧ binit_inv NBUF d0 d'.
Proof.
  revert k m d. induction j as [|j IH]; intros k m d Hinv Hkj.
  - exists m, d. split; [done|]. by replace NBUF with k by lia.
  - cbn [seq forM]. destruct (binit_body n m d0 d k Hinv) as (m1 & d1 & Hrun & Hinv1); [lia|].
    rewrite (bind_done _ _ _ _ _ _ Hrun). apply IH; [done | lia].
Qed.

(** A buffer that was never used. *)
Definition unused (x : buf) : Prop := b_flags x = 0 ∧ b_refcnt x = 0 ∧ b_dev x ≠ ROOTDEV.

(** binit makes the ring: the cache is empty and agrees with the disk. *)
Lemma binit_done n m d :
  length (d_bufs d) = S NBUF → (∀ b x, d_bufs d !! b = Some x → unused x) →
  (∀ b, is_blk b → length (disk_of d b) = Z.to_nat BSIZE) →
  ∃ m' d', binit n (K m d) = Done tt (K m' d') ∧ cache_ok d' (disk_of d) ∅ ∅ ∅ ∧ fs_frame d d' ∧ d_ide d' = d_ide d
    ∧ ∀ b x, d_bufs d' !! b = Some x → unused x.
Proof.
  intros Hlen Hun Hdl. unfold binit. unfold initlock, put_lock, modm. 
  set (m1 := m <| m_locks := <[L_bcache := Spinlock 0 "bcache" None]> (m_locks m) |>).
  rewrite (bind_done _ _ _ _ tt (K m1 d)) by done.
  set (bs0 := set_next bhead bhead (set_prev bhead bhead (d_bufs d))).
  rewrite (bind_done _ _ _ _ tt (K m1 (d <| d_bufs := set_prev bhead bhead (d_bufs d) |>))) by done.
  rewrite set_next_bind. fold bs0.
  destruct (binit_loop n m1 d (d <| d_bufs := bs0 |>) 0 NBUF) as (m2 & d2 & Hrun & [Hl Hk Hst Hsl Hf Hi]); [|done|].
  { assert (Hb : (bhead < length (d_bufs d))%nat) by (rewrite Hlen; unfold bhead; lia).
    split; simpl; try done.
    - unfold bs0. by rewrite length_set_next, length_set_prev.
    - unfold bs0. rewrite prevs_set_next, prevs_set_prev, nexts_set_next, !fupd_eq by (by rewrite ?length_set_prev). done.
    - unfold bs0, set_next, set_prev. by rewrite !strip_alter by done.
    - intros b Hb'. lia. }
  exists m2, d2. split; [exact Hrun|]. clear Hrun.
  assert (Hun2 : ∀ b x, d_bufs d2 !! b = Some x → unused x).
  { intros b x Hx. assert (Hk2 : (strip <$> d_bufs d2) !! b = Some (strip x)) by by rewrite list_lookup_fmap, Hx.
    rewrite Hst, list_lookup_fmap in Hk2. destruct (d_bufs d !! b) as [y|] eqn:Hy; [|done].
    apply (inj Some) in Hk2. destruct (Hun b y Hy) as (H1 & H2 & H3).
    pose proof (f_equal b_flags Hk2). pose proof (f_equal b_refcnt Hk2). pose proof (f_equal b_dev Hk2).
    simpl in *. unfold unused. by split_and!; congruence. }
  split; [|exact (conj Hf (conj Hi Hun2))]. split; try done.
  - exists (reverse (seq 0 NBUF)). split; [done | apply reverse_Permutation | done].
  - intros b x Hb Hx. destruct (Hun2 b x Hx) as (H1 & H2 & H3).
    split; unfold flags_ok, is_valid, is_dirty; rewrite ?H1, ?H2; try done; [by left | by split; [|intros [? _]]].
  - intros b1 b2 x1 x2 _ _ Hx1 _ Hd1. by destruct (Hun2 _ _ Hx1) as (_ & _ & ?).
  - intros b _ _. unfold disk_of. by rewrite Hi.
  - intros b Hb. by rewrite lookup_empty, Hsl; [eexists|].
Qed.

(** ** The cache as the disk it caches

    A client that reads, changes, writes and releases blocks, with the handles
    of the buffers it holds in [ρ], and what it has read in the result. *)

Inductive bop : Type :=
| Bread (bno : Z)
| Bset (bno : Z) (data : list Z)
| Bwrite (bno : Z)
| Brelse (bno : Z).

Definition handle (ρ : gmap Z nat) (bno : Z) : KM nat := from_opt "no buffer" (ρ !! bno).
Definition run_bop `{Disk} (ρ : gmap Z nat) (o : bop) : KM (gmap Z nat * list (list Z)) :=
  match o with
  | Bread bno => b ← bread ROOTDEV bno; x ← get_buf b; mret (<[bno := b]> ρ, [b_data x])
  | Bset bno data => b ← handle ρ bno; mod_buf b (λ x, x <| b_data := data |>) ;; mret (ρ, [])
  | Bwrite bno => b ← handle ρ bno; bwrite b ;; mret (ρ, [])
  | Brelse bno => b ← handle ρ bno; brelse b ;; mret (delete bno ρ, [])
  end.
Fixpoint run_bops `{Disk} (ρ : gmap Z nat) (os : list bop) : KM (gmap Z nat * list (list Z)) :=
  match os with
  | [] => mret (ρ, [])
  | o :: os' => r ← run_bop ρ o; q ← run_bops r.1 os'; mret (q.1, r.2 ++ q.2)
  end.

(** The abstract disk: the contents of the blocks, the blocks the client has
    open, and those it has changed and not written.  [None]: a misuse. *)
Record adisk := ADisk { ad_blocks : blocks; ad_open : gset Z; ad_unsaved : gset Z }.
#[export] Instance is_blk_dec b : Decision (is_blk b) := _.
Definition abs_bop (σ : adisk) (o : bop) : option (adisk * list (list Z)) :=
  let '(ADisk v op un) := σ in
  match o with
  | Bread bno =>
    if decide (is_blk bno ∧ (bno ∉ op) ∧ (size op < NBUF)%nat)
    then Some (ADisk v ({[bno]} ∪ op) un, [v bno]) else None
  | Bset bno data =>
    if decide (bno ∈ op ∧ length data = Z.to_nat BSIZE)
    then Some (ADisk (bupd v bno data) op ({[bno]} ∪ un), []) else None
  | Bwrite bno => if decide (bno ∈ op) then Some (ADisk v op (un ∖ {[bno]}), []) else None
  | Brelse bno =>
    if decide (bno ∈ op ∧ (bno ∉ un)) then Some (ADisk v (op ∖ {[bno]}) un, []) else None
  end.
Fixpoint abs_bops (σ : adisk) (os : list bop) : option (adisk * list (list Z)) :=
  match os with
  | [] => Some (σ, [])
  | o :: os' => '(σ1, l1) ← abs_bop σ o; '(σ2, l2) ← abs_bops σ1 os'; Some (σ2, l1 ++ l2)
  end.

(** The handles are those of the locked buffers. *)
Record handles_ok (ρ : gmap Z nat) (H : gmap nat Z) (op : gset Z) : Prop := {
  ho_inv bno b : ρ !! bno = Some b ↔ H !! b = Some bno;
  ho_dom bno : bno ∈ op ↔ is_Some (ρ !! bno)
}.
Lemma handles_size ρ H op : handles_ok ρ H op → (size H <= size op)%nat.
Proof.
  intros [Hi Hd]. rewrite <- (length_map_to_list H), <- (length_fmap snd). apply NoDup_size_le.
  - apply NoDup_fmap_on; [apply NoDup_map_to_list|].
    intros [b1 k1] [b2 k2] H1%elem_of_map_to_list H2%elem_of_map_to_list Ek. simpl in Ek. subst k2.
    apply Hi in H1, H2. congruence.
  - intros k ([b k'] & -> & Hb%elem_of_map_to_list)%list_elem_of_fmap. apply Hd. exists b. by apply Hi.
Qed.
Lemma handles_insert ρ H op bno b :
  handles_ok ρ H op → H !! b = None → (bno ∉ op) → handles_ok (<[bno := b]> ρ) (<[b := bno]> H) ({[bno]} ∪ op).
Proof.
  intros [Hi Hd] Hb Hn. assert (Hρ : ρ !! bno = None) by (rewrite Hd in Hn; by apply eq_None_not_Some).
  split.
  - intros k c. destruct (decide (k = bno)) as [->|Hk], (decide (c = b)) as [->|Hc];
      rewrite ?lookup_insert_eq, ?lookup_insert_ne by congruence.
    + done.
    + split; [congruence|]. intros Hk%Hi. congruence.
    + split; [|congruence]. intros Hk'%Hi. congruence.
    + apply Hi.
  - intros k. destruct (decide (k = bno)) as [->|Hk].
    + rewrite lookup_insert_eq. split; [eauto | set_solver].
    + rewrite lookup_insert_ne, elem_of_union, elem_of_singleton, Hd by done. naive_solver.
Qed.
Lemma handles_delete ρ H op bno b :
  handles_ok ρ H op → ρ !! bno = Some b → handles_ok (delete bno ρ) (delete b H) (op ∖ {[bno]}).
Proof.
  intros [Hi Hd] Hρ. pose proof (proj1 (Hi _ _) Hρ) as HH. split.
  - intros k c. destruct (decide (k = bno)) as [->|Hk], (decide (c = b)) as [->|Hc];
      rewrite ?lookup_delete_eq, ?lookup_delete_ne by congruence.
    + done.
    + split; [done|]. intros Hk%Hi. congruence.
    + split; [|done]. intros Hk'%Hi. congruence.
    + apply Hi.
  - intros k. destruct (decide (k = bno)) as [->|Hk].
    + rewrite lookup_delete_eq. split; [set_solver | by intros [??]].
    + rewrite lookup_delete_ne, elem_of_difference, elem_of_singleton, Hd by done. naive_solver.
Qed.

Section client.
Context {Drv : Disk} {p : nat} {R : wait_reason → kst → kst → Prop} {DL : DiskLaw p R} (n : nat) (Hn : (2 <= n)%nat).

Definition client_ok (ρ : gmap Z nat) (σ : adisk) (s : kst) : Prop :=
  ∃ m d H, s = K m d ∧ fs_ok m d (ad_blocks σ) (ad_unsaved σ) ∅ H ∧ handles_ok ρ H (ad_open σ).

Lemma handle_bind {A} ρ bno b (g : nat → KM A) s : ρ !! bno = Some b → (handle ρ bno ≫= g) n s = g b n s.
Proof. intros Hb. unfold handle. by rewrite Hb. Qed.

Lemma run_bop_wp ρ σ s o σ' l :
  client_ok ρ σ s → abs_bop σ o = Some (σ', l) →
  wp R (run_bop ρ o n s) (λ r s', r.2 = l ∧ client_ok r.1 σ' s').
Proof.
  destruct σ as [v op un]. intros (m & d & H & -> & Hok & Hh) Ha. simpl in Hok, Hh, Ha.
  destruct o as [bno|bno data|bno|bno]; simpl in Ha |- *; case_decide as Hp; try done; simplify_eq/=.
  - destruct Hp as (Hblk & Hno & Hsz). apply wp_bind.
    eapply wp_mono; [|apply (bread_wp n Hn m d v un ∅ H bno Hok Hblk)].
    2:{ intros b Hb. apply Hno, (ho_dom _ _ _ Hh). exists b. by apply Hh. }
    2:{ right. pose proof (handles_size _ _ _ Hh). rewrite size_empty. lia. }
    intros b s' (Hb & m' & d' & -> & Hok' & _ & _). pose proof Hok' as (_ & _ & Hc').
    assert (HH : <[b := bno]> H !! b = Some bno) by apply lookup_insert_eq.
    pose proof (co_held _ _ _ _ _ Hc' _ _ HH) as Hlt. destruct (co_lookup _ _ _ _ _ b Hc' Hlt) as [x Hx].
    destruct (held_facts _ _ _ _ _ Hc' _ _ HH _ Hx) as (_ & _ & _ & _ & _ & Hdata & _).
    rewrite (get_buf_bind n m' d' b x _ Hx). simpl. rewrite Hdata. split; [done|].
    exists m', d', (<[b := bno]> H). split_and!; [done | done | by apply handles_insert].
  - destruct Hp as [Ho Hlen]. apply (ho_dom _ _ _ Hh) in Ho as [b Hb]. rewrite (handle_bind _ _ _ _ _ Hb).
    destruct (bdata_done n Hn m d v un ∅ H b bno (λ _, data) Hok) as (d' & Hrun & Hok' & _); [by apply Hh | done|].
    rewrite (bind_done _ _ _ _ _ _ Hrun). simpl. split; [done|]. by exists m, d', H.
  - apply (ho_dom _ _ _ Hh) in Hp as [b Hb]. rewrite (handle_bind _ _ _ _ _ Hb). apply wp_bind.
    eapply wp_mono; [|apply (bwrite_wp n Hn m d v un ∅ H b bno Hok); by apply Hh].
    intros [] s' (m' & d' & -> & Hok' & _ & _). simpl. split; [done|]. exists m', d', H.
    assert (E1 : (∅ : gset Z) ∖ {[bno]} = ∅) by set_solver. rewrite E1 in Hok'. done.
  - destruct Hp as [Ho Hun]. apply (ho_dom _ _ _ Hh) in Ho as [b Hb]. rewrite (handle_bind _ _ _ _ _ Hb).
    destruct (brelse_done n m d v un ∅ H b bno Hok) as (d' & Hrun & Hok' & _); [by apply Hh | done |].
    rewrite (bind_done _ _ _ _ _ _ Hrun). simpl. split; [done|].
    exists m, d', (delete b H). split_and!; [done | done | by apply handles_delete].
Qed.
End client.

(** C5: the buffer cache behaves as the disk itself.  Whatever sequence of bread, changes to
    the data, bwrite and brelse a process makes within its rules (it does not open
    a block twice or more than NBUF blocks, and writes what it changed before it releases it), on any driver that
    keeps its law, none of the calls panics, every bread returns the block's
    latest contents, and the cache keeps its invariant: one ring of all buffers, at most
    one buffer per block, and every block that is not changed and unwritten equal to the
    disk's. *)
Theorem cache_refines_disk {Drv : Disk} {p : nat} {R : wait_reason → kst → kst → Prop} {DL : DiskLaw p R}
    n ρ σ s os σ' l :
  (2 <= n)%nat → client_ok ρ σ s → abs_bops σ os = Some (σ', l) →
  wp R (run_bops ρ os n s) (λ r s', r.2 = l ∧ client_ok r.1 σ' s').
Proof.
  intros Hn. revert ρ σ s l. induction os as [|o os IH]; intros ρ σ s l Hc Ha; simpl in Ha |- *.
  - by simplify_eq/=.
  - destruct (abs_bop σ o) as [[σ1 l1]|] eqn:E1; simplify_eq/=.
    destruct (abs_bops σ1 os) as [[σ2 l2]|] eqn:E2; simplify_eq/=.
    apply wp_bind. eapply wp_mono; [|by apply (run_bop_wp n Hn ρ σ s o σ1 l1)].
    intros r s1 [<- Hc1]. apply wp_bind. eapply wp_mono; [|by apply (IH r.1 σ1 s1 l2)].
    intros q s2 [<- Hc2]. simpl. done.
Qed.
