(* ===== verification/Io.v ===== *)
(** * Io: device registers and ports, and the tables of mmu.h

    Code that programs a device reads and writes its ports (x86.h: inb, outb,
    insl, outsl) or its memory-mapped registers.  A computation of [HM] keeps
    the history of these accesses, the last one first, beside its own state;
    what a read returns is any function of the history ([Devices]), so that
    theorems hold for every device, or for those that follow a named law.

    Segment and gate descriptors are records with the fields of the C
    structures; [seg_bits] and [gate_bits] are the 64 bits the compiler makes of
    them, and the decoders below read those as the processor does. *)

From S2P Require Import Prelude Memory Kstate Spinlock.

(** ** Accesses *)

Inductive access : Set :=
| In (port v : Z)
| Out (port v : Z)
| Insl (port : Z) (data : list Z)      (* the bytes read, in order *)
| Outsl (port : Z) (data : list Z)
| Load (addr v : Z)
| Store (addr v : Z).

(** The devices' answers. *)
Class Devices := {
  dev_in : list access → Z → Z;
  dev_insl : list access → Z → nat → list Z;
  dev_load : list access → Z → Z }.

Record hst (S : Type) := H { h_s : S; h_io : list access }.
Arguments H {S} h_s h_io.
Arguments h_s {S} h.
Arguments h_io {S} h.

Abbreviation HM W S := (M W (hst S)).

(** Code without device accesses that works on a part of the state, run inside
    code that has them: [get] and [put] give the part, [f] renames the reasons
    to wait. *)
Section lift.
Context {W W' S S' A : Type} (f : W → W') (get : S' → S) (put : S → S' → S').
Fixpoint liftc (c : comp W S A) (h : hst S') : comp W' (hst S') A :=
  match c with
  | Done a s => Done a (H (put s (h_s h)) (h_io h))
  | Panic msg => Panic msg
  | Undef msg => Undef msg
  | NoFuel => NoFuel
  | Block w s k => Block (f w) (H (put s (h_s h)) (h_io h)) (λ h', liftc (k (get (h_s h'))) h')
  end.
Definition lift (m : M W S A) : HM W' S' A := λ n h, liftc (m n (get (h_s h))) h.

Lemma lift_done (m : M W S A) n s h a s' :
  m n (get s) = Done a s' → lift m n (H s h) = Done a (H (put s' s) h).
Proof. intros Hm. unfold lift. simpl. by rewrite Hm. Qed.
End lift.

Section io.
Context `{Devices} {W S : Type}.

Definition access_ (e : access) : HM W S unit := modify (λ s, Io.H (h_s s) (e :: h_io s)).

(** ** x86.h *)
Definition inb (port : Z) : HM W S Z :=
  h ← gets h_io;
  let v := u8 (dev_in h port) in
  access_ (In port v) ;; mret v.
Definition outb (port data : Z) : HM W S unit := access_ (Out port (u8 data)).
(** [cnt] words, as the bytes they are in memory. *)
Definition insl (port : Z) (cnt : nat) : HM W S (list Z) :=
  h ← gets h_io;
  let l := dev_insl h port (4 * cnt) in
  access_ (Insl port l) ;; mret l.
Definition outsl (port : Z) (data : list Z) : HM W S unit := access_ (Outsl port data).

(** A volatile 32-bit register. *)
Definition mmio_read (addr : Z) : HM W S Z :=
  h ← gets h_io;
  let v := u32 (dev_load h addr) in
  access_ (Load addr v) ;; mret v.
Definition mmio_write (addr v : Z) : HM W S unit := access_ (Store addr (u32 v)).

Lemma inb_done n s h port :
  inb port n (Io.H s h) = Done (u8 (dev_in h port)) (Io.H s (In port (u8 (dev_in h port)) :: h)).
Proof. done. Qed.
Lemma outb_done n s h port v : outb port v n (Io.H s h) = Done tt (Io.H s (Out port (u8 v) :: h)).
Proof. done. Qed.
Lemma insl_done n s h port cnt :
  insl port cnt n (Io.H s h)
  = Done (dev_insl h port (4 * cnt)) (Io.H s (Insl port (dev_insl h port (4 * cnt)) :: h)).
Proof. done. Qed.
Lemma outsl_done n s h port l : outsl port l n (Io.H s h) = Done tt (Io.H s (Outsl port l :: h)).
Proof. done. Qed.
Lemma mmio_read_done n s h a :
  mmio_read a n (Io.H s h) = Done (u32 (dev_load h a)) (Io.H s (Load a (u32 (dev_load h a)) :: h)).
Proof. done. Qed.
Lemma mmio_write_done n s h a v :
  mmio_write a v n (Io.H s h) = Done tt (Io.H s (Store a (u32 v) :: h)).
Proof. done. Qed.
End io.

(** ** Bit fields

    gcc lays the fields of a structure out from the low bits up. *)
Fixpoint pack (l : list (Z * Z)) : Z :=
  match l with
  | [] => 0
  | (w, v) :: l' => v mod 2 ^ w + 2 ^ w * pack l'
  end.
Definition bits (x lo w : Z) : Z := (x / 2 ^ lo) mod 2 ^ w.

(** ** Segment descriptors *)
Record segdesc := Segdesc {
  lim_15_0 : Z; base_15_0 : Z; base_23_16 : Z; sd_type : Z; sd_s : Z; sd_dpl : Z; sd_p : Z;
  lim_19_16 : Z; sd_avl : Z; sd_rsv1 : Z; sd_db : Z; sd_g : Z; base_31_24 : Z }.
Definition seg0 : segdesc := Segdesc 0 0 0 0 0 0 0 0 0 0 0 0 0.
#[export] Instance segdesc_inhabited : Inhabited segdesc := populate seg0.
Definition STA_X : Z := 0x8.
Definition STA_W : Z := 0x2.
Definition STA_R : Z := 0x2.
Definition STS_T32A : Z := 0x9.
Definition STS_IG32 : Z := 0xE.
Definition STS_TG32 : Z := 0xF.
Definition SEG (type base lim dpl : Z) : segdesc :=
  Segdesc (Z.land (Z.shiftr lim 12) 0xffff) (Z.land base 0xffff)
    (Z.land (Z.shiftr base 16) 0xff) type 1 dpl 1
    (Z.shiftr lim 28) 0 0 1 1 (Z.shiftr base 24).
Definition SEG16 (type base lim dpl : Z) : segdesc :=
  Segdesc (Z.land lim 0xffff) (Z.land base 0xffff)
    (Z.land (Z.shiftr base 16) 0xff) type 1 dpl 1
    (Z.shiftr lim 16) 0 0 1 0 (Z.shiftr base 24).
Definition seg_bits (d : segdesc) : Z :=
  pack [(16, lim_15_0 d); (16, base_15_0 d); (8, base_23_16 d); (4, sd_type d); (1, sd_s d);
        (2, sd_dpl d); (1, sd_p d); (4, lim_19_16 d); (1, sd_avl d); (1, sd_rsv1 d); (1, sd_db d);
        (1, sd_g d); (8, base_31_24 d)].

(** What the processor reads: base, limit in bytes, type, privilege, present. *)
Definition cpu_base (x : Z) : Z := bits x 16 24 + 2 ^ 24 * bits x 56 8.
Definition cpu_limit (x : Z) : Z :=
  let l := bits x 0 16 + 2 ^ 16 * bits x 48 4 in
  if bits x 55 1 =? 1 then l * 2 ^ 12 + 0xfff else l.
Definition cpu_type (x : Z) : Z := bits x 40 4.
Definition cpu_app (x : Z) : Z := bits x 44 1.
Definition cpu_dpl (x : Z) : Z := bits x 45 2.
Definition cpu_present (x : Z) : Z := bits x 47 1.

(** ** Gate descriptors *)
Record gatedesc := Gatedesc {
  off_15_0 : Z; gd_cs : Z; gd_args : Z; gd_rsv1 : Z; gd_type : Z; gd_s : Z; gd_dpl : Z; gd_p : Z;
  off_31_16 : Z }.
Definition gate0 : gatedesc := Gatedesc 0 0 0 0 0 0 0 0 0.
#[export] Instance gatedesc_inhabited : Inhabited gatedesc := populate gate0.
Definition SETGATE (istrap : bool) (sel off d : Z) : gatedesc :=
  Gatedesc (Z.land off 0xffff) sel 0 0 (if istrap then STS_TG32 else STS_IG32) 0 d 1
    (Z.shiftr off 16).
Definition gate_bits (x : gatedesc) : Z :=
  pack [(16, off_15_0 x); (16, gd_cs x); (5, gd_args x); (3, gd_rsv1 x); (4, gd_type x); (1, gd_s x);
        (2, gd_dpl x); (1, gd_p x); (16, off_31_16 x)].
Definition cpu_handler (x : Z) : Z := bits x 0 16 + 2 ^ 16 * bits x 48 16.
Definition cpu_selector (x : Z) : Z := bits x 16 16.

(** A field of packed bits is what was put into it. *)
Lemma pack_pos l : Forall (λ p, 0 <= p.1) l → 0 <= pack l.
Proof.
  induction 1 as [|[w v] l Hw _ IH]; simpl in *; [done|].
  pose proof (Z.mod_pos_bound v (2 ^ w)). pose proof (Z.pow_pos_nonneg 2 w). nia.
Qed.
Lemma bits_pack l1 w v l2 :
  Forall (λ p, 0 <= p.1) l1 → 0 <= w →
  bits (pack (l1 ++ (w, v) :: l2)) (foldr (λ p, Z.add p.1) 0 l1) w = v mod 2 ^ w.
Proof.
  intros Hl Hw. unfold bits. induction Hl as [|[w1 v1] l1 Hw1 Hl IH]; simpl in *.
  - rewrite Z.div_1_r, (Z.mul_comm (2 ^ w)), Z.mod_add by lia. by rewrite Z.mod_mod by lia.
  - assert (0 <= foldr (λ p : Z * Z, Z.add p.1) 0 l1) as Hs.
    { clear -Hl. induction Hl as [|? ? H1 _ IH]; simpl; lia. }
    rewrite Z.pow_add_r by lia. rewrite <- Z.div_div by lia.
    rewrite (Z.mul_comm (2 ^ w1)), Z.div_add by lia.
    rewrite (Z.div_small (v1 mod 2 ^ w1)) by (apply Z.mod_pos_bound; lia). simpl. done.
Qed.
