(* ===== verification/Mp.v ===== *)
(** * Mp: mp.c and mp.h, the search for the other processors

    The state [bootst] of the code that runs once at start-up: the kernel's
    state and the variables only this code uses.  mpinit finds the BIOS's
    configuration table in memory and fills cpus, ncpu, ioapicid and lapic. *)

From S2P Require Import Prelude Memory Kstate Spinlock Cprintf Io.

(** ** The state of the start-up code *)

Record bootst := Boot {
  bk : kst;
  b_lapic : Z;                    (* lapic.c: volatile uint *lapic *)
  b_ioapic : Z;                   (* ioapic.c: volatile struct ioapic *ioapic *)
  b_ioapicid : Z;                 (* mp.c: uchar ioapicid *)
  b_gdt : list (list segdesc);    (* cpus[i].gdt *)
  b_idt : list gatedesc;          (* trap.c: idt *)
  b_gdtr : Z * Z;                 (* limit and base, as lgdt and lidt load them *)
  b_idtr : Z * Z}.
#[export] Instance set_bk : Setter bk := λ g r,
  Boot (g (bk r)) (b_lapic r) (b_ioapic r) (b_ioapicid r) (b_gdt r) (b_idt r) (b_gdtr r) (b_idtr r).
#[export] Instance set_b_lapic : Setter b_lapic := λ g r,
  Boot (bk r) (g (b_lapic r)) (b_ioapic r) (b_ioapicid r) (b_gdt r) (b_idt r) (b_gdtr r) (b_idtr r).
#[export] Instance set_b_ioapic : Setter b_ioapic := λ g r,
  Boot (bk r) (b_lapic r) (g (b_ioapic r)) (b_ioapicid r) (b_gdt r) (b_idt r) (b_gdtr r) (b_idtr r).
#[export] Instance set_b_ioapicid : Setter b_ioapicid := λ g r,
  Boot (bk r) (b_lapic r) (b_ioapic r) (g (b_ioapicid r)) (b_gdt r) (b_idt r) (b_gdtr r) (b_idtr r).
#[export] Instance set_b_gdt : Setter b_gdt := λ g r,
  Boot (bk r) (b_lapic r) (b_ioapic r) (b_ioapicid r) (g (b_gdt r)) (b_idt r) (b_gdtr r) (b_idtr r).
#[export] Instance set_b_idt : Setter b_idt := λ g r,
  Boot (bk r) (b_lapic r) (b_ioapic r) (b_ioapicid r) (b_gdt r) (g (b_idt r)) (b_gdtr r) (b_idtr r).
#[export] Instance set_b_gdtr : Setter b_gdtr := λ g r,
  Boot (bk r) (b_lapic r) (b_ioapic r) (b_ioapicid r) (b_gdt r) (b_idt r) (g (b_gdtr r)) (b_idtr r).
#[export] Instance set_b_idtr : Setter b_idtr := λ g r,
  Boot (bk r) (b_lapic r) (b_ioapic r) (b_ioapicid r) (b_gdt r) (b_idt r) (b_gdtr r) (g (b_idtr r)).

(** The start-up code also waits for another processor to start. *)
Inductive boot_wait : Set := W_kernel (w : wait_reason) | W_started (c : nat).
Abbreviation BM := (HM boot_wait bootst).

(** A function of the kernel called from the start-up code. *)
Definition kern {A} (m : KM A) : BM A := lift W_kernel bk (λ s b, b <| bk := s |>) m.
Definition getb {A} (f : bootst → A) : BM A := gets (λ h, f (h_s h)).
Definition modb (f : bootst → bootst) : BM unit := modify (λ h, H (f (h_s h)) (h_io h)).

(** ** mp.h *)

Record mp := Mp {
  mp_signature : list Z; mp_physaddr : Z; mp_length : Z; mp_specrev : Z; mp_checksum : Z;
  mp_type : Z; mp_imcrp : Z; mp_reserved : list Z }.
Definition sizeof_mp : Z := 16.
Definition mp_at (m : mem) (p : Z) : mp :=
  Mp (load_bytes m p 4) (load32 m (p + 4)) (m (p + 8)) (m (p + 9)) (m (p + 10)) (m (p + 11))
    (m (p + 12)) (load_bytes m (p + 13) 3).

Record mpconf := Mpconf {
  pc_signature : list Z; pc_length : Z; pc_version : Z; pc_checksum : Z; pc_product : list Z;
  pc_oemtable : Z; pc_oemlength : Z; pc_entry : Z; pc_lapicaddr : Z; pc_xlength : Z;
  pc_xchecksum : Z; pc_reserved : Z }.
Definition sizeof_mpconf : Z := 44.
Definition mpconf_at (m : mem) (p : Z) : mpconf :=
  Mpconf (load_bytes m p 4) (load16 m (p + 4)) (m (p + 6)) (m (p + 7)) (load_bytes m (p + 8) 20)
    (load32 m (p + 28)) (load16 m (p + 32)) (load16 m (p + 34)) (load32 m (p + 36))
    (load16 m (p + 40)) (m (p + 42)) (m (p + 43)).

Record mpproc := Mpproc {
  mpp_type : Z; mpp_apicid : Z; mpp_version : Z; mpp_flags : Z; mpp_signature : list Z;
  mpp_feature : Z; mpp_reserved : list Z }.
Definition sizeof_mpproc : Z := 20.
Definition mpproc_at (m : mem) (p : Z) : mpproc :=
  Mpproc (m p) (m (p + 1)) (m (p + 2)) (m (p + 3)) (load_bytes m (p + 4) 4) (load32 m (p + 8))
    (load_bytes m (p + 12) 8).

Record mpioapic := Mpioapic {
  mpi_type : Z; mpi_apicno : Z; mpi_version : Z; mpi_flags : Z; mpi_addr : Z }.
Definition sizeof_mpioapic : Z := 8.
Definition mpioapic_at (m : mem) (p : Z) : mpioapic :=
  Mpioapic (m p) (m (p + 1)) (m (p + 2)) (m (p + 3)) (load32 m (p + 4)).

Definition MPPROC : Z := 0x00.
Definition MPBUS : Z := 0x01.
Definition MPIOAPIC : Z := 0x02.
Definition MPIOINTR : Z := 0x03.
Definition MPLINTR : Z := 0x04.

(** ** mp.c *)

Fixpoint sum_loop (len : nat) (m : mem) (addr sum : Z) : Z :=
  match len with
  | O => sum
  | S len' => sum_loop len' m (addr + 1) (sum + m addr)
  end.
Definition sum (m : mem) (addr len : Z) : Z := u8 (sum_loop (Z.to_nat len) m addr 0).

(** [memcmp(p, s, n) == 0] for a string constant of [n] characters *)
Definition mem_is (m : mem) (p : Z) (s : list Z) : bool :=
  bool_decide (load_bytes m p (length s) = s).

Fixpoint mpsearch1_loop (fuel : nat) (m : mem) (p e : Z) : KM Z :=
  match fuel with
  | O => out_of_fuel
  | S fuel' =>
    if negb (p <? e) then mret 0 else
    if mem_is m p (str "_MP_") && (sum m p sizeof_mp =? 0) then mret p else
    mpsearch1_loop fuel' m (p +u sizeof_mp) e
  end.
Definition mpsearch1 (a len : Z) : KM Z :=
  m ← get_mem;
  let addr := P2V a in
  let e := addr +u len in
  mpsearch1_loop (S (Z.to_nat (len / sizeof_mp) + 1)) m addr e.

Definition mpsearch : KM Z :=
  m ← get_mem;
  let bda := P2V 0x400 in
  let p := Z.shiftl (Z.lor (Z.shiftl (m (bda + 0x0F)) 8) (m (bda + 0x0E))) 4 in
  mp ← (if ctrue p then mpsearch1 p 1024
        else let p := Z.lor (Z.shiftl (m (bda + 0x14)) 8) (m (bda + 0x13)) * 1024 in
             mpsearch1 (p -u 1024) 1024);
  if ctrue mp then mret mp else mpsearch1 0xF0000 0x10000.

(** conf and *pmp *)
Definition mpconfig : KM (Z * Z) :=
  mp ← mpsearch;
  m ← get_mem;
  if negb (ctrue mp) || (mp_physaddr (mp_at m mp) =? 0) then mret (0, 0) else
  let conf := P2V (mp_physaddr (mp_at m mp)) in
  let c := mpconf_at m conf in
  if negb (mem_is m conf (str "PCMP")) then mret (0, 0) else
  if negb (pc_version c =? 1) && negb (pc_version c =? 4) then mret (0, 0) else
  if negb (sum m conf (pc_length c) =? 0) then mret (0, 0) else
  mret (conf, mp).

Section mpinit.
Context `{Devices}.

(** [lapic = a]: from here on lapicid reads the processor's ID register, which
    does not change. *)
Definition set_lapic (a : Z) : BM unit :=
  io ← gets h_io;
  modb (λ b, b <| b_lapic := a |>) ;;
  kern (modm (λ m, m <| m_lapic := if ctrue a then Some (u32 (dev_load io (a + 0x20))) else None |>)).

(** The loop over the entries; the default case leaves the switch, not the
    loop, and does not advance [p]. *)
Fixpoint mpinit_loop (fuel : nat) (p e ismp : Z) : BM Z :=
  match fuel with
  | O => out_of_fuel
  | S fuel' =>
    if negb (p <? e) then mret ismp else
    m ← kern get_mem;
    let t := m p in
    if t =? MPPROC then
      let proc := mpproc_at m p in
      ncpu ← getb (λ b, m_ncpu (km (bk b)));
      when (ncpu <? NCPU)%nat (
        kern (mod_cpu ncpu (λ c, c <| c_apicid := mpp_apicid proc |>)) ;;
        kern (modm (λ m, m <| m_ncpu := S (m_ncpu m) |>))) ;;
      mpinit_loop fuel' (p +u sizeof_mpproc) e ismp
    else if t =? MPIOAPIC then
      let ioapic := mpioapic_at m p in
      modb (λ b, b <| b_ioapicid := mpi_apicno ioapic |>) ;;
      mpinit_loop fuel' (p +u sizeof_mpioapic) e ismp
    else if (t =? MPBUS) || (t =? MPIOINTR) || (t =? MPLINTR) then
      mpinit_loop fuel' (p +u 8) e ismp
    else mpinit_loop fuel' p e 0
  end.

Definition mpinit : BM unit :=
  r ← kern mpconfig;
  let '(conf, mp) := r in
  if negb (ctrue conf) then panic "Expect to run on an SMP" else
  m ← kern get_mem;
  let c := mpconf_at m conf in
  set_lapic (pc_lapicaddr c) ;;
  ismp ← with_fuel (λ fuel, mpinit_loop fuel (conf +u sizeof_mpconf) (conf +u pc_length c) 1);
  if negb (ctrue ismp) then panic "Didn't find a suitable machine" else
  m ← kern get_mem;
  when (ctrue (mp_imcrp (mp_at m mp))) (
    outb 0x22 0x70 ;;
    v ← inb 0x23;
    outb 0x23 (Z.lor v 1)).
End mpinit.

(** ** The search

    mpsearch returns the first of the places it looks at that has the signature
    and the checksum. *)

Definition mp_here (m : mem) (p : Z) : bool := mem_is m p (str "_MP_") && (sum m p sizeof_mp =? 0).
(** Every 16th of the [len] bytes at the physical address [a]. *)
Definition places (a len : Z) : list Z := (λ i, P2V a + sizeof_mp * i) <$> seqZ 0 (len / sizeof_mp).
Definition bda16 (m : mem) (o : Z) : Z := load16 m (P2V 0x400 + o).
(** The first KB of the EBDA, or the last KB of base memory, then the BIOS. *)
Definition mp_places (m : mem) : list Z :=
  (if ctrue (bda16 m 0x0E) then places (bda16 m 0x0E * 16) 1024
   else places (bda16 m 0x13 * 1024 -u 1024) 1024) ++ places 0xF0000 0x10000.

Lemma mpsearch1_loop_done n s m k : ∀ p fuel,
  (k < fuel)%nat → 0 < p → p + sizeof_mp * Z.of_nat k < 2 ^ 32 →
  mpsearch1_loop fuel m p (p + sizeof_mp * Z.of_nat k) n s
  = Done (default 0 (List.find (mp_here m) ((λ i, p + sizeof_mp * i) <$> seqZ 0 (Z.of_nat k)))) s.
Proof.
  unfold sizeof_mp. induction k as [|k IH]; intros p [|fuel] Hf Hp He; try lia; cbn [mpsearch1_loop].
  - by rewrite (proj2 (Z.ltb_ge _ _)) by lia.
  - rewrite (proj2 (Z.ltb_lt _ _)) by lia. cbn [negb].
    rewrite seqZ_cons by lia. cbn [fmap list_fmap List.find].
    replace (p + 16 * 0) with p by lia. unfold mp_here at 1.
    destruct (_ && _); [done|]. unfold sizeof_mp. rewrite u32_small by lia.
    replace (p + 16 * Z.of_nat (S k)) with (p + 16 + 16 * Z.of_nat k) by lia.
    rewrite IH by lia. do 2 f_equal. replace (Z.pred (Z.of_nat (S k))) with (Z.of_nat k) by lia.
    f_equal. rewrite <- (fmap_add_seqZ 1 0), <- list_fmap_compose. apply list_fmap_ext. intros; simpl; lia.
Qed.

Lemma mpsearch1_done n mm d a len :
  0 < P2V a → P2V a + len < 2 ^ 32 → 0 <= len → len mod sizeof_mp = 0 →
  mpsearch1 a len n (K mm d)
  = Done (default 0 (List.find (mp_here (mm_mem (d_mm d))) (places a len))) (K mm d).
Proof.
  intros Ha He Hl Hm. unfold mpsearch1, get_mem. rewrite bind_getd. cbv zeta. rewrite u32_small by lia. unfold places.
  assert (len = sizeof_mp * Z.of_nat (Z.to_nat (len / sizeof_mp))) as Hd.
  { rewrite Z2Nat.id by (apply Z.div_pos; unfold sizeof_mp; lia).
    rewrite (Z.div_mod len sizeof_mp) at 1 by done. lia. }
  replace (P2V a + len) with (P2V a + sizeof_mp * Z.of_nat (Z.to_nat (len / sizeof_mp))) by lia.
  rewrite mpsearch1_loop_done by lia.
  rewrite Z2Nat.id; [done|]. apply Z.div_pos; unfold sizeof_mp; lia.
Qed.

Lemma find_pos {f : Z → bool} {l p} : List.find f l = Some p → p ∈ l.
Proof. intros Hf. apply list_elem_of_In. by eapply List.find_some. Qed.
Lemma find_app {A} (f : A → bool) l1 l2 :
  List.find f (l1 ++ l2) = match List.find f l1 with Some p => Some p | None => List.find f l2 end.
Proof. induction l1 as [|a l1 IH]; simpl; [done|]. by destruct (f a). Qed.
Lemma places_pos a len p : 0 < P2V a → p ∈ places a len → 0 < p.
Proof.
  intros Ha [i [-> Hi%elem_of_seqZ]]%list_elem_of_fmap. unfold sizeof_mp. lia.
Qed.

Lemma bda_word m o :
  mem_ok m → Z.lor (Z.shiftl (m (P2V 0x400 + (o + 1))) 8) (m (P2V 0x400 + o)) = bda16 m o.
Proof.
  intros Hm. pose proof (Hm (P2V 0x400 + o)). unfold bda16, load16.
  rewrite Z.shiftl_mul_pow2, lor_high_low by lia.
  replace (P2V 0x400 + (o + 1)) with (P2V 0x400 + o + 1) by lia. lia.
Qed.

Lemma mpsearch_done n mm d :
  mem_ok (mm_mem (d_mm d)) →
  mpsearch n (K mm d)
  = Done (default 0 (List.find (mp_here (mm_mem (d_mm d))) (mp_places (mm_mem (d_mm d))))) (K mm d).
Proof.
  intros Hm. unfold mpsearch, mp_places. set (m := mm_mem (d_mm d)) in *. krun. fold m.
  change (m (P2V 1024 + 15)) with (m (P2V 0x400 + (0x0E + 1))).
  change (m (P2V 1024 + 20)) with (m (P2V 0x400 + (0x13 + 1))).
  rewrite !bda_word by done.
  assert (∀ o, 0 <= bda16 m o < 2 ^ 16) as Hb.
  { intros o. unfold bda16, load16. pose proof (Hm (P2V 0x400 + o)). pose proof (Hm (P2V 0x400 + o + 1)). lia. }
  pose proof (Hb 0x0E). pose proof (Hb 0x13).
  rewrite Z.shiftl_mul_pow2 by lia. change (2 ^ 4) with 16.
  set (a := if ctrue (bda16 m 14) then bda16 m 14 * 16 else bda16 m 19 * 1024 -u 1024).
  assert (0 < P2V a ∧ P2V a + 1024 < 2 ^ 32) as [Ha1 Ha2].
  { subst a. unfold P2V, KERNBASE, u32, ctrue. destruct (bda16 m 14 =? 0); cbn [negb].
    - rewrite Zplus_mod_idemp_l. destruct (decide (bda16 m 19 = 0)) as [->|]; [done|].
      rewrite Z.mod_small by lia. lia.
    - rewrite Z.mod_small by lia. lia. }
  assert (∀ f : KM Z, f n (K mm d) = Done (default 0 (List.find (mp_here m) (places a 1024))) (K mm d) →
    (mp ← f; if ctrue mp then mret mp else mpsearch1 0xF0000 0x10000) n (K mm d)
    = Done (default 0 (List.find (mp_here m) (places a 1024 ++ places 0xF0000 0x10000))) (K mm d)) as Hk.
  { intros f Hf. rewrite (bind_done _ _ _ _ _ _ Hf). rewrite find_app.
    destruct (List.find _ (places a 1024)) as [p|] eqn:E; cbn [from_option].
    - unfold id. rewrite ctrue_ne; [done|]. pose proof (places_pos a 1024 p Ha1 (find_pos E)). lia.
    - exact (mpsearch1_done n mm d 0xF0000 0x10000 eq_refl eq_refl ltac:(lia) eq_refl). }
  subst a. unfold ctrue in *. destruct (bda16 m 14 =? 0) eqn:E14; cbn [negb] in *.
  - apply Z.eqb_eq in E14. rewrite E14. apply Hk. by apply mpsearch1_done.
  - rewrite (proj2 (Z.eqb_neq (bda16 m 14 * 16) 0)) by (apply Z.eqb_neq in E14; lia).
    apply Hk. by apply mpsearch1_done.
Qed.

(** ** The table *)

(** An entry and its bytes: [rest] is what mpinit does not look at. *)
Inductive mpentry : Set :=
| En_proc (apicid : Z) (rest : list Z)
| En_ioapic (apicno : Z) (rest : list Z)
| En_other (type : Z) (rest : list Z).
Definition entry_bytes (x : mpentry) : list Z :=
  match x with
  | En_proc i r => MPPROC :: i :: r
  | En_ioapic i r => MPIOAPIC :: i :: r
  | En_other t r => t :: r
  end.
Definition entry_ok (x : mpentry) : Prop :=
  match x with
  | En_proc _ r => length r = 18%nat
  | En_ioapic _ r => length r = 6%nat
  | En_other t r => t ∈ [MPBUS; MPIOINTR; MPLINTR] ∧ length r = 7%nat
  end.
Definition table_bytes (es : list mpentry) : list Z := es ≫= entry_bytes.
Definition proc_ids (es : list mpentry) : list Z :=
  omap (λ x, match x with En_proc i _ => Some i | _ => None end) es.
Definition ioapic_ids (es : list mpentry) : list Z :=
  omap (λ x, match x with En_ioapic i _ => Some i | _ => None end) es.
Definition mem_has (m : mem) (a : Z) (l : list Z) : Prop := load_bytes m a (length l) = l.

(** The processors with their ids, as many as cpus[] has room for. *)
Fixpoint set_ids (ids : list Z) (cs : list cpu) : list cpu :=
  match ids, cs with
  | i :: ids', c :: cs' => c <| c_apicid := i |> :: set_ids ids' cs'
  | _, _ => cs
  end.
(** The variables that mpinit sets. *)
Definition mp_upd (cs : list cpu) (ncpu : nat) (ioapicid : Z) (b : bootst) : bootst :=
  b <| bk := bk b <| km := km (bk b) <| m_cpus := cs |> <| m_ncpu := ncpu |> |> |>
    <| b_ioapicid := ioapicid |>.
#[global] Arguments mp_upd : simpl never.
Definition b_cpus (b : bootst) : list cpu := m_cpus (km (bk b)).
Definition b_ncpu (b : bootst) : nat := m_ncpu (km (bk b)).
(** What the entries make of the state. *)
Definition mp_result (es : list mpentry) (b : bootst) : bootst :=
  mp_upd (take (b_ncpu b) (b_cpus b) ++ set_ids (proc_ids es) (drop (b_ncpu b) (b_cpus b)))
    (Nat.min (b_ncpu b + length (proc_ids es)) NCPU)
    (default (b_ioapicid b) (last (ioapic_ids es))) b.

Definition boot_mem (b : bootst) : mem := mm_mem (d_mm (kd (bk b))).

Lemma mem_has_cons m a x l : mem_has m a (x :: l) → m a = x ∧ mem_has m (a + 1) l.
Proof. unfold mem_has. simpl. intros [= Hx Hl]. done. Qed.
Lemma mem_has_app m a l1 l2 :
  mem_has m a (l1 ++ l2) → mem_has m a l1 ∧ mem_has m (a + Z.of_nat (length l1)) l2.
Proof.
  revert a. induction l1 as [|x l1 IH]; intros a; simpl.
  - intros Hl. split; [done|]. by rewrite Z.add_0_r.
  - intros [Hx Hl]%mem_has_cons. apply IH in Hl as [H1 H2]. split.
    + unfold mem_has in *. simpl. by rewrite Hx, H1.
    + by replace (a + Z.of_nat (S (length l1))) with (a + 1 + Z.of_nat (length l1)) by lia.
Qed.

Lemma set_ids_nil cs : set_ids [] cs = cs.
Proof. by destruct cs. Qed.
Lemma set_ids_length ids cs : length (set_ids ids cs) = length cs.
Proof. revert cs. induction ids as [|i ids IH]; intros [|c cs]; simpl; auto. Qed.
(** The id of the next processor. *)
Lemma set_ids_one i k cs :
  alter (λ c, c <| c_apicid := i |>) k cs = take k cs ++ set_ids [i] (drop k cs).
Proof.
  revert k. induction cs as [|c cs IH]; intros [|k]; simpl; try done. f_equal. apply IH.
Qed.
Lemma set_ids_more i ids k cs :
  take (S k) (take k cs ++ set_ids [i] (drop k cs))
    ++ set_ids ids (drop (S k) (take k cs ++ set_ids [i] (drop k cs)))
  = take k cs ++ set_ids (i :: ids) (drop k cs).
Proof.
  revert k. induction cs as [|c cs IH]; intros [|k]; simpl; try by destruct ids. by rewrite IH.
Qed.
Lemma set_ids_full ids k cs : (length cs <= k)%nat → take k cs ++ set_ids ids (drop k cs) = cs.
Proof. intros. rewrite drop_ge, take_ge by done. destruct ids; simpl; apply app_nil_r. Qed.

Lemma set_ids_apicid ids cs :
  c_apicid <$> take (Nat.min (length ids) (length cs)) (set_ids ids cs) = take (length cs) ids.
Proof. revert cs. induction ids as [|i ids IH]; intros [|c cs]; simpl; try done. by rewrite IH. Qed.

Definition mp_ok (b : bootst) : Prop := (b_ncpu b <= NCPU)%nat ∧ length (b_cpus b) = NCPU.
Lemma mp_result_ok es b : mp_ok b → mp_ok (mp_result es b).
Proof.
  intros [Hk Hl]. unfold mp_ok, b_ncpu, b_cpus, mp_result, mp_upd in *. simpl. split; [lia|].
  rewrite length_app, length_take, set_ids_length, length_drop. unfold b_ncpu, b_cpus. lia.
Qed.
Lemma mp_result_cons x es b : mp_ok b → mp_result es (mp_result [x] b) = mp_result (x :: es) b.
Proof.
  intros [Hk Hl]. set (b' := mp_result [x] b). unfold mp_result.
  match goal with |- mp_upd ?p ?q ?r b' = _ => change (mp_upd p q r b') with (mp_upd p q r b) end.
  change (b_cpus b')
    with (take (b_ncpu b) (b_cpus b) ++ set_ids (proc_ids [x]) (drop (b_ncpu b) (b_cpus b))).
  change (b_ncpu b') with (Nat.min (b_ncpu b + length (proc_ids [x])) NCPU).
  change (b_ioapicid b') with (default (b_ioapicid b) (last (ioapic_ids [x]))).
  generalize dependent (b_cpus b). generalize dependent (b_ncpu b). intros k Hk cs Hl.
  destruct x as [i r|i r|t r].
  - change (proc_ids (En_proc i r :: es)) with (i :: proc_ids es).
    change (proc_ids [En_proc i r]) with [i]. change (ioapic_ids (En_proc i r :: es)) with (ioapic_ids es).
    cbn [length]. f_equal; [|lia]. destruct (decide (k = NCPU)) as [->|].
    + rewrite !set_ids_full; rewrite ?set_ids_full by lia; try done; lia.
    + rewrite Nat.min_l by lia. replace (k + 1)%nat with (S k) by lia. apply set_ids_more.
  - simpl. rewrite take_drop, Nat.add_0_r, (Nat.min_l k) by lia. f_equal.
    destruct (ioapic_ids es) as [|j l] eqn:E; [done|]. rewrite last_cons_cons.
    by destruct (last_is_Some (j :: l)) as [_ [y ->]].
  - simpl. by rewrite take_drop, Nat.add_0_r, (Nat.min_l k) by lia.
Qed.

Section mploop.
Context `{Devices}.
Implicit Types (b : bootst) (h : list access).

Lemma kern_done {A} (m : KM A) n b h a s' :
  m n (bk b) = Done a s' → kern m n (Io.H b h) = Done a (Io.H (b <| bk := s' |>) h).
Proof. intros Hm. exact (lift_done W_kernel bk (λ s b, b <| bk := s |>) m n b h a s' Hm). Qed.

(** One entry. *)
Lemma mpinit_loop_entry fuel n b h x p e ismp :
  entry_ok x → mem_has (boot_mem b) p (entry_bytes x) → 0 <= p → e < 2 ^ 32 →
  p + Z.of_nat (length (entry_bytes x)) <= e → mp_ok b →
  mpinit_loop (S fuel) p e ismp n (Io.H b h)
  = mpinit_loop fuel (p + Z.of_nat (length (entry_bytes x))) e ismp n (Io.H (mp_result [x] b) h).
Proof.
  intros Hx Hm Hp He2 Hpe [Hk Hl]. cbn [mpinit_loop].
  rewrite (proj2 (Z.ltb_lt p e)) by (destruct x; simpl in Hpe; lia). cbn [negb].
  erewrite bind_done by by apply kern_done. cbv zeta. fold (boot_mem b).
  replace (b <| bk := bk b |>) with b by by destruct b.
  destruct x as [i r|i r|t r]; cbn [entry_bytes entry_ok] in *.
  - apply mem_has_cons in Hm as [Ht [Hi _]%mem_has_cons]. rewrite Ht. cbn [Z.eqb MPPROC].
    cbn [mpproc_at mpp_apicid]. rewrite Hi. simpl length in *. rewrite Hx in *.
    unfold sizeof_mpproc. rewrite u32_small by lia. change (Z.of_nat 20) with 20.
    assert (mp_result [En_proc i r] b = mp_upd (alter (λ c, c <| c_apicid := i |>) (b_ncpu b) (b_cpus b))
      (Nat.min (b_ncpu b + 1) NCPU) (b_ioapicid b) b) as -> by (rewrite set_ids_one; done).
    destruct b as [[[ef cr la' cs nc lk] d] la ioa ioid gdt idt gr ir]. unfold b_ncpu, b_cpus in *. simpl in Hk, Hl.
    unfold mp_upd, mbind, M_bind, getb, gets. simpl. destruct (nc <? NCPU)%nat eqn:E; simpl.
    + apply Nat.ltb_lt in E. rewrite Nat.min_l by lia. by replace (nc + 1)%nat with (S nc) by lia.
    + apply Nat.ltb_ge in E. rewrite Nat.min_r by lia. assert (alter (λ c, c <| c_apicid := i |>) nc cs = cs) as Ha by (rewrite set_ids_one; apply set_ids_full; lia).
      simpl in Ha. rewrite Ha. by replace nc with NCPU by lia.
  - apply mem_has_cons in Hm as [Ht [Hi _]%mem_has_cons]. rewrite Ht. cbn [Z.eqb MPPROC MPIOAPIC].
    cbn [mpioapic_at mpi_apicno]. rewrite Hi. simpl length in *. rewrite Hx in *.
    unfold sizeof_mpioapic. rewrite u32_small by lia. change (Z.of_nat 8) with 8.
    assert (mp_result [En_ioapic i r] b = b <| b_ioapicid := i |>) as ->; [|done].
    destruct b as [[[ef cr la' cs nc lk] d] la ioa ioid gdt idt gr ir]. unfold mp_result, mp_upd, b_ncpu, b_cpus in *.
    simpl in *. by rewrite take_drop, Nat.add_0_r, Nat.min_l by lia.
  - destruct Hx as [Hx Hr]. apply mem_has_cons in Hm as [Ht _]. rewrite Ht. simpl length in *. rewrite Hr in *.
    assert (mp_result [En_other t r] b = b) as ->.
    { destruct b as [[[ef cr la' cs nc lk] d] la ioa ioid gdt idt gr ir]. unfold mp_result, mp_upd, b_ncpu, b_cpus in *.
      simpl in *. by rewrite take_drop, Nat.add_0_r, Nat.min_l by lia. }
    rewrite !elem_of_cons in Hx. change (Z.of_nat 8) with 8 in *.
    destruct Hx as [->|[->|[->|[]%elem_of_nil]]]; simpl; by rewrite u32_small by lia.
Qed.

Lemma mpinit_loop_done es : ∀ fuel n b h p ismp,
  Forall entry_ok es → mem_has (boot_mem b) p (table_bytes es) → 0 <= p →
  p + Z.of_nat (length (table_bytes es)) < 2 ^ 32 → mp_ok b → (length es < fuel)%nat →
  mpinit_loop fuel p (p + Z.of_nat (length (table_bytes es))) ismp n (Io.H b h)
  = Done ismp (Io.H (mp_result es b) h).
Proof.
  induction es as [|x es IH]; intros [|fuel] n b h p ismp Hes Hm Hp He Hb Hf; simpl in Hf; try lia.
  - simpl. rewrite Z.add_0_r, Z.ltb_irrefl. simpl. do 2 f_equal.
    destruct b as [[[ef cr la' cs nc lk] d] la ioa ioid gdt idt gr ir], Hb as [Hk Hl].
    unfold mp_result, mp_upd, b_ncpu, b_cpus in *. simpl in *. by rewrite take_drop, Nat.add_0_r, Nat.min_l by lia.
  - inversion_clear Hes as [|? ? Hx Hes']. change (table_bytes (x :: es)) with (entry_bytes x ++ table_bytes es) in *. apply mem_has_app in Hm as [Hm1 Hm2].
    rewrite length_app in He |- *. rewrite (mpinit_loop_entry fuel n b h x) by (done || lia).
    rewrite Nat2Z.inj_add, Z.add_assoc. rewrite IH; try done; try lia; [|by apply mp_result_ok].
    by rewrite mp_result_cons.
Qed.

(** An entry of another type: the loop stays where it is. *)
Lemma mpinit_loop_stuck fuel : ∀ n b h p e ismp,
  5 <= boot_mem b p → p < e → mpinit_loop fuel p e ismp n (Io.H b h) = NoFuel.
Proof.
  induction fuel as [|fuel IH]; intros n b h p e ismp Ht Hp; [done|]. cbn [mpinit_loop].
  rewrite (proj2 (Z.ltb_lt p e)) by done. cbn [negb]. erewrite bind_done by by apply kern_done. cbv zeta.
  fold (boot_mem b). replace (b <| bk := bk b |>) with b by by destruct b.
  assert (∀ t, t <= 4 → (boot_mem b p =? t) = false) as Hn by (intros; apply Z.eqb_neq; lia).
  rewrite !Hn by done. simpl. by apply IH.
Qed.
Lemma mpinit_loop_unknown es : ∀ fuel n b h p e ismp,
  Forall entry_ok es → mem_has (boot_mem b) p (table_bytes es) → 0 <= p → e < 2 ^ 32 →
  p + Z.of_nat (length (table_bytes es)) < e → mp_ok b →
  5 <= boot_mem b (p + Z.of_nat (length (table_bytes es))) →
  mpinit_loop fuel p e ismp n (Io.H b h) = NoFuel.
Proof.
  induction es as [|x es IH]; intros [|fuel] n b h p e ismp Hes Hm Hp He Hpe Hb Ht; try done.
  - simpl in Hpe, Ht. rewrite Z.add_0_r in *. by apply mpinit_loop_stuck.
  - inversion_clear Hes as [|? ? Hx Hes']. change (table_bytes (x :: es)) with (entry_bytes x ++ table_bytes es) in *. apply mem_has_app in Hm as [Hm1 Hm2].
    rewrite length_app in *. rewrite (mpinit_loop_entry fuel n b h x) by (done || lia).
    rewrite Nat2Z.inj_add, Z.add_assoc in *. apply IH; try done; try lia. by apply mp_result_ok.
Qed.
End mploop.

(** ** mpinit *)

Definition conf_ok (m : mem) (conf : Z) : bool :=
  let c := mpconf_at m conf in
  mem_is m conf (str "PCMP") && ((pc_version c =? 1) || (pc_version c =? 4))
  && (sum m conf (pc_length c) =? 0).
(** The table, and the structure that points to it. *)
Definition mp_conf (m : mem) : option (Z * Z) :=
  p ← List.find (mp_here m) (mp_places m);
  let a := mp_physaddr (mp_at m p) in
  if ctrue a && ctrue (P2V a) && conf_ok m (P2V a) then Some (P2V a, p) else None.

Lemma mp_places_pos m p : mem_ok m → p ∈ mp_places m → 0 < p.
Proof.
  intros Hm. unfold mp_places. rewrite elem_of_app.
  assert (∀ o, 0 <= bda16 m o < 2 ^ 16) as Hb.
  { intros o. unfold bda16, load16. pose proof (Hm (P2V 0x400 + o)). pose proof (Hm (P2V 0x400 + o + 1)). lia. }
  pose proof (Hb 0x0E). pose proof (Hb 0x13).
  intros [Hp|Hp]; [|eapply (places_pos 0xF0000); [reflexivity|exact Hp]].
  unfold ctrue in Hp. destruct (bda16 m 14 =? 0); cbn [negb] in Hp; eapply places_pos; try exact Hp;
    unfold P2V, KERNBASE, u32.
  - rewrite Zplus_mod_idemp_l. destruct (decide (bda16 m 19 = 0)) as [->|]; [done|].
    rewrite Z.mod_small by lia. lia.
  - rewrite Z.mod_small by lia. lia.
Qed.

Lemma mpconfig_done n mm d :
  let m := mm_mem (d_mm d) in
  mem_ok m → ∃ r, mpconfig n (K mm d) = Done r (K mm d)
    ∧ match mp_conf m with Some cp => r = cp ∧ r.1 ≠ 0 | None => r.1 = 0 end.
Proof.
  intros m Hm. unfold mpconfig, mp_conf. rewrite (bind_done _ _ _ _ _ _ (mpsearch_done n mm d Hm)).
  unfold get_mem. rewrite bind_getd. fold m.
  destruct (List.find (mp_here m) (mp_places m)) as [p|] eqn:E; cbn [from_option mbind option_bind].
  2:{ simpl. by eexists. }
  unfold id. pose proof (mp_places_pos m p Hm (find_pos E)). unfold ctrue.
  rewrite (proj2 (Z.eqb_neq p 0)) by lia. cbn [negb orb].
  destruct (mp_physaddr (mp_at m p) =? 0) eqn:Ea; cbn [negb andb]; [by eexists|].
  set (conf := P2V (mp_physaddr (mp_at m p))). unfold conf_ok.
  destruct (mem_is m conf _), (pc_version (mpconf_at m conf) =? 1), (pc_version (mpconf_at m conf) =? 4),
    (sum m conf _ =? 0); cbn [negb andb orb]; rewrite ?andb_true_r, ?andb_false_r; try by eexists.
  all: destruct (conf =? 0) eqn:Ec; eexists; (split; [done|]); simpl; by apply Z.eqb_eq || apply Z.eqb_neq in Ec.
Qed.

Section mpspec.
Context `{Devices}.
Implicit Types (b : bootst) (h : list access).

(** The table holds the entries [es], all of known types. *)
Record mp_table (m : mem) (conf : Z) (es : list mpentry) : Prop := {
  mt_entries : Forall entry_ok es;
  mt_bytes : mem_has m (conf + sizeof_mpconf) (table_bytes es);
  mt_length : pc_length (mpconf_at m conf) = sizeof_mpconf + Z.of_nat (length (table_bytes es));
  mt_range : 0 <= conf ∧ conf + pc_length (mpconf_at m conf) < 2 ^ 32 }.

Definition with_lapic (h : list access) (a : Z) (b : bootst) : bootst :=
  b <| b_lapic := a |> <| bk := bk b <| km := km (bk b) <| m_lapic :=
    if ctrue a then Some (u32 (dev_load h (a + 0x20))) else None |> |> |>.
(** Masking the external interrupts in the IMCR. *)
Definition imcr (h : list access) : list access :=
  let v := u8 (dev_in (Out 0x22 0x70 :: h) 0x23) in
  Out 0x23 (u8 (Z.lor v 1)) :: In 0x23 v :: Out 0x22 0x70 :: h.

Lemma mpinit_loop_at n b h conf mp_ m :
  m = boot_mem b → mem_ok m → mp_conf m = Some (conf, mp_) →
  mpinit n (Io.H b h)
  = (ismp ← with_fuel (λ fuel, mpinit_loop fuel (conf +u sizeof_mpconf)
              (conf +u pc_length (mpconf_at m conf)) 1);
     if negb (ctrue ismp) then panic "Didn't find a suitable machine" else
     m ← kern get_mem;
     when (ctrue (mp_imcrp (mp_at m mp_))) (outb 0x22 0x70 ;; v ← inb 0x23; outb 0x23 (Z.lor v 1)))
    n (Io.H (with_lapic h (pc_lapicaddr (mpconf_at m conf)) b) h).
Proof.
  intros -> Hm Hc. unfold mpinit. destruct b as [[mm d] la ioa ioid gdt idt gr ir].
  destruct (mpconfig_done n mm d Hm) as [r [Hr Hr2]]. unfold boot_mem in Hc. simpl in Hc. rewrite Hc in Hr2.
  destruct Hr2 as [-> Hne]. erewrite bind_done by (apply kern_done; exact Hr).
  cbn [fst] in Hne. cbv beta iota. rewrite (ctrue_ne _ Hne). cbn [negb].
  erewrite bind_done by by apply kern_done. reflexivity.
Qed.

(** C30: mpinit looks for the floating pointer structure where the code does: in
    the first KB of the EBDA or, without one, the last KB of base memory, and then
    from 0xF0000 to 0xFFFFF (not from 0xE0000, as the comment in mp.c says).  Without a
    valid configuration table it panics; with one whose entries are all of the types it knows, it returns after at most as many rounds as
    there are entries, and has found the local APIC's address, the I/O APIC's
    id and the ids of the processors in the order of the table, as many as
    there is room for in cpus; the rest of the kernel's data is as before. *)
Theorem mpinit_spec n b h :
  let m := boot_mem b in
  mem_ok m → mp_ok b → b_ncpu b = 0%nat →
  match mp_conf m with
  | None => mpinit n (Io.H b h) = Panic "Expect to run on an SMP"
  | Some (conf, p) =>
    ∀ es, mp_table m conf es → (length es < n)%nat →
    ∃ b', mpinit n (Io.H b h) = Done tt (Io.H b' (if ctrue (mp_imcrp (mp_at m p)) then imcr h else h))
      ∧ b_lapic b' = pc_lapicaddr (mpconf_at m conf)
      ∧ b_ioapicid b' = default (b_ioapicid b) (last (ioapic_ids es))
      ∧ b_ncpu b' = Nat.min (length (proc_ids es)) NCPU
      ∧ (c_apicid <$> take (b_ncpu b') (b_cpus b')) = take NCPU (proc_ids es)
      ∧ kd (bk b') = kd (bk b)
  end.
Proof.
  intros m Hm Hb Hz. destruct (mp_conf m) as [[conf p]|] eqn:Hc.
  - intros es [Hes Hby Hlen [Hr0 Hr]] Hn. rewrite (mpinit_loop_at n b h conf p m) by done.
    set (b1 := with_lapic _ _ b). unfold sizeof_mpconf in *.
    unfold with_fuel. rewrite !u32_small by lia. rewrite Hlen, Z.add_assoc.
    erewrite bind_done by (apply mpinit_loop_done; try done; lia).
    exists (mp_result es b1). cbv beta. cbn [negb ctrue Z.eqb]. erewrite bind_done by by apply kern_done. cbv beta.
    change (mm_mem (d_mm (kd (bk (mp_result es b1))))) with m.
    replace (mp_result es b1 <| bk := bk (mp_result es b1) |>) with (mp_result es b1) by done.
    split; [by destruct (ctrue _)|]. split; [done|]. split; [done|]. split; [|split; [|done]].
    + change (b_ncpu (mp_result es b1)) with (Nat.min (b_ncpu b + length (proc_ids es)) NCPU). by rewrite Hz.
    + change (b_ncpu (mp_result es b1)) with (Nat.min (b_ncpu b + length (proc_ids es)) NCPU).
      change (b_cpus (mp_result es b1)) with (take (b_ncpu b) (b_cpus b) ++ set_ids (proc_ids es) (drop (b_ncpu b) (b_cpus b))).
      rewrite Hz. simpl. rewrite drop_0. destruct Hb as [_ <-]. apply set_ids_apicid.
  - unfold mpinit. destruct b as [[mm d] la ioa ioid gdt idt gr ir].
    destruct (mpconfig_done n mm d Hm) as [[c p] [Hr Hr2]]. unfold m, boot_mem in Hc. simpl in Hc. rewrite Hc in Hr2.
    erewrite bind_done by (apply kern_done; exact Hr). simpl in Hr2. by rewrite Hr2.
Qed.

(** mpinit never returns when the table has an entry of a type it does not
    know, however many rounds its loop is given: the default case of the switch
    leaves the switch and not the loop, and the pointer stays at the entry.
    The panic after the loop, which the case sets ismp for, is not reached. *)
Theorem mpinit_unknown_entry n b h m conf p es :
  m = boot_mem b → mem_ok m → mp_ok b → mp_conf m = Some (conf, p) →
  Forall entry_ok es → mem_has m (conf + sizeof_mpconf) (table_bytes es) →
  sizeof_mpconf + Z.of_nat (length (table_bytes es)) < pc_length (mpconf_at m conf) →
  0 <= conf → conf + pc_length (mpconf_at m conf) < 2 ^ 32 →
  5 <= m (conf + sizeof_mpconf + Z.of_nat (length (table_bytes es))) →
  mpinit n (Io.H b h) = NoFuel.
Proof.
  intros -> Hm Hb Hc Hes Hby Hlen Hr0 Hr Ht. rewrite (mpinit_loop_at n b h conf p _ eq_refl Hm Hc).
  set (b1 := with_lapic _ _ b). unfold sizeof_mpconf in *. unfold with_fuel, mbind, M_bind.
  rewrite !u32_small by lia. rewrite (mpinit_loop_unknown es); try done; lia.
Qed.
End mpspec.

(** A machine with two processors (ids 0 and 3) and an I/O APIC (id 5): the
    floating pointer is the second place in the BIOS, the table is at 0x1000. *)
Definition demo_entries : list mpentry :=
  [En_proc 0 (replicate 18 0); En_other MPBUS (replicate 7 1); En_proc 3 (replicate 18 0);
   En_ioapic 5 (replicate 6 0)].
Definition demo_conf (n : Z) (es : list Z) : list Z :=
  let l := str "PCMP" ++ [44 + n; 0; 4] in
  let r := replicate 20 32 ++ replicate 8 0 ++ [0; 0; 0xE0; 0xFE] ++ replicate 4 0 ++ es in
  l ++ [u8 (- (foldr Z.add 0 (l ++ r)))] ++ r.
Definition demo_mp : list Z :=
  let l := str "_MP_" ++ [0; 0x10; 0; 0; 1; 4] in
  l ++ [u8 (- (foldr Z.add 0 l + 0x80)); 0; 0x80; 0; 0; 0].
Definition demo_mem (n : Z) (es : list Z) : mem :=
  store_bytes (store_bytes (λ _, 0) (P2V 0xF0010) demo_mp) (P2V 0x1000) (demo_conf n es).
Definition demo_boot (m : mem) : bootst :=
  Boot (K (Mach 0 0 None (replicate NCPU inhabitant) 0 ∅) (zero_data (Image 0 0 0 0 []) m (λ _ _, [])))
    0 0 0 [] [] (0, 0) (0, 0).
Definition dev0 : Devices := {| dev_in := λ _ _, 0; dev_insl := λ _ _ _, []; dev_load := λ _ _, 0 |}.

Lemma demo_mem_ok n es : mem_ok (demo_mem n es).
Proof. unfold demo_mem. do 2 apply store_bytes_ok. intros a. lia. Qed.

Lemma mpinit_spec_witness :
  ∃ b', @mpinit dev0 5%nat (H (demo_boot (demo_mem 56 (table_bytes demo_entries))) [])
        = Done tt (H b' (@imcr dev0 [])) ∧ c_apicid <$> take (b_ncpu b') (b_cpus b') = [0; 3].
Proof.
  set (m := demo_mem 56 (table_bytes demo_entries)).
  assert (mp_conf m = Some (P2V 0x1000, P2V 0xF0010)) as Hc by (vm_compute; reflexivity).
  pose proof (@mpinit_spec dev0 5%nat (demo_boot m) [] (demo_mem_ok _ _)) as Hs.
  change (boot_mem (demo_boot m)) with m in Hs. rewrite Hc in Hs.
  destruct (Hs ltac:(split; [apply Nat.le_0_l | reflexivity]) eq_refl demo_entries) as (b' & Hd & _ & _ & _ & Hi & _).
  - split.
    + repeat (constructor; [first [reflexivity | split; [constructor | reflexivity]] | ]). constructor.
    + vm_compute; reflexivity.
    + vm_compute; reflexivity.
    + split; vm_compute; congruence.
  - simpl. lia.
  - exists b'. split; [exact Hd | exact Hi].
Defined.

Lemma mpinit_unknown_entry_witness :
  @mpinit dev0 1000%nat (H (demo_boot (demo_mem 9 [MPBUS; 0; 0; 0; 0; 0; 0; 0; 5])) []) = NoFuel.
Proof.
  apply (@mpinit_unknown_entry dev0 1000%nat (demo_boot (demo_mem 9 [MPBUS; 0; 0; 0; 0; 0; 0; 0; 5])) [] _ (P2V 0x1000) (P2V 0xF0010) [En_other MPBUS (replicate 7 0)]
    eq_refl (demo_mem_ok _ _)).
  - split; [apply Nat.le_0_l | reflexivity].
  - vm_compute; reflexivity.
  - constructor; [|constructor]. split; [constructor | reflexivity].
  - vm_compute; reflexivity.
  - vm_compute; reflexivity.
  - vm_compute; discriminate.
  - vm_compute; reflexivity.
  - vm_compute; discriminate.
Defined.
