(* ===== verification/Ide.v ===== *)
(** * Ide: the two disk drivers, ide.c and memide.c

    The registers of the IDE controller are not modelled one by one: a command
    that idestart issues reads or writes one block of one of the two disks, and
    the data of a read is there when the interrupt comes.  IdePorts translates
    ide.c access by access, with the waiting for the controller and its error
    status, and proves that it refines this driver; ideinit, with its polling and
    the interrupt it enables, is in Boot. *)

From S2P Require Import Prelude Memory Kstate Spinlock Kalloc Cprintf Vm Sched Sleeplock Bio.

Definition get_ide {A} (f : idest → A) : KM A := getd (λ d, f (d_ide d)).
Definition mod_ide (f : idest → idest) : KM unit := modd (λ d, d <| d_ide := f (d_ide d) |>).
(** One block written to a disk. *)
Definition disk_write (dev b : Z) (data : list Z) (x : idest) : idest :=
  x <| ide_disk := λ dv bn, if (dv =? dev) && (bn =? b) then data else ide_disk x dv bn |>
    <| ide_writes := ide_writes x ++ [(dev, b, data)] |>.
Definition bvalid_only (flags : Z) : bool := Z.land flags (Z.lor B_VALID B_DIRTY) =? B_VALID.

(** ** ide.c *)
Module ide.

(** The drive is selected by the low bit of the device number. *)
Definition idestart (b : option nat) : KM unit :=
  match b with
  | None => panic "idestart"
  | Some b =>
    x ← get_buf b;
    if b_blockno x >=? FSSIZE then panic "incorrect blockno" else
    let sector_per_block := BSIZE / 512 in
    let sector := b_blockno x * sector_per_block in
    if sector_per_block >? 7 then panic "idestart" else
    if ctrue (Z.land (b_flags x) B_DIRTY)
    then mod_ide (disk_write (Z.land (b_dev x) 1) sector (b_data x))
    else mret tt
  end.

(** What IdePorts.ports.ideintr does when the controller ends a command
    without an error (idewait(1) >= 0): [insl] delivers the block that the
    command of idestart asked for. *)
Definition ideintr : KM unit :=
  acquire L_ide ;;
  q ← get_ide ide_queue;
  match q with
  | None => release L_ide
  | Some b =>
    x ← get_buf b;
    mod_ide (λ i, i <| ide_queue := b_qnext x |>) ;;
    disk ← get_ide ide_disk;
    when (negb (ctrue (Z.land (b_flags x) B_DIRTY)))
      (mod_buf b (λ x, x <| b_data := disk (Z.land (b_dev x) 1) (b_blockno x) |>)) ;;
    mod_buf b (λ x, x <| b_flags := Z.lor (b_flags x) B_VALID |>) ;;
    mod_buf b (λ x, x <| b_flags := Z.land (b_flags x) (Z.lnot B_DIRTY) |>) ;;
    wakeup (Ch_buf b) ;;
    q ← get_ide ide_queue;
    when (bool_decide (q ≠ None)) (idestart q) ;;
    release L_ide
  end.

(** To the end of the queue that starts at [b], and there [new] is appended. *)
Fixpoint queue_append (fuel : nat) (b new : nat) : KM unit :=
  match fuel with
  | O => out_of_fuel
  | S fuel' =>
    x ← get_buf b;
    match b_qnext x with
    | None => mod_buf b (λ x, x <| b_qnext := Some new |>)
    | Some b' => queue_append fuel' b' new
    end
  end.
(** [while((b->flags & (B_VALID|B_DIRTY)) != B_VALID) sleep(b, &idelock);] *)
Fixpoint iderw_wait (fuel : nat) (b : nat) : KM unit :=
  match fuel with
  | O => out_of_fuel
  | S fuel' =>
    x ← get_buf b;
    if negb (bvalid_only (b_flags x)) then sleep (Ch_buf b) (Some L_ide) ;; iderw_wait fuel' b
    else mret tt
  end.

Definition iderw (b : nat) : KM unit :=
  h ← holdingsleep (SL_buf b);
  if negb (h : bool) then panic "iderw: buf not locked" else
  x ← get_buf b;
  if bvalid_only (b_flags x) then panic "iderw: nothing to do" else
  hd1 ← get_ide ide_havedisk1;
  if negb (b_dev x =? 0) && negb (ctrue hd1) then panic "iderw: ide disk 1 not present" else
  acquire L_ide ;;
  mod_buf b (λ x, x <| b_qnext := None |>) ;;
  q ← get_ide ide_queue;
  match q with
  | None => mod_ide (λ i, i <| ide_queue := Some b |>)
  | Some q => queue_append (S NBUF) q b
  end ;;
  q ← get_ide ide_queue;
  when (bool_decide (q = Some b)) (idestart (Some b)) ;;
  with_fuel (λ fuel, iderw_wait fuel b) ;;
  release L_ide.

#[export] Instance disk : Disk := {| Bio.iderw := iderw; Bio.ideintr := ideintr |}.
End ide.

(** ** memide.c: the disk image is part of the kernel *)
Module memide.

(** [size] is the size of the image in bytes. *)
Definition ideinit (size : Z) : KM unit :=
  mod_ide (λ x, x <| ide_disksize := size / BSIZE |>).
Definition ideintr : KM unit := mret tt.

Definition iderw (b : nat) : KM unit :=
  h ← holdingsleep (SL_buf b);
  if negb (h : bool) then panic "iderw: buf not locked" else
  x ← get_buf b;
  if bvalid_only (b_flags x) then panic "iderw: nothing to do" else
  if negb (b_dev x =? 1) then panic "iderw: request not for disk 1" else
  size ← get_ide ide_disksize;
  if b_blockno x >=? size then panic "iderw: block out of range" else
  disk ← get_ide ide_disk;
  (if ctrue (Z.land (b_flags x) B_DIRTY) then
     mod_buf b (λ x, x <| b_flags := Z.land (b_flags x) (Z.lnot B_DIRTY) |>) ;;
     mod_ide (disk_write 1 (b_blockno x) (b_data x))
   else mod_buf b (λ y, y <| b_data := disk 1 (b_blockno x) |>)) ;;
  mod_buf b (λ x, x <| b_flags := Z.lor (b_flags x) B_VALID |>).

#[export] Instance disk : Disk := {| Bio.iderw := iderw; Bio.ideintr := ideintr |}.
End memide.
