(* ===== verification/IdeFacts.v ===== *)
(** * IdeFacts: the two disk drivers keep the promise of [DiskLaw]

    memide.c never waits.  ide.c puts the buffer in its queue, starts the disk
    and sleeps; the disk's interrupt handler, run while the process sleeps,
    completes the request and wakes the process. *)

From S2P Require Import Prelude Memory Kstate Spinlock Kalloc Cprintf Vm Sched SchedFacts Sleeplock.
From S2P Require Import Bio BioRing BioFacts Ide.

(** ** The disk *)

Lemma wrote_one d d' b l :
  d_ide d' = disk_write ROOTDEV b l (d_ide d) → wrote [(b, l)] d d'.
Proof.
  intros E. split; rewrite ?E; [done|]. intros k. unfold disk_of, bupd. rewrite E. simpl. unfold bupd.
  by destruct (k =? b).
Qed.
Lemma bvalid_only_spec x : flags_ok x → bvalid_only (b_flags x) = bool_decide (b_flags x = B_VALID).
Proof. intros [E|[E|E]]; rewrite E; done. Qed.
Lemma needs_work x : flags_ok x → b_flags x ≠ B_VALID → b_flags x = if is_dirty x then Z.lor B_VALID B_DIRTY else 0.
Proof. unfold is_dirty. intros [E|[E|E]] H; rewrite E in *; done. Qed.

(** ** memide.c *)

Lemma memide_iderw_done p n m d b x l :
  fs_thread p m d → FSSIZE <= ide_disksize (d_ide d) → (b < NBUF)%nat → d_bufs d !! b = Some x →
  d_sl d !! SL_buf b = Some l → slk_locked l ≠ 0 →
  flags_ok x → b_flags x ≠ B_VALID → b_dev x = ROOTDEV → 0 <= b_blockno x < FSSIZE →
  ∃ d', memide.iderw b n (K m d) = Done tt (K m d') ∧ synced b x d d'
    ∧ ide_disksize (d_ide d') = ide_disksize (d_ide d) ∧ d_procs d' = d_procs d.
Proof.
  intros Ht Hrd Hb Hx Hl Hl1 Hf Hnv Hdev Hbn. unfold memide.iderw.
  rewrite (bind_done _ _ _ _ _ _ (holdingsleep_done p n m (SL_buf b) Hb d l Ht Hl)).
  rewrite (ctrue_ne _ Hl1). cbn [negb]. rewrite (get_buf_bind n m d b x _ Hx).
  rewrite (bvalid_only_spec x Hf), bool_decide_eq_false_2, Hdev by done. cbn [Z.eqb Pos.eqb negb ROOTDEV].
  unfold get_ide. rewrite bind_getd.
  assert ((b_blockno x >=? ide_disksize (d_ide d)) = false) as -> by (rewrite Z.geb_leb; lia).
  rewrite bind_getd. pose proof (needs_work x Hf Hnv) as Hfl.
  assert (ctrue (Z.land (b_flags x) B_DIRTY) = is_dirty x) as -> by done.
  destruct (is_dirty x) eqn:Ed; unfold mod_buf, mod_ide.
  - rewrite (bind_done _ _ _ _ tt (K m (d <| d_bufs := <[b := x <| b_flags := B_VALID |>]> (d_bufs d) |>
        <| d_ide := disk_write 1 (b_blockno x) (b_data x) (d_ide d) |>))).
    2:{ rewrite bind_modd, modd_done, (list_alter_insert_at _ _ _ _ Hx), Hfl. done. }
    rewrite modd_done. eexists. split; [done|]. split; [|split; done].
    split; [by split | split; [done|]]. exists (x <| b_flags := B_VALID |>). rewrite Ed.
    split_and!; try done; simpl; try by apply wrote_one.
    rewrite (list_alter_insert_at _ _ _ (x <| b_flags := B_VALID |>)), list_insert_insert_eq; [done|].
    apply list_lookup_insert_eq. by eapply lookup_lt_Some.
  - rewrite bind_modd, modd_done. simpl. rewrite list_alter_alter_eq, (list_alter_insert_at _ _ _ _ Hx).
    eexists. split; [done|]. split; [|split; done]. split; [by split | split; [done|]].
    eexists. split; [done|]. rewrite Ed. unfold compose. simpl. rewrite Hfl.
    split_and!; try done. by apply wrote_nil.
Qed.

Definition memide_ready (d : kdata) : Prop := FSSIZE <= ide_disksize (d_ide d).
Lemma memide_iderw_wp p R n m d b x l :
  (2 <= n)%nat → fs_thread p m d → memide_ready d → (b < NBUF)%nat → d_bufs d !! b = Some x →
  d_sl d !! SL_buf b = Some l → slk_locked l ≠ 0 →
  flags_ok x → b_flags x ≠ B_VALID → b_dev x = ROOTDEV → 0 <= b_blockno x < FSSIZE →
  wp R (memide.iderw b n (K m d)) (λ _ s', ∃ m' d', s' = K m' d' ∧ fs_thread p m' d' ∧ memide_ready d' ∧ synced b x d d').
Proof.
  intros _ Ht Hrd Hb Hx Hl Hl1 Hf Hnv Hdev Hbn.
  destruct (memide_iderw_done p n m d b x l) as (d' & Hrun & Hsy & Hsz & Hps); try done.
  rewrite Hrun. simpl. exists m, d'. split_and!; try done.
  - eapply fs_thread_data; [done | unfold pdirs; by rewrite Hps].
  - unfold memide_ready. by rewrite Hsz.
Qed.
#[export] Instance memide_law p R : @DiskLaw memide.disk p R.
Proof.
  refine (@Build_DiskLaw memide.disk p R memide_ready _ (memide_iderw_wp p R)).
  intros d d' E. unfold memide_ready. by rewrite E.
Defined.

(** ** ide.c *)

Definition ide_ready (d : kdata) : Prop := ide_havedisk1 (d_ide d) ≠ 0 ∧ ide_queue (d_ide d) = None.

Definition running (q : proc) : proc := q <| p_state := RUNNING |>.
(** How the sleep of process [p] in iderw ends: the disk's interrupt handler
    runs on some CPU, and a scheduler then switches back to the process. *)
Definition ide_answers (p : nat) (w : wait_reason) (s s' : kst) : Prop :=
  w = W_sched ∧ ∃ m d n mi i c d1 m',
    s = K (acq L_ptable m) d
    ∧ mach_ok mi i c ∧ lk_free mi L_ide ∧ lk_free mi L_ptable
    ∧ ide.ideintr n (K mi d) = Done tt (K mi d1)
    ∧ s' = K (acq L_ptable m') (d1 <| d_procs := alter running p (d_procs d1) |>) ∧ fs_thread p m' d1.

(** The request at the head of the queue, completed. *)
Definition completed (disk : blocks) (x : buf) : buf :=
  (if is_dirty x then x else x <| b_data := disk (b_blockno x) |>) <| b_flags := B_VALID |>.

Lemma ideintr_done n m d i c b x :
  mach_ok m i c → lk_free m L_ide → lk_free m L_ptable → length (d_procs d) = NPROC →
  ide_queue (d_ide d) = Some b → d_bufs d !! b = Some x → b_qnext x = None →
  flags_ok x → b_flags x ≠ B_VALID → b_dev x = ROOTDEV →
  ide.ideintr n (K m d) = Done tt (K m
    (d <| d_bufs := <[b := completed (disk_of d) x]> (d_bufs d) |>
       <| d_ide := d_ide d <| ide_queue := None |> |>
       <| d_procs := wake (Some (Ch_buf b)) <$> d_procs d |>)).
Proof.
  intros Hok Hi Hp Hlen Hq Hx Hqn Hf Hnv Hdev. pose proof (needs_work x Hf Hnv) as Hfl.
  unfold ide.ideintr. rewrite (bind_done _ _ _ _ _ _ (acquire_done n m d i c _ Hok Hi)).
  unfold get_ide, mod_ide. rewrite bind_getd, Hq, (get_buf_bind n _ d b x _ Hx), bind_modd, bind_getd.
  set (d1 := set_field d_ide _ d).
  assert (ctrue (Z.land (b_flags x) B_DIRTY) = is_dirty x) as -> by done.
  rewrite (bind_done _ _ _ _ tt (K (acq L_ide m)
    (d1 <| d_bufs := <[b := if is_dirty x then x else x <| b_data := disk_of d (b_blockno x) |>]> (d_bufs d) |>))).
  2:{ destruct (is_dirty x); cbn [negb when].
      - rewrite mret_done, list_insert_id by done. by destruct d.
      - unfold mod_buf. rewrite modd_done. change (d_bufs d1) with (d_bufs d).
        rewrite (list_alter_insert_at _ _ _ _ Hx), Hdev. done. }
  set (x1 := if is_dirty x then _ else _). assert (Hlt : (b < length (d_bufs d))%nat) by by eapply lookup_lt_Some.
  assert (Hx1 : b_flags x1 = b_flags x) by (unfold x1; by destruct (is_dirty x)).
  rewrite (bind_done _ _ _ _ tt (K (acq L_ide m)
    (d1 <| d_bufs := <[b := x1 <| b_flags := Z.lor (b_flags x) B_VALID |>]> (d_bufs d) |>))).
  2:{ unfold mod_buf. rewrite modd_done. simpl.
      rewrite (list_alter_insert_at _ _ _ x1), list_insert_insert_eq, <- Hx1 by (by apply list_lookup_insert_eq). done. }
  set (d2 := d1 <| d_bufs := <[b := completed (disk_of d) x]> (d_bufs d) |>).
  rewrite (bind_done _ _ _ _ tt (K (acq L_ide m) d2)).
  2:{ unfold mod_buf. rewrite modd_done. simpl.
      rewrite (list_alter_insert_at _ _ _ (x1 <| b_flags := Z.lor (b_flags x) B_VALID |>)), list_insert_insert_eq
        by (by apply list_lookup_insert_eq).
      unfold d2, completed. fold x1. simpl. rewrite Hfl. by destruct (is_dirty x). }
  pose proof (mach_ok_acq L_ide m i c Hok) as Hok'.
  rewrite (bind_done _ _ _ _ _ _ (wakeup_done n _ d2 i _ (Ch_buf b) Hok' (acq_free_other L_ide L_ptable m ltac:(done) Hp) Hlen)).
  rewrite bind_getd. assert (ide_queue (d_ide (d2 <| d_procs := wake (Some (Ch_buf b)) <$> d_procs d2 |>)) = None) as -> by done.
  rewrite bool_decide_eq_false_2 by congruence. cbn [when]. rewrite bind_mret.
  rewrite (release_acq n m _ i c _ Hok Hi). unfold d2, d1. rewrite Hqn. done.
Qed.

Lemma Done_state {W S A} (a a' : A) (s s' : S) : @Done W S A a s = Done a' s' → s' = s.
Proof. by intros [= _ ->]. Qed.

Section ide.
Context (p n : nat) (m : mach) (d : kdata) (b : nat) (x : buf) (l : sleeplock).
Context (Ht : fs_thread p m d) (Hrd : ide_ready d) (Hb : (b < NBUF)%nat) (Hx : d_bufs d !! b = Some x).
Context (Hl : d_sl d !! SL_buf b = Some l) (Hl1 : slk_locked l ≠ 0) (Hf : flags_ok x) (Hnv : b_flags x ≠ B_VALID).
Context (Hdev : b_dev x = ROOTDEV) (Hbn : 0 <= b_blockno x < FSSIZE).

(** The request has been handed to the disk. *)
Let x0 : buf := x <| b_qnext := None |>.
Definition submitted : kdata :=
  d <| d_bufs := <[b := x0]> (d_bufs d) |>
    <| d_ide := (if is_dirty x then disk_write ROOTDEV (b_blockno x) (b_data x) (d_ide d) else d_ide d)
                  <| ide_queue := Some b |> |>.

Lemma ide_submit :
  ide.iderw b n (K m d) = (with_fuel (λ fuel, ide.iderw_wait fuel b) ;; release L_ide) n (K (acq L_ide m) submitted).
Proof.
  destruct Hrd as [Hd1 Hq]. destruct (ft_run _ _ _ Ht) as (i & c & Hr). pose proof (rp_ok _ _ _ _ Hr) as Hok.
  unfold ide.iderw. rewrite (bind_done _ _ _ _ _ _ (holdingsleep_done p n m (SL_buf b) Hb d l Ht Hl)).
  rewrite (ctrue_ne _ Hl1). cbn [negb]. rewrite (get_buf_bind n m d b x _ Hx).
  rewrite (bvalid_only_spec x Hf), bool_decide_eq_false_2, Hdev by done. unfold get_ide. rewrite bind_getd.
  rewrite (ctrue_ne _ Hd1). cbn [negb Z.eqb ROOTDEV andb].
  rewrite (bind_done _ _ _ _ _ _ (acquire_done n m d i c _ Hok (ft_free _ _ _ Ht L_ide I))).
  unfold mod_ide, mod_buf. rewrite bind_modd, (list_alter_insert_at _ _ _ _ Hx). fold x0.
  set (d1 := d <| d_bufs := <[b := x0]> (d_bufs d) |>). rewrite bind_getd.
  change (ide_queue (d_ide d1)) with (ide_queue (d_ide d)). rewrite Hq, bind_modd, bind_getd.
  set (d2 := set_field d_ide _ d1). rewrite bool_decide_eq_true_2 by done. cbn [when].
  assert (Hlt : (b < length (d_bufs d))%nat) by by eapply lookup_lt_Some.
  rewrite (bind_done _ _ _ _ tt (K (acq L_ide m) submitted)); [done|].
  unfold ide.idestart. rewrite (get_buf_bind n _ d2 b x0) by (by apply list_lookup_insert_eq).
  assert ((b_blockno x0 >=? FSSIZE) = false) as -> by (rewrite Z.geb_leb; simpl; lia).
  cbn [Z.gtb]. change (BSIZE / 512) with 1. rewrite Z.mul_1_r.
  change (ctrue (Z.land (b_flags x0) B_DIRTY)) with (is_dirty x). unfold submitted.
  change (b_dev x0) with (b_dev x). rewrite Hdev. destruct (is_dirty x); [|done].
  done.
Qed.

(** The state when iderw returns. *)
Lemma submitted_synced d' :
  d_bufs d' = <[b := completed (disk_of submitted) x0]> (d_bufs d) → d_sl d' = d_sl d →
  d_ide d' = d_ide submitted <| ide_queue := None |> → fs_core d' = fs_core d → synced b x d d'.
Proof.
  intros Hbs Hsl Hide Hcore. split; [by split; [|rewrite Hsl] | split; [done|]].
  eexists. split; [done|]. unfold completed. change (is_dirty x0) with (is_dirty x).
  destruct (is_dirty x) eqn:Ed; split_and!; try done.
  - split; unfold disk_of; rewrite Hide; simpl; rewrite Ed; [done|]. intros k. simpl. unfold bupd. by destruct (k =? _).
  - simpl. unfold disk_of, submitted. by rewrite Ed.
  - split; unfold disk_of; rewrite Hide; simpl; rewrite Ed; [by rewrite app_nil_r | done].
Qed.

Lemma ide_iderw_wp :
  (2 <= n)%nat →
  wp (ide_answers p) (ide.iderw b n (K m d))
    (λ _ s', ∃ m' d', s' = K m' d' ∧ fs_thread p m' d' ∧ ide_ready d' ∧ synced b x d d').
Proof.
  intros Hn. rewrite ide_submit. destruct (ft_run _ _ _ Ht) as (i & c & Hr).
  assert (Hlt : (b < length (d_bufs d))%nat) by by eapply lookup_lt_Some.
  assert (Hx0 : d_bufs submitted !! b = Some x0) by by apply list_lookup_insert_eq.
  assert (Hps : length (d_procs submitted) = NPROC) by apply Ht.
  apply wp_bind. unfold with_fuel. destruct n as [|[|n']]; [lia..|].
  cbn [ide.iderw_wait]. rewrite (get_buf_bind _ _ submitted b x0 _ Hx0).
  rewrite (bvalid_only_spec x0 Hf), bool_decide_eq_false_2 by done. cbn [negb].
  destruct (sleep_blocks (S (S n')) m i c p submitted (Ch_buf b) L_ide) as (k & Hk & Hres);
    [done | by apply Ht | by apply Ht | done | rewrite Hps; apply Ht |].
  rewrite (bind_block _ _ _ _ _ _ _ Hk). cbn [wp]. intros s' (_ & m1 & d1 & n1 & mi & ii & ci & d2 & m' & E1 & Hoki & Hfi & Hfp & Hint & -> & Ht2).
  apply (f_equal kd) in E1. cbn [kd] in E1.
  set (ds := submitted <| d_procs := alter (asleep (Ch_buf b)) p (d_procs submitted) |>) in E1. subst d1.
  rewrite (ideintr_done n1 mi ds ii ci b x0) in Hint; try done.
  2:{ subst ds. simpl. by rewrite length_alter. }
  apply Done_state, (f_equal kd) in Hint. cbn [kd] in Hint. subst d2.
  destruct (ft_run _ _ _ Ht2) as (i' & c' & Hr').
  rewrite (Hres m' i' c' _ Hr' (ft_free _ _ _ Ht2 L_ptable I) (ft_free _ _ _ Ht2 L_ide I)). cbn [comp_bind].
  set (d3 := set_field d_procs _ _). set (x1 := completed (disk_of ds) x0) in d3.
  assert (Hb3 : d_bufs d3 = <[b := x1]> (d_bufs d)) by apply list_insert_insert_eq.
  assert (Hx3 : d_bufs d3 !! b = Some x1) by (rewrite Hb3; by apply list_lookup_insert_eq).
  cbn [ide.iderw_wait]. rewrite (get_buf_bind _ _ d3 b x1 _ Hx3).
  assert (bvalid_only (b_flags x1) = true) as -> by done. cbn [negb wp mret].
  change (wp (ide_answers p) (release L_ide (S (S n')) (K (acq L_ide m') d3))
    (λ _ s', ∃ m' d', s' = K m' d' ∧ fs_thread p m' d' ∧ ide_ready d' ∧ synced b x d d')).
  rewrite (release_acq _ m' d3 i' c' _ (rp_ok _ _ _ _ Hr') (ft_free _ _ _ Ht2 L_ide I)). simpl. exists m', d3.
  assert (Hq3 : quiet <$> d_procs d3 = quiet <$> d_procs d).
  { unfold d3. simpl. rewrite !quiet_alter by done. rewrite quiet_wake. by rewrite quiet_alter. }
  split_and!; [done | | by destruct Hrd; unfold ide_ready; simpl; destruct (is_dirty x) |].
  - eapply fs_thread_data; [exact Ht2|]. apply pdirs_quiet. simpl. by rewrite !quiet_alter.
  - apply submitted_synced; try done. unfold fs_core. simpl in *. rewrite Hq3. done.
Qed.
End ide.

#[export] Instance ide_law p : @DiskLaw ide.disk p (ide_answers p).
Proof.
  refine (@Build_DiskLaw ide.disk p (ide_answers p) ide_ready _
    (λ n m d b x l Hn Ht Hrd Hb Hx Hl Hl1 Hf Hnv Hdev Hbn,
       ide_iderw_wp p n m d b x l Ht Hrd Hb Hx Hl Hl1 Hf Hnv Hdev Hbn Hn)).
  intros d d' E. unfold ide_ready. by rewrite E.
Defined.

(** ide.c's iderw hands a locked buffer to the disk and sleeps until it is done.  It goes to sleep with the request
    queued, the disk started and the lock of the driver free, so that the
    interrupt handler can run; and once the handler has run and the process
    is scheduled again, iderw returns with the buffer valid and clean: a dirty
    buffer's data is on the disk, and otherwise the buffer has the disk's data. *)
Theorem iderw_interrupt p n m d b x l :
  (2 <= n)%nat → fs_thread p m d → ide_ready d → (b < NBUF)%nat → d_bufs d !! b = Some x →
  d_sl d !! SL_buf b = Some l → slk_locked l ≠ 0 →
  flags_ok x → b_flags x ≠ B_VALID → b_dev x = ROOTDEV → 0 <= b_blockno x < FSSIZE →
  (∃ d1 k, ide.iderw b n (K m d) = Block W_sched (K (acq L_ptable m) d1) k
     ∧ ide_queue (d_ide d1) = Some b ∧ lk_free (acq L_ptable m) L_ide
     ∧ p_state (d_procs d1 !!! p) = SLEEPING ∧ p_chan (d_procs d1 !!! p) = Some (Ch_buf b)
     ∧ ∃ s', ide_answers p W_sched (K (acq L_ptable m) d1) s')
  ∧ wp (ide_answers p) (ide.iderw b n (K m d))
      (λ _ s', ∃ m' d', s' = K m' d' ∧ fs_thread p m' d' ∧ ide_ready d' ∧ synced b x d d').
Proof.
  intros Hn Ht Hrd Hb Hx Hl Hl1 Hf Hnv Hdev Hbn. split; [|by eapply ide_iderw_wp].
  rewrite (ide_submit p n m d b x l Ht Hrd Hb Hx Hl Hl1 Hf Hnv Hdev Hbn).
  destruct (ft_run _ _ _ Ht) as (i & c & Hr). set (ds := submitted d b x).
  assert (Hlt : (b < length (d_bufs d))%nat) by by eapply lookup_lt_Some.
  assert (Hx0 : d_bufs ds !! b = Some (x <| b_qnext := None |>)) by by apply list_lookup_insert_eq.
  assert (Hps : length (d_procs ds) = NPROC) by apply Ht. assert (Hp : (p < length (d_procs ds))%nat) by (rewrite Hps; apply Ht).
  unfold with_fuel. destruct n as [|n']; [lia|].
  destruct (sleep_blocks (S n') m i c p ds (Ch_buf b) L_ide) as (k & Hk & Hres);
    [done | by apply Ht | by apply Ht | done | done |].
  set (d1 := ds <| d_procs := alter (asleep (Ch_buf b)) p (d_procs ds) |>) in Hk. eexists d1, _. split_and!.
  - erewrite bind_block; [done|]. cbn [ide.iderw_wait]. rewrite (get_buf_bind _ _ ds b _ _ Hx0).
    change (b_flags (x <| b_qnext := None |>)) with (b_flags x).
    rewrite (bvalid_only_spec x Hf), bool_decide_eq_false_2 by done. cbn [negb].
    by rewrite (bind_block _ _ _ _ _ _ _ Hk).
  - done.
  - apply acq_free_other; [done | by apply Ht].
  - unfold d1. simpl. by rewrite alter_state_lookup.
  - unfold d1. simpl. by rewrite alter_state_lookup.
  - pose proof (rp_ok _ _ _ _ Hr) as Hok. eexists. split; [done|]. do 8 eexists. split_and!; [done | done | by apply Ht | by apply Ht | | done |].
    + apply (ideintr_done 0 m d1 i c b (x <| b_qnext := None |>)); try done; [by apply Ht | by apply Ht|].
      unfold d1. simpl. by rewrite length_alter.
    + eapply fs_thread_data; [exact Ht|]. apply pdirs_quiet. simpl. by rewrite quiet_wake, quiet_alter.
Qed.

(** ** A concrete machine and cache *)

(** The locks of the file system, and a machine on which process 0 runs. *)
Definition fs_locks : list (lockid * string) :=
  [(L_ptable, "ptable"); (L_bcache, "bcache"); (L_log, "log"); (L_icache, "icache"); (L_ide, "ide")]
  ++ ((λ b, (L_sleep (SL_buf b), "sleep lock")) <$> seq 0 NBUF)
  ++ ((λ i, (L_sleep (SL_inode i), "sleep lock")) <$> seq 0 NINODE).
Definition mfs : mach := proc_mach 0 fs_locks <| m_cr3 := V2P 0 |>.

Lemma list_locks_free (lks : list (lockid * string)) lk :
  lk ∈ lks.*1 →
  ∃ nm, (list_to_map ((λ p, (p.1, Spinlock 0 p.2 None)) <$> lks) : gmap lockid spinlock) !! lk = Some (Spinlock 0 nm None).
Proof.
  induction lks as [|[lk' nm] lks IH]; simpl; [by intros ?%not_elem_of_nil|].
  intros Hin. destruct (decide (lk = lk')) as [->|Hne]; [exists nm; apply lookup_insert_eq|].
  rewrite lookup_insert_ne by congruence. apply IH. apply elem_of_cons in Hin as [?|?]; done.
Qed.
Lemma fs_locks_all lk : fs_lock lk → lk ∈ fs_locks.*1.
Proof.
  assert (Hb : ∀ b, (b < NBUF)%nat → L_sleep (SL_buf b) ∈ fs_locks.*1).
  { intros b Hb. unfold fs_locks. rewrite !fmap_app, !elem_of_app. right. left.
    rewrite <- list_fmap_compose. apply list_elem_of_fmap. exists b. split; [done|]. apply elem_of_seq. lia. }
  assert (Hi : ∀ i, (i < NINODE)%nat → L_sleep (SL_inode i) ∈ fs_locks.*1).
  { intros i Hi. unfold fs_locks. rewrite !fmap_app, !elem_of_app. right. right.
    rewrite <- list_fmap_compose. apply list_elem_of_fmap. exists i. split; [done|]. apply elem_of_seq. lia. }
  destruct lk as [| | | | | | | |q|[b|i]]; intros Hlk; try done; auto;
    unfold fs_locks; rewrite fmap_app, elem_of_app; left; cbn [fmap list_fmap fst]; rewrite !elem_of_cons; tauto.
Qed.
Lemma fs_thread_mfs d : pdirs d = replicate NPROC 0 → fs_thread 0 mfs d.
Proof.
  intros Hp. split; [| | | unfold NPROC; lia | by rewrite Hp].
  3:{ apply (f_equal length) in Hp. unfold pdirs in Hp. by rewrite length_fmap, length_replicate in Hp. }
  - exists 0%nat, ct. split; [split|..]; try done. by right.
  - intros lk Hlk. apply list_locks_free, fs_locks_all, Hlk.
Qed.

(** A disk of zeroed blocks, and the kernel's data after binit. *)
Definition zero_block : list Z := replicate (Z.to_nat BSIZE) 0.
Definition dz (disk : blocks) : kdata :=
  let d := zero_data (Image 0 0 0 0 []) (λ _, 0) (λ _, disk) in d <| d_ide := d_ide d <| ide_disksize := FSSIZE |> |>.
Definition state_of {A} (c : kcomp A) (s : kst) : kst := match c with Done _ s' => s' | _ => s end.
Lemma dfs_sig disk : { d | d = kd (state_of (binit 0%nat (K mfs (dz disk))) (K mfs (dz disk))) }.
Proof. eexists. reflexivity. Qed.
Definition dfs (disk : blocks) : kdata := proj1_sig (dfs_sig disk).

Lemma dfs_ok disk :
  (∀ b, is_blk b → length (disk b) = Z.to_nat BSIZE) →
  cache_ok (dfs disk) disk ∅ ∅ ∅ ∧ fs_frame (dz disk) (dfs disk) ∧ d_ide (dfs disk) = d_ide (dz disk)
  ∧ ∀ b x, d_bufs (dfs disk) !! b = Some x → unused x.
Proof.
  intros Hd. destruct (binit_done 0%nat mfs (dz disk)) as (m' & d' & Hrun & Hc & Hf & Hi & Hu).
  - apply length_replicate.
  - intros b x Hx. apply list_elem_of_lookup_2 in Hx. change (d_bufs (dz disk)) with (replicate (S NBUF) buf0) in Hx.
    apply elem_of_replicate in Hx as [-> _]. done.
  - done.
  - unfold dfs. rewrite (proj2_sig (dfs_sig disk)), Hrun. exact (conj Hc (conj Hf (conj Hi Hu))).
Qed.
Lemma fs_ok_dfs R disk :
  (∀ b, is_blk b → length (disk b) = Z.to_nat BSIZE) →
  @fs_ok memide.disk 0 R (memide_law 0 R) mfs (dfs disk) disk ∅ ∅ ∅.
Proof.
  intros Hd. destruct (dfs_ok disk Hd) as (Hc & Hf & Hi & _). split; [|split; [|exact Hc]].
  - apply fs_thread_mfs. by rewrite (fs_frame_pdirs _ _ Hf).
  - simpl. unfold memide_ready. rewrite Hi. simpl. done.
Qed.

(** memide.c: a block is read, changed, written and read again. *)
Lemma cache_refines_disk_witness :
  let os := [Bread 5; Bset 5 (replicate (Z.to_nat BSIZE) 1); Bwrite 5; Brelse 5; Bread 5] in
  wp (λ _ _ _, False) (@run_bops memide.disk ∅ os 2%nat (K mfs (dfs (λ _, zero_block))))
    (λ r _, r.2 = [zero_block; replicate (Z.to_nat BSIZE) 1]).
Proof.
  intros os. set (R := λ _ _ _, False).
  assert (Hc : @client_ok memide.disk 0 R (memide_law 0 R) ∅ (ADisk (λ _, zero_block) ∅ ∅) (K mfs (dfs (λ _, zero_block)))).
  { exists mfs, (dfs (λ _, zero_block)), ∅. split; [reflexivity|]. split.
    - apply fs_ok_dfs. intros b _. apply length_replicate.
    - split; intros k; [intros b|]; rewrite ?lookup_empty; [done|]. split; [set_solver | by intros [? ?]]. }
  eapply wp_mono; [|exact (@cache_refines_disk memide.disk 0 R (memide_law 0 R) 2 ∅ _ _ os
      (ADisk (bupd (λ _, zero_block) 5 (replicate (Z.to_nat BSIZE) 1)) {[5]} ∅) [zero_block; replicate (Z.to_nat BSIZE) 1]
      ltac:(lia) Hc ltac:(by vm_compute))].
  intros r s' [Hr _]. exact Hr.
Defined.

(** ide.c: block 7 is read into buffer 0. *)
Definition xide : buf := buf0 <| b_dev := ROOTDEV |> <| b_blockno := 7 |> <| b_refcnt := 1 |>.
Definition dide : kdata :=
  let d := dz (λ b, replicate (Z.to_nat BSIZE) b) in
  d <| d_bufs := <[0%nat := xide]> (d_bufs d) |> <| d_sl := {[SL_buf 0 := Sleeplock 1 "buffer" 7]} |>
    <| d_ide := d_ide d <| ide_havedisk1 := 1 |> |>.
Lemma iderw_interrupt_witness :
  (∃ d1 k, ide.iderw 0 2%nat (K mfs dide) = Block W_sched (K (acq L_ptable mfs) d1) k)
  ∧ wp (ide_answers 0) (ide.iderw 0 2%nat (K mfs dide))
      (λ _ s', ∃ x', d_bufs (kd s') !! 0%nat = Some x' ∧ b_data x' = replicate (Z.to_nat BSIZE) 7).
Proof.
  destruct (iderw_interrupt 0 2 mfs dide 0 xide (Sleeplock 1 "buffer" 7)) as [(d1 & k & Hb & _) Hw].
  - lia.
  - by apply fs_thread_mfs.
  - by split.
  - unfold NBUF. lia.
  - reflexivity.
  - reflexivity.
  - done.
  - by left.
  - done.
  - done.
  - unfold FSSIZE. simpl. lia.
  - split; [exists d1, k; exact Hb|]. eapply wp_mono; [|exact Hw].
    intros [] s' (m' & d' & -> & _ & _ & _ & _ & x' & Hd' & _ & _ & _ & _ & _ & _ & Hdata).
    exists x'. cbn [kd]. rewrite Hd'. split; [reflexivity | apply Hdata].
Defined.
