(* ===== verification/IdePorts.v ===== *)
(** * IdePorts: ide.c down to the ports of the controller

    Ide models a command of the driver as one step on the disks.  Here idestart,
    ideintr and iderw are translated with every access to the controller's
    ports, for any controller that follows the ATA protocol ([Ata]), and
    proved to refine the definitions of Ide: [abs] reads the contents of the
    disks off the history of accesses, and the two run in lockstep, panics and
    waits included. *)

From S2P Require Import Prelude Memory Kstate Spinlock Kalloc Cprintf Vm Sched Sleeplock Bio Io Ide.
From S2P Require Import Sleeplock BioFacts IdeFacts.

Definition IDE_BSY : Z := 0x80.
Definition IDE_DRDY : Z := 0x40.
Definition IDE_DF : Z := 0x20.
Definition IDE_ERR : Z := 0x01.
Definition IDE_CMD_READ : Z := 0x20.
Definition IDE_CMD_WRITE : Z := 0x30.
Definition IDE_CMD_RDMUL : Z := 0xc4.
Definition IDE_CMD_WRMUL : Z := 0xc5.
Definition SECTOR_SIZE : Z := 512.

Module ports.
Section ports.
Context `{Devices}.

(** [while(((r = inb(0x1f7)) & (IDE_BSY|IDE_DRDY)) != IDE_DRDY);] *)
Fixpoint idewait_loop {W S} (fuel : nat) : HM W S Z :=
  match fuel with
  | O => out_of_fuel
  | S fuel' =>
    r ← inb 0x1f7;
    if negb (Z.land r (Z.lor IDE_BSY IDE_DRDY) =? IDE_DRDY) then idewait_loop fuel' else mret r
  end.
Definition idewait {W S} (checkerr : bool) : HM W S Z :=
  r ← with_fuel idewait_loop;
  if checkerr && ctrue (Z.land r (Z.lor IDE_DF IDE_ERR)) then mret (-1) else mret 0.

(** A kernel function called by the driver. *)
Definition ker {A} (m : KM A) : HM wait_reason kst A := lift id id (λ s _, s) m.

Definition idestart (b : option nat) : HM wait_reason kst unit :=
  match b with
  | None => panic "idestart"
  | Some b =>
    x ← ker (get_buf b);
    if b_blockno x >=? FSSIZE then panic "incorrect blockno" else
    let sector_per_block := BSIZE / SECTOR_SIZE in
    let sector := s32 (b_blockno x * sector_per_block) in
    let read_cmd := if sector_per_block =? 1 then IDE_CMD_READ else IDE_CMD_RDMUL in
    let write_cmd := if sector_per_block =? 1 then IDE_CMD_WRITE else IDE_CMD_WRMUL in
    if sector_per_block >? 7 then panic "idestart" else
    _ ← idewait false;
    outb 0x3f6 0 ;;
    outb 0x1f2 sector_per_block ;;
    outb 0x1f3 (Z.land sector 0xff) ;;
    outb 0x1f4 (Z.land (Z.shiftr sector 8) 0xff) ;;
    outb 0x1f5 (Z.land (Z.shiftr sector 16) 0xff) ;;
    outb 0x1f6 (Z.lor (Z.lor 0xe0 (Z.shiftl (Z.land (b_dev x) 1) 4)) (Z.land (Z.shiftr sector 24) 0x0f)) ;;
    if ctrue (Z.land (b_flags x) B_DIRTY) then
      outb 0x1f7 write_cmd ;;
      outsl 0x1f0 (b_data x)
    else outb 0x1f7 read_cmd
  end.

Definition ideintr : HM wait_reason kst unit :=
  ker (acquire L_ide) ;;
  q ← ker (get_ide ide_queue);
  match q with
  | None => ker (release L_ide)
  | Some b =>
    x ← ker (get_buf b);
    ker (mod_ide (λ i, i <| ide_queue := b_qnext x |>)) ;;
    (if negb (ctrue (Z.land (b_flags x) B_DIRTY)) then
       r ← idewait true;
       if r >=? 0 then
         l ← insl 0x1f0 (Z.to_nat (BSIZE / 4));
         ker (mod_buf b (λ x, x <| b_data := l |>))
       else mret tt
     else mret tt) ;;
    ker (mod_buf b (λ x, x <| b_flags := Z.lor (b_flags x) B_VALID |>)) ;;
    ker (mod_buf b (λ x, x <| b_flags := Z.land (b_flags x) (Z.lnot B_DIRTY) |>)) ;;
    ker (wakeup (Ch_buf b)) ;;
    q ← ker (get_ide ide_queue);
    when (bool_decide (q ≠ None)) (idestart q) ;;
    ker (release L_ide)
  end.

Definition iderw (b : nat) : HM wait_reason kst unit :=
  h ← ker (holdingsleep (SL_buf b));
  if negb (h : bool) then panic "iderw: buf not locked" else
  x ← ker (get_buf b);
  if bvalid_only (b_flags x) then panic "iderw: nothing to do" else
  hd1 ← ker (get_ide ide_havedisk1);
  if negb (b_dev x =? 0) && negb (ctrue hd1) then panic "iderw: ide disk 1 not present" else
  ker (acquire L_ide) ;;
  ker (mod_buf b (λ x, x <| b_qnext := None |>)) ;;
  q ← ker (get_ide ide_queue);
  match q with
  | None => ker (mod_ide (λ i, i <| ide_queue := Some b |>))
  | Some q => ker (ide.queue_append (S NBUF) q b)
  end ;;
  q ← ker (get_ide ide_queue);
  when (bool_decide (q = Some b)) (idestart (Some b)) ;;
  ker (with_fuel (λ fuel, ide.iderw_wait fuel b)) ;;
  ker (release L_ide).
End ports.
End ports.

(** ** The controller

    The registers and the disks after a history of accesses: a command names
    drive, first sector and count by the bytes last written to the ports. *)
Inductive ata_cmd : Set := Ata_read | Ata_write.
Record ata := Atast {
  at_cnt : Z; at_lba0 : Z; at_lba1 : Z; at_lba2 : Z; at_dev : Z;
  at_cmd : option ata_cmd;
  at_disk : Z → Z → list Z;
  at_writes : list (Z * Z * list Z) }.
Definition at_drive (a : ata) : Z := Z.land (Z.shiftr (at_dev a) 4) 1.
Definition at_lba (a : ata) : Z :=
  at_lba0 a + 2 ^ 8 * at_lba1 a + 2 ^ 16 * at_lba2 a + 2 ^ 24 * Z.land (at_dev a) 0x0f.
Definition ata_step (e : access) (a : ata) : ata :=
  let '(Atast c l0 l1 l2 dv cm dk ws) := a in
  match e with
  | Out port v =>
    if port =? 0x1f2 then Atast v l0 l1 l2 dv cm dk ws else
    if port =? 0x1f3 then Atast c v l1 l2 dv cm dk ws else
    if port =? 0x1f4 then Atast c l0 v l2 dv cm dk ws else
    if port =? 0x1f5 then Atast c l0 l1 v dv cm dk ws else
    if port =? 0x1f6 then Atast c l0 l1 l2 v cm dk ws else
    if port =? 0x1f7 then
      Atast c l0 l1 l2 dv (if v =? IDE_CMD_READ then Some Ata_read else
                           if v =? IDE_CMD_WRITE then Some Ata_write else None) dk ws
    else a
  | Outsl port l =>
    match cm with
    | Some Ata_write =>
      if (port =? 0x1f0) && (c =? 1) then
        Atast c l0 l1 l2 dv None
          (λ dr s, if (dr =? at_drive a) && (s =? at_lba a) then l else dk dr s)
          (ws ++ [(at_drive a, at_lba a, l)])
      else a
    | _ => a
    end
  | Insl port _ => if port =? 0x1f0 then Atast c l0 l1 l2 dv None dk ws else a
  | _ => a
  end.
Definition ata_of (disk0 : Z → Z → list Z) (h : list access) : ata :=
  foldr ata_step (Atast 0 0 0 0 0 None disk0 []) h.
Lemma ata_of_cons disk0 e h : ata_of disk0 (e :: h) = ata_step e (ata_of disk0 h).
Proof. done. Qed.
(** Reads of the status register since the last other access. *)
Fixpoint polls (h : list access) : nat :=
  match h with
  | In port _ :: h' => if port =? 0x1f7 then S (polls h') else O
  | _ => O
  end.

(** What the driver relies on: after [busy] reads the status register says
    ready and no error, and the data of a read command of one sector is that
    sector. *)
Class Ata `{Devices} (disk0 : Z → Z → list Z) (busy : nat) := {
  ata_ready h : (busy <= polls h)%nat →
    Z.land (u8 (dev_in h 0x1f7)) (Z.lor IDE_BSY IDE_DRDY) = IDE_DRDY;
  ata_no_error h : Z.land (u8 (dev_in h 0x1f7)) (Z.lor IDE_BSY IDE_DRDY) = IDE_DRDY →
    Z.land (u8 (dev_in h 0x1f7)) (Z.lor IDE_DF IDE_ERR) = 0;
  ata_data h : at_cmd (ata_of disk0 h) = Some Ata_read → at_cnt (ata_of disk0 h) = 1 →
    dev_insl h 0x1f0 512 = at_disk (ata_of disk0 h) (at_drive (ata_of disk0 h)) (at_lba (ata_of disk0 h)) }.

(** ** Two computations in lockstep *)

(** The contents of the disks and the writes to them replaced. *)
Abbreviation disks := ((Z → Z → list Z) * list (Z * Z * list Z))%type.
Definition with_disks (D : disks) (s : kst) : kst :=
  s <| kd := kd s <| d_ide := d_ide (kd s) <| ide_disk := D.1 |> <| ide_writes := D.2 |> |> |>.
(** Block numbers are unsigned. *)
Definition bufs_wf (s : kst) : Prop := Forall (λ x, 0 <= b_blockno x) (d_bufs (kd s)).

(** [c'] does what [c] does, on a state with other disks. *)
Fixpoint natc {A} (D : disks) (c c' : kcomp A) : Prop :=
  match c, c' with
  | Done a s, Done a' s' => a' = a ∧ s' = with_disks D s ∧ bufs_wf s
  | Panic msg, Panic msg' => msg' = msg
  | Undef msg, Undef msg' => msg' = msg
  | NoFuel, NoFuel => True
  | Block w s k, Block w' s' k' =>
    w' = w ∧ s' = with_disks D s ∧ bufs_wf s
    ∧ ∀ s1 D1, bufs_wf s1 → natc D1 (k s1) (k' (with_disks D1 s1))
  | _, _ => False
  end.
(** Code that does not look at the disks. *)
Definition natural {A} (m : KM A) : Prop :=
  ∀ n s D, bufs_wf s → natc D (m n s) (m n (with_disks D s)).

Lemma natc_bind {A B} D (c c' : kcomp A) (f f' : A → kst → kcomp B) :
  natc D c c' → (∀ a s D1, bufs_wf s → natc D1 (f a s) (f' a (with_disks D1 s))) →
  natc D (comp_bind c f) (comp_bind c' f').
Proof.
  intros Hc Hf. revert D c' Hc. induction c as [a s|msg|msg| |w s k IH]; intros D [] Hc; simpl in *; try done.
  - destruct Hc as (-> & -> & Hs). by apply Hf.
  - destruct Hc as (-> & -> & Hs & Hk). repeat split; try done. intros s1 D1 Hs1. apply IH. by apply Hk.
Qed.
Lemma natural_bind {A B} (m : KM A) (f : A → KM B) :
  natural m → (∀ a, natural (f a)) → natural (m ≫= f).
Proof. intros Hm Hf n s D Hs. apply natc_bind; [by apply Hm|]. intros. by apply Hf. Qed.
Lemma natural_ret {A} (a : A) : natural (mret a).
Proof. by intros n s D. Qed.
Lemma natural_panic {A} msg : natural (panic msg : KM A).
Proof. by intros n s D. Qed.
Lemma natural_undef {A} msg : natural (undef msg : KM A).
Proof. by intros n s D. Qed.
Lemma natural_out {A} : natural (out_of_fuel : KM A).
Proof. by intros n s D. Qed.
Lemma natural_gets {A} (f : kst → A) : (∀ D s, f (with_disks D s) = f s) → natural (gets f).
Proof. intros Hf n s D Hs. simpl. by rewrite Hf. Qed.
Lemma natural_modify (f : kst → kst) :
  (∀ D s, f (with_disks D s) = with_disks D (f s)) → (∀ s, bufs_wf s → bufs_wf (f s)) → natural (modify f).
Proof. intros Hf Hw n s D Hs. simpl. rewrite Hf. auto. Qed.
Lemma natural_when b (m : KM unit) : natural m → natural (when b m).
Proof. intros Hm. destruct b; [done|]. apply natural_ret. Qed.
Lemma natural_from_opt {A} msg (o : option A) : natural (from_opt msg o : KM A).
Proof. destruct o; [apply natural_ret | apply natural_undef]. Qed.
Lemma natural_forM {I} (l : list I) body : (∀ i, natural (body i)) → natural (forM l body).
Proof. intros Hb. induction l as [|i l IH]; simpl; [apply natural_ret|]. by apply natural_bind. Qed.
Lemma natural_with_fuel {A} (f : nat → KM A) : (∀ k, natural (f k)) → natural (with_fuel f).
Proof. intros Hf n s D Hs. by apply Hf. Qed.
Lemma natural_getd {A} (f : kdata → A) : (∀ D s, f (kd (with_disks D s)) = f (kd s)) → natural (getd f).
Proof. intros Hf. by apply (natural_gets (λ s, f (kd s))). Qed.
Lemma natural_modm f : natural (modm f).
Proof. by apply natural_modify. Qed.
Lemma natural_modd (f : kdata → kdata) :
  (∀ D s, with_disks D s <| kd := f (kd (with_disks D s)) |> = with_disks D (s <| kd := f (kd s) |>)) →
  (∀ s, bufs_wf s → bufs_wf (s <| kd := f (kd s) |>)) → natural (modd f).
Proof. intros Hf Hw. by apply (natural_modify (λ s, s <| kd := f (kd s) |>)). Qed.
Lemma natural_mod_proc i f : natural (mod_proc i f).
Proof. by apply natural_modd. Qed.
Lemma natural_mod_buf b f : (∀ x, 0 <= b_blockno x → 0 <= b_blockno (f x)) → natural (mod_buf b f).
Proof. intros Hf. apply natural_modd; [done|]. intros s Hs. apply Forall_alter; auto. Qed.
Lemma natural_spin lk : natural (spin lk).
Proof.
  intros n. unfold spin. induction n as [|n IH]; intros s D Hs; simpl; by destruct (_ =? 0).
Qed.
Lemma natural_swtch w : natural (swtch w).
Proof. intros n s D Hs. by repeat split. Qed.

Create HintDb natural discriminated.
#[export] Hint Resolve natural_ret natural_panic natural_undef natural_out natural_from_opt natural_modm
  natural_mod_proc natural_spin natural_swtch : natural.
(** Code built from natural parts. *)
Ltac natural :=
  lazymatch goal with
  | |- natural (mbind _ _) => apply natural_bind; [|intros]; natural
  | |- natural (when _ _) => apply natural_when; natural
  | |- natural (forM _ _) => apply natural_forM; intros; natural
  | |- natural (with_fuel _) => apply natural_with_fuel; intros; natural
  | |- natural (gets _) => by apply natural_gets
  | |- natural (getd _) => by apply natural_getd
  | |- natural (modd _) => by apply natural_modd
  | |- natural (mod_buf _ _) => by apply natural_mod_buf
  | |- natural (match ?x with _ => _ end) => destruct x; natural
  | |- natural (let x := _ in _) => cbv zeta; natural
  | |- _ => solve [auto with natural nocore]
  end.

Lemma natural_mycpu : natural mycpu.
Proof. unfold mycpu, readeflags, lapicid. natural. Qed.
#[export] Hint Resolve natural_mycpu : natural.
Lemma natural_pushcli : natural pushcli.
Proof. unfold pushcli, readeflags, cli, get_cpu, mod_cpu. natural. Qed.
Lemma natural_popcli : natural popcli.
Proof. unfold popcli, readeflags, sti, get_cpu, mod_cpu. natural. Qed.
#[export] Hint Resolve natural_pushcli natural_popcli : natural.
Lemma natural_holding lk : natural (holding lk).
Proof. unfold holding, get_lock. natural. Qed.
#[export] Hint Resolve natural_holding : natural.
Lemma natural_acquire lk : natural (acquire lk).
Proof. unfold acquire, acquire_enter, acquire_own, get_lock, put_lock. natural. Qed.
Lemma natural_release lk : natural (release lk).
Proof. unfold release, release_disown, release_store, get_lock, put_lock. natural. Qed.
Lemma natural_myproc : natural myproc.
Proof. unfold myproc, get_cpu. natural. Qed.
#[export] Hint Resolve natural_acquire natural_release natural_myproc : natural.
Lemma natural_sched : natural sched.
Proof. unfold sched, get_cpu, get_proc, readeflags, mod_cpu. natural. Qed.
#[export] Hint Resolve natural_sched : natural.
Lemma natural_sleep ch lk : natural (sleep ch lk).
Proof. unfold sleep, sleep_with. natural. Qed.
Lemma natural_wakeup ch : natural (wakeup ch).
Proof. unfold wakeup, wakeup1, get_proc. natural. Qed.
Lemma natural_holdingsleep lk : natural (holdingsleep lk).
Proof. unfold holdingsleep, get_sl. natural. Qed.
#[export] Hint Resolve natural_sleep natural_wakeup natural_holdingsleep : natural.
Lemma natural_queue_append k q b : natural (ide.queue_append k q b).
Proof. revert q. induction k as [|k IH]; intros q; simpl; unfold get_buf; natural. Qed.
Lemma natural_iderw_wait k b : natural (ide.iderw_wait k b).
Proof. induction k as [|k IH]; simpl; unfold get_buf; natural. Qed.
#[export] Hint Resolve natural_queue_append natural_iderw_wait : natural.

(** ** The refinement *)

Section refine.
Context `{Devices} (disk0 : Z → Z → list Z) (busy : nat) `{!Ata disk0 busy}.

Definition disks_of (h : list access) : disks := (at_disk (ata_of disk0 h), at_writes (ata_of disk0 h)).
(** The state of Ide that a state of the ports stands for. *)
Definition abs (x : hst kst) : kst := with_disks (disks_of (h_io x)) (h_s x).

Fixpoint refc {A} (c : comp wait_reason (hst kst) A) (c' : kcomp A) : Prop :=
  match c, c' with
  | Done a x, Done a' s => a' = a ∧ s = abs x ∧ bufs_wf (h_s x)
  | Panic msg, Panic msg' => msg' = msg
  | Undef msg, Undef msg' => msg' = msg
  | NoFuel, NoFuel => True
  | Block w x k, Block w' s k' =>
    w' = w ∧ s = abs x ∧ bufs_wf (h_s x) ∧ ∀ y, bufs_wf (h_s y) → refc (k y) (k' (abs y))
  | _, _ => False
  end.
(** From every state, [m] does what [m'] does. *)
Definition refines {A} (n : nat) (m : HM wait_reason kst A) (m' : KM A) : Prop :=
  ∀ x, bufs_wf (h_s x) → refc (m n x) (m' n (abs x)).

Lemma refc_bind {A B} (c : comp wait_reason (hst kst) A) c' f (f' : A → kst → kcomp B) :
  refc c c' → (∀ a x, bufs_wf (h_s x) → refc (f a x) (f' a (abs x))) →
  refc (comp_bind c f) (comp_bind c' f').
Proof.
  intros Hc Hf. revert c' Hc. induction c as [a x|msg|msg| |w x k IH]; intros [] Hc; simpl in *; try done.
  - destruct Hc as (-> & -> & Hs). by apply Hf.
  - destruct Hc as (-> & -> & Hs & Hk). repeat split; try done. intros y Hy. apply IH. by apply Hk.
Qed.
Lemma refines_bind {A B} n (m : HM wait_reason kst A) m' f (f' : A → KM B) :
  refines n m m' → (∀ a, refines n (f a) (f' a)) → refines n (m ≫= f) (m' ≫= f').
Proof. intros Hm Hf x Hx. apply refc_bind; [by apply Hm|]. intros. by apply Hf. Qed.
Lemma refines_ker {A} n (m : KM A) : natural m → refines n (ports.ker m) m.
Proof.
  intros Hm x Hx. unfold ports.ker, lift, id. specialize (Hm n (h_s x) (disks_of (h_io x)) Hx).
  unfold abs. generalize dependent (m n (with_disks (disks_of (h_io x)) (h_s x))).
  generalize (m n (h_s x)). intros c. clear Hx. revert x.
  induction c as [a s|msg|msg| |w s k IH]; intros x [] Hc; simpl in *; try done.
  destruct Hc as (-> & -> & Hs & Hk). repeat split; try done. intros y Hy. apply IH. by apply Hk.
Qed.
(** A call that returns. *)
Lemma refc_step {A B} n (m : KM A) f (f' : A → KM B) s h a s1 :
  natural m → bufs_wf s → m n s = Done a s1 →
  (bufs_wf s1 → refc (f a n (Io.H s1 h)) (f' a n (abs (Io.H s1 h)))) →
  refc ((ports.ker m ≫= f) n (Io.H s h)) ((m ≫= f') n (abs (Io.H s h))).
Proof.
  intros Hm Hs Hd Hf. specialize (Hm n s (disks_of h) Hs). rewrite Hd in Hm.
  unfold mbind, M_bind, ports.ker, lift. cbn [h_s h_io id]. rewrite Hd.
  change (abs (Io.H s h)) with (with_disks (disks_of h) s).
  destruct (m n (with_disks (disks_of h) s)) eqn:E; simpl in Hm; try done.
  destruct Hm as (-> & -> & Hs1). by apply Hf.
Qed.
Lemma refines_ret {A} n (a : A) : refines n (mret a) (mret a).
Proof. by intros x Hx. Qed.
Lemma refines_panic {A} n msg : refines n (panic msg : HM wait_reason kst A) (panic msg).
Proof. by intros x Hx. Qed.
Lemma refines_when n b m m' : refines n m m' → refines n (when b m) (when b m').
Proof. intros Hm. destruct b; [done|]. apply refines_ret. Qed.

(** Waiting ends, and changes nothing of the disks. *)
Lemma idewait_loop_done {W} n (s : kst) k : ∀ h,
  (busy - polls h < k)%nat →
  ∃ r h', (ports.idewait_loop k : HM W kst Z) n (Io.H s h) = Done r (Io.H s h')
    ∧ ata_of disk0 h' = ata_of disk0 h ∧ Z.land r (Z.lor IDE_DF IDE_ERR) = 0.
Proof.
  induction k as [|k IH]; intros h Hk; [lia|]. cbn [ports.idewait_loop].
  rewrite (bind_done _ _ _ _ _ _ (inb_done n s h 0x1f7)). set (v := u8 _).
  destruct (Z.land v (Z.lor IDE_BSY IDE_DRDY) =? IDE_DRDY) eqn:E; cbn [negb].
  - exists v, (In 0x1f7 v :: h). split; [done|]. split; [simpl; by destruct (ata_of disk0 h)|].
    apply ata_no_error. by apply Z.eqb_eq in E.
  - destruct (decide (busy <= polls h)%nat) as [Hb|Hb].
    { apply Z.eqb_neq in E. by apply ata_ready in Hb. }
    destruct (IH (In 0x1f7 v :: h)) as (r & h' & Hr & Ha & He); [simpl; lia|].
    exists r, h'. split; [done|]. split; [|done]. rewrite Ha. simpl. by destruct (ata_of disk0 h).
Qed.
Lemma idewait_done {W} n (s : kst) h ce :
  (busy < n)%nat →
  ∃ h', (ports.idewait ce : HM W kst Z) n (Io.H s h) = Done 0 (Io.H s h') ∧ ata_of disk0 h' = ata_of disk0 h.
Proof.
  intros Hn. destruct (@idewait_loop_done W n s n h) as (r & h' & Hr & Ha & He); [lia|].
  exists h'. split; [|done]. unfold ports.idewait. rewrite (bind_done _ _ _ _ r (Io.H s h')) by exact Hr.
  rewrite He. by rewrite andb_false_r.
Qed.

(** The bytes written to the ports name the drive and the sector. *)
Lemma at_lba_ports bn dv cm dk ws :
  0 <= bn < FSSIZE →
  let a := Atast 1 (u8 (Z.land bn 255)) (u8 (Z.land (Z.shiftr bn 8) 255)) (u8 (Z.land (Z.shiftr bn 16) 255))
    (u8 (Z.lor (Z.lor 0xe0 (Z.shiftl (Z.land dv 1) 4)) (Z.land (Z.shiftr bn 24) 0x0f))) cm dk ws in
  at_drive a = Z.land dv 1 ∧ at_lba a = bn.
Proof.
  intros Hb a. unfold FSSIZE in *.
  assert (Z.shiftr bn 16 = 0 ∧ Z.shiftr bn 24 = 0) as [E16 E24].
  { rewrite !Z.shiftr_div_pow2 by lia. rewrite !Z.div_small by lia. done. }
  assert (Z.land dv 1 = 0 ∨ Z.land dv 1 = 1) as Hd.
  { pose proof (Z.land_ones dv 1 ltac:(lia)) as E. change (Z.ones 1) with 1 in E. rewrite E.
    pose proof (Z.mod_pos_bound dv (2 ^ 1)). lia. }
  unfold a, at_drive, at_lba. cbn [at_lba0 at_lba1 at_lba2 at_dev]. rewrite E16, E24.
  split; [by destruct Hd as [->| ->]|].
  rewrite !land_ones_u8, Z.shiftr_div_pow2 by lia.
  assert (Z.land (u8 (Z.lor (Z.lor 224 (Z.shiftl (Z.land dv 1) 4)) (Z.land 0 15))) 15 = 0) as ->
    by (by destruct Hd as [->| ->]).
  unfold u8. rewrite !Z.mod_mod by lia. rewrite (Z.mod_small (bn / 2 ^ 8)) by (split; [apply Z.div_pos; lia | apply Z.div_lt_upper_bound; lia]).
  rewrite Zmod_0_l. pose proof (Z.div_mod bn (2 ^ 8) ltac:(done)) as Hdm. clear -Hdm. lia.
Qed.

Lemma ata_step_write a l :
  at_cmd a = Some Ata_write → at_cnt a = 1 →
  at_disk (ata_step (Outsl 0x1f0 l) a)
    = (λ dr s, if (dr =? at_drive a) && (s =? at_lba a) then l else at_disk a dr s)
  ∧ at_writes (ata_step (Outsl 0x1f0 l) a) = at_writes a ++ [(at_drive a, at_lba a, l)].
Proof. destruct a. simpl. by intros -> ->. Qed.

(** The state after idestart's port accesses, and what they ask for. *)
Definition start_read (a : ata) (dev bn : Z) : Prop :=
  at_cmd a = Some Ata_read ∧ at_cnt a = 1 ∧ at_drive a = dev ∧ at_lba a = bn.

Lemma idestart_done n s h b x :
  (busy < n)%nat → d_bufs (kd s) !!! b = x → 0 <= b_blockno x < FSSIZE →
  ∃ h', ports.idestart (Some b) n (Io.H s h) = Done tt (Io.H s h')
    ∧ if ctrue (Z.land (b_flags x) B_DIRTY)
      then abs (Io.H s h') = abs (Io.H s h) <| kd := kd (abs (Io.H s h)) <| d_ide :=
             disk_write (Z.land (b_dev x) 1) (b_blockno x) (b_data x) (d_ide (kd (abs (Io.H s h)))) |> |>
      else abs (Io.H s h') = abs (Io.H s h)
           ∧ start_read (ata_of disk0 h') (Z.land (b_dev x) 1) (b_blockno x).
Proof.
  intros Hn Hx Hb. unfold ports.idestart.
  erewrite bind_done by (unfold ports.ker; by apply lift_done). cbn [id]. rewrite Hx.
  change (BSIZE / SECTOR_SIZE) with 1. cbv zeta. rewrite Z.mul_1_r.
  rewrite Z.geb_leb, (proj2 (Z.leb_gt _ _)) by lia. cbn [Z.gtb Z.compare Pos.compare Pos.compare_cont].
  destruct (@idewait_done wait_reason n s h false Hn) as (h1 & Hw & Ha). rewrite (bind_done _ _ _ _ _ _ Hw).
  do 6 rewrite (bind_done _ _ _ _ _ _ (outb_done n s _ _ _)). rewrite s32_small by (unfold FSSIZE in Hb; lia).
  set (h2 := Out 0x1f6 _ :: _).
  assert (ata_of disk0 h2 = Atast 1 (u8 (Z.land (b_blockno x) 255)) (u8 (Z.land (Z.shiftr (b_blockno x) 8) 255))
    (u8 (Z.land (Z.shiftr (b_blockno x) 16) 255))
    (u8 (Z.lor (Z.lor 0xe0 (Z.shiftl (Z.land (b_dev x) 1) 4)) (Z.land (Z.shiftr (b_blockno x) 24) 0x0f)))
    (at_cmd (ata_of disk0 h)) (at_disk (ata_of disk0 h)) (at_writes (ata_of disk0 h))) as Hh2.
  { subst h2. cbn [ata_of foldr]. change (foldr ata_step _ h1) with (ata_of disk0 h1). rewrite Ha.
    by destruct (ata_of disk0 h). }
  destruct (ctrue (Z.land (b_flags x) B_DIRTY)) eqn:Ed.
  - rewrite (bind_done _ _ _ _ _ _ (outb_done n s _ _ _)), outsl_done. eexists. split; [done|].
    unfold abs, disks_of. cbn [h_io h_s]. cbn [ata_of foldr]. change (foldr ata_step _ h2) with (ata_of disk0 h2).
    rewrite Hh2. destruct (at_lba_ports (b_blockno x) (b_dev x) (Some Ata_write) (at_disk (ata_of disk0 h))
      (at_writes (ata_of disk0 h)) Hb) as [Hdr Hlb].
    set (a := Atast _ _ _ _ _ (Some Ata_write) _ _) in Hdr, Hlb. change (ata_step (Out 0x1f7 _) _) with a.
    destruct (ata_step_write a (b_data x) eq_refl eq_refl) as [-> ->]. rewrite Hdr, Hlb. reflexivity.
  - rewrite outb_done. eexists. split; [done|]. unfold abs, disks_of, start_read. cbn [h_io h_s ata_of foldr].
    change (foldr ata_step _ h2) with (ata_of disk0 h2). rewrite Hh2.
    destruct (at_lba_ports (b_blockno x) (b_dev x) (Some Ata_read) (at_disk (ata_of disk0 h))
      (at_writes (ata_of disk0 h)) Hb) as [Hdr Hlb].
    cbn [ata_step Z.eqb Pos.eqb IDE_CMD_READ IDE_CMD_WRITE andb]. by repeat split.
Qed.

Lemma bufs_wf_at s b : bufs_wf s → 0 <= b_blockno (d_bufs (kd s) !!! b).
Proof.
  intros Hs. rewrite list_lookup_total_alt. destruct (d_bufs (kd s) !! b) eqn:E; [|done].
  by eapply Forall_lookup_1 in Hs.
Qed.

Lemma refines_idestart n b : (busy < n)%nat → refines n (ports.idestart b) (ide.idestart b).
Proof.
  intros Hn [s h] Hs. destruct b as [b|]; [|done]. simpl in Hs. pose proof (bufs_wf_at s b Hs) as Hb.
  unfold ide.idestart, get_buf. change (abs (Io.H s h)) with (with_disks (disks_of h) s).
  destruct s as [m d]. simpl in Hb.
  change (with_disks (disks_of h) (K m d)) with (K m (kd (with_disks (disks_of h) (K m d)))) at 1.
  rewrite bind_getd. change (d_bufs (kd (with_disks (disks_of h) (K m d)))) with (d_bufs d).
  set (x := d_bufs d !!! b) in *. destruct (b_blockno x >=? FSSIZE) eqn:E.
  { unfold ports.idestart. erewrite bind_done by (unfold ports.ker; by apply lift_done). cbn [id kd]. fold x. by rewrite E. }
  rewrite Z.geb_leb in E. apply Z.leb_gt in E.
  destruct (idestart_done n (K m d) h b x Hn eq_refl) as (h' & Hd & Ha); [lia|]. rewrite Hd.
  change (BSIZE / 512) with 1. cbv zeta. rewrite Z.mul_1_r. cbn [Z.gtb Z.compare Pos.compare Pos.compare_cont].
  destruct (ctrue (Z.land (b_flags x) B_DIRTY)).
  - split; [done|]. split; [|done]. symmetry. exact Ha.
  - destruct Ha as [Ha _]. split; [done|]. split; [|done]. symmetry. exact Ha.
Qed.

(** iderw, from any state. *)
Lemma refines_iderw n b : (busy < n)%nat → refines n (ports.iderw b) (ide.iderw b).
Proof.
  intros Hn. unfold ports.iderw, ide.iderw.
  apply refines_bind; [apply refines_ker; natural|]. intros h. destruct (negb h); [apply refines_panic|].
  apply refines_bind; [apply refines_ker; unfold get_buf; natural|]. intros x.
  destruct (bvalid_only _); [apply refines_panic|].
  apply refines_bind; [apply refines_ker; unfold get_ide; natural|]. intros hd.
  destruct (_ && _); [apply refines_panic|].
  apply refines_bind; [apply refines_ker; natural|]. intros _.
  apply refines_bind; [apply refines_ker; natural|]. intros _.
  apply refines_bind; [apply refines_ker; unfold get_ide; natural|]. intros q.
  apply refines_bind; [destruct q; apply refines_ker; unfold mod_ide; natural|]. intros _.
  apply refines_bind; [apply refines_ker; unfold get_ide; natural|]. intros q'.
  apply refines_bind; [by apply refines_when, refines_idestart|]. intros _.
  apply refines_bind; [apply refines_ker; natural|]. intros _.
  apply refines_ker; natural.
Qed.

(** The command that the interrupt answers: a read of the first buffer of the
    queue, unless that is dirty. *)
Definition pending (s : kst) (h : list access) : Prop :=
  ∀ b, ide_queue (d_ide (kd s)) = Some b →
  let x := d_bufs (kd s) !!! b in
  Z.land (b_flags x) B_DIRTY = 0 → start_read (ata_of disk0 h) (Z.land (b_dev x) 1) (b_blockno x).

(** ideintr's transfer of the data. *)
Lemma transfer_refines n m d h b x :
  (busy < n)%nat → bufs_wf (K m d) → d_bufs d !!! b = x →
  (Z.land (b_flags x) B_DIRTY = 0 → start_read (ata_of disk0 h) (Z.land (b_dev x) 1) (b_blockno x)) →
  refc ((if negb (ctrue (Z.land (b_flags x) B_DIRTY)) then
           r ← ports.idewait true;
           if r >=? 0 then
             l ← insl 0x1f0 (Z.to_nat (BSIZE / 4));
             ports.ker (mod_buf b (λ x, x <| b_data := l |>))
           else mret tt
         else mret tt) n (Io.H (K m d) h))
       ((disk ← get_ide ide_disk;
         when (negb (ctrue (Z.land (b_flags x) B_DIRTY)))
           (mod_buf b (λ x, x <| b_data := disk (Z.land (b_dev x) 1) (b_blockno x) |>))) n (abs (Io.H (K m d) h))).
Proof.
  intros Hn Hs Hx Hp. unfold get_ide. change (abs (Io.H (K m d) h)) with (K m (kd (abs (Io.H (K m d) h)))).
  rewrite bind_getd. change (ide_disk (d_ide (kd (abs (Io.H (K m d) h))))) with (at_disk (ata_of disk0 h)).
  unfold ctrue. destruct (Z.land (b_flags x) B_DIRTY =? 0) eqn:E; cbn [negb when]; [|done].
  apply Z.eqb_eq in E. destruct (Hp E) as (Hc & Hcnt & Hdr & Hlb).
  destruct (@idewait_done wait_reason n (K m d) h true Hn) as (h1 & Hw & Ha).
  rewrite (bind_done _ _ _ _ _ _ Hw). cbn [Z.geb Z.compare].
  rewrite (bind_done _ _ _ _ _ _ (insl_done n (K m d) h1 0x1f0 _)).
  change (4 * Z.to_nat (BSIZE / 4))%nat with 512%nat. rewrite <- Ha in *. rewrite (ata_data h1 Hc Hcnt), Hdr, Hlb.
  set (h2 := Insl _ _ :: h1).
  assert (abs (Io.H (K m d) h) = abs (Io.H (K m d) h2)) as ->.
  { unfold abs, disks_of. cbn [h_io h_s]. subst h2. cbn [ata_of foldr]. change (foldr ata_step _ h1) with (ata_of disk0 h1).
    rewrite <- Ha. by destruct (ata_of disk0 h1). }
  assert (alter (λ y, y <| b_data := at_disk (ata_of disk0 h1) (Z.land (b_dev x) 1) (b_blockno x) |>) b (d_bufs d)
    = alter (λ y, y <| b_data := at_disk (ata_of disk0 h1) (Z.land (b_dev y) 1) (b_blockno y) |>) b (d_bufs d)) as Hal.
  { destruct (d_bufs d !! b) as [y|] eqn:Hy; [|by rewrite !alter_none].
    apply (alter_ext_at _ _ _ _ y Hy). apply lookup_total_Some in Hy. rewrite Hx in Hy. by subst y. }
  unfold ports.ker. erewrite lift_done by (unfold mod_buf; apply modd_done). unfold mod_buf.
  change (abs (Io.H (K m d) h2)) with (K m (kd (abs (Io.H (K m d) h2)))). rewrite modd_done.
  split; [done|]. split.
  - unfold abs, with_disks. cbn [h_s h_io id]. simpl. simpl in Hal. rewrite Hal. done.
  - apply Forall_alter; [done|]. done.
Qed.

Lemma refines_ideintr n m d h i c :
  (busy < n)%nat → bufs_wf (K m d) → mach_ok m i c → lk_free m L_ide → pending (K m d) h →
  refc (ports.ideintr n (Io.H (K m d) h)) (ide.ideintr n (abs (Io.H (K m d) h))).
Proof.
  intros Hn Hs Hok Hf Hp. unfold ports.ideintr, ide.ideintr.
  apply (refc_step _ _ _ _ _ _ _ _ (natural_acquire L_ide) Hs (acquire_done n m d i c L_ide Hok Hf)). intros Hs1.
  eapply refc_step; [unfold get_ide; natural | done | done |]. intros _. cbn [kd].
  destruct (ide_queue (d_ide d)) as [b|] eqn:Eq; [|apply refines_ker; [natural | done]].
  eapply refc_step; [unfold get_buf; natural | done | done |]. intros _. cbn [kd].
  set (x := d_bufs d !!! b) in *.
  eapply refc_step; [unfold mod_ide; natural | done | done |]. intros Hs2.
  set (s2 := set_field kd _ _).
  refine (refc_bind _ ((disk ← get_ide ide_disk;
      when (negb (ctrue (Z.land (b_flags x) B_DIRTY)))
        (mod_buf b (λ x, x <| b_data := disk (Z.land (b_dev x) 1) (b_blockno x) |>))) n (abs (Io.H s2 h)))
    _ (λ _, (mod_buf b (λ x, x <| b_flags := Z.lor (b_flags x) B_VALID |>) ;;
             mod_buf b (λ x, x <| b_flags := Z.land (b_flags x) (Z.lnot B_DIRTY) |>) ;;
             wakeup (Ch_buf b) ;;
             q ← get_ide ide_queue;
             when (bool_decide (q ≠ None)) (ide.idestart q) ;;
             release L_ide) n) _ _); [apply transfer_refines; [done | done | done | exact (Hp b Eq)]|].
  intros _ y Hy. revert y Hy.
  match goal with |- ∀ y, _ → refc (?f n y) (?f' n (abs y)) => change (refines n f f') end.
  apply refines_bind; [apply refines_ker; natural|]. intros _.
  apply refines_bind; [apply refines_ker; natural|]. intros _.
  apply refines_bind; [apply refines_ker; natural|]. intros _.
  apply refines_bind; [apply refines_ker; unfold get_ide; natural|]. intros q'.
  apply refines_bind; [by apply refines_when, refines_idestart|]. intros _.
  apply refines_ker; natural.
Qed.

(** C6: ide.c with every access to the ports of an ATA controller refines the
    driver of Ide, whose commands read and write blocks of the disks.  From any
    state iderw panics, waits and returns exactly as there, with the disks that
    its writes to the ports have made; so does ideintr when the controller has
    the command of the first buffer of the queue, which is what idestart leaves
    there: the drive, sector and count it writes to the ports are those of the
    block. *)
Theorem ide_ports_refine n :
  (busy < n)%nat →
  (∀ b, refines n (ports.iderw b) (ide.iderw b))
  ∧ (∀ m d h i c, bufs_wf (K m d) → mach_ok m i c → lk_free m L_ide → pending (K m d) h →
       refc (ports.ideintr n (Io.H (K m d) h)) (ide.ideintr n (abs (Io.H (K m d) h))))
  ∧ (∀ s h b x, d_bufs (kd s) !!! b = x → 0 <= b_blockno x < FSSIZE →
       ide_queue (d_ide (kd s)) = Some b →
       ∃ h', ports.idestart (Some b) n (Io.H s h) = Done tt (Io.H s h') ∧ pending s h').
Proof.
  intros Hn. split; [|split].
  - intros b. by apply refines_iderw.
  - intros m d h i c Hs Hok Hf Hp. by apply (refines_ideintr n m d h i c).
  - intros s h b x Hx Hb Hq. destruct (idestart_done n s h b x Hn Hx Hb) as (h' & Hd & Ha).
    exists h'. split; [done|]. intros b' Hq'. rewrite Hq in Hq'. injection Hq' as <-. cbv zeta. rewrite Hx. intros Hc.
    unfold ctrue in Ha. rewrite Hc in Ha. apply Ha.
Qed.
End refine.

(** A controller that is busy for [busy] reads of its status. *)
Definition ata_dev (disk0 : Z → Z → list Z) (busy : nat) : Devices :=
  {| dev_in := λ h p, if p =? 0x1f7 then if (polls h <? busy)%nat then IDE_BSY else IDE_DRDY else 0;
     dev_insl := λ h p k, let a := ata_of disk0 h in at_disk a (at_drive a) (at_lba a);
     dev_load := λ _ _, 0 |}.
Lemma ata_dev_law disk0 busy : @Ata (ata_dev disk0 busy) disk0 busy.
Proof.
  split; simpl.
  - intros h Hh. by rewrite (proj2 (Nat.ltb_ge _ _)).
  - intros h. by destruct (_ <? _)%nat.
  - done.
Qed.
(** Buffer 0 is to be read from block 7. *)
Definition dport : kdata := dide <| d_ide := d_ide dide <| ide_queue := Some 0%nat |> |>.
Lemma ide_ports_refine_witness :
  let disk0 := λ _ _, replicate 512 7 in
  let dev := ata_dev disk0 3 in
  refines disk0 4 (@ports.iderw dev 5) (ide.iderw 5)
  ∧ ∃ h, @ports.idestart dev (Some 0%nat) 4%nat (H (K mfs dport) []) = Done tt (H (K mfs dport) h)
    ∧ refc disk0 (@ports.ideintr dev 4%nat (H (K mfs dport) h)) (ide.ideintr 4%nat (abs disk0 (H (K mfs dport) h))).
Proof.
  intros disk0 dev.
  destruct (@ide_ports_refine dev disk0 3 (ata_dev_law disk0 3) 4%nat ltac:(lia)) as (Hrw & Hintr & Hst).
  split; [apply Hrw|].
  destruct (Hst (K mfs dport) [] 0%nat xide) as (h & Hd & Hp); [reflexivity | unfold FSSIZE; simpl; lia | reflexivity |].
  exists h. split; [exact Hd|].
  destruct (fs_thread_mfs dide eq_refl) as [(i & c & Hr) Hfree _ _ _].
  eapply Hintr; [| apply Hr | apply Hfree; vm_compute; tauto | exact Hp].
  unfold bufs_wf. simpl. repeat (constructor; [simpl; lia|]). constructor.
Defined.
