(* ===== verification/Log.v ===== *)
(** * Log: log.c, the redo log, with fs.c's readsb

    The log header is a block of the disk: the count, then the block numbers,
    as 32-bit words. *)

From S2P Require Import Prelude Memory Kstate Spinlock Kalloc Cprintf Vm Sched Sleeplock Bio.

Definition get_log {A} (f : logst → A) : KM A := getd (λ d, f (d_log d)).
Definition mod_log (f : logst → logst) : KM unit := modd (λ d, d <| d_log := f (d_log d) |>).
Definition set_lh_n (n : Z) : KM unit := mod_log (λ l, l <| log_lh := log_lh l <| lh_n := n |> |>).
Definition set_lh_block (i b : Z) : KM unit :=
  k ← get_log (λ l, length (lh_block (log_lh l)));
  if (i <? 0) || (Z.of_nat k <=? i) then undef "log.lh.block out of range" else
  mod_log (λ l, l <| log_lh := log_lh l <| lh_block := <[Z.to_nat i := b]> (lh_block (log_lh l)) |> |>).
Definition get_lh_block (i : Z) : KM Z :=
  bs ← get_log (λ l, lh_block (log_lh l));
  from_opt "log.lh.block out of range" (if i <? 0 then None else bs !! Z.to_nat i).
(** [int]s as block numbers are passed as [uint]s. *)
Definition mod_bdata (b : nat) (f : list Z → list Z) : KM unit :=
  mod_buf b (λ x, x <| b_data := f (b_data x) |>).

(** fs.c: the super block is block 1 *)
Definition sb_of (l : list Z) : superblock :=
  Superblock (ld32 l 0) (ld32 l 4) (ld32 l 8) (ld32 l 12) (ld32 l 16) (ld32 l 20) (ld32 l 24).

Section log.
Context `{Disk}.

Definition readsb (dev : Z) : KM superblock :=
  bp ← bread dev 1;
  x ← get_buf bp;
  let sb := sb_of (b_data x) in
  brelse bp ;;
  mret sb.

Definition install_trans : KM unit :=
  n ← get_log (λ l, lh_n (log_lh l));
  forM (seqZ 0 n) (λ tail,
    dev ← get_log log_dev; start ← get_log log_start;
    lbuf ← bread dev (u32 (start + tail + 1));
    bn ← get_lh_block tail;
    dbuf ← bread dev (u32 bn);
    l ← get_buf lbuf;
    mod_bdata dbuf (λ _, b_data l) ;;
    bwrite dbuf ;;
    brelse lbuf ;;
    brelse dbuf).

Definition read_head : KM unit :=
  dev ← get_log log_dev; start ← get_log log_start;
  buf ← bread dev (u32 start);
  x ← get_buf buf;
  set_lh_n (s32 (ld32 (b_data x) 0)) ;;
  n ← get_log (λ l, lh_n (log_lh l));
  forM (seqZ 0 n) (λ i, set_lh_block i (s32 (ld32 (b_data x) (4 + 4 * i)))) ;;
  brelse buf.

Definition write_head : KM unit :=
  dev ← get_log log_dev; start ← get_log log_start;
  buf ← bread dev (u32 start);
  n ← get_log (λ l, lh_n (log_lh l));
  mod_bdata buf (λ l, st32 l 0 n) ;;
  forM (seqZ 0 n) (λ i, bn ← get_lh_block i; mod_bdata buf (λ l, st32 l (4 + 4 * i) bn)) ;;
  bwrite buf ;;
  brelse buf.

Definition recover_from_log : KM unit :=
  read_head ;;
  install_trans ;;
  set_lh_n 0 ;;
  write_head.

Definition sizeof_logheader : Z := 4 + 4 * LOGSIZE.
Definition initlog (dev : Z) : KM unit :=
  if sizeof_logheader >=? BSIZE then panic "initlog: too big logheader" else
  initlock L_log "log" ;;
  sb ← readsb dev;
  mod_log (λ l, l <| log_start := s32 (sb_logstart sb) |>) ;;
  mod_log (λ l, l <| log_size := s32 (sb_nlog sb) |>) ;;
  mod_log (λ l, l <| log_dev := dev |>) ;;
  recover_from_log.

Fixpoint begin_op_loop (fuel : nat) : KM unit :=
  match fuel with
  | O => out_of_fuel
  | S fuel' =>
    l ← get_log (λ l, l);
    if ctrue (log_committing l) then sleep Ch_log (Some L_log) ;; begin_op_loop fuel'
    else if lh_n (log_lh l) + (log_outstanding l + 1) * MAXOPBLOCKS >? LOGSIZE then
      sleep Ch_log (Some L_log) ;; begin_op_loop fuel'
    else
      mod_log (λ l, l <| log_outstanding := log_outstanding l + 1 |>) ;;
      release L_log
  end.
Definition begin_op : KM unit :=
  acquire L_log ;;
  with_fuel begin_op_loop.

Definition write_log : KM unit :=
  n ← get_log (λ l, lh_n (log_lh l));
  forM (seqZ 0 n) (λ tail,
    dev ← get_log log_dev; start ← get_log log_start;
    to ← bread dev (u32 (start + tail + 1));
    bn ← get_lh_block tail;
    from ← bread dev (u32 bn);
    f ← get_buf from;
    mod_bdata to (λ _, b_data f) ;;
    bwrite to ;;
    brelse from ;;
    brelse to).

Definition commit : KM unit :=
  n ← get_log (λ l, lh_n (log_lh l));
  when (n >? 0) (
    write_log ;;
    write_head ;;
    install_trans ;;
    set_lh_n 0 ;;
    write_head).

Definition end_op : KM unit :=
  acquire L_log ;;
  mod_log (λ l, l <| log_outstanding := log_outstanding l - 1 |>) ;;
  l ← get_log (λ l, l);
  if ctrue (log_committing l) then panic "log.committing" else
  let do_commit := log_outstanding l =? 0 in
  (if do_commit then mod_log (λ l, l <| log_committing := 1 |>) else wakeup Ch_log) ;;
  release L_log ;;
  when do_commit (
    commit ;;
    acquire L_log ;;
    mod_log (λ l, l <| log_committing := 0 |>) ;;
    wakeup Ch_log ;;
    release L_log).
End log.

(** The index of the block in the header, or the count. *)
Fixpoint absorb (n : nat) (bs : list Z) (b : Z) : nat :=
  match n, bs with
  | S n', x :: bs' => if u32 x =? b then O else S (absorb n' bs' b)
  | _, _ => O
  end.
Definition log_write (b : nat) : KM unit :=
  l ← get_log (λ l, l);
  if (lh_n (log_lh l) >=? LOGSIZE) || (lh_n (log_lh l) >=? log_size l - 1)
  then panic "too big a transaction" else
  if log_outstanding l <? 1 then panic "log_write outside of trans" else
  acquire L_log ;;
  l ← get_log log_lh;
  x ← get_buf b;
  let i := Z.of_nat (absorb (Z.to_nat (lh_n l)) (lh_block l) (b_blockno x)) in
  set_lh_block i (s32 (b_blockno x)) ;;
  when (i =? lh_n l) (set_lh_n (lh_n l + 1)) ;;
  mod_buf b (λ x, x <| b_flags := Z.lor (b_flags x) B_DIRTY |>) ;;
  release L_log.
