(* ===== verification/LogFacts.v ===== *)
(** * LogFacts: the redo log

    What the functions of Log.v do to the blocks of the disk, on top of any
    driver that keeps [DiskLaw], and what a crash leaves: every prefix of the
    writes of a commit recovers to the old or to the new contents. *)

From S2P Require Import Prelude Memory Kstate Spinlock Kalloc Cprintf Vm Sched SchedFacts Sleeplock.
From S2P Require Import Bio BioRing BioFacts Log.

(** ** The header block *)

Definition hdr_n (l : list Z) : Z := s32 (ld32 l 0).
Definition hdr_block (l : list Z) (i : nat) : Z := s32 (ld32 l (4 + 4 * Z.of_nat i)).
Definition hdr_blocks (l : list Z) : list Z := hdr_block l <$> seq 0 (Z.to_nat (hdr_n l)).

(** The header with the first [k] of the blocks [bs]. *)
Definition hdr_put (bs : list Z) (l : list Z) (k : nat) : list Z :=
  foldl (λ l i, st32 l (4 + 4 * Z.of_nat i) (bs !!! i)) (st32 l 0 (Z.of_nat (length bs))) (seq 0 k).
Definition hdr_of (bs : list Z) (l : list Z) : list Z := hdr_put bs l (length bs).

Lemma hdr_put_S bs l k : hdr_put bs l (S k) = st32 (hdr_put bs l k) (4 + 4 * Z.of_nat k) (bs !!! k).
Proof. unfold hdr_put. rewrite seq_S, foldl_app. done. Qed.
Lemma length_hdr_put bs l k : length (hdr_put bs l k) = length l.
Proof. induction k as [|k IH]; [apply length_st32|]. by rewrite hdr_put_S, length_st32. Qed.

(** Block numbers that fit the header's ints. *)
Definition small (bs : list Z) : Prop := ∀ b, b ∈ bs → is_blk b.

Lemma s32_u32_blk b : is_blk b → s32 (u32 b) = b.
Proof. unfold is_blk, FSSIZE. intros H. rewrite s32_u32. apply s32_small. lia. Qed.
Lemma u32_blk b : is_blk b → u32 b = b.
Proof. unfold is_blk, FSSIZE. intros H. apply u32_small. lia. Qed.

Section header.
Context (bs l : list Z) (Hs : small bs) (Hbs : (length bs <= Z.to_nat LOGSIZE)%nat) (Hl : length l = Z.to_nat BSIZE).

Lemma hdr_put_n k : (k <= length bs)%nat → ld32 (hdr_put bs l k) 0 = Z.of_nat (length bs).
Proof.
  induction k as [|k IH]; intros Hk.
  - unfold hdr_put. simpl. rewrite ld32_st32 by (rewrite ?Hl; unfold BSIZE; lia).
    apply u32_small. unfold LOGSIZE, MAXOPBLOCKS in Hbs. lia.
  - rewrite hdr_put_S, ld32_st32_ne by lia. apply IH. lia.
Qed.
Lemma hdr_put_block k i : (i < k)%nat → (k <= length bs)%nat →
  ld32 (hdr_put bs l k) (4 + 4 * Z.of_nat i) = u32 (bs !!! i).
Proof.
  induction k as [|k IH]; intros Hi Hk; [lia|]. rewrite hdr_put_S. destruct (decide (i = k)) as [->|Hne].
  - apply ld32_st32; [lia|]. rewrite length_hdr_put, Hl. unfold BSIZE, LOGSIZE, MAXOPBLOCKS in *. lia.
  - rewrite ld32_st32_ne by lia. apply IH; lia.
Qed.

(** What is written is read back. *)
Lemma hdr_of_n : hdr_n (hdr_of bs l) = Z.of_nat (length bs).
Proof.
  unfold hdr_n, hdr_of. rewrite hdr_put_n by done. apply s32_small. unfold LOGSIZE, MAXOPBLOCKS in Hbs. lia.
Qed.
Lemma hdr_of_blocks : hdr_blocks (hdr_of bs l) = bs.
Proof.
  unfold hdr_blocks. rewrite hdr_of_n, Nat2Z.id. apply list_eq. intros i. rewrite list_lookup_fmap.
  destruct (decide (i < length bs)%nat) as [Hi|Hi].
  - rewrite lookup_seq_lt by done. simpl. rewrite (lookup_Some_total bs i Hi). f_equal.
    unfold hdr_block, hdr_of. rewrite hdr_put_block by lia. apply s32_u32_blk, Hs.
    by apply list_elem_of_lookup_2 with i, lookup_Some_total.
  - rewrite lookup_seq_ge by lia. simpl. symmetry. apply lookup_ge_None. lia.
Qed.
Lemma hdr_of_length : length (hdr_of bs l) = Z.to_nat BSIZE.
Proof. unfold hdr_of. by rewrite length_hdr_put. Qed.
End header.

(** ** The log in memory *)

(** The log occupies the blocks from [start] on; the transaction so far has
    the blocks [bs]. *)
Record log_is (L : logst) (start nlog : Z) (bs : list Z) : Prop := {
  li_start : log_start L = start;
  li_size : log_size L = nlog;
  li_dev : log_dev L = ROOTDEV;
  li_n : lh_n (log_lh L) = Z.of_nat (length bs);
  li_len : length (lh_block (log_lh L)) = Z.to_nat LOGSIZE;
  li_bs : take (length bs) (lh_block (log_lh L)) = bs
}.
(** Where the log is. *)
Record log_area (start nlog : Z) : Prop := {
  la_start : 0 < start;
  la_size : 1 <= nlog <= LOGSIZE;
  la_end : start + nlog <= FSSIZE
}.
Definition in_log (start nlog b : Z) : Prop := start <= b < start + nlog.
(** The blocks of a transaction are outside the log, and fit. *)
Record tx_ok (start nlog : Z) (bs : list Z) : Prop := {
  tx_small : small bs;
  tx_out b : b ∈ bs → ¬ in_log start nlog b;
  tx_len : Z.of_nat (length bs) < nlog
}.
Definition slot (start : Z) (i : nat) : Z := start + Z.of_nat i + 1.

Lemma imap_take {A B} (f : nat → A → B) (l : list A) k : take k (imap f l) = imap f (take k l).
Proof.
  revert f k. induction l as [|x l IH]; intros f [|k]; simpl; try done. by rewrite IH.
Qed.
Lemma elem_take {A} (x : A) k l : x ∈ take k l → x ∈ l.
Proof. intros [j [Hj _]%lookup_take_Some]%list_elem_of_lookup. by eapply list_elem_of_lookup_2. Qed.
(** Writes elsewhere. *)
Lemma apply_writes_out ws v b : b ∉ ws.*1 → apply_writes ws v b = v b.
Proof.
  revert v. induction ws as [|[b1 l1] ws IH]; intros v Hb; simpl in *; [done|].
  rewrite IH by set_solver. apply bupd_ne. set_solver.
Qed.

Section area.
Context (start nlog : Z) (Ha : log_area start nlog).

Lemma slot_ok i : (Z.of_nat i + 1 < nlog) → is_blk (slot start i) ∧ in_log start nlog (slot start i).
Proof. destruct Ha. unfold slot, is_blk, in_log. lia. Qed.
Lemma start_ok : is_blk start ∧ in_log start nlog start.
Proof. destruct Ha. unfold is_blk, in_log. lia. Qed.
Lemma slot_u32 i : (Z.of_nat i + 1 < nlog) → u32 (start + Z.of_nat i + 1) = slot start i.
Proof. intros Hi. by apply u32_blk, slot_ok. Qed.

Lemma tx_ok_nil : tx_ok start nlog [].
Proof. destruct Ha. split; [by intros b ?%not_elem_of_nil | by intros b ?%not_elem_of_nil | simpl; lia]. Qed.
(** ** The writes of a transaction *)

(** The [i]-th write: the contents of the block, to its slot in the log. *)
Definition log_writes (v : blocks) (bs : list Z) : list (Z * list Z) :=
  imap (λ i b, (slot start i, v b)) bs.

Lemma log_writes_area v bs b : Z.of_nat (length bs) < nlog → b ∈ (log_writes v bs).*1 → in_log start nlog b ∧ b ≠ start.
Proof.
  intros Hlen. unfold log_writes. rewrite fmap_imap. intros (i & x & -> & Hi)%elem_of_lookup_imap.
  apply lookup_lt_Some in Hi. simpl. unfold slot, in_log. lia.
Qed.

(** The [i]-th write: the [i]-th slot of the log, to the block's home. *)
Definition install_writes (v : blocks) (bs : list Z) : list (Z * list Z) :=
  imap (λ i b, (b, v (slot start i))) bs.
Lemma install_writes_blocks v bs b : b ∈ (install_writes v bs).*1 → b ∈ bs.
Proof.
  unfold install_writes. rewrite fmap_imap. intros (i & x & -> & Hi)%elem_of_lookup_imap.
  by apply list_elem_of_lookup_2 in Hi.
Qed.

Definition home_writes (v : blocks) (bs : list Z) : list (Z * list Z) := (λ b, (b, v b)) <$> bs.
(** Everything a commit of the blocks [bs] writes, in order. *)
Definition commit_writes (v : blocks) (bs : list Z) : list (Z * list Z) :=
  log_writes v bs ++ [(start, hdr_of bs (v start))] ++ home_writes v bs ++ [(start, hdr_of [] (hdr_of bs (v start)))].

(** A slot of the log, after it was written. *)
Lemma log_writes_slot v w bs i b :
  bs !! i = Some b → apply_writes (log_writes v bs) w (slot start i) = v b.
Proof.
  unfold log_writes. revert i w. induction bs as [|c bs IH] using rev_ind; intros i w; [done|].
  intros [Hi|[Hi Hc]]%lookup_app_Some; rewrite imap_app, apply_writes_app; simpl; rewrite Nat.add_0_r.
  - rewrite bupd_ne by (apply lookup_lt_Some in Hi; unfold slot; lia). by apply IH.
  - destruct (i - length bs)%nat as [|j] eqn:E; simplify_eq/=. replace i with (length bs) by lia. apply bupd_eq.
Qed.

Section commit.
Context (v : blocks) (bs : list Z) (Htx : tx_ok start nlog bs).

Lemma log_writes_start w : apply_writes (log_writes v bs) w start = w start.
Proof. apply apply_writes_out. intros Hx. apply log_writes_area in Hx as [_ Hx]; [done | apply Htx]. Qed.
Lemma log_writes_home w b : ¬ in_log start nlog b → apply_writes (log_writes v bs) w b = w b.
Proof. intros Hb. apply apply_writes_out. intros Hx. apply log_writes_area in Hx as [Hx _]; [done | apply Htx]. Qed.

(** What install_trans then copies is what the blocks had. *)
Lemma install_home h :
  install_writes (bupd (apply_writes (log_writes v bs) v) start h) bs = home_writes v bs.
Proof.
  unfold install_writes, home_writes. apply list_eq. intros i. rewrite list_lookup_imap, list_lookup_fmap.
  destruct (bs !! i) as [b|] eqn:Hb; [|done]. simpl. do 2 f_equal.
  rewrite bupd_ne by (unfold slot; lia). by apply log_writes_slot.
Qed.
Lemma home_writes_out w b : b ∉ bs → apply_writes (home_writes v bs) w b = w b.
Proof.
  intros Hb. apply apply_writes_out. unfold home_writes. rewrite <- list_fmap_compose.
  intros (c & -> & Hc)%list_elem_of_fmap. done.
Qed.
End commit.

(** The contents that recovery leaves, as a function of the disk it finds. *)
Definition recover_writes (v : blocks) : list (Z * list Z) :=
  install_writes v (hdr_blocks (v start)) ++ [(start, hdr_of [] (v start))].
Definition recovered (v : blocks) : blocks := apply_writes (recover_writes v) v.

(** A header that a commit may have left. *)
Record hdr_ok (l : list Z) : Prop := {
  ho_n : 0 <= hdr_n l;
  ho_tx : tx_ok start nlog (hdr_blocks l)
}.
Lemma hdr_blocks_length l : 0 <= hdr_n l → Z.of_nat (length (hdr_blocks l)) = hdr_n l.
Proof. intros H. unfold hdr_blocks. rewrite length_fmap, length_seq. lia. Qed.

End area.

Section log.
Context {Drv : Disk} {p : nat} {R : wait_reason → kst → kst → Prop} {DL : DiskLaw p R} (n : nat) (Hn : (2 <= n)%nat).
Context (start nlog : Z) (Ha : log_area start nlog).

Lemma li_block L bs i b : log_is L start nlog bs → bs !! i = Some b → lh_block (log_lh L) !! i = Some b.
Proof.
  intros HL Hi. rewrite <- (li_bs _ _ _ _ HL) in Hi. apply lookup_take_Some in Hi as [Hi _]. done.
Qed.
Lemma get_log_bind {A B} m d (f : logst → A) (g : A → KM B) :
  (get_log f ≫= g) n (K m d) = g (f (d_log d)) n (K m d).
Proof. done. Qed.
Lemma get_lh_block_bind {B} m d bs i b (g : Z → KM B) :
  log_is (d_log d) start nlog bs → bs !! i = Some b → (get_lh_block (Z.of_nat i) ≫= g) n (K m d) = g b n (K m d).
Proof.
  intros HL Hi. apply bind_done. unfold get_lh_block. rewrite get_log_bind.
  rewrite (proj2 (Z.ltb_ge _ _)), Nat2Z.id, (li_block _ _ _ _ HL Hi) by lia. done.
Qed.

(** ** Copying a block *)

(** What both write_log and install_trans do with two buffers they have read. *)
Lemma copy_wp m d v E D H src dst s t :
  fs_ok m d v E D H → H !! src = Some s → H !! dst = Some t → s ≠ t → (s ∈ E → s ∈ D) →
  wp R ((f ← get_buf src; mod_bdata dst (λ _, b_data f) ;; bwrite dst ;; brelse src ;; brelse dst) n (K m d))
    (λ _, fs_post d [(t, v s)] (bupd v t (v s)) (E ∖ {[t]}) (D ∖ {[t]}) (delete dst (delete src H))).
Proof.
  intros Hok Hs Ht Hne HED. pose proof Hok as (_ & _ & Hc). pose proof (co_held _ _ _ _ _ Hc _ _ Hs) as Hsrc.
  destruct (co_lookup _ _ _ _ _ src Hc Hsrc) as [x Hx].
  destruct (held_facts _ _ _ _ _ Hc _ _ Hs _ Hx) as (_ & _ & _ & _ & Hblk & Hdata & _).
  rewrite (get_buf_bind n m d src x _ Hx), Hdata. unfold mod_bdata.
  destruct (bdata_done n Hn m d v E D H dst t (λ _, v s) Hok Ht) as (d1 & Hrun & Hok1 & Hf1 & Hi1).
  { by apply (co_len _ _ _ _ _ Hc). }
  rewrite (bind_done _ _ _ _ _ _ Hrun). apply wp_bind.
  eapply wp_mono; [|by apply (bwrite_wp n Hn m d1 _ _ _ H dst t Hok1)]. cbv beta.
  rewrite bupd_eq. intros [] s' (m2 & d2 & -> & Hok2 & Hf2 & Hw2).
  assert (({[t]} ∪ E) ∖ {[t]} = E ∖ {[t]}) as E1 by set_solver. rewrite E1 in Hok2.
  destruct (brelse_done n m2 d2 _ _ _ H src s Hok2 Hs) as (d3 & Hrun3 & Hok3 & Hf3 & Hi3); [set_solver|].
  rewrite (bind_done _ _ _ _ _ _ Hrun3).
  assert (Ht' : delete src H !! dst = Some t) by (rewrite lookup_delete_ne; [done|congruence]).
  destruct (brelse_done n m2 d3 _ _ _ _ dst t Hok3 Ht') as (d4 & Hrun4 & Hok4 & Hf4 & Hi4); [set_solver|].
  rewrite Hrun4. exists m2, d4. split_and!; try done.
  - by transitivity d1; [|transitivity d2; [|transitivity d3]].
  - apply (wrote_pre _ d d1); [done|]. apply (wrote_post _ d1 d2); [congruence | done].
Qed.

(** Both blocks are read, then copied: [s] to [t]. *)
Lemma read_copy_wp m d v D bs i a b s t (sw : bool) :
  fs_ok m d v D D ∅ → log_is (d_log d) start nlog bs → bs !! i = Some b →
  is_blk a → is_blk b → a ≠ b → (s, t) = (if sw then (b, a) else (a, b)) →
  (size D < NBUF)%nat → (b ∈ D ∨ (S (size D) < NBUF)%nat) →
  wp R ((x ← bread ROOTDEV a; bn ← get_lh_block (Z.of_nat i); y ← bread ROOTDEV (u32 bn);
         let src := if sw then y else x in let dst := if sw then x else y in
         f ← get_buf src; mod_bdata dst (λ _, b_data f) ;; bwrite dst ;; brelse src ;; brelse dst) n (K m d))
    (λ _, fs_post d [(t, v s)] (bupd v t (v s)) (D ∖ {[t]}) (D ∖ {[t]}) ∅).
Proof.
  intros Hok HL Hi Ha' Hb Hab Est Hsz Hroom. apply wp_bind.
  eapply wp_mono; [|apply (bread_wp n Hn m d v D D ∅ a Hok Ha')].
  2:{ intros k. by rewrite lookup_empty. }
  2:{ right. rewrite map_size_empty. lia. }
  intros x s1 (_ & m1 & d1 & -> & Hok1 & Hf1 & Hw1). rewrite <- (fs_frame_log _ _ Hf1) in HL.
  rewrite (get_lh_block_bind m1 d1 bs i b _ HL Hi), (u32_blk b Hb). apply wp_bind.
  eapply wp_mono; [|apply (bread_wp n Hn m1 d1 v D D _ b Hok1 Hb)].
  2:{ intros k. destruct (decide (k = x)) as [->|]; [rewrite lookup_insert_eq; congruence | by rewrite lookup_insert_ne]. }
  2:{ destruct Hroom as [|Hroom]; [by left | right]. rewrite map_size_insert_None, map_size_empty by done. lia. }
  intros y s2 (Hy & m2 & d2 & -> & Hok2 & Hf2 & Hw2).
  assert (Hyx : y ≠ x) by (intros ->; by rewrite lookup_insert_eq in Hy).
  eapply wp_mono; [|eapply (copy_wp m2 d2 v D D _ (if sw then y else x) (if sw then x else y) s t Hok2)].
  2,3: destruct sw; simplify_eq; rewrite ?lookup_insert_eq, ?lookup_insert_ne, ?lookup_insert_eq by congruence; done.
  2: destruct sw; simplify_eq; congruence.
  2: done.
  intros [] s3 Hpost.
  assert (delete (if sw then x else y) (delete (if sw then y else x) (<[y:=b]> (<[x:=a]> (∅ : gmap nat Z)))) = ∅) as E1.
  { apply map_eq. intros k. rewrite lookup_empty.
    destruct (decide (x = k)) as [Hkx|Hkx]; [|destruct (decide (y = k)) as [Hky|Hky]]; subst; destruct sw;
      by rewrite ?lookup_delete_eq, ?lookup_delete_ne, ?lookup_delete_eq, ?lookup_insert_ne by congruence. }
  rewrite E1 in Hpost. apply (fs_post_trans d d1 [] _); [done|done|]. by apply (fs_post_trans d1 d2 [] _).
Qed.

(** ** write_log *)

Lemma write_log_wp m d v D bs :
  fs_ok m d v D D ∅ → log_is (d_log d) start nlog bs → tx_ok start nlog bs →
  (∀ b, b ∈ bs → b ∈ D) → (∀ b, b ∈ D → ¬ in_log start nlog b) → (size D < NBUF)%nat →
  wp R (write_log n (K m d)) (λ _, fs_post d (log_writes start v bs) (apply_writes (log_writes start v bs) v) D D ∅).
Proof.
  intros Hok HL Htx HbD HDl Hsz. unfold write_log. rewrite get_log_bind, (li_n _ _ _ _ HL).
  set (W := log_writes start v bs). assert (HlW : length W = length bs) by apply length_imap.
  set (I k := fs_post d (take k W) (apply_writes (take k W) v) D D ∅).
  assert (I (length bs) = fs_post d W (apply_writes W v) D D ∅) as <- by (unfold I; by rewrite take_ge by lia).
  apply (wp_forM_seqZ R _ _ n I).
  2:{ exists m, d. split_and!; try done. by apply wrote_nil. }
  intros k s1 Hk (m1 & d1 & -> & Hok1 & Hf1 & Hw1).
  destruct (lookup_lt_is_Some_2 bs k Hk) as [b Hb]. pose proof (list_elem_of_lookup_2 _ _ _ Hb) as Hbin.
  pose proof HL as HL1. rewrite <- (fs_frame_log _ _ Hf1) in HL1.
  rewrite !get_log_bind, (li_dev _ _ _ _ HL1), (li_start _ _ _ _ HL1).
  assert (Hk1 : Z.of_nat k + 1 < nlog) by (pose proof (tx_len _ _ _ Htx); lia).
  rewrite (slot_u32 start nlog Ha k Hk1). destruct (slot_ok start nlog Ha k Hk1) as [Hsl Hin].
  eapply wp_mono; [|apply (read_copy_wp m1 d1 _ D bs k (slot start k) b b (slot start k) true Hok1 HL1 Hb Hsl)].
  - intros [] s2 Hpost. assert (HW : take (S k) W = take k W ++ [(slot start k, v b)]).
    { apply take_S_r. unfold W, log_writes. by rewrite list_lookup_imap, Hb. }
    assert (HD : D ∖ {[slot start k]} = D) by (pose proof (HDl (slot start k)); set_solver). rewrite HD in Hpost.
    rewrite apply_writes_out in Hpost.
    2:{ unfold W, log_writes. rewrite imap_take. intros Hx. apply (log_writes_area start nlog) in Hx as [Hx _].
        - by apply (tx_out _ _ _ Htx b).
        - rewrite length_take. pose proof (tx_len _ _ _ Htx). lia. }
    unfold I. rewrite HW, apply_writes_app. by apply (fs_post_trans d d1 (take k W)).
  - by apply (tx_small _ _ _ Htx).
  - intros E. apply (tx_out _ _ _ Htx b Hbin). by rewrite <- E.
  - done.
  - done.
  - left. auto.
Qed.

(** ** install_trans *)

Lemma install_trans_wp m d v D bs :
  fs_ok m d v D D ∅ → log_is (d_log d) start nlog bs → tx_ok start nlog bs →
  (D = ∅ ∨ NoDup bs ∧ ∀ b, b ∈ bs → b ∈ D) → (size D < NBUF)%nat →
  wp R (install_trans n (K m d)) (λ _, fs_post d (install_writes start v bs) (apply_writes (install_writes start v bs) v)
    (D ∖ list_to_set bs) (D ∖ list_to_set bs) ∅).
Proof.
  intros Hok HL Htx HbD Hsz. unfold install_trans. rewrite get_log_bind, (li_n _ _ _ _ HL).
  set (W := install_writes start v bs). assert (HlW : length W = length bs) by apply length_imap.
  set (Dk k := D ∖ list_to_set (take k bs)).
  set (I k := fs_post d (take k W) (apply_writes (take k W) v) (Dk k) (Dk k) ∅).
  assert (I (length bs) = fs_post d W (apply_writes W v) (D ∖ list_to_set bs) (D ∖ list_to_set bs) ∅) as <-
    by (unfold I, Dk; by rewrite !take_ge by lia).
  apply (wp_forM_seqZ R _ _ n I).
  2:{ assert (Dk 0%nat = D) as E0 by (unfold Dk; simpl; set_solver). exists m, d. rewrite E0.
      split_and!; try done. by apply wrote_nil. }
  intros k s1 Hk (m1 & d1 & -> & Hok1 & Hf1 & Hw1).
  destruct (lookup_lt_is_Some_2 bs k Hk) as [b Hb]. pose proof (list_elem_of_lookup_2 _ _ _ Hb) as Hbin.
  pose proof HL as HL1. rewrite <- (fs_frame_log _ _ Hf1) in HL1.
  rewrite !get_log_bind, (li_dev _ _ _ _ HL1), (li_start _ _ _ _ HL1).
  assert (Hk1 : Z.of_nat k + 1 < nlog) by (pose proof (tx_len _ _ _ Htx); lia).
  rewrite (slot_u32 start nlog Ha k Hk1). destruct (slot_ok start nlog Ha k Hk1) as [Hsl Hin].
  assert (HszDk : (size (Dk k) <= size D)%nat) by (apply subseteq_size; unfold Dk; set_solver).
  eapply wp_mono; [|apply (read_copy_wp m1 d1 _ (Dk k) bs k (slot start k) b (slot start k) b false Hok1 HL1 Hb Hsl)].
  - intros [] s2 Hpost. assert (HW : take (S k) W = take k W ++ [(b, v (slot start k))]).
    { apply take_S_r. unfold W, install_writes. by rewrite list_lookup_imap, Hb. }
    assert (HD : Dk k ∖ {[b]} = Dk (S k)).
    { unfold Dk. rewrite (take_S_r _ _ _ Hb), list_to_set_app_L. simpl. set_solver. }
    rewrite HD in Hpost. rewrite apply_writes_out in Hpost.
    2:{ unfold W, install_writes. rewrite imap_take. intros Hx. apply install_writes_blocks in Hx.
        apply (tx_out _ _ _ Htx (slot start k)); [by eapply elem_take | done]. }
    unfold I. rewrite HW, apply_writes_app. by apply (fs_post_trans d d1 (take k W)).
  - by apply (tx_small _ _ _ Htx).
  - intros E. apply (tx_out _ _ _ Htx b Hbin). by rewrite <- E.
  - done.
  - lia.
  - destruct HbD as [->|[Hnd HbD]]; [right; assert (Dk k = ∅) as -> by (unfold Dk; set_solver); rewrite size_empty; unfold NBUF; lia|].
    left. unfold Dk. apply elem_of_difference. split; [auto|]. rewrite elem_of_list_to_set. intros Hbt.
    apply list_elem_of_lookup in Hbt as [j Hj]. apply lookup_take_Some in Hj as [Hj Hjk].
    pose proof (NoDup_lookup _ _ _ _ Hnd Hj Hb). lia.
Qed.

(** ** The header *)

Lemma write_head_wp m d v D bs :
  fs_ok m d v D D ∅ → log_is (d_log d) start nlog bs → tx_ok start nlog bs → (start ∉ D) → (size D < NBUF)%nat →
  wp R (write_head n (K m d)) (λ _, fs_post d [(start, hdr_of bs (v start))] (bupd v start (hdr_of bs (v start))) D D ∅).
Proof.
  intros Hok HL Htx HnD Hsz. unfold write_head. rewrite !get_log_bind, (li_dev _ _ _ _ HL), (li_start _ _ _ _ HL).
  destruct (start_ok start nlog Ha) as [Hst _]. rewrite (u32_blk start Hst). apply wp_bind.
  eapply wp_mono; [|apply (bread_wp n Hn m d v D D ∅ start Hok Hst)].
  2:{ intros k. by rewrite lookup_empty. }
  2:{ right. rewrite map_size_empty. lia. }
  intros b s1 (_ & m1 & d1 & -> & Hok1 & Hf1 & Hw1). rewrite <- (fs_frame_log _ _ Hf1) in HL.
  rewrite get_log_bind, (li_n _ _ _ _ HL). set (H := <[b := start]> ∅) in *.
  assert (HH : H !! b = Some start) by apply lookup_insert_eq.
  assert (Hlen : length (v start) = Z.to_nat BSIZE) by (destruct Hok as (_ & _ & Hc); by apply (co_len _ _ _ _ _ Hc)).
  set (hk k := hdr_put bs (v start) k).
  assert (Hlk : ∀ k, length (hk k) = Z.to_nat BSIZE) by (intros; unfold hk; by rewrite length_hdr_put).
  destruct (bdata_done n Hn m1 d1 v D D H b start (λ l, st32 l 0 (Z.of_nat (length bs))) Hok1 HH)
    as (d2 & Hrun2 & Hok2 & Hf2 & Hi2); [by rewrite length_st32|].
  unfold mod_bdata at 1. rewrite (bind_done _ _ _ _ _ _ Hrun2). apply wp_bind.
  set (I k := λ s, ∃ d', s = K m1 d' ∧ fs_ok m1 d' (bupd v start (hk k)) ({[start]} ∪ D) D H ∧ fs_frame d1 d' ∧ d_ide d' = d_ide d1).
  eapply wp_mono; [|apply (wp_forM_seqZ R (length bs) _ n I)].
  3:{ exists d2. done. }
  2:{ intros k s2 Hk (d3 & -> & Hok3 & Hf3 & Hi3). destruct (lookup_lt_is_Some_2 bs k Hk) as [bn Hb].
      pose proof HL as HL3. rewrite <- (fs_frame_log _ _ Hf3) in HL3. rewrite (get_lh_block_bind m1 d3 bs k bn _ HL3 Hb).
      destruct (bdata_done n Hn m1 d3 _ _ D H b start (λ l, st32 l (4 + 4 * Z.of_nat k) bn) Hok3 HH)
        as (d4 & Hrun4 & Hok4 & Hf4 & Hi4); [by rewrite length_st32, bupd_eq|].
      unfold mod_bdata. rewrite Hrun4. simpl. exists d4. split_and!; [done | | by etransitivity | congruence].
      assert (E1 : {[start]} ∪ ({[start]} ∪ D) = {[start]} ∪ D) by set_solver. rewrite E1, bupd_eq in Hok4.
      destruct Hok4 as (? & ? & Hc4). split; [done | split; [done|]]. eapply cache_ok_ext; [|exact Hc4].
      intros j. unfold bupd. destruct (j =? start); [|done]. unfold hk. rewrite hdr_put_S. by rewrite (lookup_total_Some _ _ _ Hb). }
  intros [] s3 (d3 & -> & Hok3 & Hf3 & Hi3). apply wp_bind.
  eapply wp_mono; [|apply (bwrite_wp n Hn m1 d3 _ _ D H b start Hok3 HH)].
  cbv beta. rewrite bupd_eq. intros [] s4 (m4 & d4 & -> & Hok4 & Hf4 & Hw4).
  assert (E1 : ({[start]} ∪ D) ∖ {[start]} = D) by set_solver. assert (E2 : D ∖ {[start]} = D) by set_solver.
  rewrite E1, E2 in Hok4.
  destruct (brelse_done n m4 d4 _ _ _ H b start Hok4 HH) as (d5 & Hrun5 & Hok5 & Hf5 & Hi5); [done|].
  rewrite Hrun5. assert (E3 : delete b H = ∅) by (unfold H; by rewrite delete_insert_id). rewrite E3 in Hok5.
  exists m4, d5. split_and!; [done | done | |].
  - by transitivity d1; [|transitivity d3; [|transitivity d4]].
  - apply (wrote_app [] _ d d1); [done|]. apply (wrote_pre _ d1 d3); [done|]. by apply (wrote_post _ d3 d4).
Qed.

(** ** commit *)

Definition cleared (L : logst) : logst := L <| log_lh := log_lh L <| lh_n := 0 |> |>.
Lemma log_is_cleared L bs : log_is L start nlog bs → log_is (cleared L) start nlog [].
Proof. intros [? ? ? ? ? ?]. by split. Qed.
Lemma fs_ok_log m d v E D H L : fs_ok m d v E D H → fs_ok m (d <| d_log := L |>) v E D H.
Proof.
  intros (Ht & Hrd & Hc). split; [by eapply fs_thread_data | split; [by apply (disk_ready_frame d)|]].
  by apply (cache_ok_same d).
Qed.
Lemma fs_frame_set_log d d' L : fs_frame d d' → fs_frame (d <| d_log := L |>) (d' <| d_log := L |>).
Proof.
  intros [Hc Hl]. split; [|done]. change (fs_core (d' <| d_log := L |>)) with (fs_core d' <| d_log := L |>).
  by rewrite Hc.
Qed.

(** [d'] differs from [d] by the writes [ws] and the log in memory. *)
Definition log_post (d : kdata) (L : logst) (ws : list (Z * list Z)) (v : blocks) (E D : gset Z) (H : gmap nat Z) (s' : kst) : Prop :=
  ∃ m' d', s' = K m' d' ∧ fs_ok m' d' v E D H ∧ fs_frame (d <| d_log := L |>) d' ∧ wrote ws d d'.

(** install_trans and clearing the header: the end of a commit and of recovery. *)
Lemma finish_wp m d v D bs :
  fs_ok m d v D D ∅ → log_is (d_log d) start nlog bs → tx_ok start nlog bs →
  (D = ∅ ∨ NoDup bs ∧ ∀ b, b ∈ bs → b ∈ D) → (size D < NBUF)%nat → (start ∉ D) →
  let ws := install_writes start v bs ++ [(start, hdr_of [] (v start))] in
  wp R ((install_trans ;; set_lh_n 0 ;; write_head) n (K m d))
    (λ _, log_post d (cleared (d_log d)) ws (apply_writes ws v) (D ∖ list_to_set bs) (D ∖ list_to_set bs) ∅).
Proof.
  intros Hok HL Htx HbD Hsz HnD ws. apply wp_bind.
  eapply wp_mono; [|by apply install_trans_wp]. intros [] s1 (m1 & d1 & -> & Hok1 & Hf1 & Hw1).
  set (L := cleared (d_log d)).
  rewrite (bind_done _ _ _ _ tt (K m1 (d1 <| d_log := L |>))).
  2:{ unfold set_lh_n, mod_log. rewrite modd_done. unfold L. by rewrite <- (fs_frame_log _ _ Hf1). }
  assert (Hst : apply_writes (install_writes start v bs) v start = v start).
  { apply apply_writes_out. intros Hx%install_writes_blocks. apply (tx_out _ _ _ Htx start Hx), (start_ok start nlog Ha). }
  eapply wp_mono; [|apply (write_head_wp m1 (d1 <| d_log := L |>) (apply_writes (install_writes start v bs) v) (D ∖ list_to_set bs) [])].
  - rewrite Hst. intros [] s2 (m2 & d2 & -> & Hok2 & Hf2 & Hw2). exists m2, d2. split_and!; [done | | |].
    + unfold ws. rewrite apply_writes_app. done.
    + etransitivity; [by apply fs_frame_set_log | done].
    + eapply wrote_app; [exact Hw1|]. by apply (wrote_pre _ d1 (d1 <| d_log := L |>)).
  - by apply fs_ok_log.
  - by eapply log_is_cleared.
  - by apply tx_ok_nil.
  - set_solver.
  - eapply Nat.le_lt_trans; [apply subseteq_size|exact Hsz]. set_solver.
Qed.

Lemma commit_wp m d v bs :
  fs_ok m d v (list_to_set bs) (list_to_set bs) ∅ → log_is (d_log d) start nlog bs → tx_ok start nlog bs →
  NoDup bs → bs ≠ [] →
  wp R (commit n (K m d)) (λ _, log_post d (cleared (d_log d)) (commit_writes start v bs)
    (apply_writes (commit_writes start v bs) v) ∅ ∅ ∅).
Proof.
  intros Hok HL Htx Hnd Hne. unfold commit. rewrite get_log_bind, (li_n _ _ _ _ HL).
  rewrite (proj2 (Z.gtb_gt _ _)) by (destruct bs; simpl; [done|lia]). cbn [when].
  set (D := list_to_set bs : gset Z) in *.
  assert (Hsz : (size D < NBUF)%nat).
  { unfold D. rewrite size_list_to_set by done. destruct (la_size _ _ Ha). pose proof (tx_len _ _ _ Htx).
    unfold LOGSIZE, MAXOPBLOCKS, NBUF in *. lia. }
  assert (HbD : ∀ b, b ∈ bs → b ∈ D) by (intros b Hb; by apply elem_of_list_to_set).
  assert (HDl : ∀ b, b ∈ D → ¬ in_log start nlog b).
  { intros b Hb%elem_of_list_to_set. by apply (tx_out _ _ _ Htx). }
  assert (HnD : start ∉ D) by (intros Hs; by apply (HDl start Hs), (start_ok start nlog Ha)).
  apply wp_bind. eapply wp_mono; [|by apply (write_log_wp m d v D bs)].
  intros [] s1 (m1 & d1 & -> & Hok1 & Hf1 & Hw1). apply wp_bind.
  pose proof HL as HL1. rewrite <- (fs_frame_log _ _ Hf1) in HL1.
  eapply wp_mono; [|by apply (write_head_wp m1 d1 (apply_writes (log_writes start v bs) v) D bs)].
  rewrite (log_writes_start start nlog v bs Htx).
  intros [] s2 (m2 & d2 & -> & Hok2 & Hf2 & Hw2). pose proof HL1 as HL2. rewrite <- (fs_frame_log _ _ Hf2) in HL2.
  eapply wp_mono; [|by apply (finish_wp m2 d2 (bupd (apply_writes (log_writes start v bs) v) start (hdr_of bs (v start))) D bs); auto].
  rewrite (install_home start v bs), bupd_eq.
  intros [] s3 (m3 & d3 & -> & Hok3 & Hf3 & Hw3). exists m3, d3. split_and!; [done | | |].
  - unfold commit_writes. rewrite !apply_writes_app in *. assert (E1 : D ∖ list_to_set bs = ∅) by (unfold D; set_solver).
    rewrite E1 in Hok3. done.
  - rewrite (fs_frame_log _ _ Hf2), (fs_frame_log _ _ Hf1) in Hf3. etransitivity; [|exact Hf3].
    apply fs_frame_set_log. by transitivity d1.
  - unfold commit_writes. eapply wrote_app; [exact Hw1|]. eapply wrote_app; [exact Hw2|]. exact Hw3.
Qed.

(** ** Recovery *)

(** The log's constants are set, whatever its header. *)
Record log_set (L : logst) : Prop := {
  ls_start : log_start L = start;
  ls_size : log_size L = nlog;
  ls_dev : log_dev L = ROOTDEV;
  ls_len : length (lh_block (log_lh L)) = Z.to_nat LOGSIZE
}.
(** The header read from [l], after the first [k] blocks. *)
Definition lh_read (l : list Z) (k : nat) (L : logst) : logst :=
  L <| log_lh := Logheader (hdr_n l) ((hdr_block l <$> seq 0 k) ++ drop k (lh_block (log_lh L))) |>.

Lemma fill_prefix {A} (f : nat → A) (l : list A) k :
  (k < length l)%nat → <[k := f k]> ((f <$> seq 0 k) ++ drop k l) = (f <$> seq 0 (S k)) ++ drop (S k) l.
Proof.
  intros Hk. destruct (lookup_lt_is_Some_2 l k Hk) as [x Hx]. rewrite (drop_S l x k Hx).
  rewrite insert_app_r_alt by (rewrite length_fmap, length_seq; lia).
  rewrite length_fmap, length_seq, Nat.sub_diag, seq_S, fmap_app, <- app_assoc. done.
Qed.
Lemma set_lh_block_done m d l k L :
  d_log d = lh_read l k L → log_set L → (k < Z.to_nat LOGSIZE)%nat →
  set_lh_block (Z.of_nat k) (hdr_block l k) n (K m d) = Done tt (K m (d <| d_log := lh_read l (S k) L |>)).
Proof.
  intros Hd HL Hk. unfold set_lh_block. rewrite get_log_bind, Hd.
  set (bl := (hdr_block l <$> seq 0 k) ++ drop k (lh_block (log_lh L))).
  change (lh_block (log_lh (lh_read l k L))) with bl.
  assert (Hlen : length bl = Z.to_nat LOGSIZE).
  { unfold bl. rewrite length_app, length_fmap, length_seq, length_drop, (ls_len _ HL). lia. }
  rewrite Hlen, (proj2 (Z.ltb_ge _ _)), (proj2 (Z.leb_gt _ _)) by lia. cbn [orb].
  unfold mod_log. rewrite modd_done, Hd, Nat2Z.id. do 2 f_equal.
  assert (E1 : <[k := hdr_block l k]> bl = (hdr_block l <$> seq 0 (S k)) ++ drop (S k) (lh_block (log_lh L))).
  { apply fill_prefix. by rewrite (ls_len _ HL). }
  unfold lh_read. rewrite <- E1. done.
Qed.

Lemma read_head_wp m d v L :
  fs_ok m d v ∅ ∅ ∅ → d_log d = L → log_set L → hdr_ok start nlog (v start) →
  wp R (read_head n (K m d)) (λ _, log_post d (lh_read (v start) (length (hdr_blocks (v start))) L) [] v ∅ ∅ ∅).
Proof.
  intros Hok Hd HL [Hn0 Htx]. unfold read_head. rewrite !get_log_bind, Hd, (ls_dev _ HL), (ls_start _ HL).
  destruct (start_ok start nlog Ha) as [Hst _]. rewrite (u32_blk start Hst). apply wp_bind.
  eapply wp_mono; [|apply (bread_wp n Hn m d v ∅ ∅ ∅ start Hok Hst)].
  2:{ intros k. by rewrite lookup_empty. }
  2:{ right. rewrite map_size_empty, size_empty. unfold NBUF. lia. }
  intros b s1 (_ & m1 & d1 & -> & Hok1 & Hf1 & Hw1). set (H := <[b := start]> ∅) in *.
  assert (HH : H !! b = Some start) by apply lookup_insert_eq. pose proof Hok1 as (_ & _ & Hc1).
  pose proof (co_held _ _ _ _ _ Hc1 _ _ HH) as Hb. destruct (co_lookup _ _ _ _ _ b Hc1 Hb) as [x Hx].
  destruct (held_facts _ _ _ _ _ Hc1 _ _ HH _ Hx) as (_ & _ & _ & _ & _ & Hdata & _).
  rewrite (get_buf_bind n m1 d1 b x _ Hx), Hdata. set (l := v start) in *.
  rewrite (bind_done _ _ _ _ tt (K m1 (d1 <| d_log := lh_read l 0 L |>))).
  2:{ unfold set_lh_n, mod_log. rewrite modd_done, (fs_frame_log _ _ Hf1), Hd. done. }
  set (k0 := length (hdr_blocks l)). assert (Hk0 : Z.of_nat k0 = hdr_n l) by by apply hdr_blocks_length.
  rewrite get_log_bind. change (lh_n (log_lh (d_log (d1 <| d_log := lh_read l 0 L |>)))) with (hdr_n l). rewrite <- Hk0.
  apply wp_bind. set (I k := λ s, s = K m1 (d1 <| d_log := lh_read l k L |>)).
  eapply wp_mono; [|apply (wp_forM_seqZ R k0 _ n I); [|done]].
  2:{ intros k s2 Hk ->. fold (hdr_block l k). rewrite (set_lh_block_done m1 _ l k L); [done | done | done |].
      pose proof (tx_len _ _ _ Htx) as Hk1. fold k0 in Hk1. destruct (la_size _ _ Ha). lia. }
  intros [] s3 ->. set (d3 := d1 <| d_log := _ |>).
  assert (Hok3 : fs_ok m1 d3 v ∅ ∅ H) by by apply fs_ok_log.
  destruct (brelse_done n m1 d3 v ∅ ∅ H b start Hok3 HH) as (d4 & Hrun4 & Hok4 & Hf4 & Hi4); [done|].
  rewrite Hrun4. assert (E3 : delete b H = ∅) by (unfold H; by rewrite delete_insert_id). rewrite E3 in Hok4.
  exists m1, d4. split_and!; [done | done | |].
  - etransitivity; [by apply fs_frame_set_log | done].
  - by apply (wrote_post _ d d1).
Qed.

Lemma lh_read_is L l : log_set L → hdr_ok start nlog l → log_is (lh_read l (length (hdr_blocks l)) L) start nlog (hdr_blocks l).
Proof.
  intros [Hs Hz Hd Hl] [Hn0 Htx]. pose proof (hdr_blocks_length l Hn0) as Hk0.
  assert (Hk : (length (hdr_blocks l) <= Z.to_nat LOGSIZE)%nat).
  { pose proof (tx_len _ _ _ Htx). destruct (la_size _ _ Ha). lia. }
  assert (E1 : hdr_block l <$> seq 0 (length (hdr_blocks l)) = hdr_blocks l).
  { unfold hdr_blocks at 2. by rewrite <- Hk0, Nat2Z.id. }
  split; try done; cbn; rewrite ?E1.
  - rewrite length_app, length_drop, Hl. lia.
  - by rewrite take_app_length.
Qed.

Lemma recover_from_log_wp m d v L :
  fs_ok m d v ∅ ∅ ∅ → d_log d = L → log_set L → hdr_ok start nlog (v start) →
  wp R (recover_from_log n (K m d))
    (λ _, log_post d (cleared (lh_read (v start) (length (hdr_blocks (v start))) L)) (recover_writes start v) (recovered start v) ∅ ∅ ∅).
Proof.
  intros Hok Hd HL Hh. unfold recover_from_log. apply wp_bind.
  eapply wp_mono; [|by apply (read_head_wp m d v L)]. set (L1 := lh_read _ _ L).
  intros [] s1 (m1 & d1 & -> & Hok1 & Hf1 & Hw1).
  assert (Hd1 : d_log d1 = L1) by apply (fs_frame_log _ _ Hf1).
  eapply wp_mono; [|apply (finish_wp m1 d1 v ∅ (hdr_blocks (v start)) Hok1)].
  - intros [] s2 (m2 & d2 & -> & Hok2 & Hf2 & Hw2). assert (E1 : ∅ ∖ list_to_set (hdr_blocks (v start)) = (∅ : gset Z)) by set_solver.
    rewrite E1 in Hok2. exists m2, d2. split_and!; [done | done | | by apply (wrote_app [] _ d d1)].
    rewrite Hd1 in Hf2. etransitivity; [|exact Hf2].
    exact (fs_frame_set_log (d <| d_log := L1 |>) d1 (cleared L1) Hf1).
  - rewrite Hd1. by apply lh_read_is.
  - apply Hh.
  - by left.
  - rewrite size_empty. unfold NBUF. lia.
  - set_solver.
Qed.

Lemma readsb_wp m d v :
  fs_ok m d v ∅ ∅ ∅ →
  wp R (readsb ROOTDEV n (K m d)) (λ sb s', sb = sb_of (v 1) ∧ fs_post d [] v ∅ ∅ ∅ s').
Proof.
  intros Hok. unfold readsb. apply wp_bind.
  eapply wp_mono; [|apply (bread_wp n Hn m d v ∅ ∅ ∅ 1 Hok)].
  2:{ unfold is_blk, FSSIZE. lia. }
  2:{ intros k. by rewrite lookup_empty. }
  2:{ right. rewrite map_size_empty, size_empty. unfold NBUF. lia. }
  intros b s1 (_ & m1 & d1 & -> & Hok1 & Hf1 & Hw1). set (H := <[b := 1]> ∅) in *.
  assert (HH : H !! b = Some 1) by apply lookup_insert_eq. pose proof Hok1 as (_ & _ & Hc1).
  pose proof (co_held _ _ _ _ _ Hc1 _ _ HH) as Hb. destruct (co_lookup _ _ _ _ _ b Hc1 Hb) as [x Hx].
  destruct (held_facts _ _ _ _ _ Hc1 _ _ HH _ Hx) as (_ & _ & _ & _ & _ & Hdata & _).
  rewrite (get_buf_bind n m1 d1 b x _ Hx), Hdata.
  destruct (brelse_done n m1 d1 v ∅ ∅ H b 1 Hok1 HH) as (d4 & Hrun4 & Hok4 & Hf4 & Hi4); [done|].
  rewrite (bind_done _ _ _ _ _ _ Hrun4). assert (E3 : delete b H = ∅) by (unfold H; by rewrite delete_insert_id).
  rewrite E3 in Hok4. split; [done|]. exists m1, d4.
  split_and!; [done | done | by transitivity d1 | by apply (wrote_post _ d d1)].
Qed.

Lemma fs_thread_initlock m d lk name :
  fs_thread p m d → initlock lk name n (K m d) = Done tt (K (m <| m_locks := <[lk := Spinlock 0 name None]> (m_locks m) |>) d)
    ∧ fs_thread p (m <| m_locks := <[lk := Spinlock 0 name None]> (m_locks m) |>) d.
Proof.
  intros [(i & c & [Hok Hp Hd Hif]) Hf Hl Hpn Hcr]. split; [done|]. split; [|intros lk' Hlk'|done|done|done].
  - exists i, c. split; try done. destruct Hok. by split.
  - destruct (decide (lk' = lk)) as [->|Hne]; [eexists; apply lookup_insert_eq|].
    destruct (Hf lk' Hlk') as [nm Hnm]. exists nm. simpl. by rewrite lookup_insert_ne.
Qed.

Lemma initlog_wp m d v :
  fs_ok m d v ∅ ∅ ∅ → length (lh_block (log_lh (d_log d))) = Z.to_nat LOGSIZE →
  sb_logstart (sb_of (v 1)) = start → sb_nlog (sb_of (v 1)) = nlog → hdr_ok start nlog (v start) →
  wp R (initlog ROOTDEV n (K m d)) (λ _ s', ∃ m' d', s' = K m' d' ∧ fs_ok m' d' (recovered start v) ∅ ∅ ∅
    ∧ log_is (d_log d') start nlog [] ∧ fs_frame (d <| d_log := d_log d' |>) d' ∧ wrote (recover_writes start v) d d').
Proof.
  intros (Ht & Hrd & Hc) Hlen Hs Hz Hh. unfold initlog. change (sizeof_logheader >=? BSIZE) with false. cbn [negb].
  destruct (fs_thread_initlock m d L_log "log" Ht) as [Hrun0 Ht0]. rewrite (bind_done _ _ _ _ _ _ Hrun0).
  set (m0 := m <| m_locks := _ |>) in *. apply wp_bind.
  eapply wp_mono; [|apply (readsb_wp m0 d v); by split]. intros sb s1 (-> & m1 & d1 & -> & Hok1 & Hf1 & Hw1).
  destruct Ha as [Ha1 Ha2 Ha3]. assert (Hs32 : s32 start = start ∧ s32 nlog = nlog).
  { split; apply s32_small; unfold FSSIZE, LOGSIZE, MAXOPBLOCKS in *; lia. }
  rewrite Hs, Hz, (proj1 Hs32), (proj2 Hs32). unfold mod_log. rewrite !bind_modd.
  set (L1 := d_log d <| log_start := start |> <| log_size := nlog |> <| log_dev := ROOTDEV |>).
  assert (E1 : ∀ d0, d_log d0 = d_log d → (d0 <| d_log := d_log d0 <| log_start := start |> |>
      <| d_log := d_log d0 <| log_start := start |> <| log_size := nlog |> |>
      <| d_log := d_log d0 <| log_start := start |> <| log_size := nlog |> <| log_dev := ROOTDEV |> |>)
      = d0 <| d_log := L1 |>) by (intros d0 E0; unfold L1; rewrite <- E0; done).
  pose proof (fs_frame_log _ _ Hf1) as El. specialize (E1 d1 El).
  change (wp R (recover_from_log n (K m1 (d1 <| d_log := d_log d1 <| log_start := start |> |>
      <| d_log := d_log d1 <| log_start := start |> <| log_size := nlog |> |>
      <| d_log := d_log d1 <| log_start := start |> <| log_size := nlog |> <| log_dev := ROOTDEV |> |>)))
    (λ _ s', ∃ m' d', s' = K m' d' ∧ fs_ok m' d' (recovered start v) ∅ ∅ ∅
    ∧ log_is (d_log d') start nlog [] ∧ fs_frame (d <| d_log := d_log d' |>) d' ∧ wrote (recover_writes start v) d d')).
  rewrite E1. assert (HL1 : log_set L1) by (by split).
  eapply wp_mono; [|apply (recover_from_log_wp m1 (d1 <| d_log := L1 |>) v L1); [by apply fs_ok_log | done..]].
  intros [] s2 (m2 & d2 & -> & Hok2 & Hf2 & Hw2). exists m2, d2.
  pose proof (fs_frame_log _ _ Hf2) as El2. cbn [d_log] in El2. split_and!; [done | done | | |].
  - rewrite El2. by apply (log_is_cleared _ (hdr_blocks (v start))), lh_read_is.
  - rewrite El2. etransitivity; [|exact Hf2]. exact (fs_frame_set_log d d1 _ Hf1).
  - apply (wrote_app [] _ d d1); [done|]. by apply (wrote_pre _ d1 (d1 <| d_log := L1 |>)).
Qed.
End log.
