(* ===== verification/CrashFacts.v ===== *)
(** * CrashFacts: what a crash leaves of a transaction

    A crash cuts the sequence of block writes short.  Recovery then makes of
    the disk either what it was before the transaction or what the transaction
    made of it, and a crash during recovery changes nothing of that. *)

From S2P Require Import Prelude Memory Kstate Spinlock Kalloc Cprintf Vm Sched SchedFacts Sleeplock.
From S2P Require Import Bio BioRing BioFacts Ide IdeFacts Log LogFacts.

(** Two disks agree on the file system's blocks outside the log. *)
Definition same_files (start nlog : Z) (v w : blocks) : Prop :=
  ∀ b, is_blk b → ¬ in_log start nlog b → v b = w b.

Section crash.
Context (start nlog : Z) (Ha : log_area start nlog).

Lemma not_log_start b : ¬ in_log start nlog b → b ≠ start.
Proof. intros Hb ->. apply Hb, (start_ok _ _ Ha). Qed.

(** Outside the log, recovery is the installation of the logged blocks. *)
Lemma recovered_home w b :
  ¬ in_log start nlog b → recovered start w b = apply_writes (install_writes start w (hdr_blocks (w start))) w b.
Proof.
  intros Hb. unfold recovered, recover_writes. rewrite apply_writes_app. simpl. apply bupd_ne.
  by apply not_log_start.
Qed.
Lemma recovered_empty w b : hdr_n (w start) = 0 → ¬ in_log start nlog b → recovered start w b = w b.
Proof. intros H0 Hb. rewrite recovered_home by done. unfold hdr_blocks. by rewrite H0. Qed.
Lemma hdr_ok_empty l : hdr_n l = 0 → hdr_ok start nlog l.
Proof. intros H0. split; [lia|]. unfold hdr_blocks. rewrite H0. by apply tx_ok_nil. Qed.

Lemma home_writes_in v w bs b : b ∈ bs → apply_writes (home_writes v bs) w b = v b.
Proof.
  unfold home_writes. revert w. induction bs as [|c bs IH] using rev_ind; intros w Hb; [by apply not_elem_of_nil in Hb|].
  rewrite fmap_app, apply_writes_app. simpl. unfold bupd. destruct (Z.eqb_spec b c) as [->|Hne]; [done|].
  apply IH. apply elem_of_app in Hb as [?|?%list_elem_of_singleton]; done.
Qed.

Section commit.
Context (v w : blocks) (bs : list Z) (Htx : tx_ok start nlog bs).
Context (Hlen : length (v start) = Z.to_nat BSIZE) (H0 : hdr_n (w start) = 0).
Context (Hw : ∀ b, is_blk b → b ∉ bs → w b = v b).

Let ws := commit_writes start v bs.
Let h1 := hdr_of bs (v start).
Let h0 := hdr_of [] h1.

Lemma tx_count : (length bs <= Z.to_nat LOGSIZE)%nat.
Proof. pose proof (tx_len _ _ _ Htx). destruct (la_size _ _ Ha). lia. Qed.
Lemma hdr_h0 : hdr_n h0 = 0.
Proof. unfold h0. rewrite hdr_of_n; [done | simpl; lia |]. by apply hdr_of_length. Qed.

(** Before the header is written: the old contents. *)
Lemma crash_before k :
  (k <= length bs)%nat → let c := apply_writes (take k ws) w in hdr_n (c start) = 0 ∧ same_files start nlog c w.
Proof.
  intros Hk c. assert (Hc : take k ws = log_writes start v (take k bs)).
  { unfold ws, commit_writes. rewrite take_app_le by (unfold log_writes; rewrite length_imap; lia).
    unfold log_writes. apply imap_take. }
  assert (Hn : Z.of_nat (length (take k bs)) < nlog) by (rewrite length_take; pose proof (tx_len _ _ _ Htx); lia).
  unfold c. rewrite Hc. split.
  - rewrite apply_writes_out; [done|]. intros Hx. by apply (log_writes_area start nlog) in Hx as [_ Hx].
  - intros b _ Hb. apply apply_writes_out. intros Hx. by apply (log_writes_area start nlog) in Hx as [Hx _].
Qed.

(** The disk after the log and [j] of the writes that follow. *)
Lemma crash_slot j i b :
  bs !! i = Some b →
  apply_writes (take j (home_writes v bs)) (bupd (apply_writes (log_writes start v bs) w) start h1) (slot start i) = v b.
Proof.
  intros Hb. assert (Hi : Z.of_nat i + 1 < nlog) by (apply lookup_lt_Some in Hb; pose proof (tx_len _ _ _ Htx); lia).
  rewrite apply_writes_out.
  - rewrite bupd_ne by (unfold slot; lia). by apply log_writes_slot.
  - unfold home_writes. rewrite <- fmap_take, <- list_fmap_compose. intros (c & Ec & Hc%elem_take)%list_elem_of_fmap.
    simpl in Ec. subst c. apply (tx_out _ _ _ Htx _ Hc). by apply slot_ok.
Qed.
Lemma crash_start j u :
  apply_writes (take j (home_writes v bs)) u start = u start.
Proof.
  apply apply_writes_out. unfold home_writes. rewrite <- fmap_take, <- list_fmap_compose.
  intros (c & Ec & Hc%elem_take)%list_elem_of_fmap. simpl in Ec. subst c. by apply (tx_out _ _ _ Htx _ Hc), start_ok.
Qed.

(** Outside the log, with the blocks of the transaction written home or not. *)
Lemma crash_home j b :
  is_blk b → ¬ in_log start nlog b → (b ∉ bs) ∨ (length bs <= j)%nat →
  apply_writes (take j (home_writes v bs)) (bupd (apply_writes (log_writes start v bs) w) start h1) b = v b.
Proof.
  intros Hblk Hb Hj. destruct (decide (b ∈ bs)) as [Hin|Hout].
  - destruct Hj as [|Hj]; [done|]. rewrite take_ge by (unfold home_writes; by rewrite length_fmap).
    by apply home_writes_in.
  - rewrite apply_writes_out.
    + rewrite bupd_ne by by apply not_log_start. rewrite (log_writes_home start nlog v bs Htx) by done. auto.
    + unfold home_writes. rewrite <- fmap_take, <- list_fmap_compose.
      intros (c & Ec & Hc%elem_take)%list_elem_of_fmap. simpl in Ec. by subst c.
Qed.

(** From the header's write on: the new contents. *)
Lemma crash_after k :
  (length bs < k)%nat → let c := apply_writes (take k ws) w in
  hdr_ok start nlog (c start) ∧ same_files start nlog (recovered start c) v.
Proof.
  intros Hk c. set (u := bupd (apply_writes (log_writes start v bs) w) start h1).
  destruct (decide (k <= 2 * length bs + 1)%nat) as [Hle|Hgt].
  - set (j := (k - length bs - 1)%nat).
    assert (Hc : c = apply_writes (take j (home_writes v bs)) u).
    { unfold c, ws, commit_writes. rewrite take_app_ge by (unfold log_writes; rewrite length_imap; lia).
      rewrite apply_writes_app. unfold log_writes at 1. rewrite length_imap.
      replace (k - length bs)%nat with (S j) by lia. simpl. f_equal.
      apply take_app_le. unfold home_writes. rewrite length_fmap. lia. }
    assert (Hs : c start = h1) by (rewrite Hc, crash_start by done; apply bupd_eq).
    assert (Hbs : hdr_blocks h1 = bs) by (apply hdr_of_blocks; [apply Htx | apply tx_count | done]).
    rewrite Hs. split.
    { split; [|by rewrite Hbs]. unfold h1. rewrite hdr_of_n; [lia | apply tx_count | done]. }
    intros b Hblk Hb. rewrite recovered_home, Hs, Hbs by done.
    assert (Hi : install_writes start c bs = home_writes v bs).
    { unfold install_writes, home_writes. apply list_eq. intros i. rewrite list_lookup_imap, list_lookup_fmap.
      destruct (bs !! i) as [x|] eqn:Hx; [|done]. simpl. do 2 f_equal. rewrite Hc. by apply crash_slot. }
    rewrite Hi. destruct (decide (b ∈ bs)) as [Hin|Hout]; [by apply home_writes_in|].
    rewrite home_writes_out, Hc by done. apply crash_home; auto.
  - assert (Hc : c = bupd (apply_writes (home_writes v bs) u) start h0).
    { unfold c. rewrite take_ge by (unfold ws, commit_writes, log_writes, home_writes;
        rewrite !length_app, length_imap, length_fmap; simpl; lia).
      unfold ws, commit_writes. rewrite !apply_writes_app. done. }
    assert (Hs : c start = h0) by (rewrite Hc; apply bupd_eq).
    rewrite Hs. split; [apply hdr_ok_empty, hdr_h0|].
    intros b Hblk Hb. rewrite recovered_empty by (rewrite ?Hs; auto using hdr_h0).
    rewrite Hc, bupd_ne by by apply not_log_start.
    rewrite <- (take_ge (home_writes v bs) (length bs)) by (unfold home_writes; by rewrite length_fmap).
    apply crash_home; auto.
Qed.
End commit.

(** The last write of a block decides. *)
Lemma apply_writes_in ws u u' b : b ∈ ws.*1 → apply_writes ws u b = apply_writes ws u' b.
Proof.
  induction ws as [|[c l] ws IH] using rev_ind; [by intros ?%not_elem_of_nil|].
  rewrite fmap_app. intros Hb. rewrite !apply_writes_app. simpl. unfold bupd. destruct (Z.eqb_spec b c); [done|].
  apply IH. apply elem_of_app in Hb as [?|?%list_elem_of_singleton]; done.
Qed.

(** Recovery looks only at blocks of the disk. *)
Lemma apply_writes_at ws u u' b : u b = u' b → apply_writes ws u b = apply_writes ws u' b.
Proof.
  intros Hu. destruct (decide (b ∈ ws.*1)) as [Hin|Hout]; [by apply apply_writes_in|].
  by rewrite !apply_writes_out.
Qed.
Lemma recovered_blk c c' :
  (∀ b, is_blk b → c b = c' b) → hdr_ok start nlog (c start) → same_files start nlog (recovered start c) (recovered start c').
Proof.
  intros Hcc [_ Htx] b Hblk Hb. destruct (start_ok start nlog Ha) as [Hst _]. rewrite !recovered_home by done.
  rewrite <- (Hcc start Hst). assert (Hi : install_writes start c' (hdr_blocks (c start)) = install_writes start c (hdr_blocks (c start))).
  { unfold install_writes. apply list_eq. intros i. rewrite !list_lookup_imap.
    destruct (hdr_blocks (c start) !! i) as [x|] eqn:Hx; [|done]. simpl. do 2 f_equal. symmetry. apply Hcc.
    apply (slot_ok start nlog Ha). apply lookup_lt_Some in Hx. pose proof (tx_len _ _ _ Htx). lia. }
  rewrite Hi. apply apply_writes_at. by apply Hcc.
Qed.

(** A crash while recovery runs: it starts again with the same result. *)
Lemma crash_recovering v k :
  hdr_ok start nlog (v start) → length (v start) = Z.to_nat BSIZE →
  let c := apply_writes (take k (recover_writes start v)) v in
  hdr_ok start nlog (c start) ∧ same_files start nlog (recovered start c) (recovered start v).
Proof.
  intros Hh Hlen c. set (bs := hdr_blocks (v start)). pose proof (ho_tx _ _ _ Hh) as Htx. fold bs in Htx.
  set (W := install_writes start v bs). assert (HlW : length W = length bs) by apply length_imap.
  assert (HW : ∀ j b, (b ∉ bs) → apply_writes (take j W) v b = v b).
  { intros j b Hb. apply apply_writes_out. intros Hx. apply Hb, (install_writes_blocks start v).
    rewrite fmap_take in Hx. by apply elem_take in Hx. }
  assert (Hout : ∀ b, in_log start nlog b → b ∉ bs) by (intros b Hb Hin; by apply (tx_out _ _ _ Htx b)).
  destruct (decide (k <= length bs)%nat) as [Hle|Hgt].
  - assert (Hc : c = apply_writes (take k W) v).
    { unfold c, recover_writes. by rewrite take_app_le by (fold bs; fold W; lia). }
    assert (Hs : c start = v start) by (rewrite Hc; apply HW, Hout, start_ok, Ha).
    rewrite Hs. split; [done|]. intros b Hblk Hb. rewrite !recovered_home, Hs by done. fold bs.
    assert (Hi : install_writes start c bs = W).
    { unfold W, install_writes. apply list_eq. intros i. rewrite !list_lookup_imap.
      destruct (bs !! i) as [x|] eqn:Hx; [|done]. simpl. do 2 f_equal. rewrite Hc. apply HW, Hout, slot_ok; [done|].
      apply lookup_lt_Some in Hx. pose proof (tx_len _ _ _ Htx). lia. }
    rewrite Hi. fold W. destruct (decide (b ∈ bs)) as [Hin|Hnin].
    + apply apply_writes_in. unfold W, install_writes. rewrite fmap_imap. apply list_elem_of_lookup in Hin as [i Hi'].
      apply elem_of_lookup_imap. exists i, b. done.
    + rewrite (apply_writes_out W c), (apply_writes_out W v), Hc by (intros Hx%install_writes_blocks; done). by apply HW.
  - assert (Hc : c = bupd (apply_writes W v) start (hdr_of [] (v start))).
    { unfold c. rewrite take_ge by (unfold recover_writes; rewrite length_app; fold bs; fold W; simpl; lia).
      unfold recover_writes. by rewrite apply_writes_app. }
    assert (Hs : hdr_n (c start) = 0) by (rewrite Hc, bupd_eq, hdr_of_n; simpl; [done | lia | done]).
    split; [by apply hdr_ok_empty|]. intros b Hblk Hb. rewrite recovered_empty, recovered_home by done.
    rewrite Hc. apply bupd_ne. by apply not_log_start.
Qed.
End crash.

(** The whole of a commit: what it leaves, and what a crash inside leaves. *)
Lemma commit_crash {Drv : Disk} {p : nat} {R : wait_reason → kst → kst → Prop} {DL : DiskLaw p R}
    n start nlog m d v bs :
  (2 <= n)%nat → log_area start nlog →
  fs_ok m d v (list_to_set bs) (list_to_set bs) ∅ → log_is (d_log d) start nlog bs → tx_ok start nlog bs →
  NoDup bs → bs ≠ [] → hdr_n (disk_of d start) = 0 →
  wp R (commit n (K m d)) (λ _ s', ∃ m' d' v' ws, s' = K m' d' ∧ fs_frame (d <| d_log := cleared (d_log d) |>) d' ∧ fs_ok m' d' v' ∅ ∅ ∅ ∧ wrote ws d d'
    ∧ log_is (d_log d') start nlog [] ∧ hdr_n (disk_of d' start) = 0
    ∧ same_files start nlog v' v ∧ same_files start nlog (disk_of d') v
    ∧ ∀ k, let crash := apply_writes (take k ws) (disk_of d) in
        hdr_ok start nlog (crash start)
        ∧ same_files start nlog (recovered start crash) (if decide (k <= length bs)%nat then disk_of d else v)).
Proof.
  intros Hn Ha Hok HL Htx Hnd Hne H0. pose proof Hok as (_ & _ & Hc).
  assert (Hst : is_blk start ∧ (start ∉ (list_to_set bs : gset Z))).
  { destruct (start_ok start nlog Ha) as [Hb Hl]. split; [done|]. intros Hin%elem_of_list_to_set.
    by apply (tx_out _ _ _ Htx start). }
  assert (Hlen : length (v start) = Z.to_nat BSIZE) by (apply (co_len _ _ _ _ _ Hc), Hst).
  assert (Hdv : ∀ b, is_blk b → b ∉ bs → disk_of d b = v b).
  { intros b Hb Hnin. apply (co_disk _ _ _ _ _ Hc); [done|]. by rewrite elem_of_list_to_set. }
  eapply wp_mono; [|by apply (commit_wp n Hn start nlog Ha m d v bs)].
  intros [] s' (m' & d' & -> & Hok' & Hf' & Hw'). exists m', d', (apply_writes (commit_writes start v bs) v), (commit_writes start v bs).
  pose proof (crash_after start nlog Ha v (disk_of d) bs Htx Hlen Hdv) as Haft.
  assert (Hall : disk_of d' start = hdr_of [] (hdr_of bs (v start))).
  { rewrite (wr_disk _ _ _ Hw'). unfold commit_writes. rewrite !apply_writes_app. apply bupd_eq. }
  assert (Hn0 : hdr_n (disk_of d' start) = 0) by (rewrite Hall; by apply hdr_h0).
  assert (Hd' : same_files start nlog (disk_of d') v).
  { destruct (Haft (S (length bs) + length (commit_writes start v bs))%nat) as [_ Hr]; [lia|].
    intros b Hb Hl. rewrite <- (Hr b Hb Hl). rewrite take_ge by lia.
    rewrite (wr_disk _ _ _ Hw'). symmetry. eapply recovered_empty; [done | | done].
    by rewrite <- (wr_disk _ _ _ Hw'). }
  split_and!; [done | done | done | done | | done | | done |].
  - rewrite (fs_frame_log _ _ Hf'). by eapply log_is_cleared.
  - intros b Hb Hl. rewrite <- (Hd' b Hb Hl). symmetry. destruct Hok' as (_ & _ & Hc').
    apply (co_disk _ _ _ _ _ Hc'); [done | set_solver].
  - intros k crash. destruct (decide (k <= length bs)%nat) as [Hle|Hgt].
    + destruct (crash_before start nlog v (disk_of d) bs Htx Hlen H0 k Hle) as [Hb0 Hs].
      split; [by apply hdr_ok_empty|]. intros b Hb Hl. rewrite <- (Hs b Hb Hl). by eapply recovered_empty.
    + apply Haft. lia.
Qed.

(** C3: commit writes the blocks of a transaction to the disk so that a crash at any
    point loses all of it or none.  It runs without panicking or waiting forever on any driver that keeps its law,
    and when it returns the disk has the new contents of every block outside the log, the
    cache holds nothing that is not on the disk, and the log is empty.  Cut after any
    number [k] of its block writes, the disk has a header recovery accepts, and the recovered
    disk is the old one up to the write of the header, and the new one from then on. *)
Theorem commit_crash_safe {Drv : Disk} {p : nat} {R : wait_reason → kst → kst → Prop} {DL : DiskLaw p R}
    n start nlog m d v bs :
  (2 <= n)%nat → log_area start nlog →
  fs_ok m d v (list_to_set bs) (list_to_set bs) ∅ → log_is (d_log d) start nlog bs → tx_ok start nlog bs →
  NoDup bs → bs ≠ [] → hdr_n (disk_of d start) = 0 →
  wp R (commit n (K m d)) (λ _ s', ∃ m' d' v' ws, s' = K m' d' ∧ fs_ok m' d' v' ∅ ∅ ∅ ∧ wrote ws d d'
    ∧ log_is (d_log d') start nlog [] ∧ hdr_n (disk_of d' start) = 0
    ∧ same_files start nlog v' v ∧ same_files start nlog (disk_of d') v
    ∧ ∀ k, let crash := apply_writes (take k ws) (disk_of d) in
        hdr_ok start nlog (crash start)
        ∧ same_files start nlog (recovered start crash) (if decide (k <= length bs)%nat then disk_of d else v)).
Proof.
  intros. eapply wp_mono; [|by apply commit_crash]. intros [] s' (m' & d' & v' & ws & -> & _ & Hpost). by exists m', d', v', ws.
Qed.

(** C31: initlog finds the log through the super block and makes the disk [recovered]:
    the blocks of a committed transaction are copied home, an uncommitted one is
    dropped, and the log is empty, in memory and on the disk.  A crash after any number of
    its block writes leaves a disk that recovers to the same files. *)
Theorem initlog_recovers {Drv : Disk} {p : nat} {R : wait_reason → kst → kst → Prop} {DL : DiskLaw p R}
    n start nlog m d v :
  (2 <= n)%nat → log_area start nlog → fs_ok m d v ∅ ∅ ∅ →
  length (lh_block (log_lh (d_log d))) = Z.to_nat LOGSIZE →
  sb_logstart (sb_of (v 1)) = start → sb_nlog (sb_of (v 1)) = nlog → hdr_ok start nlog (v start) →
  wp R (initlog ROOTDEV n (K m d)) (λ _ s', ∃ m' d' ws, s' = K m' d' ∧ fs_ok m' d' (recovered start v) ∅ ∅ ∅
    ∧ log_is (d_log d') start nlog [] ∧ hdr_n (disk_of d' start) = 0 ∧ wrote ws d d'
    ∧ (∀ b, is_blk b → disk_of d' b = recovered start v b)
    ∧ ∀ k, let crash := apply_writes (take k ws) (disk_of d) in
        hdr_ok start nlog (crash start) ∧ same_files start nlog (recovered start crash) (recovered start v)).
Proof.
  intros Hn Ha Hok Hlen Hs Hz Hh. pose proof Hok as (_ & _ & Hc).
  destruct (start_ok start nlog Ha) as [Hst _].
  assert (Hl : length (v start) = Z.to_nat BSIZE) by by apply (co_len _ _ _ _ _ Hc).
  assert (Hdv : ∀ b, is_blk b → disk_of d b = v b) by (intros b Hb; apply (co_disk _ _ _ _ _ Hc); [done | set_solver]).
  eapply wp_mono; [|by apply (initlog_wp n Hn start nlog Ha m d v)].
  intros [] s' (m' & d' & -> & Hok' & HL' & Hf' & Hw'). exists m', d', (recover_writes start v).
  pose proof Hok' as (_ & _ & Hc').
  assert (Hd' : ∀ b, is_blk b → disk_of d' b = recovered start v b).
  { intros b Hb. apply (co_disk _ _ _ _ _ Hc'); [done | set_solver]. }
  split_and!; [done | done | done | | done | done |].
  - rewrite Hd' by done. unfold recovered, recover_writes. rewrite apply_writes_app. simpl. rewrite bupd_eq.
    rewrite hdr_of_n; [done | simpl; lia | done].
  - intros k. set (ws := take k (recover_writes start v)).
    destruct (crash_recovering start nlog Ha v k Hh Hl) as [Hk1 Hk2]. fold ws in Hk1, Hk2.
    assert (Hcc : ∀ b, is_blk b → apply_writes ws v b = apply_writes ws (disk_of d) b).
    { intros b Hb. apply apply_writes_at. by rewrite Hdv. }
    split; [by rewrite <- Hcc|]. intros b Hb Hlog. rewrite <- (Hk2 b Hb Hlog). symmetry.
    by apply (recovered_blk start nlog Ha).
Qed.

(** ** A concrete transaction

    A zeroed disk with a super block that puts the log at blocks 2 to 31; block
    50 has been changed to ones and logged. *)
Definition ones : list Z := replicate (Z.to_nat BSIZE) 1.
Definition sb_block : list Z := st32 (st32 zero_block 12 LOGSIZE) 16 2.
Definition disk0 : blocks := bupd (λ _, zero_block) 1 sb_block.
Lemma disk0_length b : length (disk0 b) = Z.to_nat BSIZE.
Proof. unfold disk0, bupd, sb_block. destruct (b =? 1); [by rewrite !length_st32|]; apply length_replicate. Qed.

Definition xt : buf := d_bufs (dfs disk0) !!! 0%nat.
Definition xt1 : buf := xt <| b_flags := B_VALID |> <| b_dev := ROOTDEV |> <| b_blockno := 50 |> <| b_refcnt := 1 |>
  <| b_data := zero_block |>.
Definition xt2 : buf := xt1 <| b_flags := Z.lor B_VALID B_DIRTY |> <| b_refcnt := 0 |> <| b_data := ones |>.
Definition dt1' : kdata :=
  dfs disk0 <| d_bufs := <[0%nat := xt1]> (d_bufs (dfs disk0)) |>
    <| d_sl := <[SL_buf 0 := Sleeplock 1 "buffer" 7]> (d_sl (dfs disk0)) |>.
Definition dtx : kdata :=
  dt1' <| d_bufs := <[0%nat := xt2]> (d_bufs (dfs disk0)) |>
    <| d_sl := <[SL_buf 0 := Sleeplock 0 "buffer" 0]> (d_sl (dfs disk0)) |>
    <| d_log := Log 2 LOGSIZE 0 1 ROOTDEV (Logheader 1 (50 :: replicate 29 0)) |>.

Lemma dtx_cache : cache_ok dtx (bupd disk0 50 ones) (list_to_set [50]) (list_to_set [50]) ∅.
Proof.
  destruct (dfs_ok disk0 (λ b _, disk0_length b)) as (Hc & Hf & Hi & Hu).
  destruct (co_ring _ _ _ _ _ Hc) as [ring Hring].
  assert (Hb : (0 < NBUF)%nat) by (unfold NBUF; lia).
  assert (Hx : d_bufs (dfs disk0) !! 0%nat = Some xt) by by eapply buf_lookup.
  assert (Hlt : (0 < length (d_bufs (dfs disk0)))%nat) by (rewrite (rg_len _ _ Hring); lia).
  assert (Hdx : is_dirty xt = false) by (destruct (Hu 0%nat xt Hx) as (Hfl & _); unfold is_dirty; by rewrite Hfl).
  assert (Hc1 : cache_ok dt1' disk0 ∅ ∅ (<[0%nat := 50]> ∅)).
  { refine (cache_ok_install (dfs disk0) dt1' disk0 ∅ ∅ ∅ Hc 0 Hb xt xt1 Hx _ _ _ 50 _ _ Hdx _ _ _ _ _ _ _ _).
    1: exact eq_refl. 1: exact eq_refl. 1: exact eq_refl. 1: unfold is_blk, FSSIZE; lia. 1: exact eq_refl.
    2: exact eq_refl. 2: exact eq_refl. 2: exact eq_refl. 2: exact eq_refl. 3: (exists (Sleeplock 1 "buffer" 7); exact (conj eq_refl eq_refl)). 3: exact (λ _, eq_refl).
    - intros b' y Hne Hb' Hy Hdev. by destruct (Hu b' y Hy) as (_ & _ & ?).
    - unfold disk_of. rewrite Hi. exact eq_refl. }
  assert (Hx1 : d_bufs dt1' !! 0%nat = Some xt1) by (apply list_lookup_insert_eq; exact Hlt).
  assert (HH : (<[0%nat := 50]> ∅ : gmap nat Z) !! 0%nat = Some 50) by apply lookup_insert_eq.
  refine (cache_ok_held dt1' dtx disk0 ∅ ∅ _ Hc1 0 50 HH xt1 Hx1 xt2 ones (list_to_set [50]) (list_to_set [50]) ∅
    _ eq_refl eq_refl eq_refl eq_refl eq_refl _ _ eq_refl _ eq_refl _ _ _ _ _ (λ _ _, eq_refl) _ _).
  - symmetry. apply list_insert_insert_eq.
  - apply length_replicate.
  - by right; right.
  - split; [intros _; apply elem_of_list_to_set; left | exact (λ _, eq_refl)].
  - intros bno' Hno. by rewrite lookup_empty in Hno.
  - intros k Hk. rewrite lookup_insert_ne by congruence. exact eq_refl.
  - intros k Hk. rewrite !elem_of_list_to_set, list_elem_of_singleton, elem_of_empty. tauto.
  - exact (λ H, H).
  - intros _. left. apply elem_of_list_to_set. left.
  - intros Hno. destruct Hno. apply elem_of_list_to_set. left.
  - intros b Hbl. destruct (locks_buf_ok dt1' dtx disk0 ∅ ∅ (<[0%nat := 50]> ∅) 0 None Hc1) with b as (l & Hl & Hl1).
    + eexists. split; [symmetry; apply insert_insert_eq | exact eq_refl].
    + exact Hbl.
    + exists l. split; [exact Hl|]. rewrite Hl1. destruct (decide (b = 0%nat)) as [->|Hne].
      * by rewrite lookup_partial_alter_eq.
      * by rewrite lookup_partial_alter_ne, lookup_insert_ne by congruence.
Qed.
Lemma log_area0 : log_area 2 LOGSIZE.
Proof. split; unfold LOGSIZE, MAXOPBLOCKS, FSSIZE; lia. Qed.
Lemma fs_ok_dtx R :
  @fs_ok memide.disk 0 R (memide_law 0 R) mfs dtx (bupd disk0 50 ones) (list_to_set [50]) (list_to_set [50]) ∅.
Proof.
  destruct (dfs_ok disk0 (λ b _, disk0_length b)) as (_ & Hf & Hi & _). split; [|split; [|exact dtx_cache]].
  - apply fs_thread_mfs. change (pdirs dtx) with (pdirs (dfs disk0)). by rewrite (fs_frame_pdirs _ _ Hf).
  - cbn. unfold memide_ready. change (d_ide dtx) with (d_ide (dfs disk0)). rewrite Hi. reflexivity.
Qed.
Lemma disk_of_dfs b : disk_of (dfs disk0) b = disk0 b.
Proof. destruct (dfs_ok disk0 (λ b _, disk0_length b)) as (_ & _ & Hi & _). unfold disk_of. by rewrite Hi. Qed.

Lemma commit_crash_safe_witness :
  wp (λ _ _ _, False) (@commit memide.disk 2%nat (K mfs dtx)) (λ _ s', disk_of (kd s') 50 = ones).
Proof.
  set (R := λ _ _ _, False).
  assert (Htx : tx_ok 2 LOGSIZE [50]).
  { split.
    - intros b ->%list_elem_of_singleton. unfold is_blk, FSSIZE. lia.
    - intros b ->%list_elem_of_singleton. unfold in_log, LOGSIZE, MAXOPBLOCKS. lia.
    - simpl. unfold LOGSIZE, MAXOPBLOCKS. lia. }
  eapply wp_mono; [|refine (@commit_crash_safe memide.disk 0 R (memide_law 0 R) 2 2 LOGSIZE mfs dtx _ [50] _ log_area0
    (fs_ok_dtx R) _ Htx _ _ _)].
  - intros [] s' (m' & d' & v' & ws & -> & _ & _ & _ & _ & _ & Hd & _). cbn [kd]. rewrite (Hd 50); [reflexivity | |].
    + unfold is_blk, FSSIZE. lia.
    + unfold in_log, LOGSIZE, MAXOPBLOCKS. lia.
  - lia.
  - split; reflexivity.
  - apply NoDup_singleton.
  - done.
  - change (disk_of dtx 2) with (disk_of (dfs disk0) 2). rewrite disk_of_dfs. by vm_compute.
Defined.

Lemma initlog_recovers_witness :
  wp (λ _ _ _, False) (@initlog memide.disk ROOTDEV 2%nat (K mfs (dfs disk0))) (λ _ s', hdr_n (disk_of (kd s') 2) = 0).
Proof.
  set (R := λ _ _ _, False). destruct (dfs_ok disk0 (λ b _, disk0_length b)) as (_ & Hf & _ & _).
  assert (H0 : hdr_n (disk0 2) = 0) by by vm_compute.
  eapply wp_mono; [|refine (@initlog_recovers memide.disk 0 R (memide_law 0 R) 2 2 LOGSIZE mfs (dfs disk0) disk0 _ log_area0
    (fs_ok_dfs R disk0 (λ b _, disk0_length b)) _ _ _ _)].
  - intros [] s' (m' & d' & ws & -> & _ & _ & Hn & _). exact Hn.
  - lia.
  - rewrite (fs_frame_log _ _ Hf). apply length_replicate.
  - by vm_compute.
  - by vm_compute.
  - by apply hdr_ok_empty.
Defined.
