(* ===== verification/TxFacts.v ===== *)
(** * TxFacts: changing blocks inside a transaction

    [tx m d v bs H]: a transaction is open, the cache shows the blocks [v], the
    blocks [bs] were changed and are pinned in the cache and named in the log's
    header, the buffers of [H] are held and not changed since.  log_write adds
    the changed block of a held buffer to [bs]. *)

From S2P Require Import Prelude Memory Kstate Spinlock Kalloc Cprintf Vm Sched SchedFacts Sleeplock Bio BioRing BioFacts Log LogFacts.

(** The blocks of the transaction with one more; a block is logged once. *)
Definition add_blk (bno : Z) (bs : list Z) : list Z := if decide (bno ∈ bs) then bs else bs ++ [bno].
Lemma elem_of_add_blk bno bs b : b ∈ add_blk bno bs ↔ b = bno ∨ b ∈ bs.
Proof. unfold add_blk. case_decide; [|rewrite elem_of_app, list_elem_of_singleton]; naive_solver. Qed.
Lemma add_blk_set bno bs : (list_to_set (add_blk bno bs) : gset Z) = {[bno]} ∪ list_to_set bs.
Proof. apply set_eq. intros b. rewrite elem_of_union, elem_of_singleton, !elem_of_list_to_set. apply elem_of_add_blk. Qed.
Lemma NoDup_add_blk bno bs : NoDup bs → NoDup (add_blk bno bs).
Proof.
  intros Hnd. unfold add_blk. case_decide; [done|]. apply NoDup_app. split_and!; [done | | apply NoDup_singleton].
  intros b Hb ->%list_elem_of_singleton. done.
Qed.
Lemma add_blk_length bno bs : (length bs <= length (add_blk bno bs) <= S (length bs))%nat.
Proof. unfold add_blk. case_decide; rewrite ?length_app; simpl; lia. Qed.

(** The search for the block in the header. *)
Lemma absorb_in bs rest bno : small bs → is_blk bno → bno ∈ bs → ∃ i, absorb (length bs) (bs ++ rest) bno = i ∧ bs !! i = Some bno.
Proof.
  intros Hs Hb. induction bs as [|x bs IH]; [by intros ?%not_elem_of_nil|]. intros Hin. simpl.
  assert (Hx : is_blk x) by apply Hs, list_elem_of_here. rewrite (u32_blk x Hx).
  destruct (Z.eqb_spec x bno) as [->|Hne]; [by exists O|].
  apply elem_of_cons in Hin as [->|Hin]; [done|].
  destruct IH as (i & Hi & Hl); [intros y Hy; apply Hs; by apply list_elem_of_further | done |]. exists (S i). by rewrite Hi.
Qed.
Lemma absorb_out bs rest bno : small bs → bno ∉ bs → absorb (length bs) (bs ++ rest) bno = length bs.
Proof.
  intros Hs. induction bs as [|x bs IH]; [done|]. intros [Hne Hin]%not_elem_of_cons. simpl.
  assert (Hx : is_blk x) by apply Hs, list_elem_of_here. rewrite (u32_blk x Hx), (proj2 (Z.eqb_neq x bno)) by done.
  rewrite IH; [done | | done]. intros y Hy. apply Hs. by apply list_elem_of_further.
Qed.

Section tx.
Context {Drv : Disk} {p : nat} {R : wait_reason → kst → kst → Prop} {DL : DiskLaw p R} (n : nat) (Hn : (2 <= n)%nat).
Context (start nlog : Z) (Ha : log_area start nlog).

(** The log with another header. *)
Definition with_lh (L : logst) (lh : logheader) : logst := L <| log_lh := lh |>.

(** What a transaction leaves alone until it commits: the disk, and all but
    the cache and the header of the log. *)
Record tx_frame (d d' : kdata) : Prop := {
  tf_frame : fs_frame (d <| d_log := d_log d' |>) d';
  tf_log : with_lh (d_log d') (log_lh (d_log d)) = d_log d;
  tf_wrote : wrote [] d d'
}.
#[export] Instance tx_frame_refl : Reflexive tx_frame.
Proof. intros d. split; [by destruct d | by destruct d as [? ? ? ? ? ? ? ? ? ? [] ] | by apply wrote_nil]. Qed.
#[export] Instance tx_frame_trans : Transitive tx_frame.
Proof.
  intros d d1 d2 [F1 L1 W1] [F2 L2 W2]. split.
  - etransitivity; [|exact F2]. by apply (fs_frame_set_log _ _ (d_log d2)) in F1.
  - transitivity (with_lh (d_log d1) (log_lh (d_log d))); [|exact L1]. rewrite <- L2. by destruct (d_log d2).
  - by apply (wrote_app [] [] d d1).
Qed.
Lemma tx_frame_fs d d' : fs_frame d d' → wrote [] d d' → tx_frame d d'.
Proof.
  intros Hf Hw. pose proof (fs_frame_log _ _ Hf) as El. split; [|rewrite El; by destruct (d_log d)|done].
  rewrite El. by destruct d.
Qed.

Record tx (m : mach) (d : kdata) (v : blocks) (bs : list Z) (H : gmap nat Z) : Prop := {
  tx_fs : fs_ok m d v (list_to_set bs) (list_to_set bs) H;
  tx_log : log_is (d_log d) start nlog bs;
  tx_nd : NoDup bs;
  tx_blks : tx_ok start nlog bs;
  tx_open : 1 <= log_outstanding (d_log d)
}.

Lemma tx_open_frame d d' : tx_frame d d' → log_outstanding (d_log d') = log_outstanding (d_log d).
Proof. intros [_ HL _]. by apply (f_equal log_outstanding) in HL. Qed.

(** The header after log_write. *)
Definition lh_add (lh : logheader) (bno : Z) (bs : list Z) : logheader :=
  lh <| lh_block := <[absorb (length bs) (lh_block lh) bno := bno]> (lh_block lh) |> <| lh_n := Z.of_nat (length (add_blk bno bs)) |>.
Lemma log_is_add L bs bno :
  log_is L start nlog bs → small bs → is_blk bno → (length bs < Z.to_nat LOGSIZE)%nat →
  log_is (with_lh L (lh_add (log_lh L) bno bs)) start nlog (add_blk bno bs).
Proof.
  intros [H1 H2 H3 H4 H5 H6] Hs Hb Hl. split; simpl; try done; [by rewrite length_insert|].
  set (k := absorb (length bs) (lh_block (log_lh L)) bno).
  assert (Ek : k = absorb (length bs) (bs ++ drop (length bs) (lh_block (log_lh L))) bno) by (rewrite <- H6 at 2; by rewrite take_drop).
  unfold add_blk. case_decide as Hin.
  - destruct (absorb_in bs (drop (length bs) (lh_block (log_lh L))) bno Hs Hb Hin) as (i & Hi & Hl'). rewrite <- Ek in Hi. rewrite Hi.
    rewrite list_insert_id; [done|]. rewrite <- H6 in Hl'. by apply lookup_take_Some in Hl' as [? _].
  - rewrite (absorb_out bs _ bno Hs Hin) in Ek. rewrite Ek, length_app. simpl. rewrite Nat.add_1_r.
    rewrite (take_S_r _ _ bno) by (rewrite list_lookup_insert_eq; [done | lia]). f_equal. rewrite take_insert_ge by lia. done.
Qed.

Lemma lh_add_done {A} m d bs bno (g : KM A) :
  log_is (d_log d) start nlog bs → small bs → is_blk bno → (length bs < Z.to_nat LOGSIZE)%nat →
  let k := Z.of_nat (absorb (length bs) (lh_block (log_lh (d_log d))) bno) in
  (set_lh_block k (s32 bno) ;; when (k =? Z.of_nat (length bs)) (set_lh_n (Z.of_nat (length bs) + 1)) ;; g) n (K m d)
  = g n (K m (d <| d_log := with_lh (d_log d) (lh_add (log_lh (d_log d)) bno bs) |>)).
Proof.
  intros HL Hs Hb Hl k. pose proof HL as [_ _ _ H4 H5 H6].
  assert (Ek : absorb (length bs) (lh_block (log_lh (d_log d))) bno
    = absorb (length bs) (bs ++ drop (length bs) (lh_block (log_lh (d_log d)))) bno) by (rewrite <- H6 at 3; by rewrite take_drop).
  assert (Hk : if decide (bno ∈ bs) then k < Z.of_nat (length bs) else k = Z.of_nat (length bs)).
  { unfold k. rewrite Ek. case_decide as Hin.
    - destruct (absorb_in bs (drop (length bs) (lh_block (log_lh (d_log d)))) bno Hs Hb Hin) as (i & -> & Hi%lookup_lt_Some). lia.
    - by rewrite absorb_out. }
  assert (Hs32 : s32 bno = bno) by (rewrite <- (u32_blk bno Hb) at 1; by apply s32_u32_blk).
  assert (Hkb : 0 <= k ∧ k < LOGSIZE) by (unfold LOGSIZE in *; case_decide; lia).
  erewrite bind_done.
  2:{ unfold set_lh_block. rewrite get_log_bind, H5, (proj2 (Z.ltb_ge k 0)), (proj2 (Z.leb_gt _ k)) by (unfold LOGSIZE in *; lia).
      cbn [orb]. unfold mod_log. rewrite modd_done, Hs32. unfold k. rewrite Nat2Z.id. reflexivity. }
  unfold lh_add, add_blk. case_decide as Hin.
  - rewrite (proj2 (Z.eqb_neq k _)) by lia. cbn [when]. rewrite bind_mret. do 2 f_equal. rewrite <- H4. destruct d as [? ? ? ? ? ? ? ? ? ? [? ? ? ? ? []]]. done.
  - rewrite (proj2 (Z.eqb_eq k _)) by lia. cbn [when]. unfold set_lh_n, mod_log. rewrite bind_modd. do 2 f_equal.
    rewrite length_app, Nat2Z.inj_add. destruct d as [? ? ? ? ? ? ? ? ? ? [? ? ? ? ? []]]. done.
Qed.

Lemma log_write_done m d v E D H b bno bs :
  fs_ok m d v E D H → H !! b = Some bno → bno ∈ E → log_is (d_log d) start nlog bs → small bs →
  Z.of_nat (length bs) < nlog - 1 → 1 <= log_outstanding (d_log d) →
  ∃ d', log_write b n (K m d) = Done tt (K m d') ∧ fs_ok m d' v E ({[bno]} ∪ D) H
    ∧ log_is (d_log d') start nlog (add_blk bno bs) ∧ tx_frame d d'.
Proof.
  intros Hok HH HE HL Hs Hroom Hout. pose proof Hok as (Ht & Hrd & Hc). pose proof (co_held _ _ _ _ _ Hc _ _ HH) as Hb.
  destruct (co_lookup _ _ _ _ _ b Hc Hb) as [x Hx]. destruct (ft_run _ _ _ Ht) as (ci & c & Hr). pose proof (rp_ok _ _ _ _ Hr) as Hmo.
  destruct (held_facts _ _ _ _ _ Hc _ _ HH _ Hx) as (_ & Hv & Hbn & Hdev & Hblk & Hdata & Hf & Href & Hdi).
  destruct (la_size _ _ Ha) as [_ Hls]. assert (HlL : (length bs < Z.to_nat LOGSIZE)%nat) by (unfold LOGSIZE in *; lia).
  unfold log_write. rewrite get_log_bind, (li_n _ _ _ _ HL), (li_size _ _ _ _ HL).
  rewrite !Z.geb_leb, (proj2 (Z.leb_gt LOGSIZE _)), (proj2 (Z.leb_gt (nlog - 1) _)), (proj2 (Z.ltb_ge _ 1)) by (unfold LOGSIZE in *; lia). cbn [orb].
  rewrite (bind_done _ _ _ _ _ _ (acquire_done n m d ci c _ Hmo (ft_free _ _ _ Ht L_log I))).
  rewrite get_log_bind, (get_buf_bind n _ d b x _ Hx), Hbn, (li_n _ _ _ _ HL), Nat2Z.id.
  rewrite lh_add_done by done. set (L1 := with_lh _ _). set (d1 := d <| d_log := L1 |>).
  unfold mod_buf. rewrite bind_modd. change (d_bufs d1) with (d_bufs d). rewrite (list_alter_insert_at _ _ _ _ Hx).
  set (x1 := x <| b_flags := Z.lor (b_flags x) B_DIRTY |>).
  rewrite (release_acq n m _ ci c L_log Hmo (ft_free _ _ _ Ht L_log I)).
  assert (Ef : b_flags x1 = Z.lor B_VALID B_DIRTY).
  { subst x1. simpl. unfold is_valid in Hv. destruct Hf as [E1|[E1|E1]]; rewrite E1 in *; done. }
  destruct (dirty_flags x1 Ef) as (Hv1 & Hd1 & Hf1). eexists. split; [done|]. split_and!.
  - split; [by eapply fs_thread_data | split; [by apply (disk_ready_frame d)|]].
    eapply (cache_ok_ext _ (bupd v bno (v bno))).
    { intros k. destruct (decide (k = bno)) as [->|Hne]; [by rewrite bupd_eq | by rewrite bupd_ne]. }
    eapply (cache_ok_held d _ v E D H Hc b bno HH x Hx x1); try done.
    + by apply (co_len _ _ _ _ _ Hc).
    + set_solver.
    + by rewrite HH.
    + intros k. rewrite HH. by intros [= <-].
    + intros k Hk. set_solver.
    + intros _. by right.
    + apply (co_sl _ _ _ _ _ Hc).
  - by apply log_is_add.
  - split; [by destruct d | by destruct d as [? ? ? ? ? ? ? ? ? ? [] ] | by apply wrote_nil].
Qed.

(** ** Held buffers in a transaction *)

Lemma tx_move m m' d d' v bs H H' :
  tx m d v bs H → fs_ok m' d' v (list_to_set bs) (list_to_set bs) H' → tx_frame d d' → d_log d' = d_log d → tx m' d' v bs H'.
Proof. intros [? ? ? ? ?] Hok Hf El. split; rewrite ?El; done. Qed.

Lemma tx_bread m d v bs H bno :
  tx m d v bs H → is_blk bno → (∀ b, H !! b ≠ Some bno) → (size H <= 1)%nat → Z.of_nat (length bs) < nlog - 1 →
  wp R (bread ROOTDEV bno n (K m d)) (λ b s', H !! b = None ∧ ∃ m' d', s' = K m' d' ∧ tx m' d' v bs (<[b := bno]> H) ∧ tx_frame d d').
Proof.
  intros Ht Hb Hnh HH Hroom. eapply wp_mono; [|apply (bread_wp n Hn m d v _ _ H bno (tx_fs _ _ _ _ _ Ht) Hb Hnh)].
  - intros b s' (Hb' & m' & d' & -> & Hok & Hf & Hw). split; [done|]. exists m', d'. pose proof (tx_frame_fs _ _ Hf Hw).
    split_and!; [done | eapply tx_move; try done; by apply fs_frame_log | done].
  - right. rewrite size_list_to_set by apply Ht. destruct (la_size _ _ Ha). unfold LOGSIZE, MAXOPBLOCKS, NBUF in *. lia.
Qed.
Lemma tx_brelse m d v bs H b bno :
  tx m d v bs H → H !! b = Some bno →
  ∃ d', brelse b n (K m d) = Done tt (K m d') ∧ tx m d' v bs (delete b H) ∧ tx_frame d d'.
Proof.
  intros Ht HH. destruct (brelse_done n m d v _ _ H b bno (tx_fs _ _ _ _ _ Ht) HH (λ H, H)) as (d' & Hrun & Hok & Hf & Hi).
  exists d'. assert (Hf' : tx_frame d d') by (apply tx_frame_fs; [done | by apply wrote_nil]).
  split_and!; [done | eapply tx_move; try done; by apply fs_frame_log | done].
Qed.

(** The contents of a held buffer is changed and logged. *)
Lemma tx_update m d v bs H b bno f :
  tx m d v bs H → H !! b = Some bno → ¬ in_log start nlog bno → Z.of_nat (length bs) < nlog - 1 → length (f (v bno)) = Z.to_nat BSIZE →
  ∃ d', (mod_bdata b f ;; log_write b) n (K m d) = Done tt (K m d') ∧ tx m d' (bupd v bno (f (v bno))) (add_blk bno bs) H ∧ tx_frame d d'.
Proof.
  intros Ht HH Hnl Hroom Hlen. pose proof (tx_blks _ _ _ _ _ Ht) as [Hs Ho Hl]. pose proof (tx_fs _ _ _ _ _ Ht) as Hok.
  destruct (bdata_done n Hn m d v _ _ H b bno f Hok HH Hlen) as (d1 & Hrun1 & Hok1 & Hf1 & Hi1).
  assert (HF1 : tx_frame d d1) by (apply tx_frame_fs; [done | by apply wrote_nil]).
  assert (Hblk : is_blk bno).
  { pose proof Hok as (_ & _ & Hc). destruct (co_lookup _ _ _ _ _ b Hc (co_held _ _ _ _ _ Hc _ _ HH)) as [x Hx]. by eapply held_facts. }
  destruct (log_write_done m d1 _ _ _ H b bno bs Hok1 HH) as (d2 & Hrun2 & Hok2 & HL2 & HF2);
    [set_solver | rewrite (fs_frame_log _ _ Hf1); apply Ht | done | done | rewrite (fs_frame_log _ _ Hf1); apply Ht |].
  exists d2. unfold mod_bdata. rewrite (bind_done _ _ _ _ _ _ Hrun1). assert (HF : tx_frame d d2) by by transitivity d1.
  split_and!; [done | | done]. rewrite <- (add_blk_set bno bs) in Hok2. split; [done | done | by apply NoDup_add_blk, Ht | |].
  - split; [| |pose proof (add_blk_length bno bs); lia]; intros k [->|Hk]%elem_of_add_blk; auto.
  - rewrite (tx_open_frame _ _ HF). apply Ht.
Qed.

Lemma tx_data m d v bs H b bno : tx m d v bs H → H !! b = Some bno → ∃ x, d_bufs d !! b = Some x ∧ b_data x = v bno.
Proof.
  intros Ht HH. pose proof (tx_fs _ _ _ _ _ Ht) as (_ & _ & Hc). destruct (co_lookup _ _ _ _ _ b Hc (co_held _ _ _ _ _ Hc _ _ HH)) as [x Hx].
  destruct (held_facts _ _ _ _ _ Hc _ _ HH _ Hx) as (_ & _ & _ & _ & _ & Hdata & _). eauto.
Qed.
Lemma tx_length m d v bs H bno : tx m d v bs H → is_blk bno → length (v bno) = Z.to_nat BSIZE.
Proof. intros Ht Hb. pose proof (tx_fs _ _ _ _ _ Ht) as (_ & _ & Hc). by apply (co_len _ _ _ _ _ Hc). Qed.

(** After a computation inside the transaction: the blocks are [v'] and the
    blocks of the transaction [bs']. *)
Definition tx_post (d : kdata) (v' : blocks) (bs' : list Z) (H : gmap nat Z) (s' : kst) : Prop :=
  ∃ m' d', s' = K m' d' ∧ tx m' d' v' bs' H ∧ tx_frame d d'.

(** A block is read, changed, logged and given back. *)
Lemma tx_rmw_wp m d v bs H bno f :
  tx m d v bs H → is_blk bno → ¬ in_log start nlog bno → (∀ b, H !! b ≠ Some bno) → (size H <= 1)%nat →
  Z.of_nat (length bs) < nlog - 1 → length (f (v bno)) = Z.to_nat BSIZE →
  wp R ((b ← bread ROOTDEV bno; mod_bdata b f ;; log_write b ;; brelse b) n (K m d))
    (λ _, tx_post d (bupd v bno (f (v bno))) (add_blk bno bs) H).
Proof.
  intros Ht Hb Hnl Hnh HH Hroom Hlen. apply wp_bind. eapply wp_mono; [|by apply tx_bread].
  intros b s1 (Hb0 & m1 & d1 & -> & Ht1 & Hf1). pose proof (lookup_insert_eq H b bno) as HHb.
  destruct (tx_update m1 d1 v bs _ b bno f Ht1 HHb Hnl Hroom Hlen) as (d2 & Hrun2 & Ht2 & Hf2).
  destruct (tx_brelse m1 d2 _ _ _ b bno Ht2 HHb) as (d3 & Hrun3 & Ht3 & Hf3).
  apply bind_done_inv in Hrun2 as ([] & s & Hr1 & Hr2).
  rewrite (bind_done _ _ _ _ _ _ Hr1), (bind_done _ _ _ _ _ _ Hr2), Hrun3. rewrite delete_insert_id in Ht3 by done.
  exists m1, d3. split_and!; [done | done | by transitivity d1; [|transitivity d2]].
Qed.
End tx.
