(* ===== verification/Inode.v ===== *)
(** * Inode: fs.c up to itrunc and stati: blocks, the inode cache, block maps

    In-core inodes are indices into [d_inodes].  The data of a buffer is the
    array of its bytes; struct dinode is decoded and encoded field by field. *)

From S2P Require Import Prelude Memory Kstate Spinlock Kalloc Cprintf Vm Sched Sleeplock Bio Log.

Definition IPB : Z := BSIZE / 64.
Definition BPB : Z := BSIZE * 8.
Definition IBLOCK (i : Z) (sb : superblock) : Z := u32 (i / IPB + sb_inodestart sb).
Definition BBLOCK (b : Z) (sb : superblock) : Z := u32 (b / BPB + sb_bmapstart sb).

Definition get_inode (ip : nat) : KM inode := getd (λ d, d_inodes d !!! ip).
Definition mod_inode (ip : nat) (f : inode → inode) : KM unit :=
  modd (λ d, d <| d_inodes := alter f ip (d_inodes d) |>).
Definition get_sb : KM superblock := getd d_sb.

(** struct dinode in the bytes of a block, at offset [off] *)
Definition addrs_of (l : list Z) (off : Z) : list Z := (λ k, ld32 l (off + 4 * k)) <$> seqZ 0 (NDIRECT + 1).
Fixpoint put_addrs (l : list Z) (off : Z) (addrs : list Z) : list Z :=
  match addrs with
  | [] => l
  | a :: addrs' => put_addrs (st32 l off a) (off + 4) addrs'
  end.
Definition dinode_get (l : list Z) (off : Z) (ip : inode) : inode :=
  ip <| i_type := s16 (ld16 l off) |> <| i_major := s16 (ld16 l (off + 2)) |>
     <| i_minor := s16 (ld16 l (off + 4)) |> <| i_nlink := s16 (ld16 l (off + 6)) |>
     <| i_size := ld32 l (off + 8) |> <| i_addrs := addrs_of l (off + 12) |>.
Definition dinode_put (l : list Z) (off : Z) (ip : inode) : list Z :=
  put_addrs (st32 (st16 (st16 (st16 (st16 l off (i_type ip)) (off + 2) (i_major ip))
    (off + 4) (i_minor ip)) (off + 6) (i_nlink ip)) (off + 8) (i_size ip)) (off + 12) (i_addrs ip).

(** ** The free map *)

(** The first clear bit among the first [k] from [bi] on. *)
Fixpoint free_bit (k : nat) (data : list Z) (bi : Z) : option Z :=
  match k with
  | O => None
  | S k' =>
    let m := Z.shiftl 1 (bi mod 8) in
    if Z.land (data !!! Z.to_nat (bi / 8)) m =? 0 then Some bi else free_bit k' data (bi + 1)
  end.

Section inode.
Context `{Disk}.

Definition bzero (dev bno : Z) : KM unit :=
  bp ← bread dev (u32 bno);
  mod_bdata bp (λ _, replicate (Z.to_nat BSIZE) 0) ;;
  log_write bp ;;
  brelse bp.

(** [b] runs through the multiples of BPB below the size. *)
Definition balloc (dev : Z) : KM Z :=
  sb ← get_sb;
  r ← searchM ((λ k, k * BPB) <$> seqZ 0 ((sb_size sb + BPB - 1) / BPB)) (λ b,
    bp ← bread dev (BBLOCK b sb);
    x ← get_buf bp;
    match free_bit (Z.to_nat (Z.min BPB (sb_size sb - b))) (b_data x) 0 with
    | Some bi =>
      let m := Z.shiftl 1 (bi mod 8) in
      mod_bdata bp (alter (λ v, u8 (Z.lor v m)) (Z.to_nat (bi / 8))) ;;
      log_write bp ;;
      brelse bp ;;
      bzero dev (b + bi) ;;
      mret (Some (b + bi))
    | None => brelse bp ;; mret None
    end);
  match r with
  | Some b => mret b
  | None => panic "balloc: out of blocks"
  end.

Definition bfree (dev b : Z) : KM unit :=
  sb ← readsb dev;
  modd (λ d, d <| d_sb := sb |>) ;;
  bp ← bread dev (BBLOCK b sb);
  let bi := b mod BPB in
  let m := Z.shiftl 1 (bi mod 8) in
  x ← get_buf bp;
  if Z.land (b_data x !!! Z.to_nat (bi / 8)) m =? 0 then panic "freeing free block" else
  mod_bdata bp (alter (λ v, Z.land v (Z.lnot m)) (Z.to_nat (bi / 8))) ;;
  log_write bp ;;
  brelse bp.

(** ** The inode cache *)

Definition iinit (dev : Z) : KM unit :=
  initlock L_icache "icache" ;;
  forM (seq 0 NINODE) (λ i, initsleeplock (SL_inode i) "inode") ;;
  sb ← readsb dev;
  modd (λ d, d <| d_sb := sb |>) ;;
  cprintf (cstring "sb: size %d nblocks %d ninodes %d nlog %d logstart %d inodestart %d bmap start %d\n")
    (A_int <$> [sb_size sb; sb_nblocks sb; sb_ninodes sb; sb_nlog sb; sb_logstart sb;
                sb_inodestart sb; sb_bmapstart sb]).

(** [inl ip]: already cached; [inr empty]: the first free entry, if any. *)
Fixpoint iget_scan (l : list nat) (dev inum : Z) (empty : option nat) : KM (nat + option nat) :=
  match l with
  | [] => mret (inr empty)
  | i :: l' =>
    ip ← get_inode i;
    if (i_ref ip >? 0) && (i_dev ip =? dev) && (i_inum ip =? inum) then mret (inl i) else
    iget_scan l' dev inum
      (if bool_decide (empty = None) && (i_ref ip =? 0) then Some i else empty)
  end.
Definition iget (dev inum : Z) : KM nat :=
  acquire L_icache ;;
  r ← iget_scan (seq 0 NINODE) dev inum None;
  match r with
  | inl i =>
    mod_inode i (λ ip, ip <| i_ref := i_ref ip + 1 |>) ;;
    release L_icache ;;
    mret i
  | inr None => panic "iget: no inodes"
  | inr (Some i) =>
    mod_inode i (λ ip, ip <| i_dev := dev |>) ;;
    mod_inode i (λ ip, ip <| i_inum := inum |>) ;;
    mod_inode i (λ ip, ip <| i_ref := 1 |>) ;;
    mod_inode i (λ ip, ip <| i_valid := 0 |>) ;;
    release L_icache ;;
    mret i
  end.

Definition idup (ip : nat) : KM nat :=
  acquire L_icache ;;
  mod_inode ip (λ i, i <| i_ref := i_ref i + 1 |>) ;;
  release L_icache ;;
  mret ip.

Definition ialloc (dev type : Z) : KM nat :=
  sb ← get_sb;
  r ← searchM (seqZ 1 (sb_ninodes sb - 1)) (λ inum,
    bp ← bread dev (IBLOCK inum sb);
    x ← get_buf bp;
    let off := 64 * (inum mod IPB) in
    if ld16 (b_data x) off =? 0 then
      mod_bdata bp (λ l, st16 (list_inserts (Z.to_nat off) (replicate 64 0) l) off type) ;;
      log_write bp ;;
      brelse bp ;;
      i ← iget dev inum;
      mret (Some i)
    else brelse bp ;; mret None);
  match r with
  | Some i => mret i
  | None => panic "ialloc: no inodes"
  end.

Definition iupdate (ip : nat) : KM unit :=
  i ← get_inode ip; sb ← get_sb;
  bp ← bread (i_dev i) (IBLOCK (i_inum i) sb);
  i ← get_inode ip;
  mod_bdata bp (λ l, dinode_put l (64 * (i_inum i mod IPB)) i) ;;
  log_write bp ;;
  brelse bp.

Definition ilock (o : option nat) : KM unit :=
  match o with
  | None => panic "ilock"
  | Some ip =>
    i ← get_inode ip;
    if i_ref i <? 1 then panic "ilock" else
    acquiresleep (SL_inode ip) ;;
    i ← get_inode ip;
    if negb (i_valid i =? 0) then mret tt else
    sb ← get_sb;
    bp ← bread (i_dev i) (IBLOCK (i_inum i) sb);
    x ← get_buf bp;
    mod_inode ip (λ i, dinode_get (b_data x) (64 * (i_inum i mod IPB)) i) ;;
    brelse bp ;;
    mod_inode ip (λ i, i <| i_valid := 1 |>) ;;
    i ← get_inode ip;
    if i_type i =? 0 then panic "ilock: no type" else mret tt
  end.

Definition iunlock (o : option nat) : KM unit :=
  match o with
  | None => panic "iunlock"
  | Some ip =>
    h ← holdingsleep (SL_inode ip);
    i ← get_inode ip;
    if negb (h : bool) || (i_ref i <? 1) then panic "iunlock" else
    releasesleep (SL_inode ip)
  end.

(** ** Block maps *)

Definition bmap (ip : nat) (bn : Z) : KM Z :=
  i ← get_inode ip;
  if bn <? NDIRECT then
    let addr := i_addrs i !!! Z.to_nat bn in
    if addr =? 0 then
      addr ← balloc (i_dev i);
      mod_inode ip (λ i, i <| i_addrs := <[Z.to_nat bn := addr]> (i_addrs i) |>) ;;
      mret addr
    else mret addr
  else
  let bn := bn - NDIRECT in
  if bn <? NINDIRECT then
    let addr := i_addrs i !!! Z.to_nat NDIRECT in
    addr ← (if addr =? 0 then
              addr ← balloc (i_dev i);
              mod_inode ip (λ i, i <| i_addrs := <[Z.to_nat NDIRECT := addr]> (i_addrs i) |>) ;;
              mret addr
            else mret addr);
    bp ← bread (i_dev i) addr;
    x ← get_buf bp;
    let addr := ld32 (b_data x) (4 * bn) in
    addr ← (if addr =? 0 then
              addr ← balloc (i_dev i);
              mod_bdata bp (λ l, st32 l (4 * bn) addr) ;;
              log_write bp ;;
              mret addr
            else mret addr);
    brelse bp ;;
    mret addr
  else panic "bmap: out of range".

Definition itrunc (ip : nat) : KM unit :=
  forM (seqZ 0 NDIRECT) (λ k,
    i ← get_inode ip;
    let a := i_addrs i !!! Z.to_nat k in
    when (negb (a =? 0)) (
      bfree (i_dev i) a ;;
      mod_inode ip (λ i, i <| i_addrs := <[Z.to_nat k := 0]> (i_addrs i) |>))) ;;
  i ← get_inode ip;
  let a := i_addrs i !!! Z.to_nat NDIRECT in
  when (negb (a =? 0)) (
    bp ← bread (i_dev i) a;
    forM (seqZ 0 NINDIRECT) (λ j,
      x ← get_buf bp;
      let a := ld32 (b_data x) (4 * j) in
      when (negb (a =? 0)) (bfree (i_dev i) a)) ;;
    brelse bp ;;
    bfree (i_dev i) a ;;
    mod_inode ip (λ i, i <| i_addrs := <[Z.to_nat NDIRECT := 0]> (i_addrs i) |>)) ;;
  mod_inode ip (λ i, i <| i_size := 0 |>) ;;
  iupdate ip.

Definition iput (ip : nat) : KM unit :=
  acquiresleep (SL_inode ip) ;;
  i ← get_inode ip;
  when (ctrue (i_valid i) && (i_nlink i =? 0)) (
    acquire L_icache ;;
    i ← get_inode ip;
    let r := i_ref i in
    release L_icache ;;
    when (r =? 1) (
      itrunc ip ;;
      mod_inode ip (λ i, i <| i_type := 0 |>) ;;
      iupdate ip ;;
      mod_inode ip (λ i, i <| i_valid := 0 |>))) ;;
  releasesleep (SL_inode ip) ;;
  acquire L_icache ;;
  mod_inode ip (λ i, i <| i_ref := i_ref i - 1 |>) ;;
  release L_icache.

Definition iunlockput (ip : nat) : KM unit :=
  iunlock (Some ip) ;;
  iput ip.

(** struct stat: type (short), dev (int), ino (uint), nlink (short), size (uint) *)
Record stat := Stat { st_type : Z; st_dev : Z; st_ino : Z; st_nlink : Z; st_size : Z }.
Definition stati (ip : nat) : KM stat :=
  i ← get_inode ip;
  mret (Stat (i_type i) (s32 (i_dev i)) (i_inum i) (i_nlink i) (i_size i)).
End inode.
