(* ===== verification/Console.v ===== *)
(** * Console: the input half of console.c, kbd.c, uart.c's input

    The interrupt handlers read the bytes that wait at the device, edit the
    current line and hand finished lines to consoleread, through the ring
    [input] with its three indices. *)

From S2P Require Import Prelude Memory Kstate Spinlock Kalloc Cprintf Vm Sched Sleeplock Bio Log Inode.

Definition INPUT_BUF : Z := 128.
Definition CONSOLE : nat := 1.
(** C(x) *)
Definition Ctl (x : Z) : Z := x - 64.
Definition ctl_P : Z := Ctl 80.
Definition ctl_D : Z := Ctl 68.
Definition ctl_U : Z := Ctl 85.
Definition ctl_H : Z := Ctl 72.

(** ** kbd.c *)

Definition SHIFT : Z := 1.
Definition CTL : Z := 2.
Definition ALT : Z := 4.
Definition CAPSLOCK : Z := 8.
Definition NUMLOCK : Z := 16.
Definition SCROLLLOCK : Z := 32.
Definition E0ESC : Z := 64.

(** An array given by its first elements and by designated ones. *)
Definition table (first : list Z) (des : list (Z * Z)) : list Z :=
  foldl (λ l p, <[Z.to_nat p.1 := p.2]> l) (first ++ replicate (256 - length first) 0) des.

Definition shiftcode : list Z :=
  table [] [(0x1D, CTL); (0x2A, SHIFT); (0x36, SHIFT); (0x38, ALT); (0x9D, CTL); (0xB8, ALT)].
Definition togglecode : list Z :=
  table [] [(0x3A, CAPSLOCK); (0x45, NUMLOCK); (0x46, SCROLLLOCK)].
(** KEY_UP, KEY_DN, KEY_PGUP, KEY_PGDN, KEY_LF, KEY_RT, KEY_HOME, KEY_END, KEY_INS, KEY_DEL *)
Definition key_codes : list (Z * Z) :=
  [(0xC8, 0xE2); (0xD0, 0xE3); (0xC9, 0xE6); (0xD1, 0xE7); (0xCB, 0xE4); (0xCD, 0xE5);
   (0x97, 0xE0); (0xCF, 0xE1); (0xD2, 0xE8); (0xD3, 0xE9)].
Definition normalmap : list Z :=
  table ([0; 0x1B] ++ str "1234567890-=" ++ [8; 9] ++ str "qwertyuiop[]" ++ [10; 0] ++ str "asdfghjkl;'`"
         ++ [0] ++ str "\zxcvbnm,./" ++ [0] ++ str "*" ++ [0] ++ str " " ++ replicate 13 0
         ++ str "789-456+1230." ++ [0; 0; 0; 0])
    ((0x9C, 10) :: (0xB5, 47) :: key_codes).
Definition shiftmap : list Z :=
  table ([0; 27] ++ str "!@#$%^&*()_+" ++ [8; 9] ++ str "QWERTYUIOP{}" ++ [10; 0] ++ str "ASDFGHJKL:"
         ++ [34] ++ str "~" ++ [0] ++ str "|ZXCVBNM<>?" ++ [0] ++ str "*" ++ [0] ++ str " " ++ replicate 13 0
         ++ str "789-456+1230." ++ [0; 0; 0; 0])
    ((0x9C, 10) :: (0xB5, 47) :: key_codes).
Definition ctlmap : list Z :=
  table (replicate 16 0 ++ (Ctl <$> str "QWERTYUIOP") ++ [0; 0; 13; 0] ++ (Ctl <$> str "ASDFGHJKL")
         ++ [0; 0; 0; 0] ++ (Ctl <$> str "\ZXCVBNM") ++ [0; 0] ++ [u8 (Ctl 47)] ++ [0; 0])
    ((0x9C, 13) :: (0xB5, u8 (Ctl 47)) :: key_codes).
Definition charcode (k : Z) : list Z :=
  if k =? 0 then normalmap else if k =? 1 then shiftmap else ctlmap.

(** What a byte from the keyboard does to [shift], and the character. *)
Definition kbd_step (shift data : Z) : Z * Z :=
  if data =? 0xE0 then (Z.lor shift E0ESC, 0) else
  if ctrue (Z.land data 0x80) then
    let data := if ctrue (Z.land shift E0ESC) then data else Z.land data 0x7F in
    (Z.land shift (u32 (Z.lnot (Z.lor (shiftcode !!! Z.to_nat data) E0ESC))), 0)
  else
  let '(data, shift) :=
    if ctrue (Z.land shift E0ESC) then (Z.lor data 0x80, Z.land shift (u32 (Z.lnot E0ESC))) else (data, shift) in
  let shift := Z.lor shift (shiftcode !!! Z.to_nat data) in
  let shift := Z.lxor shift (togglecode !!! Z.to_nat data) in
  let c := charcode (Z.land shift (Z.lor CTL SHIFT)) !!! Z.to_nat data in
  let c := if ctrue (Z.land shift CAPSLOCK) then
             if (97 <=? c) && (c <=? 122) then c + (65 - 97)
             else if (65 <=? c) && (c <=? 90) then c + (97 - 65) else c
           else c in
  (shift, c).
Definition kbdgetc : KM Z :=
  q ← getc_ cn_kbd;
  match q with
  | [] => mret (-1)
  | data :: q' =>
    shift ← getc_ cn_shift;
    let '(shift, c) := kbd_step shift (u8 data) in
    mod_cons (λ cn, cn <| cn_kbd := q' |> <| cn_shift := shift |>) ;;
    mret c
  end.

(** ** uart.c *)

Definition uartgetc : KM Z :=
  u ← getc_ cn_uart;
  if negb (ctrue u) then mret (-1) else
  q ← getc_ cn_rx;
  match q with
  | [] => mret (-1)
  | c :: q' => mod_cons (λ cn, cn <| cn_rx := q' |>) ;; mret (u8 c)
  end.

(** ** console.c *)

Definition do_shutdown : KM unit :=
  cprintf (cstring "\nShutting down ...\n") [] ;;
  swtch W_halt.

(** [input.buf[i % INPUT_BUF]] *)
Definition ibuf (cn : console) (i : Z) : Z := cn_buf cn !!! Z.to_nat (i mod INPUT_BUF).

(** ^U: [while(input.e != input.w && input.buf[(input.e-1) % INPUT_BUF] != '\n')] *)
Fixpoint kill_line (fuel : nat) : KM unit :=
  match fuel with
  | O => out_of_fuel
  | S fuel' =>
    cn ← getc_ (λ cn, cn);
    if negb (cn_e cn =? cn_w cn) && negb (ibuf cn (cn_e cn -u 1) =? ch_nl) then
      mod_cons (λ cn, cn <| cn_e := cn_e cn -u 1 |>) ;;
      consputc BACKSPACE ;;
      kill_line fuel'
    else mret tt
  end.

(** One character; the flags are doprocdump and shutdown. *)
Definition console_char (c : Z) (doprocdump shutdown : bool) : KM (bool * bool) :=
  if c =? ctl_P then mret (true, shutdown)
  else if c =? ctl_D then mret (doprocdump, true)
  else if c =? ctl_U then kill_line (S (Z.to_nat INPUT_BUF)) ;; mret (doprocdump, shutdown)
  else if (c =? ctl_H) || (c =? 127) then
    cn ← getc_ (λ cn, cn);
    when (negb (cn_e cn =? cn_w cn)) (
      mod_cons (λ cn, cn <| cn_e := cn_e cn -u 1 |>) ;;
      consputc BACKSPACE) ;;
    mret (doprocdump, shutdown)
  else
    cn ← getc_ (λ cn, cn);
    when (negb (c =? 0) && (cn_e cn -u cn_r cn <? INPUT_BUF)) (
      let c := if c =? 13 then ch_nl else c in
      mod_cons (λ cn, cn <| cn_buf := <[Z.to_nat (cn_e cn mod INPUT_BUF) := u8 c]> (cn_buf cn) |>
                         <| cn_e := cn_e cn +u 1 |>) ;;
      consputc c ;;
      cn ← getc_ (λ cn, cn);
      when ((c =? ch_nl) || (c =? ctl_D) || (cn_e cn =? cn_r cn +u INPUT_BUF)) (
        mod_cons (λ cn, cn <| cn_w := cn_e cn |>) ;;
        wakeup Ch_input)) ;;
    mret (doprocdump, shutdown).

(** [while((c = getc()) >= 0)] *)
Fixpoint console_loop (fuel : nat) (getc : KM Z) (doprocdump shutdown : bool) : KM (bool * bool) :=
  match fuel with
  | O => out_of_fuel
  | S fuel' =>
    c ← getc;
    if c <? 0 then mret (doprocdump, shutdown) else
    r ← console_char c doprocdump shutdown;
    console_loop fuel' getc r.1 r.2
  end.
Definition consoleintr (getc : KM Z) : KM unit :=
  acquire L_cons ;;
  r ← with_fuel (λ fuel, console_loop fuel getc false false);
  release L_cons ;;
  when r.2 do_shutdown ;;
  when r.1 procdump.
Definition kbdintr : KM unit := consoleintr kbdgetc.
Definition uartintr : KM unit := consoleintr uartgetc.

Section console.
Context `{Disk}.

(** [while(input.r == input.w)]: sleep; [false]: the process was killed. *)
Fixpoint input_wait (fuel : nat) : KM bool :=
  match fuel with
  | O => out_of_fuel
  | S fuel' =>
    cn ← getc_ (λ cn, cn);
    if negb (cn_r cn =? cn_w cn) then mret true else
    i ← curproc; p ← get_proc i;
    if ctrue (p_killed p) then mret false else
    sleep Ch_input (Some L_cons) ;;
    input_wait fuel'
  end.

(** The loop [while(n > 0)]; [target] is the n of the call, so that
    [target - n] bytes have been stored.  [None]: killed. *)
Fixpoint consoleread_loop (fuel : nat) (to : dst) (target n : Z) (acc : list Z) : KM (option (Z * list Z)) :=
  match fuel with
  | O => out_of_fuel
  | S fuel' =>
    if negb (n >? 0) then mret (Some (n, acc)) else
    ok ← with_fuel input_wait;
    if negb (ok : bool) then mret None else
    cn ← getc_ (λ cn, cn);
    let c := ibuf cn (cn_r cn) in
    mod_cons (λ cn, cn <| cn_r := cn_r cn +u 1 |>) ;;
    if c =? ctl_D then
      when (n <? target) (mod_cons (λ cn, cn <| cn_r := cn_r cn -u 1 |>)) ;;
      mret (Some (n, acc))
    else
      acc ← put_dst to (target - n) acc [c];
      if c =? ch_nl then mret (Some (n - 1, acc)) else
      consoleread_loop fuel' to target (n - 1) acc
  end.
Definition consoleread (ip : nat) (to : dst) (n : Z) : KM (Z * list Z) :=
  iunlock (Some ip) ;;
  acquire L_cons ;;
  r ← consoleread_loop (S (Z.to_nat n)) to n n [];
  release L_cons ;;
  ilock (Some ip) ;;
  match r with
  | None => mret (-1, [])
  | Some (n', acc) => mret (n - n', acc)
  end.

Definition consolewrite (ip : nat) (from : src) (n : Z) : KM Z :=
  iunlock (Some ip) ;;
  acquire L_cons ;;
  forM (seqZ 0 n) (λ i, l ← get_src from i 1; forM l consputc) ;;
  release L_cons ;;
  ilock (Some ip) ;;
  mret n.
End console.

Definition consoleinit : KM unit :=
  initlock L_cons "console" ;;
  modd (λ d, d <| d_devsw := <[CONSOLE := true]> (d_devsw d) |>) ;;
  mod_cons (λ cn, cn <| cn_locking := 1 |>).
