(* ===== verification/Fs.v ===== *)
(** * Fs: fs.c from readi on: file contents, directories, path names

    Directory entries are the 16 bytes of struct dirent; a name is cut to
    DIRSIZ bytes and padded with NULs. *)

From S2P Require Import Prelude Memory Kstate Spinlock Kalloc Cprintf Vm Sched Sleeplock Bio Log Inode Console.

Section fs.
Context `{Disk}.

(** ** File contents *)

(** The driver of a device file, if there is one: only the console has one. *)
Definition devsw_at (major : Z) : KM bool :=
  if (major <? 0) || (major >=? NDEV) then mret false else
  getd (λ d, d_devsw d !!! Z.to_nat major).

(** [for(tot=0; tot<n; tot+=m, off+=m, dst+=m)]; every round moves a byte, so
    [n] rounds are enough. *)
Fixpoint readi_loop (fuel : nat) (ip : nat) (to : dst) (off n tot : Z) (acc : list Z) : KM (list Z) :=
  match fuel with
  | O => out_of_fuel
  | S fuel' =>
    if negb (tot <? n) then mret acc else
    bn ← bmap ip (off / BSIZE);
    i ← get_inode ip;
    bp ← bread (i_dev i) bn;
    let m := Z.min (n - tot) (BSIZE - off mod BSIZE) in
    x ← get_buf bp;
    acc ← put_dst to tot acc (take (Z.to_nat m) (drop (Z.to_nat (off mod BSIZE)) (b_data x)));
    brelse bp ;;
    readi_loop fuel' ip to (off + m) n (tot + m) acc
  end.
Definition readi (ip : nat) (to : dst) (off n : Z) : KM (Z * list Z) :=
  i ← get_inode ip;
  if i_type i =? T_DEV then
    dev ← devsw_at (i_major i);
    if negb (dev : bool) then mret (-1, []) else consoleread ip to (s32 n)
  else
  if (off >? i_size i) || (off +u n <? off) then mret (-1, []) else
  let n := if off +u n >? i_size i then i_size i -u off else n in
  acc ← readi_loop (S (Z.to_nat n)) ip to off n 0 [];
  mret (s32 n, acc).

(** The loop ends with the offset after the last byte. *)
Fixpoint writei_loop (fuel : nat) (ip : nat) (from : src) (off n tot : Z) : KM Z :=
  match fuel with
  | O => out_of_fuel
  | S fuel' =>
    if negb (tot <? n) then mret off else
    bn ← bmap ip (off / BSIZE);
    i ← get_inode ip;
    bp ← bread (i_dev i) bn;
    let m := Z.min (n - tot) (BSIZE - off mod BSIZE) in
    l ← get_src from tot (Z.to_nat m);
    mod_bdata bp (list_inserts (Z.to_nat (off mod BSIZE)) l) ;;
    log_write bp ;;
    brelse bp ;;
    writei_loop fuel' ip from (off + m) n (tot + m)
  end.
Definition writei (ip : nat) (from : src) (off n : Z) : KM Z :=
  i ← get_inode ip;
  if i_type i =? T_DEV then
    dev ← devsw_at (i_major i);
    if negb (dev : bool) then mret (-1) else consolewrite ip from (s32 n)
  else
  if (off >? i_size i) || (off +u n <? off) then mret (-1) else
  if off +u n >? MAXFILE * BSIZE then mret (-1) else
  off ← writei_loop (S (Z.to_nat n)) ip from off n 0;
  i ← get_inode ip;
  when ((n >? 0) && (off >? i_size i)) (
    mod_inode ip (λ i, i <| i_size := off |>) ;;
    iupdate ip) ;;
  mret (s32 n).

(** ** Directories

    A name is the array of its DIRSIZ bytes, or a C string that is shorter. *)

(** strncmp on two such names, byte by byte. *)
Fixpoint strncmp_l (n : nat) (p q : list Z) : Z :=
  match n with
  | O => 0
  | S n' =>
    let a := default 0 (head p) in let b := default 0 (head q) in
    if negb (a =? 0) && (a =? b) then strncmp_l n' (tail p) (tail q) else a - b
  end.
Definition namecmp (s t : list Z) : Z := strncmp_l (Z.to_nat DIRSIZ) s t.
(** strncpy into an array of [n] bytes. *)
Fixpoint strncpy_l (n : nat) (t : list Z) : list Z :=
  match n with
  | O => []
  | S n' =>
    match t with
    | c :: t' => if c =? 0 then replicate n 0 else c :: strncpy_l n' t'
    | [] => replicate n 0
    end
  end.

(** struct dirent: inum, then the name *)
Definition sizeof_dirent : Z := 16.
Definition de_inum (de : list Z) : Z := ld16 de 0.
Definition de_name (de : list Z) : list Z := drop 2 de.
Definition dirent (inum : Z) (name : list Z) : list Z :=
  [u8 inum; u8 (inum / 2 ^ 8)] ++ strncpy_l (Z.to_nat DIRSIZ) name.

(** The inode and the offset of the entry. *)
Fixpoint dirlookup_loop (fuel : nat) (dp : nat) (name : list Z) (off : Z) : KM (option (nat * Z)) :=
  match fuel with
  | O => out_of_fuel
  | S fuel' =>
    i ← get_inode dp;
    if negb (off <? i_size i) then mret None else
    r ← readi dp D_local off sizeof_dirent;
    if negb (r.1 =? sizeof_dirent) then panic "dirlookup read" else
    let de := r.2 in
    if de_inum de =? 0 then dirlookup_loop fuel' dp name (off +u sizeof_dirent) else
    if namecmp name (de_name de) =? 0 then
      i ← get_inode dp;
      ip ← iget (i_dev i) (de_inum de);
      mret (Some (ip, off))
    else dirlookup_loop fuel' dp name (off +u sizeof_dirent)
  end.
Definition dirlookup (dp : nat) (name : list Z) : KM (option (nat * Z)) :=
  i ← get_inode dp;
  if negb (i_type i =? T_DIR) then panic "dirlookup not DIR" else
  dirlookup_loop (S (Z.to_nat (i_size i / sizeof_dirent) + 1)) dp name 0.

(** The offset of the first free entry, or the end. *)
Fixpoint dirlink_loop (fuel : nat) (dp : nat) (off : Z) : KM Z :=
  match fuel with
  | O => out_of_fuel
  | S fuel' =>
    i ← get_inode dp;
    if negb (off <? i_size i) then mret off else
    r ← readi dp D_local off sizeof_dirent;
    if negb (r.1 =? sizeof_dirent) then panic "dirlink read" else
    if de_inum r.2 =? 0 then mret off else dirlink_loop fuel' dp (off + sizeof_dirent)
  end.
Definition dirlink (dp : nat) (name : list Z) (inum : Z) : KM Z :=
  o ← dirlookup dp name;
  match o with
  | Some (ip, _) => iput ip ;; mret (-1)
  | None =>
    i ← get_inode dp;
    off ← dirlink_loop (S (Z.to_nat (i_size i / sizeof_dirent) + 1)) dp 0;
    r ← writei dp (S_local (dirent inum name)) off sizeof_dirent;
    if negb (r =? sizeof_dirent) then panic "dirlink" else mret 0
  end.

(** ** Path names *)

Definition slash : Z := 47.
(** A path is the bytes before its NUL. *)
Fixpoint skip_slashes (path : list Z) : list Z :=
  match path with
  | c :: path' => if c =? slash then skip_slashes path' else path
  | [] => []
  end.
Fixpoint take_elem (path : list Z) : list Z * list Z :=
  match path with
  | c :: path' =>
    if c =? slash then ([], path) else let '(s, rest) := take_elem path' in (c :: s, rest)
  | [] => ([], [])
  end.
(** The element, cut at DIRSIZ, and the rest of the path; [None]: null. *)
Definition skipelem (path : list Z) : option (list Z * list Z) :=
  match skip_slashes path with
  | [] => None
  | path' =>
    let '(s, rest) := take_elem path' in
    Some (take (Z.to_nat DIRSIZ) s, skip_slashes rest)
  end.

(** [name] is the array the caller passes; it keeps its last value. *)
Fixpoint namex_loop (fuel : nat) (ip : nat) (path : list Z) (nameiparent : bool) (name : list Z)
    : KM (option nat * list Z) :=
  match fuel with
  | O => out_of_fuel
  | S fuel' =>
    match skipelem path with
    | None => if nameiparent then iput ip ;; mret (None, name) else mret (Some ip, name)
    | Some (name, path) =>
      ilock (Some ip) ;;
      i ← get_inode ip;
      if negb (i_type i =? T_DIR) then iunlockput ip ;; mret (None, name) else
      if nameiparent && bool_decide (path = []) then iunlock (Some ip) ;; mret (Some ip, name) else
      next ← dirlookup ip name;
      match next with
      | None => iunlockput ip ;; mret (None, name)
      | Some (next, _) => iunlockput ip ;; namex_loop fuel' next path nameiparent name
      end
    end
  end.
(** Each element takes at least a byte. *)
Definition namex (path : list Z) (nameiparent : bool) : KM (option nat * list Z) :=
  ip ← (if bool_decide (head path = Some slash) then iget ROOTDEV ROOTINO
        else i ← curproc; p ← get_proc i;
             cwd ← from_opt "namex: null cwd" (p_cwd p); idup cwd);
  namex_loop (S (length path)) ip path nameiparent [].

Definition namei (path : list Z) : KM (option nat) := r ← namex path false; mret r.1.
Definition nameiparent (path : list Z) : KM (option nat * list Z) := namex path true.
End fs.
