(* ===== verification/FsFacts.v ===== *)
(** * FsFacts: files and inodes over the buffer cache

    The contents of a file as a function of the blocks of the disk and the
    inode's block numbers, and what bmap, readi and the inode cache (iget,
    ilock, iunlock, iput) do on blocks [v] that the buffer cache shows
    (BioFacts). *)

From S2P Require Import Prelude Memory Kstate Spinlock Kalloc Cprintf Vm Sched SchedFacts Sleeplock Bio BioRing BioFacts Log Inode Console Fs.

(** ** The contents of a file *)

(** The block that holds block [k] of the file. *)
Definition fblk (v : blocks) (addrs : list Z) (k : Z) : Z :=
  if k <? NDIRECT then addrs !!! Z.to_nat k
  else ld32 (v (addrs !!! Z.to_nat NDIRECT)) (4 * (k - NDIRECT)).
Definition fbyte (v : blocks) (addrs : list Z) (o : Z) : Z :=
  v (fblk v addrs (o / BSIZE)) !!! Z.to_nat (o mod BSIZE).
(** [n] bytes from offset [off] *)
Definition fbytes (v : blocks) (addrs : list Z) (off n : Z) : list Z := fbyte v addrs <$> seqZ off n.

(** Every block of a file of [size] bytes is there. *)
Record fmapped (v : blocks) (addrs : list Z) (size : Z) : Prop := {
  fm_size : 0 <= size <= MAXFILE * BSIZE;
  fm_blk k : 0 <= k → k * BSIZE < size → fblk v addrs k ≠ 0 ∧ is_blk (fblk v addrs k);
  fm_ind : NDIRECT * BSIZE < size → addrs !!! Z.to_nat NDIRECT ≠ 0 ∧ is_blk (addrs !!! Z.to_nat NDIRECT)
}.

Lemma fbytes_app v addrs off n1 n2 :
  0 <= n1 → 0 <= n2 → fbytes v addrs off n1 ++ fbytes v addrs (off + n1) n2 = fbytes v addrs off (n1 + n2).
Proof. intros. unfold fbytes. by rewrite <- fmap_app, <- seqZ_app. Qed.

(** Bytes of one block. *)
Lemma fbytes_block v addrs off m :
  0 <= off → 0 <= m → m <= BSIZE - off mod BSIZE → length (v (fblk v addrs (off / BSIZE))) = Z.to_nat BSIZE →
  take (Z.to_nat m) (drop (Z.to_nat (off mod BSIZE)) (v (fblk v addrs (off / BSIZE)))) = fbytes v addrs off m.
Proof.
  intros H0 Hm Hle Hlen. pose proof (Z.mod_pos_bound off BSIZE ltac:(done)) as Hb. pose proof (Z.div_mod off BSIZE ltac:(done)) as Hdm.
  apply list_eq. intros j. unfold fbytes. rewrite list_lookup_fmap. destruct (decide (j < Z.to_nat m)%nat) as [Hj|Hj].
  2:{ rewrite lookup_take_ge, lookup_seqZ_ge by lia. done. }
  rewrite lookup_take_lt, lookup_drop, lookup_seqZ_lt by lia. simpl. unfold fbyte.
  assert ((off + Z.of_nat j) / BSIZE = off / BSIZE ∧ (off + Z.of_nat j) mod BSIZE = off mod BSIZE + Z.of_nat j) as [-> ->].
  { split; symmetry; [eapply Z.div_unique_pos | eapply Z.mod_unique_pos]; [|rewrite Hdm at 1; by rewrite <- Z.add_assoc| |rewrite Hdm at 1; by rewrite <- Z.add_assoc];
      unfold BSIZE in *; lia. }
  rewrite lookup_Some_total by (unfold BSIZE in *; lia). do 2 f_equal. lia.
Qed.

(** ** Reading a block *)

Section fs.
Context {Drv : Disk} {p : nat} {R : wait_reason → kst → kst → Prop} {DL : DiskLaw p R} (n : nat) (Hn : (2 <= n)%nat).

Lemma fs_frame_inodes d d' : fs_frame d d' → d_inodes d' = d_inodes d.
Proof. intros [H _]. by apply (f_equal d_inodes) in H. Qed.
Lemma fs_frame_sb d d' : fs_frame d d' → d_sb d' = d_sb d.
Proof. intros [H _]. by apply (f_equal d_sb) in H. Qed.

Lemma held_data m d v E D H b bno :
  fs_ok m d v E D H → H !! b = Some bno → ∃ x, d_bufs d !! b = Some x ∧ b_data x = v bno.
Proof.
  intros (_ & _ & Hc) HH. pose proof (co_held _ _ _ _ _ Hc _ _ HH) as Hb. destruct (co_lookup _ _ _ _ _ b Hc Hb) as [x Hx].
  destruct (held_facts _ _ _ _ _ Hc _ _ HH _ Hx) as (_ & _ & _ & _ & _ & Hdata & _). eauto.
Qed.

(** A block is read, looked at, and given back. *)
Lemma read_block_wp {A} m d v E D bno (g : nat → buf → KM A) (Q : A → kst → Prop) :
  fs_ok m d v E D ∅ → is_blk bno → (size D < NBUF)%nat →
  (∀ b x m1 d1, b_data x = v bno → fs_ok m1 d1 v E D (<[b := bno]> ∅) → fs_frame d d1 → wrote [] d d1 →
     (∀ A (k : KM A) (Q' : A → kst → Prop),
        (∀ d2, fs_ok m1 d2 v E D ∅ → fs_frame d d2 → wrote [] d d2 → wp R (k n (K m1 d2)) Q') →
        wp R ((brelse b ;; k) n (K m1 d1)) Q') → wp R (g b x n (K m1 d1)) Q) →
  wp R ((b ← bread ROOTDEV bno; x ← get_buf b; g b x) n (K m d)) Q.
Proof.
  intros Hok Hblk Hsz Hg. apply wp_bind. eapply wp_mono; [|apply (bread_wp n Hn m d v E D ∅ bno Hok Hblk)].
  2:{ intros k. by rewrite lookup_empty. }
  2:{ right. rewrite map_size_empty. lia. }
  intros b s1 (_ & m1 & d1 & -> & Hok1 & Hf1 & Hw1). assert (HH : <[b:=bno]> (∅ : gmap nat Z) !! b = Some bno) by apply lookup_insert_eq.
  destruct (held_data _ _ _ _ _ _ _ _ Hok1 HH) as (x & Hx & Hdx). rewrite (get_buf_bind n m1 d1 b x _ Hx).
  apply Hg; try done. intros A' k Q' Hk.
  destruct (brelse_done n m1 d1 v E D _ b bno Hok1 HH) as (d2 & Hrun & Hok2 & Hf2 & Hi2).
  { intros HE. pose proof Hok as (_ & _ & Hc). destruct (co_pend _ _ _ _ _ Hc _ HE) as [|[b' Hb']]; [done|]. by rewrite lookup_empty in Hb'. }
  rewrite (bind_done _ _ _ _ _ _ Hrun). rewrite delete_insert_id in Hok2 by done.
  apply Hk; [done | by transitivity d1 | by apply (wrote_post _ d d1)].
Qed.

(** ** bmap of a block that is there *)

Lemma get_inode_bind {A} m d ip i (g : inode → KM A) :
  d_inodes d !! ip = Some i → (get_inode ip ≫= g) n (K m d) = g i n (K m d).
Proof. intros Hi. unfold get_inode. by rewrite bind_getd, (lookup_total_Some _ _ _ Hi). Qed.

Definition ro_post {A} (d : kdata) (v : blocks) (E D : gset Z) (a : A) (r : A) (s' : kst) : Prop :=
  r = a ∧ fs_post d [] v E D ∅ s'.

Lemma bmap_wp m d v E D ip i bn :
  fs_ok m d v E D ∅ → (size D < NBUF)%nat → d_inodes d !! ip = Some i → i_dev i = ROOTDEV →
  fmapped v (i_addrs i) (i_size i) → 0 <= bn → bn * BSIZE < i_size i →
  wp R (bmap ip bn n (K m d)) (ro_post d v E D (fblk v (i_addrs i) bn)).
Proof.
  intros Hok Hsz Hi Hdev Hf H0 Hbn. destruct (fm_blk _ _ _ Hf bn H0 Hbn) as [Hnz Hblk].
  assert (Hself : fs_post d [] v E D ∅ (K m d)) by (exists m, d; split_and!; try done; by apply wrote_nil).
  unfold bmap, fblk in *. rewrite (get_inode_bind m d ip i _ Hi). destruct (bn <? NDIRECT) eqn:Elt.
  - by rewrite (proj2 (Z.eqb_neq _ _) Hnz).
  - apply Z.ltb_ge in Elt. destruct (fm_ind _ _ _ Hf) as [Hinz Hiblk]; [unfold NDIRECT, BSIZE in *; lia|].
    rewrite (proj2 (Z.ltb_lt (bn - NDIRECT) NINDIRECT)).
    2:{ pose proof (fm_size _ _ _ Hf) as Hs. change (MAXFILE * BSIZE) with 71680 in Hs. change NINDIRECT with 128. unfold NDIRECT, BSIZE in *. lia. }
    rewrite (proj2 (Z.eqb_neq _ _) Hinz), bind_mret, Hdev.
    apply (read_block_wp m d v E D _ _ _ Hok Hiblk Hsz). intros b x m1 d1 Hx Hok1 Hf1 Hw1 Hrel. rewrite Hx.
    rewrite (proj2 (Z.eqb_neq _ _) Hnz), bind_mret. apply Hrel. intros d2 Hok2 Hf2 Hw2. split; [done|]. by exists m1, d2.
Qed.

(** ** readi *)

Lemma readi_loop_wp v E D ip i off0 n0 fuel m d off tot :
  (size D < NBUF)%nat → i_dev i = ROOTDEV → fmapped v (i_addrs i) (i_size i) →
  0 <= off0 → 0 <= n0 → off0 + n0 <= i_size i → 0 <= tot <= n0 → off = off0 + tot → (Z.to_nat (n0 - tot) < fuel)%nat →
  fs_ok m d v E D ∅ → d_inodes d !! ip = Some i →
  wp R (readi_loop fuel ip D_local off n0 tot (fbytes v (i_addrs i) off0 tot) n (K m d))
    (ro_post d v E D (fbytes v (i_addrs i) off0 n0)).
Proof.
  intros Hsz Hdev Hf Ho Hn0 Hle. revert m d off tot. induction fuel as [|fuel IH]; intros m d off tot Ht -> Hfu Hok Hi; [lia|].
  cbn [readi_loop]. destruct (Z.ltb_spec tot n0) as [Hlt|Hge]; simpl negb.
  2:{ assert (tot = n0) as -> by lia. split; [done|]. exists m, d. split_and!; try done. by apply wrote_nil. }
  set (off := off0 + tot) in *. pose proof (Z.mod_pos_bound off BSIZE ltac:(done)) as Hb.
  pose proof (Z.div_mod off BSIZE ltac:(done)) as Hdm.
  assert (Hk : 0 <= off / BSIZE ∧ off / BSIZE * BSIZE < i_size i) by (unfold BSIZE in *; split; [apply Z.div_pos; lia | lia]).
  apply wp_bind. eapply wp_mono; [|apply (bmap_wp m d v E D ip i _ Hok Hsz Hi Hdev Hf); lia].
  intros bn s1 (-> & m1 & d1 & -> & Hok1 & Hf1 & Hw1).
  assert (Hi1 : d_inodes d1 !! ip = Some i) by by rewrite (fs_frame_inodes _ _ Hf1).
  rewrite (get_inode_bind m1 d1 ip i _ Hi1), Hdev. destruct (fm_blk _ _ _ Hf (off / BSIZE)) as [_ Hblk]; [lia..|].
  set (mm := Z.min (n0 - tot) (BSIZE - off mod BSIZE)).
  apply (read_block_wp m1 d1 v E D _ _ _ Hok1 Hblk Hsz). intros b x m2 d2 Hx Hok2 Hf2 Hw2 Hrel.
  unfold put_dst. rewrite bind_mret, Hx. pose proof Hok2 as (_ & _ & Hc2).
  rewrite fbytes_block by (lia || by apply (co_len _ _ _ _ _ Hc2)). apply Hrel. intros d3 Hok3 Hf3 Hw3.
  unfold off. rewrite fbytes_app by lia. rewrite <- Z.add_assoc.
  eapply wp_mono; [|apply (IH m2 d3 (off0 + (tot + mm)) (tot + mm)); try done; try lia].
  2:{ by rewrite (fs_frame_inodes _ _ Hf3). }
  intros r s3 [-> Hpost]. split; [done|]. apply (fs_post_trans d d1 [] [] _ _ _ _ _ Hf1 Hw1). by apply (fs_post_trans d1 d3 [] []).
Qed.

Lemma readi_wp m d v E D ip i off k :
  fs_ok m d v E D ∅ → (size D < NBUF)%nat → d_inodes d !! ip = Some i → i_dev i = ROOTDEV → i_type i ≠ T_DEV →
  fmapped v (i_addrs i) (i_size i) → 0 <= off <= i_size i → 0 <= k → off + k < 2 ^ 32 →
  wp R (readi ip D_local off k n (K m d))
    (ro_post d v E D (Z.min k (i_size i - off), fbytes v (i_addrs i) off (Z.min k (i_size i - off)))).
Proof.
  intros Hok Hsz Hi Hdev Hty Hf Hoff Hk Hov. unfold readi. rewrite (get_inode_bind m d ip i _ Hi).
  rewrite (proj2 (Z.eqb_neq _ _) Hty). pose proof (fm_size _ _ _ Hf) as Hs. change (MAXFILE * BSIZE) with 71680 in Hs.
  rewrite (u32_small (off + k)) by (unfold is_u32; lia). rewrite Z.gtb_ltb, (proj2 (Z.ltb_ge _ _)), (proj2 (Z.ltb_ge _ _)) by lia. simpl orb.
  rewrite (u32_small (i_size i - off)) by (unfold is_u32; lia).
  assert ((if off + k >? i_size i then i_size i - off else k) = Z.min k (i_size i - off)) as ->.
  { rewrite Z.gtb_ltb. destruct (Z.ltb_spec (i_size i) (off + k)); lia. }
  set (n0 := Z.min k (i_size i - off)). apply wp_bind.
  eapply wp_mono; [|apply (readi_loop_wp v E D ip i off n0 _ m d off 0); try done; lia].
  intros acc s' [-> Hpost]. split; [|done]. by rewrite s32_small by (unfold is_s32; lia).
Qed.

(** ** The inode cache

    [icache sb v lk d]: the cached inodes are those of the blocks [v]; all
    sleep locks of inodes are free but that of [lk], which the thread has. *)

Definition dino_at (v : blocks) (sb : superblock) (inum : Z) (i : inode) : inode :=
  dinode_get (v (IBLOCK inum sb)) (64 * (inum mod IPB)) i.

Record icache (sb : superblock) (v : blocks) (lk : option nat) (d : kdata) : Prop := {
  ic_len : length (d_inodes d) = NINODE;
  ic_sb : d_sb d = sb;
  ic_slot k i : d_inodes d !! k = Some i →
    0 <= i_ref i ∧ (0 < i_ref i → i_dev i = ROOTDEV ∧ (i_valid i ≠ 0 → dino_at v sb (i_inum i) i = i));
  ic_uniq k1 k2 i1 i2 : d_inodes d !! k1 = Some i1 → d_inodes d !! k2 = Some i2 →
    0 < i_ref i1 → 0 < i_ref i2 → i_inum i1 = i_inum i2 → k1 = k2;
  ic_sl k : (k < NINODE)%nat → ∃ l, d_sl d !! SL_inode k = Some l ∧ slk_locked l = (if decide (lk = Some k) then 1 else 0)
}.

(** The reference counts. *)
Definition refs (d : kdata) : list Z := i_ref <$> d_inodes d.
Definition nfree (rs : list Z) : nat := length (filter (λ r, r = 0) rs).
Definition add_ref (x : Z) (k : nat) (rs : list Z) : list Z := alter (Z.add x) k rs.

(** What the inode layer leaves alone, and that it writes nothing. *)
Record iframe (d d' : kdata) : Prop := {
  if_core : fs_core (d' <| d_inodes := [] |>) = fs_core (d <| d_inodes := [] |>);
  if_wrote : wrote [] d d';
  if_slot k i : d_inodes d !! k = Some i → 0 < i_ref i → ∃ i', d_inodes d' !! k = Some i' ∧ i_inum i' = i_inum i
}.

Lemma fs_ok_other m d d' v E D H :
  d_bufs d' = d_bufs d → d_ide d' = d_ide d → pdirs d' = pdirs d →
  (∀ b, d_sl d' !! SL_buf b = d_sl d !! SL_buf b) → fs_ok m d v E D H → fs_ok m d' v E D H.
Proof.
  intros Eb Ei Ep Es (Ht & Hrd & Hc). split; [by eapply fs_thread_data | split; [by apply (disk_ready_frame d)|]].
  destruct Hc as [Hr Hb Hu Hh Hd Hl Hp Hpe Hs]. split; rewrite ?Eb; try done.
  - intros k. unfold disk_of. rewrite Ei. apply Hd.
  - intros b Hb'. rewrite Es. auto.
Qed.

Lemma refs_lookup d k i : d_inodes d !! k = Some i → refs d !! k = Some (i_ref i).
Proof. intros Hi. unfold refs. by rewrite list_lookup_fmap, Hi. Qed.
Lemma nfree_add rs k x : (nfree rs <= S (nfree (add_ref x k rs)))%nat.
Proof.
  clear Hn. unfold nfree, add_ref. revert k. induction rs as [|r rs IH]; intros k; [simpl; lia|].
  destruct k as [|k]; simpl; rewrite !filter_cons.
  - repeat case_decide; simpl; lia.
  - specialize (IH k). change (list_alter (Z.add x) k rs) with (alter (Z.add x) k rs). repeat case_decide; simpl; lia.
Qed.
Lemma nfree_slot d : (1 <= nfree (refs d))%nat → ∃ k i, d_inodes d !! k = Some i ∧ i_ref i = 0.
Proof.
  clear Hn. unfold nfree, refs. induction (d_inodes d) as [|i l IH]; simpl; [lia|]. rewrite filter_cons.
  case_decide; intros Hn'; [by exists 0%nat, i|].
  destruct (IH Hn') as (k & i' & Hk & Hr). by exists (S k), i'.
Qed.

(** *** iget *)

(** The entry of the inode, and the first free one. *)
Fixpoint cached (ds : list inode) (l : list nat) (inum : Z) : option nat :=
  match l with
  | [] => None
  | k :: l' =>
    let ip := ds !!! k in
    if (i_ref ip >? 0) && (i_dev ip =? ROOTDEV) && (i_inum ip =? inum) then Some k else cached ds l' inum
  end.
Fixpoint unused_inode (ds : list inode) (l : list nat) : option nat :=
  match l with
  | [] => None
  | k :: l' => if i_ref (ds !!! k) =? 0 then Some k else unused_inode ds l'
  end.

Lemma iget_scan_done m d l inum e :
  iget_scan l ROOTDEV inum e n (K m d)
  = Done (match cached (d_inodes d) l inum with
          | Some k => inl k
          | None => inr (match e with Some k => Some k | None => unused_inode (d_inodes d) l end)
          end) (K m d).
Proof.
  revert e. induction l as [|k l IH]; intros e; simpl; [by destruct e|]. unfold get_inode. rewrite bind_getd.
  destruct (_ && _ && _); [done|]. rewrite IH. destruct (cached _ l inum); [done|]. do 2 f_equal.
  destruct e as [k'|]; simpl; [done|]. by destruct (i_ref (d_inodes d !!! k) =? 0).
Qed.
Lemma cached_Some ds l inum k :
  cached ds l inum = Some k → k ∈ l ∧ 0 < i_ref (ds !!! k) ∧ i_inum (ds !!! k) = inum.
Proof.
  induction l as [|k' l IH]; simpl; [done|]. destruct (_ && _ && _) eqn:E.
  - intros [= ->]. apply andb_prop in E as [[E1%Z.gtb_lt E2]%andb_prop E3%Z.eqb_eq]. split; [apply list_elem_of_here|done].
  - intros H%IH. destruct H. split; [by apply list_elem_of_further|done].
Qed.
Lemma cached_None ds l inum k :
  cached ds l inum = None → k ∈ l → 0 < i_ref (ds !!! k) → i_dev (ds !!! k) = ROOTDEV → i_inum (ds !!! k) ≠ inum.
Proof.
  induction l as [|k' l IH]; simpl; [intros _ []%not_elem_of_nil|]. destruct (_ && _ && _) eqn:E; [done|].
  intros Hc [->|Hk]%elem_of_cons Hr Hd Hi; [|by apply IH]. subst inum.
  by rewrite (proj2 (Z.gtb_lt _ _) Hr), Hd, !Z.eqb_refl in E.
Qed.
Lemma unused_inode_Some ds l k : unused_inode ds l = Some k → k ∈ l ∧ i_ref (ds !!! k) = 0.
Proof.
  induction l as [|k' l IH]; simpl; [done|]. destruct (Z.eqb_spec (i_ref (ds !!! k')) 0).
  - intros [= ->]. split; [apply list_elem_of_here|done].
  - intros [? ?]%IH. split; [by apply list_elem_of_further|done].
Qed.
Lemma unused_inode_None ds l k : unused_inode ds l = None → k ∈ l → i_ref (ds !!! k) ≠ 0.
Proof.
  induction l as [|k' l IH]; simpl; [intros _ []%not_elem_of_nil|].
  destruct (Z.eqb_spec (i_ref (ds !!! k')) 0); [done|]. intros Hu [->|Hk]%elem_of_cons; [done|by apply IH].
Qed.

(** One entry changed, the rest as it was. *)
Definition set_inode (d : kdata) (k : nat) (i : inode) : kdata := d <| d_inodes := <[k := i]> (d_inodes d) |>.

Lemma icache_set sb v lk d k i i' :
  icache sb v lk d → d_inodes d !! k = Some i → 0 <= i_ref i' →
  (0 < i_ref i' → i_dev i' = ROOTDEV ∧ (i_valid i' ≠ 0 → dino_at v sb (i_inum i') i' = i')
     ∧ (0 < i_ref i ∧ i_inum i' = i_inum i
        ∨ ∀ k' j, k' ≠ k → d_inodes d !! k' = Some j → 0 < i_ref j → i_inum j ≠ i_inum i')) →
  icache sb v lk (set_inode d k i').
Proof.
  intros [Hl Hs Hsl Hu Hlk] Hk Hr Hi. unfold set_inode. split; simpl; [by rewrite length_insert | done | | | done].
  - intros k' j [[-> ->]|[Hne Hj]]%insert_cases; [|by apply (Hsl k')]. split; [done|]. intros H0. destruct (Hi H0) as (? & ? & _). done.
  - intros k1 k2 i1 i2 [[-> ->]|[Hne1 H1]]%insert_cases [[-> ->]|[Hne2 H2]]%insert_cases Hr1 Hr2 He;
      [done | | | by eapply Hu].
    + destruct (Hi Hr1) as (_ & _ & [[Hri Hin]|Hno]); [|by destruct (Hno k2 i2)]. symmetry. eapply Hu; eauto. congruence.
    + destruct (Hi Hr2) as (_ & _ & [[Hri Hin]|Hno]); [|by destruct (Hno k1 i1)]. eapply Hu; eauto. congruence.
Qed.

Lemma inode_lt sb v lk d k i : icache sb v lk d → d_inodes d !! k = Some i → (k < NINODE)%nat.
Proof. intros Hic Hk. rewrite <- (ic_len _ _ _ _ Hic). by eapply lookup_lt_Some. Qed.
Lemma inode_there sb v lk d k : icache sb v lk d → (k < NINODE)%nat → d_inodes d !! k = Some (d_inodes d !!! k).
Proof. intros Hic Hk. apply lookup_Some_total. by rewrite (ic_len _ _ _ _ Hic). Qed.

Lemma refs_set d k i i' : d_inodes d !! k = Some i → refs (set_inode d k i') = add_ref (i_ref i' - i_ref i) k (refs d).
Proof.
  clear Hn. intros Hk. unfold add_ref, set_inode. change (refs _) with (i_ref <$> <[k := i']> (d_inodes d)) at 1. rewrite list_fmap_insert.
  rewrite (list_alter_insert_at _ _ _ _ (refs_lookup _ _ _ Hk)). f_equal. lia.
Qed.

Lemma iframe_set d k i i' :
  d_inodes d !! k = Some i → (0 < i_ref i → i_inum i' = i_inum i) → iframe d (set_inode d k i').
Proof.
  intros Hk Hi. split; [done | by apply wrote_nil |]. intros k' j Hj Hr. simpl. destruct (decide (k' = k)) as [->|Hne].
  - exists i'. rewrite Hk in Hj. simplify_eq. split; [|auto]. apply list_lookup_insert_eq. by eapply lookup_lt_Some.
  - exists j. by rewrite list_lookup_insert_ne.
Qed.

(** iget finds or makes the entry, with one more reference. *)
Definition igot (sb : superblock) (v : blocks) (lk : option nat) (inum : Z) (d : kdata) (ip : nat) (d' : kdata) : Prop :=
  icache sb v lk d' ∧ refs d' = add_ref 1 ip (refs d) ∧ iframe d d' ∧ d_sl d' = d_sl d ∧ d_bufs d' = d_bufs d
  ∧ d_ide d' = d_ide d ∧ d_procs d' = d_procs d
  ∧ ∃ i', d_inodes d' !! ip = Some i' ∧ i_inum i' = inum ∧ 0 < i_ref i'.

Lemma iget_done m d sb v lk inum :
  fs_thread p m d → icache sb v lk d → (1 <= nfree (refs d))%nat →
  ∃ ip d', iget ROOTDEV inum n (K m d) = Done ip (K m d') ∧ igot sb v lk inum d ip d'.
Proof.
  intros Ht Hic Hfree. destruct (ft_run _ _ _ Ht) as (ci & c & Hr). pose proof (rp_ok _ _ _ _ Hr) as Hok.
  unfold iget. rewrite (bind_done _ _ _ _ _ _ (acquire_done n m d ci c _ Hok (ft_free _ _ _ Ht L_icache I))).
  rewrite (bind_done _ _ _ _ _ _ (iget_scan_done _ d (seq 0 NINODE) inum None)).
  set (fin := λ d', release_acq n m d' ci c L_icache Hok (ft_free _ _ _ Ht L_icache I)).
  destruct (cached (d_inodes d) (seq 0 NINODE) inum) as [k|] eqn:Ec.
  - destruct (cached_Some _ _ _ _ Ec) as (Hk & Hrf & Hin). apply elem_of_seq in Hk.
    pose proof (inode_there _ _ _ _ k Hic ltac:(lia)) as Hi. set (i := d_inodes d !!! k) in *.
    destruct (ic_slot _ _ _ _ Hic k i Hi) as [H0 Hv]. destruct (Hv Hrf) as [Hdev Hval].
    set (i' := i <| i_ref := i_ref i + 1 |>). exists k, (set_inode d k i'). split.
    + unfold mod_inode. rewrite bind_modd, (bind_done _ _ _ _ _ _ (fin _)).
      unfold set_inode. by rewrite (list_alter_insert_at _ _ _ _ Hi).
    + assert (Hlt : (k < length (d_inodes d))%nat) by by eapply lookup_lt_Some.
      split; [|split_and!; try done].
      * eapply icache_set; [done | done | simpl; lia |]. intros _. split_and!; [done | | by left].
        intros Hvl. transitivity (dino_at v sb (i_inum i) i <| i_ref := i_ref i + 1 |>); [done | by rewrite (Hval Hvl)].
      * rewrite (refs_set d k i i' Hi). f_equal. simpl. lia.
      * by eapply iframe_set.
      * exists i'. split; [by apply list_lookup_insert_eq | split; [done | simpl; lia]].
  - destruct (unused_inode (d_inodes d) (seq 0 NINODE)) as [k|] eqn:Eu.
    2:{ destruct (nfree_slot d Hfree) as (k & i & Hk & H0). destruct (unused_inode_None _ _ k Eu).
        - apply elem_of_seq. pose proof (inode_lt _ _ _ _ _ _ Hic Hk). lia.
        - by rewrite (lookup_total_Some _ _ _ Hk). }
    destruct (unused_inode_Some _ _ _ Eu) as (Hk & Hrf). apply elem_of_seq in Hk.
    pose proof (inode_there _ _ _ _ k Hic ltac:(lia)) as Hi. set (i := d_inodes d !!! k) in *.
    set (i' := i <| i_dev := ROOTDEV |> <| i_inum := inum |> <| i_ref := 1 |> <| i_valid := 0 |>).
    assert (Hlt : (k < length (d_inodes d))%nat) by by eapply lookup_lt_Some.
    exists k, (set_inode d k i'). split.
    + unfold mod_inode. rewrite !bind_modd, (bind_done _ _ _ _ _ _ (fin _)).
      unfold set_inode. simpl. rewrite (list_alter_insert_at _ _ _ _ Hi).
      do 3 rewrite (list_alter_insert_at _ (<[k:=_]> _) k _ (list_lookup_insert_eq _ _ _ Hlt)), list_insert_insert_eq. done.
    + split; [|split_and!; try done].
      * eapply icache_set; [done | done | simpl; lia |]. intros _. split_and!; [done | done |].
        right. intros k' j Hne Hj Hrj. pose proof (inode_lt _ _ _ _ _ _ Hic Hj) as Hlt'.
        destruct (ic_slot _ _ _ _ Hic k' j Hj) as [_ Hvj]. destruct (Hvj Hrj) as [Hdj _].
        rewrite <- (lookup_total_Some _ _ _ Hj) in *. eapply cached_None; [done | apply elem_of_seq; lia | done | done].
      * rewrite (refs_set d k i i' Hi), Hrf. done.
      * eapply iframe_set; [done|]. lia.
      * exists i'. split; [by apply list_lookup_insert_eq | done].
Qed.

(** *** ilock, iunlock, iput *)

Definition dino (v : blocks) (sb : superblock) (inum : Z) : inode := dino_at v sb inum inode0.

(** An inode of the disk that is in use, and its file. *)
Record ino_wf (sb : superblock) (v : blocks) (inum : Z) : Prop := {
  wf_blk : is_blk (IBLOCK inum sb);
  wf_type : i_type (dino v sb inum) ≠ 0;
  wf_nlink : i_nlink (dino v sb inum) ≠ 0;
  wf_map : fmapped v (i_addrs (dino v sb inum)) (i_size (dino v sb inum));
  wf_dir : i_type (dino v sb inum) = T_DIR → i_size (dino v sb inum) mod sizeof_dirent = 0
}.
(** The cached inode [i] has been read from the disk. *)
Definition loaded (sb : superblock) (v : blocks) (i : inode) : Prop :=
  i_dev i = ROOTDEV ∧ i_type i = i_type (dino v sb (i_inum i)) ∧ i_nlink i = i_nlink (dino v sb (i_inum i))
  ∧ i_size i = i_size (dino v sb (i_inum i)) ∧ i_addrs i = i_addrs (dino v sb (i_inum i)).
Lemma dino_loaded sb v i : i_dev i = ROOTDEV → dino_at v sb (i_inum i) i = i → loaded sb v i.
Proof.
  intros Hd Hi. split; [done|]. split_and!;
    [exact (f_equal i_type (eq_sym Hi)) | exact (f_equal i_nlink (eq_sym Hi))
    | exact (f_equal i_size (eq_sym Hi)) | exact (f_equal i_addrs (eq_sym Hi))].
Qed.

Lemma icache_frame sb v lk d d' : fs_frame d d' → icache sb v lk d → icache sb v lk d'.
Proof.
  intros Hf [Hl Hs Hsl Hu Hlk]. split; rewrite ?(fs_frame_inodes _ _ Hf), ?(fs_frame_sb _ _ Hf); try done.
  intros k Hk. rewrite (ff_locks _ _ Hf). auto.
Qed.
Lemma iframe_fs d d' : fs_frame d d' → wrote [] d d' → iframe d d'.
Proof.
  intros Hf Hw. split; [|done|].
  - exact (f_equal (λ x, x <| d_inodes := [] |>) (ff_core _ _ Hf)).
  - intros k i Hk _. exists i. by rewrite (fs_frame_inodes _ _ Hf).
Qed.
Lemma iframe_same d d' :
  d_inodes d' = d_inodes d → fs_core d' = fs_core d → d_ide d' = d_ide d → iframe d d'.
Proof.
  intros Ei Ec Ed. split; [exact (f_equal (λ x, x <| d_inodes := [] |>) Ec) | by apply wrote_nil |].
  intros k i Hk _. exists i. by rewrite Ei.
Qed.
Definition live (d d1 : kdata) : Prop :=
  ∀ k r, refs d !! k = Some r → 0 < r → ∃ r1, refs d1 !! k = Some r1 ∧ 0 < r1.
Lemma iframe_trans d d1 d2 : iframe d d1 → iframe d1 d2 → live d d1 → iframe d d2.
Proof.
  intros [C1 W1 S1] [C2 W2 S2] Hl. split; [congruence | by apply (wrote_app [] [] d d1 d2) |].
  intros k i Hk Hr. destruct (S1 k i Hk Hr) as (i1 & Hk1 & E1).
  destruct (Hl k _ (refs_lookup _ _ _ Hk) Hr) as (r1 & Hr1 & Hp). rewrite (refs_lookup _ _ _ Hk1) in Hr1. simplify_eq.
  destruct (S2 k i1 Hk1 Hp) as (i2 & Hk2 & E2). exists i2. split; [done | congruence].
Qed.
Lemma live_same d d1 : refs d1 = refs d → live d d1.
Proof. intros E k r. rewrite E. eauto. Qed.

Lemma refs_frame d d' : fs_frame d d' → refs d' = refs d.
Proof. intros Hf. unfold refs. by rewrite (fs_frame_inodes _ _ Hf). Qed.
Lemma icache_lock sb v lk lk' d d' ip l :
  icache sb v lk d → d_inodes d' = d_inodes d → d_sb d' = d_sb d → d_sl d' = <[SL_inode ip := l]> (d_sl d) →
  slk_locked l = (if decide (lk' = Some ip) then 1 else 0) → (∀ k, k ≠ ip → lk = Some k ↔ lk' = Some k) →
  icache sb v lk' d'.
Proof.
  intros [Hl Hs Hsl Hu Hlk] Ei Es El H1 Hk. split; rewrite ?Ei, ?Es; try done.
  intros k Hlt. rewrite El. destruct (decide (k = ip)) as [->|Hne].
  - exists l. by rewrite lookup_insert_eq.
  - destruct (Hlk k Hlt) as (l' & Hl' & E'). exists l'. rewrite lookup_insert_ne by congruence. split; [done|].
    rewrite E'. specialize (Hk k Hne). by repeat case_decide; tauto.
Qed.

(** What the thread knows after one of the operations. *)
Definition ipost (sb : superblock) (v : blocks) (E D : gset Z) (lk : option nat) (d : kdata) (rs : list Z)
    (Q : kdata → Prop) (s' : kst) : Prop :=
  ∃ m' d', s' = K m' d' ∧ fs_ok m' d' v E D ∅ ∧ icache sb v lk d' ∧ refs d' = rs ∧ iframe d d' ∧ Q d'.

Lemma lock_inode m d sb v E D ip :
  fs_ok m d v E D ∅ → icache sb v None d → (ip < NINODE)%nat →
  ∃ d1, acquiresleep (SL_inode ip) n (K m d) = Done tt (K m d1) ∧ fs_ok m d1 v E D ∅ ∧ icache sb v (Some ip) d1
    ∧ d_inodes d1 = d_inodes d ∧ iframe d d1.
Proof.
  intros Hok Hic Hlt. destruct (ic_sl _ _ _ _ Hic ip Hlt) as (l & Hl & H0). simpl in H0. pose proof Hok as (Ht & _).
  eexists. split; [apply (acquiresleep_done p n m (SL_inode ip) Hlt d l); try done; lia|]. split_and!; [| | done | by apply iframe_same].
  - eapply fs_ok_other; [..|exact Hok]; try done. intros b. simpl. by rewrite lookup_insert_ne.
  - eapply icache_lock; [exact Hic | done.. | simpl; by rewrite decide_True |]. intros k Hne. split; congruence.
Qed.
Lemma unlock_inode m d sb v E D ip :
  fs_ok m d v E D ∅ → icache sb v (Some ip) d → (ip < NINODE)%nat →
  ∃ d1, releasesleep (SL_inode ip) n (K m d) = Done tt (K m d1) ∧ fs_ok m d1 v E D ∅ ∧ icache sb v None d1
    ∧ d_inodes d1 = d_inodes d ∧ iframe d d1.
Proof.
  intros Hok Hic Hlt. destruct (ic_sl _ _ _ _ Hic ip Hlt) as (l & Hl & H0). pose proof Hok as (Ht & _).
  eexists. split; [by apply (releasesleep_done p n m (SL_inode ip) Hlt d l)|]. split_and!; [| | done |].
  - eapply fs_ok_other; [..|exact Hok]; try done; [apply pdirs_quiet; simpl; by rewrite quiet_wake|]. intros b. simpl. by rewrite lookup_insert_ne.
  - eapply icache_lock; [exact Hic | done..|]. intros k Hne. split; congruence.
  - apply iframe_same; try done. unfold fs_core. simpl. by rewrite quiet_wake.
Qed.

Lemma ilock_load_wp m d sb v E D ip i :
  fs_ok m d v E D ∅ → icache sb v None d → (size D < NBUF)%nat → d_inodes d !! ip = Some i → 0 < i_ref i →
  is_blk (IBLOCK (i_inum i) sb) → i_type (dino v sb (i_inum i)) ≠ 0 →
  wp R (ilock (Some ip) n (K m d)) (λ _, ipost sb v E D (Some ip) d (refs d)
    (λ d', ∃ i', d_inodes d' !! ip = Some i' ∧ i_inum i' = i_inum i ∧ i_ref i' = i_ref i ∧ loaded sb v i' ∧ i_valid i' ≠ 0)).
Proof.
  intros Hok Hic Hsz Hi Hr Hblk Hty. pose proof (inode_lt _ _ _ _ _ _ Hic Hi) as Hlt.
  destruct (ic_slot _ _ _ _ Hic ip i Hi) as [_ Hs]. destruct (Hs Hr) as [Hdev Hval].
  unfold ilock. rewrite (get_inode_bind m d ip i _ Hi), (proj2 (Z.ltb_ge _ _)) by lia.
  destruct (lock_inode m d sb v E D ip Hok Hic Hlt) as (d1 & Hrun & Hok1 & Hic1 & Ei1 & Hf1).
  rewrite (bind_done _ _ _ _ _ _ Hrun). assert (Hi1 : d_inodes d1 !! ip = Some i) by by rewrite Ei1.
  assert (Er1 : refs d1 = refs d) by (unfold refs; by rewrite Ei1).
  rewrite (get_inode_bind m d1 ip i _ Hi1). destruct (Z.eqb_spec (i_valid i) 0) as [Hv|Hv].
  2:{ exists m, d1. split_and!; try done. exists i. split_and!; try done. by apply dino_loaded; auto. }
  cbn [negb]. unfold get_sb. rewrite bind_getd, (ic_sb _ _ _ _ Hic1), Hdev.
  apply (read_block_wp m d1 v E D _ _ _ Hok1 Hblk Hsz). intros b x m2 d2 Hx Hok2 Hf2 Hw2 _.
  assert (Hi2 : d_inodes d2 !! ip = Some i) by by rewrite (fs_frame_inodes _ _ Hf2).
  set (i3 := dino_at v sb (i_inum i) i). set (d3 := set_inode d2 ip i3). set (i5 := i3 <| i_valid := 1 |>).
  rewrite (bind_done _ _ _ _ tt (K m2 d3)).
  2:{ unfold mod_inode. rewrite modd_done, Hx, (list_alter_insert_at _ _ _ _ Hi2). done. }
  assert (Hok3 : fs_ok m2 d3 v E D (<[b:=IBLOCK (i_inum i) sb]> ∅)) by by eapply fs_ok_other; [..|exact Hok2].
  destruct (brelse_done n m2 d3 v E D _ b (IBLOCK (i_inum i) sb) Hok3 (lookup_insert_eq _ _ _)) as (d4 & Hrun4 & Hok4 & Hf4 & Hi4).
  { intros HE. pose proof Hok as (_ & _ & Hc). destruct (co_pend _ _ _ _ _ Hc _ HE) as [|[b' Hb']]; [done|]. by rewrite lookup_empty in Hb'. }
  rewrite (bind_done _ _ _ _ _ _ Hrun4). rewrite delete_insert_id in Hok4 by done.
  assert (Hlt2 : (ip < length (d_inodes d2))%nat) by by eapply lookup_lt_Some.
  assert (Hi4' : d_inodes d4 !! ip = Some i3) by (rewrite (fs_frame_inodes _ _ Hf4); by apply list_lookup_insert_eq).
  rewrite (bind_done _ _ _ _ tt (K m2 (set_inode d4 ip i5))).
  2:{ unfold mod_inode. rewrite modd_done, (list_alter_insert_at _ _ _ _ Hi4'). done. }
  assert (Hlt4 : (ip < length (d_inodes d4))%nat) by by eapply lookup_lt_Some.
  rewrite (get_inode_bind m2 _ ip i5) by by apply list_lookup_insert_eq.
  rewrite (proj2 (Z.eqb_neq (i_type i5) 0)) by exact Hty.
  pose proof (icache_frame _ _ _ _ _ Hf2 Hic1) as Hic2.
  assert (Hic3 : icache sb v (Some ip) d3) by (eapply icache_set; [done | done | simpl; lia | intros _; split_and!; [done..|by left]]).
  pose proof (icache_frame _ _ _ _ _ Hf4 Hic3) as Hic4. assert (E4 : refs d4 = refs d).
  { rewrite (refs_frame _ _ Hf4). unfold d3. rewrite (refs_set _ _ _ _ Hi2), (refs_frame _ _ Hf2), Er1. simpl.
    rewrite Z.sub_diag. apply list_alter_id. intros. apply Z.add_0_l. }
  assert (E5 : refs (set_inode d4 ip i5) = refs d).
  { rewrite (refs_set _ _ _ _ Hi4'), E4. simpl. rewrite Z.sub_diag. apply list_alter_id. intros. apply Z.add_0_l. }
  exists m2, (set_inode d4 ip i5). split_and!; [done | by eapply fs_ok_other; [..|exact Hok4] | | done | |].
  - eapply icache_set; [done | done | simpl; lia | intros _; split_and!; [done..|by left]].
  - eapply (iframe_trans d d1); [done | | by apply live_same]. eapply (iframe_trans d1 d2); [by apply iframe_fs | | apply live_same, (refs_frame _ _ Hf2)].
    eapply (iframe_trans d2 d3); [by eapply iframe_set | | apply live_same; by rewrite <- (refs_frame _ _ Hf4), E4, (refs_frame _ _ Hf2), Er1].
    eapply (iframe_trans d3 d4); [apply iframe_fs; [done | by apply wrote_nil] | | apply live_same, (refs_frame _ _ Hf4)].
    by eapply iframe_set.
  - exists i5. split_and!; [by apply list_lookup_insert_eq | done | done | by apply dino_loaded | done].
Qed.

Lemma ilock_wp m d sb v E D ip i :
  fs_ok m d v E D ∅ → icache sb v None d → (size D < NBUF)%nat → d_inodes d !! ip = Some i → 0 < i_ref i →
  ino_wf sb v (i_inum i) →
  wp R (ilock (Some ip) n (K m d)) (λ _, ipost sb v E D (Some ip) d (refs d)
    (λ d', ∃ i', d_inodes d' !! ip = Some i' ∧ i_inum i' = i_inum i ∧ i_ref i' = i_ref i ∧ loaded sb v i')).
Proof.
  intros Hok Hic Hsz Hi Hr Hwf. eapply wp_mono; [|apply (ilock_load_wp m d sb v E D ip i Hok Hic Hsz Hi Hr); apply Hwf].
  intros [] s' (m' & d' & -> & H1 & H2 & H3 & H4 & i' & H5 & H6 & H7 & H8 & _). exists m', d'. split_and!; try done. by exists i'.
Qed.

Lemma iunlock_wp m d sb v E D ip i :
  fs_ok m d v E D ∅ → icache sb v (Some ip) d → d_inodes d !! ip = Some i → 0 < i_ref i →
  ∃ d1, iunlock (Some ip) n (K m d) = Done tt (K m d1) ∧ fs_ok m d1 v E D ∅ ∧ icache sb v None d1
    ∧ d_inodes d1 = d_inodes d ∧ iframe d d1.
Proof.
  intros Hok Hic Hi Hr. pose proof (inode_lt _ _ _ _ _ _ Hic Hi) as Hlt. pose proof Hok as (Ht & _).
  destruct (ic_sl _ _ _ _ Hic ip Hlt) as (l & Hl & H1). rewrite decide_True in H1 by done.
  unfold iunlock. rewrite (bind_done _ _ _ _ _ _ (holdingsleep_done p n m (SL_inode ip) Hlt d l Ht Hl)), H1.
  rewrite (get_inode_bind m d ip i _ Hi), (proj2 (Z.ltb_ge _ _)) by lia. by apply unlock_inode.
Qed.

(** iput of an inode that still has a link: only the reference goes. *)
Lemma iput_done m d sb v E D ip i :
  fs_ok m d v E D ∅ → icache sb v None d → d_inodes d !! ip = Some i → 0 < i_ref i → ino_wf sb v (i_inum i) →
  ∃ d', iput ip n (K m d) = Done tt (K m d') ∧ fs_ok m d' v E D ∅ ∧ icache sb v None d'
    ∧ refs d' = add_ref (-1) ip (refs d) ∧ iframe d d'.
Proof.
  intros Hok Hic Hi Hr Hwf. pose proof (inode_lt _ _ _ _ _ _ Hic Hi) as Hlt.
  destruct (ic_slot _ _ _ _ Hic ip i Hi) as [_ Hs]. destruct (Hs Hr) as [Hdev Hval].
  destruct (lock_inode m d sb v E D ip Hok Hic Hlt) as (d1 & Hrun1 & Hok1 & Hic1 & Ei1 & Hf1).
  unfold iput. rewrite (bind_done _ _ _ _ _ _ Hrun1). assert (Hi1 : d_inodes d1 !! ip = Some i) by by rewrite Ei1.
  rewrite (get_inode_bind m d1 ip i _ Hi1).
  assert (ctrue (i_valid i) && (i_nlink i =? 0) = false) as ->.
  { unfold ctrue. destruct (Z.eqb_spec (i_valid i) 0) as [|Hv]; [done|]. simpl. apply Z.eqb_neq.
    destruct (dino_loaded sb v i Hdev (Hval Hv)) as (_ & _ & -> & _). apply Hwf. }
  cbn [when]. rewrite bind_mret.
  destruct (unlock_inode m d1 sb v E D ip Hok1 Hic1 Hlt) as (d2 & Hrun2 & Hok2 & Hic2 & Ei2 & Hf2).
  rewrite (bind_done _ _ _ _ _ _ Hrun2). pose proof Hok2 as (Ht2 & _).
  destruct (ft_run _ _ _ Ht2) as (ci & c & Hrp). pose proof (rp_ok _ _ _ _ Hrp) as Hmok.
  rewrite (bind_done _ _ _ _ _ _ (acquire_done n m d2 ci c _ Hmok (ft_free _ _ _ Ht2 L_icache I))).
  assert (Hi2 : d_inodes d2 !! ip = Some i) by by rewrite Ei2. set (i' := i <| i_ref := i_ref i - 1 |>).
  unfold mod_inode. rewrite bind_modd, (list_alter_insert_at _ _ _ _ Hi2). change (d2 <| d_inodes := _ |>) with (set_inode d2 ip i').
  rewrite (release_acq n m _ ci c _ Hmok (ft_free _ _ _ Ht2 L_icache I)).
  assert (E1 : refs d1 = refs d) by (unfold refs; by rewrite Ei1). assert (E2 : refs d2 = refs d) by (unfold refs; by rewrite Ei2, Ei1).
  eexists. split; [done|]. split_and!.
  - by eapply fs_ok_other; [..|exact Hok2].
  - eapply icache_set; [done | done | simpl; lia |]. intros _. split_and!; [done | | by left].
    intros Hv. transitivity (dino_at v sb (i_inum i) i <| i_ref := i_ref i - 1 |>); [done | by rewrite (Hval Hv)].
  - rewrite (refs_set _ _ _ _ Hi2), E2. f_equal. simpl. lia.
  - eapply (iframe_trans d d1); [done | | by apply live_same]. eapply (iframe_trans d1 d2); [done | | apply live_same; congruence].
    by eapply iframe_set.
Qed.
End fs.
