(* ===== verification/PathFacts.v ===== *)
(** * PathFacts: directories and paths

    A directory as the entries of its file, the walk along the elements of a
    path, and what dirlookup and namex do (FsFacts has the layer below). *)

From S2P Require Import Prelude Memory Kstate Spinlock Kalloc Cprintf Vm Sched SchedFacts Sleeplock Bio BioRing BioFacts Log Inode Console Fs FsFacts.

Section path.
Context {Drv : Disk} {p : nat} {R : wait_reason → kst → kst → Prop} {DL : DiskLaw p R} (n : nat) (Hn : (2 <= n)%nat).

(** ** Directories *)

(** Entry [k], and the first entry with a name: its inode and its offset. *)
Definition dent (v : blocks) (addrs : list Z) (k : Z) : list Z := fbytes v addrs (sizeof_dirent * k) sizeof_dirent.
Fixpoint dir_find (v : blocks) (addrs name : list Z) (ks : list Z) : option (Z * Z) :=
  match ks with
  | [] => None
  | k :: ks' =>
    let de := dent v addrs k in
    if de_inum de =? 0 then dir_find v addrs name ks'
    else if namecmp name (de_name de) =? 0 then Some (de_inum de, sizeof_dirent * k)
    else dir_find v addrs name ks'
  end.
Definition dir_lookup (v : blocks) (i : inode) (name : list Z) : option (Z * Z) :=
  dir_find v (i_addrs i) name (seqZ 0 (i_size i / sizeof_dirent)).

(** A slot [ip] refers to inode [inum]. *)
Definition refers (d : kdata) (ip : nat) (inum : Z) : Prop :=
  ∃ i, d_inodes d !! ip = Some i ∧ i_inum i = inum ∧ 0 < i_ref i.

Definition dir_post (sb : superblock) (v : blocks) (E D : gset Z) (lk : option nat) (d : kdata)
    (o : option (Z * Z)) (r : option (nat * Z)) (s' : kst) : Prop :=
  match o with
  | None => r = None ∧ ipost sb v E D lk d (refs d) (λ _, True) s'
  | Some (inum, off) =>
    ∃ ip, r = Some (ip, off) ∧ ipost sb v E D lk d (add_ref 1 ip (refs d)) (λ d', refers d' ip inum) s'
  end.

Lemma dirlookup_loop_wp sb v E D dp i name fuel m d k cnt :
  (size D < NBUF)%nat → loaded sb v i → i_type i = T_DIR → fmapped v (i_addrs i) (i_size i) → i_size i mod sizeof_dirent = 0 →
  0 <= k → Z.of_nat cnt = i_size i / sizeof_dirent - k → (cnt < fuel)%nat →
  fs_ok m d v E D ∅ → icache sb v (Some dp) d → d_inodes d !! dp = Some i → (1 <= nfree (refs d))%nat →
  wp R (dirlookup_loop fuel dp name (sizeof_dirent * k) n (K m d))
    (dir_post sb v E D (Some dp) d (dir_find v (i_addrs i) name (seqZ k (Z.of_nat cnt)))).
Proof.
  intros Hsz Hld Hty Hf Hmod. revert m d k cnt. induction fuel as [|fuel IH]; intros m d k cnt H0 Hcnt Hfu Hok Hic Hi Hfree; [lia|].
  pose proof (Z.div_mod (i_size i) sizeof_dirent ltac:(done)) as Hdm. rewrite Hmod in Hdm.
  pose proof (fm_size _ _ _ Hf) as Hs. change (MAXFILE * BSIZE) with 71680 in Hs.
  assert (Hrefl : iframe d d) by (apply iframe_fs; [done | by apply wrote_nil]).
  cbn [dirlookup_loop]. rewrite (get_inode_bind n m d dp i _ Hi).
  destruct cnt as [|cnt].
  { rewrite (proj2 (Z.ltb_ge _ _)) by (unfold sizeof_dirent in *; lia). cbn [negb seqZ]. split; [done|].
    by exists m, d. }
  rewrite (proj2 (Z.ltb_lt _ _)) by (unfold sizeof_dirent in *; lia). cbn [negb]. apply wp_bind.
  eapply wp_mono; [|apply (readi_wp n Hn m d v E D dp i (sizeof_dirent * k) sizeof_dirent Hok Hsz Hi (proj1 Hld)); try done;
    [by rewrite Hty | unfold sizeof_dirent in *; lia | unfold sizeof_dirent in *; lia]].
  intros r s1 (-> & m1 & d1 & -> & Hok1 & Hf1 & Hw1).
  rewrite Z.min_l by (unfold sizeof_dirent in *; lia). cbn [fst snd]. rewrite Z.eqb_refl. cbn [negb].
  pose proof (icache_frame _ _ _ _ _ Hf1 Hic) as Hic1. assert (Hi1 : d_inodes d1 !! dp = Some i) by by rewrite (fs_frame_inodes _ _ Hf1).
  pose proof (refs_frame _ _ Hf1) as Er1. pose proof (iframe_fs _ _ Hf1 Hw1) as Hif1.
  fold (dent v (i_addrs i) k). rewrite Nat2Z.inj_succ, seqZ_cons, Z.pred_succ by lia. cbn [dir_find].
  assert (Hgo : wp R (dirlookup_loop fuel dp name (sizeof_dirent * k +u sizeof_dirent) n (K m1 d1))
    (dir_post sb v E D (Some dp) d (dir_find v (i_addrs i) name (seqZ (Z.succ k) (Z.of_nat cnt))))).
  { rewrite u32_small by (unfold is_u32, sizeof_dirent in *; lia).
    replace (sizeof_dirent * k + sizeof_dirent) with (sizeof_dirent * Z.succ k) by lia.
    eapply wp_mono; [|apply (IH m1 d1 (Z.succ k) cnt); try done; [lia | lia | lia | by rewrite Er1]].
    intros r s'. unfold dir_post. destruct (dir_find _ _ _ _) as [[inum off]|].
    - intros (ip & -> & m2 & d2 & -> & Hok2 & Hic2 & E2 & Hf2 & Q2). exists ip. split; [done|]. exists m2, d2.
      rewrite Er1 in E2. split_and!; try done. eapply (iframe_trans d d1); [done..|by apply live_same].
    - intros (-> & m2 & d2 & -> & Hok2 & Hic2 & E2 & Hf2 & Q2). split; [done|]. exists m2, d2.
      rewrite Er1 in E2. split_and!; try done. eapply (iframe_trans d d1); [done..|by apply live_same]. }
  destruct (de_inum (dent v (i_addrs i) k) =? 0); [done|].
  destruct (namecmp name (de_name (dent v (i_addrs i) k)) =? 0); [|done].
  rewrite (get_inode_bind n m1 d1 dp i _ Hi1), (proj1 Hld). pose proof Hok1 as (Ht1 & _).
  destruct (iget_done n Hn m1 d1 sb v (Some dp) (de_inum (dent v (i_addrs i) k)) Ht1 Hic1) as (ip & d2 & Hrun & Hic2 & E2 & Hf2 & Es & Eb & Ed & Ep & Hr2).
  { by rewrite Er1. }
  rewrite (bind_done _ _ _ _ _ _ Hrun). exists ip. split; [done|]. exists m1, d2. rewrite Er1 in E2.
  split_and!; try done.
  - eapply fs_ok_other; [..|exact Hok1]; try done; [unfold pdirs; by rewrite Ep | intros b; by rewrite Es].
  - eapply (iframe_trans d d1); [done..|by apply live_same].
Qed.

Lemma dirlookup_wp sb v E D dp i name m d :
  (size D < NBUF)%nat → loaded sb v i → i_type i = T_DIR → ino_wf sb v (i_inum i) →
  fs_ok m d v E D ∅ → icache sb v (Some dp) d → d_inodes d !! dp = Some i → (1 <= nfree (refs d))%nat →
  wp R (dirlookup dp name n (K m d)) (dir_post sb v E D (Some dp) d (dir_lookup v i name)).
Proof.
  intros Hsz Hld Hty Hwf Hok Hic Hi Hfree. pose proof Hld as (_ & Et & _ & Es & Ea).
  assert (Hf : fmapped v (i_addrs i) (i_size i)) by (rewrite Es, Ea; apply Hwf).
  assert (Hmod : i_size i mod sizeof_dirent = 0) by (rewrite Es; apply Hwf; congruence).
  unfold dirlookup. rewrite (get_inode_bind n m d dp i _ Hi), Hty. cbn [Z.eqb Pos.eqb T_DIR negb].
  pose proof (Z.div_pos (i_size i) sizeof_dirent (proj1 (fm_size _ _ _ Hf)) ltac:(done)) as Hp.
  pose proof (dirlookup_loop_wp sb v E D dp i name (S (Z.to_nat (i_size i / sizeof_dirent) + 1)) m d 0
    (Z.to_nat (i_size i / sizeof_dirent)) Hsz Hld Hty Hf Hmod ltac:(lia) ltac:(lia) ltac:(lia) Hok Hic Hi Hfree) as H.
  rewrite Z2Nat.id in H by done. exact H.
Qed.

(** ** Paths *)

(** The elements of a path, and the walk along them from inode [inum]. *)
Fixpoint path_elems (fuel : nat) (path : list Z) : list (list Z) :=
  match fuel with
  | O => []
  | S fuel' => match skipelem path with None => [] | Some (e, path') => e :: path_elems fuel' path' end
  end.
Fixpoint walk (sb : superblock) (v : blocks) (parent : bool) (es : list (list Z)) (inum : Z) (name : list Z) : option Z * list Z :=
  match es with
  | [] => (if parent then None else Some inum, name)
  | e :: es' =>
    let i := dino v sb inum in
    if negb (i_type i =? T_DIR) then (None, e)
    else if parent && bool_decide (es' = []) then (Some inum, e)
    else match dir_lookup v i e with
         | None => (None, e)
         | Some (inum', _) => walk sb v parent es' inum' e
         end
  end.

(** The inodes of [P] are in order, and the directories among them lead only to others. *)
Definition tree_wf (sb : superblock) (v : blocks) (P : Z → Prop) : Prop :=
  ∀ inum, P inum → ino_wf sb v inum ∧
    (i_type (dino v sb inum) = T_DIR → ∀ k, 0 <= k < i_size (dino v sb inum) / sizeof_dirent →
       de_inum (dent v (i_addrs (dino v sb inum)) k) ≠ 0 → P (de_inum (dent v (i_addrs (dino v sb inum)) k))).

Lemma dir_find_entry v addrs name ks inum off :
  dir_find v addrs name ks = Some (inum, off) →
  ∃ k, k ∈ ks ∧ inum = de_inum (dent v addrs k) ∧ inum ≠ 0 ∧ off = sizeof_dirent * k ∧ namecmp name (de_name (dent v addrs k)) = 0.
Proof.
  induction ks as [|k ks IH]; simpl; [done|]. destruct (Z.eqb_spec (de_inum (dent v addrs k)) 0).
  - intros (k' & ? & ?)%IH. exists k'. split; [by apply list_elem_of_further | done].
  - destruct (Z.eqb_spec (namecmp name (de_name (dent v addrs k))) 0).
    + intros [= <- <-]. exists k. split; [apply list_elem_of_here | done].
    + intros (k' & ? & ?)%IH. exists k'. split; [by apply list_elem_of_further | done].
Qed.
Lemma tree_next sb v P inum name inum' off :
  tree_wf sb v P → P inum → i_type (dino v sb inum) = T_DIR →
  dir_lookup v (dino v sb inum) name = Some (inum', off) → P inum'.
Proof.
  intros Hw HP Hty (k & Hk & -> & Hnz & _)%dir_find_entry. apply elem_of_seqZ in Hk.
  destruct (Hw inum HP) as [_ Hd]. apply Hd; [done | lia | done].
Qed.

Lemma skip_slashes_nil path : skip_slashes (skip_slashes path) = skip_slashes path.
Proof. induction path as [|c path IH]; simpl; [done|]. destruct (c =? slash) eqn:E; [done|]. simpl. by rewrite E. Qed.
Lemma skipelem_rest path e path' : skipelem path = Some (e, path') → skip_slashes path' = path' ∧ (length path' < length path)%nat.
Proof.
  assert (Hle : ∀ l, (length (skip_slashes l) <= length l)%nat).
  { induction l as [|c l IH]; simpl; [lia|]. destruct (c =? slash); simpl; lia. }
  assert (Ht : ∀ l s r, take_elem l = (s, r) → (length r <= length l)%nat).
  { induction l as [|c l IH]; simpl; intros s r; [by intros [= <- <-]|]. destruct (c =? slash); [by intros [= <- <-]|].
    destruct (take_elem l) as [s' r'] eqn:E. intros [= <- <-]. specialize (IH _ _ eq_refl). lia. }
  unfold skipelem. pose proof (skip_slashes_nil path) as Hi. pose proof (Hle path) as Hl.
  destruct (skip_slashes path) as [|c l] eqn:Ep; [done|]. simpl in Hi. destruct (c =? slash) eqn:Ec.
  { pose proof (Hle l). rewrite Hi in *. simpl in *. lia. }
  simpl. rewrite Ec. destruct (take_elem l) as [s r] eqn:Et. intros [= <- <-].
  split; [apply skip_slashes_nil|]. pose proof (Hle r). pose proof (Ht _ _ _ Et). simpl in *. lia.
Qed.
Lemma path_elems_nil fuel path : skip_slashes path = path → path_elems (S fuel) path = [] ↔ path = [].
Proof.
  intros Hs. simpl. unfold skipelem. rewrite Hs. destruct path as [|c l]; [done|]. by destruct (take_elem (c :: l)).
Qed.

Lemma add_ref_cancel a b rs : add_ref (-1) a (add_ref 1 b (add_ref 1 a rs)) = add_ref 1 b rs.
Proof.
  unfold add_ref. apply list_eq. intros k.
  destruct (decide (a = k)) as [Ha|Ha], (decide (b = k)) as [Hb|Hb]; subst;
    repeat first [rewrite list_lookup_alter_eq | rewrite list_lookup_alter_ne by done];
    destruct (rs !! _); simpl; try done; f_equal; lia.
Qed.
Lemma add_ref_cancel1 a rs : add_ref (-1) a (add_ref 1 a rs) = rs.
Proof.
  unfold add_ref. apply list_eq. intros k. destruct (decide (a = k)) as [Ha|Ha]; subst;
    repeat first [rewrite list_lookup_alter_eq | rewrite list_lookup_alter_ne by done]; [|done].
  destruct (rs !! _); simpl; [f_equal; lia | done].
Qed.
Lemma live_add d d1 k : refs d1 = add_ref 1 k (refs d) → live d d1.
Proof.
  intros E j r Hj Hr. rewrite E. unfold add_ref. destruct (decide (j = k)) as [<-|Hne].
  - rewrite list_lookup_alter_eq, Hj. exists (1 + r). split; [done | lia].
  - rewrite list_lookup_alter_ne by done. eauto.
Qed.

(** What namex leaves: the references as at the start, and one more for the
    inode it returns. *)
Definition namex_post (sb : superblock) (v : blocks) (E D : gset Z) (d : kdata) (w : option Z * list Z)
    (r : option nat * list Z) (s' : kst) : Prop :=
  r.2 = w.2 ∧
  match w.1 with
  | None => r.1 = None ∧ ipost sb v E D None d (refs d) (λ _, True) s'
  | Some inum => ∃ ip, r.1 = Some ip ∧ ipost sb v E D None d (add_ref 1 ip (refs d)) (λ d', refers d' ip inum) s'
  end.

Lemma iunlockput_done m d sb v E D ip i :
  fs_ok m d v E D ∅ → icache sb v (Some ip) d → d_inodes d !! ip = Some i → 0 < i_ref i → ino_wf sb v (i_inum i) →
  ∃ d', iunlockput ip n (K m d) = Done tt (K m d') ∧ fs_ok m d' v E D ∅ ∧ icache sb v None d'
    ∧ refs d' = add_ref (-1) ip (refs d) ∧ iframe d d'.
Proof.
  intros Hok Hic Hi Hr Hwf. unfold iunlockput.
  destruct (iunlock_wp n Hn m d sb v E D ip i Hok Hic Hi Hr) as (d1 & Hrun1 & Hok1 & Hic1 & E1 & Hf1).
  rewrite (bind_done _ _ _ _ _ _ Hrun1). assert (Hi1 : d_inodes d1 !! ip = Some i) by by rewrite E1.
  destruct (iput_done n Hn m d1 sb v E D ip i Hok1 Hic1 Hi1 Hr Hwf) as (d2 & Hrun2 & Hok2 & Hic2 & E2 & Hf2).
  assert (Er : refs d1 = refs d) by (unfold refs; by rewrite E1).
  exists d2. split_and!; try done; [by rewrite E2, Er|]. eapply (iframe_trans d d1); [done..|by apply live_same].
Qed.

Lemma refers_step d d' ip inum : iframe d d' → live d d' → refers d ip inum → refers d' ip inum.
Proof.
  intros Hf Hl (i & Hi & Hin & Hr). destruct (if_slot _ _ Hf ip i Hi Hr) as (i' & Hi' & Hin'). exists i'. split; [done|]. split; [congruence|].
  destruct (Hl ip _ (refs_lookup _ _ _ Hi) Hr) as (r & Hr' & H0). rewrite (refs_lookup _ _ _ Hi') in Hr'. congruence.
Qed.

Lemma namex_loop_wp sb v E D P parent d0 fuel m d ip inum path name :
  (size D < NBUF)%nat → tree_wf sb v P → (2 <= nfree (refs d0))%nat → (∀ k r, refs d0 !! k = Some r → 0 <= r) → (length path < fuel)%nat →
  fs_ok m d v E D ∅ → icache sb v None d → refers d ip inum → P inum → refs d = add_ref 1 ip (refs d0) → iframe d0 d →
  wp R (namex_loop fuel ip path parent name n (K m d))
    (namex_post sb v E D d0 (walk sb v parent (path_elems fuel path) inum name)).
Proof.
  intros Hsz Htree Hfree Hnn. revert m d ip inum path name.
  induction fuel as [|fuel IH]; intros m d ip inum path name Hfu Hok Hic Hip HP Er Hf0; [lia|].
  pose proof Hip as (i & Hi & Hin & Hr). destruct (Htree inum HP) as [Hwf _]. pose proof (live_add _ _ _ Er) as Hl0.
  cbn [namex_loop path_elems]. destruct (skipelem path) as [[e path']|] eqn:Es.
  2:{ cbn [walk]. destruct parent.
      - destruct (iput_done n Hn m d sb v E D ip i Hok Hic Hi Hr) as (d1 & Hrun & Hok1 & Hic1 & E1 & Hf1); [by rewrite Hin|].
        rewrite (bind_done _ _ _ _ _ _ Hrun). split; [done|]. split; [done|]. exists m, d1.
        rewrite Er, add_ref_cancel1 in E1. split_and!; try done. by eapply iframe_trans.
      - split; [done|]. exists ip. split; [done|]. by exists m, d. }
  destruct (skipelem_rest _ _ _ Es) as [Hss Hlen].
  cbn [walk]. apply wp_bind. eapply wp_mono; [|apply (ilock_wp n Hn m d sb v E D ip i Hok Hic Hsz Hi Hr); by rewrite Hin].
  intros [] s1 (m1 & d1 & -> & Hok1 & Hic1 & Er1 & Hf1 & i1 & Hi1 & Hin1 & Hr1 & Hld).
  assert (Hf01 : iframe d0 d1) by by eapply iframe_trans. rewrite Er in Er1. pose proof (live_add _ _ _ Er1) as Hl1.
  rewrite (get_inode_bind n m1 d1 ip i1 _ Hi1). rewrite Hin in Hin1. pose proof Hld as (_ & Et & _ & Esz & Ead). rewrite Hin1 in Et, Esz, Ead.
  assert (Hput : ∀ A (k : KM A) (Q : A → kst → Prop),
    (∀ d2, fs_ok m1 d2 v E D ∅ → icache sb v None d2 → refs d2 = refs d0 → iframe d0 d2 → wp R (k n (K m1 d2)) Q) →
    wp R ((iunlockput ip ;; k) n (K m1 d1)) Q).
  { intros A k Q Hk. destruct (iunlockput_done m1 d1 sb v E D ip i1 Hok1 Hic1 Hi1) as (d2 & Hrun & Hok2 & Hic2 & E2 & Hf2); [lia | by rewrite Hin1 |].
    rewrite (bind_done _ _ _ _ _ _ Hrun). rewrite Er1, add_ref_cancel1 in E2. apply Hk; try done. by eapply iframe_trans. }
  rewrite Et. destruct (i_type (dino v sb inum) =? T_DIR) eqn:Ety; cbn [negb].
  2:{ apply Hput. intros d2 Hok2 Hic2 E2 Hf2. split; [done|]. split; [done|]. by exists m1, d2. }
  apply Z.eqb_eq in Ety.
  assert (bool_decide (path' = []) = bool_decide (path_elems fuel path' = [])) as ->.
  { apply bool_decide_ext. destruct fuel as [|fuel']; [lia|]. by rewrite (path_elems_nil _ _ Hss). }
  destruct (parent && bool_decide (path_elems fuel path' = [])).
  { destruct (iunlock_wp n Hn m1 d1 sb v E D ip i1 Hok1 Hic1 Hi1) as (d2 & Hrun & Hok2 & Hic2 & E2 & Hf2); [lia|].
    rewrite (bind_done _ _ _ _ _ _ Hrun). split; [done|]. exists ip. split; [done|]. exists m1, d2.
    split_and!; try done; [by unfold refs; rewrite E2 | by eapply iframe_trans |]. exists i1. rewrite E2. split_and!; [done.. | lia]. }
  apply wp_bind. eapply wp_mono; [|apply (dirlookup_wp sb v E D ip i1 e m1 d1 Hsz Hld); try done].
  2:{ by rewrite Et. }
  2:{ by rewrite Hin1. }
  2:{ pose proof (nfree_add (refs d0) ip 1). rewrite Er1. lia. }
  assert (dir_lookup v i1 e = dir_lookup v (dino v sb inum) e) as -> by (unfold dir_lookup; by rewrite Esz, Ead).
  destruct (dir_lookup v (dino v sb inum) e) as [[inum' off]|] eqn:Edl; intros r s2.
  - intros (nx & -> & m2 & d2 & -> & Hok2 & Hic2 & E2 & Hf2 & j & Hj & Hjn & Hjr).
    assert (Hlive2 : live d0 d2). { intros k r Hk Hr0. destruct (Hl1 k r Hk Hr0) as (r1 & Hk1 & Hr1'). by eapply (live_add d1 d2). }
    destruct (refers_step d1 d2 ip inum Hf2 (live_add _ _ _ E2)) as (i2 & Hi2 & Hin2 & Hr2); [exists i1; split_and!; [done.. | lia]|].
    destruct (iunlockput_done m2 d2 sb v E D ip i2 Hok2 Hic2 Hi2 Hr2) as (d3 & Hrun & Hok3 & Hic3 & E3 & Hf3); [by rewrite Hin2|].
    rewrite (bind_done _ _ _ _ _ _ Hrun). rewrite E2, Er1, add_ref_cancel in E3.
    apply IH; try done; [lia | | by eapply tree_next | by eapply (iframe_trans d0 d2); [eapply (iframe_trans d0 d1)|..]].
    destruct (if_slot _ _ Hf3 nx j Hj Hjr) as (j3 & Hj3 & Hjn3). exists j3. split; [done|]. split; [congruence|].
    pose proof (refs_lookup _ _ _ Hj3) as Hjr3. rewrite E3 in Hjr3. unfold add_ref in Hjr3. rewrite list_lookup_alter_eq in Hjr3.
    destruct (refs d0 !! nx) as [r0|] eqn:Er0; simplify_eq. specialize (Hnn _ _ Er0). simpl in Hjr3. injection Hjr3. lia.
  - intros (-> & m2 & d2 & -> & Hok2 & Hic2 & E2 & Hf2 & _).
    destruct (refers_step d1 d2 ip inum Hf2 (live_same _ _ E2)) as (i2 & Hi2 & Hin2 & Hr2); [exists i1; split_and!; [done.. | lia]|].
    destruct (iunlockput_done m2 d2 sb v E D ip i2 Hok2 Hic2 Hi2 Hr2) as (d3 & Hrun & Hok3 & Hic3 & E3 & Hf3); [by rewrite Hin2|].
    rewrite (bind_done _ _ _ _ _ _ Hrun). rewrite E2, Er1, add_ref_cancel1 in E3. split; [done|]. split; [done|]. exists m2, d3.
    split_and!; try done. eapply (iframe_trans d0 d1); [done| |done]. by eapply (iframe_trans d1 d2); [..|by apply live_same].
Qed.

(** idup: one more reference to a cached inode. *)
Lemma idup_done m d sb v lk ip inum :
  fs_thread p m d → icache sb v lk d → refers d ip inum →
  ∃ d', idup ip n (K m d) = Done ip (K m d') ∧ igot sb v lk inum d ip d'.
Proof.
  intros Ht Hic (i & Hi & Hin & Hr). destruct (ft_run _ _ _ Ht) as (ci & c & Hrp). pose proof (rp_ok _ _ _ _ Hrp) as Hok.
  destruct (ic_slot _ _ _ _ Hic ip i Hi) as [H0 Hv]. destruct (Hv Hr) as [Hdev Hval].
  set (i' := i <| i_ref := i_ref i + 1 |>). exists (set_inode d ip i'). split.
  - unfold idup. rewrite (bind_done _ _ _ _ _ _ (acquire_done n m d ci c _ Hok (ft_free _ _ _ Ht L_icache I))).
    unfold mod_inode. rewrite bind_modd, (bind_done _ _ _ _ _ _ (release_acq n m _ ci c L_icache Hok (ft_free _ _ _ Ht L_icache I))).
    unfold set_inode. by rewrite (list_alter_insert_at _ _ _ _ Hi).
  - assert (Hlt : (ip < length (d_inodes d))%nat) by by eapply lookup_lt_Some. split; [|split_and!; try done].
    + eapply icache_set; [done | done | simpl; lia |]. intros _. split_and!; [done | | by left].
      intros Hvl. transitivity (dino_at v sb (i_inum i) i <| i_ref := i_ref i + 1 |>); [done | by rewrite (Hval Hvl)].
    + rewrite (refs_set d ip i i' Hi). f_equal. simpl. lia.
    + by eapply iframe_set.
    + exists i'. split; [by apply list_lookup_insert_eq | split; [done | simpl; lia]].
Qed.

(** The inode a path starts at: the root, or the directory of the process. *)
Definition path_start (d : kdata) (path : list Z) (inum : Z) : Prop :=
  if decide (head path = Some slash) then inum = ROOTINO
  else ∃ cwd, p_cwd (d_procs d !!! p) = Some cwd ∧ refers d cwd inum.

Lemma namex_start m d sb v E D path inum {A} (g : nat → KM A) (Q : A → kst → Prop) :
  fs_ok m d v E D ∅ → icache sb v None d → (1 <= nfree (refs d))%nat → path_start d path inum →
  (∀ ip d', fs_ok m d' v E D ∅ → icache sb v None d' → refs d' = add_ref 1 ip (refs d) → iframe d d' → refers d' ip inum →
     wp R (g ip n (K m d')) Q) →
  wp R (((if bool_decide (head path = Some slash) then iget ROOTDEV ROOTINO
          else i ← curproc; pr ← get_proc i; cwd ← from_opt "namex: null cwd" (p_cwd pr); idup cwd) ≫= g) n (K m d)) Q.
Proof.
  intros Hok Hic Hfree Hst Hg. pose proof Hok as (Ht & _).
  assert (Hfin : ∀ ip d', igot sb v None inum d ip d' → wp R (g ip n (K m d')) Q).
  { intros ip d' (Hic' & Er & Hf & Es & Eb & Ed & Ep & Hr). apply Hg; try done.
    eapply fs_ok_other; [..|exact Hok]; try done; [unfold pdirs; by rewrite Ep | intros b; by rewrite Es]. }
  unfold path_start in Hst. case_bool_decide as Hs.
  - rewrite decide_True in Hst by done. subst inum.
    destruct (iget_done n Hn m d sb v None ROOTINO Ht Hic Hfree) as (ip & d' & Hrun & Hgot).
    rewrite (bind_done _ _ _ _ _ _ Hrun). by apply Hfin.
  - rewrite decide_False in Hst by done. destruct Hst as (cwd & Hcwd & Href). destruct (ft_run _ _ _ Ht) as (ci & c & Hrp).
    destruct (idup_done m d sb v None cwd inum Ht Hic Href) as (d' & Hrun & Hgot).
    erewrite bind_done; [by apply Hfin|].
    rewrite (bind_done _ _ _ _ _ _ (curproc_done n m d ci c p (rp_ok _ _ _ _ Hrp) (rp_proc _ _ _ _ Hrp))).
    unfold get_proc. rewrite bind_getd, Hcwd. erewrite bind_done by reflexivity. exact Hrun.
Qed.

Lemma namex_wp m d sb v E D P path parent inum :
  fs_ok m d v E D ∅ → icache sb v None d → (size D < NBUF)%nat → (2 <= nfree (refs d))%nat →
  tree_wf sb v P → P inum → path_start d path inum →
  wp R (namex path parent n (K m d))
    (namex_post sb v E D d (walk sb v parent (path_elems (S (length path)) path) inum [])).
Proof.
  intros Hok Hic Hsz Hfree Htree HP Hst. unfold namex. apply (namex_start m d sb v E D path inum); try done; [lia|].
  intros ip d' Hok' Hic' Er Hf Href. eapply namex_loop_wp; try done; [|lia].
  intros k r Hk. unfold refs in Hk. rewrite list_lookup_fmap, fmap_Some in Hk. destruct Hk as (i & Hi & ->).
  by destruct (ic_slot _ _ _ _ Hic k i Hi).
Qed.
End path.
