(* ===== verification/Ondisk.v ===== *)
(** * Ondisk: what blocks of the disk hold

    The free map, one bit for each block, and the inodes: dinode_put stores an
    inode where dinode_get reads it, and changes no other inode of the block. *)

From S2P Require Import Prelude Memory Kstate Log Inode.

(** ** The free map *)

(** The bit of block [b]. *)
Definition bitmap_bit (buf : list Z) (b : Z) : bool := Z.testbit (buf !!! Z.to_nat (b / 8)) (b mod 8).

Lemma u8_testbit x j : 0 <= j < 8 → Z.testbit (u8 x) j = Z.testbit x j.
Proof. intros. unfold u8. rewrite Z.mod_pow2_bits_low by lia. done. Qed.
Lemma set_bit_spec buf i b :
  0 <= i → 0 <= b → i / 8 < Z.of_nat (length buf) →
  bitmap_bit (alter (λ c, u8 (Z.lor c (Z.shiftl 1 (i mod 8)))) (Z.to_nat (i / 8)) buf) b = (b =? i) || bitmap_bit buf b.
Proof.
  intros Hi Hb Hl. unfold bitmap_bit. pose proof (Z.mod_pos_bound b 8 ltac:(done)) as Hbm. pose proof (Z.mod_pos_bound i 8 ltac:(done)) as Him.
  pose proof (Z.div_mod b 8 ltac:(done)) as Hbd. pose proof (Z.div_mod i 8 ltac:(done)) as Hid. pose proof (Z.div_pos i 8 ltac:(done) ltac:(done)).
  destruct (decide (b / 8 = i / 8)) as [E|E].
  - rewrite E. destruct (lookup_lt_is_Some_2 buf (Z.to_nat (i / 8))) as [c Hc]; [lia|].
    rewrite !list_lookup_total_alt, list_lookup_alter_eq, Hc. simpl. rewrite u8_testbit, Z.lor_spec, Z.shiftl_spec by lia.
    rewrite orb_comm. f_equal. change 1 with (2 ^ 0). rewrite Z.pow2_bits_eqb by lia.
    apply eq_true_iff_eq. rewrite !Z.eqb_eq. lia.
  - pose proof (Z.div_pos b 8 ltac:(done) ltac:(done)).
    rewrite list_lookup_total_alter_ne by lia. rewrite (proj2 (Z.eqb_neq b i)); [done|]. intros ->. done.
Qed.

(** balloc's test of a bit. *)
Lemma bit_test buf b : 0 <= b → (Z.land (buf !!! Z.to_nat (b / 8)) (Z.shiftl 1 (b mod 8)) =? 0) = negb (bitmap_bit buf b).
Proof.
  intros Hb. pose proof (Z.mod_pos_bound b 8 ltac:(done)) as Hm. unfold bitmap_bit. rewrite Z.shiftl_1_l.
  apply eq_true_iff_eq. rewrite negb_true_iff, Z.eqb_eq. split.
  - intros E. pose proof (f_equal (λ x, Z.testbit x (b mod 8)) E) as E'. simpl in E'.
    rewrite Z.land_spec, Z.pow2_bits_true, andb_true_r, Z.bits_0 in E' by lia. done.
  - intros E. apply Z.bits_inj_iff'. intros j Hj. rewrite Z.land_spec, Z.bits_0, Z.pow2_bits_eqb by lia.
    destruct (Z.eqb_spec (b mod 8) j) as [<-|]; [by rewrite E | by rewrite andb_false_r].
Qed.
(** The first clear bit. *)
Lemma free_bit_first buf fb k : ∀ bi,
  (∀ b, bi <= b < fb → bitmap_bit buf b = true) → bitmap_bit buf fb = false → 0 <= bi <= fb → fb < bi + Z.of_nat k → free_bit k buf bi = Some fb.
Proof.
  induction k as [|k IH]; intros bi Hb Hf Hr Hlt; [lia|]. cbn [free_bit]. rewrite bit_test by lia.
  destruct (decide (bi = fb)) as [->|Hne]; [by rewrite Hf|]. rewrite Hb by lia. cbn [negb].
  apply IH; [|done|lia..]. intros b Hb'. apply Hb. lia.
Qed.
(** Below any clear bit there is a first one. *)
Lemma free_bit_exists buf b k : ∀ bi,
  bitmap_bit buf b = false → 0 <= bi <= b → b < bi + Z.of_nat k →
  ∃ fb, free_bit k buf bi = Some fb ∧ bi <= fb <= b ∧ bitmap_bit buf fb = false.
Proof.
  induction k as [|k IH]; intros bi Hf Hr Hlt; [lia|]. cbn [free_bit]. rewrite bit_test by lia.
  destruct (bitmap_bit buf bi) eqn:E; cbn [negb]; [|exists bi; split_and!; [done | lia | lia | done]].
  destruct (IH (bi + 1)) as (fb & ? & ? & ?); [done | | lia |].
  - destruct (decide (bi = b)) as [->|]; [congruence | lia].
  - exists fb. split_and!; try done; lia.
Qed.

(** ** Inodes *)

(** The fields fit in struct dinode. *)
Record din_fits (i : inode) : Prop := {
  ft_type : s16 (i_type i) = i_type i;
  ft_major : s16 (i_major i) = i_major i;
  ft_minor : s16 (i_minor i) = i_minor i;
  ft_nlink : s16 (i_nlink i) = i_nlink i;
  ft_size : is_u32 (i_size i);
  ft_len : length (i_addrs i) = 13%nat;
  ft_addrs : Forall is_u32 (i_addrs i)
}.

Lemma s16_u16 x : s16 (u16 x) = s16 x.
Proof. unfold s16, u16. rewrite Zplus_mod_idemp_l. done. Qed.
Lemma s16_s16 x : s16 (s16 x) = s16 x.
Proof. unfold s16. Z.div_mod_to_equations. lia. Qed.

Lemma length_put_addrs a : ∀ l off, length (put_addrs l off a) = length l.
Proof. induction a as [|x a IH]; intros l off; simpl; [done|]. by rewrite IH, length_st32. Qed.
Lemma length_dinode_put l off i : length (dinode_put l off i) = length l.
Proof. unfold dinode_put. by rewrite length_put_addrs, length_st32, !length_st16. Qed.

(** Outside of the array. *)
Lemma ld32_put_addrs_ne a : ∀ l off o, 0 <= off → 0 <= o → o + 4 <= off ∨ off + 4 * Z.of_nat (length a) <= o →
  ld32 (put_addrs l off a) o = ld32 l o.
Proof.
  induction a as [|x a IH]; intros l off o H0 Ho Hd; [done|]. simpl. rewrite IH, ld32_st32_ne; [done | ..]; simpl in Hd; lia.
Qed.
Lemma ld16_put_addrs_ne a : ∀ l off o, 0 <= off → 0 <= o → o + 2 <= off ∨ off + 4 * Z.of_nat (length a) <= o →
  ld16 (put_addrs l off a) o = ld16 l o.
Proof.
  induction a as [|x a IH]; intros l off o H0 Ho Hd; [done|]. simpl. rewrite IH, ld16_st32_ne; [done | ..]; simpl in Hd; lia.
Qed.
Lemma ld32_put_addrs a : ∀ l off k x, 0 <= off → off + 4 * Z.of_nat (length a) <= Z.of_nat (length l) → a !! k = Some x →
  ld32 (put_addrs l off a) (off + 4 * Z.of_nat k) = u32 x.
Proof.
  induction a as [|y a IH]; intros l off k x H0 Hl Hk; [done|]. simpl in Hl. destruct k as [|k]; simpl in Hk |- *.
  - injection Hk as ->. rewrite Z.mul_0_r, Z.add_0_r, ld32_put_addrs_ne by lia. apply ld32_st32; lia.
  - replace (off + 4 * Z.of_nat (S k)) with (off + 4 + 4 * Z.of_nat k) by lia. apply IH; [lia | rewrite length_st32; lia | done].
Qed.
Lemma addrs_of_put l off a : 0 <= off → length a = 13%nat → Forall is_u32 a → off + 52 <= Z.of_nat (length l) → addrs_of (put_addrs l off a) off = a.
Proof.
  intros H0 Ha Hf Hl. apply list_eq. intros k. unfold addrs_of. rewrite list_lookup_fmap. destruct (decide (k < 13)%nat) as [Hk|Hk].
  - rewrite lookup_seqZ_lt by (unfold NDIRECT; lia). simpl. destruct (lookup_lt_is_Some_2 a k) as [x Hx]; [lia|].
    rewrite Z.add_0_l, (ld32_put_addrs a l off k x) by (done || lia). rewrite Hx. f_equal. apply u32_small. exact (Forall_lookup_1 _ _ _ _ Hf Hx).
  - rewrite lookup_seqZ_ge by (unfold NDIRECT; lia). symmetry. apply lookup_ge_None. lia.
Qed.

Lemma dinode_get_put l off i : din_fits i → 0 <= off → off + 64 <= Z.of_nat (length l) → dinode_get (dinode_put l off i) off i = i.
Proof.
  intros [H1 H2 H3 H4 H5 H6 H7] H0 Hl. unfold dinode_get, dinode_put.
  rewrite addrs_of_put by (rewrite ?length_st32, ?length_st16; done || lia).
  rewrite !ld16_put_addrs_ne, !ld32_put_addrs_ne, !ld16_st32_ne by lia.
  rewrite ld32_st32 by (rewrite ?length_st16; lia).
  repeat first [rewrite ld16_st16 by (rewrite ?length_st16; lia) | rewrite ld16_st16_ne by lia].
  rewrite !s16_u16, H1, H2, H3, H4, (u32_small (i_size i)) by done. by destruct i.
Qed.
Lemma dinode_get_put_ne l off off' i j :
  length (i_addrs i) = 13%nat → 0 <= off → 0 <= off' → off + 64 <= off' ∨ off' + 64 <= off → dinode_get (dinode_put l off i) off' j = dinode_get l off' j.
Proof.
  intros H6 H0 H0' Hd. unfold dinode_get, dinode_put.
  assert (Ea : ∀ l', addrs_of (put_addrs l' (off + 12) (i_addrs i)) (off' + 12) = addrs_of l' (off' + 12)).
  { intros l'. unfold addrs_of. apply list_fmap_ext. intros ? k [-> Hk]%lookup_seqZ. unfold NDIRECT in Hk. apply ld32_put_addrs_ne; lia. }
  assert (Eb : ∀ l' o w, (o = off + 8 → addrs_of (st32 l' o w) (off' + 12) = addrs_of l' (off' + 12))
    ∧ (off <= o <= off + 6 → addrs_of (st16 l' o w) (off' + 12) = addrs_of l' (off' + 12))).
  { intros l' o w. split; intros Ho; unfold addrs_of; apply list_fmap_ext; intros ? k [-> Hk]%lookup_seqZ; unfold NDIRECT in Hk;
      [apply ld32_st32_ne | apply ld32_st16_ne]; lia. }
  rewrite Ea. rewrite (proj1 (Eb _ _ _) eq_refl). do 4 rewrite (proj2 (Eb _ _ _)) by lia.
  rewrite !ld16_put_addrs_ne, !ld32_put_addrs_ne, !ld16_st32_ne, !ld16_st16_ne by lia.
  rewrite ld32_st32_ne, !ld32_st16_ne by lia. done.
Qed.
