(* ===== verification/Alloc.v ===== *)
(** * Alloc: balloc inside a transaction

    The layout of the disk, the blocks that the free map marks as used, and
    what balloc does: the first block that is free is marked and zeroed. *)

From S2P Require Import Prelude Memory Kstate Spinlock Kalloc Cprintf Vm Sched SchedFacts Sleeplock Bio BioRing BioFacts Log LogFacts TxFacts Inode Console Fs FsFacts Ondisk.

(** Where things are: the log, one block of the free map, the inodes, and the
    data from block [ds] on. *)
Record layout (sb : superblock) (start nlog ds : Z) : Prop := {
  ly_log : log_area start nlog;
  ly_size : sb_size sb = FSSIZE;
  ly_end : start + nlog <= ds;
  ly_bm : 0 <= BBLOCK 0 sb < ds ∧ ¬ in_log start nlog (BBLOCK 0 sb);
  ly_ino inum : 0 < inum < sb_ninodes sb → 0 <= IBLOCK inum sb < ds ∧ ¬ in_log start nlog (IBLOCK inum sb) ∧ IBLOCK inum sb ≠ BBLOCK 0 sb;
  ly_ninodes : sb_ninodes sb <= IPB * FSSIZE;
  ly_ds : 0 < ds <= FSSIZE
}.

(** Block [b] is marked as used. *)
Definition marked (sb : superblock) (v : blocks) (b : Z) : Prop := bitmap_bit (v (BBLOCK 0 sb)) b = true.
#[export] Instance marked_dec sb v b : Decision (marked sb v b) := decide (_ = true).

(** The free blocks. *)
Definition free_blocks (sb : superblock) (v : blocks) : list Z := filter (λ b, ¬ marked sb v b) (seqZ 0 FSSIZE).
Lemma elem_of_free sb v b : b ∈ free_blocks sb v ↔ is_blk b ∧ ¬ marked sb v b.
Proof. unfold free_blocks. rewrite list_elem_of_filter, elem_of_seqZ. unfold is_blk, FSSIZE. naive_solver lia. Qed.

Definition set_bit (b : Z) (l : list Z) : list Z := alter (λ c, u8 (Z.lor c (Z.shiftl 1 (b mod 8)))) (Z.to_nat (b / 8)) l.
Definition zero_blk : list Z := replicate (Z.to_nat BSIZE) 0.
(** The blocks after balloc has given out [b]. *)
Definition after_balloc (sb : superblock) (v : blocks) (b : Z) : blocks :=
  bupd (bupd v (BBLOCK 0 sb) (set_bit b (v (BBLOCK 0 sb)))) b zero_blk.

Section balloc.
Context (sb : superblock).
Abbreviation bm := (BBLOCK 0 sb).

(** Which blocks are marked afterwards, and what changed. *)
Lemma after_balloc_marked v b b' :
  length (v bm) = Z.to_nat BSIZE → is_blk b → is_blk b' → b ≠ bm → marked sb (after_balloc sb v b) b' ↔ b' = b ∨ marked sb v b'.
Proof.
  intros Hl [Hb0 Hb1] [Hb0' Hb1'] Hne. unfold marked, after_balloc. rewrite bupd_ne, bupd_eq by done. unfold set_bit. rewrite set_bit_spec.
  - rewrite orb_true_iff, Z.eqb_eq. done.
  - done.
  - done.
  - rewrite Hl. unfold FSSIZE, BSIZE in *. Z.div_mod_to_equations. lia.
Qed.
Lemma after_balloc_other v b b' : b' ≠ b → b' ≠ bm → after_balloc sb v b b' = v b'.
Proof. intros. unfold after_balloc. by rewrite !bupd_ne. Qed.
Lemma after_balloc_zero v b : after_balloc sb v b b = zero_blk.
Proof. apply bupd_eq. Qed.
Lemma set_bit_length b l : length (set_bit b l) = length l.
Proof. apply length_alter. Qed.

Lemma free_after v b :
  length (v bm) = Z.to_nat BSIZE → b ∈ free_blocks sb v → b ≠ bm → S (length (free_blocks sb (after_balloc sb v b))) = length (free_blocks sb v).
Proof.
  intros Hl [Hb Hm]%elem_of_free Hne.
  assert (HP : free_blocks sb v ≡ₚ b :: free_blocks sb (after_balloc sb v b)).
  { apply NoDup_Permutation.
    - apply NoDup_filter, NoDup_seqZ.
    - constructor; [|apply NoDup_filter, NoDup_seqZ]. rewrite elem_of_free, after_balloc_marked by done. tauto.
    - intros b'. rewrite elem_of_cons, !elem_of_free. destruct (decide (is_blk b')) as [Hb'|Hb'].
      + rewrite after_balloc_marked by done. destruct (decide (b' = b)) as [->|]; tauto.
      + split; [tauto|]. intros [->|?]; [done | tauto]. }
  by rewrite HP.
Qed.
End balloc.

Section alloc.
Context {Drv : Disk} {p : nat} {R : wait_reason → kst → kst → Prop} {DL : DiskLaw p R} (n : nat) (Hn : (2 <= n)%nat).
Context (sb : superblock) (start nlog ds : Z) (Hly : layout sb start nlog ds).

Abbreviation bm := (BBLOCK 0 sb).

Lemma bm_blk : is_blk bm.
Proof. destruct (ly_bm _ _ _ _ Hly), (ly_ds _ _ _ _ Hly). unfold is_blk. lia. Qed.

Lemma bind_get_sb {A} m d (g : superblock → KM A) : (get_sb ≫= g) n (K m d) = g (d_sb d) n (K m d).
Proof. done. Qed.

Lemma bzero_wp m d v bs H b :
  tx start nlog m d v bs H → is_blk b → ¬ in_log start nlog b → (∀ k, H !! k ≠ Some b) → (size H <= 1)%nat →
  Z.of_nat (length bs) < nlog - 1 →
  wp R (bzero ROOTDEV b n (K m d)) (λ _, tx_post start nlog d (bupd v b zero_blk) (add_blk b bs) H).
Proof.
  intros Ht Hb Hl HH Hsz Hr. unfold bzero. rewrite (u32_blk b Hb).
  apply (tx_rmw_wp n Hn start nlog (ly_log _ _ _ _ Hly) m d v bs H b (λ _, zero_blk)); try done.
Qed.

Lemma balloc_wp m d v bs H :
  tx start nlog m d v bs H → d_sb d = sb → (∀ b, 0 <= b < ds → marked sb v b) → free_blocks sb v ≠ [] →
  (∀ k c, H !! k = Some c → marked sb v c ∧ c ≠ bm) → (size H <= 1)%nat → Z.of_nat (length (add_blk bm bs)) < nlog - 1 →
  wp R (balloc ROOTDEV n (K m d)) (λ b s', b ∈ free_blocks sb v ∧ ds <= b ∧ b ≠ bm
    ∧ tx_post start nlog d (after_balloc sb v b) (add_blk b (add_blk bm bs)) H s').
Proof.
  intros Ht Hsb Hmeta Hfree HH Hsz Hroom. pose proof (add_blk_length bm bs) as Hal. pose proof (ly_log _ _ _ _ Hly) as Ha.
  destruct (ly_bm _ _ _ _ Hly) as [Hbm Hbml]. destruct (ly_ds _ _ _ _ Hly) as [_ Hds].
  unfold balloc. rewrite bind_get_sb, Hsb, (ly_size _ _ _ _ Hly). change (seqZ 0 ((FSSIZE + BPB - 1) / BPB)) with [0].
  cbn [fmap list_fmap searchM]. change (0 * BPB) with 0. change (Z.min BPB (FSSIZE - 0)) with FSSIZE. do 3 apply wp_bind.
  eapply wp_mono; [|apply (tx_bread n Hn start nlog Ha m d v bs H bm Ht bm_blk); [| done | lia]].
  2:{ intros k Hk. by destruct (HH k bm Hk). }
  intros bp s1 (Hbp & m1 & d1 & -> & Ht1 & Hf1). pose proof (lookup_insert_eq H bp bm) as HHb.
  destruct (tx_data _ _ _ _ _ _ _ _ _ Ht1 HHb) as (x & Hx & Hdx). rewrite (get_buf_bind n m1 d1 bp x _ Hx), Hdx.
  destruct (free_blocks sb v) as [|b0 fr] eqn:Ef; [done|]. assert (Hb0 : b0 ∈ free_blocks sb v) by (rewrite Ef; apply list_elem_of_here).
  rewrite <- Ef in *. clear Ef fr Hfree. apply elem_of_free in Hb0 as [Hb0 Hm0].
  destruct (free_bit_exists (v bm) b0 (Z.to_nat FSSIZE) 0) as (b & Hb & Hr & Hbit).
  { by apply not_true_is_false. }
  { unfold is_blk in Hb0. lia. }
  { unfold is_blk in Hb0. lia. }
  rewrite Hb. assert (Hblk : is_blk b) by (unfold is_blk in *; lia).
  assert (Hnm : ¬ marked sb v b) by (unfold marked; congruence).
  assert (Hbds : ds <= b). { destruct (decide (ds <= b)); [done|]. destruct Hnm. apply Hmeta. lia. }
  assert (Hnb : b ≠ bm) by lia. pose proof (ly_end _ _ _ _ Hly) as Hend.
  assert (Hnl : ¬ in_log start nlog b) by (unfold in_log; lia).
  assert (Hlen : length (set_bit b (v bm)) = Z.to_nat BSIZE).
  { rewrite set_bit_length. eapply tx_length; [exact Ht | apply bm_blk]. }
  destruct (tx_update n Hn start nlog Ha m1 d1 v bs _ bp bm (set_bit b) Ht1 HHb Hbml ltac:(lia) Hlen) as (d2 & Hrun2 & Ht2 & Hf2).
  apply bind_done_inv in Hrun2 as ([] & s & Hr1 & Hr2). unfold set_bit in Hr1. rewrite (bind_done _ _ _ _ _ _ Hr1), (bind_done _ _ _ _ _ _ Hr2).
  destruct (tx_brelse n start nlog m1 d2 _ _ _ bp bm Ht2 HHb) as (d3 & Hrun3 & Ht3 & Hf3). rewrite (bind_done _ _ _ _ _ _ Hrun3).
  rewrite delete_insert_id in Ht3 by done. rewrite Z.add_0_l. apply wp_bind.
  eapply wp_mono; [|apply (bzero_wp m1 d3 _ _ H b Ht3 Hblk Hnl); [|done|done]].
  2:{ intros k Hk. by destruct (HH k b Hk). }
  intros [] s4 (m4 & d4 & -> & Ht4 & Hf4). split; [by apply elem_of_free|]. split; [done|]. split; [done|].
  exists m4, d4. split_and!; [done | done |]. transitivity d1; [done|]. transitivity d2; [done|]. by transitivity d3.
Qed.
End alloc.
