(* ===== verification/FileMap.v ===== *)
(** * FileMap: the block map of a file, and how it grows

    The blocks of a file are the data blocks its inode leads to and its
    indirect block; [file_ok] says that they are all different, in the data
    area and marked as used.  [grow] relates the blocks before and after bmap
    has allocated the blocks [new]. *)

From S2P Require Import Prelude Memory Kstate Log Inode Fs BioFacts FsFacts Ondisk Alloc.

(** The number of the indirect block, and of data block [k]; 0: there is none. *)
Definition ind_of (addrs : list Z) : Z := addrs !!! Z.to_nat NDIRECT.
Definition bat (v : blocks) (addrs : list Z) (k : Z) : Z :=
  if k <? NDIRECT then addrs !!! Z.to_nat k
  else if ind_of addrs =? 0 then 0 else ld32 (v (ind_of addrs)) (4 * (k - NDIRECT)).
Definition is_idx (k : Z) : Prop := 0 <= k < MAXFILE.
Definition mine (v : blocks) (addrs : list Z) (b : Z) : Prop :=
  b ≠ 0 ∧ (b = ind_of addrs ∨ ∃ k, is_idx k ∧ b = bat v addrs k).

Lemma is_idx_max k : is_idx k ↔ 0 <= k < 140.
Proof. done. Qed.
Lemma bat_mine v addrs k : is_idx k → bat v addrs k ≠ 0 → mine v addrs (bat v addrs k).
Proof. intros Hk H0. split; [done|]. right. by exists k. Qed.
Lemma ind_mine v addrs : ind_of addrs ≠ 0 → mine v addrs (ind_of addrs).
Proof. intros H0. split; [done | by left]. Qed.
Lemma bat_fblk v addrs k : bat v addrs k ≠ 0 → bat v addrs k = fblk v addrs k ∧ (NDIRECT <= k → ind_of addrs ≠ 0).
Proof.
  unfold bat, fblk, ind_of. destruct (Z.ltb_spec k NDIRECT); [split; [done | lia]|].
  destruct (Z.eqb_spec (addrs !!! Z.to_nat NDIRECT) 0); [done|]. done.
Qed.
Lemma bat_ext v v' addrs k : (ind_of addrs ≠ 0 → v' (ind_of addrs) = v (ind_of addrs)) → bat v' addrs k = bat v addrs k.
Proof.
  intros He. unfold bat. destruct (k <? NDIRECT); [done|]. destruct (Z.eqb_spec (ind_of addrs) 0); [done|]. by rewrite He.
Qed.
Lemma mine_ext v v' addrs b : (ind_of addrs ≠ 0 → v' (ind_of addrs) = v (ind_of addrs)) → mine v' addrs b ↔ mine v addrs b.
Proof. intros He. unfold mine. by setoid_rewrite (bat_ext v v' addrs _ He). Qed.

Section filemap.
Context (sb : superblock) (ds : Z).
Abbreviation bm := (BBLOCK 0 sb).

Record file_ok (v : blocks) (addrs : list Z) : Prop := {
  fo_len : length addrs = 13%nat;
  fo_data b : mine v addrs b → ds <= b < FSSIZE ∧ marked sb v b;
  fo_inj k k' : is_idx k → is_idx k' → bat v addrs k = bat v addrs k' → bat v addrs k ≠ 0 → k = k';
  fo_ind k : is_idx k → bat v addrs k ≠ 0 → bat v addrs k ≠ ind_of addrs
}.

Record grow (v : blocks) (addrs : list Z) (v' : blocks) (addrs' : list Z) (new : list Z) : Prop := {
  g_ok : file_ok v' addrs';
  g_new b : b ∈ new → b ∈ free_blocks sb v ∧ ds <= b;
  g_mark b : is_blk b → marked sb v' b ↔ marked sb v b ∨ b ∈ new;
  g_mine b : mine v' addrs' b ↔ mine v addrs b ∨ b ∈ new;
  g_old k : is_idx k → bat v addrs k ≠ 0 → bat v' addrs' k = bat v addrs k;
  g_ind : ind_of addrs ≠ 0 → ind_of addrs' = ind_of addrs;
  g_same b : b ≠ bm → b ∉ new → ¬ mine v addrs b → v' b = v b;
  g_free : (length (free_blocks sb v') + length new = length (free_blocks sb v))%nat
}.

Lemma grow_refl v addrs : file_ok v addrs → grow v addrs v addrs [].
Proof. intros Hok. split; try done; try (intros; set_solver). Qed.
Lemma grow_trans v addrs v1 addrs1 v2 addrs2 new1 new2 :
  grow v addrs v1 addrs1 new1 → grow v1 addrs1 v2 addrs2 new2 → grow v addrs v2 addrs2 (new1 ++ new2).
Proof.
  intros [H1 H2 H3 H4 H5 H6 H7 H8] [J1 J2 J3 J4 J5 J6 J7 J8]. split; try done.
  - intros b [Hb|Hb]%elem_of_app; [auto|]. destruct (J2 b Hb) as [[Hf1 Hf2]%elem_of_free Hds]. split; [|done].
    apply elem_of_free. split; [done|]. rewrite H3 in Hf2 by done. tauto.
  - intros b Hb. rewrite J3, H3, elem_of_app by done. tauto.
  - intros b. rewrite J4, H4, elem_of_app. tauto.
  - intros k Hk H0. rewrite J5, H5; try done. by rewrite H5.
  - intros H0. rewrite J6, H6; try done. by rewrite H6.
  - intros b Hb [Hn1 Hn2]%not_elem_of_app Hm. rewrite J7, H7; try done. rewrite H4. tauto.
  - rewrite length_app. lia.
Qed.

(** One block more.  [K] is the index it is stored at, or the indirect block. *)
Lemma grow_one v addrs v' addrs' b (K : option Z) :
  0 <= bm < ds → file_ok v addrs → length (v bm) = Z.to_nat BSIZE → b ∈ free_blocks sb v → ds <= b → length addrs' = 13%nat →
  match K with Some k => is_idx k ∧ bat v addrs k = 0 ∧ ind_of addrs' = ind_of addrs | None => ind_of addrs = 0 ∧ ind_of addrs' = b end →
  (∀ j, is_idx j → bat v' addrs' j = if decide (K = Some j) then b else bat v addrs j) →
  v' bm = after_balloc sb v b bm → (∀ c, c ≠ bm → c ≠ b → ¬ mine v addrs c → v' c = v c) →
  grow v addrs v' addrs' [b].
Proof.
  intros Hbm [Hlen Hdata Hinj Hind] Hvl Hb Hds Hlen' HK Hbat Hvm Hsame. pose proof Hb as [Hblk Hnm]%elem_of_free.
  assert (Hb0 : b ≠ 0) by lia. assert (Hne : b ≠ bm) by lia.
  assert (Hmark : ∀ c, is_blk c → marked sb v' c ↔ c = b ∨ marked sb v c).
  { intros c Hc. rewrite <- (after_balloc_marked sb v b c) by done. unfold marked. by rewrite Hvm. }
  assert (Hfresh : ∀ c, mine v addrs c → c ≠ b). { intros c Hc ->. destruct (Hdata b Hc). done. }
  assert (Hmine : ∀ c, mine v' addrs' c ↔ mine v addrs c ∨ c = b).
  { intros c. split.
    - intros [H0 [->|(j & Hj & ->)]].
      + destruct K as [k|]; destruct HK as (? & HK); [destruct HK as [_ HK]|]; rewrite HK in *; [|by right].
        left. by apply ind_mine.
      + rewrite Hbat in * by done. destruct (decide (K = Some j)); [by right|]. left. by apply bat_mine.
    - intros [[H0 [->|(j & Hj & ->)]]| ->].
      + destruct K as [k|]; destruct HK as (Hk & HK); [|done]. destruct HK as [_ HK]. rewrite <- HK. apply ind_mine. by rewrite HK.
      + assert (K ≠ Some j). { intros ->. destruct HK as (_ & HK & _). done. }
        split; [done|]. right. exists j. split; [done|]. rewrite Hbat by done. by rewrite decide_False.
      + split; [done|]. destruct K as [k|]; destruct HK as (Hk & HK); [right|by left]. exists k. split; [done|].
        rewrite Hbat by done. by rewrite decide_True. }
  split.
  - split; [done| | |].
    + intros c [Hc| ->]%Hmine.
      * destruct (Hdata c Hc) as [Hr Hm]. split; [done|]. apply Hmark; [unfold is_blk; lia | by right].
      * split; [unfold is_blk in Hblk; lia|]. apply Hmark; [done | by left].
    + intros j j' Hj Hj'. rewrite !Hbat by done. destruct (decide (K = Some j)), (decide (K = Some j')); intros E H0; try congruence; [| |by apply Hinj].
      * destruct (Hfresh (bat v addrs j')); [apply bat_mine; congruence | done].
      * destruct (Hfresh (bat v addrs j)); [by apply bat_mine | done].
    + intros j Hj. rewrite Hbat by done. case_decide as E; intros H0.
      * subst K. destruct HK as (_ & _ & ->). intros Eb. destruct (Hfresh (ind_of addrs)); [apply ind_mine; congruence | done].
      * destruct K as [k|]; destruct HK as (Hk & HK); [destruct HK as [_ ->]; by apply Hind|]. rewrite HK.
        apply Hfresh, bat_mine; done.
  - intros c ->%list_elem_of_singleton. done.
  - intros c Hc. rewrite Hmark, list_elem_of_singleton by done. tauto.
  - intros c. by rewrite Hmine, list_elem_of_singleton.
  - intros j Hj H0. rewrite Hbat by done. rewrite decide_False; [done|]. intros ->. by destruct HK as (_ & ? & _).
  - intros H0. destruct K as [k|]; destruct HK as (? & HK); [by destruct HK | done].
  - intros c Hc Hcb%not_elem_of_cons Hcm. apply Hsame; tauto.
  - assert (free_blocks sb v' = free_blocks sb (after_balloc sb v b)) as ->.
    { apply list_filter_iff. intros c. unfold marked. by rewrite Hvm. }
    pose proof (free_after sb v b Hvl Hb Hne). simpl. lia.
Qed.

(** The three places a new block number goes to. *)
Lemma grow_direct v addrs b k :
  0 <= bm < ds → file_ok v addrs → length (v bm) = Z.to_nat BSIZE → b ∈ free_blocks sb v → ds <= b →
  0 <= k < NDIRECT → bat v addrs k = 0 → grow v addrs (after_balloc sb v b) (<[Z.to_nat k := b]> addrs) [b].
Proof.
  intros Hbm Hok Hvl Hb Hds Hk H0. pose proof (fo_len _ _ Hok) as Hlen. unfold NDIRECT in Hk.
  assert (Hi : ind_of (<[Z.to_nat k := b]> addrs) = ind_of addrs).
  { unfold ind_of. apply list_lookup_total_insert_ne. unfold NDIRECT. lia. }
  apply (grow_one v addrs _ _ b (Some k)); try done; [by rewrite length_insert | split_and!; [rewrite is_idx_max; lia | done | done] | |].
  - intros j Hj. rewrite is_idx_max in Hj. destruct (decide (Some k = Some j)) as [[= ->]|Hne].
    + unfold bat. rewrite (proj2 (Z.ltb_lt j NDIRECT)) by (unfold NDIRECT; lia). apply list_lookup_total_insert_eq. lia.
    + unfold bat. rewrite Hi. destruct (Z.ltb_spec j NDIRECT); [apply list_lookup_total_insert_ne; intros E; apply Hne; f_equal; lia|].
      destruct (Z.eqb_spec (ind_of addrs) 0); [done|]. destruct (fo_data _ _ Hok (ind_of addrs)) as [Hr Hm]; [by apply ind_mine|].
      rewrite after_balloc_other; [done | | lia]. intros <-. by apply elem_of_free in Hb as [_ ?].
  - intros c Hc Hcb _. by apply after_balloc_other.
Qed.
Lemma ld32_zero_blk j : ld32 zero_blk j = 0.
Proof.
  unfold ld32, zero_blk. rewrite drop_replicate, take_replicate. generalize (4 `min` (Z.to_nat BSIZE - Z.to_nat j))%nat.
  induction n as [|n IH]; [done|]. simpl. unfold word_of in *. simpl. rewrite IH. done.
Qed.
Lemma grow_indirect v addrs b :
  0 <= bm < ds → file_ok v addrs → length (v bm) = Z.to_nat BSIZE → b ∈ free_blocks sb v → ds <= b →
  ind_of addrs = 0 → grow v addrs (after_balloc sb v b) (<[Z.to_nat NDIRECT := b]> addrs) [b].
Proof.
  intros Hbm Hok Hvl Hb Hds H0. pose proof (fo_len _ _ Hok) as Hlen.
  assert (Hi : ind_of (<[Z.to_nat NDIRECT := b]> addrs) = b).
  { unfold ind_of. apply list_lookup_total_insert_eq. rewrite Hlen. unfold NDIRECT. lia. }
  apply (grow_one v addrs _ _ b None); try done; [by rewrite length_insert | |].
  - intros j Hj. rewrite is_idx_max in Hj. rewrite decide_False by done. unfold bat. rewrite Hi, H0. destruct (Z.ltb_spec j NDIRECT).
    + apply list_lookup_total_insert_ne. unfold NDIRECT in *. lia.
    + rewrite (proj2 (Z.eqb_neq b 0)) by lia. rewrite after_balloc_zero. apply ld32_zero_blk.
  - intros c Hc Hcb _. by apply after_balloc_other.
Qed.
Lemma grow_entry v addrs b k :
  0 <= bm < ds → file_ok v addrs → length (v bm) = Z.to_nat BSIZE → length (v (ind_of addrs)) = Z.to_nat BSIZE →
  b ∈ free_blocks sb v → ds <= b → NDIRECT <= k → is_idx k → ind_of addrs ≠ 0 → bat v addrs k = 0 →
  let v1 := after_balloc sb v b in
  grow v addrs (bupd v1 (ind_of addrs) (st32 (v1 (ind_of addrs)) (4 * (k - NDIRECT)) b)) addrs [b].
Proof.
  intros Hbm Hok Hvl Hil Hb Hds Hk Hidx Hi0 H0 v1. pose proof Hb as [Hblk Hnm]%elem_of_free.
  destruct (fo_data _ _ Hok (ind_of addrs)) as [Hr Hm]; [by apply ind_mine|].
  assert (Hib : ind_of addrs ≠ b) by (intros E; by rewrite E in Hm).
  assert (E1 : v1 (ind_of addrs) = v (ind_of addrs)) by (apply after_balloc_other; [done | lia]). rewrite E1.
  apply (grow_one v addrs _ _ b (Some k)); try done; [apply (fo_len _ _ Hok) | | |].
  - intros j Hj. rewrite is_idx_max in Hj, Hidx. unfold bat, NDIRECT in *. destruct (Z.ltb_spec j 12).
    { rewrite decide_False; [done|]. intros [= ->]. lia. }
    rewrite (proj2 (Z.eqb_neq _ 0)), bupd_eq by done. destruct (decide (Some k = Some j)) as [[= ->]|Hne].
    + rewrite ld32_st32 by (rewrite ?Hil; unfold BSIZE; lia). apply u32_small. unfold is_u32, is_blk, FSSIZE in *. lia.
    + rewrite ld32_st32_ne; [done | lia | lia |]. assert (j ≠ k) by congruence. lia.
  - apply bupd_ne. lia.
  - intros c Hc Hcb Hcm. rewrite bupd_ne; [by apply after_balloc_other|]. intros ->. by apply Hcm, ind_mine.
Qed.

(** ** Writing a data block *)

Context (Hbm : 0 <= bm < ds).

Lemma bat_write v a k x j : file_ok v a → is_idx k → bat v a k ≠ 0 → bat (bupd v (bat v a k) x) a j = bat v a j.
Proof. intros Hok Hk H0. apply bat_ext. intros Hi. apply bupd_ne. intros E. by apply (fo_ind _ _ Hok k Hk H0). Qed.
Lemma bat_not_bm v a k : file_ok v a → is_idx k → bat v a k ≠ 0 → bat v a k ≠ bm.
Proof. intros Hok Hk H0. destruct (fo_data _ _ Hok _ (bat_mine v a k Hk H0)). lia. Qed.
Lemma grow_write v a v' a' new k x :
  grow v a v' a' new → is_idx k → bat v' a' k ≠ 0 → grow v a (bupd v' (bat v' a' k) x) a' new.
Proof.
  intros [Hok Hnew Hmark Hmine Hold Hind Hsame Hfree] Hk H0. set (b := bat v' a' k) in *.
  assert (Eb : b ≠ bm) by by apply bat_not_bm.
  assert (Em : bupd v' b x bm = v' bm) by (by apply bupd_ne; congruence).
  assert (Ebat : ∀ j, bat (bupd v' b x) a' j = bat v' a' j) by (intros; by apply bat_write).
  assert (Emi : ∀ c, mine (bupd v' b x) a' c ↔ mine v' a' c) by (intros c; unfold mine; by setoid_rewrite Ebat).
  assert (Ema : ∀ c, marked sb (bupd v' b x) c ↔ marked sb v' c) by (intros c; unfold marked; by rewrite Em).
  split.
  - destruct Hok as [H1 H2 H3 H4]. split; [done | | |]; intros; rewrite ?Ebat in *; [|eauto..]. rewrite Ema. by apply H2, Emi.
  - done.
  - intros c. rewrite Ema. apply Hmark.
  - intros c. rewrite Emi. apply Hmine.
  - intros j. rewrite Ebat. apply Hold.
  - done.
  - intros c Hc Hcn Hcm. rewrite bupd_ne; [by apply Hsame|]. intros ->. destruct (proj1 (Hmine b)); [by apply bat_mine | done..].
  - rewrite <- Hfree. do 2 f_equal. apply list_filter_iff. intros c. by rewrite Ema.
Qed.
Lemma fbyte_write v a k x o :
  file_ok v a → is_idx k → bat v a k ≠ 0 → is_idx (o / BSIZE) → bat v a (o / BSIZE) ≠ 0 →
  fbyte (bupd v (bat v a k) x) a o = if decide (o / BSIZE = k) then x !!! Z.to_nat (o mod BSIZE) else fbyte v a o.
Proof.
  intros Hok Hk H0 Ho Ho0. unfold fbyte. destruct (bat_fblk v a _ Ho0) as [<- _].
  rewrite <- (bat_write v a k x _ Hok Hk H0) in Ho0. destruct (bat_fblk _ _ _ Ho0) as [<- _]. rewrite bat_write in * by done.
  case_decide as E; [rewrite E; by rewrite bupd_eq|]. rewrite bupd_ne; [done|]. intros Eb. by apply E, (fo_inj _ _ Hok).
Qed.

(** ** A step that allocates one data block, and maybe the indirect block *)

Section step.
Context (v : blocks) (a : list Z) (v' : blocks) (a' new : list Z) (k : Z).
Context (Hok : file_ok v a) (Hg : grow v a v' a' new) (Hk : is_idx k) (Hnew : ∀ b, b ∈ new → b = bat v' a' k ∨ b = ind_of a').

Lemma grow_bat j : is_idx j → j ≠ k → bat v' a' j = bat v a j.
Proof.
  intros Hj Hne. destruct (decide (bat v a j = 0)) as [E|E]; [|by apply (g_old _ _ _ _ _ Hg)]. destruct (decide (bat v' a' j = 0)) as [E'|E']; [congruence|].
  pose proof (g_ok _ _ _ _ _ Hg) as Hok'. destruct (proj1 (g_mine _ _ _ _ _ Hg _) (bat_mine v' a' j Hj E')) as [[_ [Hm|(j' & Hj' & Hm)]]|Hn].
  - destruct (fo_ind _ _ Hok' j Hj E'). rewrite (g_ind _ _ _ _ _ Hg); [done|]. congruence.
  - assert (E2 : bat v' a' j' = bat v a j') by (apply (g_old _ _ _ _ _ Hg); [done | congruence]).
    assert (j = j') as -> by (apply (fo_inj _ _ Hok'); [done | done | congruence | done]). congruence.
  - destruct (Hnew _ Hn) as [E2|E2]; [by destruct Hne; apply (fo_inj _ _ Hok') | by destruct (fo_ind _ _ Hok' j Hj E')].
Qed.
Lemma grow_fbyte o :
  (∀ c, c ≠ bm → c ∉ new → (c = ind_of a → c = 0) → v' c = v c) →
  is_idx (o / BSIZE) → bat v a (o / BSIZE) ≠ 0 → fbyte v' a' o = fbyte v a o.
Proof.
  intros Hsame Ho H0. unfold fbyte. pose proof (g_old _ _ _ _ _ Hg _ Ho H0) as E. destruct (bat_fblk v a _ H0) as [<- _].
  destruct (bat_fblk v' a' (o / BSIZE)) as [<- _]; [congruence|]. rewrite E. rewrite Hsame; [done | by apply bat_not_bm | |].
  - intros [[_ Hf]%elem_of_free _]%(g_new _ _ _ _ _ Hg). by destruct (fo_data _ _ Hok _ (bat_mine v a _ Ho H0)).
  - intros Ei. by destruct (fo_ind _ _ Hok _ Ho H0).
Qed.
End step.
End filemap.
