(* ===== verification/BmapFacts.v ===== *)
(** * BmapFacts: bmap inside a transaction

    bmap returns the block of the file, allocating it and the indirect block
    when they are missing. *)

From S2P Require Import Prelude Memory Kstate Spinlock Kalloc Cprintf Vm Sched SchedFacts Sleeplock Bio BioRing BioFacts Log LogFacts TxFacts Inode Console Fs FsFacts Ondisk Alloc FileMap.

Definition with_addrs (i : inode) (a : list Z) : inode := i <| i_addrs := a |>.

Section bmap.
Context {Drv : Disk} {p : nat} {R : wait_reason → kst → kst → Prop} {DL : DiskLaw p R} (n : nat) (Hn : (2 <= n)%nat).
Context (sb : superblock) (start nlog ds : Z) (Hly : layout sb start nlog ds).
Abbreviation bm := (BBLOCK 0 sb).
Abbreviation tx := (tx start nlog).

Lemma tx_frame_inodes d d' : tx_frame d d' → d_inodes d' = d_inodes d.
Proof. intros [Hf _ _]. by rewrite (fs_frame_inodes _ _ Hf). Qed.
Lemma tx_frame_sb d d' : tx_frame d d' → d_sb d' = d_sb d.
Proof. intros [Hf _ _]. by rewrite (fs_frame_sb _ _ Hf). Qed.
Lemma tx_set_inode m d v bs H ip i : tx m d v bs H → tx m (set_inode d ip i) v bs H.
Proof. intros [H1 H2 H3 H4 H5]. split; try done. by eapply fs_ok_other; [..|exact H1]. Qed.
Lemma tx_frame_set d d' ip i : tx_frame d d' → tx_frame (set_inode d ip i) (set_inode d' ip i).
Proof.
  intros Hf. pose proof (tx_frame_inodes _ _ Hf) as Ei. destruct Hf as [[Hc Hl] HL Hw]. unfold set_inode. rewrite Ei.
  split; [|done | by apply (wrote_pre [] _ d), (wrote_post [] _ d')].
  split; [|done]. apply (f_equal (λ c, c <| d_inodes := <[ip := i]> (d_inodes d) |>)) in Hc. exact Hc.
Qed.
Lemma set_inode_id d ip i : d_inodes d !! ip = Some i → set_inode d ip i = d.
Proof. intros Hi. unfold set_inode. rewrite list_insert_id by done. by destruct d. Qed.
Lemma set_inode_twice d ip i i' : set_inode (set_inode d ip i) ip i' = set_inode d ip i'.
Proof. unfold set_inode. simpl. by rewrite list_insert_insert_eq. Qed.
Lemma mod_inode_done m d ip i f :
  d_inodes d !! ip = Some i → mod_inode ip f n (K m d) = Done tt (K m (set_inode d ip (f i))).
Proof. intros Hi. unfold mod_inode. by rewrite modd_done, (list_alter_insert_at _ _ _ _ Hi). Qed.

(** Every block below the data area is marked. *)
Definition meta_marked (v : blocks) : Prop := ∀ b, 0 <= b < ds → marked sb v b.
Lemma grow_meta v a v' a' new : grow sb ds v a v' a' new → meta_marked v → meta_marked v'.
Proof.
  intros Hg Hm b Hb. apply (g_mark _ _ _ _ _ _ _ Hg); [|left; by apply Hm]. destruct (ly_ds _ _ _ _ Hly). unfold is_blk. lia.
Qed.

(** What bmap leaves: the inode has the block numbers [a'], the blocks are
    [v'], and only the free map, the indirect block and new blocks changed. *)
Record bmapped (d : kdata) (v : blocks) (bs : list Z) (ip : nat) (i : inode) (a' : list Z) (v' : blocks) (bs' new : list Z) (r : Z) (H : gmap nat Z) (m' : mach) (d' : kdata) : Prop := {
  bp_tx : tx m' d' v' bs' H;
  bp_frame : tx_frame (set_inode d ip (with_addrs i a')) d';
  bp_grow : grow sb ds v (i_addrs i) v' a' new;
  bp_same c : c ≠ bm → c ∉ new → (c = ind_of (i_addrs i) → c = 0) → v' c = v c;
  bp_log b : b ∈ bs' → b ∈ bs ∨ b = bm ∨ b = r ∨ b = ind_of a' ∧ b ≠ 0;
  bp_new b : b ∈ new → b = r ∨ b = ind_of a'
}.
Definition bmap_post d v bs ip i (Q : Z → blocks → list Z → list Z → list Z → Prop) (r : Z) (s' : kst) : Prop :=
  ∃ a' v' bs' new m' d', s' = K m' d' ∧ bmapped d v bs ip i a' v' bs' new r ∅ m' d' ∧ Q r v' a' bs' new.

Lemma bmapped_refl d v bs ip i r m : tx m d v bs ∅ → file_ok sb ds v (i_addrs i) → d_inodes d !! ip = Some i →
  bmapped d v bs ip i (i_addrs i) v bs [] r ∅ m d.
Proof.
  intros Ht Hok Hi. split; [done | | by apply grow_refl | done | auto | by intros ? ?%not_elem_of_nil].
  replace (with_addrs i (i_addrs i)) with i by (by destruct i). by rewrite (set_inode_id d ip i Hi).
Qed.

Lemma bmapped_log d v bs ip i a' v' bs' new r H m' d' : bmapped d v bs ip i a' v' bs' new r H m' d' → (length bs' <= length bs + 3)%nat.
Proof.
  intros [Ht _ _ _ Hl _]. assert (Hsub : bs' ⊆+ bs ++ [bm; r; ind_of a']).
  { apply NoDup_submseteq; [by eapply tx_nd|]. intros b Hb. rewrite elem_of_app, !elem_of_cons. destruct (Hl b Hb) as [?|[?|[?|[? _]]]]; tauto. }
  apply submseteq_length in Hsub. by rewrite length_app in Hsub.
Qed.

Section pre.
Context (m : mach) (d : kdata) (v : blocks) (bs : list Z) (ip : nat) (i : inode).
Context (Ht : tx m d v bs ∅) (Hsb : d_sb d = sb) (Hi : d_inodes d !! ip = Some i) (Hdev : i_dev i = ROOTDEV).
Context (Hok : file_ok sb ds v (i_addrs i)) (Hmeta : meta_marked v).

(** A block is allocated and its number stored in the inode. *)
Lemma bmap_slot_wp (k : Z) :
  (0 <= k < NDIRECT ∧ bat v (i_addrs i) k = 0 ∨ k = NDIRECT ∧ ind_of (i_addrs i) = 0) →
  free_blocks sb v ≠ [] → Z.of_nat (length bs) + 1 < nlog - 1 →
  wp R ((addr ← balloc (i_dev i); mod_inode ip (λ i, i <| i_addrs := <[Z.to_nat k := addr]> (i_addrs i) |>) ;; mret addr) n (K m d))
    (bmap_post d v bs ip i (λ r v' a' bs' new, new = [r] ∧ r ≠ 0 ∧ a' = <[Z.to_nat k := r]> (i_addrs i) ∧ (length bs' <= length bs + 2)%nat)).
Proof.
  intros Hk Hfree Hroom. pose proof (add_blk_length bm bs) as Hal. destruct (ly_bm _ _ _ _ Hly) as [Hbm _]. destruct (ly_ds _ _ _ _ Hly) as [Hds0 _]. rewrite Hdev. apply wp_bind.
  eapply wp_mono; [|apply (balloc_wp n Hn sb start nlog ds Hly m d v bs ∅ Ht Hsb Hmeta Hfree); [intros k' c; by rewrite lookup_empty | rewrite map_size_empty; lia | lia]].
  intros b s1 (Hb & Hds & Hne & m1 & d1 & -> & Ht1 & Hf1).
  assert (Hi1 : d_inodes d1 !! ip = Some i) by (rewrite (tx_frame_inodes _ _ Hf1); done).
  rewrite (bind_done _ _ _ _ _ _ (mod_inode_done m1 d1 ip i _ Hi1)). pose proof (add_blk_length b (add_blk bm bs)).
  eexists (<[Z.to_nat k := b]> (i_addrs i)), _, (add_blk b (add_blk bm bs)), [b], m1, _. split; [done|]. split; [|split_and!; [done | lia | done | lia]].
  assert (Hvl : length (v bm) = Z.to_nat BSIZE) by (eapply tx_length; [exact Ht | by eapply bm_blk]).
  split.
  - by apply tx_set_inode.
  - by apply tx_frame_set.
  - destruct Hk as [[Hk H0]|[-> H0]]; [by apply grow_direct | by apply grow_indirect].
  - intros c Hc Hcb%not_elem_of_cons _. apply after_balloc_other; tauto.
  - intros c. rewrite !elem_of_add_blk. tauto.
  - intros c ->%list_elem_of_singleton. by left.
Qed.

(** The block of an entry of the indirect block. *)
Lemma bmap_entry_wp (k : Z) :
  NDIRECT <= k → is_idx k → ind_of (i_addrs i) ≠ 0 → free_blocks sb v ≠ [] → Z.of_nat (length bs) + 2 < nlog - 1 →
  wp R ((bp ← bread (i_dev i) (ind_of (i_addrs i));
         x ← get_buf bp;
         let addr := ld32 (b_data x) (4 * (k - NDIRECT)) in
         addr ← (if addr =? 0 then
                   addr ← balloc (i_dev i);
                   mod_bdata bp (λ l, st32 l (4 * (k - NDIRECT)) addr) ;;
                   log_write bp ;;
                   mret addr
                 else mret addr);
         brelse bp ;;
         mret addr) n (K m d))
    (bmap_post d v bs ip i (λ r v' a' bs' new, a' = i_addrs i ∧ r = bat v' a' k ∧ r ≠ 0
       ∧ (length new <= 1)%nat ∧ (bat v (i_addrs i) k ≠ 0 → new = [] ∧ v' = v))).
Proof.
  intros Hk Hidx H0 Hfree Hroom. pose proof (add_blk_length bm bs) as Hal. destruct (ly_bm _ _ _ _ Hly) as [Hbm Hbml]. pose proof (ly_log _ _ _ _ Hly) as Ha.
  destruct (ly_ds _ _ _ _ Hly) as [Hds0 _]. pose proof (ly_end _ _ _ _ Hly) as Hend.
  set (ind := ind_of (i_addrs i)) in *. destruct (fo_data _ _ _ _ Hok ind) as [Hir Him]; [by apply ind_mine|].
  assert (Hib : is_blk ind) by (unfold is_blk, FSSIZE in *; lia). assert (Hil : ¬ in_log start nlog ind) by (unfold in_log; lia).
  rewrite Hdev. apply wp_bind. eapply wp_mono; [|apply (tx_bread n Hn start nlog Ha m d v bs ∅ ind Ht Hib); [done | rewrite map_size_empty; lia | lia]].
  intros bp s1 (_ & m1 & d1 & -> & Ht1 & Hf1). set (H1 := <[bp := ind]> ∅) in *. assert (HHb : H1 !! bp = Some ind) by apply lookup_insert_eq.
  assert (Hde : delete bp H1 = ∅) by (apply delete_insert_id; done).
  assert (Ebat : ∀ w, bat w (i_addrs i) k = ld32 (w ind) (4 * (k - NDIRECT))).
  { intros w. unfold bat. fold ind. rewrite (proj2 (Z.ltb_ge k NDIRECT)), (proj2 (Z.eqb_neq ind 0)) by done. done. }
  destruct (tx_data _ _ _ _ _ _ _ _ _ Ht1 HHb) as (x & Hx & Hdx). rewrite (get_buf_bind n m1 d1 bp x _ Hx), Hdx. cbv zeta. rewrite <- !Ebat.
  assert (Hid : with_addrs i (i_addrs i) = i) by (by destruct i).
  apply wp_bind. destruct (Z.eqb_spec (bat v (i_addrs i) k) 0) as [Hz|Hz].
  - apply wp_bind. eapply wp_mono; [|apply (balloc_wp n Hn sb start nlog ds Hly m1 d1 v bs H1 Ht1); [by rewrite (tx_frame_sb _ _ Hf1) | done | done | | | lia]].
    2:{ intros k' c [[_ <-]|[_ ?]]%lookup_insert_Some; [|by rewrite lookup_empty in *]. split; [done | lia]. }
    2:{ unfold H1. rewrite insert_empty, map_size_singleton. lia. }
    intros b s2 (Hb & Hds & Hne & m2 & d2 & -> & Ht2 & Hf2). pose proof (add_blk_length b (add_blk bm bs)).
    pose proof Hb as [Hblk Hnm]%elem_of_free. set (v1 := after_balloc sb v b) in *.
    assert (E1 : v1 ind = v ind). { apply after_balloc_other; [intros <-; done | lia]. }
    assert (Hlen : length (st32 (v1 ind) (4 * (k - NDIRECT)) b) = Z.to_nat BSIZE).
    { rewrite length_st32, E1. eapply tx_length; [exact Ht | done]. }
    destruct (tx_update n Hn start nlog Ha m2 d2 v1 _ H1 bp ind (λ l, st32 l (4 * (k - NDIRECT)) b) Ht2 HHb Hil ltac:(lia) Hlen) as (d3 & Hrun3 & Ht3 & Hf3).
    apply bind_done_inv in Hrun3 as ([] & s & Hr1 & Hr2). rewrite (bind_done _ _ _ _ _ _ Hr1), (bind_done _ _ _ _ _ _ Hr2).
    destruct (tx_brelse n start nlog m2 d3 _ _ _ bp ind Ht3 HHb) as (d4 & Hrun4 & Ht4 & Hf4). simpl. rewrite (bind_done _ _ _ _ _ _ Hrun4).
    rewrite Hde in Ht4. eexists (i_addrs i), _, _, [b], m2, d4. split; [done|]. split.
    + split; [exact Ht4 | | | | |].
      * rewrite Hid, (set_inode_id d ip i Hi). transitivity d1; [done|]. transitivity d2; [done|]. by transitivity d3.
      * apply grow_entry; try done; eapply tx_length; try exact Ht; [by eapply bm_blk | done].
      * intros c Hc Hcb%not_elem_of_cons Hci. fold ind in Hci. rewrite bupd_ne; [apply after_balloc_other; tauto|]. intros ->. by apply H0, Hci.
      * intros c. rewrite !elem_of_add_blk. fold ind. intros [->|?]; [by right; right; right | tauto].
      * intros c ->%list_elem_of_singleton. by left.
    + split_and!; [done | | lia | simpl; lia | done]. rewrite Ebat, bupd_eq, E1, ld32_st32.
      * symmetry. apply u32_blk. done.
      * lia.
      * rewrite (tx_length _ _ _ _ _ _ _ _ Ht Hib). rewrite is_idx_max in Hidx. unfold BSIZE, NDIRECT in *. lia.
  - destruct (tx_brelse n start nlog m1 d1 _ _ _ bp ind Ht1 HHb) as (d4 & Hrun4 & Ht4 & Hf4). simpl. rewrite (bind_done _ _ _ _ _ _ Hrun4). rewrite Hde in Ht4. eexists (i_addrs i), v, bs, [], m1, d4. split; [done|]. split; [|split_and!; [done | done | done | simpl; lia | done]].
    split; [done | | by apply grow_refl | done | auto | by intros ? ?%not_elem_of_nil]. rewrite Hid, (set_inode_id d ip i Hi). by transitivity d1.
Qed.
End pre.

Lemma bmapped_trans d v bs ip i a1 v1 bs1 r1 m1 d1 a2 v2 bs2 new2 r m2 d2 :
  bmapped d v bs ip i a1 v1 bs1 [r1] r1 ∅ m1 d1 → ind_of a1 = r1 → ind_of (i_addrs i) = 0 →
  bmapped d1 v1 bs1 ip (with_addrs i a1) a2 v2 bs2 new2 r ∅ m2 d2 → r1 ≠ 0 → bmapped d v bs ip i a2 v2 bs2 (r1 :: new2) r ∅ m2 d2.
Proof.
  intros [Ht1 Hf1 Hg1 Hs1 Hl1 Hn1] Hr1 H0 [Ht2 Hf2 Hg2 Hs2 Hl2 Hn2] Hr0. simpl in *.
  assert (Hi2 : ind_of a2 = r1) by (rewrite (g_ind _ _ _ _ _ _ _ Hg2); simpl; congruence). split; [done | | | | |].
  - etransitivity; [|exact Hf2]. apply (tx_frame_set _ _ ip (with_addrs i a2)) in Hf1. rewrite set_inode_twice in Hf1. exact Hf1.
  - eapply (grow_trans sb ds _ _ _ _ _ _ [r1]); [exact Hg1 | exact Hg2].
  - intros c Hc [Hc1 Hc2]%not_elem_of_cons Hci. rewrite Hs2, Hs1; try done.
    + by rewrite list_elem_of_singleton.
    + by rewrite Hr1.
  - intros b Hb. destruct (Hl2 b Hb) as [Hb1|[?|[?|?]]]; [|tauto..]. destruct (Hl1 b Hb1) as [?|[?|[->|[? ?]]]]; [tauto | tauto | | ].
    + right; right; right. by rewrite Hi2.
    + right; right; right. split; [congruence | done].
  - intros b [->|Hb]%elem_of_cons; [by right | auto].
Qed.

(** bmap: the block of the file, allocated when there is none. *)
Lemma bmap_alloc_wp m d v bs ip i k :
  tx m d v bs ∅ → d_sb d = sb → d_inodes d !! ip = Some i → i_dev i = ROOTDEV → file_ok sb ds v (i_addrs i) → meta_marked v →
  is_idx k → (2 <= length (free_blocks sb v))%nat → Z.of_nat (length bs) + 4 < nlog - 1 →
  wp R (bmap ip k n (K m d)) (bmap_post d v bs ip i (λ r v' a' bs' new, r = bat v' a' k ∧ r ≠ 0
    ∧ (bat v (i_addrs i) k ≠ 0 → new = [] ∧ a' = i_addrs i ∧ v' = v))).
Proof.
  intros Ht Hsb Hi Hdev Hok Hmeta Hidx Hfree Hroom. assert (Hf0 : free_blocks sb v ≠ []) by (intros E; rewrite E in Hfree; simpl in Hfree; lia).
  unfold bmap. rewrite (get_inode_bind n m d ip i _ Hi). rewrite is_idx_max in Hidx. destruct (Z.ltb_spec k NDIRECT) as [Hk|Hk].
  - assert (Ebat : ∀ w a, bat w a k = a !!! Z.to_nat k). { intros w a. unfold bat. by rewrite (proj2 (Z.ltb_lt k NDIRECT)). }
    cbv zeta. rewrite <- (Ebat v). destruct (Z.eqb_spec (bat v (i_addrs i) k) 0) as [Hz|Hz].
    + eapply wp_mono; [|apply (bmap_slot_wp m d v bs ip i Ht Hsb Hi Hdev Hok Hmeta k); [left; split; [lia | done] | done | lia]].
      intros r s' (a' & v' & bs' & new & m' & d' & -> & Hb & -> & Hr & -> & Hl). do 6 eexists. split; [done|]. split; [exact Hb|]. split_and!; [| done | done].
      rewrite Ebat, list_lookup_total_insert_eq; [done|]. rewrite (fo_len _ _ _ _ Hok). unfold NDIRECT in *. lia.
    + exists (i_addrs i), v, bs, [], m, d. split; [done|]. split; [by apply bmapped_refl|]. done.
  - change NINDIRECT with 128. rewrite (proj2 (Z.ltb_lt (k - NDIRECT) 128)) by (unfold NDIRECT in *; lia). cbv zeta.
    change (i_addrs i !!! Z.to_nat NDIRECT) with (ind_of (i_addrs i)). destruct (Z.eqb_spec (ind_of (i_addrs i)) 0) as [Hz|Hz].
    + apply wp_bind. eapply wp_mono; [|apply (bmap_slot_wp m d v bs ip i Ht Hsb Hi Hdev Hok Hmeta NDIRECT); [by right | done | lia]].
      intros r1 s1 (a1 & v1 & bs1 & new & m1 & d1 & -> & Hb1 & -> & Hr1 & Ea1 & Hl). pose proof Hb1 as [Ht1 Hf1 Hg1 _ _ _].
      assert (Hi1 : ind_of a1 = r1).
      { rewrite Ea1. unfold ind_of. apply list_lookup_total_insert_eq. rewrite (fo_len _ _ _ _ Hok). unfold NDIRECT. lia. }
      assert (Hii : d_inodes d1 !! ip = Some (with_addrs i a1)).
      { rewrite (tx_frame_inodes _ _ Hf1). apply list_lookup_insert_eq. by eapply lookup_lt_Some. }
      rewrite <- Hi1. change (i_dev i) with (i_dev (with_addrs i a1)).
      eapply wp_mono; [|apply (bmap_entry_wp m1 d1 v1 bs1 ip (with_addrs i a1)); try done].
      * intros r s' (a' & v' & bs' & new & m' & d' & -> & Hb & -> & Hr & Hr0 & _ & Hnew). exists a1, v', bs', (r1 :: new), m', d'. split; [done|].
        split; [by eapply bmapped_trans|]. split_and!; [done | done |].
        intros []. unfold bat. rewrite (proj2 (Z.ltb_ge k NDIRECT)) by done. by rewrite Hz.
      * by rewrite (tx_frame_sb _ _ Hf1).
      * apply Hg1.
      * by eapply grow_meta.
      * simpl. congruence.
      * pose proof (g_free _ _ _ _ _ _ _ Hg1) as Hgf. simpl in Hgf. intros E. rewrite E in Hgf. simpl in Hgf. lia.
      * lia.
    + rewrite bind_mret. eapply wp_mono; [|apply (bmap_entry_wp m d v bs ip i Ht Hsb Hi Hdev Hok Hmeta k); [done | done | done | done | lia]].
      intros r s' (a' & v' & bs' & new & m' & d' & -> & Hb & -> & Hr & Hr0 & _ & Hnew). do 6 eexists. split; [done|]. split; [exact Hb|].
      split_and!; [done | done |]. intros H0. by destruct (Hnew H0).
Qed.
End bmap.
