(* ===== verification/WriteMap.v ===== *)
(** * WriteMap: what writing to a file does to the blocks

    [written off0 n0 l tot v0 a0 bs0 v a bs]: of the [n0] bytes [l] that are
    written at offset [off0], [tot] have been; the blocks were [v0], the block
    numbers of the inode [a0] and the blocks of the transaction [bs0], and are
    [v], [a] and [bs] now. *)

From S2P Require Import Prelude Memory Kstate Log TxFacts Inode Fs BioFacts FsFacts Ondisk Alloc FileMap.

(** Every block of a file of [size] bytes is there. *)
Definition all_there (v : blocks) (a : list Z) (size : Z) : Prop :=
  0 <= size <= MAXFILE * BSIZE ∧ ∀ k, 0 <= k → k * BSIZE < size → bat v a k ≠ 0.
(** The file [f] after [l] is written at offset [off]. *)
Definition splice (off : Z) (l f : list Z) : list Z := take (Z.to_nat off) f ++ l ++ drop (Z.to_nat off + length l) f.

Lemma all_there_idx size k : size <= MAXFILE * BSIZE → 0 <= k → k * BSIZE < size → is_idx k.
Proof. change (MAXFILE * BSIZE) with 71680. intros. rewrite is_idx_max. unfold BSIZE in *. lia. Qed.
Lemma idx_byte o : 0 <= o < MAXFILE * BSIZE → is_idx (o / BSIZE).
Proof. change (MAXFILE * BSIZE) with 71680. intros H. rewrite is_idx_max. unfold BSIZE. Z.div_mod_to_equations. lia. Qed.
Lemma all_there_fmapped sb ds v a size : 0 <= ds → file_ok sb ds v a → all_there v a size → fmapped v a size.
Proof.
  intros Hds Hok [Hs Ht]. assert (Hb : ∀ b, mine v a b → is_blk b).
  { intros b Hm. destruct (fo_data _ _ _ _ Hok b Hm). unfold is_blk, FSSIZE in *. lia. }
  split; [done | |].
  - intros k H0 Hk. pose proof (Ht k H0 Hk) as Hn. destruct (bat_fblk _ _ _ Hn) as [<- _]. split; [done|].
    apply Hb, bat_mine; [apply (all_there_idx size); tauto | done].
  - intros Hk. pose proof (Ht NDIRECT ltac:(done) Hk) as Hn. destruct (bat_fblk _ _ _ Hn) as [_ Hi]. specialize (Hi ltac:(done)).
    split; [done|]. by apply Hb, ind_mine.
Qed.

Section write.
Context (sb : superblock) (ds : Z) (Hbm : 0 <= BBLOCK 0 sb < ds).
Abbreviation bm := (BBLOCK 0 sb).
Context (off0 n0 : Z) (l : list Z) (v0 : blocks) (a0 bs0 : list Z).
Context (Hoff : 0 <= off0) (Hn0 : 0 <= n0) (Hmax : off0 + n0 <= MAXFILE * BSIZE) (Hl : Z.of_nat (length l) = n0).

(** The blocks of the file that are written to. *)
Definition span (k : Z) : Prop := off0 / BSIZE <= k ∧ k * BSIZE < off0 + n0.
Definition nspan : Z := (off0 + n0 - 1) / BSIZE - off0 / BSIZE + 1.

Record written (tot : Z) (v : blocks) (a bs : list Z) : Prop := {
  w_grow : ∃ new, grow sb ds v0 a0 v a new;
  w_there k : 0 < tot → off0 / BSIZE <= k → k * BSIZE < off0 + tot → bat v a k ≠ 0;
  w_bat k : is_idx k → ¬ span k → bat v a k = bat v0 a0 k;
  w_log b : b ∈ bs → b ∈ bs0 ∨ b = bm ∨ b ≠ 0 ∧ (b = ind_of a ∨ ∃ k, span k ∧ b = bat v a k);
  w_data o : off0 <= o < off0 + tot → fbyte v a o = l !!! Z.to_nat (o - off0);
  w_keep o : is_idx (o / BSIZE) → bat v0 a0 (o / BSIZE) ≠ 0 → ¬ (off0 <= o < off0 + tot) → fbyte v a o = fbyte v0 a0 o;
  w_stay : (∀ k, span k → bat v0 a0 k ≠ 0) → a = a0
}.

Lemma written_0 : file_ok sb ds v0 a0 → written 0 v0 a0 bs0.
Proof.
  intros Hok. split; try done; try lia; [exists []; by apply grow_refl | by left].
Qed.

Lemma span_idx k : span k → is_idx k.
Proof.
  intros [H1 H2]. assert (0 <= off0 / BSIZE) by (apply Z.div_pos; [done | done]).
  change (MAXFILE * BSIZE) with 71680 in Hmax. rewrite is_idx_max. unfold BSIZE in *. lia.
Qed.

Section step.
Context (tot : Z) (v : blocks) (a bs : list Z) (v' : blocks) (a' new bs' : list Z).
Let off := off0 + tot.
Let k := off / BSIZE.
Let c := Z.min (n0 - tot) (BSIZE - off mod BSIZE).
Let r := bat v' a' k.
Context (Htot : 0 <= tot < n0) (Hw : written tot v a bs) (Hg : grow sb ds v a v' a' new).
Context (Hsame : ∀ b, b ≠ bm → b ∉ new → (b = ind_of a → b = 0) → v' b = v b).
Context (Hnew : ∀ b, b ∈ new → b = r ∨ b = ind_of a') (Hr : r ≠ 0).
Context (Hstay : bat v a k ≠ 0 → new = [] ∧ a' = a ∧ v' = v).
Context (Hlog : ∀ b, b ∈ bs' → b ∈ bs ∨ b = bm ∨ b = r ∨ b = ind_of a' ∧ b ≠ 0).
Context (Hlen : length (v' r) = Z.to_nat BSIZE).

Lemma cur_block : off = k * BSIZE + off mod BSIZE ∧ 0 <= off mod BSIZE < BSIZE.
Proof. subst k. pose proof (Z.div_mod off BSIZE ltac:(done)). pose proof (Z.mod_pos_bound off BSIZE ltac:(done)). lia. Qed.
Lemma cur_span : span k.
Proof.
  destruct cur_block as [E Hb]. split; [apply Z.div_le_mono; [done | unfold off; lia]|]. unfold off, BSIZE in *. lia.
Qed.
Lemma step_idx : is_idx k.
Proof. apply span_idx, cur_span. Qed.

(** Where a byte of the file is, relative to the block that is written. *)
Lemma block_of o : 0 <= o → o / BSIZE = k ↔ k * BSIZE <= o < k * BSIZE + BSIZE.
Proof. intros Ho. unfold BSIZE in *. split; intros; Z.div_mod_to_equations; lia. Qed.

Definition chunk : list Z := take (Z.to_nat c) (drop (Z.to_nat tot) l).
Lemma chunk_length : Z.of_nat (length chunk) = c.
Proof. unfold chunk. rewrite length_take, length_drop. destruct cur_block as [_ Hb]. unfold c in *. lia. Qed.
Lemma step_byte o : 0 <= o → o / BSIZE = k →
  list_inserts (Z.to_nat (off mod BSIZE)) chunk (v' r) !!! Z.to_nat (o mod BSIZE)
  = if decide (off <= o < off + c) then l !!! Z.to_nat (o - off0) else v' r !!! Z.to_nat (o mod BSIZE).
Proof.
  intros Ho Ek. pose proof (proj1 (block_of o Ho) Ek) as Hb. destruct cur_block as [E Hm]. pose proof chunk_length as Hcl.
  assert (Em : o mod BSIZE = o - k * BSIZE) by (rewrite <- Ek; unfold BSIZE in *; Z.div_mod_to_equations; lia). rewrite Em.
  rewrite !list_lookup_total_alt. case_decide as Hin.
  - assert (Hc : c <= BSIZE - off mod BSIZE) by (unfold c; lia).
    rewrite list_lookup_inserts by (rewrite ?Hlen; unfold BSIZE in *; lia).
    unfold chunk. rewrite lookup_take_lt by lia. rewrite lookup_drop. do 2 f_equal. unfold off in *. lia.
  - f_equal. destruct (decide (o < off)); [rewrite list_lookup_inserts_lt by lia | rewrite list_lookup_inserts_ge by lia]; done.
Qed.

Definition after_write : blocks := bupd v' r (list_inserts (Z.to_nat (off mod BSIZE)) chunk (v' r)).

Lemma step_fbyte o :
  0 <= o → is_idx (o / BSIZE) → bat v' a' (o / BSIZE) ≠ 0 →
  fbyte after_write a' o = if decide (off <= o < off + c) then l !!! Z.to_nat (o - off0) else fbyte v' a' o.
Proof.
  intros Ho Hi Hb. pose proof (g_ok _ _ _ _ _ _ _ Hg) as Hok'. unfold after_write, r. rewrite (fbyte_write sb ds v' a' k) by (done || apply step_idx).
  fold r. destruct cur_block as [E Hm]. case_decide as Ek.
  - rewrite step_byte by done. case_decide; [done|]. unfold fbyte. destruct (bat_fblk _ _ _ Hb) as [<- _]. by rewrite Ek.
  - rewrite decide_False; [done|]. intros Hin. apply Ek, block_of; [done|]. unfold c in Hin. lia.
Qed.

Lemma written_step : written (tot + c) after_write a' (add_blk r bs').
Proof.
  destruct (w_grow _ _ _ _ Hw) as [new0 Hg0]. pose proof (g_ok _ _ _ _ _ _ _ Hg0) as Hok. pose proof (g_ok _ _ _ _ _ _ _ Hg) as Hok'.
  assert (Hgb : ∀ j, is_idx j → j ≠ k → bat v' a' j = bat v a j) by (intros j; apply (grow_bat sb ds _ _ _ _ _ k Hg step_idx Hnew)).
  assert (Ebat : ∀ j, bat after_write a' j = bat v' a' j) by (intros j; apply (bat_write sb ds); [done | apply step_idx | done]).
  assert (Hold : ∀ j, is_idx j → bat v a j ≠ 0 → bat v' a' j ≠ 0) by (intros j Hj H0; by rewrite (g_old _ _ _ _ _ _ _ Hg j Hj H0)).
  assert (Hfb : ∀ o, is_idx (o / BSIZE) → bat v a (o / BSIZE) ≠ 0 → fbyte v' a' o = fbyte v a o) by (intros o; by apply (grow_fbyte sb ds Hbm _ _ _ _ new Hok Hg)).
  destruct cur_block as [E Hm]. assert (Hc : 0 < c) by (unfold c; lia).
  split.
  - exists (new0 ++ new). eapply grow_trans; [exact Hg0|]. apply grow_write; [done | done | apply step_idx | done].
  - intros j _ Hj Hj'. rewrite Ebat. destruct (decide (j = k)) as [->|Hne]; [done|].
    assert (Hij : is_idx j) by (apply span_idx; split; [done | unfold c in Hj'; lia]).
    assert (j < k) by (unfold c, BSIZE in *; lia). assert (0 < tot).
    { destruct (decide (tot = 0)) as [E0|]; [|lia]. exfalso. assert (off0 / BSIZE = k) by (unfold k, off; by rewrite E0, Z.add_0_r). lia. }
    apply Hold; [done|]. apply (w_there _ _ _ _ Hw); [done | done |]. unfold off, BSIZE in *. lia.
  - intros j Hj Hs. rewrite Ebat, Hgb; [by apply (w_bat _ _ _ _ Hw) | done |]. intros ->. apply Hs, cur_span.
  - assert (Hrs : r ≠ 0 ∧ (r = ind_of a' ∨ ∃ j, span j ∧ r = bat after_write a' j)).
    { split; [done|]. right. exists k. split; [apply cur_span | by rewrite Ebat]. }
    intros b. rewrite elem_of_add_blk. intros [->|Hb]; [tauto|].
    destruct (Hlog b Hb) as [Hb1|[?|[->|[? ?]]]]; [|tauto|tauto|tauto]. destruct (w_log _ _ _ _ Hw b Hb1) as [?|[?|[H0 [->|(j & Hj & ->)]]]]; [tauto | tauto | |]; right; right.
    + split; [done|]. left. symmetry. by apply (g_ind _ _ _ _ _ _ _ Hg).
    + split; [done|]. right. exists j. split; [done|]. rewrite Ebat. symmetry. apply (g_old _ _ _ _ _ _ _ Hg); [by apply span_idx | done].
  - intros o Ho. assert (Hcn : tot + c <= n0) by (unfold c; lia). assert (Hio : is_idx (o / BSIZE)) by (apply idx_byte; lia).
    destruct (decide (off <= o)) as [Hge|Hlt].
    + assert (o / BSIZE = k) as Eok by (apply block_of; [lia | unfold c, off in *; lia]).
      rewrite step_fbyte, decide_True; [done | unfold off in *; lia | lia | done | by rewrite Eok].
    + assert (Hb : bat v a (o / BSIZE) ≠ 0).
      { apply (w_there _ _ _ _ Hw); [unfold off in *; lia | apply Z.div_le_mono; [done | lia] |]. pose proof (Z.div_mod o BSIZE ltac:(done)). unfold off in *.
        pose proof (Z.mod_pos_bound o BSIZE ltac:(done)). lia. }
      rewrite step_fbyte, decide_False, Hfb; [|done | done | lia | lia | done | by apply Hold]. apply (w_data _ _ _ _ Hw). unfold off in *. lia.
  - intros o Hio Hb0 Hout. assert (Hb : bat v a (o / BSIZE) ≠ 0) by (rewrite (g_old _ _ _ _ _ _ _ Hg0 _ Hio); done).
    assert (Ho : 0 <= o). { rewrite is_idx_max in Hio. unfold BSIZE in *. Z.div_mod_to_equations. lia. }
    rewrite step_fbyte, decide_False, Hfb; [|done | done | unfold off in *; lia | done | done | by apply Hold]. apply (w_keep _ _ _ _ Hw); [done | done | lia].
  - intros Hs. assert (Hbk : bat v a k ≠ 0).
    { rewrite (g_old _ _ _ _ _ _ _ Hg0 k step_idx); apply Hs, cur_span. }
    destruct (Hstay Hbk) as (_ & Ea & _). rewrite Ea. by apply (w_stay _ _ _ _ Hw).
Qed.
End step.

(** ** What the whole write did *)

Lemma span_list k : span k → k ∈ seqZ (off0 / BSIZE) nspan.
Proof. intros [H1 H2]. apply elem_of_seqZ. unfold nspan. split; [done|]. unfold BSIZE in *. Z.div_mod_to_equations. lia. Qed.
Lemma nspan_pos : 0 <= nspan.
Proof. unfold nspan. pose proof (Z.div_le_mono (off0 - 1) (off0 + n0 - 1) BSIZE ltac:(done) ltac:(lia)). unfold BSIZE in *. Z.div_mod_to_equations. lia. Qed.

Context (v : blocks) (a bs : list Z) (tot : Z) (Hw : written tot v a bs).

Lemma written_log : NoDup bs → Z.of_nat (length bs) <= Z.of_nat (length bs0) + 2 + nspan.
Proof.
  intros Hnd. assert (Hsub : bs ⊆+ bs0 ++ bm :: ind_of a :: (bat v a <$> seqZ (off0 / BSIZE) nspan)).
  { apply NoDup_submseteq; [done|]. intros b Hb. rewrite elem_of_app, !elem_of_cons.
    destruct (w_log _ _ _ _ Hw b Hb) as [?|[?|[_ [?|(k & Hk & ->)]]]]; [tauto..|]. do 3 right. by apply list_elem_of_fmap_2, span_list. }
  apply submseteq_length in Hsub. rewrite length_app in Hsub. simpl in Hsub. rewrite length_fmap, length_seqZ in Hsub. pose proof nspan_pos. lia.
Qed.
Lemma written_new new b : grow sb ds v0 a0 v a new → file_ok sb ds v0 a0 → b ∈ new → b = ind_of a ∨ ∃ k, span k ∧ b = bat v a k.
Proof.
  intros Hg Hok Hb. destruct (g_new _ _ _ _ _ _ _ Hg b Hb) as [[_ Hf]%elem_of_free _].
  destruct (proj2 (g_mine _ _ _ _ _ _ _ Hg b) (or_intror Hb)) as [H0 [?|(k & Hk & E)]]; [by left|]. right. exists k. split; [|done].
  destruct (decide (off0 / BSIZE <= k ∧ k * BSIZE < off0 + n0)) as [|Hs]; [done|]. destruct Hf. rewrite E in *.
  rewrite (w_bat _ _ _ _ Hw k Hk Hs) in *. by apply (fo_data _ _ _ _ Hok), bat_mine.
Qed.
Lemma written_free : file_ok sb ds v0 a0 → Z.of_nat (length (free_blocks sb v0)) <= Z.of_nat (length (free_blocks sb v)) + 1 + nspan.
Proof.
  intros Hok. destruct (w_grow _ _ _ _ Hw) as [new Hg].
  assert (Hsub : free_blocks sb v0 ⊆+ free_blocks sb v ++ ind_of a :: (bat v a <$> seqZ (off0 / BSIZE) nspan)).
  { apply NoDup_submseteq; [apply NoDup_filter, NoDup_seqZ|]. intros b [Hb Hm]%elem_of_free. rewrite elem_of_app, elem_of_cons, elem_of_free.
    rewrite (g_mark _ _ _ _ _ _ _ Hg b Hb). destruct (decide (b ∈ new)) as [Hn|Hn]; [|tauto]. right.
    destruct (written_new new b Hg Hok Hn) as [?|(k & Hk & ->)]; [by left|]. right. by apply list_elem_of_fmap_2, span_list. }
  apply submseteq_length in Hsub. rewrite length_app in Hsub. simpl in Hsub. rewrite length_fmap, length_seqZ in Hsub. pose proof nspan_pos. lia.
Qed.
End write.

Section done.
Context (sb : superblock) (ds : Z) (Hbm : 0 <= BBLOCK 0 sb < ds).
Context (off n : Z) (l : list Z) (v0 : blocks) (a0 bs0 : list Z) (v : blocks) (a bs : list Z) (size : Z).
Context (Hoff : 0 <= off <= size) (Hn : 0 <= n) (Hmax : off + n <= MAXFILE * BSIZE) (Hl : Z.of_nat (length l) = n).
Context (Hok : file_ok sb ds v0 a0) (Hall : all_there v0 a0 size) (Hw : written sb ds off n l v0 a0 bs0 n v a bs).

Lemma written_there : all_there v a (Z.max size (off + n)).
Proof.
  destruct Hall as [Hs Ht]. destruct (w_grow _ _ _ _ _ _ _ _ _ _ _ _ Hw) as [new Hg]. split; [lia|]. intros k H0 Hk.
  destruct (decide (k * BSIZE < size)) as [Hlt|Hge].
  - rewrite (g_old _ _ _ _ _ _ _ Hg); [by apply Ht | apply (all_there_idx size); tauto | by apply Ht].
  - apply (w_there _ _ _ _ _ _ _ _ _ _ _ _ Hw); [lia | | lia]. unfold BSIZE in *. Z.div_mod_to_equations. lia.
Qed.
Lemma written_bytes : fbytes v a 0 (Z.max size (off + n)) = splice off l (fbytes v0 a0 0 size).
Proof.
  destruct Hall as [Hs Ht]. apply list_eq. intros j. unfold fbytes, splice.
  assert (Hf0 : length (fbyte v0 a0 <$> seqZ 0 size) = Z.to_nat size) by by rewrite length_fmap, length_seqZ.
  assert (Hlt : length (take (Z.to_nat off) (fbyte v0 a0 <$> seqZ 0 size)) = Z.to_nat off) by (rewrite length_take; lia).
  assert (Hkeep : Z.of_nat j < size → ¬ (off <= Z.of_nat j < off + n) → fbyte v a (Z.of_nat j) = fbyte v0 a0 (Z.of_nat j)).
  { intros Hj Hout. apply (w_keep _ _ _ _ _ _ _ _ _ _ _ _ Hw); [apply idx_byte; lia | | done].
    apply Ht; [apply Z.div_pos; [lia | done] |]. unfold BSIZE in *. Z.div_mod_to_equations. lia. }
  rewrite list_lookup_fmap. destruct (decide (Z.of_nat j < Z.max size (off + n))) as [Hj|Hj].
  2:{ rewrite lookup_seqZ_ge by lia. rewrite !lookup_app_r by (rewrite ?Hlt; lia). rewrite lookup_drop, lookup_ge_None_2; [done|]. lia. }
  rewrite lookup_seqZ_lt by lia. simpl. rewrite Z.add_0_l. destruct (decide (Z.of_nat j < off)) as [H1|H1].
  { rewrite lookup_app_l, lookup_take_lt, list_lookup_fmap, lookup_seqZ_lt by lia. simpl. f_equal. apply Hkeep; lia. }
  rewrite lookup_app_r by lia. rewrite Hlt. destruct (decide (Z.of_nat j < off + n)) as [H2|H2].
  - rewrite lookup_app_l, (w_data _ _ _ _ _ _ _ _ _ _ _ _ Hw) by lia. symmetry.
    rewrite lookup_Some_total by lia. do 2 f_equal. lia.
  - rewrite lookup_app_r, lookup_drop, list_lookup_fmap by lia.
    replace (Z.to_nat off + length l + (j - Z.to_nat off - length l))%nat with j by lia.
    rewrite lookup_seqZ_lt by lia. simpl. f_equal. apply Hkeep; lia.
Qed.
Lemma written_inside : off + n <= size → a = a0.
Proof.
  intros Hle. apply (w_stay _ _ _ _ _ _ _ _ _ _ _ _ Hw). intros k [H1 H2]. destruct Hall as [_ Ht]. apply Ht; [|lia].
  assert (0 <= off / BSIZE) by (apply Z.div_pos; [lia | done]). lia.
Qed.
End done.
