(* ===== verification/WriteFacts.v ===== *)
(** * WriteFacts: writei and iupdate inside a transaction *)

From S2P Require Import Prelude Memory Kstate Spinlock Kalloc Cprintf Vm Sched SchedFacts Sleeplock Bio BioRing BioFacts Log LogFacts TxFacts Inode Console Fs FsFacts Ondisk Alloc FileMap BmapFacts WriteMap.

(** The source of a write has the bytes [l], whichever processor runs the
    thread and whatever the file system has changed since [d0]. *)
Definition src_ok (p : nat) (from : src) (l : list Z) (d0 : kdata) : Prop :=
  ∀ n m d tot k, fs_thread p m d → d_mm d = d_mm d0 → quiet <$> d_procs d = quiet <$> d_procs d0 →
    0 <= tot → tot + Z.of_nat k <= Z.of_nat (length l) → get_src from tot k n (K m d) = Done (take k (drop (Z.to_nat tot) l)) (K m d).
Lemma src_ok_local p l d0 : src_ok p (S_local l) l d0.
Proof. done. Qed.

Section writei.
Context {Drv : Disk} {p : nat} {R : wait_reason → kst → kst → Prop} {DL : DiskLaw p R} (n : nat) (Hn : (2 <= n)%nat).
Context (sb : superblock) (start nlog ds : Z) (Hly : layout sb start nlog ds).
Abbreviation bm := (BBLOCK 0 sb).
Abbreviation tx := (tx start nlog).

Lemma tx_frame_core d d' : tx_frame d d' → d_mm d' = d_mm d ∧ quiet <$> d_procs d' = quiet <$> d_procs d.
Proof. intros [[Hc _] _ _]. split; [by apply (f_equal d_mm) in Hc | by apply (f_equal d_procs) in Hc]. Qed.

Section loop.
Context (d0 : kdata) (v0 : blocks) (bs0 : list Z) (ip : nat) (i0 : inode) (from : src) (off0 n0 : Z) (l : list Z).
Context (Hsb : d_sb d0 = sb) (Hip : (ip < length (d_inodes d0))%nat) (Hdev : i_dev i0 = ROOTDEV).
Context (Hok0 : file_ok sb ds v0 (i_addrs i0)) (Hmeta : meta_marked sb ds v0).
Context (Hoff : 0 <= off0) (Hn0 : 0 <= n0) (Hmax : off0 + n0 <= MAXFILE * BSIZE) (Hl : Z.of_nat (length l) = n0).
Context (Hsrc : src_ok p from l d0).
Context (Hfree : nspan off0 n0 + 3 <= Z.of_nat (length (free_blocks sb v0))) (Hroom : Z.of_nat (length bs0) + nspan off0 n0 + 6 < nlog - 1).

Record wstate (tot : Z) (m : mach) (d : kdata) (v : blocks) (a bs : list Z) : Prop := {
  ws_tx : tx m d v bs ∅;
  ws_frame : tx_frame (set_inode d0 ip (with_addrs i0 a)) d;
  ws_written : written sb ds off0 n0 l v0 (i_addrs i0) bs0 tot v a bs
}.

Lemma ws_inode tot m d v a bs : wstate tot m d v a bs → d_inodes d !! ip = Some (with_addrs i0 a).
Proof. intros [_ Hf _]. rewrite (tx_frame_inodes _ _ Hf). by apply list_lookup_insert_eq. Qed.

Lemma writei_step tot m d v a bs :
  wstate tot m d v a bs → 0 <= tot < n0 →
  let off := off0 + tot in let c := Z.min (n0 - tot) (BSIZE - off mod BSIZE) in
  ∀ (g : KM Z) Q, (∀ m' d' v' a' bs', wstate (tot + c) m' d' v' a' bs' → wp R (g n (K m' d')) Q) →
  wp R ((bn ← bmap ip (off / BSIZE);
         i ← get_inode ip;
         bp ← bread (i_dev i) bn;
         l ← get_src from tot (Z.to_nat c);
         mod_bdata bp (list_inserts (Z.to_nat (off mod BSIZE)) l) ;;
         log_write bp ;;
         brelse bp ;; g) n (K m d)) Q.
Proof.
  intros Hws Htot off c g Q Hg. pose proof Hws as [Ht Hf Hw]. pose proof (ws_inode _ _ _ _ _ _ Hws) as Hi.
  destruct (w_grow _ _ _ _ _ _ _ _ _ _ _ _ Hw) as [new0 Hg0]. destruct (ly_bm _ _ _ _ Hly) as [Hbm Hbml]. pose proof (ly_log _ _ _ _ Hly) as Ha.
  pose proof (written_log sb ds Hbm off0 n0 l v0 _ bs0 Hn0 Hl v a bs tot Hw (tx_nd _ _ _ _ _ _ _ Ht)) as Hlb.
  pose proof (written_free sb ds Hbm off0 n0 l v0 _ bs0 Hn0 Hl v a bs tot Hw Hok0) as Hfr.
  assert (Hk : is_idx (off / BSIZE)) by (apply idx_byte; unfold off; lia).
  apply wp_bind. eapply wp_mono; [|apply (bmap_alloc_wp n Hn sb start nlog ds Hly m d v bs ip (with_addrs i0 a) (off / BSIZE) Ht); try done].
  2:{ by rewrite (tx_frame_sb _ _ Hf). }
  2:{ apply Hg0. }
  2:{ by eapply grow_meta. }
  2:{ lia. }
  2:{ lia. }
  intros r s1 (a1 & v1 & bs1 & new & m1 & d1 & -> & Hbm1 & Hr & Hr0 & Hstay). pose proof Hbm1 as [Ht1 Hf1 Hg1 Hs1 Hl1 Hn1].
  pose proof (g_ok _ _ _ _ _ _ _ Hg1) as Hok1. set (k := off / BSIZE) in *. simpl i_addrs in *.
  assert (Hi1 : d_inodes d1 !! ip = Some (with_addrs i0 a1)).
  { rewrite (tx_frame_inodes _ _ Hf1). apply list_lookup_insert_eq. by eapply lookup_lt_Some. }
  destruct (fo_data _ _ _ _ Hok1 r) as [Hrr _]; [rewrite Hr; apply bat_mine; congruence|]. pose proof (ly_end _ _ _ _ Hly) as Hend.
  assert (Hrb : is_blk r) by (unfold is_blk, FSSIZE in *; lia). assert (Hrl : ¬ in_log start nlog r) by (unfold in_log; lia).
  pose proof (bmapped_log _ _ _ _ _ _ _ _ _ _ _ _ _ _ _ _ _ Hbm1) as Hrn0. assert (Hrn : Z.of_nat (length bs1) < nlog - 1) by lia.
  assert (Hfa : tx_frame (set_inode d0 ip (with_addrs i0 a1)) d1).
  { etransitivity; [|exact Hf1]. apply (tx_frame_set _ _ ip (with_addrs i0 a1)) in Hf. by rewrite set_inode_twice in Hf. }
  rewrite (get_inode_bind n m1 d1 ip _ _ Hi1). simpl i_dev. rewrite Hdev. apply wp_bind.
  eapply wp_mono; [|apply (tx_bread n Hn start nlog Ha m1 d1 v1 bs1 ∅ r Ht1 Hrb); [done | rewrite map_size_empty; lia | done]].
  intros bp s2 (_ & m2 & d2 & -> & Ht2 & Hf2). pose proof (lookup_insert_eq ∅ bp r) as HHb.
  assert (Hf02 : tx_frame (set_inode d0 ip (with_addrs i0 a1)) d2) by by transitivity d1.
  destruct (tx_frame_core _ _ Hf02) as [Hmm Hps]. pose proof (tx_fs _ _ _ _ _ _ _ Ht2) as (Hth & _ & _).
  pose proof (Z.mod_pos_bound off BSIZE ltac:(done)) as Hb. assert (Hc : 0 <= c ∧ tot + c <= n0 ∧ off mod BSIZE + c <= BSIZE) by (unfold c; lia).
  rewrite (bind_done _ _ _ _ _ _ (Hsrc n m2 d2 tot (Z.to_nat c) Hth Hmm Hps ltac:(lia) ltac:(lia))). fold (chunk off0 n0 l tot).
  assert (Hlen1 : length (v1 r) = Z.to_nat BSIZE) by (eapply tx_length; [exact Ht1 | done]).
  assert (Hlen : length (list_inserts (Z.to_nat (off mod BSIZE)) (chunk off0 n0 l tot) (v1 r)) = Z.to_nat BSIZE) by by rewrite length_inserts.
  destruct (tx_update n Hn start nlog Ha m2 d2 v1 bs1 _ bp r _ Ht2 HHb Hrl Hrn Hlen) as (d3 & Hrun3 & Ht3 & Hf3).
  apply bind_done_inv in Hrun3 as ([] & s & Hr1 & Hr2). rewrite (bind_done _ _ _ _ _ _ Hr1), (bind_done _ _ _ _ _ _ Hr2).
  destruct (tx_brelse n start nlog m2 d3 _ _ _ bp r Ht3 HHb) as (d4 & Hrun4 & Ht4 & Hf4). rewrite (bind_done _ _ _ _ _ _ Hrun4).
  rewrite delete_insert_id in Ht4 by done. eapply (Hg m2 d4 _ a1). split; [exact Ht4 | by transitivity d2; [|transitivity d3] |].
  rewrite Hr. apply (written_step sb ds Hbm off0 n0 l v0 _ bs0 Hoff Hmax Hl tot v a bs v1 a1 new bs1); subst r; done.
Qed.

Lemma writei_loop_wp fuel : ∀ tot m d v a bs,
  wstate tot m d v a bs → 0 <= tot <= n0 → (Z.to_nat (n0 - tot) < fuel)%nat →
  wp R (writei_loop fuel ip from (off0 + tot) n0 tot n (K m d))
    (λ r s', r = off0 + n0 ∧ ∃ m' d' v' a' bs', s' = K m' d' ∧ wstate n0 m' d' v' a' bs').
Proof.
  induction fuel as [|fuel IH]; intros tot m d v a bs Hws Htot Hfu; [lia|]. cbn [writei_loop].
  destruct (Z.ltb_spec tot n0) as [Hlt|Hge]; simpl negb.
  2:{ assert (tot = n0) as -> by lia. split; [done|]. by exists m, d, v, a, bs. }
  apply (writei_step tot m d v a bs Hws); [lia|]. intros m' d' v' a' bs' Hws'. rewrite <- Z.add_assoc.
  pose proof (Z.mod_pos_bound (off0 + tot) BSIZE ltac:(done)) as Hb. apply (IH _ m' d' v' a' bs' Hws'); lia.
Qed.
End loop.

(** iupdate: the inode is stored in its block. *)
Definition store_inode (v : blocks) (i : inode) : blocks :=
  bupd v (IBLOCK (i_inum i) sb) (dinode_put (v (IBLOCK (i_inum i) sb)) (64 * (i_inum i mod IPB)) i).

Lemma iblock_ok inum : 0 < inum < sb_ninodes sb → is_blk (IBLOCK inum sb) ∧ ¬ in_log start nlog (IBLOCK inum sb).
Proof.
  clear Hn. intros Hi. destruct (ly_ino _ _ _ _ Hly inum Hi) as (Hb & Hnl & _). destruct (ly_ds _ _ _ _ Hly). split; [unfold is_blk; lia | done].
Qed.
Lemma iupdate_wp m d v bs ip i :
  tx m d v bs ∅ → d_sb d = sb → d_inodes d !! ip = Some i → i_dev i = ROOTDEV → 0 < i_inum i < sb_ninodes sb → Z.of_nat (length bs) < nlog - 1 →
  wp R (iupdate ip n (K m d)) (λ _, tx_post start nlog d (store_inode v i) (add_blk (IBLOCK (i_inum i) sb) bs) ∅).
Proof.
  intros Ht Hsb Hi Hdev Hin Hroom. pose proof (ly_log _ _ _ _ Hly) as Ha. destruct (iblock_ok _ Hin) as [Hb Hnl].
  unfold iupdate. rewrite (get_inode_bind n m d ip i _ Hi), bind_get_sb, Hdev, Hsb. apply wp_bind.
  eapply wp_mono; [|apply (tx_bread n Hn start nlog Ha m d v bs ∅ _ Ht Hb); [done | rewrite map_size_empty; lia | done]].
  intros bp s1 (_ & m1 & d1 & -> & Ht1 & Hf1). set (H1 := <[bp := _]> ∅) in *. assert (HHb : H1 !! bp = Some (IBLOCK (i_inum i) sb)) by apply lookup_insert_eq.
  rewrite (get_inode_bind n m1 d1 ip i) by (by rewrite (tx_frame_inodes _ _ Hf1)).
  assert (Hlen : length (dinode_put (v (IBLOCK (i_inum i) sb)) (64 * (i_inum i mod IPB)) i) = Z.to_nat BSIZE).
  { rewrite length_dinode_put. eapply tx_length; [exact Ht | done]. }
  destruct (tx_update n Hn start nlog Ha m1 d1 v bs H1 bp _ (λ l, dinode_put l (64 * (i_inum i mod IPB)) i) Ht1 HHb Hnl Hroom Hlen) as (d2 & Hrun2 & Ht2 & Hf2).
  apply bind_done_inv in Hrun2 as ([] & s & Hr1 & Hr2). rewrite (bind_done _ _ _ _ _ _ Hr1), (bind_done _ _ _ _ _ _ Hr2).
  destruct (tx_brelse n start nlog m1 d2 _ _ _ bp _ Ht2 HHb) as (d3 & Hrun3 & Ht3 & Hf3). rewrite Hrun3.
  unfold H1 in Ht3. rewrite delete_insert_id in Ht3 by done. exists m1, d3. split_and!; [done | exact Ht3 | by transitivity d1; [|transitivity d2]].
Qed.

(** ** writei *)

Definition with_size (i : inode) (x : Z) : inode := i <| i_size := x |>.
Definition grown (i : inode) (a : list Z) (x : Z) : inode := with_size (with_addrs i a) x.

Record writei_done (d : kdata) (v : blocks) (bs : list Z) (ip : nat) (i : inode) (off k : Z) (l : list Z) (m' : mach) (d' : kdata) (v1 v' : blocks) (a bs1 bs' : list Z) : Prop := {
  wd_tx : tx m' d' v' bs' ∅;
  wd_frame : tx_frame (set_inode d ip (grown i a (Z.max (i_size i) (off + k)))) d';
  wd_written : written sb ds off k l v (i_addrs i) bs k v1 a bs1;
  wd_inode : v' = if off + k >? i_size i then store_inode v1 (grown i a (off + k)) else v1;
  wd_len : Z.of_nat (length bs') <= Z.of_nat (length bs) + nspan off k + 3;
  wd_log b : b ∈ bs' → b ∈ bs1 ∨ b = IBLOCK (i_inum i) sb
}.

Lemma writei_wp m d v bs ip i from off k l :
  tx m d v bs ∅ → d_sb d = sb → d_inodes d !! ip = Some i → i_dev i = ROOTDEV → i_type i ≠ T_DEV → 0 < i_inum i < sb_ninodes sb →
  file_ok sb ds v (i_addrs i) → all_there v (i_addrs i) (i_size i) → meta_marked sb ds v →
  0 <= off <= i_size i → 0 <= k → off + k <= MAXFILE * BSIZE → Z.of_nat (length l) = k → src_ok p from l d →
  nspan off k + 3 <= Z.of_nat (length (free_blocks sb v)) → Z.of_nat (length bs) + nspan off k + 6 < nlog - 1 →
  wp R (writei ip from off k n (K m d)) (λ r s', r = k ∧ ∃ m' d' v1 v' a bs1 bs', s' = K m' d' ∧ writei_done d v bs ip i off k l m' d' v1 v' a bs1 bs').
Proof.
  intros Ht Hsb Hi Hdev Hty Hin Hok Hall Hmeta Hoff Hk Hmax Hl Hsrc Hfree Hroom. destruct (ly_bm _ _ _ _ Hly) as [Hbm _].
  pose proof Hmax as Hmx. change (MAXFILE * BSIZE) with 71680 in Hmx. assert (Hip : (ip < length (d_inodes d))%nat) by by eapply lookup_lt_Some.
  unfold writei. rewrite (get_inode_bind n m d ip i _ Hi), (proj2 (Z.eqb_neq _ _) Hty). rewrite (u32_small (off + k)) by (unfold is_u32; lia).
  rewrite !Z.gtb_ltb, (proj2 (Z.ltb_ge (i_size i) off)), (proj2 (Z.ltb_ge (off + k) off)), (proj2 (Z.ltb_ge (MAXFILE * BSIZE) _)) by lia. cbn [orb].
  assert (Hws : wstate d v bs ip i off k l 0 m d v (i_addrs i) bs).
  { split; [done | | by apply written_0]. replace (with_addrs i (i_addrs i)) with i by (by destruct i). by rewrite (set_inode_id d ip i Hi). }
  apply wp_bind. eapply wp_mono; [|pose proof (writei_loop_wp d v bs ip i from off k l Hsb Hip Hdev Hok Hmeta) as Hlp; rewrite <- (Z.add_0_r off) at 1; eapply Hlp; try done; lia].
  intros r s1 (-> & m1 & d1 & v1 & a & bs1 & -> & Hws1). pose proof Hws1 as [Ht1 Hf1 Hw1].
  pose proof (ws_inode d v bs ip i off k l Hip _ _ _ _ _ _ Hws1) as Hi1. rewrite (get_inode_bind n m1 d1 ip _ _ Hi1). simpl i_size.
  pose proof (written_log sb ds Hbm off k l v _ bs Hk Hl v1 a bs1 k Hw1 (tx_nd _ _ _ _ _ _ _ Ht1)) as Hlb.
  rewrite (s32_small k) by (unfold is_s32; lia). rewrite !Z.gtb_ltb. destruct (Z.ltb_spec (i_size i) (off + k)) as [Hext|Hin2].
  - rewrite (proj2 (Z.ltb_lt 0 k)) by lia. cbn [andb when]. apply wp_bind.
    rewrite (bind_done _ _ _ _ _ _ (mod_inode_done n m1 d1 ip _ _ Hi1)). set (i2 := grown i a (off + k)).
    change (_ <| i_size := off + k |>) with i2. pose proof (tx_set_inode start nlog _ _ _ _ _ ip i2 Ht1) as Ht2.
    assert (Hi2 : d_inodes (set_inode d1 ip i2) !! ip = Some i2) by (apply list_lookup_insert_eq; by eapply lookup_lt_Some).
    eapply wp_mono; [|apply (iupdate_wp m1 _ v1 bs1 ip i2 Ht2); [simpl; by rewrite (tx_frame_sb _ _ Hf1) | done | done | done | lia]].
    intros [] s2 (m3 & d3 & -> & Ht3 & Hf3). split; [done|]. exists m3, d3, v1, (store_inode v1 i2), a, bs1, (add_blk (IBLOCK (i_inum i) sb) bs1).
    split; [done|]. split; [exact Ht3 | | done | by rewrite Z.gtb_ltb, (proj2 (Z.ltb_lt _ _) Hext) | pose proof (add_blk_length (IBLOCK (i_inum i) sb) bs1); lia |].
    + rewrite Z.max_r by lia. fold i2. etransitivity; [|exact Hf3]. apply (tx_frame_set _ _ ip i2) in Hf1. by rewrite set_inode_twice in Hf1.
    + intros b [->|?]%elem_of_add_blk; auto.
  - rewrite andb_false_r. cbn [when]. rewrite bind_mret. split; [done|]. exists m1, d1, v1, v1, a, bs1, bs1. split; [done|].
    split; [done | | done | rewrite Z.gtb_ltb, (proj2 (Z.ltb_ge _ _)) by done; done | lia | auto].
    replace (grown i a (Z.max (i_size i) (off + k))) with (with_addrs i a); [done|]. unfold grown, with_size. rewrite Z.max_l by done. by destruct i.
Qed.
End writei.
