(* ===== verification/FsInv.v ===== *)
(** * FsInv: the invariant of the file system

    Every inode in use has its blocks in the data area, marked in the free
    map, and all the blocks below its size; no block belongs to two files or
    twice to one; every marked data block belongs to a file.  writei keeps it,
    and as seen from outside only replaces bytes of one file. *)

From S2P Require Import Prelude Memory Kstate Spinlock Kalloc Cprintf Vm Sched SchedFacts Sleeplock Bio BioRing BioFacts Log LogFacts TxFacts Inode Console Fs FsFacts Ondisk Alloc FileMap BmapFacts WriteMap WriteFacts.

Section inv.
Context (sb : superblock) (start nlog ds : Z) (Hly : layout sb start nlog ds).
Abbreviation bm := (BBLOCK 0 sb).

(** Inode [inum] is in use. *)
Definition in_use (v : blocks) (inum : Z) : Prop := 0 < inum < sb_ninodes sb ∧ i_type (dino v sb inum) ≠ 0.
#[export] Instance in_use_dec v inum : Decision (in_use v inum).
Proof. unfold in_use. apply _. Defined.
Abbreviation addrs v inum := (i_addrs (dino v sb inum)).
Abbreviation fsize v inum := (i_size (dino v sb inum)).

Record fs_inv (v : blocks) : Prop := {
  fi_meta : meta_marked sb ds v;
  fi_file inum : in_use v inum → file_ok sb ds v (addrs v inum);
  fi_there inum : in_use v inum → all_there v (addrs v inum) (fsize v inum);
  fi_disj inum inum' b : in_use v inum → in_use v inum' → mine v (addrs v inum) b → mine v (addrs v inum') b → inum = inum';
  fi_owner b : ds <= b < FSSIZE → marked sb v b → ∃ inum, in_use v inum ∧ mine v (addrs v inum) b
}.

(** The files, as seen from outside: the type, device numbers, links and bytes of each
    inode in use. *)
Record fview := FView { fv_type : Z; fv_major : Z; fv_minor : Z; fv_nlink : Z; fv_bytes : list Z }.
Definition file_of (v : blocks) (inum : Z) : option fview :=
  if decide (in_use v inum) then
    let i := dino v sb inum in
    Some (FView (i_type i) (i_major i) (i_minor i) (i_nlink i) (fbytes v (i_addrs i) 0 (i_size i)))
  else None.

(** ** Stored inodes *)

Lemma iblock_inj i j : 0 < i < sb_ninodes sb → 0 < j < sb_ninodes sb → IBLOCK i sb = IBLOCK j sb → i / IPB = j / IPB.
Proof.
  intros Hi Hj. pose proof (ly_ninodes _ _ _ _ Hly) as Hm. unfold IBLOCK, u32. change IPB with 8 in *. unfold FSSIZE in *.
  intros E. Z.div_mod_to_equations. lia.
Qed.
Lemma dino_store v i :
  length (v (IBLOCK (i_inum i) sb)) = Z.to_nat BSIZE → din_fits i → 0 < i_inum i < sb_ninodes sb → dino_at (store_inode sb v i) sb (i_inum i) i = i.
Proof.
  intros Hl Hf Hi. unfold dino_at, store_inode. rewrite bupd_eq. change IPB with 8. pose proof (Z.mod_pos_bound (i_inum i) 8 ltac:(done)).
  apply dinode_get_put; [done | lia | rewrite Hl; unfold BSIZE; lia].
Qed.
Lemma dino_store_ne v i j k :
  length (i_addrs i) = 13%nat → 0 < i_inum i < sb_ninodes sb → 0 < j < sb_ninodes sb → j ≠ i_inum i → dino_at (store_inode sb v i) sb j k = dino_at v sb j k.
Proof.
  intros Hl Hi Hj Hne. unfold dino_at, store_inode. destruct (decide (IBLOCK j sb = IBLOCK (i_inum i) sb)) as [E|E]; [|by rewrite bupd_ne].
  rewrite E, bupd_eq. pose proof (iblock_inj j (i_inum i) Hj Hi E) as Eq. change IPB with 8 in *.
  pose proof (Z.mod_pos_bound (i_inum i) 8 ltac:(done)). pose proof (Z.mod_pos_bound j 8 ltac:(done)).
  pose proof (Z.div_mod j 8 ltac:(done)). pose proof (Z.div_mod (i_inum i) 8 ltac:(done)). apply dinode_get_put_ne; [done | lia | lia | lia].
Qed.
Lemma dino_fields v inum i : dino_at v sb inum i = i →
  dino v sb inum = inode0 <| i_type := i_type i |> <| i_major := i_major i |> <| i_minor := i_minor i |> <| i_nlink := i_nlink i |> <| i_size := i_size i |> <| i_addrs := i_addrs i |>.
Proof. intros E. rewrite <- E. done. Qed.
Lemma addrs_u32 v a : 0 <= ds → file_ok sb ds v a → Forall is_u32 a.
Proof.
  intros Hds Hok. apply Forall_lookup_2. intros k x Hk. pose proof (lookup_lt_Some _ _ _ Hk) as Hlt. rewrite (fo_len _ _ _ _ Hok) in Hlt.
  destruct (decide (x = 0)) as [->|Hx]; [done|]. assert (Hm : mine v a x); [|destruct (fo_data _ _ _ _ Hok x Hm); unfold is_u32, FSSIZE in *; lia].
  split; [done|]. apply lookup_total_Some in Hk. destruct (decide (k = 12%nat)) as [->|Hk2]; [left; by rewrite <- Hk|].
  right. exists (Z.of_nat k). split; [rewrite is_idx_max; lia|]. unfold bat. rewrite (proj2 (Z.ltb_lt _ _)) by (unfold NDIRECT; lia). by rewrite Nat2Z.id.
Qed.
Lemma din_fits_grown v v1 inum i a size :
  0 <= ds → dino_at v sb inum i = i → file_ok sb ds v1 a → 0 <= size <= MAXFILE * BSIZE → din_fits (grown i a size).
Proof.
  change (MAXFILE * BSIZE) with 71680. intros Hds E Hok Hs. split; simpl; [rewrite <- E; apply s16_s16..|unfold is_u32; lia | apply Hok |].
  by eapply addrs_u32.
Qed.

(** Files depend on their own blocks and on the free map only. *)
Lemma file_ok_ext v v' a :
  v' bm = v bm → (ind_of a ≠ 0 → v' (ind_of a) = v (ind_of a)) → file_ok sb ds v a → file_ok sb ds v' a.
Proof.
  intros Em Ei [H1 H2 H3 H4]. pose proof (λ k, bat_ext v v' a k Ei) as Eb. split; [done | | |]; intros *; rewrite ?Eb; [|by apply H3 | by apply H4].
  rewrite (mine_ext v v' a) by done. unfold marked. rewrite Em. apply H2.
Qed.
Lemma all_there_ext v v' a size : (ind_of a ≠ 0 → v' (ind_of a) = v (ind_of a)) → all_there v a size → all_there v' a size.
Proof. intros Ei [Hs Ht]. split; [done|]. intros k. rewrite (bat_ext v v') by done. auto. Qed.
Lemma fbytes_ext v v' a size : (∀ b, mine v a b → v' b = v b) → all_there v a size → fbytes v' a 0 size = fbytes v a 0 size.
Proof.
  intros Hb [Hs Ht]. apply list_fmap_ext. intros ? o [-> Ho]%lookup_seqZ. rewrite Z.add_0_l. set (o' := Z.of_nat _).
  assert (Hidx : is_idx (o' / BSIZE)) by (apply idx_byte; lia). assert (H0 : bat v a (o' / BSIZE) ≠ 0).
  { apply Ht; [by rewrite is_idx_max in Hidx; lia|]. unfold BSIZE in *. Z.div_mod_to_equations. lia. }
  assert (E : bat v' a (o' / BSIZE) = bat v a (o' / BSIZE)) by (apply bat_ext; intros Hi; by apply Hb, ind_mine).
  unfold fbyte. destruct (bat_fblk v a _ H0) as [<- _]. destruct (bat_fblk v' a (o' / BSIZE)) as [<- _]; [congruence|]. rewrite E, Hb; [done|]. by apply bat_mine.
Qed.

(** The log and the unused blocks do not matter. *)
Section same.
Context (v v' : blocks) (Hsame : ∀ b, is_blk b → ¬ in_log start nlog b → v' b = v b).

Lemma same_bm : v' bm = v bm.
Proof. destruct (ly_bm _ _ _ _ Hly). apply Hsame; [by eapply bm_blk | done]. Qed.
Lemma same_data b : ds <= b < FSSIZE → v' b = v b.
Proof. intros Hb. destruct (ly_ds _ _ _ _ Hly). pose proof (ly_end _ _ _ _ Hly). apply Hsame; unfold is_blk, in_log, FSSIZE in *; lia. Qed.
Lemma same_dino inum i : 0 < inum < sb_ninodes sb → dino_at v' sb inum i = dino_at v sb inum i.
Proof.
  intros Hi. destruct (ly_ino _ _ _ _ Hly inum Hi) as (Hb & Hl & _). destruct (ly_ds _ _ _ _ Hly). unfold dino_at.
  rewrite Hsame; [done | unfold is_blk; lia | done].
Qed.
Lemma same_in_use inum : in_use v' inum ↔ in_use v inum.
Proof. unfold in_use, dino. split; intros [Hi Ht]; (split; [done|]); by rewrite same_dino in *. Qed.
Lemma same_mine a b : file_ok sb ds v a → mine v a b → v' b = v b.
Proof. intros Hok Hm. destruct (fo_data _ _ _ _ Hok b Hm). apply same_data. lia. Qed.
Lemma same_inv : fs_inv v → fs_inv v'.
Proof.
  intros [H1 H2 H3 H4 H5]. assert (Hm : ∀ b, marked sb v' b ↔ marked sb v b) by (intros b; unfold marked; by rewrite same_bm).
  assert (Ha : ∀ j, in_use v j → dino v' sb j = dino v sb j) by (intros j [Hj _]; by apply same_dino).
  assert (Hi : ∀ j, in_use v j → ind_of (addrs v j) ≠ 0 → v' (ind_of (addrs v j)) = v (ind_of (addrs v j))).
  { intros j Hj H0. apply (same_mine (addrs v j)); [by apply H2 | by apply ind_mine]. }
  assert (Hmi : ∀ j b, in_use v j → mine v' (addrs v' j) b ↔ mine v (addrs v j) b).
  { intros j b Hj. rewrite Ha by done. apply mine_ext. by apply Hi. }
  split.
  - intros b Hb. rewrite Hm. by apply H1.
  - intros j Hj%same_in_use. rewrite Ha by done. apply (file_ok_ext v); [apply same_bm | by apply Hi | by apply H2].
  - intros j Hj%same_in_use. rewrite Ha by done. apply (all_there_ext v); [by apply Hi | by apply H3].
  - intros j j' b Hj%same_in_use Hj'%same_in_use. rewrite !Hmi by done. by apply H4.
  - intros b Hb. rewrite Hm. intros Hk. destruct (H5 b Hb Hk) as (j & Hj & Hmj). exists j. by rewrite same_in_use, Hmi.
Qed.
Lemma same_file j : fs_inv v → file_of v' j = file_of v j.
Proof.
  intros Hinv. unfold file_of. destruct (decide (in_use v j)) as [Hj|Hj]; [|rewrite decide_False; [done | by rewrite same_in_use]].
  rewrite decide_True by by apply same_in_use. unfold dino. rewrite (same_dino j _ (proj1 Hj)). cbv zeta.
  rewrite (fbytes_ext v v'); [done | | by apply fi_there]. intros b. by apply (same_mine (addrs v j)), fi_file.
Qed.
End same.

(** ** One file grows *)

Section grows.
Context (v v1 v' : blocks) (inum : Z) (a new : list Z) (size : Z).
Context (Hinv : fs_inv v) (Hu : in_use v inum) (Hg : grow sb ds v (addrs v inum) v1 a new).
Context (Hsame : ∀ c, ds <= c ∨ c = bm → v' c = v1 c).
Context (Hother : ∀ j, 0 < j < sb_ninodes sb → j ≠ inum → dino v' sb j = dino v sb j).
Context (Hself : dino v' sb inum = dino v sb inum <| i_size := size |> <| i_addrs := a |>) (Hall : all_there v1 a size).

Lemma grows_in_use j : in_use v' j ↔ in_use v j.
Proof.
  unfold in_use. destruct (decide (j = inum)) as [->|Hne]; [by rewrite Hself|]. split; intros [Hj Ht]; (split; [done|]); rewrite (Hother j Hj Hne) in *; done.
Qed.
Lemma grows_marked b : is_blk b → marked sb v' b ↔ marked sb v b ∨ b ∈ new.
Proof. intros Hb. rewrite <- (g_mark _ _ _ _ _ _ _ Hg b Hb). unfold marked. by rewrite (Hsame bm) by auto. Qed.
Lemma mine_data w x b : file_ok sb ds w x → mine w x b → ds <= b < FSSIZE ∧ marked sb w b ∧ is_blk b ∧ b ≠ bm.
Proof.
  intros Hok Hm. destruct (fo_data _ _ _ _ Hok b Hm) as [Hr Hk]. destruct (ly_ds _ _ _ _ Hly), (ly_bm _ _ _ _ Hly) as [Hb _]. unfold is_blk, FSSIZE in *. split_and!; [lia | lia | done | lia | lia | lia].
Qed.
Lemma grows_self b : mine v' a b ↔ mine v (addrs v inum) b ∨ b ∈ new.
Proof.
  rewrite <- (g_mine _ _ _ _ _ _ _ Hg b). apply mine_ext. intros Hi. apply Hsame. left. eapply mine_data; [apply Hg|]. by apply ind_mine.
Qed.
(** The blocks of another file are not touched. *)
Lemma grows_keep j b : in_use v j → j ≠ inum → mine v (addrs v j) b → v' b = v b.
Proof.
  intros Hj Hne Hm. destruct (mine_data v _ b (fi_file _ Hinv j Hj) Hm) as (Hr & Hk & Hb & Hbm). rewrite Hsame by (left; lia).
  apply (g_same _ _ _ _ _ _ _ Hg); [done | |].
  - intros [[_ Hf]%elem_of_free _]%(g_new _ _ _ _ _ _ _ Hg). done.
  - intros Hm'. apply Hne. by apply (fi_disj _ Hinv j inum b).
Qed.
Lemma grows_mine j b : in_use v j → j ≠ inum → mine v' (addrs v j) b ↔ mine v (addrs v j) b.
Proof. intros Hj Hne. apply mine_ext. intros Hi. apply (grows_keep j); [done | done | by apply ind_mine]. Qed.
Lemma grows_addrs j : in_use v j → j ≠ inum → dino v' sb j = dino v sb j.
Proof. intros [Hj _] Hne. by apply Hother. Qed.

Lemma grows_file j : in_use v j → file_ok sb ds v' (addrs v' j) ∧ all_there v' (addrs v' j) (fsize v' j).
Proof.
  intros Hj. destruct (decide (j = inum)) as [->|Hne].
  - rewrite Hself. simpl. assert (Hi : ind_of a ≠ 0 → v' (ind_of a) = v1 (ind_of a)).
    { intros Hi. apply Hsame. left. eapply mine_data; [apply Hg|]. by apply ind_mine. }
    split; [apply (file_ok_ext v1); [apply Hsame; auto | done | apply Hg] | by apply (all_there_ext v1)].
  - rewrite (grows_addrs j Hj Hne). pose proof (fi_file _ Hinv j Hj) as [H1 H2 H3 H4].
    assert (Hi : ind_of (addrs v j) ≠ 0 → v' (ind_of (addrs v j)) = v (ind_of (addrs v j))) by (intros Hi; apply (grows_keep j); [done | done | by apply ind_mine]).
    pose proof (λ k, bat_ext v v' (addrs v j) k Hi) as Eb. split; [|apply (all_there_ext v); [done | by apply fi_there]].
    split; [done | | |]; intros *; rewrite ?Eb; [|by apply H3 | by apply H4]. rewrite (grows_mine j b Hj Hne). intros Hm. destruct (H2 b Hm) as [Hr Hk].
    split; [done|]. apply grows_marked; [unfold is_blk, FSSIZE in *; destruct (ly_ds _ _ _ _ Hly); lia | by left].
Qed.

Lemma grows_inv : fs_inv v'.
Proof.
  assert (Hfree : ∀ b j, b ∈ new → in_use v j → ¬ mine v (addrs v j) b).
  { intros b j Hb Hj Hm. destruct (g_new _ _ _ _ _ _ _ Hg b Hb) as [[_ Hf]%elem_of_free _]. by destruct (mine_data v _ b (fi_file _ Hinv j Hj) Hm) as (_ & ? & _). }
  assert (Hmine : ∀ j b, in_use v j → mine v' (addrs v' j) b ↔ mine v (addrs v j) b ∨ j = inum ∧ b ∈ new).
  { intros j b Hj. destruct (decide (j = inum)) as [->|Hne]; [rewrite Hself; simpl; rewrite grows_self; tauto|].
    rewrite (grows_addrs j Hj Hne), (grows_mine j b Hj Hne). tauto. }
  split.
  - intros b Hb. destruct (ly_ds _ _ _ _ Hly). apply grows_marked; [unfold is_blk; lia|]. left. by apply (fi_meta _ Hinv).
  - intros j Hj%grows_in_use. by apply grows_file.
  - intros j Hj%grows_in_use. by apply grows_file.
  - intros j j' b Hj%grows_in_use Hj'%grows_in_use. rewrite !Hmine by done. intros [Hm|[-> Hb]] [Hm'|[-> Hb']].
    + by apply (fi_disj _ Hinv j j' b).
    + by destruct (Hfree b j).
    + by destruct (Hfree b j').
    + done.
  - intros b Hb [Hk|Hk]%grows_marked; [| |unfold is_blk, FSSIZE in *; destruct (ly_ds _ _ _ _ Hly); lia].
    + destruct (fi_owner _ Hinv b Hb Hk) as (j & Hj & Hm). exists j. rewrite grows_in_use, Hmine by done. tauto.
    + exists inum. rewrite grows_in_use, Hmine by done. tauto.
Qed.
Lemma grows_others j : j ≠ inum → file_of v' j = file_of v j.
Proof.
  intros Hne. unfold file_of. destruct (decide (in_use v j)) as [Hj|Hj].
  - rewrite decide_True by by apply grows_in_use. rewrite (grows_addrs j Hj Hne). cbv zeta.
    rewrite (fbytes_ext v v'); [done | | by apply fi_there]. intros b. by apply (grows_keep j).
  - rewrite decide_False; [done|]. by rewrite grows_in_use.
Qed.
Lemma grows_this f : fbytes v1 a 0 size = f →
  file_of v' inum = let i := dino v sb inum in Some (FView (i_type i) (i_major i) (i_minor i) (i_nlink i) f).
Proof.
  intros Hf. unfold file_of. rewrite decide_True by by apply grows_in_use. rewrite Hself. simpl. rewrite <- Hf.
  rewrite (fbytes_ext v1 v'); [done | | done]. intros b Hm. apply Hsame. left. eapply mine_data; [apply Hg | done].
Qed.
End grows.

(** ** writei *)

Section writei.
Context {Drv : Disk} {p : nat} {R : wait_reason → kst → kst → Prop} {DL : DiskLaw p R}.
Context (d : kdata) (v : blocks) (bs : list Z) (ip : nat) (i : inode) (off k : Z) (l : list Z).
Context (m' : mach) (d' : kdata) (v1 v' : blocks) (a bs1 bs' : list Z).
Context (Hinv : fs_inv v) (Hu : in_use v (i_inum i)) (Hi : dino_at v sb (i_inum i) i = i).
Context (Hlen : length (v (IBLOCK (i_inum i) sb)) = Z.to_nat BSIZE).
Context (Hoff : 0 <= off <= i_size i) (Hk : 0 <= k) (Hmax : off + k <= MAXFILE * BSIZE) (Hl : Z.of_nat (length l) = k).
Context (Hwd : writei_done sb start nlog ds d v bs ip i off k l m' d' v1 v' a bs1 bs').

Lemma wi_written : written sb ds off k l v (i_addrs i) bs k v1 a bs1.
Proof. by destruct Hwd. Qed.
Lemma wi_v' : v' = if off + k >? i_size i then store_inode sb v1 (grown i a (off + k)) else v1.
Proof. by destruct Hwd. Qed.
Lemma wi_addrs : i_addrs (dino v sb (i_inum i)) = i_addrs i ∧ i_size (dino v sb (i_inum i)) = i_size i.
Proof. by rewrite (dino_fields _ _ _ Hi). Qed.
Lemma wi_file : file_ok sb ds v (i_addrs i) ∧ all_there v (i_addrs i) (i_size i).
Proof. destruct wi_addrs as [<- <-]. split; [by apply fi_file | by apply fi_there]. Qed.
Lemma wi_iblock j : 0 < j < sb_ninodes sb → v1 (IBLOCK j sb) = v (IBLOCK j sb).
Proof.
  intros Hj. destruct (w_grow _ _ _ _ _ _ _ _ _ _ _ _ wi_written) as [new Hg].
  destruct (ly_ino _ _ _ _ Hly j Hj) as (Hb & _ & Hbm). apply (g_same _ _ _ _ _ _ _ Hg); [done | |].
  - intros [_ Hge]%(g_new _ _ _ _ _ _ _ Hg). lia.
  - intros Hm. destruct (fo_data _ _ _ _ (proj1 wi_file) _ Hm). lia.
Qed.

Definition end_size : Z := Z.max (i_size i) (off + k).
Definition end_inode : inode := grown i a end_size.

Lemma wi_stored : dino_at v' sb (i_inum i) end_inode = end_inode
  ∧ (∀ j, 0 < j < sb_ninodes sb → j ≠ i_inum i → ∀ x, dino_at v' sb j x = dino_at v sb j x)
  ∧ (∀ c, ds <= c ∨ c = bm → v' c = v1 c).
Proof.
  destruct wi_file as [Hok Hall]. pose proof wi_written as Hw.
  destruct (w_grow _ _ _ _ _ _ _ _ _ _ _ _ Hw) as [new Hg]. pose proof (proj1 Hu) as Hin. destruct (ly_ds _ _ _ _ Hly) as [Hds _].
  destruct (ly_ino _ _ _ _ Hly _ Hin) as (Hb & _ & Hbm). unfold end_inode, end_size. rewrite wi_v'.
  assert (Hv1 : ∀ j x, 0 < j < sb_ninodes sb → dino_at v1 sb j x = dino_at v sb j x) by (intros j x Hj; unfold dino_at; by rewrite (wi_iblock j Hj)).
  rewrite Z.gtb_ltb. destruct (Z.ltb_spec (i_size i) (off + k)) as [Hext|Hno].
  - rewrite Z.max_r by lia. set (i2 := grown i a (off + k)). change (i_inum i) with (i_inum i2) in *. split_and!.
    + apply dino_store; [by rewrite (wi_iblock _ Hin) | | done]. eapply din_fits_grown; [lia | exact Hi | apply Hg | lia].
    + intros j Hj Hne x. rewrite dino_store_ne; [by apply Hv1 | apply (fo_len _ _ _ _ (g_ok _ _ _ _ _ _ _ Hg)) | done..].
    + intros c Hc. unfold store_inode. rewrite bupd_ne; [done|]. intros ->. destruct Hc as [Hc|Hc]; [lia | done].
  - rewrite Z.max_l by lia. assert (a = i_addrs i) as ->.
    { eapply written_inside; [exact Hoff | exact Hall | exact Hw | done]. }
    replace (grown i (i_addrs i) (i_size i)) with i by (by destruct i). split_and!; [by rewrite Hv1 | | done]. intros j Hj Hne x. by apply Hv1.
Qed.

Lemma wi_result :
  fs_inv v' ∧ (∀ j, j ≠ i_inum i → file_of v' j = file_of v j)
  ∧ file_of v (i_inum i) = Some (FView (i_type i) (i_major i) (i_minor i) (i_nlink i) (fbytes v (i_addrs i) 0 (i_size i)))
  ∧ file_of v' (i_inum i) = Some (FView (i_type i) (i_major i) (i_minor i) (i_nlink i) (splice off l (fbytes v (i_addrs i) 0 (i_size i)))).
Proof.
  destruct wi_file as [Hok Hall]. pose proof wi_written as Hw. destruct wi_stored as (Hst & Hoth & Hsame).
  destruct (w_grow _ _ _ _ _ _ _ _ _ _ _ _ Hw) as [new Hg]. destruct (ly_bm _ _ _ _ Hly) as [Hbm _]. pose proof (dino_fields _ _ _ Hi) as Ef.
  assert (Hgd : grow sb ds v (addrs v (i_inum i)) v1 a new) by by rewrite (proj1 wi_addrs).
  assert (Ho : ∀ j, 0 < j < sb_ninodes sb → j ≠ i_inum i → dino v' sb j = dino v sb j) by (intros j Hj Hne; by apply Hoth).
  assert (Hself : dino v' sb (i_inum i) = dino v sb (i_inum i) <| i_size := end_size |> <| i_addrs := a |>).
  { rewrite (dino_fields _ _ _ Hst), Ef. done. }
  assert (Hth : all_there v1 a end_size) by (eapply written_there; done).
  split_and!.
  - by eapply grows_inv.
  - intros j. by eapply grows_others.
  - unfold file_of. rewrite decide_True by done. by rewrite Ef.
  - rewrite (grows_this v v1 v' (i_inum i) a new end_size Hu Hgd Hsame Ho Hself Hth (splice off l (fbytes v (i_addrs i) 0 (i_size i)))); [by rewrite Ef|].
    eapply written_bytes; done.
Qed.
End writei.
End inv.
