(* ===== verification/Mkfs.v ===== *)
(** * Mkfs: the program that makes the file system image, mkfs.c

    mkfs runs on the host.  Its state is the image file, the next inode and
    the next block.  A file to be copied is given by its name and by what the
    successive calls of read return for it, [None] when it cannot be opened.
    An assertion that fails, a file that cannot be opened, or a sector that
    cannot be read ends the program: the outcome [Panic].  The host is
    little-endian; seeking and writing in the image file succeed. *)

From S2P Require Import Prelude Memory Kstate Cprintf Log Inode Fs.

(** struct dinode: 64 bytes, at these offsets *)
Definition sizeof_dinode : Z := 64.
Definition din_type : Z := 0.
Definition din_nlink : Z := 6.
Definition din_size : Z := 8.
Definition din_addrs (k : Z) : Z := 12 + 4 * k.

Definition NINODES : Z := 200.
Definition nbitmap : Z := FSSIZE / (BSIZE * 8) + 1.
Definition ninodeblocks : Z := NINODES / IPB + 1.
Definition nlog : Z := LOGSIZE.
Definition nmeta : Z := 2 + nlog + ninodeblocks + nbitmap.
Definition nblocks : Z := FSSIZE - nmeta.

(** The image: its length in sectors, and the sectors. *)
Record mkst := Mk {
  mk_len : Z;
  mk_img : Z → list Z;
  mk_freeinode : Z;
  mk_freeblock : Z
}.
#[export] Instance set_mk_freeinode : Setter mk_freeinode := λ f s, Mk (mk_len s) (mk_img s) (f (mk_freeinode s)) (mk_freeblock s).
#[export] Instance set_mk_freeblock : Setter mk_freeblock := λ f s, Mk (mk_len s) (mk_img s) (mk_freeinode s) (f (mk_freeblock s)).

Abbreviation MK := (M Empty_set mkst).

Definition assert (b : bool) : MK unit := if b then mret tt else panic "assertion failed".

(** convert to intel byte order: the word whose bytes in memory are these *)
Definition xshort (x : Z) : Z := word_of [u8 x; u8 (Z.shiftr x 8)].
Definition xint (x : Z) : Z := word_of [u8 x; u8 (Z.shiftr x 8); u8 (Z.shiftr x 16); u8 (Z.shiftr x 24)].

Definition zeroes : list Z := replicate (Z.to_nat BSIZE) 0.

Definition wsect (sec : Z) (buf : list Z) : MK unit :=
  modify (λ s, Mk (Z.max (mk_len s) (sec + 1)) (λ b, if b =? sec then buf else mk_img s b) (mk_freeinode s) (mk_freeblock s)).
Definition rsect (sec : Z) : MK (list Z) :=
  len ← gets mk_len;
  if sec <? len then gets (λ s, mk_img s sec) else panic "read".

(** The super block that main fills in. *)
Definition mk_sb : superblock :=
  Superblock (xint FSSIZE) (xint nblocks) (xint NINODES) (xint nlog) (xint 2) (xint (2 + nlog)) (xint (2 + nlog + ninodeblocks)).
(** ... and its bytes *)
Definition sb_bytes (sb : superblock) : list Z :=
  bytes_of (sb_size sb) ++ bytes_of (sb_nblocks sb) ++ bytes_of (sb_ninodes sb) ++ bytes_of (sb_nlog sb)
  ++ bytes_of (sb_logstart sb) ++ bytes_of (sb_inodestart sb) ++ bytes_of (sb_bmapstart sb).

Definition winode (inum : Z) (ip : list Z) : MK unit :=
  let bn := IBLOCK inum mk_sb in
  buf ← rsect bn;
  wsect bn (list_inserts (Z.to_nat (sizeof_dinode * (inum mod IPB))) ip buf).
Definition rinode (inum : Z) : MK (list Z) :=
  let bn := IBLOCK inum mk_sb in
  buf ← rsect bn;
  mret (take (Z.to_nat sizeof_dinode) (drop (Z.to_nat (sizeof_dinode * (inum mod IPB))) buf)).

Definition mk_ialloc (type : Z) : MK Z :=
  inum ← gets mk_freeinode;
  modify (λ s, s <| mk_freeinode := inum +u 1 |>) ;;
  let din := replicate (Z.to_nat sizeof_dinode) 0 in
  let din := st16 din din_type (xshort type) in
  let din := st16 din din_nlink (xshort 1) in
  let din := st32 din din_size (xint 0) in
  winode inum din ;;
  mret inum.

(** [freeblock++] *)
Definition next_block : MK Z :=
  b ← gets mk_freeblock;
  modify (λ s, s <| mk_freeblock := b +u 1 |>) ;;
  mret b.

(** [for(i = 0; i < used; i++) buf[i/8] = buf[i/8] | (0x1 << (i%8));] *)
Fixpoint mark_used (k : nat) (i : Z) (buf : list Z) : list Z :=
  match k with
  | O => buf
  | S k' => mark_used k' (i + 1) (alter (λ c, u8 (Z.lor c (Z.shiftl 1 (i mod 8)))) (Z.to_nat (i / 8)) buf)
  end.
Definition mk_balloc (used : Z) : MK unit :=
  assert (used <? BSIZE * 8) ;;
  wsect (sb_bmapstart mk_sb) (mark_used (Z.to_nat used) 0 zeroes).

(** The block of the file with number [fbn], allocated if it is not there: the
    first half of the loop of iappend.  [din] is the inode. *)
Definition iappend_block (din : list Z) (fbn : Z) : MK (list Z * Z) :=
  if fbn <? NDIRECT then
    din ← (if xint (ld32 din (din_addrs fbn)) =? 0
           then b ← next_block; mret (st32 din (din_addrs fbn) (xint b)) else mret din);
    mret (din, xint (ld32 din (din_addrs fbn)))
  else
    din ← (if xint (ld32 din (din_addrs NDIRECT)) =? 0
           then b ← next_block; mret (st32 din (din_addrs NDIRECT) (xint b)) else mret din);
    indirect ← rsect (xint (ld32 din (din_addrs NDIRECT)));
    indirect ← (if ld32 indirect (4 * (fbn - NDIRECT)) =? 0
                then b ← next_block;
                     let indirect := st32 indirect (4 * (fbn - NDIRECT)) (xint b) in
                     wsect (xint (ld32 din (din_addrs NDIRECT))) indirect ;;
                     mret indirect
                else mret indirect);
    mret (din, xint (ld32 indirect (4 * (fbn - NDIRECT)))).

(** The loop of iappend on the bytes [p] that are left; every round takes one
    at least.  The result is the inode and the offset. *)
Fixpoint iappend_loop (fuel : nat) (din : list Z) (off : Z) (p : list Z) : MK (list Z * Z) :=
  match fuel with
  | O => out_of_fuel
  | S fuel' =>
    if bool_decide (p = []) then mret (din, off) else
    let fbn := off / BSIZE in
    assert (fbn <? MAXFILE) ;;
    '(din, x) ← iappend_block din fbn;
    let n1 := Z.min (Z.of_nat (length p)) ((fbn + 1) * BSIZE - off) in
    buf ← rsect x;
    wsect x (list_inserts (Z.to_nat (off - fbn * BSIZE)) (take (Z.to_nat n1) p) buf) ;;
    iappend_loop fuel' din (off +u n1) (drop (Z.to_nat n1) p)
  end.
Definition iappend (inum : Z) (p : list Z) : MK unit :=
  din ← rinode inum;
  let off := xint (ld32 din din_size) in
  '(din, off) ← iappend_loop (S (length p)) din off p;
  winode inum (st32 din din_size (xint off)).

(** bzero, then the inode number and the name (strcpy of a short name and
    strncpy are the same here) *)
Definition mk_dirent (inum : Z) (name : list Z) : list Z :=
  list_inserts 2 (strncpy_l (Z.to_nat DIRSIZ) name) (st16 (replicate 16 0) 0 (xshort inum)).

(** A file on the command line. *)
Record hostfile := HostFile { hf_name : list Z; hf_reads : option (list (list Z)) }.

(** [if(argv[i][0] == '_') ++argv[i];] *)
Definition skip_underscore (name : list Z) : list Z :=
  match name with c :: name' => if c =? 95 then name' else name | [] => [] end.

Definition mk_file (rootino : Z) (f : hostfile) : MK unit :=
  assert (bool_decide (slash ∉ hf_name f)) ;;
  match hf_reads f with
  | None => panic "open"
  | Some reads =>
    let name := skip_underscore (hf_name f) in
    inum ← mk_ialloc T_FILE;
    iappend rootino (mk_dirent inum name) ;;
    forM reads (iappend inum)
  end.

(** The first half of main: the empty file system. *)
Definition mk_root : MK Z :=
  forM (seqZ 0 FSSIZE) (λ i, wsect i zeroes) ;;
  wsect 1 (list_inserts 0 (sb_bytes mk_sb) zeroes) ;;
  rootino ← mk_ialloc T_DIR;
  assert (rootino =? ROOTINO) ;;
  iappend rootino (mk_dirent rootino (str ".")) ;;
  iappend rootino (mk_dirent rootino (str "..")) ;;
  mret rootino.
(** The end of main: the size of the root directory is rounded up, and the
    free map is written. *)
Definition mk_finish (rootino : Z) : MK unit :=
  din ← rinode rootino;
  let off := xint (ld32 din din_size) in
  let off := (off / BSIZE + 1) * BSIZE in
  winode rootino (st32 din din_size (xint off)) ;;
  used ← gets mk_freeblock;
  mk_balloc used.
Definition mkfs_main (files : list hostfile) : MK unit :=
  modify (λ s, s <| mk_freeblock := nmeta |>) ;;
  rootino ← mk_root;
  forM files (mk_file rootino) ;;
  mk_finish rootino.

(** The state when main begins: an empty image file. *)
Definition mk_start : mkst := Mk 0 (λ _, zeroes) 1 0.
