(* ===== verification/MkfsFacts.v ===== *)
(** * MkfsFacts: what mkfs puts into the image

    A file is described by its bytes and the blocks that hold them ([afile]);
    [disk_ok] says that files have blocks of their own below the next free
    one, [prog] describes the image while iappend is at work on one of them. *)

From S2P Require Import Prelude Memory Kstate Cprintf Log Inode Fs BioFacts Mkfs.

Lemma u32_u8_bytes x : word_of [u8 x; u8 (x / 2 ^ 8); u8 (x / 2 ^ 16); u8 (x / 2 ^ 24)] = u32 x.
Proof. apply word_of_bytes. Qed.
Lemma xint_u32 x : xint x = u32 x.
Proof. unfold xint. rewrite !Z.shiftr_div_pow2 by lia. apply u32_u8_bytes. Qed.
Lemma xshort_u16 x : xshort x = u16 x.
Proof. unfold xshort. rewrite !Z.shiftr_div_pow2 by lia. apply word_of_bytes16. Qed.

(** ** Sectors *)

Definition sectors (img : Z → list Z) : Prop := ∀ b, 0 <= b < FSSIZE → length (img b) = Z.to_nat BSIZE.
Definition upd (img : Z → list Z) (sec : Z) (l : list Z) : Z → list Z := λ b, if b =? sec then l else img b.
Lemma upd_eq img b l : upd img b l b = l.
Proof. unfold upd. by rewrite Z.eqb_refl. Qed.
Lemma upd_ne img b l b' : b' ≠ b → upd img b l b' = img b'.
Proof. intros H. unfold upd. by rewrite (proj2 (Z.eqb_neq _ _) H). Qed.
Lemma sectors_upd img b l : sectors img → length l = Z.to_nat BSIZE → sectors (upd img b l).
Proof. intros Hs Hl b' Hb'. unfold upd. destruct (b' =? b); auto. Qed.

Lemma rsect_done n s b : b < mk_len s → rsect b n s = Done (mk_img s b) s.
Proof. intros Hb. unfold rsect. kstep. by rewrite (proj2 (Z.ltb_lt _ _) Hb). Qed.
Lemma wsect_done n len img fi fb b l :
  0 <= b < len → wsect b l n (Mk len img fi fb) = Done tt (Mk len (upd img b l) fi fb).
Proof. intros Hb. unfold wsect. kstep. by rewrite Z.max_l by lia. Qed.

(** ** Inodes *)

Definition din_of (img : Z → list Z) (inum : Z) : list Z :=
  slice (Z.to_nat (sizeof_dinode * (inum mod IPB))) (Z.to_nat sizeof_dinode) (img (IBLOCK inum mk_sb)).
Definition inode_block (b : Z) : Prop := 32 <= b < 58.
Definition is_inum (inum : Z) : Prop := 0 <= inum < NINODES.

Lemma iblock_range inum : is_inum inum → inode_block (IBLOCK inum mk_sb) ∧ IBLOCK inum mk_sb = inum / 8 + 32.
Proof.
  intros [H0 H1]. unfold IBLOCK. change (sb_inodestart mk_sb) with 32. change IPB with 8. unfold NINODES in H1.
  rewrite u32_small by (unfold is_u32; Z.div_mod_to_equations; lia). unfold inode_block. Z.div_mod_to_equations. lia.
Qed.
Lemma inum_slot inum : 0 <= sizeof_dinode * (inum mod IPB) ∧ sizeof_dinode * (inum mod IPB) + sizeof_dinode <= BSIZE.
Proof. change IPB with 8. pose proof (Z.mod_pos_bound inum 8 ltac:(done)). unfold sizeof_dinode, BSIZE. lia. Qed.

Lemma rinode_done n s inum : mk_len s = FSSIZE → is_inum inum → rinode inum n s = Done (din_of (mk_img s) inum) s.
Proof.
  intros Hl Hi. destruct (iblock_range inum Hi) as [Hb _]. unfold rinode.
  rewrite (bind_done _ _ _ _ _ _ (rsect_done n s (IBLOCK inum mk_sb) ltac:(rewrite Hl; unfold inode_block, FSSIZE in *; lia))). done.
Qed.

(** The image with the inode replaced. *)
Definition put_inode (img : Z → list Z) (inum : Z) (din : list Z) : Z → list Z :=
  upd img (IBLOCK inum mk_sb) (list_inserts (Z.to_nat (sizeof_dinode * (inum mod IPB))) din (img (IBLOCK inum mk_sb))).
Lemma winode_done n img fi fb inum din :
  is_inum inum → winode inum din n (Mk FSSIZE img fi fb) = Done tt (Mk FSSIZE (put_inode img inum din) fi fb).
Proof.
  intros Hi. destruct (iblock_range inum Hi) as [Hb _]. unfold winode, inode_block in *.
  rewrite (bind_done _ _ _ _ _ _ (rsect_done n (Mk FSSIZE img fi fb) (IBLOCK inum mk_sb) ltac:(simpl; unfold FSSIZE; lia))).
  rewrite wsect_done by (unfold FSSIZE; lia). done.
Qed.
Lemma put_inode_sectors img inum din : sectors img → is_inum inum → sectors (put_inode img inum din).
Proof.
  intros Hs Hi. destruct (iblock_range inum Hi) as [Hb _]. apply sectors_upd; [done|]. rewrite length_inserts.
  apply Hs. unfold inode_block, FSSIZE in *. lia.
Qed.
Lemma put_inode_block img inum din b : is_inum inum → ¬ inode_block b → put_inode img inum din b = img b.
Proof. intros Hi Hb. destruct (iblock_range inum Hi) as [Hb' _]. apply upd_ne. intros ->. done. Qed.
Lemma put_inode_eq img inum din :
  sectors img → is_inum inum → length din = Z.to_nat sizeof_dinode → din_of (put_inode img inum din) inum = din.
Proof.
  intros Hs Hi Hl. destruct (iblock_range inum Hi) as [Hb _]. unfold din_of, put_inode. rewrite upd_eq, <- Hl.
  apply slice_inserts_eq. rewrite Hl, Hs by (unfold inode_block, FSSIZE in *; lia). pose proof (inum_slot inum). unfold sizeof_dinode in *. lia.
Qed.
Lemma put_inode_ne img inum inum' din :
  is_inum inum → is_inum inum' → inum' ≠ inum → length din = Z.to_nat sizeof_dinode →
  din_of (put_inode img inum din) inum' = din_of img inum'.
Proof.
  intros Hi Hi' Hne Hl. destruct (iblock_range inum Hi) as [_ E], (iblock_range inum' Hi') as [_ E']. unfold din_of, put_inode.
  destruct (decide (IBLOCK inum' mk_sb = IBLOCK inum mk_sb)) as [Eb|Hb]; [|by rewrite upd_ne].
  rewrite Eb, upd_eq. apply slice_inserts_ne. rewrite Hl.
  pose proof (inum_slot inum). pose proof (inum_slot inum'). unfold sizeof_dinode in *.
  assert (inum mod IPB ≠ inum' mod IPB).
  { rewrite E, E' in Eb. change IPB with 8. pose proof (Z.div_mod inum 8 ltac:(done)). pose proof (Z.div_mod inum' 8 ltac:(done)). lia. }
  lia.
Qed.

(** ** Files *)

Record afile := AFile { a_type : Z; a_data : list Z; a_blks : list Z; a_ind : Z }.

(** The contents of block [j] of a file: its bytes, then zeros. *)
Definition page (data : list Z) (j : nat) : list Z :=
  (λ o, default 0 (data !! (512 * j + o)%nat)) <$> seq 0 512.
Lemma page_length data j : length (page data j) = 512%nat.
Proof. unfold page. by rewrite length_fmap, length_seq. Qed.
Lemma page_lookup data j o : (o < 512)%nat → page data j !! o = Some (default 0 (data !! (512 * j + o)%nat)).
Proof. intros Ho. unfold page. rewrite list_lookup_fmap, lookup_seq_lt by done. done. Qed.
Lemma page_old data q j : (512 * (j + 1) <= length data)%nat → page (data ++ q) j = page data j.
Proof.
  intros Hj. unfold page. apply list_fmap_ext. intros i o [-> Ho]%lookup_seq. simpl. by rewrite lookup_app_l by lia.
Qed.
Lemma page_empty data j : (length data <= 512 * j)%nat → page data j = zeroes.
Proof.
  intros Hj. apply list_eq_same_length with 512%nat; [apply length_replicate | apply page_length |].
  intros i x y Hi. rewrite page_lookup by done. rewrite lookup_ge_None_2 by lia. unfold zeroes.
  rewrite lookup_replicate_2 by (unfold BSIZE; lia). simpl. congruence.
Qed.
(** Appending within the last block. *)
Lemma page_append data q j :
  (512 * j <= length data)%nat → (length data + length q <= 512 * (j + 1))%nat →
  list_inserts (length data - 512 * j) q (page data j) = page (data ++ q) j.
Proof.
  intros H1 H2. apply list_eq_same_length with 512%nat; [apply page_length | by rewrite length_inserts, page_length |].
  intros o x y Ho. rewrite (page_lookup _ j o Ho). destruct (decide (o < length data - 512 * j)%nat) as [Hlt|Hge].
  - rewrite list_lookup_inserts_lt, page_lookup by done. rewrite lookup_app_l by lia. congruence.
  - rewrite lookup_app_r by lia. destruct (decide (o < length data - 512 * j + length q)%nat) as [Hlt'|Hge'].
    + rewrite list_lookup_inserts by (rewrite ?page_length; lia). replace (512 * j + o - length data)%nat with (o - (length data - 512 * j))%nat by lia.
      destruct (q !! (o - (length data - 512 * j))%nat); simpl; congruence.
    + rewrite list_lookup_inserts_ge, page_lookup by lia. rewrite !lookup_ge_None_2 by lia. congruence.
Qed.

(** The number of data blocks and of all blocks of a file with [len] bytes. *)
Definition nb (len : nat) : nat := (len + 511) / 512.
Definition need (len : nat) : nat := nb len + (if decide (12 < nb len)%nat then 1 else 0).

(** The inode [din] and the blocks hold the file. *)
Record file_body (img : Z → list Z) (din : list Z) (f : afile) : Prop := {
  fb_len : length din = Z.to_nat sizeof_dinode;
  fb_type : ld16 din din_type = a_type f;
  fb_nlink : ld16 din din_nlink = 1;
  fb_direct j : (j < 12)%nat → ld32 din (din_addrs (Z.of_nat j)) = default 0 (a_blks f !! j);
  fb_indirect : ld32 din (din_addrs NDIRECT) = a_ind f;
  fb_ind j : a_ind f ≠ 0 → (j < 128)%nat → ld32 (img (a_ind f)) (4 * Z.of_nat j) = default 0 (a_blks f !! (12 + j)%nat);
  fb_ind0 : (12 < length (a_blks f))%nat → a_ind f ≠ 0;
  fb_max : (length (a_blks f) <= 140)%nat;
  fb_block j b : a_blks f !! j = Some b → img b = page (a_data f) j
}.
(** All its blocks; 0 stands for no indirect block. *)
Definition owned (f : afile) : list Z := a_ind f :: a_blks f.

Lemma file_body_frame img img' din f :
  (∀ b, b ∈ owned f → b ≠ 0 → img' b = img b) → (∀ b, b ∈ a_blks f → b ≠ 0) → file_body img din f → file_body img' din f.
Proof.
  intros Hi Hnz [H1 H2 H3 H4 H5 H6 H7 H8 H9]. split; try done.
  - intros j Hj Hlt. rewrite Hi; [auto | by apply list_elem_of_here | done].
  - intros j b Hb. pose proof (list_elem_of_lookup_2 _ _ _ Hb) as Hin. rewrite Hi; [auto | by apply list_elem_of_further | auto].
Qed.

(** ** The image *)

(** What is before the inodes: the boot block, the super block and the log. *)
Definition low (b : Z) : list Z := if b =? 1 then list_inserts 0 (sb_bytes mk_sb) zeroes else zeroes.

Record disk_ok (img : Z → list Z) (fb : Z) (F : list afile) : Prop := {
  do_sec : sectors img;
  do_free b : fb <= b < FSSIZE → img b = zeroes;
  do_fb : nmeta <= fb <= FSSIZE;
  do_own k f b : F !! k = Some f → b ∈ owned f → b ≠ 0 → nmeta <= b < fb;
  do_nz k f b : F !! k = Some f → b ∈ a_blks f → b ≠ 0;
  do_uniq k1 k2 i1 i2 f1 f2 b : F !! k1 = Some f1 → F !! k2 = Some f2 →
    owned f1 !! i1 = Some b → owned f2 !! i2 = Some b → b ≠ 0 → k1 = k2 ∧ i1 = i2;
  do_cnt : Z.of_nat (length F) < NINODES;
  do_low b : 0 <= b < 32 → img b = low b
}.
Definition inum_of (k : nat) : Z := Z.of_nat k + 1.

(** The file with number [inum] on the image. *)
Definition holds (img : Z → list Z) (inum : Z) (f : afile) : Prop :=
  file_body img (din_of img inum) f ∧ ld32 (din_of img inum) din_size = Z.of_nat (length (a_data f)).

(** The inodes above [n] are not in use. *)
Definition unused_inodes (img : Z → list Z) (n : nat) : Prop := ∀ inum, Z.of_nat n < inum < NINODES → ld16 (din_of img inum) din_type = 0.

(** The file at [k] is being changed: its inode is [din] and it is now [f]. *)
Record prog (img : Z → list Z) (fb : Z) (F : list afile) (k : nat) (din : list Z) (f : afile) : Prop := {
  pr_k : (k < length F)%nat;
  pr_disk : disk_ok img fb (<[k := f]> F);
  pr_body : file_body img din f;
  pr_rest j g : j ≠ k → F !! j = Some g → holds img (inum_of j) g;
  pr_unused : unused_inodes img (length F)
}.

Lemma nmeta_eq : nmeta = 59.
Proof. reflexivity. Qed.

Section prog.
Context (img : Z → list Z) (fb : Z) (F : list afile) (k : nat) (din : list Z) (f : afile) (Hp : prog img fb F k din f).

Lemma prog_at g : <[k := g]> F !! k = Some g.
Proof. apply list_lookup_insert_eq, Hp. Qed.
Lemma prog_own b : b ∈ owned f → b ≠ 0 → nmeta <= b < fb.
Proof. apply (do_own _ _ _ (pr_disk _ _ _ _ _ _ Hp) k f b (prog_at f)). Qed.
Lemma prog_nz b : b ∈ a_blks f → b ≠ 0.
Proof. apply (do_nz _ _ _ (pr_disk _ _ _ _ _ _ Hp) k f b (prog_at f)). Qed.
(** Other files do not have the blocks of this one. *)
Lemma prog_other j g b : j ≠ k → F !! j = Some g → b ∈ owned g → b ≠ 0 → (b ∉ owned f) ∧ nmeta <= b < fb.
Proof.
  intros Hne Hj Hb H0. pose proof (pr_disk _ _ _ _ _ _ Hp) as Hd. assert (Hj' : <[k := f]> F !! j = Some g) by by rewrite list_lookup_insert_ne.
  split; [|by eapply do_own]. intros Hf. apply list_elem_of_lookup in Hf as [i1 H1], Hb as [i2 H2].
  by destruct (do_uniq _ _ _ Hd k j i1 i2 f g b (prog_at f) Hj' H1 H2 H0).
Qed.
Lemma not_inode_block b : nmeta <= b → ¬ inode_block b.
Proof. unfold inode_block. rewrite nmeta_eq. lia. Qed.
Lemma din_of_same img' inum : is_inum inum → (∀ b, inode_block b → img' b = img b) → din_of img' inum = din_of img inum.
Proof. intros Hi He. unfold din_of. rewrite He; [done|]. by destruct (iblock_range inum Hi). Qed.

(** Nothing but the file's own blocks, or free ones, changes. *)
Lemma prog_change img' fb' din' f' :
  file_body img' din' f' → disk_ok img' fb' (<[k := f']> F) →
  (∀ b, b ∉ owned f → b < fb → img' b = img b) → prog img' fb' F k din' f'.
Proof.
  intros Hb Hd Hi. pose proof (pr_disk _ _ _ _ _ _ Hp) as Hd0. assert (Hib : ∀ b, inode_block b → img' b = img b).
  { intros b Hib. apply Hi; [|pose proof (do_fb _ _ _ Hd0); rewrite nmeta_eq in *; unfold inode_block in Hib; lia].
    intros Hin. destruct (decide (b = 0)) as [->|H0]; [unfold inode_block in Hib; lia|].
    pose proof (prog_own b Hin H0). by apply (not_inode_block b); [lia|]. }
  split; [apply Hp | done | done | |].
  2:{ intros inum Hinum. rewrite (din_of_same img' inum); [by apply (pr_unused _ _ _ _ _ _ Hp) | unfold is_inum; lia | done]. }
  intros j g Hne Hj.
  assert (Hinum : is_inum (inum_of j)).
  { pose proof (lookup_lt_Some _ _ _ Hj). pose proof (do_cnt _ _ _ Hd0) as Hc. rewrite length_insert in Hc. unfold is_inum, inum_of. lia. }
  destruct (pr_rest _ _ _ _ _ _ Hp j g Hne Hj) as [Hgb Hgs]. unfold holds. rewrite (din_of_same img' (inum_of j)).
  - split; [|done]. eapply file_body_frame; [| | done].
    + intros b Hbg H0. destruct (prog_other j g b Hne Hj Hbg H0) as [Hno Hr]. apply Hi; [done | lia].
    + intros b Hbg. apply (do_nz _ _ _ Hd0 j g b); [by rewrite list_lookup_insert_ne | done].
  - done.
  - done.
Qed.

(** One more block of the file: the next free one, at index [i0] of [owned]. *)
Lemma disk_ok_grow img' f' i0 :
  fb < FSSIZE → sectors img' → (∀ b, fb < b < FSSIZE → img' b = zeroes) →
  (∀ i b, owned f' !! i = Some b → b ≠ 0 → b = fb ∧ i = i0 ∨ owned f !! i = Some b) →
  (∀ b, b ∈ a_blks f' → b = fb ∨ b ∈ a_blks f) → (∀ b, b < nmeta → img' b = img b) →
  disk_ok img' (fb + 1) (<[k := f']> F).
Proof.
  intros Hfb Hs Hz Ho Hb Hlow. pose proof (pr_disk _ _ _ _ _ _ Hp) as Hd. pose proof (do_fb _ _ _ Hd) as Hr. rewrite nmeta_eq in Hr.
  assert (Hold : ∀ j g i b, <[k := f']> F !! j = Some g → owned g !! i = Some b → b ≠ 0 →
    (b = fb ∧ j = k ∧ i = i0) ∨ (b < fb ∧ nmeta <= b ∧ ∃ g', <[k := f]> F !! j = Some g' ∧ owned g' !! i = Some b)).
  { intros j g i b [[-> ->]|[Hne Hj]]%insert_cases Hi H0.
    - destruct (Ho i b Hi H0) as [[-> ->]|Hi']; [by left|right]. pose proof (prog_own b (list_elem_of_lookup_2 _ _ _ Hi') H0).
      split_and!; [lia | lia |]. exists f. split; [apply prog_at | done].
    - right. destruct (prog_other j g b Hne Hj (list_elem_of_lookup_2 _ _ _ Hi) H0) as [_ ?]. split_and!; [lia | lia |].
      exists g. by rewrite list_lookup_insert_ne. }
  split; try done.
  - intros b Hbb. apply Hz. lia.
  - rewrite nmeta_eq. lia.
  - intros j g b Hj Hbo H0. apply list_elem_of_lookup in Hbo as [i Hi].
    destruct (Hold j g i b Hj Hi H0) as [[-> _]|(? & ? & _)]; [rewrite nmeta_eq|]; lia.
  - intros j g b [[-> ->]|[Hne Hj]]%insert_cases Hbb.
    + destruct (Hb b Hbb) as [->|Hin]; [lia|]. by apply prog_nz.
    + apply (do_nz _ _ _ Hd j g b); [by rewrite list_lookup_insert_ne | done].
  - intros k1 k2 i1 i2 f1 f2 b H1 H2 Hi1 Hi2 H0.
    destruct (Hold k1 f1 i1 b H1 Hi1 H0) as [(-> & -> & ->)|(Hl1 & _ & g1 & G1 & O1)],
      (Hold k2 f2 i2 _ H2 Hi2 H0) as [(E2 & -> & ->)|(Hl2 & _ & g2 & G2 & O2)]; try lia.
    by apply (do_uniq _ _ _ Hd k1 k2 i1 i2 g1 g2 b).
  - pose proof (do_cnt _ _ _ Hd) as Hc. by rewrite length_insert in *.
  - intros b Hb'. rewrite Hlow by (rewrite nmeta_eq; lia). by apply (do_low _ _ _ Hd).
Qed.
(** The same blocks with another contents. *)
Lemma disk_ok_rewrite img' f' :
  a_blks f' = a_blks f → a_ind f' = a_ind f → sectors img' → (∀ b, fb <= b < FSSIZE → img' b = img b) → (∀ b, b < nmeta → ¬ inode_block b → img' b = img b) →
  disk_ok img' fb (<[k := f']> F).
Proof.
  intros Eb Ei Hs Hz Hlow. pose proof (pr_disk _ _ _ _ _ _ Hp) as Hd.
  assert (Hg : ∀ j g, <[k := f']> F !! j = Some g → ∃ g', <[k := f]> F !! j = Some g' ∧ owned g' = owned g ∧ a_blks g' = a_blks g).
  { intros j g [[-> ->]|[Hne Hj]]%insert_cases.
    - exists f. unfold owned. rewrite Eb, Ei. split_and!; [apply prog_at | done | done].
    - exists g. by rewrite list_lookup_insert_ne. }
  split.
  - done.
  - intros b Hb. rewrite Hz by done. by apply (do_free _ _ _ Hd).
  - apply Hd.
  - intros j g b (g' & Hj & <- & _)%Hg. by apply (do_own _ _ _ Hd j).
  - intros j g b (g' & Hj & _ & <-)%Hg. by apply (do_nz _ _ _ Hd j).
  - intros k1 k2 i1 i2 f1 f2 b (g1 & H1 & <- & _)%Hg (g2 & H2 & <- & _)%Hg. by apply (do_uniq _ _ _ Hd).
  - pose proof (do_cnt _ _ _ Hd) as Hc. by rewrite length_insert in *.
  - intros b Hb. rewrite Hlow by (rewrite ?nmeta_eq; unfold inode_block; lia). by apply (do_low _ _ _ Hd).
Qed.
End prog.

(** ** Allocating blocks in iappend *)

Definition with_ind (f : afile) (b : Z) : afile := AFile (a_type f) (a_data f) (a_blks f) b.
Definition with_blk (f : afile) (b : Z) : afile := AFile (a_type f) (a_data f) (a_blks f ++ [b]) (a_ind f).

Lemma ld_addrs_eq din j b : length din = Z.to_nat sizeof_dinode → 0 <= j <= 12 → 0 <= b < 2 ^ 32 →
  ld32 (st32 din (din_addrs j) b) (din_addrs j) = b.
Proof.
  intros Hl Hj Hb. rewrite ld32_st32 by (rewrite ?Hl; unfold din_addrs, sizeof_dinode; lia). by apply u32_small.
Qed.
Lemma ld_addrs_ne din j j' b : 0 <= j → 0 <= j' → j ≠ j' →
  ld32 (st32 din (din_addrs j) b) (din_addrs j') = ld32 din (din_addrs j').
Proof. intros. apply ld32_st32_ne; unfold din_addrs; lia. Qed.
Lemma ld_head_addrs din j b : 0 <= j →
  ld16 (st32 din (din_addrs j) b) din_type = ld16 din din_type ∧ ld16 (st32 din (din_addrs j) b) din_nlink = ld16 din din_nlink
  ∧ ld32 (st32 din (din_addrs j) b) din_size = ld32 din din_size.
Proof.
  intros. split_and!; [apply ld16_st32_ne | apply ld16_st32_ne | apply ld32_st32_ne];
    unfold din_addrs, din_type, din_nlink, din_size; lia.
Qed.
Lemma ld32_zeroes j : ld32 zeroes j = 0.
Proof.
  unfold ld32, zeroes. rewrite drop_replicate, take_replicate.
  generalize (4 `min` (Z.to_nat BSIZE - Z.to_nat j))%nat. induction n as [|n IH]; [done|]. simpl. unfold word_of in *. simpl. rewrite IH. done.
Qed.

Section alloc.
Context (img : Z → list Z) (fb : Z) (F : list afile) (k : nat) (din : list Z) (f : afile) (Hp : prog img fb F k din f).
Context (Hfb : fb < FSSIZE).

Lemma fb_range : 59 <= fb < 2000.
Proof. pose proof (do_fb _ _ _ (pr_disk _ _ _ _ _ _ Hp)) as H. rewrite nmeta_eq in H. unfold FSSIZE in *. lia. Qed.
Lemma fb_zero : img fb = zeroes.
Proof. apply (do_free _ _ _ (pr_disk _ _ _ _ _ _ Hp)). lia. Qed.
Lemma fb_fresh : fb ∉ owned f.
Proof. intros H. pose proof (prog_own _ _ _ _ _ _ Hp fb H) as Hr. pose proof fb_range. lia. Qed.
Lemma free_later b : fb < b < FSSIZE → img b = zeroes.
Proof. intros. apply (do_free _ _ _ (pr_disk _ _ _ _ _ _ Hp)). lia. Qed.
Lemma owned_blk i b : owned (with_blk f fb) !! i = Some b → b = fb ∧ i = S (length (a_blks f)) ∨ owned f !! i = Some b.
Proof.
  unfold owned. simpl. destruct i as [|i]; simpl; [by right|]. intros [?|(Hi & Hb)]%lookup_app_Some; [by right|].
  apply list_lookup_singleton_Some in Hb as [Hi0 <-]. left. split; [done|]. lia.
Qed.
Lemma with_blk_blks b : b ∈ a_blks (with_blk f fb) → b = fb ∨ b ∈ a_blks f.
Proof. simpl. rewrite elem_of_app, list_elem_of_singleton. tauto. Qed.
Lemma blk_page j b :
  (length (a_data f) <= 512 * length (a_blks f))%nat → (a_blks f ++ [fb]) !! j = Some b →
  img b = page (a_data f) j.
Proof.
  intros Hd [Hj|(Hj & Hb)]%lookup_app_Some; [by apply (fb_block _ _ _ (pr_body _ _ _ _ _ _ Hp))|].
  apply list_lookup_singleton_Some in Hb as [Hj0 <-]. rewrite page_empty by lia. apply fb_zero.
Qed.

(** A direct block. *)
Lemma alloc_direct :
  (length (a_blks f) < 12)%nat → (length (a_data f) <= 512 * length (a_blks f))%nat →
  prog img (fb + 1) F k (st32 din (din_addrs (Z.of_nat (length (a_blks f)))) fb) (with_blk f fb).
Proof.
  intros Hlt Hd. pose proof fb_range as Hr. destruct (pr_body _ _ _ _ _ _ Hp) as [H1 H2 H3 H4 H5 H6 H7 H8 H9].
  destruct (ld_head_addrs din (Z.of_nat (length (a_blks f))) fb) as (E1 & E2 & _); [lia|].
  eapply (prog_change _ _ _ _ _ _ Hp); [|eapply (disk_ok_grow _ _ _ _ _ _ Hp)|done].
  - split; simpl; rewrite ?length_st32, ?E1, ?E2, ?length_app; simpl; try done; try lia.
    + intros j Hj. destruct (decide (j = length (a_blks f))) as [->|Hne].
      * rewrite ld_addrs_eq by (done || lia). by rewrite lookup_app_r, Nat.sub_diag by lia.
      * rewrite ld_addrs_ne by lia. rewrite H4 by done. f_equal. destruct (decide (j < length (a_blks f))%nat).
        -- by rewrite lookup_app_l. 
        -- rewrite !lookup_ge_None_2; [done | rewrite length_app; simpl; lia | lia].
    + rewrite <- H5. apply ld_addrs_ne; unfold NDIRECT; lia.
    + intros j Hj Hlt'. rewrite (H6 j Hj Hlt'), !lookup_ge_None_2; [done | rewrite length_app; simpl; lia | lia].
    + intros j b. by apply blk_page.
  - done.
  - apply (do_sec _ _ _ (pr_disk _ _ _ _ _ _ Hp)).
  - apply free_later.
  - intros i b Hi _. by apply owned_blk.
  - apply with_blk_blks.
  - done.
Qed.
(** The indirect block. *)
Lemma alloc_ind :
  a_ind f = 0 → (length (a_blks f) <= 12)%nat →
  prog img (fb + 1) F k (st32 din (din_addrs NDIRECT) fb) (with_ind f fb).
Proof.
  intros H0 Hle. pose proof fb_range as Hr. destruct (pr_body _ _ _ _ _ _ Hp) as [H1 H2 H3 H4 H5 H6 H7 H8 H9].
  destruct (ld_head_addrs din NDIRECT fb) as (E1 & E2 & _); [done|].
  eapply (prog_change _ _ _ _ _ _ Hp); [|eapply (disk_ok_grow _ _ _ _ _ _ Hp _ _ 0%nat)|done].
  - split; simpl; rewrite ?length_st32, ?E1, ?E2; try done.
    + intros j Hj. rewrite ld_addrs_ne by (unfold NDIRECT; lia). auto.
    + apply ld_addrs_eq; [done | unfold NDIRECT; lia | lia].
    + intros j _ Hlt'. rewrite fb_zero, ld32_zeroes, lookup_ge_None_2 by lia. done.
    + intros _. lia.
  - done.
  - apply (do_sec _ _ _ (pr_disk _ _ _ _ _ _ Hp)).
  - apply free_later.
  - intros [|i] b; simpl; [|by right]. intros [= <-] _. by left.
  - by right.
  - done.
Qed.
(** A block through the indirect block. *)
Lemma alloc_indirect j :
  a_ind f ≠ 0 → (length (a_blks f) = 12 + j)%nat → (j < 128)%nat → (length (a_data f) <= 512 * length (a_blks f))%nat →
  prog (upd img (a_ind f) (st32 (img (a_ind f)) (4 * Z.of_nat j) fb)) (fb + 1) F k din (with_blk f fb).
Proof.
  intros H0 Hlen Hj Hd. pose proof fb_range as Hr. pose proof (pr_body _ _ _ _ _ _ Hp) as Hb. destruct Hb as [H1 H2 H3 H4 H5 H6 H7 H8 H9].
  pose proof (prog_own _ _ _ _ _ _ Hp (a_ind f) (list_elem_of_here _ _) H0) as Hind. rewrite nmeta_eq in Hind.
  pose proof (do_sec _ _ _ (pr_disk _ _ _ _ _ _ Hp)) as Hs.
  assert (Hil : length (img (a_ind f)) = Z.to_nat BSIZE) by (apply Hs; unfold FSSIZE; lia).
  assert (Hnb : ∀ i b, (a_blks f ++ [fb]) !! i = Some b → b ≠ a_ind f).
  { intros i b [Hi|(Hi & Hb)]%lookup_app_Some ->.
    - destruct (do_uniq _ _ _ (pr_disk _ _ _ _ _ _ Hp) k k 0 (S i) f f (a_ind f)) as [_ ?]; [apply (prog_at _ _ _ _ _ _ Hp)..| | | |]; done.
    - apply list_lookup_singleton_Some in Hb as [_ ?]. lia. }
  eapply (prog_change _ _ _ _ _ _ Hp); [|eapply (disk_ok_grow _ _ _ _ _ _ Hp)|].
  - split; simpl; rewrite ?length_app; simpl; try done; try lia.
    + intros i Hi. rewrite H4 by done. by rewrite lookup_app_l by lia.
    + intros i _ Hi. rewrite upd_eq. destruct (decide (i = j)) as [->|Hne].
      * rewrite ld32_st32 by (rewrite ?Hil; unfold BSIZE; lia). rewrite u32_small by (unfold is_u32; lia).
        by rewrite lookup_app_r, Hlen, Nat.sub_diag by lia.
      * rewrite ld32_st32_ne by lia. rewrite H6 by done. f_equal. destruct (decide (i < j)%nat).
        -- by rewrite lookup_app_l by lia.
        -- rewrite !lookup_ge_None_2; [done | rewrite length_app; simpl; lia | lia].
    + intros i b Hi. rewrite upd_ne by by eapply Hnb. by apply blk_page.
  - done.
  - apply sectors_upd; [done|]. by rewrite length_st32.
  - intros b Hb. rewrite upd_ne by lia. by apply free_later.
  - intros i b Hi _. by apply owned_blk.
  - apply with_blk_blks.
  - intros b Hb. rewrite nmeta_eq in Hb. apply upd_ne. lia.
  - intros b Hb _. apply upd_ne. intros ->. apply Hb, list_elem_of_here.
Qed.
End alloc.

Lemma nb_part (len q : nat) : (0 < q)%nat → (len mod 512 + q <= 512)%nat → nb (len + q) = S (len / 512)%nat.
Proof.
  intros Hq Hle. unfold nb. pose proof (Nat.div_mod_eq len 512). pose proof (Nat.mod_upper_bound len 512 ltac:(done)).
  symmetry. apply (Nat.div_unique _ 512 _ (len mod 512 + q - 1)); lia.
Qed.
Lemma nb_S (len : nat) : nb (S len) = S (len / 512)%nat.
Proof. rewrite <- Nat.add_1_r. pose proof (Nat.mod_upper_bound len 512 ltac:(done)). apply nb_part; lia. Qed.
Lemma nb_cases (len : nat) : (nb len = len / 512 ∧ len mod 512 = 0 ∨ nb len = S (len / 512) ∧ len mod 512 ≠ 0)%nat.
Proof.
  unfold nb. pose proof (Nat.div_mod_eq len 512) as H1. pose proof (Nat.mod_upper_bound len 512 ltac:(done)) as H2.
  destruct (decide (len mod 512 = 0)%nat) as [E|E].
  - left. split; [|done]. symmetry. apply (Nat.div_unique _ 512 _ 511); lia.
  - right. split; [|done]. symmetry. apply (Nat.div_unique _ 512 _ (len mod 512 - 1)); lia.
Qed.
Lemma nb_covers len : (len <= 512 * nb len)%nat.
Proof. pose proof (Nat.div_mod_eq len 512). pose proof (Nat.mod_upper_bound len 512 ltac:(done)). destruct (nb_cases len) as [[-> ?]|[-> ?]]; lia. Qed.

(** The blocks it takes to extend a file. *)
Definition grow (len len' : nat) : Z := Z.of_nat (need len') - Z.of_nat (need len).

Definition ind_ok (f : afile) : Prop := a_ind f = 0 ↔ (length (a_blks f) <= 12)%nat.
Definition extends (f f' : afile) : Prop := a_type f' = a_type f ∧ a_data f' = a_data f.

(** What iappend_block leaves: block [j] is there, nothing was written into it. *)
Definition block_post (fi fb : Z) (F : list afile) (k : nat) (din : list Z) (f : afile) (j : nat)
    (c : comp Empty_set mkst (list Z * Z)) : Prop :=
  ∃ din' f' img' x, c = Done (din', x) (Mk FSSIZE img' fi (fb + grow (length (a_data f)) (S (length (a_data f)))))
    ∧ prog img' (fb + grow (length (a_data f)) (S (length (a_data f)))) F k din' f'
    ∧ extends f f' ∧ ind_ok f' ∧ length (a_blks f') = S j ∧ a_blks f' !! j = Some x
    ∧ ld32 din' din_size = ld32 din din_size.

Lemma xint_blk b : 0 <= b < FSSIZE → xint b = b.
Proof. intros H. rewrite xint_u32. apply u32_small. unfold is_u32, FSSIZE in *. lia. Qed.

Lemma next_block_done {A} n img fi fb (g : Z → MK A) :
  0 <= fb < FSSIZE → (next_block ≫= g) n (Mk FSSIZE img fi fb) = g fb n (Mk FSSIZE img fi (fb + 1)).
Proof.
  intros H. unfold next_block. kstep. unfold set_field, set_mk_freeblock. simpl.
  rewrite u32_small by (unfold is_u32, FSSIZE in *; lia). done.
Qed.

(** The part of iappend_block behind the indirect block's number. *)
Definition indirect_entry (din : list Z) (fbn : Z) : MK (list Z * Z) :=
  indirect ← rsect (xint (ld32 din (din_addrs NDIRECT)));
  indirect ← (if ld32 indirect (4 * (fbn - NDIRECT)) =? 0
              then b ← next_block;
                   let indirect := st32 indirect (4 * (fbn - NDIRECT)) (xint b) in
                   wsect (xint (ld32 din (din_addrs NDIRECT))) indirect ;;
                   mret indirect
              else mret indirect);
  mret (din, xint (ld32 indirect (4 * (fbn - NDIRECT)))).

Section iappend.
Context (n : nat) (fi : Z) (F : list afile) (k : nat).

Lemma prog_blk img fb din f j b : prog img fb F k din f → a_blks f !! j = Some b → 59 <= b < fb ∧ xint b = b ∧ fb <= FSSIZE.
Proof.
  intros Hp Hj. pose proof (list_elem_of_lookup_2 _ _ _ Hj) as Hin.
  pose proof (prog_own _ _ _ _ _ _ Hp b (list_elem_of_further _ _ _ Hin) (prog_nz _ _ _ _ _ _ Hp b Hin)) as Hr. rewrite nmeta_eq in Hr.
  pose proof (do_fb _ _ _ (pr_disk _ _ _ _ _ _ Hp)). split_and!; [lia | lia | apply xint_blk; lia | lia].
Qed.

Lemma block_direct img fb din f j :
  prog img fb F k din f → ind_ok f → length (a_blks f) = nb (length (a_data f)) → j = (length (a_data f) / 512)%nat → (j < 12)%nat →
  fb + grow (length (a_data f)) (S (length (a_data f))) <= FSSIZE →
  block_post fi fb F k din f j (iappend_block din (Z.of_nat j) n (Mk FSSIZE img fi fb)).
Proof.
  intros Hp Hio Hlen Hj Hlt Hroom. unfold iappend_block, block_post. set (len := length (a_data f)) in *.
  rewrite (proj2 (Z.ltb_lt _ _)) by (unfold NDIRECT; lia). pose proof (pr_body _ _ _ _ _ _ Hp) as Hb.
  rewrite (fb_direct _ _ _ Hb j Hlt). pose proof (nb_S len) as HS. rewrite <- Hj in HS.
  assert (E1 : (need (S len) = S j)%nat) by (unfold need; rewrite HS; case_decide; lia).
  destruct (nb_cases len) as [[En _]|[En _]]; rewrite <- Hj in En; rewrite En in Hlen.
  - assert (E0 : need len = j) by (unfold need; rewrite En; case_decide; lia). unfold grow in *; rewrite E0, E1 in *.
    pose proof (do_fb _ _ _ (pr_disk _ _ _ _ _ _ Hp)) as Hr. rewrite nmeta_eq in Hr.
    rewrite lookup_ge_None_2 by lia. change (xint (default 0 None) =? 0) with true. cbv iota.
    erewrite bind_done. 2:{ rewrite next_block_done by lia. reflexivity. }
    rewrite xint_blk by lia.
    pose proof (alloc_direct _ _ _ _ _ _ Hp ltac:(lia)) as Hp'. rewrite Hlen in Hp'.
    specialize (Hp' ltac:(lia) ltac:(fold len; pose proof (nb_covers len); lia)).
    replace (fb + (Z.of_nat (S j) - Z.of_nat j)) with (fb + 1) by lia.
    exists (st32 din (din_addrs (Z.of_nat j)) fb), (with_blk f fb), img, fb. split_and!.
    + rewrite ld_addrs_eq, xint_blk by first [apply Hb | unfold FSSIZE in *; lia]. done.
    + done.
    + done.
    + unfold ind_ok in *. simpl. rewrite length_app. simpl. lia.
    + simpl. rewrite length_app. simpl. lia.
    + simpl. by rewrite lookup_app_r, Hlen, Nat.sub_diag by lia.
    + apply ld_head_addrs. lia.
  - assert (E0 : need len = S j) by (unfold need; rewrite En; case_decide; lia). unfold grow in *; rewrite E0, E1 in *.
    destruct (lookup_lt_is_Some_2 (a_blks f) j) as [x Hx]; [lia|]. destruct (prog_blk _ _ _ _ _ _ Hp Hx) as (Hr & Hxi & Hfb).
    rewrite Hx. change (default 0 (Some x)) with x. rewrite Hxi, (proj2 (Z.eqb_neq x 0)) by lia. cbv iota. erewrite bind_done by reflexivity.
    rewrite Z.sub_diag, Z.add_0_r. exists din, f, img, x. split_and!; try done.
    rewrite (fb_direct _ _ _ Hb j Hlt), Hx. change (default 0 (Some x)) with x. by rewrite Hxi.
Qed.

Lemma indirect_entry_done img fb din f j :
  prog img fb F k din f → a_ind f ≠ 0 → (length (a_blks f) = j ∧ fb < FSSIZE ∨ length (a_blks f) = S j) → (12 <= j < 140)%nat →
  (length (a_data f) <= 512 * length (a_blks f))%nat →
  ∃ f' img' x, indirect_entry din (Z.of_nat j) n (Mk FSSIZE img fi fb) = Done (din, x) (Mk FSSIZE img' fi (fb + (1 + Z.of_nat j - Z.of_nat (length (a_blks f)))))
    ∧ prog img' (fb + (1 + Z.of_nat j - Z.of_nat (length (a_blks f)))) F k din f'
    ∧ extends f f' ∧ a_ind f' = a_ind f ∧ length (a_blks f') = S j ∧ a_blks f' !! j = Some x.
Proof.
  intros Hp H0 Hlen Hj Hd. pose proof (pr_body _ _ _ _ _ _ Hp) as Hb. unfold indirect_entry.
  pose proof (prog_own _ _ _ _ _ _ Hp (a_ind f) (list_elem_of_here _ _) H0) as Hind. pose proof (do_fb _ _ _ (pr_disk _ _ _ _ _ _ Hp)) as Hr.
  rewrite nmeta_eq in *. rewrite (fb_indirect _ _ _ Hb), (xint_blk (a_ind f)) by lia.
  erewrite bind_done by (apply rsect_done; simpl; lia). cbn [mk_img].
  replace (4 * (Z.of_nat j - NDIRECT)) with (4 * Z.of_nat (j - 12)) by (unfold NDIRECT; lia).
  rewrite (fb_ind _ _ _ Hb (j - 12) H0) by lia. replace (12 + (j - 12))%nat with j by lia.
  destruct Hlen as [[Hlen Hroom]|Hlen].
  - rewrite lookup_ge_None_2 by lia. change (default 0 None =? 0) with true. cbv iota.
    pose proof (alloc_indirect _ _ _ _ _ _ Hp Hroom (j - 12) H0 ltac:(lia) ltac:(lia) Hd) as Hp'.
    erewrite bind_done.
    2:{ rewrite next_block_done by lia. rewrite (xint_blk fb) by lia. erewrite bind_done by (apply wsect_done; lia). reflexivity. }
    replace (fb + (1 + Z.of_nat j - Z.of_nat (length (a_blks f)))) with (fb + 1) by lia.
    eexists _, _, fb. split_and!; [|exact Hp'|done..| |].
    + rewrite ld32_st32. 2, 3: rewrite ?(do_sec _ _ _ (pr_disk _ _ _ _ _ _ Hp)) by lia; unfold BSIZE; lia.
      rewrite u32_small, xint_blk by (unfold is_u32, FSSIZE in *; lia). done.
    + simpl. rewrite length_app. simpl. lia.
    + simpl. by rewrite lookup_app_r, Hlen, Nat.sub_diag by lia.
  - destruct (lookup_lt_is_Some_2 (a_blks f) j) as [x Hx]; [lia|]. destruct (prog_blk _ _ _ _ _ _ Hp Hx) as (Hrx & Hxi & Hfb).
    rewrite Hx. change (default 0 (Some x)) with x. rewrite (proj2 (Z.eqb_neq x 0)) by lia. cbv iota. erewrite bind_done by reflexivity.
    rewrite (fb_ind _ _ _ Hb (j - 12) H0) by lia. replace (12 + (j - 12))%nat with j by lia. rewrite Hx.
    change (default 0 (Some x)) with x. rewrite Hxi. replace (fb + (1 + Z.of_nat j - Z.of_nat (length (a_blks f)))) with fb by lia.
    by exists f, img, x.
Qed.

Lemma block_indirect img fb din f j :
  prog img fb F k din f → ind_ok f → length (a_blks f) = nb (length (a_data f)) → j = (length (a_data f) / 512)%nat → (12 <= j < 140)%nat →
  fb + grow (length (a_data f)) (S (length (a_data f))) <= FSSIZE →
  block_post fi fb F k din f j (iappend_block din (Z.of_nat j) n (Mk FSSIZE img fi fb)).
Proof.
  intros Hp Hio Hlen Hj Hlt Hroom. unfold block_post, grow in *. set (len := length (a_data f)) in *.
  pose proof (nb_S len) as HS. rewrite <- Hj in HS. assert (E1 : need (S len) = S (S j)) by (unfold need; rewrite HS; case_decide; lia).
  rewrite E1 in *. pose proof (pr_body _ _ _ _ _ _ Hp) as Hb. pose proof (do_fb _ _ _ (pr_disk _ _ _ _ _ _ Hp)) as Hr. rewrite nmeta_eq in Hr.
  pose proof (nb_covers len) as Hcov. rewrite <- Hlen in Hcov.
  assert (Hjn : (j <= nb len <= S j)%nat) by (destruct (nb_cases len) as [[-> _]|[-> _]]; lia).
  unfold iappend_block. rewrite (proj2 (Z.ltb_ge _ _)) by (unfold NDIRECT; lia). rewrite (fb_indirect _ _ _ Hb).
  destruct (decide (a_ind f = 0)) as [H0|H0].
  - rewrite H0. change (xint 0 =? 0) with true. cbv iota. apply Hio in H0 as Hle. rewrite Hlen in Hle.
    assert (E0 : need len = j) by (unfold need; case_decide; lia). rewrite E0 in *.
    erewrite bind_done. 2:{ rewrite next_block_done by lia. rewrite xint_blk by lia. reflexivity. }
    pose proof (alloc_ind _ _ _ _ _ _ Hp ltac:(lia) H0 ltac:(lia)) as Hp1.
    destruct (indirect_entry_done _ _ _ _ j Hp1 ltac:(simpl; lia) ltac:(simpl; lia) Hlt Hcov) as (f' & img' & x & E & Hp2 & Hext & Hi & Hl & Hx).
    unfold indirect_entry in E. rewrite E. cbn [with_ind a_blks] in *.
    replace (fb + 1 + (1 + Z.of_nat j - Z.of_nat (length (a_blks f)))) with (fb + (Z.of_nat (S (S j)) - Z.of_nat j)) in * by lia.
    eexists _, f', img', x. split_and!; try done; [|by apply ld_head_addrs]. unfold ind_ok. rewrite Hi, Hl. simpl. lia.
  - pose proof (prog_own _ _ _ _ _ _ Hp (a_ind f) (list_elem_of_here _ _) H0) as Hind. rewrite nmeta_eq in Hind.
    rewrite (xint_blk (a_ind f)), (proj2 (Z.eqb_neq (a_ind f) 0)) by lia. cbv iota. erewrite bind_done by reflexivity.
    assert (Hgt : (12 < nb len)%nat) by (unfold ind_ok in Hio; lia).
    assert (E0 : need len = S (nb len)) by (unfold need; case_decide; lia). rewrite E0 in *.
    destruct (indirect_entry_done _ _ _ _ j Hp H0 ltac:(lia) Hlt Hcov) as (f' & img' & x & E & Hp2 & Hext & Hi & Hl & Hx).
    unfold indirect_entry in E. rewrite E.
    replace (fb + (1 + Z.of_nat j - Z.of_nat (length (a_blks f)))) with (fb + (Z.of_nat (S (S j)) - Z.of_nat (S (nb len)))) in * by lia.
    eexists _, f', img', x. split_and!; try done. unfold ind_ok. rewrite Hi, Hl. lia.
Qed.

Lemma iappend_block_done img fb din f j :
  prog img fb F k din f → ind_ok f → length (a_blks f) = nb (length (a_data f)) → j = (length (a_data f) / 512)%nat → (j < 140)%nat →
  fb + grow (length (a_data f)) (S (length (a_data f))) <= FSSIZE →
  block_post fi fb F k din f j (iappend_block din (Z.of_nat j) n (Mk FSSIZE img fi fb)).
Proof.
  intros. destruct (decide (j < 12)%nat); [by apply block_direct | apply block_indirect; auto; lia].
Qed.

Definition with_data (f : afile) (l : list Z) : afile := AFile (a_type f) l (a_blks f) (a_ind f).

(** Writing into the last block. *)
Lemma append_page img fb din f j x q :
  prog img fb F k din f → a_blks f !! j = Some x → length (a_blks f) = S j → j = (length (a_data f) / 512)%nat →
  (length (a_data f) mod 512 + length q <= 512)%nat →
  prog (upd img x (list_inserts (length (a_data f) mod 512) q (img x))) fb F k din (with_data f (a_data f ++ q)).
Proof.
  intros Hp Hx Hlen Hj Hq. destruct (prog_blk _ _ _ _ _ _ Hp Hx) as (Hr & _ & Hfb). pose proof (pr_disk _ _ _ _ _ _ Hp) as Hd.
  assert (Hxo : x ∈ owned f) by (apply list_elem_of_further; by eapply list_elem_of_lookup_2).
  assert (Hu : ∀ i, owned f !! i = Some x → i = S j).
  { intros i Hi. destruct (do_uniq _ _ _ Hd k k i (S j) f f x) as [_ ->]; try done; try lia; apply (prog_at _ _ _ _ _ _ Hp). }
  pose proof (Nat.div_mod_eq (length (a_data f)) 512) as Hdm. set (r := (length (a_data f) mod 512)%nat) in *. clearbody r. destruct (pr_body _ _ _ _ _ _ Hp) as [H1 H2 H3 H4 H5 H6 H7 H8 H9].
  eapply (prog_change _ _ _ _ _ _ Hp); [|apply (disk_ok_rewrite _ _ _ _ _ _ Hp); try done|].
  - split; simpl; try done.
    + intros i Hi Hlt. rewrite upd_ne; [auto|]. intros E. by specialize (Hu 0%nat ltac:(simpl; congruence)).
    + intros i b Hb. destruct (decide (i = j)) as [->|Hne].
      * rewrite Hx in Hb. injection Hb as <-. rewrite upd_eq, (H9 j x Hx), <- page_append by lia. f_equal. lia.
      * pose proof (lookup_lt_Some _ _ _ Hb). rewrite page_old by lia.
        rewrite upd_ne; [by apply H9|]. intros ->. specialize (Hu (S i) Hb). lia.
  - apply sectors_upd; [apply Hd|]. rewrite length_inserts. apply (do_sec _ _ _ Hd). lia.
  - intros b Hb. apply upd_ne. lia.
  - intros b Hb _. rewrite nmeta_eq in Hb. apply upd_ne. lia.
  - intros b Hb _. apply upd_ne. by intros ->.
Qed.

(** The file and its inode fit its length. *)
Record sized (f : afile) : Prop := {
  sz_blks : length (a_blks f) = nb (length (a_data f));
  sz_ind : ind_ok f;
  sz_max : Z.of_nat (length (a_data f)) <= MAXFILE * BSIZE
}.

(** What iappend's loop leaves for [f] when [p] has been appended. *)
Definition append_post (fb : Z) (din : list Z) (f : afile) (p : list Z) (c : comp Empty_set mkst (list Z * Z)) : Prop :=
  ∃ din' f' img', c = Done (din', Z.of_nat (length (a_data f ++ p))) (Mk FSSIZE img' fi (fb + grow (length (a_data f)) (length (a_data f ++ p))))
    ∧ prog img' (fb + grow (length (a_data f)) (length (a_data f ++ p))) F k din' f'
    ∧ sized f' ∧ a_type f' = a_type f ∧ a_data f' = a_data f ++ p ∧ ld32 din' din_size = ld32 din din_size.

Lemma need_mono len len' : (len <= len')%nat → (need len <= need len')%nat.
Proof.
  intros H. assert (nb len <= nb len')%nat by (apply Nat.Div0.div_le_mono; lia). unfold need. repeat case_decide; lia.
Qed.
Lemma need_part (len q : nat) : (0 < q)%nat → (len mod 512 + q <= 512)%nat → need (len + q) = need (S len).
Proof. intros. unfold need. by rewrite nb_part, nb_S. Qed.

Lemma iappend_loop_done p : ∀ fuel img fb din f,
  prog img fb F k din f → sized f → (length p < fuel)%nat → Z.of_nat (length (a_data f ++ p)) <= MAXFILE * BSIZE →
  fb + grow (length (a_data f)) (length (a_data f ++ p)) <= FSSIZE →
  append_post fb din f p (iappend_loop fuel din (Z.of_nat (length (a_data f))) p n (Mk FSSIZE img fi fb)).
Proof.
  induction p as [p IH] using (induction_ltof1 _ length); unfold ltof in IH. intros [|fuel] img fb din f Hp Hsz Hfuel Hmax Hroom; [lia|].
  change (MAXFILE * BSIZE) with 71680 in Hmax.
  cbn [iappend_loop]. case_bool_decide as Hnil.
  { subst p. unfold append_post. rewrite app_nil_r. unfold grow. rewrite Z.sub_diag, Z.add_0_r. by exists din, f, img. }
  assert (Hpos : (0 < length p)%nat) by (destruct p; [done | simpl; lia]).
  set (len := length (a_data f)) in *. set (j := (len / 512)%nat). rewrite length_app in Hmax, Hroom. fold len in Hmax, Hroom.
  pose proof (Nat.div_mod_eq len 512) as Hdm. pose proof (Nat.mod_upper_bound len 512 ltac:(done)) as Hmb. fold j in Hdm.
  change BSIZE with (Z.of_nat 512). rewrite <- Nat2Z.inj_div. fold j.
  rewrite (proj2 (Z.ltb_lt _ MAXFILE)) by (change MAXFILE with 140; lia). erewrite bind_done by reflexivity.
  pose proof (need_mono (S len) (len + length p) ltac:(lia)) as Hnm.
  destruct (iappend_block_done img fb din f j Hp (sz_ind _ Hsz) (sz_blks _ Hsz) eq_refl ltac:(lia)) as
    (din' & f' & img' & x & E & Hp' & [Ht Hda] & Hio & Hl & Hx & Hsi); [fold len; unfold grow in *; lia|].
  erewrite bind_done by exact E. destruct (prog_blk _ _ _ _ _ _ Hp' Hx) as (Hr & _ & Hfb).
  erewrite bind_done by (apply rsect_done; simpl; lia). erewrite bind_done by (apply wsect_done; lia).
  set (n1 := Nat.min (length p) (512 * S j - len)).
  replace (Z.to_nat (Z.min _ _)) with n1 by lia. replace (Z.to_nat (Z.of_nat len - _)) with (len mod 512)%nat by lia.
  replace (Z.of_nat len +u Z.min _ _) with (Z.of_nat (len + n1)) by (rewrite u32_small; [|unfold is_u32]; lia).
  assert (Hp1 := append_page _ _ _ _ j x (take n1 p) Hp' Hx Hl). rewrite Hda in Hp1. fold len in Hp1. rewrite length_take_le in Hp1 by lia.
  specialize (Hp1 eq_refl ltac:(lia)). set (f1 := with_data f' (a_data f ++ take n1 p)) in *.
  assert (Hl1 : length (a_data f1) = (len + n1)%nat) by (simpl; rewrite length_app, length_take_le by lia; done).
  assert (Hn1 : need (len + n1) = need (S len)) by (apply need_part; lia).
  assert (Hcat : a_data f1 ++ drop n1 p = a_data f ++ p) by (simpl; by rewrite <- app_assoc, take_drop).
  assert (Hfb1 : fb + grow len (S len) + grow (length (a_data f1)) (length (a_data f1 ++ drop n1 p))
    = fb + grow len (length (a_data f ++ p))).
  { rewrite Hcat, Hl1. unfold grow. rewrite Hn1. lia. }
  destruct (IH (drop n1 p) ltac:(rewrite length_drop; lia) fuel _ _ _ f1 Hp1) as (din2 & f2 & img2 & E2 & Hp2 & Hs2 & Ht2 & Hd2 & Hsi2).
  - split; [rewrite Hl1, nb_part by lia; done | done | rewrite Hl1; change (MAXFILE * BSIZE) with 71680; lia].
  - rewrite length_drop. lia.
  - rewrite Hcat, length_app. fold len. change (MAXFILE * BSIZE) with 71680. lia.
  - rewrite Hfb1, length_app. done.
  - rewrite Hfb1 in Hp2, E2. rewrite Hcat in Hd2, E2. rewrite Hl1 in E2. exists din2, f2, img2.
    split_and!; [exact E2 | exact Hp2 | done | rewrite Ht2; exact Ht | done | congruence].
Qed.
End iappend.
