(* ===== verification/MkfsImage.v ===== *)
(** * MkfsImage: every step of mkfs keeps the image well formed

    [mk_ok] says that the image holds the files [F], inode 1 first; mk_ialloc
    adds an empty file, iappend adds bytes to one, and main makes the files it
    was given and the root directory that names them. *)

From S2P Require Import Prelude Memory Kstate Cprintf Log Inode Fs BioFacts Ondisk Mkfs MkfsFacts.

Record mk_ok (img : Z → list Z) (fb : Z) (F : list afile) : Prop := {
  mo_disk : disk_ok img fb F;
  mo_file k f : F !! k = Some f → holds img (inum_of k) f ∧ sized f;
  mo_unused : unused_inodes img (length F)
}.

Lemma disk_ok_img img img' fb F :
  disk_ok img fb F → sectors img' → (∀ b, ¬ inode_block b → img' b = img b) → disk_ok img' fb F.
Proof.
  intros [H1 H2 H3 H4 H5 H6 H7 H8] Hs Hi. rewrite nmeta_eq in H3. split; try done.
  - intros b Hb. rewrite Hi; [auto|]. unfold inode_block. lia.
  - intros b Hb. rewrite Hi; [auto|]. unfold inode_block. lia.
Qed.
Lemma owned_not_inode img fb F k f b : disk_ok img fb F → F !! k = Some f → b ∈ owned f → b ≠ 0 → ¬ inode_block b.
Proof. intros Hd Hk Hb H0. apply not_inode_block. pose proof (do_own _ _ _ Hd k f b Hk Hb H0). lia. Qed.
Lemma is_inum_of k (n : nat) : (k < n)%nat → Z.of_nat n < NINODES → is_inum (inum_of k).
Proof. unfold is_inum, inum_of. lia. Qed.
Lemma inum_of_inj k j : inum_of k = inum_of j → k = j.
Proof. unfold inum_of. lia. Qed.

(** Writing one inode leaves the files of the others. *)
Lemma file_put img fb F inum din k f :
  disk_ok img fb F → is_inum inum → F !! k = Some f → ∀ d, file_body img d f → file_body (put_inode img inum din) d f.
Proof.
  intros Hd Hi Hk d. apply file_body_frame.
  - intros b Hb H0. apply put_inode_block; [done|]. by eapply owned_not_inode.
  - intros b. by apply (do_nz _ _ _ Hd k).
Qed.
Lemma holds_put img fb F inum din k f :
  disk_ok img fb F → is_inum inum → F !! k = Some f → length din = Z.to_nat sizeof_dinode → inum_of k ≠ inum → is_inum (inum_of k) →
  holds img (inum_of k) f → holds (put_inode img inum din) (inum_of k) f.
Proof.
  intros Hd Hi Hk Hl Hne Hik [Hb Hs]. unfold holds. rewrite put_inode_ne by done. split; [|done]. by eapply file_put.
Qed.

(** iappend's last step. *)
Lemma prog_put img fb F k din f din' :
  prog img fb F k din f → sized f → file_body img din' f → ld32 din' din_size = Z.of_nat (length (a_data f)) →
  (∀ j g, F !! j = Some g → sized g) → mk_ok (put_inode img (inum_of k) din') fb (<[k := f]> F).
Proof.
  intros Hp Hsz Hb Hs Hall. pose proof (pr_disk _ _ _ _ _ _ Hp) as Hd. pose proof (pr_k _ _ _ _ _ _ Hp) as Hk.
  pose proof (do_cnt _ _ _ Hd) as Hc. rewrite length_insert in Hc. pose proof (is_inum_of k _ Hk Hc) as Hi.
  split; [eapply disk_ok_img; [done | by apply put_inode_sectors, Hi; apply Hd | intros; by apply put_inode_block]| |].
  2:{ intros inum. rewrite length_insert. intros Hin. rewrite put_inode_ne; [by apply (pr_unused _ _ _ _ _ _ Hp) | ..]; try done; try apply Hb; unfold is_inum, inum_of in *; lia. }
  intros j g Hj. pose proof (insert_cases _ _ _ _ _ Hj) as [[-> ->]|[Hne HF]].
  - split; [|done]. unfold holds. rewrite put_inode_eq by (done || apply Hd || apply Hb). split; [by eapply file_put | done].
  - split; [|by eapply Hall]. eapply holds_put; try done; [apply Hb | | | by apply (pr_rest _ _ _ _ _ _ Hp)].
    + by intros ?%inum_of_inj.
    + eapply is_inum_of; [by eapply lookup_lt_Some | done].
Qed.

Definition fits (len : nat) : Prop := Z.of_nat len <= MAXFILE * BSIZE.

Lemma xint_small x : 0 <= x < 2 ^ 32 → xint x = x.
Proof. intros H. rewrite xint_u32. by apply u32_small. Qed.

Lemma st32_size din x :
  length din = Z.to_nat sizeof_dinode → ld32 (st32 din din_size x) din_size = u32 x.
Proof. intros Hl. apply ld32_st32; rewrite ?Hl; unfold din_size, sizeof_dinode; lia. Qed.
(** The size is not part of [file_body]. *)
Lemma file_body_size img din f x : file_body img din f → file_body img (st32 din din_size x) f.
Proof.
  intros [H1 H2 H3 H4 H5 H6 H7 H8 H9]. split; rewrite ?length_st32; try done.
  - rewrite ld16_st32_ne; [done | unfold din_size, din_type; lia..].
  - rewrite ld16_st32_ne; [done | unfold din_size, din_nlink; lia..].
  - intros j Hj. rewrite ld32_st32_ne; [auto | unfold din_size, din_addrs; lia..].
  - rewrite ld32_st32_ne; [done | unfold din_size, din_addrs, NDIRECT; lia..].
Qed.

Section steps.
Context (n : nat) (fi : Z).

Lemma iappend_done img fb F k f p :
  mk_ok img fb F → F !! k = Some f → fits (length (a_data f ++ p)) →
  fb + grow (length (a_data f)) (length (a_data f ++ p)) <= FSSIZE →
  ∃ img' f', iappend (inum_of k) p n (Mk FSSIZE img fi fb)
      = Done tt (Mk FSSIZE img' fi (fb + grow (length (a_data f)) (length (a_data f ++ p))))
    ∧ mk_ok img' (fb + grow (length (a_data f)) (length (a_data f ++ p))) (<[k := f']> F)
    ∧ a_type f' = a_type f ∧ a_data f' = a_data f ++ p.
Proof.
  intros [Hd Hf Hun] Hk Hfit Hroom. destruct (Hf k f Hk) as [[Hb Hs] Hsz]. pose proof (lookup_lt_Some _ _ _ Hk) as Hlt.
  pose proof (is_inum_of k _ Hlt (do_cnt _ _ _ Hd)) as Hi. unfold iappend.
  erewrite bind_done by (apply rinode_done; [done | exact Hi]). cbn [mk_img]. rewrite Hs.
  pose proof (sz_max _ Hsz) as Hmax. unfold fits in Hfit. change (MAXFILE * BSIZE) with 71680 in *. rewrite xint_small by lia.
  assert (Hp : prog img fb F k (din_of img (inum_of k)) f).
  { split; [done | by rewrite list_insert_id | done | | done]. intros j g _ Hj. by destruct (Hf j g Hj). }
  destruct (iappend_loop_done n fi F k p (S (length p)) img fb _ f Hp Hsz ltac:(lia) ltac:(done) Hroom)
    as (din' & f' & img' & E & Hp' & Hsz' & Ht & Hda & Hsi).
  erewrite bind_done by exact E. exists (put_inode img' (inum_of k) (st32 din' din_size (xint (Z.of_nat (length (a_data f ++ p)))))), f'.
  split_and!; [by apply winode_done | | done | done]. eapply prog_put; [done.. | apply file_body_size, Hp' | | intros; by eapply Hf].
  rewrite st32_size by apply (pr_body _ _ _ _ _ _ Hp'). rewrite xint_small, u32_small by (unfold is_u32; lia). by rewrite Hda.
Qed.

Definition new_file (type : Z) : afile := AFile type [] [] 0.
Lemma new_inode type :
  type = T_DIR ∨ type = T_FILE →
  let din := st32 (st16 (st16 (replicate (Z.to_nat sizeof_dinode) 0) din_type (xshort type)) din_nlink (xshort 1)) din_size (xint 0) in
  (∀ img, file_body img din (new_file type)) ∧ ld32 din din_size = 0.
Proof.
  intros Ht din. split; [|by destruct Ht; subst]. intros img. split; simpl; try done; try (by destruct Ht; subst); try lia.
  intros j Hj. destruct Ht; subst; do 12 (destruct j as [|j]; [done|]); lia.
Qed.
Lemma mk_ok_new img fb F type din :
  mk_ok img fb F → Z.of_nat (length F) + 1 < NINODES → (∀ img', file_body img' din (new_file type)) → ld32 din din_size = 0 →
  mk_ok (put_inode img (inum_of (length F)) din) fb (F ++ [new_file type]).
Proof.
  intros [Hd Hf Hun] Hn Hb Hs. assert (Hi : is_inum (inum_of (length F))) by (unfold is_inum, inum_of; lia).
  assert (Hg : ∀ k f, (F ++ [new_file type]) !! k = Some f → F !! k = Some f ∨ k = length F ∧ f = new_file type).
  { intros k f [?|[Hk Hx]]%lookup_app_Some; [by left|right]. apply list_lookup_singleton_Some in Hx as [? <-]. split; [lia | done]. }
  split; [apply disk_ok_img with img| |].
  - split; try apply Hd.
    + intros k f b [Hk|[-> ->]]%Hg; [by apply (do_own _ _ _ Hd k)|]. unfold owned. simpl. rewrite list_elem_of_singleton. by intros ->.
    + intros k f b [Hk|[-> ->]]%Hg; [by apply (do_nz _ _ _ Hd k)|]. simpl. by intros ?%not_elem_of_nil.
    + intros k1 k2 i1 i2 f1 f2 b H1 H2 O1 O2 H0.
      destruct (Hg _ _ H1) as [H1'|[-> ->]]; [|by apply list_lookup_singleton_Some in O1 as [_ <-]].
      destruct (Hg _ _ H2) as [H2'|[-> ->]]; [|by apply list_lookup_singleton_Some in O2 as [_ <-]].
      by apply (do_uniq _ _ _ Hd k1 k2 i1 i2 f1 f2 b).
    + rewrite length_app. simpl. lia.
  - apply put_inode_sectors, Hi. apply Hd.
  - intros b Hb'. by apply put_inode_block.
  - intros k f [Hk|[-> ->]]%Hg.
    + destruct (Hf k f Hk) as [Hh Hsz]. split; [|done]. pose proof (lookup_lt_Some _ _ _ Hk) as Hlt.
      apply (holds_put _ _ _ _ _ _ _ Hd Hi Hk); [apply (Hb img) | | | done].
      * intros ?%inum_of_inj. lia.
      * eapply is_inum_of; [exact Hlt | apply Hd].
    + unfold holds. rewrite put_inode_eq by (apply Hd || apply Hi || apply (Hb img)). split; [split; [done | by rewrite Hs]|].
      split; [done | unfold ind_ok; simpl; lia | done].
  - intros inum. rewrite length_app. simpl. intros Hin. rewrite put_inode_ne; [apply Hun; lia | ..]; try done; try apply (Hb img); unfold is_inum, inum_of in *; lia.
Qed.
End steps.

(** ** The files as mkfs sees them: type and contents *)

Definition contents (f : afile) : Z * list Z := (a_type f, a_data f).
Definition total (G : list (Z * list Z)) : Z := foldr (λ g z, Z.of_nat (need (length (g.2))) + z) 0 G.
Definition image (G : list (Z * list Z)) (s : mkst) : Prop :=
  ∃ img F, s = Mk FSSIZE img (inum_of (length G)) (nmeta + total G) ∧ mk_ok img (nmeta + total G) F ∧ G = contents <$> F.

Lemma total_cons t d G : total ((t, d) :: G) = Z.of_nat (need (length d)) + total G.
Proof. done. Qed.
Lemma total_app G G' : total (G ++ G') = total G + total G'.
Proof. induction G as [|g G IH]; simpl; [done|]. rewrite IH. lia. Qed.
Lemma total_insert G k t d t' d' :
  G !! k = Some (t, d) → total (<[k := (t', d')]> G) = total G + grow (length d) (length d').
Proof.
  revert k. induction G as [|g G IH]; intros [|k] Hk; simplify_eq/=; [unfold grow; lia|]. change (list_insert k (t', d') G) with (<[k := (t', d')]> G).
  rewrite (IH k Hk). lia.
Qed.

Section image.
Context (n : nat).

Lemma ialloc_image G s type :
  image G s → Z.of_nat (length G) + 1 < NINODES → type = T_DIR ∨ type = T_FILE →
  ∃ s', mk_ialloc type n s = Done (inum_of (length G)) s' ∧ image (G ++ [(type, [])]) s'.
Proof.
  intros (img & F & -> & Hok & HG) Hn Ht. destruct (new_inode type Ht) as [Hb Hs].
  assert (Hl : length F = length G) by (subst; by rewrite length_fmap).
  assert (Hi : is_inum (inum_of (length G))) by (unfold is_inum, inum_of; lia).
  unfold mk_ialloc. do 2 (erewrite bind_done by reflexivity). unfold set_field, set_mk_freeinode. cbn [mk_len mk_img mk_freeinode mk_freeblock].
  erewrite bind_done by (by apply winode_done). eexists. split; [done|]. eexists _, (F ++ [new_file type]).
  split_and!; [| |by rewrite fmap_app, HG].
  - rewrite total_app, length_app. simpl. rewrite Z.add_0_r. f_equal. unfold inum_of, NINODES in *. rewrite u32_small; [|unfold is_u32]; lia.
  - rewrite total_app. simpl. rewrite Z.add_0_r, <- Hl. apply mk_ok_new; auto. by rewrite Hl.
Qed.
Lemma iappend_image G s k t d p :
  image G s → G !! k = Some (t, d) → fits (length (d ++ p)) → nmeta + total (<[k := (t, d ++ p)]> G) <= FSSIZE →
  ∃ s', iappend (inum_of k) p n s = Done tt s' ∧ image (<[k := (t, d ++ p)]> G) s'.
Proof.
  intros (img & F & -> & Hok & HG) Hk Hfit Hroom. rewrite (total_insert _ _ _ _ _ _ Hk) in Hroom.
  rewrite HG, list_lookup_fmap, fmap_Some in Hk. destruct Hk as (f & Hf & [= -> ->]).
  destruct (iappend_done n (inum_of (length G)) img (nmeta + total G) F k f p Hok Hf Hfit ltac:(lia)) as (img' & f' & E & Hok' & Ht & Hd).
  rewrite E. eexists. split; [done|]. exists img', (<[k := f']> F).
  assert (HkG : G !! k = Some (a_type f, a_data f)) by (subst G; by rewrite list_lookup_fmap, Hf).
  rewrite (total_insert _ _ _ _ _ _ HkG), length_insert, Z.add_assoc. split_and!; [done.. |].
  rewrite list_fmap_insert, <- HG. unfold contents. by rewrite Ht, Hd.
Qed.
End image.

(** ** main *)

Lemma wp_done {S A} (R : Empty_set → S → S → Prop) (c : comp Empty_set S A) Q : wp R c Q → ∃ a s', c = Done a s' ∧ Q a s'.
Proof. destruct c as [a s| | | |[]]; simpl; [|done..]. eauto. Qed.

Section main.
Context (n : nat).

Lemma zero_done : ∃ img, forM (seqZ 0 FSSIZE) (λ i, wsect i zeroes) n (Mk 0 (λ _, zeroes) 1 nmeta) = Done tt (Mk FSSIZE img 1 nmeta)
  ∧ ∀ b, img b = zeroes.
Proof.
  set (I := λ (i : nat) s, ∃ img, s = Mk (Z.of_nat i) img 1 nmeta ∧ ∀ b, img b = zeroes).
  assert (H : wp (λ _ _ _, False) (forM (seqZ 0 (Z.of_nat (Z.to_nat FSSIZE))) (λ i, wsect i zeroes) n (Mk 0 (λ _, zeroes) 1 nmeta)) (λ _, I (Z.to_nat FSSIZE))).
  { apply wp_forM_seqZ; [|by eexists]. intros i s _ (img & -> & Himg). eexists. split.
    - cbn [mk_len mk_freeinode mk_freeblock]. rewrite Z.max_r by lia. f_equal. lia.
    - intros b. simpl. by destruct (b =? _). }
  apply wp_done in H as ([] & s' & E & img & -> & Himg). rewrite Z2Nat.id in E by done. exists img. split; [exact E | exact Himg].
Qed.

Lemma empty_image img : (∀ b, img b = low b) → mk_ok img nmeta [].
Proof.
  intros Himg. split; [|done|].
  2:{ intros inum Hi. destruct (iblock_range inum) as [Hr _]; [unfold is_inum; simpl in Hi; lia|]. unfold din_of. rewrite Himg. unfold low, inode_block in *.
      rewrite (proj2 (Z.eqb_neq _ _)) by lia. unfold zeroes, slice. rewrite drop_replicate, take_replicate. by destruct (_ `min` _)%nat as [|[]]. }
  split; try done.
  - intros b _. rewrite Himg. unfold low. destruct (b =? 1); [rewrite length_inserts|]; apply length_replicate.
  - intros b Hb. rewrite nmeta_eq in Hb. rewrite Himg. unfold low. by rewrite (proj2 (Z.eqb_neq _ _)) by lia.
Qed.

Definition root_dots : list Z := mk_dirent 1 (str ".") ++ mk_dirent 1 (str "..").

Lemma mk_root_image : ∃ s', mk_root n (Mk 0 (λ _, zeroes) 1 nmeta) = Done 1 s' ∧ image [(T_DIR, root_dots)] s'.
Proof.
  unfold mk_root. destruct zero_done as (img & E & Himg). rewrite (bind_done _ _ _ _ _ _ E). clear E.
  erewrite bind_done by by apply wsect_done.
  assert (H0 : image [] (Mk FSSIZE (upd img 1 (list_inserts 0 (sb_bytes mk_sb) zeroes)) 1 nmeta)).
  { eexists _, []. split_and!; [done | | done]. apply empty_image. intros b. unfold upd, low. by rewrite Himg. }
  destruct (ialloc_image n [] _ T_DIR H0) as (s1 & E1 & H1); [done | by left |].
  rewrite (bind_done _ _ _ _ _ _ E1). change (inum_of (length [])) with 1. erewrite bind_done by reflexivity.
  destruct (iappend_image n _ s1 0 T_DIR [] (mk_dirent 1 (str ".")) H1) as (s2 & E2 & H2); [done..|].
  rewrite (bind_done _ _ _ _ _ _ E2).
  destruct (iappend_image n _ s2 0 T_DIR (mk_dirent 1 (str ".")) (mk_dirent 1 (str "..")) H2) as (s3 & E3 & H3); [done..|].
  rewrite (bind_done _ _ _ _ _ _ E3). exists s3. split; [done|]. exact H3.
Qed.

(** ** The files of the command line *)

Definition hf_data (f : hostfile) : list Z := concat (default [] (hf_reads f)).
(** The entry of the [k]th file in the root directory. *)
Definition entry (k : nat) (f : hostfile) : list Z := mk_dirent (inum_of (S k)) (skip_underscore (hf_name f)).
Definition root_data (files : list hostfile) : list Z := root_dots ++ concat (imap entry files).
Definition plain (f : hostfile) : Z * list Z := (T_FILE, hf_data f).
Definition made (files : list hostfile) : list (Z * list Z) := (T_DIR, root_data files) :: (plain <$> files).

Lemma total_nonneg G : 0 <= total G.
Proof. induction G as [|g G IH]; simpl; lia. Qed.
Lemma root_data_app pre post : root_data (pre ++ post) = root_data pre ++ concat (imap (λ k, entry (length pre + k)) post).
Proof. unfold root_data. by rewrite imap_app, concat_app, app_assoc. Qed.
Lemma total_made files : total (made files) = Z.of_nat (need (length (root_data files))) + total (plain <$> files).
Proof. done. Qed.
Lemma total_made_mono pre post : total (made pre) <= total (made (pre ++ post)).
Proof.
  rewrite !total_made, fmap_app, total_app. pose proof (total_nonneg (plain <$> post)).
  pose proof (need_mono (length (root_data pre)) (length (root_data (pre ++ post))) ltac:(rewrite root_data_app, length_app; lia)). lia.
Qed.

Lemma reads_image k t reads : ∀ G s d,
  image G s → G !! k = Some (t, d) → fits (length (d ++ concat reads)) → nmeta + total (<[k := (t, d ++ concat reads)]> G) <= FSSIZE →
  ∃ s', forM reads (iappend (inum_of k)) n s = Done tt s' ∧ image (<[k := (t, d ++ concat reads)]> G) s'.
Proof.
  induction reads as [|r reads IH]; intros G s d Hs Hk Hfit Hroom; simpl in *.
  { rewrite app_nil_r, list_insert_id by done. by exists s. }
  rewrite app_assoc in Hfit, Hroom |- *. pose proof (lookup_lt_Some _ _ _ Hk) as Hlt.
  destruct (iappend_image n G s k t d r Hs Hk) as (s1 & E1 & H1).
  - unfold fits in *. rewrite !length_app in *. lia.
  - rewrite (total_insert _ _ _ _ _ _ Hk) in Hroom. rewrite (total_insert _ _ _ _ _ _ Hk). unfold grow in *.
    pose proof (need_mono (length (d ++ r)) (length ((d ++ r) ++ concat reads)) ltac:(rewrite !length_app; lia)). lia.
  - rewrite (bind_done _ _ _ _ _ _ E1).
    destruct (IH _ s1 (d ++ r) H1) as (s2 & E2 & H2); [by apply list_lookup_insert_eq | done | by rewrite list_insert_insert_eq |].
    exists s2. rewrite list_insert_insert_eq in H2. done.
Qed.

(** What mkfs needs of the files it is given. *)
Record fit_files (files : list hostfile) : Prop := {
  ff_open f : f ∈ files → (slash ∉ hf_name f) ∧ is_Some (hf_reads f);
  ff_max f : f ∈ files → fits (length (hf_data f));
  ff_root : fits (length (root_data files));
  ff_inodes : Z.of_nat (length files) + 1 < NINODES;
  ff_room : nmeta + total (made files) <= FSSIZE
}.

Lemma mk_file_image pre f post s :
  fit_files (pre ++ f :: post) → image (made pre) s →
  ∃ s', mk_file 1 f n s = Done tt s' ∧ image (made (pre ++ [f])) s'.
Proof.
  intros Hff Hs. assert (Hin : f ∈ pre ++ f :: post) by (apply elem_of_app; right; apply list_elem_of_here).
  destruct (ff_open _ Hff f Hin) as [Hsl [reads Hr]]. pose proof (ff_max _ Hff f Hin) as Hmax. pose proof (ff_inodes _ Hff) as Hni.
  pose proof (ff_root _ Hff) as Hrt. pose proof (ff_room _ Hff) as Hroom. pose proof (total_made_mono (pre ++ [f]) post) as Hmono.
  rewrite <- app_assoc in Hmono. simpl app in Hmono. rewrite length_app in Hni. simpl in Hni.
  replace (pre ++ f :: post) with ((pre ++ [f]) ++ post) in Hrt by by rewrite <- app_assoc. rewrite root_data_app in Hrt. unfold fits in Hrt. rewrite length_app in Hrt.
  assert (Er : root_data (pre ++ [f]) = root_data pre ++ entry (length pre) f).
  { rewrite root_data_app. simpl. by rewrite app_nil_r, Nat.add_0_r. }
  set (G := made pre) in *. assert (HlG : length G = S (length pre)) by (unfold G, made; simpl; by rewrite length_fmap).
  unfold mk_file. rewrite bool_decide_eq_true_2 by done. erewrite bind_done by reflexivity. rewrite Hr. cbv iota zeta.
  destruct (ialloc_image n G s T_FILE Hs) as (s1 & E1 & H1); [rewrite HlG; lia | by right |].
  rewrite (bind_done _ _ _ _ _ _ E1), HlG. fold (entry (length pre) f).
  destruct (iappend_image n _ s1 0 T_DIR (root_data pre) (entry (length pre) f) H1) as (s2 & E2 & H2).
  - done.
  - unfold fits. rewrite <- Er. lia.
  - rewrite <- Er. pose proof (total_nonneg [plain f]) as Hnn. rewrite total_made, fmap_app, total_app in Hmono. change (plain <$> [f]) with [plain f] in Hmono.
    change (<[0%nat := _]> (G ++ _)) with ((T_DIR, root_data (pre ++ [f])) :: (plain <$> pre) ++ [(T_FILE, [])]).
    rewrite total_cons, total_app. change (total [(T_FILE, [])]) with 0. lia.
  - change 1 with (inum_of 0). rewrite (bind_done _ _ _ _ _ _ E2).
    assert (Hmade : <[S (length pre) := (T_FILE, [] ++ concat reads)]> (<[0%nat := (T_DIR, root_data pre ++ entry (length pre) f)]> (G ++ [(T_FILE, [])])) = made (pre ++ [f])).
    { rewrite <- Er. unfold G, made. rewrite fmap_app. simpl. f_equal. change (list_insert ?k ?x ?l) with (<[k := x]> l).
      rewrite insert_app_r_alt by (rewrite length_fmap; lia). rewrite length_fmap, Nat.sub_diag. unfold plain at 3, hf_data. by rewrite Hr. }
    destruct (reads_image (S (length pre)) T_FILE reads _ s2 [] H2) as (s3 & E3 & H3).
    + rewrite <- Er. unfold G, made. simpl. by rewrite lookup_app_r, length_fmap, Nat.sub_diag by (rewrite length_fmap; lia).
    + unfold hf_data in Hmax. by rewrite Hr in Hmax.
    + rewrite Hmade. lia.
    + exists s3. split; [exact E3|]. by rewrite <- Hmade.
Qed.

Lemma mk_files_image post : ∀ pre s,
  fit_files (pre ++ post) → image (made pre) s → ∃ s', forM post (mk_file 1) n s = Done tt s' ∧ image (made (pre ++ post)) s'.
Proof.
  induction post as [|f post IH]; intros pre s Hff Hs; cbn [forM]; [rewrite app_nil_r; by exists s|].
  destruct (mk_file_image pre f post s Hff Hs) as (s1 & E1 & H1). rewrite (bind_done _ _ _ _ _ _ E1).
  replace (pre ++ f :: post) with ((pre ++ [f]) ++ post) in * by by rewrite <- app_assoc. by apply IH.
Qed.

(** ** The end of main *)

Lemma page_zeros data k j : page (data ++ replicate k 0) j = page data j.
Proof.
  unfold page. apply list_fmap_ext. intros i o [-> Ho]%lookup_seq. simpl. destruct (decide (512 * j + i < length data)%nat).
  - by rewrite lookup_app_l.
  - rewrite lookup_app_r, (lookup_ge_None_2 data) by lia. simpl.
    destruct (replicate k 0 !! _) eqn:E; [|done]. by apply lookup_replicate in E as [-> _].
Qed.
(** A file whose size is rounded up to whole blocks. *)
Definition padded (l : list Z) : list Z := l ++ replicate (512 * nb (length l) - length l) 0.
Lemma padded_length l : length (padded l) = (512 * nb (length l))%nat.
Proof. unfold padded. rewrite length_app, length_replicate. pose proof (nb_covers (length l)). lia. Qed.
Lemma nb_whole k : nb (512 * k) = k.
Proof. symmetry. apply (Nat.div_unique _ 512 _ 511); lia. Qed.

Lemma pad_root img fb F f :
  mk_ok img fb F → F !! 0%nat = Some f → (length (a_data f) mod 512 ≠ 0)%nat →
  let off := Z.of_nat (length (a_data f)) / BSIZE in
  let din' := st32 (din_of img 1) din_size (xint ((off + 1) * BSIZE)) in
  mk_ok (put_inode img 1 din') fb (<[0%nat := with_data f (padded (a_data f))]> F).
Proof.
  intros [Hd Hf Hun] H0 Hmod off din'. destruct (Hf 0%nat f H0) as [[Hb Hs] [Hz1 Hz2 Hz3]]. change (inum_of 0) with 1 in *.
  pose proof (lookup_lt_Some _ _ _ H0) as Hlt. destruct (nb_cases (length (a_data f))) as [[_ ?]|[Hnb _]]; [done|].
  assert (Hp : prog img fb F 0 (din_of img 1) f).
  { split; [done | by rewrite list_insert_id | done | | done]. intros j g _ Hj. by destruct (Hf j g Hj). }
  set (f' := with_data f (padded (a_data f))).
  assert (Hb' : ∀ d, file_body img d f → file_body img d f').
  { intros d [H1 H2 H3 H4 H5 H6 H7 H8 H9]. split; try done. intros j b Hj. rewrite (H9 j b Hj). simpl. unfold padded. by rewrite page_zeros. }
  assert (Hlen : (off + 1) * BSIZE = Z.of_nat (length (a_data f'))).
  { simpl. rewrite padded_length, Hnb. unfold off. change BSIZE with (Z.of_nat 512). rewrite <- Nat2Z.inj_div. lia. }
  apply (prog_put img fb F 0 (din_of img 1) f' din').
  - split; [done | | by apply Hb' | apply Hp | done]. apply (disk_ok_rewrite _ _ _ _ _ _ Hp); try done. apply Hd.
  - split; simpl; [by rewrite padded_length, nb_whole | done |]. rewrite padded_length. change (MAXFILE * BSIZE) with 71680 in *.
    pose proof (fb_max _ _ _ Hb). lia.
  - by apply file_body_size, Hb'.
  - unfold din'. rewrite st32_size by apply Hb. rewrite Hlen. simpl. rewrite padded_length. pose proof (fb_max _ _ _ Hb).
    rewrite xint_small, u32_small by (unfold is_u32; lia). done.
  - intros. by eapply Hf.
Qed.

Lemma mark_used_length k i buf : length (mark_used k i buf) = length buf.
Proof. revert i buf. induction k as [|k IH]; intros; simpl; [done|]. by rewrite IH, length_alter. Qed.
Lemma mark_used_spec k i buf b :
  0 <= i → 0 <= b → i + Z.of_nat k <= 8 * Z.of_nat (length buf) →
  bitmap_bit (mark_used k i buf) b = ((i <=? b) && (b <? i + Z.of_nat k)) || bitmap_bit buf b.
Proof.
  revert i buf. induction k as [|k IH]; intros i buf Hi Hb Hl.
  { simpl. rewrite Z.add_0_r. replace ((i <=? b) && (b <? i)) with false; [done|]. symmetry. apply andb_false_iff.
    destruct (Z.leb_spec i b); [right; apply Z.ltb_ge; lia | by left]. }
  cbn [mark_used]. rewrite IH, set_bit_spec; [|done|done|Z.div_mod_to_equations; lia|lia|done|rewrite length_alter; lia].
  rewrite orb_assoc. f_equal. apply eq_true_iff_eq.
  rewrite orb_true_iff, !andb_true_iff, !Z.leb_le, !Z.ltb_lt, Z.eqb_eq. lia.
Qed.

(** The free map: the blocks below [fb] are in use, those from [fb] on are not. *)
Definition bitmap_ok (img : Z → list Z) (fb : Z) : Prop :=
  ∀ b, 0 <= b < FSSIZE → bitmap_bit (img (BBLOCK b mk_sb)) b = (b <? fb).
Lemma mk_ok_bitmap img fb F l : length l = Z.to_nat BSIZE → mk_ok img fb F → mk_ok (upd img 58 l) fb F.
Proof.
  intros Hl [Hd Hf Hun]. assert (Hne : ∀ b, b < 58 ∨ 59 <= b → upd img 58 l b = img b) by (intros; apply upd_ne; lia). split.
  - destruct Hd as [H1 H2 H3 H4 H5 H6 H7 H8]. rewrite nmeta_eq in H3. split; try done.
    + by apply sectors_upd.
    + intros b Hb. rewrite Hne by lia. auto.
    + intros b Hb. rewrite Hne by lia. auto.
  - intros k f Hk. destruct (Hf k f Hk) as [[Hb Hs] Hsz]. split; [|done].
    pose proof (is_inum_of k _ (lookup_lt_Some _ _ _ Hk) (do_cnt _ _ _ Hd)) as Hi. destruct (iblock_range _ Hi) as [Hr _].
    assert (din_of (upd img 58 l) (inum_of k) = din_of img (inum_of k)) as E by (unfold din_of; rewrite Hne by (unfold inode_block in Hr; lia); done).
    unfold holds. rewrite E. split; [|done]. eapply file_body_frame; [| |exact Hb].
    + intros b Hbo H0. pose proof (do_own _ _ _ Hd k f b Hk Hbo H0) as Hr'. rewrite nmeta_eq in Hr'. apply Hne. lia.
    + intros b. by apply (do_nz _ _ _ Hd k).
  - intros inum Hi. destruct (iblock_range inum) as [Hr _]; [unfold is_inum; lia|]. rewrite <- (Hun inum Hi). unfold din_of.
    by rewrite Hne by (unfold inode_block in Hr; lia).
Qed.

Lemma mk_finish_image G s rd :
  image G s → G !! 0%nat = Some (T_DIR, rd) → (length rd mod 512 ≠ 0)%nat →
  ∃ img F, mk_finish 1 n s = Done tt (Mk FSSIZE img (inum_of (length G)) (nmeta + total G)) ∧ mk_ok img (nmeta + total G) F
    ∧ contents <$> F = <[0%nat := (T_DIR, padded rd)]> G ∧ bitmap_ok img (nmeta + total G).
Proof.
  intros (img & F & -> & Hok & HG) H0 Hmod. rewrite HG, list_lookup_fmap, fmap_Some in H0. destruct H0 as (f & Hf & [= Et ->]).
  pose proof (do_fb _ _ _ (mo_disk _ _ _ Hok)) as Hr. rewrite nmeta_eq in Hr |- *. unfold mk_finish.
  erewrite bind_done by (apply rinode_done; done). cbn [mk_img].
  destruct (mo_file _ _ _ Hok 0%nat f Hf) as [[_ Hs] Hsz]. change (inum_of 0) with 1 in Hs. rewrite Hs.
  pose proof (sz_max _ Hsz) as Hmax. change (MAXFILE * BSIZE) with 71680 in Hmax. rewrite (xint_small (Z.of_nat _)) by lia.
  erewrite bind_done by (by apply winode_done). erewrite bind_done by reflexivity. cbn [mk_freeblock]. unfold mk_balloc.
  rewrite (proj2 (Z.ltb_lt _ _)) by (change (BSIZE * 8) with 4096; unfold FSSIZE in Hr; lia). erewrite bind_done by reflexivity.
  change (sb_bmapstart mk_sb) with 58. rewrite wsect_done by done.
  eexists _, (<[0%nat := with_data f (padded (a_data f))]> F). split; [done|]. split_and!.
  - apply mk_ok_bitmap; [by rewrite mark_used_length|]. by apply pad_root.
  - rewrite list_fmap_insert, <- HG. unfold contents. simpl. by rewrite <- Et.
  - intros b Hb. unfold BBLOCK, FSSIZE in *. rewrite (Z.div_small b BPB) by (change BPB with 4096; lia). change (u32 (0 + sb_bmapstart mk_sb)) with 58.
    assert (Hzl : Z.of_nat (length zeroes) = 512) by done.
    rewrite upd_eq, mark_used_spec; [|lia | lia | rewrite Hzl; lia].
    rewrite (proj2 (Z.leb_le 0 b)), Z2Nat.id by lia. cbn [andb]. rewrite Z.add_0_l.
    assert (bitmap_bit zeroes b = false) as ->; [|by rewrite orb_false_r].
    unfold bitmap_bit, zeroes. rewrite lookup_total_replicate_2 by (unfold BSIZE; Z.div_mod_to_equations; lia). by rewrite Z.bits_0.
Qed.

(** The whole program. *)
Lemma mkfs_main_image files :
  fit_files files → (length (root_data files) mod 512 ≠ 0)%nat →
  let fb := nmeta + total (made files) in
  ∃ img F, mkfs_main files n mk_start = Done tt (Mk FSSIZE img (inum_of (S (length files))) fb) ∧ mk_ok img fb F
    ∧ contents <$> F = (T_DIR, padded (root_data files)) :: (plain <$> files) ∧ bitmap_ok img fb.
Proof.
  intros Hff Hmod fb. unfold mkfs_main. erewrite bind_done by reflexivity.
  destruct mk_root_image as (s1 & E1 & H1). change (mk_start <| mk_freeblock := nmeta |>) with (Mk 0 (λ _, zeroes) 1 nmeta).
  rewrite (bind_done _ _ _ _ _ _ E1). destruct (mk_files_image files [] s1 Hff) as (s2 & E2 & H2).
  { unfold made, root_data. cbn [imap concat fmap list_fmap]. by rewrite app_nil_r. }
  rewrite (bind_done _ _ _ _ _ _ E2). simpl app in H2.
  destruct (mk_finish_image _ s2 _ H2 eq_refl Hmod) as (img & F & E3 & Hok & HF & Hbm).
  exists img, F. rewrite E3. split_and!; [|done..]. unfold made at 1. simpl length. by rewrite length_fmap.
Qed.
End main.
