(* ===== verification/MkfsTree.v ===== *)
(** * MkfsTree: the kernel's view of the image

    The inodes, files and directory of an image that mkfs made, as the
    functions of FsFacts and PathFacts read them from its blocks. *)

From S2P Require Import Prelude Memory Kstate Cprintf Log Inode Fs BioFacts FsFacts PathFacts Mkfs MkfsFacts MkfsImage.

Lemma ld32_slice l (o : nat) x : 0 <= x → x + 4 <= 64 → ld32 (slice o 64 l) x = ld32 l (Z.of_nat o + x).
Proof.
  intros H0 H1. unfold ld32. f_equal. change (slice (Z.to_nat x) 4 (slice o 64 l) = slice (Z.to_nat (Z.of_nat o + x)) 4 l). apply list_eq. intros k.
  rewrite !slice_lookup. repeat case_decide; try lia; try done. f_equal. lia.
Qed.
Lemma ld16_slice l (o : nat) x : 0 <= x → x + 2 <= 64 → ld16 (slice o 64 l) x = ld16 l (Z.of_nat o + x).
Proof.
  intros H0 H1. unfold ld16. f_equal. change (slice (Z.to_nat x) 2 (slice o 64 l) = slice (Z.to_nat (Z.of_nat o + x)) 2 l). apply list_eq. intros k.
  rewrite !slice_lookup. repeat case_decide; try lia; try done. f_equal. lia.
Qed.

(** An inode as the kernel reads it. *)
Lemma dino_din img inum :
  let i := dino img mk_sb inum in let din := din_of img inum in
  i_type i = s16 (ld16 din din_type) ∧ i_nlink i = s16 (ld16 din din_nlink) ∧ i_size i = ld32 din din_size
  ∧ ∀ j, 0 <= j <= NDIRECT → i_addrs i !!! Z.to_nat j = ld32 din (din_addrs j).
Proof.
  pose proof (inum_slot inum) as [H0 _]. unfold din_of. change (Z.to_nat sizeof_dinode) with 64%nat. change sizeof_dinode with 64 in *.
  cbv zeta. rewrite !ld16_slice, ld32_slice by (unfold din_type, din_nlink, din_size; lia). rewrite Z2Nat.id by lia.
  unfold dino, dino_at, dinode_get. cbn -[addrs_of ld16 ld32 s16 IBLOCK Z.add Z.mul Z.modulo].
  unfold din_type. rewrite Z.add_0_r. split_and!; [done..|].
  intros j Hj. rewrite ld32_slice by (unfold din_addrs, NDIRECT in *; lia). rewrite Z2Nat.id by lia.
  unfold addrs_of. rewrite list_lookup_total_alt, list_lookup_fmap, lookup_seqZ_lt by (unfold NDIRECT in *; lia). simpl.
  f_equal. unfold din_addrs. lia.
Qed.

Section view.
Context (img : Z → list Z) (fb : Z) (F : list afile) (Hok : mk_ok img fb F).
Context (k : nat) (f : afile) (Hk : F !! k = Some f) (Hty : a_type f = T_DIR ∨ a_type f = T_FILE).

Abbreviation i := (dino img mk_sb (inum_of k)).

Lemma view_type : i_type i = a_type f.
Proof.
  destruct (mo_file _ _ _ Hok k f Hk) as [[Hb _] _]. destruct (dino_din img (inum_of k)) as (-> & _). rewrite (fb_type _ _ _ Hb).
  by destruct Hty as [-> | ->].
Qed.
Lemma view_nlink : i_nlink i = 1.
Proof.
  destruct (mo_file _ _ _ Hok k f Hk) as [[Hb _] _]. destruct (dino_din img (inum_of k)) as (_ & -> & _). by rewrite (fb_nlink _ _ _ Hb).
Qed.
Lemma view_size : i_size i = Z.of_nat (length (a_data f)).
Proof. destruct (mo_file _ _ _ Hok k f Hk) as [[_ Hs] _]. destruct (dino_din img (inum_of k)) as (_ & _ & -> & _). done. Qed.
Lemma view_blk j b : a_blks f !! j = Some b → fblk img (i_addrs i) (Z.of_nat j) = b ∧ b ≠ 0 ∧ is_blk b.
Proof.
  intros Hj. pose proof (mo_disk _ _ _ Hok) as Hd. pose proof (list_elem_of_lookup_2 _ _ _ Hj) as Hin.
  pose proof (do_nz _ _ _ Hd k f b Hk Hin) as H0. pose proof (do_own _ _ _ Hd k f b Hk (list_elem_of_further _ _ _ Hin) H0) as Hr.
  pose proof (do_fb _ _ _ Hd) as Hfb. rewrite nmeta_eq in *. split; [|unfold is_blk; lia].
  destruct (mo_file _ _ _ Hok k f Hk) as [[Hb _] Hsz]. destruct (dino_din img (inum_of k)) as (_ & _ & _ & Ha).
  pose proof (lookup_lt_Some _ _ _ Hj) as Hlt. unfold fblk. destruct (Z.ltb_spec (Z.of_nat j) NDIRECT) as [H|H]; unfold NDIRECT in H.
  - rewrite Ha by (unfold NDIRECT; lia). rewrite (fb_direct _ _ _ Hb) by lia. by rewrite Hj.
  - rewrite (Ha NDIRECT), (fb_indirect _ _ _ Hb) by (unfold NDIRECT; lia).
    replace (4 * (Z.of_nat j - NDIRECT)) with (4 * Z.of_nat (j - 12)) by (unfold NDIRECT; lia). pose proof (fb_max _ _ _ Hb).
    rewrite (fb_ind _ _ _ Hb) by (lia || apply (fb_ind0 _ _ _ Hb); lia). replace (12 + (j - 12))%nat with j by lia. by rewrite Hj.
Qed.
Lemma view_page (o : nat) : (o < length (a_data f))%nat → is_Some (a_blks f !! (o / 512)%nat).
Proof.
  intros Ho. apply lookup_lt_is_Some_2. destruct (mo_file _ _ _ Hok k f Hk) as [_ Hsz]. rewrite (sz_blks _ Hsz).
  pose proof (nb_covers (length (a_data f))). apply Nat.Div0.div_lt_upper_bound; lia.
Qed.
Lemma view_byte (o : nat) : (o < length (a_data f))%nat → a_data f !! o = Some (fbyte img (i_addrs i) (Z.of_nat o)).
Proof.
  intros Ho. destruct (view_page o Ho) as [b Hb]. destruct (view_blk _ _ Hb) as (Eb & _). unfold fbyte.
  change BSIZE with (Z.of_nat 512). rewrite <- Nat2Z.inj_div, <- Nat2Z.inj_mod, Eb, Nat2Z.id.
  destruct (mo_file _ _ _ Hok k f Hk) as [[Hbd _] _]. rewrite (fb_block _ _ _ Hbd _ _ Hb).
  pose proof (Nat.mod_upper_bound o 512 ltac:(done)) as Hm. pose proof (Nat.div_mod_eq o 512) as Hdm.
  rewrite list_lookup_total_alt, page_lookup by done. rewrite <- Hdm. destruct (lookup_lt_is_Some_2 _ _ Ho) as [x ->]. done.
Qed.
Lemma view_bytes off len :
  (off + len <= length (a_data f))%nat → fbytes img (i_addrs i) (Z.of_nat off) (Z.of_nat len) = slice off len (a_data f).
Proof.
  intros Hle. apply list_eq. intros j. rewrite slice_lookup. unfold fbytes. rewrite list_lookup_fmap. case_decide as Hj.
  - rewrite lookup_seqZ_lt by lia. simpl. rewrite <- Nat2Z.inj_add. symmetry. apply view_byte. lia.
  - by rewrite lookup_seqZ_ge by lia.
Qed.
Lemma view_map : fmapped img (i_addrs i) (i_size i).
Proof.
  destruct (mo_file _ _ _ Hok k f Hk) as [[Hb _] Hsz]. rewrite view_size. split.
  - pose proof (sz_max _ Hsz). lia.
  - intros j H0 Hlt. destruct (view_page (Z.to_nat (j * BSIZE))) as [b Hbl]; [unfold BSIZE in *; lia|].
    replace (Z.to_nat (j * BSIZE)) with (Z.to_nat j * 512)%nat in Hbl by (unfold BSIZE; lia). rewrite Nat.div_mul in Hbl by done.
    destruct (view_blk _ _ Hbl) as (E & ? & ?). rewrite Z2Nat.id in E by done. by rewrite E.
  - intros Hlt. destruct (dino_din img (inum_of k)) as (_ & _ & _ & Ha). rewrite (Ha NDIRECT), (fb_indirect _ _ _ Hb) by (unfold NDIRECT; lia).
    assert (Hn : (12 < length (a_blks f))%nat).
    { rewrite (sz_blks _ Hsz). pose proof (nb_covers (length (a_data f))). unfold NDIRECT, BSIZE in *. lia. }
    pose proof (fb_ind0 _ _ _ Hb Hn) as H0. split; [done|]. pose proof (mo_disk _ _ _ Hok) as Hd.
    pose proof (do_own _ _ _ Hd k f _ Hk (list_elem_of_here _ _) H0) as Hr. pose proof (do_fb _ _ _ Hd). rewrite nmeta_eq in *. unfold is_blk. lia.
Qed.
Lemma view_wf : (a_type f = T_DIR → (length (a_data f) mod 16 = 0)%nat) → ino_wf mk_sb img (inum_of k).
Proof.
  intros Hm. split.
  - destruct (iblock_range (inum_of k)) as [Hr _]; [|unfold is_blk, inode_block, FSSIZE in *; lia].
    eapply is_inum_of; [by eapply lookup_lt_Some | apply (do_cnt _ _ _ (mo_disk _ _ _ Hok))].
  - rewrite view_type. by destruct Hty as [-> | ->].
  - by rewrite view_nlink.
  - apply view_map.
  - rewrite view_type, view_size. intros Ht. change sizeof_dirent with (Z.of_nat 16). rewrite <- Nat2Z.inj_mod. by rewrite Hm.
Qed.
End view.

(** ** Names *)

Lemma strncpy_length m t : length (strncpy_l m t) = m.
Proof.
  revert t. induction m as [|m IH]; intros t; [done|]. simpl. destruct t as [|c t]; simpl; [by rewrite length_replicate|].
  destruct (c =? 0); simpl; [by rewrite length_replicate | by rewrite IH].
Qed.
(** Comparing a cut name with a stored one compares the cut names. *)
Lemma strncmp_strncpy m s t :
  0 ∉ s → 0 ∉ t → strncmp_l m (take m s) (strncpy_l m t) = 0 ↔ take m s = take m t.
Proof.
  revert s t. induction m as [|m IH]; intros s t Hs Ht; [done|].
  destruct s as [|a s], t as [|b t]; simpl; [done|..].
  - apply not_elem_of_cons in Ht as [Hb _]. rewrite (proj2 (Z.eqb_neq b 0)) by done. simpl. split; [lia | done].
  - apply not_elem_of_cons in Hs as [Ha _]. rewrite (proj2 (Z.eqb_neq a 0)) by done. simpl. split; [lia | done].
  - apply not_elem_of_cons in Hs as [Ha Hs], Ht as [Hb Ht]. rewrite (proj2 (Z.eqb_neq b 0)), (proj2 (Z.eqb_neq a 0)) by done. simpl.
    destruct (Z.eqb_spec a b) as [->|Hne].
    + rewrite IH by done. split; [by intros -> | by intros [= ->]].
    + split; [lia | by intros [= ? _]].
Qed.

Lemma mk_dirent_length inum name : length (mk_dirent inum name) = 16%nat.
Proof. unfold mk_dirent. by rewrite length_inserts, length_st16. Qed.
Lemma mk_dirent_inum inum name : 0 <= inum < 2 ^ 16 → de_inum (mk_dirent inum name) = inum.
Proof.
  intros H. unfold de_inum, mk_dirent. transitivity (ld16 (st16 (replicate 16 0) 0 (xshort inum)) 0).
  - unfold ld16. f_equal. apply (slice_inserts_ne 0 2). left. done.
  - rewrite ld16_st16 by done. rewrite xshort_u16. unfold u16. by rewrite Z.mod_mod, Z.mod_small.
Qed.
Lemma mk_dirent_name inum name : de_name (mk_dirent inum name) = strncpy_l (Z.to_nat DIRSIZ) name.
Proof.
  unfold de_name.
  rewrite <- (firstn_all (drop 2 (mk_dirent inum name))), length_drop, mk_dirent_length.
  change (slice 2 14 (mk_dirent inum name) = strncpy_l 14 name). unfold mk_dirent.
  rewrite <- (strncpy_length 14 name) at 1. apply slice_inserts_eq. rewrite strncpy_length, length_st16. simpl. lia.
Qed.

(** ** The root directory *)

(** Its entries: inode and name. *)
Definition root_entries (files : list hostfile) : list (Z * list Z) :=
  (1, str ".") :: (1, str "..") :: imap (λ k f, (inum_of (S k), skip_underscore (hf_name f))) files.
Definition raw (e : Z * list Z) : list Z := mk_dirent e.1 e.2.
Lemma root_data_raw files : root_data files = concat (raw <$> root_entries files).
Proof.
  unfold root_data, root_dots, root_entries. cbn [fmap list_fmap concat]. rewrite fmap_imap, <- app_assoc. done.
Qed.
Lemma raw_slice es k e : es !! k = Some e → slice (16 * k) 16 (concat (raw <$> es)) = raw e.
Proof.
  revert k. induction es as [|e' es IH]; intros [|k] Hk; simplify_eq/=.
  - unfold slice. rewrite drop_0. apply take_app_length'. symmetry. apply mk_dirent_length.
  - rewrite <- (IH k Hk). unfold slice. f_equal. rewrite drop_app_ge by (unfold raw; rewrite mk_dirent_length; lia).
    unfold raw at 1. rewrite mk_dirent_length. f_equal. lia.
Qed.
Lemma raw_length es : length (concat (raw <$> es)) = (16 * length es)%nat.
Proof. induction es as [|e es IH]; [done|]. rewrite fmap_cons. cbn [concat length]. rewrite length_app, IH. unfold raw. rewrite mk_dirent_length. lia. Qed.
Lemma root_data_length files : length (root_data files) = (16 * (2 + length files))%nat.
Proof. rewrite root_data_raw, raw_length. unfold root_entries. simpl. rewrite length_imap. lia. Qed.

(** Padding adds empty entries. *)
Lemma padded_entry es k :
  (16 * k + 16 <= length (padded (concat (raw <$> es))))%nat →
  slice (16 * k) 16 (padded (concat (raw <$> es))) = match es !! k with Some e => raw e | None => replicate 16 0 end.
Proof.
  intros Hle. pose proof (raw_length es) as Hl. unfold padded in *. destruct (es !! k) as [e|] eqn:Ek.
  - rewrite <- (raw_slice _ _ _ Ek). apply lookup_lt_Some in Ek. unfold slice. rewrite drop_app_le by lia.
    rewrite take_app_le by (rewrite length_drop; lia). done.
  - apply lookup_ge_None in Ek. unfold slice. rewrite drop_app_ge by lia. rewrite drop_replicate, take_replicate. f_equal.
    rewrite length_app, length_replicate in Hle. lia.
Qed.

(** The first entry with the name. *)
Lemma dir_find_at v addrs name inum (k len : nat) : ∀ a : nat,
  (a <= k < a + len)%nat → de_inum (dent v addrs (Z.of_nat k)) = inum → inum ≠ 0 → namecmp name (de_name (dent v addrs (Z.of_nat k))) = 0 →
  (∀ j : nat, (a <= j < k)%nat → namecmp name (de_name (dent v addrs (Z.of_nat j))) ≠ 0) →
  dir_find v addrs name (seqZ (Z.of_nat a) (Z.of_nat len)) = Some (inum, sizeof_dirent * Z.of_nat k).
Proof.
  induction len as [|len IH]; intros a Hr Hi H0 Hc Hlt; [lia|].
  rewrite Nat2Z.inj_succ, seqZ_cons, Z.pred_succ by lia. cbn [dir_find]. destruct (decide (a = k)) as [->|Hne].
  - rewrite Hi, (proj2 (Z.eqb_neq inum 0)), (proj2 (Z.eqb_eq _ 0) Hc) by done. done.
  - rewrite (proj2 (Z.eqb_neq (namecmp _ _) 0)) by (apply Hlt; lia). rewrite <- Nat2Z.inj_succ.
    rewrite IH; [by destruct (_ =? 0) | lia | done | done | done |]. intros j Hj. apply Hlt. lia.
Qed.

(** Names a path can reach: not empty, no NUL, different from the others when cut to DIRSIZ bytes. *)
Record names_ok (files : list hostfile) : Prop := {
  nm_ok e : e ∈ root_entries files → e.2 ≠ [] ∧ 0 ∉ e.2;
  nm_dup : NoDup (take (Z.to_nat DIRSIZ) ∘ snd <$> root_entries files)
}.

Section tree.
Context (img : Z → list Z) (fb : Z) (F : list afile) (Hok : mk_ok img fb F).
Context (files : list hostfile) (HF : contents <$> F = (T_DIR, padded (root_data files)) :: (plain <$> files)).

Lemma root_file : ∃ f, F !! 0%nat = Some f ∧ a_type f = T_DIR ∧ a_data f = padded (root_data files).
Proof.
  assert (H : (contents <$> F) !! 0%nat = Some (T_DIR, padded (root_data files))) by by rewrite HF.
  rewrite list_lookup_fmap, fmap_Some in H. destruct H as (f & Hf & [= E1 E2]). by exists f.
Qed.
Lemma plain_file k h : files !! k = Some h → ∃ f, F !! S k = Some f ∧ a_type f = T_FILE ∧ a_data f = hf_data h.
Proof.
  intros Hk. assert (H : (contents <$> F) !! S k = Some (plain h)) by (rewrite HF; simpl; by rewrite list_lookup_fmap, Hk).
  rewrite list_lookup_fmap, fmap_Some in H. destruct H as (f & Hf & E). exists f. by injection E.
Qed.
Lemma files_count : length F = S (length files).
Proof. rewrite <- (length_fmap contents), HF. simpl. by rewrite length_fmap. Qed.
Lemma files_count_lt : Z.of_nat (length files) + 1 < 200.
Proof. pose proof (do_cnt _ _ _ (mo_disk _ _ _ Hok)) as H. rewrite files_count in H. unfold NINODES in H. lia. Qed.

Abbreviation root := (dino img mk_sb 1).

Lemma root_dent (k : nat) : Z.of_nat k < i_size root / sizeof_dirent →
  dent img (i_addrs root) (Z.of_nat k) = match root_entries files !! k with Some e => raw e | None => replicate 16 0 end.
Proof.
  destruct root_file as (f & Hf & _ & Hd). intros Hlt. pose proof (view_size _ _ _ Hok 0 f Hf) as Hs. change (inum_of 0) with 1 in Hs.
  unfold dent, sizeof_dirent in *. rewrite Hs in Hlt. assert (Hle : (16 * k + 16 <= length (a_data f))%nat) by (Z.div_mod_to_equations; lia).
  replace (16 * Z.of_nat k) with (Z.of_nat (16 * k)) by lia. change (fbytes img ?a ?o 16) with (fbytes img a o (Z.of_nat 16)).
  change root with (dino img mk_sb (inum_of 0)). rewrite (view_bytes _ _ _ Hok 0 f Hf) by done. rewrite Hd, root_data_raw in *. by apply padded_entry.
Qed.
Lemma root_size : i_size root / sizeof_dirent = Z.of_nat (32 * nb (length (root_data files))) ∧ (length (root_entries files) <= 32 * nb (length (root_data files)))%nat.
Proof.
  destruct root_file as (f & Hf & _ & Hd). pose proof (view_size _ _ _ Hok 0 f Hf) as Hs. change (inum_of 0) with 1 in Hs.
  rewrite Hs, Hd, padded_length. split.
  - unfold sizeof_dirent. replace (Z.of_nat (512 * _)) with (Z.of_nat (32 * nb (length (root_data files))) * 16) by lia. by rewrite Z.div_mul.
  - pose proof (nb_covers (length (root_data files))) as H. rewrite root_data_raw, raw_length in H at 1. lia.
Qed.
Lemma root_inum k e : root_entries files !! k = Some e → 1 <= e.1 <= Z.of_nat (S (length files)).
Proof.
  pose proof files_count_lt. unfold root_entries. destruct k as [|[|k]]; simpl; [intros [= <-]; simpl; lia..|].
  rewrite list_lookup_imap, fmap_Some. intros (h & Hh & ->). apply lookup_lt_Some in Hh. unfold inum_of. simpl. lia.
Qed.
Lemma raw_inum k e : root_entries files !! k = Some e → de_inum (raw e) = e.1.
Proof. intros Hk. pose proof (root_inum _ _ Hk). pose proof files_count_lt. apply mk_dirent_inum. lia. Qed.

Lemma root_lookup k inum nm :
  names_ok files → root_entries files !! k = Some (inum, nm) →
  dir_lookup img root (take (Z.to_nat DIRSIZ) nm) = Some (inum, sizeof_dirent * Z.of_nat k).
Proof.
  intros [Hn Hdup] Hk. destruct root_size as [Hs Hle]. pose proof (lookup_lt_Some _ _ _ Hk) as Hlt. unfold dir_lookup. rewrite Hs.
  assert (Hcmp : ∀ j e, root_entries files !! j = Some e →
    namecmp (take (Z.to_nat DIRSIZ) nm) (de_name (dent img (i_addrs root) (Z.of_nat j))) = 0 ↔ take (Z.to_nat DIRSIZ) nm = take (Z.to_nat DIRSIZ) (e.2)).
  { intros j e Hj. pose proof (lookup_lt_Some _ _ _ Hj). rewrite root_dent, Hj by lia. unfold raw, namecmp. rewrite mk_dirent_name.
    apply strncmp_strncpy; [apply (Hn (inum, nm)) | apply (Hn e)]; by eapply list_elem_of_lookup_2. }
  apply (dir_find_at _ _ _ inum k (32 * nb (length (root_data files))) 0); [lia | | | |].
  - rewrite root_dent, Hk by lia. by rewrite (raw_inum _ _ Hk).
  - pose proof (root_inum _ _ Hk) as H. cbn [fst] in H. lia.
  - by apply (Hcmp k _ Hk).
  - intros j Hj E. destruct (lookup_lt_is_Some_2 (root_entries files) j) as [e He]; [lia|]. apply (Hcmp j e He) in E.
    assert (j = k); [|lia].
    apply (NoDup_lookup _ j k (take (Z.to_nat DIRSIZ) nm) Hdup); rewrite list_lookup_fmap; [rewrite He | by rewrite Hk].
    unfold compose. cbn [fmap option_fmap option_map]. by rewrite E.
Qed.

Lemma image_tree : tree_wf mk_sb img (λ inum, 1 <= inum <= Z.of_nat (S (length files))).
Proof.
  intros inum Hi. replace inum with (inum_of (Z.to_nat (inum - 1))) by (unfold inum_of; lia).
  destruct (Z.to_nat (inum - 1)) as [|k] eqn:Ek.
  - destruct root_file as (f & Hf & Ht & Hd). split.
    + eapply view_wf; [done.. | by left |]. intros _. rewrite Hd, padded_length. by rewrite (Nat.mul_comm 512), (Nat.mul_assoc _ 32 16), Nat.Div0.mod_mul.
    + change (inum_of 0) with 1. intros _ j Hj. rewrite <- (Z2Nat.id j) by lia. rewrite root_dent by lia.
      destruct (root_entries files !! Z.to_nat j) as [e|] eqn:He; [|done]. rewrite (raw_inum _ _ He). intros _. by eapply root_inum.
  - destruct (lookup_lt_is_Some_2 files k) as [h Hh]; [lia|]. destruct (plain_file k h Hh) as (f & Hf & Ht & Hd). split.
    + eapply view_wf; [done.. | by right |]. by rewrite Ht.
    + rewrite (view_type _ _ _ Hok (S k) f Hf (or_intror Ht)), Ht. done.
Qed.

(** The super block. *)
Lemma image_sb : sb_of (img 1) = mk_sb.
Proof. rewrite (do_low _ _ _ (mo_disk _ _ _ Hok)) by done. by vm_compute. Qed.
End tree.
