(* ===== verification/MkfsInv.v ===== *)
(** * MkfsInv: the image of mkfs has the invariant of the file system *)

From S2P Require Import Prelude Memory Kstate Cprintf Log LogFacts CrashFacts Inode Fs BioFacts FsFacts PathFacts Ondisk Alloc FileMap BmapFacts WriteMap FsInv Mkfs MkfsFacts MkfsImage MkfsTree.

Lemma layout_mkfs : layout mk_sb 2 LOGSIZE nmeta.
Proof.
  rewrite nmeta_eq. split; [split; done | done | done | | | done | done].
  - change (BBLOCK 0 mk_sb) with 58. unfold in_log. change LOGSIZE with 30. lia.
  - intros inum Hi. destruct (iblock_range inum) as [Hr _]; [unfold is_inum; change (sb_ninodes mk_sb) with NINODES in Hi; lia|].
    change (BBLOCK 0 mk_sb) with 58. unfold inode_block, in_log in *. change LOGSIZE with 30. lia.
Qed.

(** ** Counting blocks *)

Lemma NoDup_filter_inj {A} (P : A → Prop) `{!∀ x, Decision (P x)} (l : list A) :
  (∀ i j x, l !! i = Some x → l !! j = Some x → P x → i = j) → NoDup (filter P l).
Proof.
  induction l as [|y l IH]; intros Hu; [constructor|]. assert (Hl : NoDup (filter P l)).
  { apply IH. intros i j x Hi Hj Hx. by apply Nat.succ_inj, (Hu (S i) (S j) x). }
  rewrite filter_cons. case_decide as Hy; [|done]. constructor; [|done]. rewrite list_elem_of_filter. intros [_ [i Hi]%list_elem_of_lookup].
  by pose proof (Hu 0%nat (S i) y eq_refl Hi Hy).
Qed.
Definition blocks_of (f : afile) : list Z := filter (λ b, b ≠ 0) (owned f).
Lemma NoDup_blocks (G : list afile) :
  (∀ k1 k2 i1 i2 f1 f2 b, G !! k1 = Some f1 → G !! k2 = Some f2 → owned f1 !! i1 = Some b → owned f2 !! i2 = Some b → b ≠ 0 → k1 = k2 ∧ i1 = i2) →
  NoDup (concat (blocks_of <$> G)).
Proof.
  induction G as [|f G IH]; intros Hu; [constructor|]. simpl. apply NoDup_app. split_and!.
  - apply NoDup_filter_inj. intros i j b Hi Hj H0. by apply (Hu 0%nat 0%nat i j f f b).
  - intros b [H0 [i Hi]%list_elem_of_lookup]%list_elem_of_filter Hb. rewrite list_elem_of_In, in_concat in Hb.
    destruct Hb as (l & Hl & Hb). rewrite <- list_elem_of_In in Hl. rewrite <- list_elem_of_In in Hb. apply list_elem_of_fmap in Hl as (g & -> & [k Hg]%list_elem_of_lookup).
    apply list_elem_of_filter in Hb as [_ [j Hj]%list_elem_of_lookup]. by destruct (Hu 0%nat (S k) i j f g b eq_refl Hg Hi Hj H0).
  - apply IH. intros k1 k2 i1 i2 f1 f2 b H1 H2 O1 O2 H0. destruct (Hu (S k1) (S k2) i1 i2 f1 f2 b H1 H2 O1 O2 H0) as [E ?]. split; [by apply Nat.succ_inj | done].
Qed.
Lemma blocks_length f : sized f → (∀ b, b ∈ a_blks f → b ≠ 0) → length (blocks_of f) = need (length (a_data f)).
Proof.
  intros [H1 H2 _] Hnz. unfold blocks_of, owned, need. rewrite filter_cons, <- H1. assert (filter (λ b, b ≠ 0) (a_blks f) = a_blks f) as ->.
  { clear H1 H2. induction (a_blks f) as [|b l IH]; [done|]. rewrite filter_cons, decide_True by (apply Hnz, list_elem_of_here).
    rewrite IH; [done|]. intros c Hc. apply Hnz. by apply list_elem_of_further. }
  unfold ind_ok in H2. repeat case_decide; simpl; tauto || lia.
Qed.

Section image.
Context (img : Z → list Z) (fb : Z) (F : list afile) (Hok : mk_ok img fb F) (Hty : ∀ f, f ∈ F → a_type f = T_DIR ∨ a_type f = T_FILE).
Context (Hbm : bitmap_ok img fb).
Context (Hcount : fb = nmeta + total (contents <$> F)).

Lemma image_marked b : is_blk b → marked mk_sb img b ↔ b < fb.
Proof.
  intros Hb. unfold marked. rewrite <- Z.ltb_lt, <- (Hbm b Hb). unfold BBLOCK, is_blk, FSSIZE in *.
  by rewrite (Z.div_small b), (Z.div_small 0) by (change BPB with 4096; lia).
Qed.
Lemma image_in_use inum : in_use mk_sb img inum ↔ ∃ k f, inum = inum_of k ∧ F !! k = Some f.
Proof.
  pose proof (do_cnt _ _ _ (mo_disk _ _ _ Hok)) as Hc. unfold in_use. change (sb_ninodes mk_sb) with NINODES. split.
  - intros [Hi Ht]. destruct (decide (inum <= Z.of_nat (length F))) as [Hle|Hgt].
    + destruct (lookup_lt_is_Some_2 F (Z.to_nat (inum - 1))) as [f Hf]; [lia|]. exists (Z.to_nat (inum - 1)), f. split; [unfold inum_of; lia | done].
    + destruct (dino_din img inum) as (E & _). rewrite E, (mo_unused _ _ _ Hok) in Ht by lia. done.
  - intros (k & f & -> & Hk). pose proof (lookup_lt_Some _ _ _ Hk). split; [unfold inum_of; lia|].
    rewrite (view_type _ _ _ Hok k f Hk (Hty f (list_elem_of_lookup_2 _ _ _ Hk))). by destruct (Hty f (list_elem_of_lookup_2 _ _ _ Hk)) as [-> | ->].
Qed.

Section file.
Context (k : nat) (f : afile) (Hk : F !! k = Some f).
Abbreviation a := (i_addrs (dino img mk_sb (inum_of k))).

Lemma image_ind : ind_of a = a_ind f.
Proof.
  destruct (mo_file _ _ _ Hok k f Hk) as [[Hb _] _]. destruct (dino_din img (inum_of k)) as (_ & _ & _ & Ha).
  unfold ind_of. rewrite (Ha NDIRECT) by (unfold NDIRECT; lia). apply (fb_indirect _ _ _ Hb).
Qed.
Lemma image_bat j : is_idx j → bat img a j = default 0 (a_blks f !! Z.to_nat j).
Proof.
  rewrite is_idx_max. intros Hj. destruct (mo_file _ _ _ Hok k f Hk) as [[Hb _] Hsz]. destruct (dino_din img (inum_of k)) as (_ & _ & _ & Ha).
  unfold bat. destruct (Z.ltb_spec j NDIRECT) as [Hd|Hd]; unfold NDIRECT in Hd.
  - rewrite Ha by (unfold NDIRECT; lia). rewrite <- (Z2Nat.id j) at 1 by lia. apply (fb_direct _ _ _ Hb). lia.
  - rewrite image_ind. destruct (Z.eqb_spec (a_ind f) 0) as [E|E].
    + rewrite lookup_ge_None_2; [done|]. pose proof (proj1 (sz_ind _ Hsz) E). lia.
    + replace (4 * (j - NDIRECT)) with (4 * Z.of_nat (Z.to_nat j - 12)) by (unfold NDIRECT; lia).
      rewrite (fb_ind _ _ _ Hb) by (done || lia). do 2 f_equal. lia.
Qed.
Lemma image_mine b : mine img a b ↔ b ≠ 0 ∧ b ∈ owned f.
Proof.
  unfold mine, owned. rewrite image_ind, elem_of_cons. split; intros [H0 Hb]; (split; [done|]).
  - destruct Hb as [->|(j & Hj & ->)]; [by left|right]. rewrite (image_bat j Hj) in *. destruct (a_blks f !! Z.to_nat j) eqn:E; [|done]. by eapply list_elem_of_lookup_2.
  - destruct Hb as [->|Hb]; [by left|right]. apply list_elem_of_lookup in Hb as [j Hj]. exists (Z.of_nat j).
    destruct (mo_file _ _ _ Hok k f Hk) as [[Hbd _] _]. pose proof (fb_max _ _ _ Hbd). pose proof (lookup_lt_Some _ _ _ Hj).
    assert (Hi : is_idx (Z.of_nat j)) by (rewrite is_idx_max; lia). split; [done|]. by rewrite image_bat, Nat2Z.id, Hj.
Qed.
Lemma image_file : file_ok mk_sb nmeta img a.
Proof.
  pose proof (mo_disk _ _ _ Hok) as Hd. pose proof (do_fb _ _ _ Hd) as Hr.
  assert (Hi : ∀ j b, is_idx j → bat img a j = b → b ≠ 0 → owned f !! S (Z.to_nat j) = Some b).
  { intros j b Hj E H0. rewrite (image_bat j Hj) in E. simpl. destruct (a_blks f !! Z.to_nat j); simpl in E; [by subst | done]. }
  split.
  - done.
  - intros b [H0 Hb]%image_mine. pose proof (do_own _ _ _ Hd k f b Hk Hb H0). rewrite nmeta_eq in *. split; [lia|]. apply image_marked; [unfold is_blk; lia | lia].
  - intros j j' Hj Hj' E H0. destruct (do_uniq _ _ _ Hd k k _ _ f f _ Hk Hk (Hi j _ Hj eq_refl H0) (Hi j' _ Hj' (eq_sym E) H0) H0) as [_ Eq].
    rewrite is_idx_max in Hj, Hj'. lia.
  - intros j Hj H0 E. rewrite image_ind in E. assert (Hi0 : owned f !! 0%nat = Some (bat img a j)) by (by rewrite E).
    by destruct (do_uniq _ _ _ Hd k k _ _ f f _ Hk Hk (Hi j _ Hj eq_refl H0) Hi0 H0).
Qed.
Lemma image_there : all_there img a (i_size (dino img mk_sb (inum_of k))).
Proof.
  pose proof (view_map _ _ _ Hok k f Hk) as [Hs Hb Hi]. split; [done|]. intros j H0 Hj. pose proof (all_there_idx _ j (proj2 Hs) H0 Hj) as Hx.
  destruct (Hb j H0 Hj) as [Hn _]. unfold fblk, bat in *. destruct (j <? NDIRECT) eqn:E; [done|]. apply Z.ltb_ge in E.
  destruct Hi as [Hi _]; [unfold NDIRECT, BSIZE in *; lia|]. unfold ind_of. by rewrite (proj2 (Z.eqb_neq _ _) Hi).
Qed.
End file.

(** Every block that is in use belongs to a file: there are as many as the
    files need. *)
Lemma image_total : Z.of_nat (length (concat (blocks_of <$> F))) = total (contents <$> F).
Proof.
  assert (Hs : ∀ f, f ∈ F → length (blocks_of f) = need (length (a_data f))).
  { intros f [k Hk]%list_elem_of_lookup. apply blocks_length; [by apply (mo_file _ _ _ Hok k f) | intros b; by apply (do_nz _ _ _ (mo_disk _ _ _ Hok) k f)]. }
  clear Hok Hty Hcount Hbm. induction F as [|f G IH]; [done|]. rewrite !fmap_cons. cbn [concat]. rewrite length_app, Nat2Z.inj_add, IH.
  - rewrite (Hs f) by apply list_elem_of_here. done.
  - intros g Hg. apply Hs. by apply list_elem_of_further.
Qed.
Lemma image_owner b : nmeta <= b < fb → ∃ k f, F !! k = Some f ∧ b ∈ owned f.
Proof.
  intros Hb. pose proof (mo_disk _ _ _ Hok) as Hd. set (L := concat (blocks_of <$> F)).
  assert (HL : ∀ c, c ∈ L → c ≠ 0 ∧ ∃ k f, F !! k = Some f ∧ c ∈ owned f).
  { intros c Hc. unfold L in Hc. rewrite list_elem_of_In, in_concat in Hc. destruct Hc as (l & Hl & Hc). rewrite <- list_elem_of_In in Hl. rewrite <- list_elem_of_In in Hc.
    apply list_elem_of_fmap in Hl as (g & -> & [k Hg]%list_elem_of_lookup). apply list_elem_of_filter in Hc as [H0 Hc]. split; [done|]. by exists k, g. }
  assert (HN : NoDup L) by (apply NoDup_blocks; apply (do_uniq _ _ _ Hd)).
  assert (Hsub : L ⊆+ seqZ nmeta (fb - nmeta)).
  { apply NoDup_submseteq; [done|]. intros c Hc. destruct (HL c Hc) as (H0 & k & f & Hk & Ho). pose proof (do_own _ _ _ Hd k f c Hk Ho H0). apply elem_of_seqZ. lia. }
  assert (HP : L ≡ₚ seqZ nmeta (fb - nmeta)).
  { apply submseteq_length_Permutation; [done|]. rewrite length_seqZ. pose proof image_total as Ht. fold L in Ht. rewrite Hcount. lia. }
  apply HL. rewrite HP. apply elem_of_seqZ. lia.
Qed.

Lemma image_inv : fs_inv mk_sb nmeta img.
Proof.
  pose proof (mo_disk _ _ _ Hok) as Hd. pose proof (do_fb _ _ _ Hd) as Hr. assert (Hblk : ∀ b, nmeta <= b < FSSIZE → is_blk b) by (intros; unfold is_blk; rewrite nmeta_eq in *; lia).
  split.
  - intros b Hb. apply image_marked; [unfold is_blk; lia | lia].
  - intros inum (k & f & -> & Hk)%image_in_use. by eapply image_file.
  - intros inum (k & f & -> & Hk)%image_in_use. by eapply image_there.
  - intros inum inum' b (k & f & -> & Hk)%image_in_use (k' & f' & -> & Hk')%image_in_use.
    rewrite (image_mine k f Hk), (image_mine k' f' Hk'). intros [H0 [i Hi]%list_elem_of_lookup] [_ [i' Hi']%list_elem_of_lookup].
    destruct (do_uniq _ _ _ Hd k k' i i' f f' b Hk Hk' Hi Hi' H0) as [-> _]. done.
  - intros b Hb Hm%image_marked; [|by apply Hblk]. destruct (image_owner b) as (k & f & Hk & Ho); [lia|]. exists (inum_of k). split; [apply image_in_use; eauto|].
    apply (image_mine k f Hk). split; [rewrite nmeta_eq in Hb; lia | done].
Qed.
Lemma image_free : Z.of_nat (length (free_blocks mk_sb img)) = FSSIZE - fb.
Proof.
  pose proof (do_fb _ _ _ (mo_disk _ _ _ Hok)) as Hr. rewrite nmeta_eq in Hr. assert (HP : free_blocks mk_sb img ≡ₚ seqZ fb (FSSIZE - fb)).
  { apply NoDup_Permutation; [apply NoDup_filter, NoDup_seqZ | apply NoDup_seqZ |]. intros b. rewrite elem_of_free, elem_of_seqZ. unfold is_blk. split.
    - intros [Hb Hm]. rewrite image_marked in Hm by done. lia.
    - intros Hb. split; [lia|]. rewrite image_marked by (unfold is_blk; lia). lia. }
  rewrite HP, length_seqZ. lia.
Qed.
End image.

Lemma need_padded l : need (length (padded l)) = need (length l).
Proof. unfold need. by rewrite padded_length, nb_whole. Qed.

(** The whole program. *)
Lemma mkfs_image fuel files :
  fit_files files → ((length files + 2) mod 32 ≠ 0)%nat →
  let fb := nmeta + total (made files) in
  ∃ img F, mkfs_main files fuel mk_start = Done tt (Mk FSSIZE img (inum_of (S (length files))) fb) ∧ mk_ok img fb F
    ∧ contents <$> F = (T_DIR, padded (root_data files)) :: (plain <$> files) ∧ bitmap_ok img fb
    ∧ (∀ f, f ∈ F → a_type f = T_DIR ∨ a_type f = T_FILE) ∧ fb = nmeta + total (contents <$> F).
Proof.
  intros Hff Hmod fb. destruct (mkfs_main_image fuel files Hff) as (img & F & Hrun & Hmk & HF & Hbm).
  { rewrite root_data_length. replace 512%nat with (16 * 32)%nat by done. rewrite Nat.Div0.mul_mod_distr_l. rewrite Nat.add_comm. lia. }
  exists img, F. split_and!; [exact Hrun | done | done | done | |].
  - clear Hrun. intros f Hf. assert (Hc : contents f ∈ contents <$> F) by by apply list_elem_of_fmap_2. rewrite HF in Hc.
    apply elem_of_cons in Hc as [[= ? _]|(g & [= ? _] & _)%list_elem_of_fmap]; [by left | by right].
  - clear Hrun. rewrite HF. unfold fb. rewrite total_made, total_cons, need_padded. done.
Qed.
