(* ===== verification/FsSpec.v ===== *)
(** * FsSpec: reading files and following paths

    The theorems about readi and namex on a file system that the buffer cache
    shows as the blocks [v], and the round trip from mkfs: what mkfs stored
    under a name is what the kernel reads under that name. *)

From S2P Require Import Prelude Memory Kstate Spinlock Kalloc Cprintf Vm Sched SchedFacts Sleeplock Bio BioRing BioFacts Ide IdeFacts Log Inode Console Fs FsFacts PathFacts Ondisk Mkfs MkfsFacts MkfsImage MkfsTree.

Section spec.
Context {Drv : Disk} {p : nat} {R : wait_reason → kst → kst → Prop} {DL : DiskLaw p R} (n : nat) (Hn : (2 <= n)%nat).

(** What readi is to return for [k] bytes at [off]. *)
Definition readi_result (v : blocks) (i : inode) (off k : Z) : Z * list Z :=
  if (off >? i_size i) || (2 ^ 32 <=? off + k) then (-1, [])
  else let k := Z.min k (i_size i - off) in (k, fbytes v (i_addrs i) off k).

Lemma readi_error m d ip i off k :
  d_inodes d !! ip = Some i → i_type i ≠ T_DEV → is_u32 off → is_u32 k → i_size i < off ∨ 2 ^ 32 <= off + k →
  readi ip D_local off k n (K m d) = Done (-1, []) (K m d).
Proof.
  intros Hi Hty Hoff Hk Herr. unfold readi. rewrite (get_inode_bind n m d ip i _ Hi), (proj2 (Z.eqb_neq _ _) Hty).
  assert ((off >? i_size i) || (off +u k <? off) = true) as ->; [|done]. apply orb_true_iff. unfold is_u32 in *.
  destruct Herr as [H|H]; [left; apply Z.gtb_lt; lia | right; apply Z.ltb_lt].
  unfold u32. rewrite <- (Z.mod_unique (off + k) (2 ^ 32) 1 (off + k - 2 ^ 32)); lia.
Qed.

(** C26: readi returns what the file holds.  For every offset and count of 32
    bits it returns -1 when the offset lies behind the end or the sum wraps
    around, and otherwise the bytes of the file from the offset on, up to the
    count or the end, whatever blocks they are in, direct or indirect; it
    neither panics nor writes a block, and needs no more than the given number
    of waits. *)
Theorem readi_spec m d v E D ip i off k :
  fs_ok m d v E D ∅ → (size D < NBUF)%nat → d_inodes d !! ip = Some i → i_dev i = ROOTDEV → i_type i ≠ T_DEV →
  fmapped v (i_addrs i) (i_size i) → is_u32 off → is_u32 k →
  wp R (readi ip D_local off k n (K m d)) (ro_post d v E D (readi_result v i off k)).
Proof.
  intros Hok Hsz Hi Hdev Hty Hf Hoff Hk. unfold readi_result, is_u32 in *. pose proof (fm_size _ _ _ Hf).
  destruct (Z.gtb_spec off (i_size i)) as [H1|H1]; [|destruct (Z.leb_spec (2 ^ 32) (off + k)) as [H2|H2]]; simpl orb; cbv iota.
  1, 2: rewrite (readi_error m d ip i off k) by (done || unfold is_u32; lia); split; [done|]; exists m, d;
    split_and!; [done | done | done | by apply wrote_nil].
  by apply readi_wp; try done; lia.
Qed.

(** C21: following a path.  namex of any path, absolute or relative to the
    directory of the process, finds exactly the inode that the walk along the
    path's elements leads to, each element looked up in the directory before
    it, or none when an element is missing or is looked up in a file that is no
    directory; with nameiparent it stops one element early and returns the last
    one.  The inode found has one more reference and no other count changed. *)
Theorem namex_spec m d sb v E D P path parent inum :
  fs_ok m d v E D ∅ → icache sb v None d → (size D < NBUF)%nat → (2 <= nfree (refs d))%nat →
  tree_wf sb v P → P inum → path_start (p := p) d path inum →
  wp R (namex path parent n (K m d))
    (namex_post sb v E D d (walk sb v parent (path_elems (S (length path)) path) inum [])).
Proof. apply (namex_wp n Hn). Qed.

(** ** A path below the root *)

Lemma take_elem_all nm : slash ∉ nm → take_elem nm = (nm, []).
Proof.
  induction nm as [|c nm IH]; [done|]. intros [Hc Hnm]%not_elem_of_cons. simpl. rewrite (proj2 (Z.eqb_neq c slash)) by done. by rewrite IH.
Qed.
Lemma root_path nm : nm ≠ [] → slash ∉ nm → path_elems (S (length (slash :: nm))) (slash :: nm) = [take (Z.to_nat DIRSIZ) nm].
Proof.
  intros Hne Hs. cbn [length path_elems]. assert (skipelem (slash :: nm) = Some (take (Z.to_nat DIRSIZ) nm, [])) as ->; [|done].
  unfold skipelem. simpl skip_slashes. destruct nm as [|c nm]; [done|]. pose proof Hs as [Hc _]%not_elem_of_cons.
  simpl skip_slashes. rewrite (proj2 (Z.eqb_neq c slash)) by done. by rewrite take_elem_all.
Qed.

(** Open by name, lock, read: the start of sys_open and fileread. *)
Definition read_file (path : list Z) (k : Z) : KM (option (Z * list Z)) :=
  o ← namei path;
  match o with
  | None => mret None
  | Some ip => ilock (Some ip) ;; r ← readi ip D_local 0 k; mret (Some r)
  end.

Lemma read_file_wp m d sb v E D P nm inum' off :
  fs_ok m d v E D ∅ → icache sb v None d → (size D < NBUF)%nat → (2 <= nfree (refs d))%nat → tree_wf sb v P → P ROOTINO →
  nm ≠ [] → slash ∉ nm → i_type (dino v sb ROOTINO) = T_DIR →
  dir_lookup v (dino v sb ROOTINO) (take (Z.to_nat DIRSIZ) nm) = Some (inum', off) → i_type (dino v sb inum') ≠ T_DEV →
  let i := dino v sb inum' in
  wp R (read_file (slash :: nm) (i_size i) n (K m d)) (λ r s', r = Some (i_size i, fbytes v (i_addrs i) 0 (i_size i)) ∧ wrote [] d (kd s')).
Proof.
  intros Hok Hic Hsz Hfree Htree HP Hne Hs Hdir Hlk Hty i. unfold read_file, namei.
  assert (Hst : path_start (p := p) d (slash :: nm) ROOTINO) by done.
  apply wp_bind, wp_bind. eapply wp_mono; [|apply (namex_wp n Hn m d sb v E D P (slash :: nm) false ROOTINO Hok Hic Hsz Hfree Htree HP Hst)].
  rewrite root_path by done. cbn [walk]. rewrite Hdir. cbn [Z.eqb Pos.eqb T_DIR negb andb]. rewrite Hlk.
  intros [o name] s1 [_ (ip & E1 & m1 & d1 & -> & Hok1 & Hic1 & Er1 & Hf1 & j & Hj & Hjn & Hjr)]. simpl in E1. subst o. cbn [fst].
  assert (HP' : P inum') by by eapply tree_next. destruct (Htree inum' HP') as [Hwf _].
  apply wp_bind. eapply wp_mono; [|apply (ilock_wp n Hn m1 d1 sb v E D ip j Hok1 Hic1 Hsz Hj Hjr); by rewrite Hjn].
  intros [] s2 (m2 & d2 & -> & Hok2 & Hic2 & Er2 & Hf2 & i2 & Hi2 & Hin2 & Hr2 & Hdev & Et & _ & Es & Ea).
  rewrite Hin2, Hjn in Et, Es, Ea. fold i in Et, Es, Ea.
  apply wp_bind. pose proof (fm_size _ _ _ (wf_map _ _ _ Hwf)) as Hms. change (MAXFILE * BSIZE) with 71680 in Hms. fold i in Hms.
  eapply wp_mono; [|apply (readi_wp n Hn m2 d2 v E D ip i2 0 (i_size i) Hok2 Hsz Hi2 Hdev)]; rewrite ?Et, ?Es, ?Ea; try done; try lia; [|apply Hwf].
  rewrite Z.sub_0_r, Z.min_id. intros r s3 (-> & m3 & d3 & -> & _ & _ & Hw3). split; [done|].
  pose proof (if_wrote _ _ Hf1) as Hw1. pose proof (if_wrote _ _ Hf2) as Hw2. simpl. by apply (wrote_app [] [] d d2); [apply (wrote_app [] [] d d1)|].
Qed.

(** ** mkfs and the kernel *)

(** A file system that holds the files under their names. *)
Record boots_with (img : blocks) (fb : Z) (files : list hostfile) : Prop := {
  bw_len b : is_blk b → length (img b) = Z.to_nat BSIZE;
  bw_sb : sb_of (img 1) = mk_sb;
  bw_log b : 2 <= b < 2 + nlog → img b = zeroes;
  bw_bitmap : bitmap_ok img fb;
  bw_free : fb < FSSIZE → free_bit (Z.to_nat FSSIZE) (img (BBLOCK 0 mk_sb)) 0 = Some fb;
  bw_read k f m d E D : files !! k = Some f →
    fs_ok m d img E D ∅ → icache mk_sb img None d → (size D < NBUF)%nat → (2 <= nfree (refs d))%nat →
    wp R (read_file (slash :: skip_underscore (hf_name f)) (Z.of_nat (length (hf_data f))) n (K m d))
      (λ r s', r = Some (Z.of_nat (length (hf_data f)), hf_data f) ∧ wrote [] d (kd s'))
}.

Lemma image_read img fb F files k f m d E D :
  mk_ok img fb F → contents <$> F = (T_DIR, padded (root_data files)) :: (plain <$> files) → names_ok files →
  files !! k = Some f → slash ∉ hf_name f →
  fs_ok m d img E D ∅ → icache mk_sb img None d → (size D < NBUF)%nat → (2 <= nfree (refs d))%nat →
  wp R (read_file (slash :: skip_underscore (hf_name f)) (Z.of_nat (length (hf_data f))) n (K m d))
    (λ r s', r = Some (Z.of_nat (length (hf_data f)), hf_data f) ∧ wrote [] d (kd s')).
Proof.
  intros Hmk HF Hnm Hk Hsl Hok Hic Hsz Hfree. set (nm := skip_underscore (hf_name f)).
  assert (He : root_entries files !! S (S k) = Some (inum_of (S k), nm)) by (simpl; by rewrite list_lookup_imap, Hk).
  destruct (nm_ok _ Hnm _ (list_elem_of_lookup_2 _ _ _ He)) as [Hne _]. cbn [snd] in Hne.
  assert (Hs : slash ∉ nm).
  { unfold nm, skip_underscore. destruct (hf_name f) as [|c l]; [done|]. apply not_elem_of_cons in Hsl as H. destruct (c =? 95); [apply H | done]. }
  pose proof (root_lookup _ _ _ Hmk _ HF _ _ _ Hnm He) as Hlk. destruct (root_file _ _ HF) as (fr & Hfr & Htr & _).
  destruct (plain_file _ _ HF k f Hk) as (ff & Hff & Htf & Hdf). pose proof (view_size _ _ _ Hmk _ _ Hff) as Hvs. rewrite Hdf in Hvs.
  pose proof (view_bytes _ _ _ Hmk _ _ Hff 0 (length (hf_data f)) ltac:(rewrite Hdf; lia)) as Hvb. rewrite Hdf in Hvb.
  eapply wp_mono; [|rewrite <- Hvs; apply (read_file_wp m d mk_sb img E D _ nm (inum_of (S k)) (sizeof_dirent * Z.of_nat (S (S k))) Hok Hic Hsz Hfree (image_tree _ _ _ Hmk _ HF)); try done].
  - rewrite Hvs. intros r s' [-> Hw]. split; [|done]. do 2 f_equal. rewrite (Hvb : fbytes _ _ 0 _ = _). unfold slice. rewrite drop_0. by apply take_ge.
  - unfold ROOTINO. lia.
  - change ROOTINO with (inum_of 0). by rewrite (view_type _ _ _ Hmk 0 fr Hfr (or_introl Htr)).
  - by rewrite (view_type _ _ _ Hmk _ ff Hff (or_intror Htf)), Htf.
Qed.

(** C20: mkfs and the kernel agree.  For any files that fit, that is for any
    names and contents the disk, the inodes and the largest file size allow,
    except that the number of files plus 2 is not a multiple of 32 (then the root's
    directory entries fill whole blocks, and mkfs.c:161 rounds its size up past
    them to a block that was never allocated), mkfs ends without a failed assertion, and the image it leaves has
    the super block the kernel computes with, an empty log, a free map in which
    exactly the used blocks are marked, the first clear bit being the next free
    block, and for every file the kernel's lookup of its name from the root,
    followed by ilock and readi, returns the bytes that were read on the host,
    in whatever pieces they came. *)
Theorem mkfs_roundtrip fuel files :
  fit_files files → names_ok files → ((length files + 2) mod 32 ≠ 0)%nat →
  ∃ img fi fb, mkfs_main files fuel mk_start = Done tt (Mk FSSIZE img fi fb) ∧ boots_with img fb files.
Proof.
  intros Hff Hnm Hmod. destruct (mkfs_main_image fuel files Hff) as (img & F & Hrun & Hmk & HF & Hbm).
  { rewrite root_data_length. replace 512%nat with (16 * 32)%nat by done. rewrite Nat.Div0.mul_mod_distr_l. rewrite Nat.add_comm. lia. }
  exists img, (inum_of (S (length files))), (nmeta + total (made files)). split; [exact Hrun|]. clear Hrun.
  pose proof (mo_disk _ _ _ Hmk) as Hd. pose proof (do_fb _ _ _ Hd) as Hfb. rewrite nmeta_eq in Hfb. split.
  - apply (do_sec _ _ _ Hd).
  - by apply (image_sb _ _ _ Hmk).
  - intros b Hb. change (2 + nlog) with 32 in Hb. rewrite (do_low _ _ _ Hd) by lia. unfold low. by rewrite (proj2 (Z.eqb_neq b 1)) by lia.
  - done.
  - intros Hlt. assert (Hbit : ∀ b, is_blk b → bitmap_bit (img (BBLOCK 0 mk_sb)) b = (b <? nmeta + total (made files))).
    { intros b Hb. rewrite <- (Hbm b Hb). do 2 f_equal. unfold BBLOCK, is_blk, FSSIZE in *.
      rewrite !Z.div_small; [done|..]; change BPB with 4096; lia. }
    apply free_bit_first; rewrite ?Z2Nat.id by done; rewrite nmeta_eq in *; [| |lia..].
    + intros b Hb. rewrite Hbit by (unfold is_blk; lia). apply Z.ltb_lt. lia.
    + rewrite Hbit by (unfold is_blk; lia). apply Z.ltb_irrefl.
  - intros k f m d E D Hk. eapply image_read; try done. destruct (ff_open _ Hff f (list_elem_of_lookup_2 _ _ _ Hk)). done.
Qed.
End spec.

(** ** A kernel that has booted from an image, with memide.c *)

Definition inode_locks : gmap slid sleeplock := list_to_map ((λ k, (SL_inode k, Sleeplock 0 "inode" 0)) <$> seq 0 NINODE).
Definition dboot (img : blocks) : kdata := dfs img <| d_sb := mk_sb |> <| d_sl := inode_locks ∪ d_sl (dfs img) |>.

Section boot.
Context (R : wait_reason → kst → kst → Prop) (img : blocks) (Himg : ∀ b, is_blk b → length (img b) = Z.to_nat BSIZE).

Lemma dboot_inodes : d_inodes (dboot img) = replicate NINODE inode0.
Proof. destruct (dfs_ok img Himg) as (_ & Hf & _). change (d_inodes (dboot img)) with (d_inodes (dfs img)). by rewrite (fs_frame_inodes _ _ Hf). Qed.
Lemma inode_locks_at k : (k < NINODE)%nat → inode_locks !! SL_inode k = Some (Sleeplock 0 "inode" 0).
Proof.
  intros Hk. apply elem_of_list_to_map_1.
  - rewrite <- list_fmap_compose. apply NoDup_fmap_2; [by intros ? ? [=]|apply NoDup_seq].
  - apply list_elem_of_fmap. exists k. split; [done|]. apply elem_of_seq. lia.
Qed.
Lemma inode_locks_buf b : inode_locks !! SL_buf b = None.
Proof. apply not_elem_of_list_to_map_1. rewrite <- list_fmap_compose. by intros (k & [=] & _)%list_elem_of_fmap. Qed.

Lemma fs_ok_dboot : @fs_ok memide.disk 0 R (memide_law 0 R) mfs (dboot img) img ∅ ∅ ∅.
Proof.
  eapply fs_ok_other; [..|apply (fs_ok_dfs R img Himg)]; try done. intros b.
  change (d_sl (dboot img)) with (inode_locks ∪ d_sl (dfs img)). by rewrite lookup_union_r by apply inode_locks_buf.
Qed.
Lemma icache_dboot : icache mk_sb img None (dboot img).
Proof.
  assert (H0 : ∀ k i, d_inodes (dboot img) !! k = Some i → i_ref i = 0).
  { intros k i Hk. rewrite dboot_inodes in Hk. by apply lookup_replicate in Hk as [-> _]. }
  split.
  - rewrite dboot_inodes. apply length_replicate.
  - done.
  - intros k i Hk. rewrite (H0 k i Hk). lia.
  - intros k1 k2 i1 i2 H1 _ Hr. rewrite (H0 k1 i1 H1) in Hr. lia.
  - intros k Hk. exists (Sleeplock 0 "inode" 0). split; [|done]. change (d_sl (dboot img)) with (inode_locks ∪ d_sl (dfs img)).
    by apply lookup_union_Some_l, inode_locks_at.
Qed.
Lemma nfree_dboot : (2 <= nfree (refs (dboot img)))%nat.
Proof. unfold refs. rewrite dboot_inodes, fmap_replicate. vm_compute. lia. Qed.
End boot.

Lemma small_empty : (size (∅ : gset Z) < NBUF)%nat.
Proof. rewrite size_empty. unfold NBUF. lia. Qed.

(** One program, read in two pieces. *)
Definition files1 : list hostfile := [HostFile (str "_cat") (Some [[7; 8]; [9]])].
Lemma fit_files1 : fit_files files1.
Proof.
  split; try (by vm_compute).
  - intros f [-> | ?%not_elem_of_nil]%elem_of_cons; [|done]. split; [|by eexists]. by apply (bool_decide_unpack _).
  - intros f [-> | ?%not_elem_of_nil]%elem_of_cons; [|done]. by vm_compute.
Qed.
Lemma names_ok1 : names_ok files1.
Proof.
  split; [|by apply (bool_decide_unpack _)]. apply (proj1 (Forall_forall _ _)). by apply (bool_decide_unpack _).
Qed.

Lemma mkfs_roundtrip_witness :
  ∃ img fi fb, mkfs_main files1 0%nat mk_start = Done tt (Mk FSSIZE img fi fb)
    ∧ wp (λ _ _ _, False) (@read_file memide.disk (str "/cat") 3 2%nat (K mfs (dboot img))) (λ r _, r = Some (3, [7; 8; 9])).
Proof.
  set (R := λ (_ : wait_reason) (_ _ : kst), False).
  destruct (@mkfs_roundtrip memide.disk 0 R (memide_law 0 R) 2 (le_n 2) 0 files1 fit_files1 names_ok1) as (img & fi & fb & Hrun & Hb); [by vm_compute|].
  exists img, fi, fb. split; [exact Hrun|]. clear Hrun. pose proof (bw_len _ _ _ _ Hb) as Hl.
  eapply wp_mono; [|exact (bw_read _ _ _ _ Hb 0 _ mfs (dboot img) ∅ ∅ eq_refl (fs_ok_dboot R img Hl) (icache_dboot img Hl) small_empty (nfree_dboot img Hl))].
  intros r s' [-> _]. reflexivity.
Defined.

Lemma namex_spec_witness :
  ∃ img, wp (λ _ _ _, False) (@namex memide.disk (str "/cat") false 2%nat (K mfs (dboot img))) (λ r s', ∃ ip, r.1 = Some ip ∧ refers (kd s') ip 2).
Proof.
  set (R := λ (_ : wait_reason) (_ _ : kst), False).
  destruct (mkfs_main_image 0 files1 fit_files1) as (img & F & _ & Hmk & HF & _); [by vm_compute|]. exists img.
  pose proof (do_sec _ _ _ (mo_disk _ _ _ Hmk)) as Hl.
  eapply wp_mono; [|exact (@namex_spec memide.disk 0 R (memide_law 0 R) 2 (le_n 2) mfs (dboot img) mk_sb img ∅ ∅ _ (str "/cat") false ROOTINO
    (fs_ok_dboot R img Hl) (icache_dboot img Hl) small_empty (nfree_dboot img Hl) (image_tree _ _ _ Hmk _ HF) ltac:(unfold ROOTINO; simpl; lia) eq_refl)].
  destruct (root_file _ _ HF) as (fr & Hfr & Htr & _). pose proof (view_type _ _ _ Hmk 0 fr Hfr (or_introl Htr)) as Hty. rewrite Htr in Hty.
  pose proof (root_lookup _ _ _ Hmk _ HF 2 2 (str "cat") names_ok1 eq_refl) as Hlk.
  change (path_elems _ _) with [str "cat"]. cbn [walk]. change (take _ _) with (str "cat") in Hlk.
  rewrite (Hty : i_type (dino img mk_sb ROOTINO) = _), (Hlk : dir_lookup img (dino img mk_sb ROOTINO) (str "cat") = _).
  intros r s' [_ (ip & Hip & m' & d' & -> & _ & _ & _ & _ & Href)]. by exists ip.
Defined.

(** A file of five bytes in block 100. *)
Definition disk7 : blocks := λ b, replicate (Z.to_nat BSIZE) (if b =? 100 then 7 else 0).
Definition ino7 : inode := inode0 <| i_dev := ROOTDEV |> <| i_type := T_FILE |> <| i_size := 5 |> <| i_addrs := 100 :: replicate 12 0 |>.
Definition d7 : kdata := dfs disk7 <| d_inodes := [ino7] |>.
Lemma readi_spec_witness :
  wp (λ _ _ _, False) (@readi memide.disk 0%nat D_local 2 10 2%nat (K mfs d7)) (λ r _, r = (3, [7; 7; 7])).
Proof.
  set (R := λ (_ : wait_reason) (_ _ : kst), False).
  assert (Hl : ∀ b, is_blk b → length (disk7 b) = Z.to_nat BSIZE) by (intros; apply length_replicate).
  assert (Hok : @fs_ok memide.disk 0 R (memide_law 0 R) mfs d7 disk7 ∅ ∅ ∅) by by eapply fs_ok_other; [..|apply (fs_ok_dfs R disk7 Hl)].
  assert (Hf : fmapped disk7 (i_addrs ino7) (i_size ino7)).
  { split; [by vm_compute | | by vm_compute]. intros k H0 Hlt. replace k with 0 by (unfold BSIZE in *; simpl in Hlt; lia). by vm_compute. }
  eapply wp_mono; [|exact (@readi_spec memide.disk 0 R (memide_law 0 R) 2 (le_n 2) mfs d7 disk7 ∅ ∅ 0 ino7 2 10 Hok small_empty eq_refl eq_refl
    ltac:(done) Hf ltac:(done) ltac:(done))].
  intros r s' [-> _]. by vm_compute.
Defined.
