(* ===== verification/Pipe.v ===== *)
(** * Pipe: pipe.c (pipealloc is with the file table)

    A pipe occupies a page from kalloc and is named by the page's address; its
    fields are kept in [d_pipes], not in the bytes of the page. *)

From S2P Require Import Prelude Memory Kstate Spinlock Kalloc Cprintf Vm Sched.

Definition PIPESIZE : Z := 512.

#[export] Instance pipe_inhabited : Inhabited pipe :=
  populate (Pipe (replicate (Z.to_nat PIPESIZE) 0) 0 0 0 0).
Definition get_pipe (p : Z) : KM pipe := getd (λ d, default inhabitant (d_pipes d !! p)).
Definition mod_pipe (p : Z) (f : pipe → pipe) : KM unit :=
  modd (λ d, d <| d_pipes := alter f p (d_pipes d) |>).

Definition pipeclose (p : Z) (writable : bool) : KM unit :=
  acquire (L_pipe p) ;;
  (if writable then
     mod_pipe p (λ x, x <| pi_writeopen := 0 |>) ;;
     wakeup (Ch_nread p)
   else
     mod_pipe p (λ x, x <| pi_readopen := 0 |>) ;;
     wakeup (Ch_nwrite p)) ;;
  x ← get_pipe p;
  if (pi_readopen x =? 0) && (pi_writeopen x =? 0) then
    release (L_pipe p) ;;
    modd (λ d, d <| d_pipes := delete p (d_pipes d) |>) ;;
    kfree p
  else release (L_pipe p).

(** [while(p->nwrite == p->nread + PIPESIZE)]; [false]: give up. *)
Fixpoint pipe_full_wait (fuel : nat) (p : Z) : KM bool :=
  match fuel with
  | O => out_of_fuel
  | S fuel' =>
    x ← get_pipe p;
    if negb (pi_nwrite x =? pi_nread x +u PIPESIZE) then mret true else
    gone ← (if pi_readopen x =? 0 then mret true
            else i ← curproc; q ← get_proc i; mret (ctrue (p_killed q)));
    if (gone : bool) then mret false else
    wakeup (Ch_nread p) ;;
    sleep (Ch_nwrite p) (Some (L_pipe p)) ;;
    pipe_full_wait fuel' p
  end.
(** [p->data[p->nwrite++ % PIPESIZE] = c] *)
Definition pipe_put (c : Z) (x : pipe) : pipe :=
  x <| pi_data := <[Z.to_nat (pi_nwrite x mod PIPESIZE) := c]> (pi_data x) |>
    <| pi_nwrite := pi_nwrite x +u 1 |>.
(** The loop over the indices [todo] still to write. *)
Fixpoint pipewrite_loop (p addr : Z) (todo : list Z) : KM bool :=
  match todo with
  | [] => mret true
  | i :: todo' =>
    ok ← with_fuel (λ fuel, pipe_full_wait fuel p);
    if negb (ok : bool) then mret false else
    l ← vloadM (u32 (addr + i)) 1;
    mod_pipe p (pipe_put (default 0 (head l))) ;;
    pipewrite_loop p addr todo'
  end.
Definition pipewrite (p addr n : Z) : KM Z :=
  acquire (L_pipe p) ;;
  ok ← pipewrite_loop p addr (seqZ 0 n);
  if negb (ok : bool) then release (L_pipe p) ;; mret (-1) else
  wakeup (Ch_nread p) ;;
  release (L_pipe p) ;;
  mret n.

(** [while(p->nread == p->nwrite && p->writeopen)]; [false]: killed. *)
Fixpoint pipe_empty_wait (fuel : nat) (p : Z) : KM bool :=
  match fuel with
  | O => out_of_fuel
  | S fuel' =>
    x ← get_pipe p;
    if negb ((pi_nread x =? pi_nwrite x) && ctrue (pi_writeopen x)) then mret true else
    i ← curproc; q ← get_proc i;
    if ctrue (p_killed q) then mret false else
    sleep (Ch_nread p) (Some (L_pipe p)) ;;
    pipe_empty_wait fuel' p
  end.
Fixpoint piperead_loop (p addr : Z) (todo : list Z) (i : Z) : KM Z :=
  match todo with
  | [] => mret i
  | i' :: todo' =>
    x ← get_pipe p;
    if pi_nread x =? pi_nwrite x then mret i else
    let c := pi_data x !!! Z.to_nat (pi_nread x mod PIPESIZE) in
    mod_pipe p (λ x, x <| pi_nread := pi_nread x +u 1 |>) ;;
    vstoreM (u32 (addr + i')) [c] ;;
    piperead_loop p addr todo' (i + 1)
  end.
Definition piperead (p addr n : Z) : KM Z :=
  acquire (L_pipe p) ;;
  ok ← with_fuel (λ fuel, pipe_empty_wait fuel p);
  if negb (ok : bool) then release (L_pipe p) ;; mret (-1) else
  i ← piperead_loop p addr (seqZ 0 n) 0;
  wakeup (Ch_nwrite p) ;;
  release (L_pipe p) ;;
  mret i.
