(* ===== verification/PipeFacts.v ===== *)
(** * PipeFacts: a pipe is a first-in first-out stream

    The abstract state of a pipe is the stream of all bytes ever written to it
    and the number of them that have been read.  The concrete counters are
    32-bit and wrap; the buffer size divides 2^32, so the stream's byte [k] is
    in slot [k mod PIPESIZE] for ever. *)

From S2P Require Import Prelude Memory Kstate Spinlock Kalloc Cprintf Vm Sched SchedFacts Pipe.

(** [stream] has been written, the first [r] bytes of it read. *)
Record pipe_rep (x : pipe) (stream : list Z) (r : nat) : Prop := {
  pr_len : length (pi_data x) = Z.to_nat PIPESIZE;
  pr_nwrite : pi_nwrite x = u32 (Z.of_nat (length stream));
  pr_nread : pi_nread x = u32 (Z.of_nat r);
  pr_room : (r <= length stream <= r + Z.to_nat PIPESIZE)%nat;
  pr_data : ∀ k, (r <= k < length stream)%nat →
    pi_data x !! Z.to_nat (Z.of_nat k mod PIPESIZE) = stream !! k
}.

Lemma u32_mod_pipesize k : u32 k mod PIPESIZE = k mod PIPESIZE.
Proof.
  apply Z.mod_mod_divide. by exists (2 ^ 23).
Qed.

(** Counters at most PIPESIZE apart are equal exactly when their 32-bit
    values are. *)
Lemma u32_close a b : 0 <= a - b <= 2 ^ 31 → u32 a = u32 b ↔ a = b.
Proof.
  intros H. split; [|by intros ->]. unfold u32. intros E.
  assert ((a - b) mod 2 ^ 32 = 0) as E'.
  { rewrite Zminus_mod, E, Z.sub_diag. done. }
  rewrite Z.mod_small in E' by lia. lia.
Qed.

Section rep.
Context (x : pipe) (stream : list Z) (r : nat) (Hrep : pipe_rep x stream r).

(** The test for a full buffer and the test for an empty one. *)
Lemma rep_full :
  pi_nwrite x = u32 (pi_nread x + PIPESIZE) ↔ length stream = (r + Z.to_nat PIPESIZE)%nat.
Proof.
  destruct Hrep as [_ -> -> Hroom _]. rewrite u32_add_l.
  assert (Hz : Z.of_nat r <= Z.of_nat (length stream) <= Z.of_nat r + PIPESIZE)
    by (unfold PIPESIZE in *; lia).
  assert (E : u32 (Z.of_nat r + PIPESIZE) = u32 (Z.of_nat (length stream))
              ↔ Z.of_nat r + PIPESIZE = Z.of_nat (length stream))
    by (apply u32_close; unfold PIPESIZE in *; lia).
  unfold PIPESIZE in *. split; intros H; [symmetry in H; apply E in H; lia|].
  symmetry. apply E. lia.
Qed.
Lemma rep_empty : pi_nread x = pi_nwrite x ↔ r = length stream.
Proof.
  destruct Hrep as [_ -> -> Hroom _].
  assert (E : u32 (Z.of_nat (length stream)) = u32 (Z.of_nat r) ↔ Z.of_nat (length stream) = Z.of_nat r)
    by (apply u32_close; unfold PIPESIZE in *; lia).
  split; [intros H; symmetry in H; apply E in H; lia | intros H; symmetry; apply E; lia].
Qed.

(** Writing a byte to a buffer with room. *)
Lemma rep_put c :
  (length stream < r + Z.to_nat PIPESIZE)%nat → pipe_rep (pipe_put c x) (stream ++ [c]) r.
Proof.
  intros Hr. destruct Hrep as [Hlen Hw Hrd Hroom Hdata]. unfold pipe_put.
  split; simpl.
  - by rewrite length_insert.
  - rewrite Hw, u32_add_l, length_app. simpl. f_equal. lia.
  - done.
  - rewrite length_app. simpl. lia.
  - intros k Hk. rewrite Hw, u32_mod_pipesize. rewrite length_app in Hk. simpl in Hk.
    destruct (decide (k = length stream)) as [->|Hne].
    + rewrite list_lookup_insert_eq, list_lookup_middle; [done | done |].
      rewrite Hlen. apply Z2Nat.inj_lt; [apply Z.mod_pos_bound | |]; unfold PIPESIZE; try lia.
      apply Z.mod_pos_bound. lia.
    + rewrite lookup_app_l by lia. rewrite list_lookup_insert_ne; [apply Hdata; lia|].
      intros E. apply Z2Nat.inj in E; [|apply Z.mod_pos_bound; unfold PIPESIZE; lia..].
      unfold PIPESIZE in *. Z.div_mod_to_equations. lia.
Qed.

(** Reading the next byte. *)
Lemma rep_get :
  (r < length stream)%nat →
  stream !! r = Some (pi_data x !!! Z.to_nat (pi_nread x mod PIPESIZE))
  ∧ pipe_rep (x <| pi_nread := pi_nread x +u 1 |>) stream (S r).
Proof.
  intros Hr. destruct Hrep as [Hlen Hw Hrd Hroom Hdata]. split.
  - rewrite Hrd, u32_mod_pipesize, <- Hdata by lia. apply list_lookup_lookup_total_lt.
    rewrite Hlen. apply Z2Nat.inj_lt; [apply Z.mod_pos_bound | |]; unfold PIPESIZE; try lia.
    apply Z.mod_pos_bound. lia.
  - split; simpl; try done.
    + rewrite Hrd, u32_add_l. f_equal. lia.
    + lia.
    + intros k Hk. apply Hdata. lia.
Qed.
End rep.

(** ** A process that uses the pipe *)

Section user.
Context (P : Z) (p : nat) (cr3 : Z).

(** The process runs and holds no lock. *)
Record pipe_proc (m : mach) (d : kdata) : Prop := {
  pu_run : ∃ i c, runs_proc m i c p;
  pu_pt : lk_free m L_ptable;
  pu_lk : lk_free m (L_pipe P);
  pu_cr3 : m_cr3 m = cr3;
  pu_procs : length (d_procs d) = NPROC;
  pu_p : (p < NPROC)%nat
}.
(** ... and has not been killed. *)
Record pipe_user (m : mach) (d : kdata) : Prop := {
  pu_proc :> pipe_proc m d;
  pu_alive : p_killed (d_procs d !!! p) = 0
}.

(** The state of a pipe that is open at both ends. *)
Definition pipe_at (d : kdata) (stream : list Z) (r : nat) : Prop :=
  ∃ x, d_pipes d !! P = Some x ∧ pipe_rep x stream r ∧ pi_readopen x ≠ 0 ∧ pi_writeopen x ≠ 0.

(** The state of a pipe as its reader sees it; [open]: some writer is left. *)
Definition pipe_end (d : kdata) (stream : list Z) (r : nat) (open : bool) : Prop :=
  ∃ x, d_pipes d !! P = Some x ∧ pipe_rep x stream r ∧ ctrue (pi_writeopen x) = open.

Lemma pipe_at_procs d ps stream r : pipe_at (d <| d_procs := ps |>) stream r ↔ pipe_at d stream r.
Proof. done. Qed.

Lemma killed_fmap f (ps : list proc) :
  (∀ q, p_killed (f q) = p_killed q) → (p < length ps)%nat → p_killed ((f <$> ps) !!! p) = p_killed (ps !!! p).
Proof.
  intros Hf Hp. destruct (lookup_lt_is_Some_2 _ _ Hp) as [q Hq].
  rewrite (lookup_total_Some _ _ _ Hq), <- (Hf q). f_equal. apply lookup_total_Some.
  by rewrite list_lookup_fmap, Hq.
Qed.
Lemma wake_killed ch q : p_killed (wake ch q) = p_killed q.
Proof. unfold wake. by destruct (_ && _). Qed.

Lemma pipe_proc_wake m d ch :
  pipe_proc m d → pipe_proc m (d <| d_procs := wake ch <$> d_procs d |>).
Proof. intros []. split; try done; simpl. by rewrite length_fmap. Qed.
Lemma pipe_proc_alter m d f : pipe_proc m d → pipe_proc m (d <| d_procs := alter f p (d_procs d) |>).
Proof. intros []. split; try done; simpl. by rewrite length_alter. Qed.
Lemma pipe_user_wake m d ch :
  pipe_user m d → pipe_user m (d <| d_procs := wake ch <$> d_procs d |>).
Proof.
  intros [[] ?]. split; [by apply pipe_proc_wake|]. simpl. rewrite killed_fmap; [done | apply wake_killed | congruence].
Qed.
Lemma pipe_user_alter m d f :
  (∀ q, p_killed (f q) = p_killed q) → pipe_user m d → pipe_user m (d <| d_procs := alter f p (d_procs d) |>).
Proof.
  intros Hf [[] ?]. split; [by apply pipe_proc_alter|]. simpl. rewrite alter_state_lookup by congruence. by rewrite Hf.
Qed.

Lemma acq_pipe_ok m d : pipe_proc m d → ∃ i c, mach_ok (acq (L_pipe P) m) i c ∧ c_proc c = Some p.
Proof.
  intros Hu. destruct (pu_run _ _ Hu) as (i & c & Hr).
  exists i, (cpu_push (m_eflags m) c). split; [by apply mach_ok_acq, Hr|].
  rewrite cpu_push_proc. apply Hr.
Qed.

Lemma wakeup_in_pipe n m d ch :
  pipe_proc m d →
  wakeup ch n (K (acq (L_pipe P) m) d)
  = Done tt (K (acq (L_pipe P) m) (d <| d_procs := wake (Some ch) <$> d_procs d |>)).
Proof.
  intros Hu. destruct (acq_pipe_ok m d Hu) as (i & c & Hok & _).
  eapply wakeup_done; [done | by apply acq_free_other, Hu | apply Hu].
Qed.

(** What other processes may do while a writer sleeps: read, so that there is
    room again; [same] is what they must leave alone. *)
Definition reader_ran (same : kdata → Prop) (w : wait_reason) (s s' : kst) : Prop :=
  w = W_sched ∧ ∀ m d stream r,
    s = K (acq L_ptable m) d → pipe_user m d → same d → pipe_at d stream r →
    ∃ m' d' r', s' = K (acq L_ptable m') d' ∧ pipe_user m' d' ∧ same d'
      ∧ (r < r')%nat ∧ pipe_at d' stream r'.
(** What they may do while a reader sleeps, until it runs again: write some
    bytes, close the last write end, or kill the reader, at least one of these. *)
Definition writer_ran (same : kdata → Prop) (w : wait_reason) (s s' : kst) : Prop :=
  w = W_sched ∧ ∀ m d stream r,
    s = K (acq L_ptable m) d → pipe_proc m d → same d → pipe_end d stream r true →
    ∃ m' d' l open, s' = K (acq L_ptable m') d' ∧ pipe_proc m' d' ∧ same d'
      ∧ pipe_end d' (stream ++ l) r open
      ∧ (l ≠ [] ∨ open = false ∨ p_killed (d_procs d' !!! p) ≠ 0).

Lemma curproc_in_pipe n m d : pipe_proc m d → curproc n (K (acq (L_pipe P) m) d) = Done p (K (acq (L_pipe P) m) d).
Proof. intros Hu. destruct (acq_pipe_ok m d Hu) as (i & c & Hok & Hp). by eapply curproc_done. Qed.

(** A sleep of the process on a channel of the pipe. *)
Lemma sleep_in_pipe n m d ch :
  pipe_proc m d →
  ∃ k d1, sleep ch (Some (L_pipe P)) n (K (acq (L_pipe P) m) d) = Block W_sched (K (acq L_ptable m) d1) k
    ∧ d1 = d <| d_procs := alter (asleep ch) p (d_procs d) |> ∧ pipe_proc m d1
    ∧ ∀ m' d', pipe_proc m' d' →
        k (K (acq L_ptable m') d') = Done tt (K (acq (L_pipe P) m') (d' <| d_procs := alter no_chan p (d_procs d') |>)).
Proof.
  intros Hu. destruct (pu_run _ _ Hu) as (i & c & Hr).
  destruct (sleep_blocks n m i c p d ch (L_pipe P)) as (k & Hk & Hres);
    [done | apply Hu | apply Hu | done | rewrite (pu_procs _ _ Hu); apply Hu |].
  exists k, (d <| d_procs := alter (asleep ch) p (d_procs d) |>).
  split_and!; [done | done | by apply pipe_proc_alter |].
  intros m' d' Hu'. destruct (pu_run _ _ Hu') as (i' & c' & Hr'). eapply Hres; [done | apply Hu' | apply Hu'].
Qed.

(** [same] does not look at the process table. *)
Definition ignores_procs (same : kdata → Prop) : Prop := ∀ d ps, same d → same (d <| d_procs := ps |>).

Lemma full_wait_wp same n m d stream r fuel :
  ignores_procs same → pipe_user m d → same d → pipe_at d stream r → (2 <= fuel)%nat →
  wp (reader_ran same) (pipe_full_wait fuel P n (K (acq (L_pipe P) m) d))
    (λ ok s', ok = true ∧ ∃ m' d' r', s' = K (acq (L_pipe P) m') d' ∧ pipe_user m' d' ∧ same d'
       ∧ pipe_at d' stream r' ∧ (length stream < r' + Z.to_nat PIPESIZE)%nat).
Proof.
  intros Hsame Hu Hs Hp Hf. destruct fuel as [|[|fuel]]; [lia..|].
  assert (Hroom : ∀ f m d r, pipe_user m d → same d → pipe_at d stream r →
    (length stream < r + Z.to_nat PIPESIZE)%nat →
    pipe_full_wait (S f) P n (K (acq (L_pipe P) m) d) = Done true (K (acq (L_pipe P) m) d)).
  { intros f m1 d1 r1 _ _ (x & Hx & Hrep & _) Hlt. simpl. unfold get_pipe. krun. rewrite Hx. simpl.
    destruct (Z.eqb_spec (pi_nwrite x) (pi_nread x +u PIPESIZE)) as [E|E]; [|done].
    apply (rep_full _ _ _ Hrep) in E. lia. }
  destruct (decide (length stream < r + Z.to_nat PIPESIZE)%nat) as [Hlt|Hge].
  { rewrite (Hroom _ m d r) by done. simpl. split; [done|]. by exists m, d, r. }
  pose proof Hp as (x & Hx & Hrep & Hro & Hwo).
  assert (Hfull : pi_nwrite x = pi_nread x +u PIPESIZE).
  { apply (rep_full _ _ _ Hrep). pose proof (pr_room _ _ _ Hrep). lia. }
  remember (S fuel) as fuel' eqn:Ef. simpl. unfold get_pipe. krun. rewrite Hx. simpl.
  rewrite Hfull, Z.eqb_refl. simpl. rewrite (proj2 (Z.eqb_neq _ _) Hro).
  rewrite (bind_done _ _ _ (K (acq (L_pipe P) m) d) false (K (acq (L_pipe P) m) d)).
  2:{ rewrite (bind_done _ _ _ _ _ _ (curproc_in_pipe n m d Hu)). krun. by rewrite (pu_alive _ _ Hu). }
  rewrite (bind_done _ _ _ _ _ _ (wakeup_in_pipe n m d (Ch_nread P) Hu)).
  set (d1 := d <| d_procs := _ |>). assert (Hu1 : pipe_user m d1) by by apply pipe_user_wake.
  destruct (sleep_in_pipe n m d1 (Ch_nwrite P) Hu1) as (k & d2 & Hk & Hd2 & _ & Hres).
  assert (Hu2 : pipe_user m d2) by (subst d2; by apply pipe_user_alter).
  rewrite (bind_block _ _ _ _ _ _ _ Hk). intros s' [_ HR].
  destruct (HR m d2 stream r) as (m' & d' & r' & -> & Hu' & Hs' & Hlt & Hp');
    [done | done | subst d2 d1; auto | by subst d2 d1 |].
  rewrite (Hres m' d' Hu'). simpl. subst fuel'.
  set (d3 := d' <| d_procs := alter no_chan p (d_procs d') |>).
  assert (Hlt' : (length stream < r' + Z.to_nat PIPESIZE)%nat).
  { pose proof (pr_room _ _ _ Hrep). lia. }
  rewrite (Hroom _ m' d3 r'); [| by apply pipe_user_alter | by apply Hsame | done | done].
  simpl. split; [done|]. exists m', d3, r'. split_and!; [done | by apply pipe_user_alter | by apply Hsame | done | done].
Qed.

(** ** Writing *)

Section write.
Context (addr : Z) (bs : list Z).

(** The caller's buffer holds [bs]. *)
Definition user_bytes (d : kdata) : Prop :=
  ∀ k c, bs !! k = Some c → vload (mm_mem (d_mm d)) (P2V cr3) (u32 (addr + Z.of_nat k)) 1 = Some [c].

Lemma user_bytes_procs : ignores_procs user_bytes.
Proof. intros d ps H. exact H. Qed.

(** The loop from byte [k] on. *)
Lemma pipewrite_loop_wp n m d stream r k :
  (2 <= n)%nat → pipe_user m d → user_bytes d → pipe_at d stream r → (k <= length bs)%nat →
  wp (reader_ran user_bytes)
    (pipewrite_loop P addr (seqZ (Z.of_nat k) (Z.of_nat (length bs - k))) n (K (acq (L_pipe P) m) d))
    (λ ok s', ok = true ∧ ∃ m' d' r', s' = K (acq (L_pipe P) m') d' ∧ pipe_user m' d'
       ∧ pipe_at d' (stream ++ drop k bs) r').
Proof.
  intros Hn. remember (length bs - k)%nat as j eqn:Hj. revert k m d stream r Hj.
  induction j as [|j IH]; intros k m d stream r Hj Hu Hb Hp Hk.
  { simpl. split; [done|]. rewrite drop_ge, app_nil_r by lia. by exists m, d, r. }
  rewrite seqZ_cons by lia. cbn [pipewrite_loop]. apply wp_bind.
  eapply wp_mono; [|by apply (full_wait_wp user_bytes n m d stream r n user_bytes_procs)].
  intros ok s' (-> & m' & d' & r' & -> & Hu' & Hb' & Hp' & Hlt). cbn [negb].
  destruct (lookup_lt_is_Some_2 bs k) as [c Hc]; [lia|].
  rewrite (bind_done _ _ _ _ [c] (K (acq (L_pipe P) m') d')).
  2:{ apply vloadM_done. rewrite acq_cr3, (pu_cr3 _ _ Hu'). by apply Hb'. }
  destruct Hp' as (x & Hx & Hrep & Hro & Hwo). unfold mod_pipe. krun.
  set (d1 := d' <| d_pipes := alter (pipe_put c) P (d_pipes d') |>).
  replace (Z.pred (Z.of_nat (S j))) with (Z.of_nat j) by lia.
  replace (Z.succ (Z.of_nat k)) with (Z.of_nat (S k)) by lia.
  replace (stream ++ drop k bs) with ((stream ++ [c]) ++ drop (S k) bs)
    by (rewrite <- app_assoc; simpl; by rewrite (drop_S _ _ _ Hc)).
  apply (IH (S k) m' d1 (stream ++ [c]) r'); [lia | by destruct Hu' as [[] ?] | done | | lia].
  exists (pipe_put c x). subst d1. simpl. rewrite lookup_alter_eq, Hx.
  split_and!; [done | by apply rep_put | done | done].
Qed.

Lemma pipewrite_wp n m d stream r :
  (2 <= n)%nat → pipe_user m d → user_bytes d → pipe_at d stream r →
  wp (reader_ran user_bytes) (pipewrite P addr (Z.of_nat (length bs)) n (K m d))
    (λ a s', a = Z.of_nat (length bs) ∧ ∃ m' d' r', s' = K m' d' ∧ pipe_user m' d'
       ∧ pipe_at d' (stream ++ bs) r').
Proof.
  intros Hn Hu Hb Hp. unfold pipewrite. destruct (pu_run _ _ Hu) as (i & c & Hr).
  rewrite (bind_done _ _ _ _ _ _ (acquire_done n m d i c _ (rp_ok _ _ _ _ Hr) (pu_lk _ _ Hu))).
  apply wp_bind. pose proof (pipewrite_loop_wp n m d stream r 0 Hn Hu Hb Hp) as Hw.
  rewrite Nat.sub_0_r, drop_0 in Hw. eapply wp_mono; [|apply Hw; lia].
  intros ok s' (-> & m' & d' & r' & -> & Hu' & Hp'). cbn [negb].
  rewrite (bind_done _ _ _ _ _ _ (wakeup_in_pipe n m' d' (Ch_nread P) Hu')).
  destruct (pu_run _ _ Hu') as (i' & c' & Hr').
  rewrite (bind_done _ _ _ _ _ _ (release_acq n m' _ i' c' _ (rp_ok _ _ _ _ Hr') (pu_lk _ _ Hu'))).
  simpl. split; [done|]. eexists m', _, r'. split_and!; [done | by apply pipe_user_wake | done].
Qed.
End write.

(** ** Reading *)

Section read.
Context (addr : Z) (n : nat).

(** The caller's buffer, of [n] bytes, can be written. *)
Definition user_room (d : kdata) : Prop :=
  ∀ l, (length l <= n)%nat → is_Some (vstore (mm_mem (d_mm d)) (P2V cr3) addr l).
Lemma user_room_procs : ignores_procs user_room.
Proof. intros d ps H. exact H. Qed.

(** The loop stops when there is data or no writer is left, or, if not, when the reader has been killed. *)
Definition read_stops (ok : bool) (d : kdata) (stream : list Z) (r : nat) (open : bool) : Prop :=
  if ok then r = length stream → open = false
  else r = length stream ∧ open = true ∧ p_killed (d_procs d !!! p) ≠ 0.
Lemma empty_wait_stops ok f m d stream r open k :
  pipe_proc m d → pipe_end d stream r open → read_stops ok d stream r open →
  pipe_empty_wait (S k) P f (K (acq (L_pipe P) m) d) = Done ok (K (acq (L_pipe P) m) d).
Proof.
  intros Hu (x & Hx & Hrep & Ho) Hst. simpl. unfold get_pipe. krun. rewrite Hx. simpl. rewrite Ho.
  destruct (Z.eqb_spec (pi_nread x) (pi_nwrite x)) as [E|E]; rewrite (rep_empty _ _ _ Hrep) in E.
  - destruct ok; simpl in Hst; [by rewrite (Hst E)|]. destruct Hst as (_ & -> & Hk). simpl.
    rewrite (bind_done _ _ _ _ _ _ (curproc_in_pipe f m d Hu)). krun. by rewrite (ctrue_ne _ Hk).
  - destruct ok; [done|]. by destruct Hst.
Qed.

Lemma empty_wait_wp f m d stream r open fuel :
  pipe_proc m d → user_room d → pipe_end d stream r open → (2 <= fuel)%nat →
  wp (writer_ran user_room) (pipe_empty_wait fuel P f (K (acq (L_pipe P) m) d))
    (λ ok s', ∃ m' d' l open', s' = K (acq (L_pipe P) m') d' ∧ pipe_proc m' d' ∧ user_room d'
       ∧ pipe_end d' (stream ++ l) r open' ∧ read_stops ok d' (stream ++ l) r open').
Proof.
  intros Hu Hs Hp Hf. destruct fuel as [|[|fuel]]; [lia..|].
  assert (Hend : ∀ ok, read_stops ok d stream r open →
    wp (writer_ran user_room) (pipe_empty_wait (S (S fuel)) P f (K (acq (L_pipe P) m) d))
      (λ ok s', ∃ m' d' l open', s' = K (acq (L_pipe P) m') d' ∧ pipe_proc m' d' ∧ user_room d'
         ∧ pipe_end d' (stream ++ l) r open' ∧ read_stops ok d' (stream ++ l) r open')).
  { intros ok Hst. rewrite (empty_wait_stops ok f m d stream r open) by done.
    exists m, d, [], open. by rewrite app_nil_r. }
  destruct (decide (r = length stream ∧ open = true)) as [[Hr Ho]|Hno].
  2:{ apply (Hend true). intros E. destruct open; [by destruct Hno | done]. }
  destruct (decide (p_killed (d_procs d !!! p) = 0)) as [Hk0|Hk0]; [clear Hend | by apply (Hend false)].
  pose proof Hp as (x & Hx & Hrep & Hwo).
  pose proof (proj2 (rep_empty _ _ _ Hrep) Hr) as Hempty.
  remember (S fuel) as fuel' eqn:Ef. simpl. unfold get_pipe. krun. rewrite Hx. simpl.
  rewrite Hempty, Z.eqb_refl, Hwo, Ho. simpl.
  rewrite (bind_done _ _ _ _ _ _ (curproc_in_pipe f m d Hu)). krun. rewrite Hk0. simpl.
  destruct (sleep_in_pipe f m d (Ch_nread P) Hu) as (k & d2 & Hk & Hd2 & Hu2 & Hres).
  rewrite (bind_block _ _ _ _ _ _ _ Hk). intros s' [_ HR].
  destruct (HR m d2 stream r) as (m' & d' & l & o & -> & Hu' & Hs' & Hp' & Hwhy);
    [done | done | by subst d2 | subst d2 open; exact Hp |].
  rewrite (Hres m' d' Hu'). simpl. subst fuel'.
  set (d3 := d' <| d_procs := alter no_chan p (d_procs d') |>).
  assert (Hu3 : pipe_proc m' d3) by by apply pipe_proc_alter.
  assert (Hst : ∃ ok, read_stops ok d3 (stream ++ l) r o).
  { destruct (decide (r = length (stream ++ l) ∧ o = true)) as [[Hr' ->]|Hno].
    - exists false. split_and!; [done | done |]. subst d3. cbn [d_procs set_field set_d_procs].
      rewrite alter_state_lookup by (rewrite (pu_procs _ _ Hu'); apply Hu').
      destruct Hwhy as [Hl|[?|?]]; [|done|done]. destruct Hl. rewrite length_app in Hr'. destruct l; [done|]. simpl in Hr'. lia.
    - exists true. intros E. destruct o; [by destruct Hno | done]. }
  destruct Hst as [ok Hst]. rewrite (empty_wait_stops ok f m' d3 (stream ++ l) r o) by done.
  by exists m', d3, l, o.
Qed.

(** The copying loop takes what there is, up to [t] bytes. *)
Lemma piperead_loop_done f m d stream r open k t mem' :
  pipe_proc m d → pipe_end d stream r open → 0 <= addr → 0 <= k → addr + k + Z.of_nat t <= 2 ^ 32 →
  vstore (mm_mem (d_mm d)) (P2V cr3) (addr + k) (take t (drop r stream)) = Some mem' →
  ∃ d', piperead_loop P addr (seqZ k (Z.of_nat t)) k f (K (acq (L_pipe P) m) d)
      = Done (k + Z.of_nat (length (take t (drop r stream)))) (K (acq (L_pipe P) m) d')
    ∧ pipe_proc m d' ∧ pipe_end d' stream (r + length (take t (drop r stream))) open
    ∧ mm_mem (d_mm d') = mem'.
Proof.
  revert d r k. induction t as [|t IH]; intros d r k Hu Hp Ha Hk Hw Hst.
  { simpl in *. simplify_eq. exists d. rewrite Z.add_0_r, Nat.add_0_r. done. }
  rewrite seqZ_cons by lia. pose proof Hp as (x & Hx & Hrep & Hwo).
  cbn [piperead_loop]. unfold get_pipe. krun. rewrite Hx. simpl.
  destruct (Z.eqb_spec (pi_nread x) (pi_nwrite x)) as [E|E].
  { apply (rep_empty _ _ _ Hrep) in E. rewrite drop_ge, take_nil in Hst |- * by lia.
    simpl in *. simplify_eq. exists d. rewrite Z.add_0_r, Nat.add_0_r. done. }
  assert (Hlt : (r < length stream)%nat).
  { pose proof (pr_room _ _ _ Hrep). destruct (decide (r = length stream)) as [->|]; [|lia].
    destruct E. by apply (rep_empty _ _ _ Hrep). }
  destruct (rep_get _ _ _ Hrep Hlt) as [Hc Hrep']. set (c := pi_data x !!! _) in *.
  rewrite (drop_S _ _ _ Hc) in Hst |- *. cbn [take] in Hst |- *.
  change (c :: take t (drop (S r) stream)) with ([c] ++ take t (drop (S r) stream)) in Hst.
  rewrite vstore_app in Hst.
  destruct (vstore (mm_mem (d_mm d)) (P2V cr3) (addr + k) [c]) as [mem1|] eqn:E1; simpl in Hst; [|done].
  unfold mod_pipe. krun. rewrite u32_small by lia.
  rewrite (bind_done _ _ _ _ _ _ (vstoreM_done f (acq (L_pipe P) m)
    (d <| d_pipes := alter (λ x, x <| pi_nread := pi_nread x +u 1 |>) P (d_pipes d) |>) (addr + k) [c] mem1
    ltac:(by rewrite acq_cr3, (pu_cr3 _ _ Hu)))). simpl.
  replace (Z.pred (Z.of_nat (S t))) with (Z.of_nat t) by lia.
  match goal with |- context [K _ ?D] => set (d1 := D) end.
  replace (Z.succ k) with (k + 1) by lia. replace (addr + k + Z.of_nat 1) with (addr + (k + 1)) in Hst by lia.
  destruct (IH d1 (S r) (k + 1)) as (d' & Hr & Hu' & Hp' & Hm'); [by destruct Hu | | lia | lia | lia | done |].
  { exists (x <| pi_nread := pi_nread x +u 1 |>). subst d1. simpl. by rewrite lookup_alter_eq, Hx. }
  exists d'. simpl. rewrite Hr. split_and!; [f_equal; lia | done | | done].
  by replace (r + S (length (take t (drop (S r) stream))))%nat
    with (S r + length (take t (drop (S r) stream)))%nat by lia.
Qed.

(** The outcome of piperead: -1 for a killed reader that finds the pipe empty and a
    writer left, and otherwise the next bytes of the stream, none only if no
    writer is left. *)
Definition read_result (a : Z) (d : kdata) (stream : list Z) (r : nat) (open : bool) : Prop :=
  let new := take n (drop r stream) in
  a = -1 ∧ r = length stream ∧ open = true ∧ p_killed (d_procs d !!! p) ≠ 0 ∧ pipe_end d stream r open
  ∨ a = Z.of_nat (length new) ∧ (a = 0 → r = length stream ∧ open = false)
    ∧ pipe_end d stream (r + length new) open
    ∧ ∃ mem1, vstore mem1 (P2V cr3) addr new = Some (mm_mem (d_mm d)).

Lemma piperead_wp f m d stream r open :
  (0 < n)%nat → (2 <= f)%nat → pipe_proc m d → user_room d → pipe_end d stream r open →
  0 <= addr → addr + Z.of_nat n <= 2 ^ 32 →
  wp (writer_ran user_room) (piperead P addr (Z.of_nat n) f (K m d))
    (λ a s', ∃ m' d' l open', s' = K m' d' ∧ pipe_proc m' d' ∧ read_result a d' (stream ++ l) r open').
Proof.
  intros Hn Hf Hu Hs Hp Ha Hw. unfold piperead. destruct (pu_run _ _ Hu) as (i & c & Hr).
  rewrite (bind_done _ _ _ _ _ _ (acquire_done f m d i c _ (rp_ok _ _ _ _ Hr) (pu_lk _ _ Hu))).
  apply wp_bind. eapply wp_mono; [|by apply (empty_wait_wp f m d stream r open f)].
  intros ok s' (m' & d' & l & o & -> & Hu' & Hs' & Hp' & Hst).
  destruct (pu_run _ _ Hu') as (i' & c' & Hr').
  destruct ok; cbn [negb read_stops] in *.
  2:{ rewrite (bind_done _ _ _ _ _ _ (release_acq f m' d' i' c' _ (rp_ok _ _ _ _ Hr') (pu_lk _ _ Hu'))).
      exists m', d', l, o. split_and!; [done | done |]. left. naive_solver. }
  set (new := take n (drop r (stream ++ l))).
  destruct (Hs' new) as [mem' Hmem]; [subst new; rewrite length_take; lia|].
  destruct (piperead_loop_done f m' d' (stream ++ l) r o 0 n mem') as (d2 & Hl & Hu2 & Hp2 & Hm2);
    [done | done | lia | lia | lia | by rewrite Z.add_0_r |].
  rewrite (bind_done _ _ _ _ _ _ Hl).
  rewrite (bind_done _ _ _ _ _ _ (wakeup_in_pipe f m' d2 (Ch_nwrite P) Hu2)).
  rewrite (bind_done _ _ _ _ _ _ (release_acq f m' _ i' c' _ (rp_ok _ _ _ _ Hr') (pu_lk _ _ Hu2))).
  eexists m', _, l, o. split; [done|]. split; [by apply pipe_proc_wake|]. right. fold new.
  split_and!; [lia | | done | exists (mm_mem (d_mm d')); cbn [d_mm set_field set_d_procs]; rewrite Hm2; exact Hmem].
  intros E. assert (r = length (stream ++ l)); [|auto]. destruct Hp' as (x & _ & Hrep & _).
  pose proof (pr_room _ _ _ Hrep). fold new in E. subst new. rewrite length_take, length_drop in E. lia.
Qed.
End read.
End user.

(** ** The pipe is a first-in first-out channel *)

(** Reading one byte of a non-empty pipe is something another process may do
    while a writer sleeps. *)
Lemma reader_can_run P p cr3 addr bs m d stream r :
  pipe_at P d stream r → (r < length stream)%nat →
  reader_ran P p cr3 (user_bytes cr3 addr bs) W_sched (K (acq L_ptable m) d)
    (K (acq L_ptable m) (d <| d_pipes := alter (λ x, x <| pi_nread := pi_nread x +u 1 |>) P (d_pipes d) |>)).
Proof.
  intros (x & Hx & Hrep & Hro & Hwo) Hlt. split; [done|].
  intros m' d' st' r' Hs Hu Hb (x' & Hx' & Hrep' & _).
  pose proof (f_equal km Hs) as Hm. pose proof (f_equal kd Hs) as Hd. cbn [km kd] in Hm, Hd. subst d'.
  rewrite Hx in Hx'. injection Hx' as <-.
  assert (r' ≠ length st')%nat.
  { intros E. apply (rep_empty _ _ _ Hrep') in E.
    apply (rep_empty _ _ _ Hrep) in E. lia. }
  pose proof (pr_room _ _ _ Hrep') as Hroom.
  destruct (rep_get _ _ _ Hrep' ltac:(lia)) as [_ Hrep2].
  rewrite Hm. eexists m', _, (S r'). split_and!; [done | by destruct Hu as [[] ?] | done | lia |].
  exists (x <| pi_nread := pi_nread x +u 1 |>). simpl. by rewrite lookup_alter_eq, Hx.
Qed.

(** C14: pipewrite puts the caller's bytes at the end of the pipe's stream, in
    order, none lost and none duplicated, however often the ring of 512 bytes
    fills up and the writer has to sleep, provided that while it sleeps the
    readers take at least one byte and both ends stay open; it returns the
    number of bytes and holds no lock then.  The stream's positions are
    unbounded, so the wrap-around of the 32-bit counters nread and nwrite is
    included. *)
Theorem pipewrite_fifo P p cr3 addr bs n m d stream r :
  (2 <= n)%nat → pipe_user P p cr3 m d → user_bytes cr3 addr bs d → pipe_at P d stream r →
  wp (reader_ran P p cr3 (user_bytes cr3 addr bs)) (pipewrite P addr (Z.of_nat (length bs)) n (K m d))
    (λ a s', a = Z.of_nat (length bs) ∧ ∃ m' d' r', s' = K m' d' ∧ pipe_user P p cr3 m' d'
       ∧ pipe_at P d' (stream ++ bs) r').
Proof. intros Hn Hu Hb Hp. exact (pipewrite_wp P p cr3 addr bs n m d stream r Hn Hu Hb Hp). Qed.


(** A process whose address space is one page, at 0, and a pipe: full, and
    with two bytes in it. *)
Definition user_mem : mem :=
  store_bytes (store32 (store32 (λ _, 0) (P2V 0x1000) 0x2007) (P2V 0x2000) 0x3007) (P2V 0x3000) [104; 105].
Definition mp : mach := proc_mach 0 ((L_pipe 0x80004000, "pipe") :: sched_locks) <| m_cr3 := 0x1000 |>.
Definition dp (x : pipe) : kdata :=
  dt <| d_mm := d_mm dt <| mm_mem := user_mem |> |> <| d_pipes := {[ 0x80004000 := x ]} |>.
Definition full_pipe : pipe := Pipe (replicate 512 7) 0 512 1 1.
Definition closed_pipe : pipe := Pipe (104 :: 105 :: replicate 510 7) 2 2 1 0.
Definition small_pipe : pipe := Pipe (104 :: 105 :: replicate 510 7) 0 2 1 1.

Lemma pipe_user_dp x : pipe_user 0x80004000 0 0x1000 mp (dp x).
Proof.
  split; [split; [| by eexists | by eexists | done | done | unfold NPROC; lia] | done].
  exists 0%nat, ct. split; [split|..]; try done. by right.
Qed.
Lemma full_pipe_at : pipe_at 0x80004000 (dp full_pipe) (replicate 512 7) 0.
Proof.
  exists full_pipe. split_and!; [done | split | done | done]; try done; [vm_compute; lia|].
  intros k Hk. rewrite length_replicate in Hk.
  rewrite Z.mod_small, Nat2Z.id by (unfold PIPESIZE; lia). done.
Qed.
Lemma small_pipe_at : pipe_at 0x80004000 (dp small_pipe) [104; 105] 0.
Proof.
  exists small_pipe. split_and!; [done | split | done | done]; try done; [vm_compute; lia|].
  intros [|[|k]] Hk; [done | done | simpl in Hk; lia].
Qed.

(** The writer of a full pipe waits, some other process can read, and the two
    bytes then follow the 512. *)
Lemma pipewrite_fifo_witness :
  wp (reader_ran 0x80004000 0 0x1000 (user_bytes 0x1000 0 [104; 105])) (pipewrite 0x80004000 0 2 2%nat (K mp (dp full_pipe)))
    (λ a s', a = 2 ∧ ∃ m' d' r', s' = K m' d' ∧ pipe_user 0x80004000 0 0x1000 m' d'
       ∧ pipe_at 0x80004000 d' (replicate 512 7 ++ [104; 105]) r')
  ∧ ∃ s', reader_ran 0x80004000 0 0x1000 (user_bytes 0x1000 0 [104; 105]) W_sched (K (acq L_ptable mp) (dp full_pipe)) s'.
Proof.
  split.
  - apply (pipewrite_fifo 0x80004000 0 0x1000 0 [104; 105] 2 mp (dp full_pipe) (replicate 512 7) 0);
      [lia | apply pipe_user_dp | | apply full_pipe_at].
    intros [|[|k]] c Hc; [injection Hc as <-; by vm_compute.. | discriminate Hc].
  - eexists. eapply reader_can_run; [apply full_pipe_at | rewrite length_replicate; lia].
Defined.

