(* ===== verification/File.v ===== *)
(** * File: file.c, the open file table, and pipealloc of pipe.c *)

From S2P Require Import Prelude Memory Kstate Spinlock Kalloc Cprintf Vm Sched Sleeplock Bio Log Inode.
From S2P Require Import Console Fs Pipe.

Definition get_file (f : nat) : KM file := getd (λ d, d_files d !!! f).
Definition mod_file (f : nat) (g : file → file) : KM unit :=
  modd (λ d, d <| d_files := alter g f (d_files d) |>).

Definition fileinit : KM unit := initlock L_ftable "ftable".

Definition filealloc : KM (option nat) :=
  acquire L_ftable ;;
  r ← searchM (seq 0 NFILE) (λ f,
    x ← get_file f;
    if f_ref x =? 0 then
      mod_file f (λ x, x <| f_ref := 1 |>) ;;
      release L_ftable ;;
      mret (Some f)
    else mret None);
  match r with
  | Some f => mret (Some f)
  | None => release L_ftable ;; mret None
  end.

Definition filedup (f : nat) : KM nat :=
  acquire L_ftable ;;
  x ← get_file f;
  if f_ref x <? 1 then panic "filedup" else
  mod_file f (λ x, x <| f_ref := f_ref x + 1 |>) ;;
  release L_ftable ;;
  mret f.

Section file.
Context `{Disk}.

Definition fileclose (f : nat) : KM unit :=
  acquire L_ftable ;;
  x ← get_file f;
  if f_ref x <? 1 then panic "fileclose" else
  mod_file f (λ x, x <| f_ref := f_ref x - 1 |>) ;;
  ff ← get_file f;
  if f_ref ff >? 0 then release L_ftable else
  mod_file f (λ x, x <| f_ref := 0 |>) ;;
  mod_file f (λ x, x <| f_type := FD_NONE |>) ;;
  release L_ftable ;;
  match f_type ff with
  | FD_PIPE => pipeclose (f_pipe ff) (ctrue (f_writable ff))
  | FD_INODE =>
    begin_op ;;
    ip ← from_opt "fileclose: null inode" (f_ip ff);
    iput ip ;;
    end_op
  | FD_NONE => mret tt
  end.

(** The [struct stat] the call stores, if it succeeds. *)
Definition filestat (f : nat) : KM (option stat) :=
  x ← get_file f;
  match f_type x with
  | FD_INODE =>
    ilock (f_ip x) ;;
    ip ← from_opt "filestat: null inode" (f_ip x);
    st ← stati ip;
    iunlock (f_ip x) ;;
    mret (Some st)
  | _ => mret None
  end.

Definition fileread (f : nat) (addr n : Z) : KM Z :=
  x ← get_file f;
  if f_readable x =? 0 then mret (-1) else
  match f_type x with
  | FD_PIPE => piperead (f_pipe x) addr n
  | FD_INODE =>
    ilock (f_ip x) ;;
    ip ← from_opt "fileread: null inode" (f_ip x);
    x ← get_file f;
    r ← readi ip (D_va addr) (f_off x) (u32 n);
    when (r.1 >? 0) (mod_file f (λ x, x <| f_off := f_off x +u r.1 |>)) ;;
    iunlock (f_ip x) ;;
    mret r.1
  | FD_NONE => panic "fileread"
  end.

(** The most bytes written in one transaction. *)
Definition write_max : Z := Z.quot (MAXOPBLOCKS - 1 - 1 - 2) 2 * 512.
Fixpoint filewrite_loop (fuel : nat) (f : nat) (addr n i : Z) : KM Z :=
  match fuel with
  | O => out_of_fuel
  | S fuel' =>
    if negb (i <? n) then mret i else
    let n1 := n - i in
    let n1 := if n1 >? write_max then write_max else n1 in
    begin_op ;;
    x ← get_file f;
    ilock (f_ip x) ;;
    ip ← from_opt "filewrite: null inode" (f_ip x);
    x ← get_file f;
    r ← writei ip (S_va (u32 (addr + i))) (f_off x) (u32 n1);
    when (r >? 0) (mod_file f (λ x, x <| f_off := f_off x +u r |>)) ;;
    iunlock (f_ip x) ;;
    end_op ;;
    if r <? 0 then mret i else
    if negb (r =? n1) then panic "short filewrite" else
    filewrite_loop fuel' f addr n (i + r)
  end.
Definition filewrite (f : nat) (addr n : Z) : KM Z :=
  x ← get_file f;
  if f_writable x =? 0 then mret (-1) else
  match f_type x with
  | FD_PIPE => pipewrite (f_pipe x) addr n
  | FD_INODE =>
    i ← filewrite_loop (S (Z.to_nat n)) f addr n 0;
    mret (if i =? n then n else -1)
  | FD_NONE => panic "filewrite"
  end.

(** ** pipealloc *)

(** [bad]: give back what was allocated; the page of the pipe comes last, so
    there is none to free here. *)
Definition pipealloc_bad (f0 f1 : option nat) : KM unit :=
  match f0 with Some f => fileclose f | None => mret tt end ;;
  match f1 with Some f => fileclose f | None => mret tt end.
(** The read end and the write end. *)
Definition pipealloc : KM (option (nat * nat)) :=
  f0 ← filealloc;
  match f0 with
  | None => pipealloc_bad None None ;; mret None
  | Some r =>
    f1 ← filealloc;
    match f1 with
    | None => pipealloc_bad (Some r) None ;; mret None
    | Some w =>
      p ← kalloc;
      if p =? 0 then pipealloc_bad (Some r) (Some w) ;; mret None else
      junk ← get_mem;
      modd (λ d, d <| d_pipes := <[p := Pipe (load_bytes junk p (Z.to_nat PIPESIZE)) 0 0 1 1]> (d_pipes d) |>) ;;
      initlock (L_pipe p) "pipe" ;;
      mod_file r (λ x, x <| f_type := FD_PIPE |> <| f_readable := 1 |> <| f_writable := 0 |> <| f_pipe := p |>) ;;
      mod_file w (λ x, x <| f_type := FD_PIPE |> <| f_readable := 0 |> <| f_writable := 1 |> <| f_pipe := p |>) ;;
      mret (Some (r, w))
    end
  end.
End file.
