(* ===== verification/FileWrite.v ===== *)
(** * FileWrite: filewrite, one transaction at a time

    filewrite begins a transaction, locks the inode, writes a piece of the
    bytes, moves the offset, unlocks and commits.  [fs_state] is what holds
    between system calls. *)

From S2P Require Import Prelude Memory Kstate Spinlock Kalloc Cprintf Vm Sched SchedFacts Sleeplock Bio BioRing BioFacts Ide IdeFacts Log LogFacts CrashFacts TxFacts Inode Console Fs FsFacts Ondisk Alloc FileMap BmapFacts WriteMap WriteFacts FsInv Pipe File.

(** ** begin_op and end_op

    [idle m d v]: no transaction is open, and the disk and the cache show the
    blocks [v].  begin_op opens one, end_op commits it. *)

Section op.
Context {Drv : Disk} {p : nat} {R : wait_reason → kst → kst → Prop} {DL : DiskLaw p R} (n : nat) (Hn : (2 <= n)%nat).
Context (start nlog : Z) (Ha : log_area start nlog).

Record idle (m : mach) (d : kdata) (v : blocks) : Prop := {
  id_fs : fs_ok m d v ∅ ∅ ∅;
  id_log : log_is (d_log d) start nlog [];
  id_out : log_outstanding (d_log d) = 0;
  id_com : log_committing (d_log d) = 0;
  id_hdr : hdr_n (disk_of d start) = 0
}.

(** One system call is in a transaction. *)
Definition opened (d : kdata) : kdata := d <| d_log := d_log d <| log_outstanding := 1 |> |>.
(** What an operation leaves alone: all but the cache, the log and the disk. *)
Definition op_frame (d d' : kdata) : Prop := fs_frame (d <| d_log := d_log d' |>) d'.

Lemma begin_op_done m d v :
  idle m d v → begin_op n (K m d) = Done tt (K m (opened d)) ∧ tx start nlog m (opened d) v [] ∅.
Proof.
  intros [Hok HL Ho Hc Hh]. pose proof Hok as (Ht & _). destruct (ft_run _ _ _ Ht) as (ci & c & Hr). pose proof (rp_ok _ _ _ _ Hr) as Hmo.
  split.
  - unfold begin_op. rewrite (bind_done _ _ _ _ _ _ (acquire_done n m d ci c _ Hmo (ft_free _ _ _ Ht L_log I))).
    unfold with_fuel. destruct n as [|n']; [lia|]. cbn [begin_op_loop]. rewrite get_log_bind, Hc, Ho, (li_n _ _ _ _ HL).
    change (ctrue 0) with false. change (_ >? LOGSIZE) with false. cbv iota. unfold mod_log. rewrite bind_modd.
    rewrite (release_acq _ m _ ci c L_log Hmo (ft_free _ _ _ Ht L_log I)). do 2 f_equal. unfold opened. destruct d as [? ? ? ? ? ? ? ? ? ? L]. simpl in *. by rewrite Ho.
  - split; [by apply fs_ok_log | by destruct HL; split | constructor | by apply tx_ok_nil | simpl; lia].
Qed.

(** The rest of end_op, after a commit or without one. *)
Definition closed (L : logst) : logst := L <| log_outstanding := 0 |> <| log_committing := 0 |>.
Lemma commit_nothing m d : log_is (d_log d) start nlog [] → commit n (K m d) = Done tt (K m d).
Proof. intros HL. unfold commit. by rewrite get_log_bind, (li_n _ _ _ _ HL). Qed.

Definition recoverable (d : kdata) (v : blocks) (ws : list (Z * list Z)) : Prop :=
  ∀ k, let crash := apply_writes (take k ws) (disk_of d) in
    hdr_ok start nlog (crash start) ∧ (same_files start nlog (recovered start crash) (disk_of d) ∨ same_files start nlog (recovered start crash) v).

Lemma commit_any m d v bs :
  fs_ok m d v (list_to_set bs) (list_to_set bs) ∅ → log_is (d_log d) start nlog bs → tx_ok start nlog bs → NoDup bs → hdr_n (disk_of d start) = 0 →
  wp R (commit n (K m d)) (λ _ s', ∃ m' d' v' ws, s' = K m' d' ∧ fs_frame (d <| d_log := cleared (d_log d) |>) d' ∧ fs_ok m' d' v' ∅ ∅ ∅
    ∧ wrote ws d d' ∧ hdr_n (disk_of d' start) = 0 ∧ same_files start nlog v' v ∧ recoverable d v ws).
Proof.
  intros Hok HL Htx Hnd Hh. destruct (decide (bs = [])) as [->|Hne].
  - rewrite (commit_nothing m d HL). exists m, d, v, []. split_and!; [done | | done | by apply wrote_nil | done | done |].
    + unfold cleared. destruct d as [? ? ? ? ? ? ? ? ? ? [? ? ? ? ? []]]. pose proof (li_n _ _ _ _ HL) as E. simpl in E. subst. done.
    + intros k. rewrite take_nil. split; [by apply hdr_ok_empty|]. left. intros b Hb Hl. by eapply recovered_empty.
  - eapply wp_mono; [|by apply (commit_crash n start nlog m d v bs)].
    intros [] s' (m' & d' & v' & ws & -> & Hf & Hok' & Hw & _ & Hh' & Hs & _ & Hcr). exists m', d', v', ws. split_and!; try done.
    intros k. destruct (Hcr k) as [H1 H2]. split; [done|]. case_decide; auto.
Qed.

Lemma end_op_wp m d v bs :
  tx start nlog m d v bs ∅ → log_outstanding (d_log d) = 1 → log_committing (d_log d) = 0 → hdr_n (disk_of d start) = 0 →
  wp R (end_op n (K m d)) (λ _ s', ∃ m' d' v' ws, s' = K m' d' ∧ idle m' d' v' ∧ op_frame d d' ∧ wrote ws d d'
    ∧ same_files start nlog v' v ∧ recoverable d v ws).
Proof.
  intros [Hok HL Hnd Htx _] Ho Hc Hh. pose proof Hok as (Ht & _). destruct (ft_run _ _ _ Ht) as (ci & c & Hr). pose proof (rp_ok _ _ _ _ Hr) as Hmo.
  unfold end_op. rewrite (bind_done _ _ _ _ _ _ (acquire_done n m d ci c _ Hmo (ft_free _ _ _ Ht L_log I))).
  unfold mod_log. rewrite bind_modd. set (d0 := set_field d_log _ d).
  assert (Hc0 : log_committing (d_log d0) = 0) by exact Hc. assert (Ho0 : log_outstanding (d_log d0) = 0) by (simpl; lia).
  rewrite get_log_bind, Hc0, Ho0. change (ctrue 0) with false. change (0 =? 0) with true. cbv iota zeta. cbn [when]. rewrite bind_modd.
  set (d1 := set_field d_log _ _).
  rewrite (bind_done _ _ _ _ _ _ (release_acq n m d1 ci c L_log Hmo (ft_free _ _ _ Ht L_log I))). apply wp_bind.
  assert (HL1 : log_is (d_log d1) start nlog bs) by (destruct HL; by split).
  eapply wp_mono; [|apply (commit_any m d1 v bs); [by apply fs_ok_log, fs_ok_log | done | done | done | done]].
  intros [] s2 (m2 & d2 & v2 & ws & -> & Hf2 & Hok2 & Hw2 & Hh2 & Hs2 & Hcr2).
  pose proof Hok2 as (Ht2 & _). destruct (ft_run _ _ _ Ht2) as (ci2 & c2 & Hr2). pose proof (rp_ok _ _ _ _ Hr2) as Hmo2.
  rewrite (bind_done _ _ _ _ _ _ (acquire_done n m2 d2 ci2 c2 _ Hmo2 (ft_free _ _ _ Ht2 L_log I))). rewrite bind_modd.
  set (d3 := set_field d_log _ d2). assert (Hp3 : length (d_procs d3) = NPROC) by apply Ht2.
  rewrite (bind_done _ _ _ _ _ _ (wakeup_done n _ d3 ci2 _ Ch_log (mach_ok_acq _ _ _ _ Hmo2)
    (acq_free_other L_log L_ptable m2 ltac:(done) (ft_free _ _ _ Ht2 L_ptable I)) Hp3)).
  rewrite (release_acq n m2 _ ci2 c2 L_log Hmo2 (ft_free _ _ _ Ht2 L_log I)). set (d4 := set_field d_procs _ d3).
  pose proof (fs_frame_log _ _ Hf2) as El. simpl in El. exists m2, d4, v2, ws.
  assert (Hq : quiet <$> d_procs d4 = quiet <$> d_procs d2) by (unfold d4; simpl; apply quiet_wake).
  split_and!; [done | split | | | done | done].
  - eapply fs_ok_other; [..|exact Hok2]; try done. by apply pdirs_quiet.
  - simpl. rewrite El. apply log_is_cleared in HL1. destruct HL1. by split.
  - simpl. rewrite El. exact Ho0.
  - done.
  - exact Hh2.
  - destruct Hf2 as [Hc2 Hl2]. split; [|exact Hl2]. apply (f_equal (λ x, x <| d_log := d_log d4 |>)) in Hc2. unfold fs_core in *. simpl in *. by rewrite quiet_wake.
  - apply (wrote_pre _ d d1); [done|]. by apply (wrote_post _ d1 d2).
Qed.
End op.

(** ** filewrite *)

Section filewrite.
Context {Drv : Disk} {p : nat} {R : wait_reason → kst → kst → Prop} {DL : DiskLaw p R} (n : nat) (Hn : (2 <= n)%nat).
Context (sb : superblock) (start nlog ds : Z) (Hly : layout sb start nlog ds).

Definition inums_ok (d : kdata) : Prop := ∀ k i, d_inodes d !! k = Some i → 0 < i_ref i → 0 < i_inum i < sb_ninodes sb.

Record fs_state (m : mach) (d : kdata) (v : blocks) : Prop := {
  st_idle : idle start nlog m d v;
  st_ic : icache sb v None d;
  st_inums : inums_ok d;
  st_inv : fs_inv sb ds v
}.

(** ** The inode cache *)

Lemma icache_core v lk d d' :
  d_inodes d' = d_inodes d → d_sb d' = d_sb d → (∀ k, d_sl d' !! SL_inode k = d_sl d !! SL_inode k) → icache sb v lk d → icache sb v lk d'.
Proof. intros Ei Es El [H1 H2 H3 H4 H5]. split; rewrite ?Ei, ?Es; try done. intros k Hk. rewrite El. auto. Qed.
Lemma icache_tx v lk d d' : tx_frame d d' → icache sb v lk d → icache sb v lk d'.
Proof. intros Hf. apply icache_core; [by apply tx_frame_inodes | by apply tx_frame_sb | apply (ff_locks _ _ (tf_frame _ _ Hf))]. Qed.
Lemma icache_op v lk d d' : op_frame d d' → icache sb v lk d → icache sb v lk d'.
Proof. intros Hf. apply icache_core; [apply (fs_frame_inodes _ _ Hf) | apply (fs_frame_sb _ _ Hf) | apply (ff_locks _ _ Hf)]. Qed.
Lemma icache_blocks v v' lk d :
  (∀ k i, d_inodes d !! k = Some i → 0 < i_ref i → dino_at v' sb (i_inum i) i = dino_at v sb (i_inum i) i) → icache sb v lk d → icache sb v' lk d.
Proof.
  intros Hb [H1 H2 H3 H4 H5]. split; try done. intros k i Hk. destruct (H3 k i Hk) as [H0 Hv]. split; [done|]. intros Hr. destruct (Hv Hr) as [? Hd].
  split; [done|]. rewrite (Hb k i Hk Hr). done.
Qed.
(** The locked inode is changed and stored. *)
Lemma icache_stored v v' d ip i i2 :
  icache sb v (Some ip) d → inums_ok d → d_inodes d !! ip = Some i → 0 < i_ref i →
  i_dev i2 = i_dev i → i_inum i2 = i_inum i → i_ref i2 = i_ref i → dino_at v' sb (i_inum i) i2 = i2 →
  (∀ j, 0 < j < sb_ninodes sb → j ≠ i_inum i → ∀ x, dino_at v' sb j x = dino_at v sb j x) →
  icache sb v' (Some ip) (set_inode d ip i2).
Proof.
  intros [H1 H2 H3 H4 H5] Hin Hi Hr Ed En Er Hst Hoth. unfold set_inode. split; simpl; [by rewrite length_insert | done | | | done].
  - intros k j [[-> ->]|[Hne Hj]]%insert_cases.
    + destruct (H3 ip i Hi) as [_ Hv]. destruct (Hv Hr) as [Hdev _]. split; [lia|]. intros _. rewrite En. split; [congruence | done].
    + destruct (H3 k j Hj) as [H0 Hv]. split; [done|]. intros Hrj. destruct (Hv Hrj) as [Hdev Hval]. split; [done|]. intros Hvl.
      rewrite Hoth; [by apply Hval | by eapply Hin |]. intros E. by apply Hne, (H4 k ip j i).
  - intros k1 k2 i1 i2' [[-> ->]|[Hne1 K1]]%insert_cases [[-> ->]|[Hne2 K2]]%insert_cases Hr1 Hr2 He; [done | | | by eapply H4];
      rewrite ?En, ?Er in *; [symmetry|]; by eapply H4.
Qed.
Lemma inums_set d ip i i2 : inums_ok d → d_inodes d !! ip = Some i → i_inum i2 = i_inum i → i_ref i2 = i_ref i → inums_ok (set_inode d ip i2).
Proof. intros Hin Hi En Er k j [[-> ->]|[Hne Hj]]%insert_cases Hr; [rewrite En; rewrite Er in Hr; by eapply Hin | by eapply Hin]. Qed.
Lemma inums_same d d' : d_inodes d' = d_inodes d → inums_ok d → inums_ok d'.
Proof. unfold inums_ok. by intros ->. Qed.
Lemma inums_iframe d d' : refs d' = refs d → iframe d d' → inums_ok d → inums_ok d'.
Proof.
  intros Er Hf Hin k i' Hk Hr. pose proof (refs_lookup _ _ _ Hk) as Hrk. rewrite Er in Hrk. unfold refs in Hrk.
  apply list_lookup_fmap_Some in Hrk as (i & Ei & Hi). destruct (if_slot _ _ Hf k i Hi) as (i1 & Hi1 & En); [lia|].
  rewrite Hk in Hi1. injection Hi1 as <-. rewrite En. apply (Hin k i Hi). lia.
Qed.

(** ** What the file system does not touch *)

Definition outside (d : kdata) := (d_mm d, quiet <$> d_procs d, d_files d).
Lemma outside_core d d' : fs_core (d' <| d_inodes := [] |> <| d_log := d_log d |>) = fs_core (d <| d_inodes := [] |>) → outside d' = outside d.
Proof.
  intros E. unfold outside. pose proof (f_equal d_mm E) as E1. pose proof (f_equal d_procs E) as E2. pose proof (f_equal d_files E) as E3. simpl in *. congruence.
Qed.
Lemma outside_tx d d' : tx_frame d d' → outside d' = outside d.
Proof. intros [[Hc _] _ _]. apply outside_core. exact (f_equal (λ x, x <| d_inodes := [] |> <| d_log := d_log d |>) Hc). Qed.
Lemma outside_op d d' : op_frame d d' → outside d' = outside d.
Proof. intros [Hc _]. apply outside_core. exact (f_equal (λ x, x <| d_inodes := [] |> <| d_log := d_log d |>) Hc). Qed.
Lemma outside_if d d' : iframe d d' → outside d' = outside d ∧ d_log d' = d_log d.
Proof.
  intros [Hc _ _]. split; [|by apply (f_equal d_log) in Hc]. apply outside_core. exact (f_equal (λ x, x <| d_log := d_log d |>) Hc).
Qed.
Lemma outside_src from l d d' : outside d' = outside d → src_ok p from l d → src_ok p from l d'.
Proof. intros E Hs k m1 d1 tot j Ht Hm Hp. injection E as E1 E2 _. apply Hs; [done | congruence | congruence]. Qed.

Lemma tx_if m m' d d' v bs H H' :
  tx start nlog m d v bs H → fs_ok m' d' v (list_to_set bs) (list_to_set bs) H' → d_log d' = d_log d → tx start nlog m' d' v bs H'.
Proof. intros [? ? ? ? ?] Hok El. split; rewrite ?El; done. Qed.
Lemma tx_files m d v bs H fs : tx start nlog m d v bs H → tx start nlog m (d <| d_files := fs |>) v bs H.
Proof. intros [? ? ? ? ?]. split; try done. by eapply fs_ok_other; [..|eassumption]. Qed.

(** ** What a crash leaves *)

Definition crash_ok (d : kdata) (v v' : blocks) (ws : list (Z * list Z)) : Prop :=
  ∀ k, let crash := apply_writes (take k ws) (disk_of d) in
    hdr_ok start nlog (crash start) ∧ fs_inv sb ds (recovered start crash)
    ∧ ((∀ j, file_of sb (recovered start crash) j = file_of sb v j) ∨ (∀ j, file_of sb (recovered start crash) j = file_of sb v' j)).

Lemma recoverable_ok m d d1 v v' ws :
  idle start nlog m d v → wrote [] d d1 → fs_inv sb ds v → fs_inv sb ds v' → recoverable start nlog d1 v' ws → crash_ok d v v' ws.
Proof.
  intros [Hok _ _ _ _] Hw Hi Hi' Hrec k crash. pose proof Hok as (_ & _ & Hc). pose proof (ly_log _ _ _ _ Hly) as Ha.
  assert (Hd : ∀ b, is_blk b → disk_of d b = v b) by (intros b Hb; apply (co_disk _ _ _ _ _ Hc); [done | set_solver]).
  assert (Hd1 : ∀ b, disk_of d1 b = disk_of d b) by (intros b; apply (wr_disk _ _ _ Hw)).
  destruct (Hrec k) as [Hh Hcase]. set (crash1 := apply_writes (take k ws) (disk_of d1)) in *.
  assert (Hcc : ∀ b, crash1 b = crash b) by (intros b; apply apply_writes_at, Hd1). rewrite Hcc in Hh. split; [done|].
  assert (Hr : same_files start nlog (recovered start crash) (recovered start crash1)) by (apply (recovered_blk start nlog Ha); [intros b _; by rewrite Hcc | done]).
  destruct Hcase as [Hs|Hs].
  - assert (Hv : ∀ b, is_blk b → ¬ in_log start nlog b → recovered start crash b = v b).
    { intros b Hb Hl. by rewrite (Hr b Hb Hl), (Hs b Hb Hl), Hd1, Hd. }
    split; [by eapply same_inv|]. left. intros j. by eapply same_file.
  - assert (Hv : ∀ b, is_blk b → ¬ in_log start nlog b → recovered start crash b = v' b) by (intros b Hb Hl; by rewrite (Hr b Hb Hl), (Hs b Hb Hl)).
    split; [by eapply same_inv|]. right. intros j. by eapply same_file.
Qed.

(** ** Inside a transaction, with the inode [i] of slot [ip] locked *)

Record in_op (d0 : kdata) (ip : nat) (m : mach) (d : kdata) (v : blocks) (bs : list Z) (i : inode) : Prop := {
  io_tx : tx start nlog m d v bs ∅;
  io_ic : icache sb v (Some ip) d;
  io_inums : inums_ok d;
  io_inode : d_inodes d !! ip = Some i;
  io_ref : 0 < i_ref i;
  io_dev : i_dev i = ROOTDEV;
  io_stored : dino_at v sb (i_inum i) i = i;
  io_log : log_outstanding (d_log d) = 1 ∧ log_committing (d_log d) = 0;
  io_wrote : wrote [] d0 d
}.

Lemma enter_wp m d v ip i0 :
  fs_state m d v → d_inodes d !! ip = Some i0 → 0 < i_ref i0 → in_use sb v (i_inum i0) →
  wp R (ilock (Some ip) n (K m (opened d))) (λ _ s', ∃ m' d' i, s' = K m' d' ∧ in_op d ip m' d' v [] i
    ∧ i_inum i = i_inum i0 ∧ i_ref i = i_ref i0 ∧ outside d' = outside d).
Proof.
  intros [Hid Hic Hin Hinv] Hi Hr [Hnum Hty]. destruct (begin_op_done n Hn start nlog (ly_log _ _ _ _ Hly) m d v Hid) as [_ Ht].
  pose proof (tx_fs _ _ _ _ _ _ _ Ht) as Hok. destruct (iblock_ok sb start nlog ds Hly _ Hnum) as [Hblk _].
  assert (Hic1 : icache sb v None (opened d)) by by apply (icache_core v None d).
  eapply wp_mono; [|apply (ilock_load_wp n Hn m (opened d) sb v _ _ ip i0 Hok Hic1); [rewrite list_to_set_nil, size_empty; unfold NBUF; lia | done..]].
  intros [] s1 (m1 & d1 & -> & Hok1 & Hic2 & Er & Hf & i & Hi1 & En & Erf & Hld & Hv). destruct (outside_if _ _ Hf) as [Eo El].
  exists m1, d1, i. split; [done|]. split; [|split_and!; [done | done | by rewrite Eo]].
  destruct (ic_slot _ _ _ _ Hic2 ip i Hi1) as [_ Hs]. destruct (Hs ltac:(lia)) as [Hdev Hdi].
  split; try done.
  - by eapply tx_if.
  - by eapply inums_iframe.
  - lia.
  - by apply Hdi.
  - rewrite El. split; [done | apply (id_com _ _ _ _ _ Hid)].
  - apply (wrote_pre [] d (opened d)); [done | apply Hf].
Qed.

Lemma leave_wp m0 d0 v0 ip m d v bs i :
  idle start nlog m0 d0 v0 → fs_inv sb ds v0 → fs_inv sb ds v → in_op d0 ip m d v bs i →
  wp R ((iunlock (Some ip) ;; end_op) n (K m d)) (λ _ s', ∃ m' d' v' ws, s' = K m' d' ∧ fs_state m' d' v' ∧ same_files start nlog v' v
    ∧ outside d' = outside d ∧ d_inodes d' = d_inodes d ∧ wrote ws d0 d' ∧ crash_ok d0 v0 v ws).
Proof.
  intros Hid Hi0 Hinv [Ht Hic Hin Hi Hr Hdev Hst [Ho Hc] Hw]. pose proof (ly_log _ _ _ _ Hly) as Ha.
  destruct (iunlock_wp n Hn m d sb v _ _ ip i (tx_fs _ _ _ _ _ _ _ Ht) Hic Hi Hr) as (d1 & Hrun & Hok1 & Hic1 & Ei1 & Hf1).
  rewrite (bind_done _ _ _ _ _ _ Hrun). destruct (outside_if _ _ Hf1) as [Eo1 El1].
  assert (Hw1 : wrote [] d0 d1) by (apply (wrote_app [] [] d0 d); [done | apply Hf1]).
  eapply wp_mono; [|apply (end_op_wp n Hn start nlog Ha m d1 v bs); [by eapply tx_if | by rewrite El1 | by rewrite El1 |]].
  2:{ rewrite (wr_disk _ _ _ Hw1). apply (id_hdr _ _ _ _ _ Hid). }
  intros [] s2 (m2 & d2 & v2 & ws & -> & Hid2 & Hf2 & Hw2 & Hs2 & Hrec). exists m2, d2, v2, ws.
  assert (Ei2 : d_inodes d2 = d_inodes d1) by apply (fs_frame_inodes _ _ Hf2). split; [done|]. split; [|split_and!].
  - split; [done | | by apply (inums_same d1), (inums_same d) | by eapply same_inv].
    apply (icache_op _ _ d1 d2 Hf2). apply (icache_blocks v v2); [|done]. intros k j Hk Hrj. eapply same_dino; [exact Hly | done |].
    rewrite Ei1 in Hk. by eapply Hin.
  - done.
  - by rewrite (outside_op _ _ Hf2).
  - congruence.
  - by apply (wrote_app [] ws d0 d1).
  - by eapply recoverable_ok.
Qed.

(** ** One piece of filewrite *)

(** The files with [l] written at offset [off] of file [inum]. *)
Definition fv_write (off : Z) (l : list Z) (a : fview) : fview :=
  FView (fv_type a) (fv_major a) (fv_minor a) (fv_nlink a) (splice off l (fv_bytes a)).
Definition files_write (fs : Z → option fview) (inum off : Z) (l : list Z) (j : Z) : option fview :=
  if decide (j = inum) then fv_write off l <$> fs j else fs j.

Lemma file_of_Some v inum a : file_of sb v inum = Some a →
  in_use sb v inum ∧ fv_type a = i_type (dino v sb inum) ∧ fv_bytes a = fbytes v (i_addrs (dino v sb inum)) 0 (i_size (dino v sb inum)).
Proof. unfold file_of. case_decide; [|done]. by intros [= <-]. Qed.
Lemma file_size v inum a : fs_inv sb ds v → file_of sb v inum = Some a → Z.of_nat (length (fv_bytes a)) = i_size (dino v sb inum).
Proof.
  clear Hn. intros Hinv Ha. destruct (file_of_Some v inum a Ha) as (Hu & _ & ->). unfold fbytes. rewrite length_fmap, length_seqZ.
  destruct (fi_there _ _ _ Hinv inum Hu) as [Hs _]. lia.
Qed.
Lemma free_ext v v' : v' (BBLOCK 0 sb) = v (BBLOCK 0 sb) → free_blocks sb v' = free_blocks sb v.
Proof. intros E. apply list_filter_iff. intros b. unfold marked. by rewrite E. Qed.

Record chunk_done (d : kdata) (v : blocks) (f ip : nat) (x : file) (i0 : inode) (l : list Z) (m' : mach) (d' : kdata) (v' : blocks) (ws : list (Z * list Z)) : Prop := {
  cd_state : fs_state m' d' v';
  cd_outside : outside d' = (d_mm d, quiet <$> d_procs d, <[f := x <| f_off := f_off x + Z.of_nat (length l) |>]> (d_files d));
  cd_slot : ∃ i1, d_inodes d' !! ip = Some i1 ∧ i_inum i1 = i_inum i0 ∧ i_ref i1 = i_ref i0;
  cd_files j : file_of sb v' j = files_write (file_of sb v) (i_inum i0) (f_off x) l j;
  cd_free : Z.of_nat (length (free_blocks sb v)) <= Z.of_nat (length (free_blocks sb v')) + 1 + nspan (f_off x) (Z.of_nat (length l));
  cd_wrote : wrote ws d d';
  cd_crash : crash_ok d v v' ws
}.

(** writei with the inode locked: the files change as they should. *)
Lemma write_op_wp d0 ip m d v bs i from off k l :
  in_op d0 ip m d v bs i → fs_inv sb ds v → in_use sb v (i_inum i) → i_type i ≠ T_DEV →
  0 <= off <= i_size i → 0 <= k → off + k <= MAXFILE * BSIZE → Z.of_nat (length l) = k → src_ok p from l d →
  nspan off k + 3 <= Z.of_nat (length (free_blocks sb v)) → Z.of_nat (length bs) + nspan off k + 6 < nlog - 1 →
  wp R (writei ip from off k n (K m d)) (λ r s', r = k ∧ ∃ m' d' v' bs' i2, s' = K m' d' ∧ in_op d0 ip m' d' v' bs' i2
    ∧ i_inum i2 = i_inum i ∧ i_ref i2 = i_ref i ∧ outside d' = outside d ∧ fs_inv sb ds v'
    ∧ (∀ j, file_of sb v' j = files_write (file_of sb v) (i_inum i) off l j)
    ∧ Z.of_nat (length (free_blocks sb v)) <= Z.of_nat (length (free_blocks sb v')) + 1 + nspan off k).
Proof.
  intros [Ht Hic Hin Hi Hr Hdev Hst [Ho Hc] Hw] Hinv Hu Hty Hoff Hk Hmax Hl Hsrc Hfree Hroom.
  destruct (wi_file sb ds v i Hinv Hu Hst) as [Hok Hall]. destruct (ly_bm _ _ _ _ Hly) as [Hbm _].
  assert (Hlen : length (v (IBLOCK (i_inum i) sb)) = Z.to_nat BSIZE).
  { eapply tx_length; [exact Ht | by apply (iblock_ok sb start nlog ds Hly _ (proj1 Hu))]. }
  eapply wp_mono; [|apply (writei_wp n Hn sb start nlog ds Hly m d v bs ip i from off k l); try done; [apply Hic | apply Hu | apply Hinv]].
  intros r s' (-> & m' & d' & v1 & v' & a & bs1 & bs' & -> & Hwd). split; [done|].
  pose proof (wi_stored sb start nlog ds Hly d v bs ip i off k l m' d' v1 v' a bs1 bs' Hinv Hu Hst Hlen Hoff Hmax Hwd) as (Hs1 & Hs2 & Hs3).
  pose proof (wi_result sb start nlog ds Hly d v bs ip i off k l m' d' v1 v' a bs1 bs' Hinv Hu Hst Hlen Hoff Hmax Hl Hwd) as (Hv1 & Hv2 & Hv3 & Hv4).
  destruct Hwd as [Ht' Hf' Hwr _ _ _]. fold (end_size i off k) in Hf'. change (grown i a (end_size i off k)) with (end_inode i off k a) in Hf'.
  set (i2 := end_inode i off k a) in *. exists m', d', v', bs', i2. split; [done|]. split.
  - assert (Ei : d_inodes d' = <[ip := i2]> (d_inodes d)) by apply (tx_frame_inodes _ _ Hf').
    pose proof (tx_open_frame _ _ Hf') as Eo. pose proof (f_equal log_committing (tf_log _ _ Hf')) as Ec. simpl in Eo, Ec.
    split; try done.
    + apply (icache_tx _ _ (set_inode d ip i2)); [done|]. by eapply icache_stored.
    + apply (inums_same (set_inode d ip i2)); [done|]. by eapply inums_set.
    + rewrite Ei. apply list_lookup_insert_eq. by eapply lookup_lt_Some.
    + split; congruence.
    + apply (wrote_app [] [] d0 d d' Hw). apply (wrote_pre [] d (set_inode d ip i2)); [done | apply Hf'].
  - split_and!; [done | done | by rewrite (outside_tx _ _ Hf') | done | |].
    + intros j. unfold files_write. case_decide as E; [subst j; by rewrite Hv3, Hv4 | by apply Hv2].
    + rewrite (free_ext v1 v') by (apply Hs3; by right). eapply (written_free sb ds Hbm off k l v); done.
Qed.
Lemma in_op_files d0 ip m d v bs i fs : in_op d0 ip m d v bs i → in_op d0 ip m (d <| d_files := fs |>) v bs i.
Proof.
  intros [Ht Hic Hin Hi Hr Hdev Hst Hlg Hw]. split; try done; [by apply tx_files | by apply (icache_core v (Some ip) d) | by apply (wrote_post [] d0 d)].
Qed.

(** Where a file descriptor's inode is, and that a write fits. *)
Record can_write (d : kdata) (v : blocks) (f ip : nat) (x : file) (i0 : inode) (a : fview) (k : Z) : Prop := {
  cw_file : d_files d !! f = Some x;
  cw_ip : f_ip x = Some ip;
  cw_slot : d_inodes d !! ip = Some i0;
  cw_ref : 0 < i_ref i0;
  cw_this : file_of sb v (i_inum i0) = Some a;
  cw_dev : fv_type a ≠ T_DEV;
  cw_off : 0 <= f_off x <= Z.of_nat (length (fv_bytes a));
  cw_max : f_off x + k <= MAXFILE * BSIZE
}.

Lemma chunk_wp m d v f ip x i0 a from l (g : Z → KM Z) (Q : Z → kst → Prop) :
  let k := Z.of_nat (length l) in
  fs_state m d v → can_write d v f ip x i0 a k → 0 < k → src_ok p from l d →
  nspan (f_off x) k + 3 <= Z.of_nat (length (free_blocks sb v)) → nspan (f_off x) k + 6 < nlog - 1 →
  (∀ m' d' v' ws, chunk_done d v f ip x i0 l m' d' v' ws → wp R (g k n (K m' d')) Q) →
  wp R ((begin_op ;;
         x ← get_file f;
         ilock (f_ip x) ;;
         ip ← from_opt "filewrite: null inode" (f_ip x);
         x ← get_file f;
         r ← writei ip from (f_off x) (u32 k);
         when (r >? 0) (mod_file f (λ x, x <| f_off := f_off x +u r |>)) ;;
         iunlock (f_ip x) ;;
         end_op ;; g r) n (K m d)) Q.
Proof.
  intros k Hst [Hf Hip Hi Hr Hfo Hdev Hoff Hmax] Hk Hsrc Hfree Hroom Hg. pose proof Hst as [Hid Hic Hin Hinv].
  pose proof (ly_log _ _ _ _ Hly) as Ha. change (MAXFILE * BSIZE) with 71680 in Hmax. destruct (file_of_Some v _ a Hfo) as (Hu & Hty & Hby).
  pose proof (file_size v _ a Hinv Hfo) as Hsz. destruct (begin_op_done n Hn start nlog Ha m d v Hid) as [Hrun _]. rewrite (bind_done _ _ _ _ _ _ Hrun).
  assert (Egf : ∀ A m1 d1 (h : file → KM A), d_files d1 = d_files d → (get_file f ≫= h) n (K m1 d1) = h x n (K m1 d1)).
  { intros A m1 d1 h E. unfold get_file. rewrite bind_getd, E. by rewrite (lookup_total_Some _ _ _ Hf). }
  rewrite Egf by done. rewrite Hip. apply wp_bind. eapply wp_mono; [|by apply (enter_wp m d v ip i0)].
  intros [] s1 (m1 & d1 & i & -> & Hop & En & Er & Eo). cbn [from_opt]. rewrite bind_mret. injection Eo as Eo1 Eo2 Eo3. rewrite Egf by done.
  pose proof (dino_fields sb v _ i (io_stored _ _ _ _ _ _ _ Hop)) as Efi. rewrite En in Efi.
  rewrite (u32_small k) by (unfold is_u32; lia). apply wp_bind. eapply wp_mono; [|apply (write_op_wp d ip m1 d1 v [] i from (f_off x) k l Hop Hinv); try done].
  2:{ by rewrite En. }
  2:{ rewrite Hty, Efi in Hdev. exact Hdev. }
  2:{ rewrite Hsz, Efi in Hoff. exact Hoff. }
  2:{ lia. }
  2:{ apply (outside_src _ _ d); [unfold outside; congruence | done]. }
  intros r s2 (-> & m2 & d2 & v2 & bs2 & i2 & -> & Hop2 & En2 & Er2 & Eo' & Hinv2 & Hfs2 & Hfr2). injection Eo' as Eo1' Eo2' Eo3'.
  rewrite Z.gtb_ltb, (proj2 (Z.ltb_lt 0 k)) by done. cbn [when]. unfold mod_file. rewrite bind_modd.
  assert (Hf2 : d_files d2 !! f = Some x) by congruence. rewrite (list_alter_insert_at _ _ _ _ Hf2).
  rewrite (u32_small (f_off x + k)) by (unfold is_u32; lia). set (x' := x <| f_off := f_off x + k |>). set (d3 := set_field d_files _ d2).
  pose proof (in_op_files _ _ _ _ _ _ _ (<[f := x']> (d_files d2)) Hop2) as Hop3. rewrite Hip.
  apply wp_bind2. eapply wp_mono; [|by apply (leave_wp m d v ip m2 d3 v2 bs2 i2)].
  intros [] s4 (m4 & d4 & v4 & ws & -> & Hst4 & Hs4 & Eo4 & Ei4 & Hw4 & Hcr4). apply (Hg m4 d4 v4 ws).
  split; [done | | | | | done |].
  - rewrite Eo4. unfold outside, d3. simpl. by rewrite Eo1', Eo1, Eo2', Eo2, Eo3', Eo3.
  - exists i2. rewrite Ei4. split_and!; [apply (io_inode _ _ _ _ _ _ _ Hop3) | congruence | congruence].
  - intros j. rewrite <- En, <- Hfs2. by eapply same_file.
  - rewrite (free_ext v2 v4); [done|]. by eapply same_bm.
  - intros c. destruct (Hcr4 c) as (H1 & H2 & H3). split_and!; [done | done |]. destruct H3 as [H3|H3]; [by left|]. right. intros j. rewrite H3. symmetry. by eapply same_file.
Qed.

(** ** The pieces together *)

Lemma splice_nil off g : splice off [] g = g.
Proof. unfold splice. simpl. by rewrite Nat.add_0_r, take_drop. Qed.
Lemma splice_app off l1 l2 g : 0 <= off <= Z.of_nat (length g) → splice (off + Z.of_nat (length l1)) l2 (splice off l1 g) = splice off (l1 ++ l2) g.
Proof.
  intros Ho. unfold splice. assert (Hlt : length (take (Z.to_nat off) g) = Z.to_nat off) by (rewrite length_take; lia).
  replace (Z.to_nat (off + Z.of_nat (length l1))) with (length (take (Z.to_nat off) g ++ l1)) by (rewrite length_app; lia).
  rewrite (app_assoc (take _ _) l1 (drop _ _)), take_app_length, !length_app, Hlt, drop_app_ge by (rewrite length_app; lia).
  rewrite drop_drop, <- !app_assoc. do 4 f_equal. rewrite length_app. lia.
Qed.
Lemma files_write_nil fs inum off j : files_write fs inum off [] j = fs j.
Proof. unfold files_write. case_decide; [|done]. destruct (fs j) as [[]|]; [|done]. simpl. unfold fv_write. simpl. by rewrite splice_nil. Qed.
Lemma files_write_app fs fs' inum off l1 l2 a j :
  fs inum = Some a → 0 <= off <= Z.of_nat (length (fv_bytes a)) → (∀ j, fs' j = files_write fs inum off l1 j) →
  files_write fs' inum (off + Z.of_nat (length l1)) l2 j = files_write fs inum off (l1 ++ l2) j.
Proof.
  intros Ha Ho Hf. unfold files_write at 1. rewrite Hf. unfold files_write. case_decide; [subst j|done]. rewrite Ha. simpl. unfold fv_write. simpl.
  by rewrite splice_app.
Qed.
Lemma splice_length off l g : 0 <= off <= Z.of_nat (length g) → off + Z.of_nat (length l) <= Z.of_nat (length (splice off l g)).
Proof. intros Ho. unfold splice. rewrite !length_app, length_take. lia. Qed.

Lemma nspan_le off k : 0 <= off → k <= write_max → nspan off k <= 4.
Proof. change write_max with 1536. intros. unfold nspan, BSIZE. Z.div_mod_to_equations. lia. Qed.

(** The bytes [l] at the address [a] of the process. *)
Definition user_bytes (d : kdata) (a : Z) (l : list Z) : Prop :=
  0 <= a ∧ a + Z.of_nat (length l) < 2 ^ 32 ∧ ∃ pg, pdirs d !! p = Some pg ∧ vload (mm_mem (d_mm d)) pg a (length l) = Some l.
Lemma vload_drop mem pg a l1 l2 : vload mem pg a (length (l1 ++ l2)) = Some (l1 ++ l2) → vload mem pg (a + Z.of_nat (length l1)) (length l2) = Some l2.
Proof.
  revert a. induction l1 as [|b l1 IH]; intros a; [by rewrite Z.add_0_r|]. cbn [app length vload]. intros H.
  destruct (translate mem pg a false); simpl in H; [|done]. destruct (vload mem pg (a + 1) _) as [l'|] eqn:E; simpl in H; [|done]. injection H as _ ->.
  replace (a + Z.of_nat (S (length l1))) with (a + 1 + Z.of_nat (length l1)) by lia. by apply IH.
Qed.
Lemma vload_take mem pg a l k : vload mem pg a (length l) = Some l → (k <= length l)%nat → vload mem pg a k = Some (take k l).
Proof.
  revert a k. induction l as [|b l IH]; intros a [|k] H Hk; simpl in *; try lia; try done. destruct (translate mem pg a false); simpl in *; [|done].
  destruct (vload mem pg (a + 1) (length l)) as [l'|] eqn:E; simpl in *; [|done]. injection H as -> ->. rewrite (IH _ _ E) by lia. done.
Qed.
Lemma user_src d a l : user_bytes d a l → src_ok p (S_va a) l d.
Proof.
  intros (Ha & Hmax & pg & Hpg & Hv) k m1 d1 tot j Ht Em Ep Htot Hj. cbn [get_src]. rewrite u32_small by (unfold is_u32; lia).
  apply vloadM_done. pose proof (ft_cr3 _ _ _ Ht) as Hc. rewrite (pdirs_quiet d d1 Ep), Hpg in Hc. injection Hc as <-. rewrite Em.
  rewrite <- (take_drop (Z.to_nat tot) l) in Hv. apply vload_drop in Hv. rewrite length_take in Hv.
  replace (a + tot) with (a + Z.of_nat (Z.to_nat tot `min` length l)) by lia. apply vload_take; [done | rewrite length_drop; lia].
Qed.
Lemma user_bytes_split d d' a l1 l2 : d_mm d' = d_mm d → quiet <$> d_procs d' = quiet <$> d_procs d → user_bytes d a (l1 ++ l2) →
  user_bytes d' a l1 ∧ user_bytes d' (a + Z.of_nat (length l1)) l2.
Proof.
  intros E1 E2 (Ha & Hmax & pg & Hpg & Hv). rewrite length_app in Hmax. unfold user_bytes. rewrite (pdirs_quiet d d' E2), E1. split; (split_and!; [lia | lia |]); exists pg; (split; [done|]).
  - rewrite length_app in Hv. rewrite (vload_take _ _ _ (l1 ++ l2) (length l1)); [by rewrite take_app_length | by rewrite length_app | rewrite length_app; lia].
  - by apply vload_drop.
Qed.

(** A crash leaves the first [t] bytes written, in whole pieces. *)
Definition prefix_crash (d : kdata) (v : blocks) (inum off : Z) (l : list Z) (ws : list (Z * list Z)) : Prop :=
  ∀ c, let crash := apply_writes (take c ws) (disk_of d) in
    hdr_ok start nlog (crash start) ∧ fs_inv sb ds (recovered start crash)
    ∧ ∃ t, (t <= length l)%nat ∧ (t = length l ∨ (write_max | Z.of_nat t))
      ∧ ∀ j, file_of sb (recovered start crash) j = files_write (file_of sb v) inum off (take t l) j.

Lemma prefix_nil m d v inum off l : fs_state m d v → prefix_crash d v inum off l [].
Proof.
  intros [[Hok _ _ _ Hh] _ _ Hinv] c. rewrite take_nil. simpl. split; [apply hdr_ok_empty; [by apply (ly_log _ _ _ _ Hly) | done]|]. pose proof Hok as (_ & _ & Hc).
  assert (Hs : ∀ b, is_blk b → ¬ in_log start nlog b → recovered start (disk_of d) b = v b).
  { intros b Hb Hl. rewrite (recovered_empty start nlog (ly_log _ _ _ _ Hly)) by done. apply (co_disk _ _ _ _ _ Hc); [done | set_solver]. }
  split; [by eapply same_inv|]. exists 0%nat. split_and!; [lia | right; by exists 0 |]. intros j. rewrite take_0, files_write_nil. by eapply same_file.
Qed.
Lemma prefix_app d v d1 v1 inum off a l1 l2 ws1 ws2 :
  file_of sb v inum = Some a → 0 <= off <= Z.of_nat (length (fv_bytes a)) →
  (∀ j, file_of sb v1 j = files_write (file_of sb v) inum off l1 j) → wrote ws1 d d1 → crash_ok d v v1 ws1 →
  prefix_crash d1 v1 inum (off + Z.of_nat (length l1)) l2 ws2 → (l2 = [] ∨ (write_max | Z.of_nat (length l1))) →
  prefix_crash d v inum off (l1 ++ l2) (ws1 ++ ws2).
Proof.
  intros Ha Hoff Hfs Hw1 Hc1 Hc2 Hl c. cbv zeta. rewrite length_app. destruct (decide (c <= length ws1)%nat) as [Hle|Hgt].
  - rewrite take_app_le by done. destruct (Hc1 c) as (H1 & H2 & H3). split_and!; [done | done |]. destruct H3 as [H3|H3].
    + exists 0%nat. split_and!; [lia | right; by exists 0 |]. intros j. by rewrite take_0, files_write_nil.
    + exists (length l1). split_and!; [lia | destruct Hl as [->|?]; [left; simpl; lia | by right] |]. intros j. by rewrite take_app_length, H3, Hfs.
  - rewrite take_app_ge by lia. rewrite apply_writes_app. destruct (Hc2 (c - length ws1)%nat) as (H1 & H2 & t & Ht & Hd & H3).
    set (c1 := apply_writes _ (disk_of d1)) in *. set (c2 := apply_writes _ (apply_writes ws1 (disk_of d))).
    assert (Hcc : ∀ b, c2 b = c1 b) by (intros b; apply apply_writes_at; symmetry; apply (wr_disk _ _ _ Hw1)). rewrite Hcc.
    assert (Hr : ∀ b, is_blk b → ¬ in_log start nlog b → recovered start c2 b = recovered start c1 b).
    { apply (recovered_blk start nlog (ly_log _ _ _ _ Hly)); [intros b _; apply Hcc | by rewrite Hcc]. }
    split_and!; [done | by eapply same_inv |]. exists (length l1 + t)%nat. split_and!; [lia | |].
    + destruct Hl as [->|Hl]; [left; simpl in Ht |- *; lia|]. destruct Hd as [->|Hd]; [by left|]. right. rewrite Nat2Z.inj_add. by apply Z.divide_add_r.
    + intros j. rewrite (same_file sb start nlog ds Hly (recovered start c1)) by done. rewrite H3, (files_write_app (file_of sb v) _ _ _ l1 _ a) by done.
      by rewrite take_app_add.
Qed.

Record write_done (d : kdata) (v : blocks) (f : nat) (x : file) (inum : Z) (l : list Z) (m' : mach) (d' : kdata) (v' : blocks) (ws : list (Z * list Z)) : Prop := {
  fd_state : fs_state m' d' v';
  fd_outside : outside d' = (d_mm d, quiet <$> d_procs d, <[f := x <| f_off := f_off x + Z.of_nat (length l) |>]> (d_files d));
  fd_files j : file_of sb v' j = files_write (file_of sb v) inum (f_off x) l j;
  fd_wrote : wrote ws d d';
  fd_crash : prefix_crash d v inum (f_off x) l ws
}.

Definition pieces (k : Z) : Z := (k + write_max - 1) / write_max.

Lemma filewrite_loop_wp fuel : ∀ m d v f ip x i0 a addr i l,
  fs_state m d v → can_write d v f ip x i0 a (Z.of_nat (length l)) → user_bytes d (addr + i) l → 0 <= i →
  5 * pieces (Z.of_nat (length l)) + 2 <= Z.of_nat (length (free_blocks sb v)) → 12 <= nlog → (length l < fuel)%nat →
  wp R (filewrite_loop fuel f addr (i + Z.of_nat (length l)) i n (K m d))
    (λ r s', r = i + Z.of_nat (length l) ∧ ∃ m' d' v' ws, s' = K m' d' ∧ write_done d v f x (i_inum i0) l m' d' v' ws).
Proof.
  induction fuel as [|fuel IH]; intros m d v f ip x i0 a addr i l Hst Hcw Hub Hi Hfree Hnl Hfu; [lia|]. cbn [filewrite_loop].
  destruct (Z.ltb_spec i (i + Z.of_nat (length l))) as [Hlt|Hge]; cbn [negb].
  2:{ destruct l; [|simpl in Hge; lia]. simpl. split; [lia|]. exists m, d, v, []. split; [done|]. pose proof (cw_file _ _ _ _ _ _ _ _ Hcw) as Hf.
      split; [done | | intros j; by rewrite files_write_nil | by apply wrote_nil | by eapply prefix_nil].
      assert (x <| f_off := f_off x + Z.of_nat (length []) |> = x) as -> by (cbn [length]; rewrite Z.add_0_r; by destruct x).
      by rewrite (list_insert_id (d_files d)). }
  set (l1 := take (Z.to_nat write_max) l). set (l2 := drop (Z.to_nat write_max) l). assert (El : l = l1 ++ l2) by (symmetry; apply take_drop).
  assert (Hw1 : write_max = 1536) by done.
  assert (Hl1 : Z.of_nat (length l1) = Z.min write_max (Z.of_nat (length l))) by (unfold l1; rewrite length_take; lia).
  assert (Hl2 : Z.of_nat (length l2) = Z.of_nat (length l) - Z.of_nat (length l1)) by (rewrite El, length_app; lia).
  replace (i + Z.of_nat (length l) - i) with (Z.of_nat (length l)) by lia.
  assert ((if Z.of_nat (length l) >? write_max then write_max else Z.of_nat (length l)) = Z.of_nat (length l1)) as ->.
  { rewrite Hl1, Z.gtb_ltb. destruct (Z.ltb_spec write_max (Z.of_nat (length l))); lia. }
  cbv zeta. rewrite El in Hub. destruct (user_bytes_split d d (addr + i) l1 l2 eq_refl eq_refl Hub) as [Hub1 _].
  assert (Hua : u32 (addr + i) = addr + i) by (destruct Hub as (? & ? & _); apply u32_small; unfold is_u32; lia). rewrite Hua.
  pose proof Hcw as [Hf Hip Hi0 Hr Hfo Hdev Hoff Hmax].
  assert (Hcw1 : can_write d v f ip x i0 a (Z.of_nat (length l1))) by (split; try done; lia).
  assert (Hns : nspan (f_off x) (Z.of_nat (length l1)) <= 4) by (apply nspan_le; lia).
  assert (Hp : 1 <= pieces (Z.of_nat (length l))) by (unfold pieces; rewrite Hw1; Z.div_mod_to_equations; lia).
  apply (chunk_wp m d v f ip x i0 a _ l1 _ _ Hst Hcw1); [lia | by apply user_src | lia | lia |].
  intros m1 d1 v1 ws1 [Hst1 Eo1 (i1 & Hi1 & En1 & Er1) Hfs1 Hfr1 Hwr1 Hcr1].
  rewrite (proj2 (Z.ltb_ge _ 0)), Z.eqb_refl by lia. cbn [negb]. set (x1 := x <| f_off := f_off x + Z.of_nat (length l1) |>) in *.
  assert (Hff : d_files d1 = <[f := x1]> (d_files d)) by (by injection Eo1).
  replace (i + Z.of_nat (length l)) with (i + Z.of_nat (length l1) + Z.of_nat (length l2)) by lia.
  eapply wp_mono; [|apply (IH m1 d1 v1 f ip x1 i1 (fv_write (f_off x) l1 a) addr (i + Z.of_nat (length l1)) l2 Hst1)].
  - intros r s' (-> & m2 & d2 & v2 & ws2 & -> & [Hst2 Eo2 Hfs2 Hw2 Hc2]). split; [done|]. exists m2, d2, v2, (ws1 ++ ws2). split; [done|].
    rewrite En1 in *. change (f_off x1) with (f_off x + Z.of_nat (length l1)) in *. pose proof (λ j, files_write_app _ _ _ _ l1 l2 a j Hfo Hoff Hfs1) as Hfe.
    split; [done | | | by apply (wrote_app ws1 ws2 d d1) |].
    + rewrite Eo2. injection Eo1 as -> -> _. rewrite Hff, list_insert_insert_eq. do 2 f_equal. unfold x1. destruct x; unfold set_field, set_f_off; simpl. f_equal. lia.
    + intros j. by rewrite Hfs2, El, Hfe.
    + rewrite El. eapply prefix_app; try done. destruct (decide (l2 = [])) as [|Hne]; [by left|]. right. exists 1.
      assert (0 < Z.of_nat (length l2)) by (destruct l2; [done | simpl; lia]). lia.
  - split; try done.
    + rewrite Hff. apply list_lookup_insert_eq. by eapply lookup_lt_Some.
    + lia.
    + rewrite En1, Hfs1. unfold files_write. rewrite decide_True by done. by rewrite Hfo.
    + simpl. pose proof (splice_length (f_off x) l1 (fv_bytes a) Hoff). lia.
    + simpl. lia.
  - rewrite Z.add_assoc. injection Eo1 as E1 E2 _. by apply (user_bytes_split d d1 (addr + i) l1 l2).
  - lia.
  - assert (pieces (Z.of_nat (length l2)) <= pieces (Z.of_nat (length l)) - 1); [|lia].
    unfold pieces in *. rewrite Hw1 in *. rewrite Hl2, Hl1. Z.div_mod_to_equations. lia.
  - done.
  - lia.
Qed.
End filewrite.
