(* ===== verification/WriteSpec.v ===== *)
(** * WriteSpec: writing files

    What writei and filewrite do to the files, that they keep the invariant of
    the file system, which mkfs establishes, and what a crash leaves. *)

From S2P Require Import Prelude Memory Kstate Spinlock Kalloc Cprintf Vm Sched SchedFacts Sleeplock Bio BioRing BioFacts Ide IdeFacts Log LogFacts CrashFacts TxFacts Inode Console Fs FsFacts PathFacts Ondisk Mkfs MkfsFacts MkfsImage MkfsTree FsSpec Alloc FileMap BmapFacts WriteMap WriteFacts FsInv MkfsInv Pipe File FileWrite.

(** C18: mkfs establishes the invariant of the file system.  For any files that
    fit, unless the root's directory entries (one per file, "." and "..") fill
    whole blocks, that is unless the number of files plus 2 is a multiple of
    32, the image it leaves has the layout the kernel computes with; the
    inodes in use are 1 to the number of files plus one; the blocks below the
    data area and the blocks of the files are marked in the free map and no
    others; no block belongs to two files or twice to one; every marked data
    block belongs to a file; and every file has all the blocks below its size. *)
Theorem mkfs_inv fuel files :
  fit_files files → ((length files + 2) mod 32 ≠ 0)%nat →
  ∃ img fi fb, mkfs_main files fuel mk_start = Done tt (Mk FSSIZE img fi fb)
    ∧ layout mk_sb 2 LOGSIZE nmeta ∧ fs_inv mk_sb nmeta img
    ∧ (∀ inum, in_use mk_sb img inum ↔ 1 <= inum <= Z.of_nat (S (length files)))
    ∧ Z.of_nat (length (free_blocks mk_sb img)) = FSSIZE - fb.
Proof.
  intros Hff Hmod. destruct (mkfs_image fuel files Hff Hmod) as (img & F & Hrun & Hmk & HF & Hbm & Hty & Hc). do 3 eexists. split; [exact Hrun|]. clear Hrun.
  split_and!; [exact layout_mkfs | by eapply image_inv | | by eapply image_free].
  assert (Hl : length F = S (length files)) by (rewrite <- (length_fmap contents), HF; simpl; by rewrite length_fmap).
  intros inum. rewrite (image_in_use img _ F) by done. split.
  - intros (k & f & -> & Hk%lookup_lt_Some). unfold inum_of. lia.
  - intros Hi. destruct (lookup_lt_is_Some_2 F (Z.to_nat (inum - 1))) as [f Hf]; [lia|]. exists (Z.to_nat (inum - 1)), f. split; [unfold inum_of; lia | done].
Qed.

Section write.
Context {Drv : Disk} {p : nat} {R : wait_reason → kst → kst → Prop} {DL : DiskLaw p R} (n : nat) (Hn : (2 <= n)%nat).
Context (sb : superblock) (start nlog ds : Z) (Hly : layout sb start nlog ds).

Lemma writei_error m d ip i from off k :
  d_inodes d !! ip = Some i → i_type i ≠ T_DEV → 0 <= off < 2 ^ 32 → 0 <= k < 2 ^ 32 →
  i_size i < off ∨ MAXFILE * BSIZE < off + k → writei ip from off k n (K m d) = Done (-1) (K m d).
Proof.
  intros Hi Hty Hoff Hk Hbad. unfold writei. rewrite (get_inode_bind n m d ip i _ Hi), (proj2 (Z.eqb_neq _ _) Hty). rewrite !Z.gtb_ltb.
  destruct (Z.ltb_spec (i_size i) off) as [|Hs]; [done|]. destruct Hbad as [|Hbad]; [lia|]. cbn [orb].
  destruct (decide (off + k < 2 ^ 32)) as [Hlt|Hge].
  - rewrite u32_small by (unfold is_u32; lia). rewrite (proj2 (Z.ltb_ge _ off)), (proj2 (Z.ltb_lt _ (off + k))) by lia. done.
  - rewrite (proj2 (Z.ltb_lt _ off)); [done|]. unfold u32. Z.div_mod_to_equations. lia.
Qed.

(** C17: writei, inside a transaction and with the inode locked, returns -1 and
    changes nothing when the offset is past the end of the file or the end of
    the write is past the largest file, an end that does not fit in 32 bits
    included.  Otherwise, given room in the free map and in the log, it returns
    the number of bytes and has replaced exactly these bytes of this file,
    through direct and indirect blocks that it allocates where there are none;
    every other file is as before, the inode on the disk agrees with the one in
    memory, and the invariant of the file system holds again. *)
Theorem writei_spec d0 ip m d v bs i from off k l :
  in_op sb start nlog d0 ip m d v bs i → fs_inv sb ds v → in_use sb v (i_inum i) → i_type i ≠ T_DEV →
  0 <= off < 2 ^ 32 → 0 <= k < 2 ^ 32 → Z.of_nat (length l) = k → src_ok p from l d →
  nspan off k + 3 <= Z.of_nat (length (free_blocks sb v)) → Z.of_nat (length bs) + nspan off k + 6 < nlog - 1 →
  if decide (i_size i < off ∨ MAXFILE * BSIZE < off + k) then writei ip from off k n (K m d) = Done (-1) (K m d)
  else wp R (writei ip from off k n (K m d)) (λ r s', r = k ∧ ∃ m' d' v' bs' i', s' = K m' d'
    ∧ in_op sb start nlog d0 ip m' d' v' bs' i' ∧ fs_inv sb ds v' ∧ i_inum i' = i_inum i
    ∧ ∀ j, file_of sb v' j = files_write (file_of sb v) (i_inum i) off l j).
Proof.
  intros Hop Hinv Hu Hty Hoff Hk Hl Hsrc Hfree Hroom. case_decide as Hbad.
  - eapply writei_error; try done. apply Hop.
  - eapply wp_mono; [|apply (write_op_wp n Hn sb start nlog ds Hly d0 ip m d v bs i from off k l); try done; lia].
    intros r s' (-> & m' & d' & v' & bs' & i' & -> & H1 & H2 & _ & _ & H3 & H4 & _). split; [done|]. by exists m', d', v', bs', i'.
Qed.

(** C4: filewrite to an open file writes the process's bytes at the file's offset
    and advances the offset, in pieces of at most 1536 bytes, each a transaction
    of its own.  It returns the number of bytes without panicking, the file has
    exactly these bytes replaced, every other file is as before, and the
    invariant holds.  After a crash at any of its block writes, and recovery,
    the invariant holds too, and the files are as if a first part of the bytes
    had been written: all of them, or a whole number of pieces; a write of at
    most 1536 bytes is all or nothing. *)
Theorem filewrite_spec m d v f ip x i0 a addr l :
  12 <= nlog → fs_state sb start nlog ds m d v → can_write sb d v f ip x i0 a (Z.of_nat (length l)) →
  f_writable x ≠ 0 → f_type x = FD_INODE → user_bytes (p := p) d addr l →
  5 * pieces (Z.of_nat (length l)) + 2 <= Z.of_nat (length (free_blocks sb v)) →
  wp R (filewrite f addr (Z.of_nat (length l)) n (K m d)) (λ r s', r = Z.of_nat (length l) ∧
    ∃ m' d' v' ws, s' = K m' d' ∧ write_done sb start nlog ds d v f x (i_inum i0) l m' d' v' ws).
Proof.
  intros Hnl Hst Hcw Hwr Hty Hub Hfree. unfold filewrite, get_file. rewrite bind_getd, (lookup_total_Some _ _ _ (cw_file _ _ _ _ _ _ _ _ _ Hcw)).
  rewrite (proj2 (Z.eqb_neq _ _) Hwr), Hty. apply wp_bind.
  eapply wp_mono; [|apply (filewrite_loop_wp n Hn sb start nlog ds Hly _ m d v f ip x i0 a addr 0 l Hst Hcw); try done; [by rewrite Z.add_0_r | lia]].
  intros r s' (-> & m' & d' & v' & ws & -> & Hd). rewrite Z.add_0_l, Z.eqb_refl. split; [done|]. by exists m', d', v', ws.
Qed.
End write.

(** ** A process with an open file

    mkfs has made the file cat of three bytes, inode 2; process 0 has it open
    at offset 3, and two bytes at address 0 of its memory. *)

Definition mem8 : mem := store_bytes (store32 (store32 (λ _, 0) 0 0x1007) 0x80001000 0x2007) 0x80002000 [104; 105].
Definition log8 : logst := Log 2 LOGSIZE 0 0 ROOTDEV (Logheader 0 (replicate (Z.to_nat LOGSIZE) 0)).
Definition ino8 : inode := inode0 <| i_dev := ROOTDEV |> <| i_inum := 2 |> <| i_ref := 1 |>.
Definition file8 : file := File FD_INODE 1 1 1 0 (Some 0%nat) 3.
Definition d8 (img : blocks) : kdata :=
  dboot img <| d_mm := Mm mem8 0 0 0 |> <| d_log := log8 |> <| d_inodes := ino8 :: replicate (NINODE - 1) inode0 |> <| d_files := [file8] |>.
Definition R8 (w : wait_reason) (s s' : kst) : Prop := False.

Lemma files1_image : ∃ img F bl ind, mk_ok img 61 F ∧ fs_inv mk_sb nmeta img ∧ F !! 1%nat = Some (AFile T_FILE [7; 8; 9] bl ind)
  ∧ Z.of_nat (length (free_blocks mk_sb img)) = FSSIZE - 61.
Proof.
  destruct (mkfs_image 0 files1 fit_files1) as (img & F & _ & Hmk & HF & Hbm & Hty & Hc); [by vm_compute|]. change (nmeta + total (made files1)) with 61 in *.
  assert (H1 : (contents <$> F) !! 1%nat = Some (T_FILE, [7; 8; 9])) by (by rewrite HF). rewrite list_lookup_fmap in H1.
  destruct (F !! 1%nat) as [[t da bl ind]|] eqn:E; [|done]. simpl in H1. unfold contents in H1. simpl in H1. injection H1 as -> ->.
  exists img, F, bl, ind. split_and!; [done | by eapply image_inv | exact E | by eapply image_free].
Qed.

Section boot8.
Context (img : blocks) (F : list afile) (Hmk : mk_ok img 61 F) (Hinv : fs_inv mk_sb nmeta img).
Context (bl : list Z) (ind : Z) (HF : F !! 1%nat = Some (AFile T_FILE [7; 8; 9] bl ind)).

Lemma img8_length b : is_blk b → length (img b) = Z.to_nat BSIZE.
Proof. apply (do_sec _ _ _ (mo_disk _ _ _ Hmk)). Qed.
Lemma slot8 k i : d_inodes (d8 img) !! k = Some i → k = 0%nat ∧ i = ino8 ∨ i_ref i = 0.
Proof. destruct k as [|k]; [intros [= <-]; by left|]. intros Hk. right. by apply lookup_replicate in Hk as [-> _]. Qed.
Lemma state8 : @fs_state memide.disk 0 R8 (memide_law 0 R8) mk_sb 2 LOGSIZE nmeta mfs (d8 img) img.
Proof.
  pose proof img8_length as Hl. assert (Hok : @fs_ok memide.disk 0 R8 (memide_law 0 R8) mfs (d8 img) img ∅ ∅ ∅).
  { eapply fs_ok_other; [..|apply (fs_ok_dboot R8 img Hl)]; done. }
  split; [split|..]; try done.
  - pose proof Hok as (_ & _ & Hc). rewrite (co_disk _ _ _ _ _ Hc) by (done || set_solver). rewrite (do_low _ _ _ (mo_disk _ _ _ Hmk)) by done. done.
  - destruct (icache_dboot img Hl) as [_ _ _ _ Hsl]. split; [done | done | | | exact Hsl].
    + intros k i [[-> ->]|H0]%slot8; [done|]. rewrite H0. lia.
    + intros k1 k2 i1 i2 [[-> ->]|H1]%slot8 [[-> ->]|H2]%slot8 Hr1 Hr2; [done | lia..].
  - intros k i [[-> ->]|H0]%slot8 Hr; [done | lia].
Qed.
Lemma file8_of : ∃ ma mi, file_of mk_sb img 2 = Some (FView T_FILE ma mi 1 [7; 8; 9]).
Proof.
  pose proof (view_type _ _ _ Hmk 1 _ HF (or_intror eq_refl)) as Et. pose proof (view_nlink _ _ _ Hmk 1 _ HF) as En. pose proof (view_size _ _ _ Hmk 1 _ HF) as Es.
  pose proof (view_bytes _ _ _ Hmk 1 _ HF 0 3 (le_n 3)) as Eb. change (inum_of 1) with 2 in *. simpl a_type in Et. simpl a_data in Es, Eb.
  unfold file_of. rewrite decide_True; [|split; [done | by rewrite Et]]. cbv zeta. rewrite Et, En, Es. change (Z.of_nat (length [7; 8; 9])) with (Z.of_nat 3).
  rewrite (Eb : fbytes _ _ 0 _ = _). by do 2 eexists.
Qed.
Lemma can_write8 k ma mi : file_of mk_sb img 2 = Some (FView T_FILE ma mi 1 [7; 8; 9]) → 0 <= k <= 1000 →
  can_write mk_sb (d8 img) img 0 0 file8 ino8 (FView T_FILE ma mi 1 [7; 8; 9]) k.
Proof. intros Hf Hk. split; try done. change (MAXFILE * BSIZE) with 71680. simpl. lia. Qed.
End boot8.

Lemma filewrite_spec_witness :
  ∃ img, wp R8 (@filewrite memide.disk 0%nat 0 2 2%nat (K mfs (d8 img)))
    (λ r s', r = 2 ∧ ∃ v' ma mi, @fs_state memide.disk 0 R8 (memide_law 0 R8) mk_sb 2 LOGSIZE nmeta (km s') (kd s') v'
      ∧ file_of mk_sb v' 2 = Some (FView T_FILE ma mi 1 [7; 8; 9; 104; 105])).
Proof.
  destruct files1_image as (img & F & bl & ind & Hmk & Hinv & HF & Hfr). exists img. destruct (file8_of img F Hmk _ _ HF) as (ma & mi & Hfo).
  eapply wp_mono; [|apply (@filewrite_spec memide.disk 0 R8 (memide_law 0 R8) 2 (le_n 2) mk_sb 2 LOGSIZE nmeta layout_mkfs mfs (d8 img) img 0 0 file8 ino8 _ 0 [104; 105]
    ltac:(done) (state8 img F Hmk Hinv) (can_write8 img 2 ma mi Hfo ltac:(lia)) ltac:(done) eq_refl)].
  - intros r s' (-> & m' & d' & v' & ws & -> & [Hst _ Hfs _ _]). split; [done|]. exists v', ma, mi. split; [done|]. by rewrite Hfs; unfold files_write; rewrite decide_True, Hfo.
  - split_and!; [done | done |]. exists 0. split; [|by vm_compute]. destruct (dfs_ok img (img8_length img F Hmk)) as (_ & Hf & _).
    change (pdirs (d8 img)) with (pdirs (dfs img)). by rewrite (fs_frame_pdirs _ _ Hf).
  - rewrite Hfr. done.
Defined.

Lemma writei_spec_witness :
  ∃ img, wp R8 ((begin_op ;; @ilock memide.disk (Some 0%nat) ;; @writei memide.disk 0%nat (S_local [104; 105]) 3 2) 2%nat (K mfs (d8 img)))
    (λ r s', r = 2 ∧ ∃ v' ma mi, fs_inv mk_sb nmeta v' ∧ file_of mk_sb v' 2 = Some (FView T_FILE ma mi 1 [7; 8; 9; 104; 105])).
Proof.
  destruct files1_image as (img & F & bl & ind & Hmk & Hinv & HF & Hfr). exists img. destruct (file8_of img F Hmk _ _ HF) as (ma & mi & Hfo).
  pose proof (state8 img F Hmk Hinv) as Hst. destruct (file_of_Some mk_sb img 2 _ Hfo) as (Hu & Hty & Hby). pose proof (file_size _ _ img 2 _ Hinv Hfo) as Hsz.
  destruct (@begin_op_done memide.disk 0 R8 (memide_law 0 R8) 2 (le_n 2) 2 LOGSIZE (ly_log _ _ _ _ layout_mkfs) mfs (d8 img) img (st_idle _ _ _ _ _ _ _ Hst)) as [Hrun _].
  rewrite (bind_done _ _ _ _ _ _ Hrun). apply wp_bind.
  eapply wp_mono; [|apply (@enter_wp memide.disk 0 R8 (memide_law 0 R8) 2 (le_n 2) mk_sb 2 LOGSIZE nmeta layout_mkfs mfs (d8 img) img 0 ino8 Hst eq_refl ltac:(done) Hu)].
  intros [] s1 (m1 & d1 & i & -> & Hop & En & Er & _). change (i_inum ino8) with 2 in En.
  pose proof (dino_fields mk_sb img _ i (io_stored _ _ _ _ _ _ _ _ _ _ Hop)) as Ef. rewrite En in Ef. rewrite Ef in Hty, Hsz.
  assert (Hnd : i_type i ≠ T_DEV) by (rewrite <- (Hty : _ = i_type i); discriminate).
  pose proof (@writei_spec memide.disk 0 R8 (memide_law 0 R8) 2 (le_n 2) mk_sb 2 LOGSIZE nmeta layout_mkfs (d8 img) 0 m1 d1 img [] i (S_local [104; 105]) 3 2 [104; 105]
    Hop Hinv ltac:(rewrite En; exact Hu) Hnd ltac:(lia) ltac:(lia) eq_refl (src_ok_local 0 _ d1) ltac:(rewrite Hfr; vm_compute; discriminate) eq_refl) as Hsp.
  rewrite decide_False in Hsp by (rewrite <- (Hsz : _ = i_size i); change (MAXFILE * BSIZE) with 71680; simpl; lia).
  eapply wp_mono; [|exact Hsp]. intros r s' (-> & m' & d' & v' & bs' & i' & -> & _ & Hinv' & _ & Hfs). split; [done|]. exists v', ma, mi. split; [done|].
  rewrite Hfs, En. unfold files_write. by rewrite decide_True, Hfo.
Defined.

Lemma mkfs_inv_witness : ∃ img, fs_inv mk_sb nmeta img ∧ in_use mk_sb img 2.
Proof.
  destruct (mkfs_inv 0 files1 fit_files1 ltac:(by vm_compute)) as (img & fi & fb & Hrun & _ & Hinv & Hu & _). clear Hrun. exists img. split; [exact Hinv|].
  apply Hu. simpl. lia.
Defined.
