(* ===== verification/Proc.v ===== *)
(** * Proc: the part of proc.c that uses files: userinit, fork, exit, forkret *)

From S2P Require Import Prelude Memory Kstate Spinlock Kalloc Cprintf Vm Sched Sleeplock Bio Log Inode.
From S2P Require Import Console Fs Pipe File.

(** safestrcpy into the array [s], from index [i] on, with room for [k]
    more characters before the NUL; the source ends at its NUL. *)
Fixpoint safestrcpy_l (k i : nat) (s t : list Z) : list Z :=
  match k with
  | O => <[i := 0]> s
  | S k' =>
    let c := default 0 (head t) in
    let s := <[i := c]> s in
    if c =? 0 then <[S i := 0]> s else safestrcpy_l k' (S i) s (tail t)
  end.
(** [safestrcpy(p->name, t, sizeof(p->name))] *)
Definition set_name (t : list Z) (p : proc) : proc :=
  p <| p_name := safestrcpy_l 15 0 (p_name p) t |>.

(** [p->tf->f = v] *)
Definition store_tf (p : nat) (f v : Z) : KM unit :=
  x ← get_proc p; store32M (p_tf x + f) v.
Definition load_tf (p : nat) (f : Z) : KM Z :=
  x ← get_proc p; load32M (p_tf x + f).
(** The segment registers are 16 bits wide. *)
Definition store_tf16 (p : nat) (f v : Z) : KM unit :=
  x ← get_proc p; mod_mem (λ m, store16 m (p_tf x + f) v).

Section proc.
Context `{Disk}.

Definition userinit : KM unit :=
  o ← allocproc;
  modd (λ d, d <| d_initproc := o |>) ;;
  p ← from_opt "userinit: null proc" o;
  pgdir ← setupkvm;
  mod_proc p (λ x, x <| p_pgdir := pgdir |>) ;;
  if pgdir =? 0 then panic "userinit: out of memory?" else
  im ← getd d_im;
  inituvm pgdir (im_initcode im) ;;
  mod_proc p (λ x, x <| p_sz := PGSIZE |>) ;;
  x ← get_proc p;
  mod_mem (λ m, memset m (p_tf x) 0 sizeof_trapframe) ;;
  store_tf16 p tf_cs (Z.lor (Z.shiftl SEG_UCODE 3) DPL_USER) ;;
  let ds := Z.lor (Z.shiftl SEG_UDATA 3) DPL_USER in
  store_tf16 p tf_ds ds ;;
  store_tf16 p tf_es ds ;;
  store_tf16 p tf_ss ds ;;
  store_tf p tf_eflags FL_IF ;;
  store_tf p tf_esp PGSIZE ;;
  store_tf p tf_eip 0 ;;
  mod_proc p (set_name (str "initcode")) ;;
  cwd ← namei (str "/");
  mod_proc p (λ x, x <| p_cwd := cwd |>) ;;
  acquire L_ptable ;;
  mod_proc p (λ x, x <| p_state := RUNNABLE |>) ;;
  release L_ptable.

Definition fork : KM Z :=
  cur ← curproc;
  o ← allocproc;
  match o with
  | None => mret (-1)
  | Some np =>
    c ← get_proc cur;
    pgdir ← copyuvm (p_pgdir c) (p_sz c);
    mod_proc np (λ x, x <| p_pgdir := pgdir |>) ;;
    if pgdir =? 0 then
      x ← get_proc np;
      kfree (p_kstack x) ;;
      mod_proc np (λ x, x <| p_kstack := 0 |>) ;;
      mod_proc np (λ x, x <| p_state := UNUSED |>) ;;
      mret (-1)
    else
    c ← get_proc cur;
    mod_proc np (λ x, x <| p_sz := p_sz c |>) ;;
    mod_proc np (λ x, x <| p_parent := Some cur |>) ;;
    x ← get_proc np;
    mod_mem (λ m, memmove m (p_tf x) (p_tf c) sizeof_trapframe) ;;
    store_tf np tf_eax 0 ;;
    forM (seq 0 NOFILE) (λ i,
      c ← get_proc cur;
      match p_ofile c !!! i with
      | None => mret tt
      | Some f => f ← filedup f; mod_proc np (λ x, x <| p_ofile := <[i := Some f]> (p_ofile x) |>)
      end) ;;
    c ← get_proc cur;
    cwd ← from_opt "fork: null cwd" (p_cwd c);
    cwd ← idup cwd;
    mod_proc np (λ x, x <| p_cwd := Some cwd |>) ;;
    c ← get_proc cur;
    mod_proc np (set_name (p_name c)) ;;
    x ← get_proc np;
    let pid := p_pid x in
    acquire L_ptable ;;
    mod_proc np (λ x, x <| p_state := RUNNABLE |>) ;;
    release L_ptable ;;
    mret (s32 pid)
  end.

(** Pass the children of [cur] to init. *)
Definition reparent (cur : nat) : KM unit :=
  forM procs (λ i,
    p ← get_proc i;
    when (bool_decide (p_parent p = Some cur)) (
      ini ← getd d_initproc;
      mod_proc i (λ x, x <| p_parent := ini |>) ;;
      p ← get_proc i;
      when (bool_decide (p_state p = ZOMBIE)) (wakeup1 (Ch_proc <$> ini)))).

Definition exit : KM unit :=
  cur ← curproc;
  ini ← getd d_initproc;
  if bool_decide (Some cur = ini) then panic "init exiting" else
  forM (seq 0 NOFILE) (λ fd,
    c ← get_proc cur;
    match p_ofile c !!! fd with
    | None => mret tt
    | Some f => fileclose f ;; mod_proc cur (λ x, x <| p_ofile := <[fd := None]> (p_ofile x) |>)
    end) ;;
  begin_op ;;
  c ← get_proc cur;
  cwd ← from_opt "exit: null cwd" (p_cwd c);
  iput cwd ;;
  end_op ;;
  mod_proc cur (λ x, x <| p_cwd := None |>) ;;
  acquire L_ptable ;;
  c ← get_proc cur;
  wakeup1 (Ch_proc <$> p_parent c) ;;
  reparent cur ;;
  mod_proc cur (λ x, x <| p_state := ZOMBIE |>) ;;
  mod_proc cur (λ x, x <| p_sz := 0 |>) ;;
  sched ;;
  panic "zombie exit".

Definition forkret : KM unit :=
  release L_ptable ;;
  first ← getd d_first;
  when (ctrue first) (
    modd (λ d, d <| d_first := 0 |>) ;;
    iinit ROOTDEV ;;
    initlog ROOTDEV).
End proc.
