(* ===== verification/Rtc.v ===== *)
(** * Rtc: the real-time clock of lapic.c (cmostime)

    The clock is a function of the number of reads made so far, so that it may
    tick between any two of them. *)

From S2P Require Import Prelude Memory Kstate.

Definition CMOS_STATA : Z := 0x0a.
Definition CMOS_STATB : Z := 0x0b.
Definition CMOS_UIP : Z := Z.shiftl 1 7.
Definition SECS : Z := 0x00.
Definition MINS : Z := 0x02.
Definition HOURS : Z := 0x04.
Definition DAY : Z := 0x07.
Definition MONTH : Z := 0x08.
Definition YEAR : Z := 0x09.

(** struct rtcdate *)
Record rtcdate := Rtcdate { second : Z; minute : Z; hour : Z; day : Z; month : Z; year : Z }.
#[export] Instance rtcdate_eq_dec : EqDecision rtcdate.
Proof. solve_decision. Defined.
Definition rtc_map (f : Z → Z) (r : rtcdate) : rtcdate :=
  Rtcdate (f (second r)) (f (minute r)) (f (hour r)) (f (day r)) (f (month r)) (f (year r)).
(** Its bytes, in the order of the fields. *)
Definition rtc_bytes (r : rtcdate) : list Z :=
  bytes_of (second r) ++ bytes_of (minute r) ++ bytes_of (hour r)
  ++ bytes_of (day r) ++ bytes_of (month r) ++ bytes_of (year r).

Definition cmos_read (reg : Z) : KM Z :=
  c ← getd d_cmos;
  modd (λ d, d <| d_cmos := d_cmos d <| cm_now := cm_now (d_cmos d) + 1 |> |>) ;;
  mret (u8 (cm_reg c (cm_now c) reg)).

Definition fill_rtcdate : KM rtcdate :=
  s ← cmos_read SECS; mi ← cmos_read MINS; h ← cmos_read HOURS;
  d ← cmos_read DAY; mo ← cmos_read MONTH; y ← cmos_read YEAR;
  mret (Rtcdate s mi h d mo y).

(** [for(;;)]: until no update is in progress and two readings agree. *)
Fixpoint rtc_loop (fuel : nat) : KM rtcdate :=
  match fuel with
  | O => out_of_fuel
  | S fuel' =>
    t1 ← fill_rtcdate;
    a ← cmos_read CMOS_STATA;
    if ctrue (Z.land a CMOS_UIP) then rtc_loop fuel' else
    t2 ← fill_rtcdate;
    if bool_decide (t1 = t2) then mret t1 else rtc_loop fuel'
  end.

Definition CONV (x : Z) : Z := Z.shiftr x 4 * 10 + Z.land x 0xf.
Definition cmostime : KM rtcdate :=
  sb ← cmos_read CMOS_STATB;
  let bcd := Z.land sb (Z.shiftl 1 2) =? 0 in
  t1 ← with_fuel rtc_loop;
  let t1 := if bcd then rtc_map CONV t1 else t1 in
  mret (Rtcdate (second t1) (minute t1) (hour t1) (day t1) (month t1) (year t1 +u 2000)).
