(* ===== verification/Syscall.v ===== *)
(** * Syscall: the arguments of system calls (syscall.c) and sysproc.c

    A system call's arguments are on the user stack, at the %esp saved in the
    trap frame.  A function that stores a result through a pointer and
    returns 0, or returns -1, is one that returns an option. *)

From S2P Require Import Prelude Memory Kstate Spinlock Kalloc Cprintf Vm Sched Sleeplock Bio Log Inode.
From S2P Require Import Console Fs Pipe File Proc Rtc.

(** ** syscall.c: fetching arguments *)

Definition fetchint (addr : Z) : KM (option Z) :=
  i ← curproc; p ← get_proc i;
  if (addr >=? p_sz p) || (addr +u 4 >? p_sz p) then mret None else
  v ← vload32M addr;
  mret (Some (s32 v)).

(** The bytes of the string, which ends before [ep]. *)
Fixpoint fetchstr_loop (k : nat) (s : Z) : KM (option (list Z)) :=
  match k with
  | O => mret None
  | S k' =>
    l ← vloadM s 1;
    let c := default 0 (head l) in
    if c =? 0 then mret (Some []) else
    r ← fetchstr_loop k' (s + 1);
    mret (cons c <$> r)
  end.
Definition fetchstr (addr : Z) : KM (option (list Z)) :=
  i ← curproc; p ← get_proc i;
  if addr >=? p_sz p then mret None else
  let ep := p_sz p in
  fetchstr_loop (Z.to_nat (ep - addr)) addr.

Definition argint (n : Z) : KM (option Z) :=
  i ← curproc; esp ← load_tf i tf_esp;
  fetchint (u32 (esp + 4 + 4 * n)).

(** The address as a [uint]. *)
Definition argptr (n size : Z) : KM (option Z) :=
  i ← curproc; p ← get_proc i;
  o ← argint n;
  match o with
  | None => mret None
  | Some i =>
    if (size <? 0) || (u32 i >=? p_sz p) || (u32 i +u size >? p_sz p) then mret None
    else mret (Some (u32 i))
  end.

Definition argstr (n : Z) : KM (option (list Z)) :=
  o ← argint n;
  match o with
  | None => mret None
  | Some addr => fetchstr (u32 addr)
  end.

(** ** sysproc.c *)

(** [if(arg < 0) return -1;] and go on with the argument. *)
Definition need {A} (err : Z) (arg : KM (option A)) (k : A → KM Z) : KM Z :=
  o ← arg;
  match o with None => mret err | Some a => k a end.

Definition sys_wait : KM Z := wait.
Definition sys_kill : KM Z := need (-1) (argint 0) kill.
Definition sys_getpid : KM Z := i ← curproc; p ← get_proc i; mret (s32 (p_pid p)).
Definition sys_sbrk : KM Z :=
  need (-1) (argint 0) (λ n,
    i ← curproc; p ← get_proc i;
    let addr := s32 (p_sz p) in
    r ← growproc n;
    if r <? 0 then mret (-1) else mret addr).

(** [while(ticks - ticks0 < n)]: the difference is unsigned, and so is n. *)
Fixpoint sys_sleep_loop (fuel : nat) (ticks0 n : Z) : KM Z :=
  match fuel with
  | O => out_of_fuel
  | S fuel' =>
    ticks ← getd d_ticks;
    if negb (ticks -u ticks0 <? u32 n) then mret 0 else
    i ← curproc; p ← get_proc i;
    if ctrue (p_killed p) then mret (-1) else
    sleep Ch_ticks None ;;
    sys_sleep_loop fuel' ticks0 n
  end.
Definition sys_sleep : KM Z :=
  need (-1) (argint 0) (λ n,
    ticks0 ← getd d_ticks;
    with_fuel (λ fuel, sys_sleep_loop fuel ticks0 n)).
Definition sys_uptime : KM Z := t ← getd d_ticks; mret (s32 t).
Definition sys_halt : KM Z := do_shutdown ;; mret 0.

Definition sys_cps : KM Z := cps.
Definition sys_getppid : KM Z := getppid.
Definition sys_getsz : KM Z := getsz.
Definition sys_chpr : KM Z :=
  need (-1) (argint 0) (λ pid, need (-1) (argint 1) (λ priority, chpr pid priority)).
Definition sys_getcount : KM Z := need (-1) (argint 0) getcount.
Definition sys_time : KM Z :=
  need 12 (argptr 0 4) (λ waitt, need 13 (argptr 1 4) (λ burstt, time waitt burstt)).
(** sizeof(r) is the size of the pointer. *)
Definition utctime (r : Z) : KM Z :=
  t ← cmostime;
  vstoreM r (rtc_bytes t) ;;
  mret 0.
Definition sys_utctime : KM Z := need (-1) (argptr 0 4) utctime.

Section sysproc.
Context `{Disk}.
Definition sys_fork : KM Z := fork.
Definition sys_exit : KM Z := exit ;; mret 0.
End sysproc.
