(* ===== verification/Exec.v ===== *)
(** * Exec: exec.c, and loaduvm of vm.c *)

From S2P Require Import Prelude Memory Kstate Spinlock Kalloc Cprintf Vm Sched Sleeplock Bio Log Inode.
From S2P Require Import Console Fs Pipe File Proc.

Definition ELF_MAGIC : Z := 0x464C457F.
Definition ELF_PROG_LOAD : Z := 1.
Definition sizeof_elfhdr : Z := 52.
Definition sizeof_proghdr : Z := 32.
Definition elf_magic (l : list Z) : Z := ld32 l 0.
Definition elf_entry (l : list Z) : Z := ld32 l 24.
Definition elf_phoff (l : list Z) : Z := ld32 l 28.
Definition elf_phnum (l : list Z) : Z := ld16 l 44.
Definition ph_type (l : list Z) : Z := ld32 l 0.
Definition ph_off (l : list Z) : Z := ld32 l 4.
Definition ph_vaddr (l : list Z) : Z := ld32 l 8.
Definition ph_filesz (l : list Z) : Z := ld32 l 16.
Definition ph_memsz (l : list Z) : Z := ld32 l 20.

(** The part of the path after its last slash. *)
Fixpoint last_elem (s last : list Z) : list Z :=
  match s with
  | [] => last
  | c :: s' => last_elem s' (if c =? slash then s' else last)
  end.

Section exec.
Context `{Disk}.

Fixpoint loaduvm_loop (fuel : nat) (pgdir addr : Z) (ip : nat) (offset sz i : Z) : KM Z :=
  match fuel with
  | O => out_of_fuel
  | S fuel' =>
    if negb (i <? sz) then mret 0 else
    pte ← walkpgdir pgdir (addr +u i) false;
    if pte =? 0 then panic "loaduvm: address should exist" else
    v ← load32M pte;
    let pa := PTE_ADDR v in
    let n := if sz -u i <? PGSIZE then sz -u i else PGSIZE in
    r ← readi ip (D_va (P2V pa)) (offset +u i) n;
    if negb (u32 r.1 =? n) then mret (-1) else
    loaduvm_loop fuel' pgdir addr ip offset sz (i +u PGSIZE)
  end.
Definition loaduvm (pgdir addr : Z) (ip : nat) (offset sz : Z) : KM Z :=
  if negb (addr mod PGSIZE =? 0) then panic "loaduvm: addr must be page aligned" else
  loaduvm_loop (S (Z.to_nat (sz / PGSIZE) + 1)) pgdir addr ip offset sz 0.

(** [bad]: free the new page table, drop the inode. *)
Definition exec_bad (pgdir : Z) (ip : option nat) : KM Z :=
  when (negb (pgdir =? 0)) (freevm pgdir) ;;
  match ip with Some ip => iunlockput ip ;; end_op | None => mret tt end ;;
  mret (-1).

(** The loop over the program headers still to load; [None]: [goto bad]. *)
Fixpoint exec_load (k : nat) (pgdir : Z) (ip : nat) (off sz : Z) : KM (option Z) :=
  match k with
  | O => mret (Some sz)
  | S k' =>
    r ← readi ip D_local (u32 off) sizeof_proghdr;
    if negb (r.1 =? sizeof_proghdr) then mret None else
    let ph := r.2 in
    if negb (ph_type ph =? ELF_PROG_LOAD) then exec_load k' pgdir ip (off + sizeof_proghdr) sz else
    if ph_memsz ph <? ph_filesz ph then mret None else
    if ph_vaddr ph +u ph_memsz ph <? ph_vaddr ph then mret None else
    sz ← allocuvm pgdir sz (ph_vaddr ph +u ph_memsz ph);
    if sz =? 0 then mret None else
    if negb (ph_vaddr ph mod PGSIZE =? 0) then mret None else
    r ← loaduvm pgdir (ph_vaddr ph) ip (ph_off ph) (ph_filesz ph);
    if r <? 0 then mret None else
    exec_load k' pgdir ip (off + sizeof_proghdr) sz
  end.

(** Push the strings; the result is the stack pointer and ustack[3..3+argc). *)
Fixpoint push_args (argv : list (list Z)) (argc pgdir sp : Z) (ustack : list Z) : KM (option (Z * list Z)) :=
  match argv with
  | [] => mret (Some (sp, ustack))
  | s :: argv' =>
    if argc >=? MAXARG then mret None else
    let len := Z.of_nat (length s) in
    let sp := Z.land (sp -u (len + 1)) (u32 (Z.lnot 3)) in
    r ← copyout pgdir sp (s ++ [0]);
    if r <? 0 then mret None else
    push_args argv' (argc + 1) pgdir sp (ustack ++ [sp])
  end.

Definition exec (path : list Z) (argv : list (list Z)) : KM Z :=
  cur ← curproc;
  begin_op ;;
  o ← namei path;
  match o with
  | None => end_op ;; mret (-1)
  | Some ip =>
    ilock (Some ip) ;;
    r ← readi ip D_local 0 sizeof_elfhdr;
    let elf := r.2 in
    if negb (r.1 =? sizeof_elfhdr) then exec_bad 0 (Some ip) else
    if negb (elf_magic elf =? ELF_MAGIC) then exec_bad 0 (Some ip) else
    pgdir ← setupkvm;
    if pgdir =? 0 then exec_bad 0 (Some ip) else
    r ← exec_load (Z.to_nat (elf_phnum elf)) pgdir ip (s32 (elf_phoff elf)) 0;
    match r with
    | None => exec_bad pgdir (Some ip)
    | Some sz =>
      iunlockput ip ;;
      end_op ;;
      let sz := PGROUNDUP sz in
      sz ← allocuvm pgdir sz (sz +u 2 * PGSIZE);
      if sz =? 0 then exec_bad pgdir None else
      clearpteu pgdir (sz -u 2 * PGSIZE) ;;
      r ← push_args argv 0 pgdir sz [];
      match r with
      | None => exec_bad pgdir None
      | Some (sp, sps) =>
        let argc := Z.of_nat (length argv) in
        let ustack := [0xffffffff; argc; sp -u (argc + 1) * 4] ++ sps ++ [0] in
        let sp := sp -u (3 + argc + 1) * 4 in
        r ← copyout pgdir sp (concat (bytes_of <$> ustack));
        if r <? 0 then exec_bad pgdir None else
        mod_proc cur (set_name (last_elem path path)) ;;
        c ← get_proc cur;
        let oldpgdir := p_pgdir c in
        mod_proc cur (λ x, x <| p_pgdir := pgdir |>) ;;
        mod_proc cur (λ x, x <| p_sz := sz |>) ;;
        store_tf cur tf_eip (elf_entry elf) ;;
        store_tf cur tf_esp sp ;;
        switchuvm (Some cur) ;;
        freevm oldpgdir ;;
        mret 0
      end
    end
  end.
End exec.
