(* ===== verification/Bootmain.v ===== *)
(** * Bootmain: bootmain.c, the boot loader

    The loader works on physical memory and on the ports of the disk's
    controller.  It reads the first page of the kernel's ELF file, which starts
    at sector 1, and then each program segment to its physical address. *)

From S2P Require Import Prelude Memory Kstate Spinlock Kalloc Cprintf Vm Sched Sleeplock Bio Io Ide IdePorts.
From S2P Require Import Log Inode Console Fs Pipe File Proc Exec.

Definition SECTSIZE : Z := 512.
Abbreviation LM := (HM Empty_set mem).

Section loader.
Context `{Devices}.

(** [while((inb(0x1F7) & 0xC0) != 0x40);] *)
Fixpoint waitdisk_loop (fuel : nat) : LM unit :=
  match fuel with
  | O => out_of_fuel
  | S fuel' =>
    r ← inb 0x1F7;
    if negb (Z.land r 0xC0 =? 0x40) then waitdisk_loop fuel' else mret tt
  end.
Definition waitdisk : LM unit := with_fuel waitdisk_loop.

Definition mod_phys (f : mem → mem) : LM unit := modify (λ x, Io.H (f (h_s x)) (h_io x)).

Definition readsect (dst offset : Z) : LM unit :=
  waitdisk ;;
  outb 0x1F2 1 ;;
  outb 0x1F3 offset ;;
  outb 0x1F4 (Z.shiftr offset 8) ;;
  outb 0x1F5 (Z.shiftr offset 16) ;;
  outb 0x1F6 (Z.lor (Z.shiftr offset 24) 0xE0) ;;
  outb 0x1F7 0x20 ;;
  waitdisk ;;
  l ← insl 0x1F0 (Z.to_nat (SECTSIZE / 4));
  mod_phys (λ m, store_bytes m dst l).

Fixpoint readseg_loop (fuel : nat) (pa epa offset : Z) : LM unit :=
  match fuel with
  | O => out_of_fuel
  | S fuel' =>
    if negb (pa <? epa) then mret tt else
    readsect pa offset ;;
    readseg_loop fuel' (pa +u SECTSIZE) epa (offset +u 1)
  end.
Definition readseg (pa count offset : Z) : LM unit :=
  let epa := pa +u count in
  let pa := pa -u offset mod SECTSIZE in
  let offset := offset / SECTSIZE +u 1 in
  readseg_loop (S (Z.to_nat ((count + SECTSIZE) / SECTSIZE) + 1)) pa epa offset.

(** struct elfhdr and struct proghdr, at an address *)
Definition hdr_magic (m : mem) (elf : Z) : Z := load32 m elf.
Definition hdr_entry (m : mem) (elf : Z) : Z := load32 m (elf + 24).
Definition hdr_phoff (m : mem) (elf : Z) : Z := load32 m (elf + 28).
Definition hdr_phnum (m : mem) (elf : Z) : Z := load16 m (elf + 44).
Record segment := Segment { sg_off : Z; sg_paddr : Z; sg_filesz : Z; sg_memsz : Z }.
Definition proghdr_at (m : mem) (ph : Z) : segment :=
  Segment (load32 m (ph + 4)) (load32 m (ph + 12)) (load32 m (ph + 16)) (load32 m (ph + 20)).

(** The body of the loop over the headers; the header is read again for every use. *)
Definition load_one (ph : Z) : LM unit :=
  m ← gets h_s;
  let s := proghdr_at m ph in
  let pa := sg_paddr s in
  readseg pa (sg_filesz s) (sg_off s) ;;
  m ← gets h_s;
  let s := proghdr_at m ph in
  when (sg_memsz s >? sg_filesz s)
    (mod_phys (λ m, stosb (Z.to_nat (sg_memsz s - sg_filesz s)) m (pa +u sg_filesz s) 0)).
(** [for(; ph < eph; ph++)] *)
Fixpoint load_segments (fuel : nat) (ph eph : Z) : LM unit :=
  match fuel with
  | O => out_of_fuel
  | S fuel' =>
    if negb (ph <? eph) then mret tt else
    load_one ph ;;
    load_segments fuel' (ph +u sizeof_proghdr) eph
  end.

(** The result is the kernel's entry point, to which bootmain jumps; [None] when
    it returns to bootasm.S. *)
Definition bootmain : LM (option Z) :=
  let elf := 0x10000 in
  readseg elf 4096 0 ;;
  m ← gets h_s;
  if negb (hdr_magic m elf =? ELF_MAGIC) then mret None else
  let ph := elf +u hdr_phoff m elf in
  let eph := ph +u sizeof_proghdr * hdr_phnum m elf in
  load_segments (S (Z.to_nat (hdr_phnum m elf))) ph eph ;;
  m ← gets h_s;
  mret (Some (hdr_entry m elf)).
End loader.

(** ** Reading *)

Section facts.
Context `{Devices} (disk0 : Z → Z → list Z) (busy : nat) `{!Ata disk0 busy}.
(** Sectors are 512 bytes. *)
Context (Hsect : ∀ k, length (disk0 0 k) = 512%nat) (Hbyte : ∀ k, Forall (λ x, 0 <= x < 256) (disk0 0 k)).

(** Byte [k] of the kernel's file. *)
Definition img (k : Z) : Z := disk0 0 (k / SECTSIZE + 1) !!! Z.to_nat (k mod SECTSIZE).
(** Nothing has been written to the disk. *)
Definition unwritten (h : list access) : Prop := at_disk (ata_of disk0 h) = disk0.

Lemma waitdisk_loop_done n m k : ∀ h,
  (busy - polls h < k)%nat →
  ∃ h', waitdisk_loop k n (Io.H m h) = Done tt (Io.H m h') ∧ ata_of disk0 h' = ata_of disk0 h.
Proof.
  induction k as [|k IH]; intros h Hk; [lia|]. cbn [waitdisk_loop].
  rewrite (bind_done _ _ _ _ _ _ (inb_done n m h 0x1f7)). set (v := u8 _).
  destruct (Z.land v 0xC0 =? 0x40) eqn:E; cbn [negb].
  - exists (In 0x1f7 v :: h). split; [done|]. simpl. by destruct (ata_of disk0 h).
  - destruct (decide (busy <= polls h)%nat) as [Hb|Hb].
    { apply Z.eqb_neq in E. by apply ata_ready in Hb. }
    destruct (IH (In 0x1f7 v :: h)) as (h' & Hr & Ha); [simpl; lia|].
    exists h'. split; [done|]. rewrite Ha. simpl. by destruct (ata_of disk0 h).
Qed.
Lemma waitdisk_done n m h :
  (busy < n)%nat → ∃ h', waitdisk n (Io.H m h) = Done tt (Io.H m h') ∧ ata_of disk0 h' = ata_of disk0 h.
Proof. intros Hn. apply waitdisk_loop_done. lia. Qed.

(** The bytes written to the ports name the sector. *)
Lemma at_lba_boot k cm dk ws :
  0 <= k < 2 ^ 28 →
  let a := Atast 1 (u8 k) (u8 (Z.shiftr k 8)) (u8 (Z.shiftr k 16)) (u8 (Z.lor (Z.shiftr k 24) 0xE0)) cm dk ws in
  at_drive a = 0 ∧ at_lba a = k.
Proof.
  intros Hk a. unfold a, at_drive, at_lba. cbn [at_lba0 at_lba1 at_lba2 at_dev]. rewrite !Z.shiftr_div_pow2 by lia.
  assert (0 <= k / 2 ^ 24 < 2 ^ 4) as Ht by (split; [apply Z.div_pos; lia | apply Z.div_lt_upper_bound; lia]).
  rewrite Z.lor_comm. change 0xE0 with (14 * 2 ^ 4). rewrite lor_high_low by lia.
  rewrite (u8_small (14 * 2 ^ 4 + k / 2 ^ 24)) by lia. split.
  - rewrite (Z.add_comm (14 * 2 ^ 4)), Z.div_add, (Z.div_small (k / 2 ^ 24)) by lia. done.
  - change 0x0f with (Z.ones 4). rewrite Z.land_ones, Z.add_comm, Z.add_comm by lia.
    rewrite (Z.add_comm (14 * 2 ^ 4)), Z.mod_add, (Z.mod_small (k / 2 ^ 24)) by lia.
    pose proof (bytes_word k) as Hw. rewrite (u8_small (k / 2 ^ 24)), u32_small in Hw by lia. lia.
Qed.

Lemma readsect_done n m h dst k :
  (busy < n)%nat → unwritten h → 0 <= k < 2 ^ 28 →
  ∃ h', readsect dst k n (Io.H m h) = Done tt (Io.H (store_bytes m dst (disk0 0 k)) h') ∧ unwritten h'.
Proof.
  intros Hn Hu Hk. unfold readsect.
  destruct (waitdisk_done n m h Hn) as (h1 & Hw & Ha). rewrite (bind_done _ _ _ _ _ _ Hw).
  do 6 rewrite (bind_done _ _ _ _ _ _ (outb_done n m _ _ _)). set (h2 := Out 0x1f7 _ :: _).
  destruct (waitdisk_done n m h2 Hn) as (h3 & Hw3 & Ha3). rewrite (bind_done _ _ _ _ _ _ Hw3).
  destruct (at_lba_boot k (Some Ata_read) (at_disk (ata_of disk0 h)) (at_writes (ata_of disk0 h)) Hk) as [Hdr Hlb].
  set (a := Atast _ _ _ _ _ _ _ _) in Hdr, Hlb.
  assert (ata_of disk0 h2 = a) as Hh2.
  { subst h2. cbn [ata_of foldr]. change (foldr ata_step _ h1) with (ata_of disk0 h1). rewrite Ha.
    subst a. by destruct (ata_of disk0 h). }
  rewrite (bind_done _ _ _ _ _ _ (insl_done n m h3 _ _)). change (4 * Z.to_nat (SECTSIZE / 4))%nat with 512%nat.
  rewrite Hh2 in Ha3. rewrite (ata_data h3), Ha3, Hdr, Hlb by by rewrite Ha3.
  eexists. split; [unfold unwritten in Hu; subst a; cbn [at_disk]; rewrite Hu; reflexivity|].
  cbn [h_io]. unfold unwritten. rewrite ata_of_cons, Ha3. exact Hu.
Qed.

Lemma img_sector q i : 0 <= q → 0 <= i < SECTSIZE → disk0 0 (q + 1) !!! Z.to_nat i = img (SECTSIZE * q + i).
Proof.
  unfold SECTSIZE. intros Hq Hi. unfold img, SECTSIZE.
  replace (512 * q + i) with (i + q * 512) by lia.
  rewrite Z.div_add, Z.mod_add, (Z.div_small i), (Z.mod_small i) by lia. done.
Qed.

(** [k] sectors from sector [q + 1] on. *)
Lemma readseg_loop_done n k : ∀ fuel m h pa epa q,
  (busy < n)%nat → (k < fuel)%nat → unwritten h → 0 <= pa → pa + SECTSIZE * Z.of_nat k < 2 ^ 32 →
  0 <= q → q + Z.of_nat k + 1 < 2 ^ 28 →
  epa <= pa + SECTSIZE * Z.of_nat k → (k ≠ 0%nat → pa + SECTSIZE * (Z.of_nat k - 1) < epa) →
  ∃ m' h', readseg_loop fuel pa epa (q + 1) n (Io.H m h) = Done tt (Io.H m' h') ∧ unwritten h'
    ∧ ∀ a, m' a = if decide (pa <= a < pa + SECTSIZE * Z.of_nat k) then img (SECTSIZE * q + (a - pa)) else m a.
Proof.
  unfold SECTSIZE. induction k as [|k IH]; intros [|fuel] m h pa epa q Hn Hf Hu Hp Hpk Hq Hqk He1 He2; try lia.
  - exists m, h. cbn [readseg_loop]. rewrite (proj2 (Z.ltb_ge _ _)) by lia. split; [done|]. split; [done|].
    intros a. by rewrite decide_False by lia.
  - cbn [readseg_loop]. rewrite (proj2 (Z.ltb_lt _ _)) by lia. cbn [negb].
    destruct (readsect_done n m h pa (q + 1) Hn Hu) as (h1 & Hr & Hu1); [lia|].
    rewrite (bind_done _ _ _ _ _ _ Hr). unfold SECTSIZE. rewrite !u32_small by lia.
    destruct (IH fuel (store_bytes m pa (disk0 0 (q + 1))) h1 (pa + 512) epa (q + 1)) as (m' & h' & Hd & Hu' & Hm); try lia; try done.
    exists m', h'. split; [done|]. split; [done|]. intros a. rewrite Hm.
    destruct (decide (pa + 512 <= a < _)); [rewrite decide_True by lia; f_equal; lia|].
    destruct (decide (pa <= a < pa + 512)) as [Ha|Ha].
    + rewrite decide_True by lia. pose proof (img_sector q (a - pa)) as Hi. unfold SECTSIZE in Hi. rewrite <- Hi by lia.
      replace a with (pa + Z.of_nat (Z.to_nat (a - pa))) at 1 by lia.
      assert (disk0 0 (q + 1) !! Z.to_nat (a - pa) = Some (disk0 0 (q + 1) !!! Z.to_nat (a - pa))) as Hl
        by (apply list_lookup_lookup_total_lt; rewrite Hsect; lia).
      apply store_bytes_in; [exact Hl | exact (Forall_lookup_1 _ _ _ _ (Hbyte (q + 1)) Hl)].
    + rewrite decide_False by lia. apply store_bytes_out. rewrite Hsect. lia.
Qed.

(** The addresses readseg writes to: whole sectors. *)
Definition seg_lo (pa offset : Z) : Z := pa - offset mod SECTSIZE.
Definition seg_hi (pa count offset : Z) : Z :=
  seg_lo pa offset + SECTSIZE * ((count + offset mod SECTSIZE + (SECTSIZE - 1)) / SECTSIZE).
Definition seg_fits (pa count offset : Z) : Prop :=
  0 <= count ∧ 0 <= offset ∧ offset mod SECTSIZE <= pa ∧ pa + count + SECTSIZE < 2 ^ 32 ∧ offset + count < 2 ^ 32.

Lemma seg_hi_bounds pa count offset :
  seg_fits pa count offset → pa + count <= seg_hi pa count offset < pa + count + SECTSIZE.
Proof.
  intros (Hc & Ho & Hp & _). unfold seg_hi, seg_lo, SECTSIZE in *.
  pose proof (Z.div_mod (count + offset mod 512 + (512 - 1)) 512). 
  pose proof (Z.mod_pos_bound (count + offset mod 512 + (512 - 1)) 512). lia.
Qed.

Lemma readseg_done n m h pa count offset :
  (busy < n)%nat → unwritten h → seg_fits pa count offset →
  ∃ m' h', readseg pa count offset n (Io.H m h) = Done tt (Io.H m' h') ∧ unwritten h'
    ∧ ∀ a, m' a = if decide (seg_lo pa offset <= a < seg_hi pa count offset)
                  then img (offset + (a - pa)) else m a.
Proof.
  intros Hn Hu Hfit. pose proof (seg_hi_bounds _ _ _ Hfit) as Hh. destruct Hfit as (Hc & Ho & Hp & Hpc & Hoc).
  unfold readseg, seg_hi, seg_lo, SECTSIZE in *.
  pose proof (Z.mod_pos_bound offset 512 ltac:(lia)) as Hmod. pose proof (Z.div_mod offset 512 ltac:(lia)) as Hdm.
  set (r := offset mod 512) in *. set (q := offset / 512) in *.
  assert (0 <= q < 2 ^ 23) as Hq by (unfold q; split; [apply Z.div_pos; lia | apply Z.div_lt_upper_bound; lia]).
  set (k := (count + r + (512 - 1)) / 512) in *.
  assert (0 <= k) by (unfold k; apply Z.div_pos; lia).
  assert (k <= (count + 512) / 512 + 1).
  { unfold k. rewrite <- Z.div_add by lia. apply Z.div_le_mono; lia. }
  assert (k < 2 ^ 24) by (unfold k; apply Z.div_lt_upper_bound; lia).
  rewrite !u32_small by lia.
  destruct (readseg_loop_done n (Z.to_nat k) (S (Z.to_nat ((count + 512) / 512) + 1)) m h (pa - r) (pa + count) q)
    as (m' & h' & Hd & Hu' & Hm); unfold SECTSIZE; try lia; try done.
  exists m', h'. split; [exact Hd|]. split; [done|]. intros a. rewrite Hm. unfold SECTSIZE.
  rewrite Z2Nat.id by lia. case_decide; [|done]. f_equal. lia.
Qed.

(** ** Loading *)

(** The segment is where it should be. *)
Definition loaded (m : mem) (s : segment) : Prop :=
  ∀ a, (sg_paddr s <= a < sg_paddr s + sg_filesz s → m a = img (sg_off s + (a - sg_paddr s)))
     ∧ (sg_paddr s + sg_filesz s <= a < sg_paddr s + sg_memsz s → m a = 0).
Definition seg_body (s : segment) (a : Z) : Prop :=
  sg_paddr s <= a < sg_paddr s + Z.max (sg_filesz s) (sg_memsz s).
(** What loading it writes to. *)
Definition seg_span (s : segment) (a : Z) : Prop :=
  seg_lo (sg_paddr s) (sg_off s) <= a
  < Z.max (seg_hi (sg_paddr s) (sg_filesz s) (sg_off s)) (sg_paddr s + sg_memsz s).
Definition elf_at : Z := 0x10000.
(** It fits in memory, clear of the page with the headers. *)
Definition seg_ok (s : segment) : Prop :=
  seg_fits (sg_paddr s) (sg_filesz s) (sg_off s) ∧ 0 <= sg_memsz s ∧ sg_paddr s + sg_memsz s < 2 ^ 32
  ∧ ∀ a, seg_span s a → ¬ (elf_at <= a < elf_at + 4096).
(** No segment is loaded over an earlier one. *)
Fixpoint in_order (ss : list segment) : Prop :=
  match ss with
  | [] => True
  | s :: ss' => Forall (λ s', ∀ a, seg_span s' a → ¬ seg_body s a) ss' ∧ in_order ss'
  end.
(** The first page of the file is in place. *)
Definition headers_in (m : mem) : Prop := ∀ k, 0 <= k < 4096 → m (elf_at + k) = img k.

Lemma load32_in m k : headers_in m → 0 <= k <= 4092 → load32 m (elf_at + k) = load32 img k.
Proof. intros Hm Hk. unfold load32. rewrite <- !Z.add_assoc, !Hm by lia. done. Qed.
Lemma load16_in m k : headers_in m → 0 <= k <= 4094 → load16 m (elf_at + k) = load16 img k.
Proof. intros Hm Hk. unfold load16. rewrite <- !Z.add_assoc, !Hm by lia. done. Qed.
Lemma proghdr_in m k : headers_in m → 0 <= k <= 4064 → proghdr_at m (elf_at + k) = proghdr_at img k.
Proof. intros Hm Hk. unfold proghdr_at. rewrite <- !Z.add_assoc, !load32_in by (done || lia). done. Qed.

Lemma load_one_done n m h k s :
  (busy < n)%nat → unwritten h → headers_in m → 0 <= k <= 4064 → proghdr_at img k = s → seg_ok s →
  ∃ m' h', load_one (elf_at + k) n (Io.H m h) = Done tt (Io.H m' h') ∧ unwritten h' ∧ headers_in m'
    ∧ loaded m' s ∧ ∀ a, ¬ seg_span s a → m' a = m a.
Proof.
  intros Hn Hu Hm Hk Hs (Hfit & Hm0 & Hmem & Hsep). unfold load_one. cbv zeta.
  rewrite (bind_done _ _ _ _ m (Io.H m h)) by done. rewrite (proghdr_in m k Hm Hk), Hs.
  destruct (readseg_done n m h (sg_paddr s) (sg_filesz s) (sg_off s) Hn Hu Hfit) as (m1 & h1 & Hr & Hu1 & Hm1).
  rewrite (bind_done _ _ _ _ _ _ Hr), (bind_done _ _ _ _ m1 (Io.H m1 h1)) by done.
  pose proof (seg_hi_bounds _ _ _ Hfit) as Hh. destruct Hfit as (Hc & Ho & Hp & Hpc & Hoc).
  pose proof (Z.mod_pos_bound (sg_off s) SECTSIZE ltac:(done)) as Hmod.
  assert (headers_in m1) as Hin.
  { intros j Hj. rewrite Hm1, decide_False; [by apply Hm|]. intros Ha. apply (Hsep (elf_at + j)); [|lia].
    unfold seg_span. lia. }
  rewrite (proghdr_in m1 k Hin Hk), Hs.
  destruct (sg_memsz s >? sg_filesz s) eqn:E; cbn [when].
  - rewrite Z.gtb_ltb in E. apply Z.ltb_lt in E. eexists _, h1. split; [reflexivity|]. split; [done|].
    rewrite u32_small by lia. set (m2 := stosb _ _ _ _).
    assert (∀ a, m2 a = if decide (sg_paddr s + sg_filesz s <= a < sg_paddr s + sg_memsz s) then 0 else m1 a) as Hm2.
    { intros a. unfold m2. rewrite stosb_lookup. destruct (decide (sg_paddr s + sg_filesz s <= a < _)).
      - rewrite decide_True by lia. done.
      - rewrite decide_False by lia. done. }
    split; [|split].
    + intros j Hj. rewrite Hm2, decide_False; [by apply Hin|]. intros Ha. apply (Hsep (elf_at + j)); [|lia].
      unfold seg_span, seg_lo. lia.
    + intros a. split; intros Ha; rewrite Hm2.
      * rewrite decide_False by lia. rewrite Hm1, decide_True by (unfold seg_lo; lia). done.
      * by rewrite decide_True by lia.
    + intros a Ha. unfold seg_span, seg_lo in Ha. rewrite Hm2, decide_False, Hm1, decide_False by (unfold seg_lo; lia). done.
  - rewrite Z.gtb_ltb in E. apply Z.ltb_ge in E. exists m1, h1. split; [done|]. split; [done|]. split; [done|]. split.
    + intros a. split; intros Ha; [|lia]. rewrite Hm1, decide_True by (unfold seg_lo; lia). done.
    + intros a Ha. unfold seg_span in Ha. rewrite Hm1, decide_False by lia. done.
Qed.

Lemma load_segments_done n ss : ∀ fuel m h o,
  (busy < n)%nat → (length ss < fuel)%nat → unwritten h → headers_in m → 0 <= o →
  o + sizeof_proghdr * Z.of_nat (length ss) <= 4096 →
  (∀ j s, ss !! j = Some s → proghdr_at img (o + sizeof_proghdr * Z.of_nat j) = s) →
  Forall seg_ok ss → in_order ss →
  ∃ m' h', load_segments fuel (elf_at + o) (elf_at + (o + sizeof_proghdr * Z.of_nat (length ss))) n (Io.H m h)
      = Done tt (Io.H m' h') ∧ headers_in m' ∧ Forall (loaded m') ss
    ∧ ∀ a, Forall (λ s, ¬ seg_span s a) ss → m' a = m a.
Proof.
  unfold sizeof_proghdr, elf_at.
  induction ss as [|s ss IH]; intros [|fuel] m h o Hn Hf Hu Hm Ho Ho2 Hph Hok Hord; simpl in Hf, Ho2; try lia; cbn [load_segments].
  - rewrite (proj2 (Z.ltb_ge _ _)) by (simpl; lia). exists m, h. by split_and!.
  - rewrite (proj2 (Z.ltb_lt _ _)) by (simpl; lia). cbn [negb].
    inversion_clear Hok as [|? ? Hs Hss]. destruct Hord as [Hsep Hord].
    destruct (load_one_done n m h o s Hn Hu Hm) as (m1 & h1 & Hr & Hu1 & Hin1 & Hl1 & Hfr1);
      [lia | by rewrite <- (Hph 0%nat s eq_refl); f_equal; lia | done |].
    destruct (IH fuel m1 h1 (o + 32)) as (m' & h' & Hd & Hin & Hld & Hfr); try done; try lia.
    { intros j t Hj. rewrite <- (Hph (S j) t Hj). f_equal. lia. }
    exists m', h'. split.
    { rewrite (bind_done _ _ _ _ _ _ Hr). unfold sizeof_proghdr. rewrite u32_small, <- Z.add_assoc by lia. rewrite <- Hd.
      do 2 f_equal. simpl. lia. }
    split; [done|]. split.
    + constructor; [|done]. intros a. destruct (Hl1 a) as [H1 H2].
      assert (seg_body s a → m' a = m1 a) as Hk.
      { intros Hb. apply Hfr. eapply Forall_impl; [exact Hsep|]. intros t Ht Hsp. by eapply Ht. }
      destruct Hs as ((? & _) & ? & _). split; intros Ha; rewrite Hk by (unfold seg_body; lia); auto.
    + intros a Ha. inversion_clear Ha as [|? ? Ha1 Ha2]. rewrite Hfr by done. by apply Hfr1.
Qed.

Lemma read_headers n m h :
  (busy < n)%nat → unwritten h →
  ∃ m' h', readseg elf_at 4096 0 n (Io.H m h) = Done tt (Io.H m' h') ∧ unwritten h' ∧ headers_in m'.
Proof.
  intros Hn Hu. destruct (readseg_done n m h elf_at 4096 0 Hn Hu) as (m' & h' & Hr & Hu' & Hm).
  { split_and!; vm_compute; first [reflexivity | discriminate]. }
  exists m', h'. split; [done|]. split; [done|]. intros k Hk. rewrite Hm.
  change (seg_lo elf_at 0) with elf_at. change (seg_hi elf_at 4096 0) with (elf_at + 4096).
  rewrite decide_True by lia. f_equal. lia.
Qed.

(** The program headers of the file. *)
Definition segments : list segment :=
  (λ j, proghdr_at img (hdr_phoff img 0 + sizeof_proghdr * j)) <$> seqZ 0 (hdr_phnum img 0).

(** C19: bootmain loads the kernel from the disk.  When the file at sector 1 is an
    ELF file whose program headers are in its first page, and no segment is
    loaded over the headers or over an earlier segment, it ends with the entry
    point of the file; memory then holds the bytes of every segment at its
    physical address, and zeros from there to the segment's size in memory,
    although whole sectors are read around them.  When the file is not ELF it
    returns. *)
Theorem bootmain_loads n m h :
  (busy < n)%nat → unwritten h →
  if hdr_magic img 0 =? ELF_MAGIC then
    0 <= hdr_phoff img 0 → 0 <= hdr_phnum img 0 →
    hdr_phoff img 0 + sizeof_proghdr * hdr_phnum img 0 <= 4096 →
    Forall seg_ok segments → in_order segments →
    ∃ m' h', bootmain n (Io.H m h) = Done (Some (hdr_entry img 0)) (Io.H m' h') ∧ Forall (loaded m') segments
  else ∃ m' h', bootmain n (Io.H m h) = Done None (Io.H m' h').
Proof.
  intros Hn Hu. unfold bootmain. change 0x10000 with elf_at. cbv zeta.
  destruct (read_headers n m h Hn Hu) as (m1 & h1 & Hr & Hu1 & Hin). rewrite (bind_done _ _ _ _ _ _ Hr).
  rewrite (bind_done _ _ _ _ m1 (Io.H m1 h1)) by done.
  assert (hdr_magic m1 elf_at = hdr_magic img 0) as -> by (apply (load32_in m1 0); [done|lia]).
  destruct (_ =? _); [cbn [negb]|by eexists _, _]. intros Ho Hk Hpage Hok Hord.
  unfold hdr_phoff at 1 2, hdr_phnum at 1 2. rewrite !load32_in, !load16_in by (done || lia).
  change (load32 img 28) with (hdr_phoff img 0). change (load16 img 44) with (hdr_phnum img 0).
  assert (length segments = Z.to_nat (hdr_phnum img 0)) as Hlen by (unfold segments; by rewrite length_fmap, length_seqZ).
  unfold sizeof_proghdr, elf_at in *.
  destruct (load_segments_done n segments (S (Z.to_nat (hdr_phnum img 0))) m1 h1 (hdr_phoff img 0))
    as (m' & h' & Hd & Hin' & Hld & _); unfold sizeof_proghdr; try done; try lia.
  { intros j s Hj. unfold segments in Hj. apply list_lookup_fmap_Some in Hj as (i & -> & Hi).
    apply lookup_seqZ in Hi as [-> _]. done. }
  exists m', h'. split; [|done]. unfold elf_at, sizeof_proghdr in Hd. rewrite Hlen, Z2Nat.id in Hd by lia.
  rewrite !u32_small by lia. rewrite <- Z.add_assoc, (bind_done _ _ _ _ _ _ Hd).
  rewrite (bind_done _ _ _ _ m' (Io.H m' h')) by done.
  by assert (hdr_entry m' 65536 = hdr_entry img 0) as -> by (apply (load32_in m' 24); [done|lia]).
Qed.
End facts.

(** A file with one segment: 100 bytes from byte 1040 on, at 0x100000, and 40
    zeros behind them. *)
Definition demo_elf : list Z :=
  bytes_of ELF_MAGIC ++ replicate 20 0 ++ bytes_of 0x10000C ++ bytes_of 52 ++ replicate 12 0 ++ [1; 0] ++ replicate 6 0
  ++ bytes_of 1 ++ bytes_of 1040 ++ bytes_of 0x80100000 ++ bytes_of 0x100000 ++ bytes_of 100 ++ bytes_of 140
  ++ replicate 8 0 ++ replicate 428 9.
Definition demo_disk (_ k : Z) : list Z := if k =? 1 then demo_elf else replicate 512 (k mod 256).
Definition demo_seg : segment := Segment 1040 0x100000 100 140.
Lemma bootmain_loads_witness :
  ∃ m' h', @bootmain (ata_dev demo_disk 2) 3%nat (H (λ _, 0) []) = Done (Some 0x10000C) (H m' h')
    ∧ m' 0x100063 = 3 ∧ m' 0x100064 = 0.
Proof.
  assert (Hs : segments demo_disk = [demo_seg]) by (vm_compute; reflexivity).
  assert (Hsect : ∀ k, length (demo_disk 0 k) = 512%nat) by (intros k; unfold demo_disk; by destruct (k =? 1)).
  assert (Hbyte : ∀ k, Forall (λ x, 0 <= x < 256) (demo_disk 0 k)).
  { intros k. unfold demo_disk. destruct (k =? 1); [vm_compute; repeat (constructor; [split; [discriminate | reflexivity]|]); constructor|].
    apply Forall_replicate. apply Z.mod_pos_bound. lia. }
  pose proof (@bootmain_loads (ata_dev demo_disk 2) demo_disk 2 (ata_dev_law demo_disk 2) Hsect Hbyte 3%nat (λ _, 0) []
    ltac:(lia) eq_refl) as Hb.
  rewrite Hs in Hb. change (hdr_magic (img demo_disk) 0 =? ELF_MAGIC) with true in Hb. cbv iota in Hb.
  destruct Hb as (m' & h' & Hd & Hl).
  - vm_compute; discriminate.
  - vm_compute; discriminate.
  - vm_compute; discriminate.
  - constructor; [|constructor]. split; [split_and!; vm_compute; first [reflexivity | discriminate]|].
    split; [vm_compute; discriminate|]. split; [vm_compute; reflexivity|].
    intros a Ha. change (seg_span demo_seg a) with (1048560 <= a < 1049072) in Ha. unfold elf_at. lia.
  - split; constructor.
  - exists m', h'. split; [exact Hd|]. inversion_clear Hl as [|? ? Hl1 _]. split.
    + rewrite (proj1 (Hl1 0x100063)) by (unfold demo_seg; simpl; lia). vm_compute; reflexivity.
    + apply (proj2 (Hl1 0x100064)). unfold demo_seg; simpl; lia.
Defined.
