(* ===== verification/Sysfile.v ===== *)
(** * Sysfile: sysfile.c, the file system calls *)

From S2P Require Import Prelude Memory Kstate Spinlock Kalloc Cprintf Vm Sched Sleeplock Bio Log Inode.
From S2P Require Import Console Fs Pipe File Proc Rtc Syscall Exec.

Definition O_RDONLY : Z := 0x000.
Definition O_WRONLY : Z := 0x001.
Definition O_RDWR : Z := 0x002.
Definition O_CREATE : Z := 0x200.

(** The descriptor and the file. *)
Definition argfd (n : Z) : KM (option (Z * nat)) :=
  o ← argint n;
  match o with
  | None => mret None
  | Some fd =>
    if (fd <? 0) || (fd >=? Z.of_nat NOFILE) then mret None else
    i ← curproc; p ← get_proc i;
    mret (f ← p_ofile p !!! Z.to_nat fd; Some (fd, f))
  end.

(** [curproc->ofile[fd] = f] *)
Definition set_ofile (i : nat) (fd : nat) (f : option nat) : KM unit :=
  mod_proc i (λ p, p <| p_ofile := <[fd := f]> (p_ofile p) |>).
Definition fdalloc (f : nat) : KM Z :=
  i ← curproc;
  r ← searchM (seq 0 NOFILE) (λ fd,
    p ← get_proc i;
    if bool_decide (p_ofile p !!! fd = None) then set_ofile i fd (Some f) ;; mret (Some (Z.of_nat fd))
    else mret None);
  mret (default (-1) r).

Definition sys_dup : KM Z :=
  need (-1) (argfd 0) (λ a,
    fd ← fdalloc a.2;
    if fd <? 0 then mret (-1) else
    _ ← filedup a.2;
    mret fd).

(** struct stat in memory *)
Definition stat_bytes (st : stat) : list Z :=
  [u8 (st_type st); u8 (st_type st / 2 ^ 8); 0; 0] ++ bytes_of (st_dev st) ++ bytes_of (st_ino st)
  ++ [u8 (st_nlink st); u8 (st_nlink st / 2 ^ 8); 0; 0] ++ bytes_of (st_size st).

Section sysfile.
Context `{Disk}.

(** When the second argument is no open descriptor, [newfd] has not been set:
    using it is undefined. *)
Definition sys_dup2 : KM Z :=
  need (-1) (argfd 0) (λ old,
    o ← argfd 1;
    match o with Some (_, newfile) => fileclose newfile | None => mret tt end ;;
    _ ← filedup old.2;
    i ← curproc;
    new ← from_opt "dup2: newfd uninitialised" o;
    p ← get_proc i;
    set_ofile i (Z.to_nat new.1) (p_ofile p !!! Z.to_nat old.1) ;;
    mret new.1).

Definition sys_read : KM Z :=
  need (-1) (argfd 0) (λ a, need (-1) (argint 2) (λ n, need (-1) (argptr 1 n) (λ p, fileread a.2 p n))).
Definition sys_write : KM Z :=
  need (-1) (argfd 0) (λ a, need (-1) (argint 2) (λ n, need (-1) (argptr 1 n) (λ p, filewrite a.2 p n))).

Definition sys_close : KM Z :=
  need (-1) (argfd 0) (λ a,
    i ← curproc;
    set_ofile i (Z.to_nat a.1) None ;;
    fileclose a.2 ;;
    mret 0).

(** The padding bytes of the struct, which stati leaves alone, are zero here. *)
Definition sys_fstat : KM Z :=
  need (-1) (argfd 0) (λ a, need (-1) (argptr 1 20) (λ st,
    o ← filestat a.2;
    match o with
    | None => mret (-1)
    | Some x => vstoreM st (stat_bytes x) ;; mret 0
    end)).

Definition link_bad (ip : nat) : KM Z :=
  ilock (Some ip) ;;
  mod_inode ip (λ i, i <| i_nlink := s16 (i_nlink i - 1) |>) ;;
  iupdate ip ;;
  iunlockput ip ;;
  end_op ;;
  mret (-1).
Definition sys_link : KM Z :=
  need (-1) (argstr 0) (λ old, need (-1) (argstr 1) (λ new,
    begin_op ;;
    o ← namei old;
    match o with
    | None => end_op ;; mret (-1)
    | Some ip =>
      ilock (Some ip) ;;
      i ← get_inode ip;
      if i_type i =? T_DIR then iunlockput ip ;; end_op ;; mret (-1) else
      mod_inode ip (λ i, i <| i_nlink := s16 (i_nlink i + 1) |>) ;;
      iupdate ip ;;
      iunlock (Some ip) ;;
      r ← nameiparent new;
      match r.1 with
      | None => link_bad ip
      | Some dp =>
        ilock (Some dp) ;;
        d ← get_inode dp; i ← get_inode ip;
        ok ← (if negb (i_dev d =? i_dev i) then mret false
              else r ← dirlink dp r.2 (i_inum i); mret (negb (r <? 0)));
        iunlockput dp ;;
        if negb (ok : bool) then link_bad ip else
        iput ip ;;
        end_op ;;
        mret 0
      end
    end)).

Fixpoint isdirempty_loop (fuel : nat) (dp : nat) (off : Z) : KM bool :=
  match fuel with
  | O => out_of_fuel
  | S fuel' =>
    d ← get_inode dp;
    if negb (off <? i_size d) then mret true else
    r ← readi dp D_local off sizeof_dirent;
    if negb (r.1 =? sizeof_dirent) then panic "isdirempty: readi" else
    if negb (de_inum r.2 =? 0) then mret false else
    isdirempty_loop fuel' dp (off + sizeof_dirent)
  end.
Definition isdirempty (dp : nat) : KM bool :=
  d ← get_inode dp;
  isdirempty_loop (S (Z.to_nat (i_size d / sizeof_dirent) + 1)) dp (2 * sizeof_dirent).

Definition unlink_bad (dp : nat) : KM Z := iunlockput dp ;; end_op ;; mret (-1).
Definition sys_unlink : KM Z :=
  need (-1) (argstr 0) (λ path,
    begin_op ;;
    r ← nameiparent path;
    let name := r.2 in
    match r.1 with
    | None => end_op ;; mret (-1)
    | Some dp =>
      ilock (Some dp) ;;
      if (namecmp name (str ".") =? 0) || (namecmp name (str "..") =? 0) then unlink_bad dp else
      o ← dirlookup dp name;
      match o with
      | None => unlink_bad dp
      | Some (ip, off) =>
        ilock (Some ip) ;;
        i ← get_inode ip;
        if i_nlink i <? 1 then panic "unlink: nlink < 1" else
        busy ← (if i_type i =? T_DIR then e ← isdirempty ip; mret (negb e) else mret false);
        if (busy : bool) then iunlockput ip ;; unlink_bad dp else
        w ← writei dp (S_local (replicate (Z.to_nat sizeof_dirent) 0)) off sizeof_dirent;
        if negb (w =? sizeof_dirent) then panic "unlink: writei" else
        i ← get_inode ip;
        when (i_type i =? T_DIR) (
          mod_inode dp (λ d, d <| i_nlink := s16 (i_nlink d - 1) |>) ;;
          iupdate dp) ;;
        iunlockput dp ;;
        mod_inode ip (λ i, i <| i_nlink := s16 (i_nlink i - 1) |>) ;;
        iupdate ip ;;
        iunlockput ip ;;
        end_op ;;
        mret 0
      end
    end).

(** Returns a locked inode. *)
Definition create (path : list Z) (type major minor : Z) : KM (option nat) :=
  r ← nameiparent path;
  let name := r.2 in
  match r.1 with
  | None => mret None
  | Some dp =>
    ilock (Some dp) ;;
    o ← dirlookup dp name;
    match o with
    | Some (ip, _) =>
      iunlockput dp ;;
      ilock (Some ip) ;;
      i ← get_inode ip;
      if (type =? T_FILE) && (i_type i =? T_FILE) then mret (Some ip) else
      iunlockput ip ;;
      mret None
    | None =>
      d ← get_inode dp;
      ip ← ialloc (i_dev d) type;
      ilock (Some ip) ;;
      mod_inode ip (λ i, i <| i_major := s16 major |>) ;;
      mod_inode ip (λ i, i <| i_minor := s16 minor |>) ;;
      mod_inode ip (λ i, i <| i_nlink := 1 |>) ;;
      iupdate ip ;;
      i ← get_inode ip;
      when (type =? T_DIR) (
        mod_inode dp (λ d, d <| i_nlink := s16 (i_nlink d + 1) |>) ;;
        iupdate dp ;;
        r1 ← dirlink ip (str ".") (i_inum i);
        bad ← (if r1 <? 0 then mret true else
               d ← get_inode dp; r2 ← dirlink ip (str "..") (i_inum d); mret (r2 <? 0));
        if (bad : bool) then panic "create dots" else mret tt) ;;
      r ← dirlink dp name (i_inum i);
      if r <? 0 then panic "create: dirlink" else
      iunlockput dp ;;
      mret (Some ip)
    end
  end.

(** The end of sys_open, with the inode locked. *)
Definition open_file (ip : nat) (omode : Z) : KM Z :=
  o ← filealloc;
  fd ← match o with None => mret (-1) | Some f => fdalloc f end;
  match o, fd <? 0 with
  | Some f, false =>
    iunlock (Some ip) ;;
    end_op ;;
    mod_file f (λ x, x <| f_type := FD_INODE |> <| f_ip := Some ip |> <| f_off := 0 |>
      <| f_readable := if ctrue (Z.land omode O_WRONLY) then 0 else 1 |>
      <| f_writable := if ctrue (Z.land omode O_WRONLY) || ctrue (Z.land omode O_RDWR) then 1 else 0 |>) ;;
    mret fd
  | _, _ =>
    match o with Some f => fileclose f | None => mret tt end ;;
    iunlockput ip ;;
    end_op ;;
    mret (-1)
  end.
Definition sys_open : KM Z :=
  need (-1) (argstr 0) (λ path, need (-1) (argint 1) (λ omode,
    begin_op ;;
    if ctrue (Z.land omode O_CREATE) then
      o ← create path T_FILE 0 0;
      match o with
      | None => end_op ;; mret (-1)
      | Some ip => open_file ip omode
      end
    else
      o ← namei path;
      match o with
      | None => end_op ;; mret (-1)
      | Some ip =>
        ilock (Some ip) ;;
        i ← get_inode ip;
        if (i_type i =? T_DIR) && negb (omode =? O_RDONLY) then iunlockput ip ;; end_op ;; mret (-1)
        else open_file ip omode
      end)).

(** What follows a failed or successful create in sys_mkdir and sys_mknod. *)
Definition made (o : option nat) : KM Z :=
  match o with
  | None => end_op ;; mret (-1)
  | Some ip => iunlockput ip ;; end_op ;; mret 0
  end.
Definition sys_mkdir : KM Z :=
  begin_op ;;
  o ← argstr 0;
  match o with
  | None => made None
  | Some path => o ← create path T_DIR 0 0; made o
  end.
Definition sys_mknod : KM Z :=
  begin_op ;;
  p ← argstr 0;
  match p with
  | None => made None
  | Some path =>
    a ← argint 1;
    match a with
    | None => made None
    | Some major =>
      b ← argint 2;
      match b with
      | None => made None
      | Some minor => o ← create path T_DEV major minor; made o
      end
    end
  end.

Definition sys_chdir : KM Z :=
  cur ← curproc;
  begin_op ;;
  p ← argstr 0;
  o ← match p with None => mret None | Some path => namei path end;
  match o with
  | None => end_op ;; mret (-1)
  | Some ip =>
    ilock (Some ip) ;;
    i ← get_inode ip;
    if negb (i_type i =? T_DIR) then iunlockput ip ;; end_op ;; mret (-1) else
    iunlock (Some ip) ;;
    c ← get_proc cur;
    cwd ← from_opt "chdir: null cwd" (p_cwd c);
    iput cwd ;;
    end_op ;;
    mod_proc cur (λ p, p <| p_cwd := Some ip |>) ;;
    mret 0
  end.

(** argv, up to its null pointer; [k] entries of the array are left. *)
Fixpoint exec_args (k : nat) (uargv i : Z) : KM (option (list (list Z))) :=
  match k with
  | O => mret None
  | S k' =>
    o ← fetchint (u32 (uargv + 4 * i));
    match o with
    | None => mret None
    | Some uarg =>
      if uarg =? 0 then mret (Some []) else
      s ← fetchstr (u32 uarg);
      match s with
      | None => mret None
      | Some s => r ← exec_args k' uargv (i + 1); mret (cons s <$> r)
      end
    end
  end.
Definition sys_exec : KM Z :=
  need (-1) (argstr 0) (λ path, need (-1) (argint 1) (λ uargv,
    need (-1) (exec_args (Z.to_nat MAXARG) (u32 uargv) 0) (λ argv, exec path argv))).

Definition sys_pipe : KM Z :=
  need (-1) (argptr 0 8) (λ fd,
    need (-1) pipealloc (λ p,
      let '(rf, wf) := p in
      fd0 ← fdalloc rf;
      fd1 ← (if fd0 <? 0 then mret (-1) else fdalloc wf);
      if (fd0 <? 0) || (fd1 <? 0) then
        i ← curproc;
        when (fd0 >=? 0) (set_ofile i (Z.to_nat fd0) None) ;;
        fileclose rf ;;
        fileclose wf ;;
        mret (-1)
      else
        vstore32M fd fd0 ;;
        vstore32M (u32 (fd + 4)) fd1 ;;
        mret 0)).
End sysfile.
