(* ===== verification/SyscallFacts.v ===== *)
(** * SyscallFacts: fetching arguments from user memory

    argint, argptr and argstr look at the process's memory only below its
    size, so that a system call with bad arguments returns -1 and cannot make
    the kernel fault. *)

From S2P Require Import Prelude Memory Kstate Spinlock Kalloc Cprintf Vm VmFacts Sched SchedFacts Sleeplock Bio Log Inode.
From S2P Require Import Console Fs Pipe PipeFacts File Proc Rtc Syscall.

(** The running process [i], whose memory below its size is all mapped in the
    page table in use. *)
Record user_ctx (m : mach) (d : kdata) (i : nat) : Prop := {
  uc_run : ∃ c cp, mach_ok m c cp ∧ c_proc cp = Some i;
  uc_sz : 0 <= p_sz (d_procs d !!! i) <= KERNBASE;
  uc_map : ∀ va, 0 <= va < p_sz (d_procs d !!! i) →
    is_Some (translate (mm_mem (d_mm d)) (P2V (m_cr3 m)) va false)
}.

(** The byte the process has at [va]. *)
Definition ubyte (m : mach) (d : kdata) (va : Z) : Z :=
  default 0 (mm_mem (d_mm d) <$> translate (mm_mem (d_mm d)) (P2V (m_cr3 m)) va false).
Definition ubytes (m : mach) (d : kdata) (va : Z) (n : nat) : list Z :=
  (λ k, ubyte m d (va + Z.of_nat k)) <$> seq 0 n.
Lemma ubytes_S m d va k : ubytes m d va (S k) = ubyte m d va :: ubytes m d (va + 1) k.
Proof.
  unfold ubytes. cbn [seq fmap list_fmap]. rewrite Z.add_0_r. f_equal.
  change (list_fmap ?A ?B ?f ?l) with (f <$> l). rewrite <- (fmap_S_seq 0 k), <- list_fmap_compose.
  apply list_fmap_ext. intros j x _. simpl. f_equal. lia.
Qed.
Definition uword (m : mach) (d : kdata) (va : Z) : Z := word_of (ubytes m d va 4).

Lemma load_tf_done n m d i f :
  load_tf i f n (K m d) = Done (load32 (mm_mem (d_mm d)) (p_tf (d_procs d !!! i) + f)) (K m d).
Proof. done. Qed.

Section user.
Context (n : nat) (m : mach) (d : kdata) (i : nat) (Huc : user_ctx m d i).
Let sz := p_sz (d_procs d !!! i).

Lemma curproc_user : curproc n (K m d) = Done i (K m d).
Proof. destruct (uc_run _ _ _ Huc) as (c & cp & Hok & Hp). by eapply curproc_done. Qed.

Lemma vload_user va k :
  0 <= va → va + Z.of_nat k <= sz →
  vload (mm_mem (d_mm d)) (P2V (m_cr3 m)) va k = Some (ubytes m d va k).
Proof.
  revert va. induction k as [|k IH]; intros va H0 Hle; [done|]. cbn [vload].
  destruct (uc_map _ _ _ Huc va) as [a Ha]; [fold sz; lia|]. rewrite Ha. simpl.
  rewrite IH by lia. simpl. rewrite ubytes_S. unfold ubyte at 1. by rewrite Ha.
Qed.

Lemma fetchint_done addr :
  0 <= addr < 2 ^ 32 →
  fetchint addr n (K m d)
  = Done (if decide (addr + 4 <= sz) then Some (s32 (uword m d addr)) else None) (K m d).
Proof.
  intros Ha. unfold fetchint. rewrite (bind_done _ _ _ _ _ _ curproc_user). krun. fold sz.
  pose proof (uc_sz _ _ _ Huc) as Hsz. fold sz in Hsz. unfold KERNBASE in Hsz.
  destruct (Z.geb_spec addr sz); simpl.
  { by rewrite decide_False by lia. }
  rewrite u32_small by lia. destruct (Z.gtb_spec (addr + 4) sz).
  { by rewrite decide_False by lia. }
  rewrite decide_True by lia. unfold vload32M. rewrite (bind_done _ _ _ _ (uword m d addr) (K m d)); [done|].
  rewrite (bind_done _ _ _ _ _ _ (vloadM_done n m d addr 4 _ (vload_user addr 4 ltac:(lia) ltac:(lia)))). done.
Qed.

(** The argument [k] of the system call. *)
Definition arg_addr (k : Z) : Z := u32 (load32 (mm_mem (d_mm d)) (p_tf (d_procs d !!! i) + tf_esp) + 4 + 4 * k).
Definition arg_word (k : Z) : option Z :=
  if decide (arg_addr k + 4 <= sz) then Some (s32 (uword m d (arg_addr k))) else None.
Lemma argint_done k : argint k n (K m d) = Done (arg_word k) (K m d).
Proof.
  unfold argint. rewrite (bind_done _ _ _ _ _ _ curproc_user), (bind_done _ _ _ _ _ _ (load_tf_done n m d i _)).
  rewrite fetchint_done by apply u32_range. done.
Qed.

Lemma argptr_done k size :
  - 2 ^ 31 <= size < 2 ^ 31 →
  argptr k size n (K m d) = Done
    (a ← u32 <$> arg_word k; if decide (0 <= size ∧ a < sz ∧ a + size <= sz) then Some a else None) (K m d).
Proof.
  intros Hsize. unfold argptr. rewrite (bind_done _ _ _ _ _ _ curproc_user). krun. fold sz.
  rewrite (bind_done _ _ _ _ _ _ (argint_done k)). destruct (arg_word k) as [w|]; simpl; [|done].
  pose proof (uc_sz _ _ _ Huc) as Hsz. fold sz in Hsz. unfold KERNBASE in Hsz. pose proof (u32_range w) as Hw.
  destruct (Z.ltb_spec size 0); simpl; [by rewrite decide_False by lia|].
  destruct (Z.geb_spec (u32 w) sz); simpl; [by rewrite decide_False by lia|].
  rewrite (u32_small (u32 w + size)) by lia.
  destruct (Z.gtb_spec (u32 w + size) sz); simpl; [by rewrite decide_False by lia | by rewrite decide_True by lia].
Qed.

Lemma fetchstr_loop_done k s :
  0 <= s → s + Z.of_nat k <= sz → fetchstr_loop k s n (K m d) = Done (c_str (ubytes m d s k)) (K m d).
Proof.
  revert s. induction k as [|k IH]; intros s H0 Hle; [done|]. cbn [fetchstr_loop].
  rewrite (bind_done _ _ _ _ _ _ (vloadM_done n m d s 1 _ (vload_user s 1 ltac:(lia) ltac:(lia)))).
  rewrite !ubytes_S. cbn [c_str ubytes seq fmap list_fmap head from_option]. unfold id.
  destruct (ubyte m d s =? 0); [done|]. rewrite (bind_done _ _ _ _ _ _ (IH (s + 1) ltac:(lia) ltac:(lia))). done.
Qed.
Lemma fetchstr_done addr :
  0 <= addr < 2 ^ 32 →
  fetchstr addr n (K m d)
  = Done (if decide (addr < sz) then c_str (ubytes m d addr (Z.to_nat (sz - addr))) else None) (K m d).
Proof.
  intros Ha. unfold fetchstr. rewrite (bind_done _ _ _ _ _ _ curproc_user). krun. fold sz.
  destruct (Z.geb_spec addr sz); [by rewrite decide_False by lia|]. rewrite decide_True by lia.
  apply fetchstr_loop_done; lia.
Qed.
End user.

Lemma c_str_Some l s : c_str l = Some s ↔ ∃ r, l = s ++ 0 :: r ∧ Forall (λ c, c ≠ 0) s.
Proof.
  revert s. induction l as [|c l IH]; intros s; simpl.
  - split; [done|]. intros (r & E & _). by destruct s.
  - destruct (Z.eqb_spec c 0) as [->|Hne].
    + split; [intros [= <-]; by exists l|]. intros (r & E & Hs). destruct s as [|x s]; [done|].
      injection E as <- _. by inversion Hs.
    + rewrite fmap_Some. split.
      * intros (s' & Hs' & ->). apply IH in Hs' as (r & -> & Hf). exists r. split; [done | by constructor].
      * intros (r & E & Hs). destruct s as [|x s]; [by injection E|]. injection E as <- ->.
        inversion Hs; subst. exists s. split; [|done]. apply IH. eauto.
Qed.
Lemma c_str_None l : c_str l = None ↔ Forall (λ c, c ≠ 0) l.
Proof.
  induction l as [|c l IH]; simpl; [done|]. destruct (Z.eqb_spec c 0) as [->|Hne].
  - split; [done|]. intros H. by inversion H.
  - rewrite fmap_None, IH. split; [by constructor | intros H; by inversion H].
Qed.

(** C35: argptr never faults and changes nothing.  It gives the address that is
    the k-th argument exactly when the argument itself is in the process's
    memory, the size is not negative and the whole buffer lies in the
    process's memory; every byte of such a buffer is mapped. *)
Theorem argptr_safe n m d i k size :
  user_ctx m d i → - 2 ^ 31 <= size < 2 ^ 31 →
  let sz := p_sz (d_procs d !!! i) in
  (∃ a, argptr k size n (K m d) = Done (Some a) (K m d)
     ∧ arg_addr d i k + 4 <= sz ∧ a = u32 (uword m d (arg_addr d i k)) ∧ 0 <= a < sz ∧ 0 <= size ∧ a + size <= sz
     ∧ ∀ j, 0 <= j < size → is_Some (translate (mm_mem (d_mm d)) (P2V (m_cr3 m)) (a + j) false))
  ∨ argptr k size n (K m d) = Done None (K m d)
     ∧ let a := u32 (uword m d (arg_addr d i k)) in
       ¬ (arg_addr d i k + 4 <= sz ∧ 0 <= size ∧ a < sz ∧ a + size <= sz).
Proof.
  intros Huc Hs sz. rewrite (argptr_done n m d i Huc k size Hs). unfold arg_word. fold sz.
  destruct (decide (arg_addr d i k + 4 <= sz)) as [Ha|Ha]; simpl.
  2:{ right. split; [done|]. tauto. }
  rewrite u32_s32. pose proof (u32_range (uword m d (arg_addr d i k))).
  destruct (decide _) as [Hb|Hb]; [left | right; split; [done | tauto]].
  eexists. split_and!; [done | done | done | lia | lia | lia | lia |].
  intros j Hj. apply (uc_map _ _ _ Huc). fold sz. lia.
Qed.

(** argstr never faults and changes nothing.  It succeeds exactly when the
    argument points to a string that ends in the process's memory, and then gives the
    bytes before the first NUL. *)
Theorem argstr_safe n m d i k :
  user_ctx m d i →
  let sz := p_sz (d_procs d !!! i) in
  let a := u32 (uword m d (arg_addr d i k)) in
  (∃ s r, argstr k n (K m d) = Done (Some s) (K m d)
     ∧ arg_addr d i k + 4 <= sz ∧ a < sz ∧ Forall (λ c, c ≠ 0) s
     ∧ ubytes m d a (Z.to_nat (sz - a)) = s ++ 0 :: r)
  ∨ argstr k n (K m d) = Done None (K m d)
     ∧ (arg_addr d i k + 4 > sz ∨ a >= sz ∨ Forall (λ c, c ≠ 0) (ubytes m d a (Z.to_nat (sz - a)))).
Proof.
  intros Huc sz a. unfold argstr. rewrite (bind_done _ _ _ _ _ _ (argint_done n m d i Huc k)).
  unfold arg_word. fold sz. destruct (decide (arg_addr d i k + 4 <= sz)) as [Ha|Ha]; [|right; split; [done | lia]].
  rewrite u32_s32. fold a. rewrite (fetchstr_done n m d i Huc a) by apply u32_range. fold sz.
  destruct (decide (a < sz)) as [Hb|Hb]; [|right; split; [done | lia]].
  destruct (c_str (ubytes m d a (Z.to_nat (sz - a)))) as [s|] eqn:E.
  - left. apply c_str_Some in E as (r & E & Hs). by exists s, r.
  - right. split; [done|]. right; right. by apply c_str_None.
Qed.

(** A process of one page. *)
Definition du : kdata :=
  dp small_pipe <| d_procs := alter (λ p, p <| p_sz := 4096 |>) 0%nat (d_procs (dp small_pipe)) |>.
Lemma user_ctx_du : user_ctx mp du 0.
Proof.
  split.
  - destruct (pu_run _ _ _ _ _ (pipe_user_dp small_pipe)) as (i & c & H). exists i, c. split; apply H.
  - by vm_compute.
  - intros va Hva. change (p_sz (d_procs du !!! 0%nat)) with 4096 in Hva.
    unfold translate, walk. rewrite (proj2 (Z.leb_gt _ _)) by (unfold KERNBASE; lia).
    rewrite PDX_eq, PTX_eq by lia. rewrite (Z.div_small va PGSIZE) by (unfold PGSIZE; lia).
    assert (load32 (mm_mem (d_mm du)) (P2V (m_cr3 mp) + 4 * (0 / 1024)) = 0x2007) as -> by by vm_compute.
    change (ctrue (Z.land 0x2007 PTE_P)) with true. cbn [fmap option_fmap option_map mbind option_bind].
    assert (load32 (mm_mem (d_mm du)) (P2V (PTE_ADDR 0x2007) + 4 * (0 mod 1024)) = 0x3007) as -> by by vm_compute.
    eexists. reflexivity.
Qed.
Lemma argptr_safe_witness : ∃ o, argptr 0 8 0%nat (K mp du) = Done o (K mp du).
Proof.
  destruct (argptr_safe 0 mp du 0 0 8 user_ctx_du) as [(a & H & _)|[H _]]; [lia | by eexists | by eexists].
Defined.
Lemma argstr_safe_witness : ∃ o, argstr 1 0%nat (K mp du) = Done o (K mp du).
Proof.
  destruct (argstr_safe 0 mp du 0 1 user_ctx_du) as [(s & r & H & _)|[H _]]; by eexists.
Defined.
