(* ===== verification/Trap.v ===== *)
(** * Trap: syscall.c's dispatch and trap.c *)

From S2P Require Import Prelude Memory Kstate Spinlock Kalloc Cprintf Vm Sched Sleeplock Bio Log Inode.
From S2P Require Import Console Fs Pipe File Proc Rtc Syscall Exec Sysfile.

Definition T_SYSCALL : Z := 64.
Definition T_IRQ0 : Z := 32.
Definition IRQ_TIMER : Z := 0.
Definition IRQ_KBD : Z := 1.
Definition IRQ_COM1 : Z := 4.
Definition IRQ_IDE : Z := 14.
Definition IRQ_SPURIOUS : Z := 31.
Definition SCHED_INTERVAL : Z := 1000 / 100.

Section trap.
Context `{Disk}.

(** The table [syscalls], by the numbers of syscall.h. *)
Definition syscalls (num : Z) : option (KM Z) :=
  if num <? 1 then None else
  [sys_fork; sys_exit; sys_wait; sys_pipe; sys_read; sys_kill; sys_exec; sys_fstat; sys_chdir; sys_dup;
   sys_getpid; sys_sbrk; sys_sleep; sys_uptime; sys_open; sys_write; sys_mknod; sys_unlink; sys_link;
   sys_mkdir; sys_close; sys_halt; sys_cps; sys_getppid; sys_getsz; sys_chpr; sys_getcount; sys_time;
   sys_utctime; sys_dup2] !! Z.to_nat (num - 1).

Definition syscall : KM unit :=
  cur ← curproc;
  v ← load_tf cur tf_eax;
  let num := s32 v in
  match syscalls num with
  | Some f =>
    i ← curproc; p ← get_proc i;
    cnt ← from_opt "sys_count out of range" (p_sys_count p !! Z.to_nat (num - 1));
    mod_proc i (λ p, p <| p_sys_count := <[Z.to_nat (num - 1) := s32 (cnt + 1)]> (p_sys_count p) |>) ;;
    r ← f;
    store_tf cur tf_eax r
  | None =>
    p ← get_proc cur;
    name ← from_opt "name without NUL" (c_str (p_name p));
    cprintf (cstring "%d %s: unknown sys call %d\n") [A_int (p_pid p); A_str (Some name); A_int num] ;;
    store_tf cur tf_eax (-1)
  end.

Definition killed (o : option nat) : KM bool :=
  match o with None => mret false | Some i => p ← get_proc i; mret (ctrue (p_killed p)) end.

(** The interrupts and faults; [cr2] is the faulting address. *)
Definition trap_switch (tf trapno cr2 : Z) : KM unit :=
  if trapno =? T_IRQ0 + IRQ_TIMER then
    c ← cpuid;
    when (c =? 0) (modd (λ d, d <| d_ticks := d_ticks d +u 1 |>) ;; wakeup Ch_ticks)
  else if trapno =? T_IRQ0 + IRQ_IDE then ideintr
  else if trapno =? T_IRQ0 + IRQ_IDE + 1 then mret tt
  else if trapno =? T_IRQ0 + IRQ_KBD then kbdintr
  else if trapno =? T_IRQ0 + IRQ_COM1 then uartintr
  else if (trapno =? T_IRQ0 + 7) || (trapno =? T_IRQ0 + IRQ_SPURIOUS) then
    c ← cpuid; cs ← load32M (tf + tf_cs); eip ← load32M (tf + tf_eip);
    cprintf (cstring "cpu%d: spurious interrupt at %x:%x\n") [A_int c; A_int (cs mod 2 ^ 16); A_int eip]
  else
    o ← myproc;
    cs ← load32M (tf + tf_cs);
    eip ← load32M (tf + tf_eip); err ← load32M (tf + tf_err);
    match o, Z.land cs 3 =? 0 with
    | Some i, false =>
      p ← get_proc i;
      name ← from_opt "name without NUL" (c_str (p_name p));
      c ← cpuid;
      cprintf (cstring "pid %d %s: trap %d err %d on cpu %d eip 0x%x addr 0x%x--kill proc\n")
        [A_int (p_pid p); A_str (Some name); A_int trapno; A_int err; A_int c; A_int eip; A_int cr2] ;;
      mod_proc i (λ p, p <| p_killed := 1 |>)
    | _, _ =>
      c ← cpuid;
      cprintf (cstring "unexpected trap %d from cpu %d eip %x (cr2=0x%x)\n")
        [A_int trapno; A_int c; A_int eip; A_int cr2] ;;
      panic "trap"
    end.

Definition trap (tf cr2 : Z) : KM unit :=
  trapno ← load32M (tf + tf_trapno);
  if trapno =? T_SYSCALL then
    i ← curproc; k ← killed (Some i);
    when k exit ;;
    i ← curproc; mod_proc i (λ p, p <| p_tf := tf |>) ;;
    syscall ;;
    i ← curproc; k ← killed (Some i);
    when k exit
  else
  trap_switch tf trapno cr2 ;;
  cs ← load32M (tf + tf_cs);
  let user := Z.land cs 3 =? DPL_USER in
  o ← myproc; k ← killed o;
  when (k && user) exit ;;
  o ← myproc;
  st ← match o with None => mret UNUSED | Some i => p ← get_proc i; mret (p_state p) end;
  ticks ← getd d_ticks;
  when (bool_decide (o ≠ None) && bool_decide (st = RUNNING) && (trapno =? T_IRQ0 + IRQ_TIMER)
        && (ticks mod SCHED_INTERVAL =? 0)) yield ;;
  o ← myproc; k ← killed o;
  when (k && user) exit.
End trap.
