(* ===== verification/Boot.v ===== *)
(** * Boot: the start of the kernel

    main.c with what it calls to set the machine up: the local APIC (lapic.c),
    the I/O APIC (ioapic.c), picirq.c, the serial port (uartinit), the segment
    and interrupt tables (seginit, tvinit, idtinit) and ideinit.  Device
    registers are accessed through Io, so that what the code programs is the
    history it leaves. *)

From S2P Require Import Prelude Memory Kstate Spinlock Kalloc Cprintf Vm Sched Sleeplock Bio Io Mp Ide IdePorts.
From S2P Require Import Log Inode Console Fs Pipe File Proc Trap.

(** traps.h *)
Definition IRQ_ERROR : Z := 19.

(** Addresses that the linker assigns, and the code of entryother.S. *)
Class Symbols := {
  vectors : Z → Z;               (* vectors.S: vectors[i] *)
  sym_idt : Z;                   (* &idt *)
  sym_gdt : nat → Z;             (* cpus[i].gdt *)
  sym_mpenter : Z;
  sym_entrypgdir : Z;
  entryother : list Z            (* _binary_entryother_start .. size *)}.

Section boot.
Context `{Devices}.

(** ** lapic.c *)

Definition ID : Z := 0x0020 / 4.
Definition VER : Z := 0x0030 / 4.
Definition TPR : Z := 0x0080 / 4.
Definition EOI : Z := 0x00B0 / 4.
Definition SVR : Z := 0x00F0 / 4.
Definition ENABLE : Z := 0x00000100.
Definition ESR : Z := 0x0280 / 4.
Definition ICRLO : Z := 0x0300 / 4.
Definition INIT : Z := 0x00000500.
Definition STARTUP : Z := 0x00000600.
Definition DELIVS : Z := 0x00001000.
Definition ASSERT : Z := 0x00004000.
Definition LEVEL : Z := 0x00008000.
Definition BCAST : Z := 0x00080000.
Definition ICRHI : Z := 0x0310 / 4.
Definition TIMER : Z := 0x0320 / 4.
Definition X1 : Z := 0x0000000B.
Definition PERIODIC : Z := 0x00020000.
Definition PCINT : Z := 0x0340 / 4.
Definition LINT0 : Z := 0x0350 / 4.
Definition LINT1 : Z := 0x0360 / 4.
Definition ERROR : Z := 0x0370 / 4.
Definition MASKED : Z := 0x00010000.
Definition TICR : Z := 0x0380 / 4.
Definition TDCR : Z := 0x03E0 / 4.

Definition lapic_read (index : Z) : BM Z :=
  a ← getb b_lapic; mmio_read (a + 4 * index).
Definition lapicw (index value : Z) : BM unit :=
  a ← getb b_lapic;
  mmio_write (a + 4 * index) value ;;
  _ ← mmio_read (a + 4 * ID); mret tt.

(** [while(lapic[ICRLO] & DELIVS);] *)
Fixpoint delivs_loop (fuel : nat) : BM unit :=
  match fuel with
  | O => out_of_fuel
  | S fuel' =>
    v ← lapic_read ICRLO;
    if ctrue (Z.land v DELIVS) then delivs_loop fuel' else mret tt
  end.
Definition lapicinit : BM unit :=
  a ← getb b_lapic;
  if negb (ctrue a) then mret tt else
  lapicw SVR (Z.lor ENABLE (T_IRQ0 + IRQ_SPURIOUS)) ;;
  lapicw TDCR X1 ;;
  lapicw TIMER (Z.lor PERIODIC (T_IRQ0 + IRQ_TIMER)) ;;
  lapicw TICR 1000000 ;;
  lapicw LINT0 MASKED ;;
  lapicw LINT1 MASKED ;;
  v ← lapic_read VER;
  when (Z.land (Z.shiftr v 16) 0xFF >=? 4) (lapicw PCINT MASKED) ;;
  lapicw ERROR (T_IRQ0 + IRQ_ERROR) ;;
  lapicw ESR 0 ;;
  lapicw ESR 0 ;;
  lapicw EOI 0 ;;
  lapicw ICRHI 0 ;;
  lapicw ICRLO (Z.lor (Z.lor BCAST INIT) LEVEL) ;;
  with_fuel delivs_loop ;;
  lapicw TPR 0.

Definition lapiceoi : BM unit :=
  a ← getb b_lapic; when (ctrue a) (lapicw EOI 0).

Definition CMOS_PORT : Z := 0x70.
(** microdelay does nothing. *)
Definition microdelay (us : Z) : BM unit := mret tt.
Definition lapicstartap (apicid addr : Z) : BM unit :=
  outb CMOS_PORT 0xF ;;
  outb (CMOS_PORT + 1) 0x0A ;;
  let wrv := P2V (Z.lor (Z.shiftl 0x40 4) 0x67) in
  kern (mod_mem (λ m, store16 m wrv 0)) ;;
  kern (mod_mem (λ m, store16 m (wrv + 2) (Z.shiftr addr 4))) ;;
  lapicw ICRHI (Z.shiftl apicid 24) ;;
  lapicw ICRLO (Z.lor (Z.lor INIT LEVEL) ASSERT) ;;
  microdelay 200 ;;
  lapicw ICRLO (Z.lor INIT LEVEL) ;;
  microdelay 100 ;;
  forM (seqZ 0 2) (λ _,
    lapicw ICRHI (Z.shiftl apicid 24) ;;
    lapicw ICRLO (Z.lor STARTUP (Z.shiftr addr 12)) ;;
    microdelay 200).

(** ** ioapic.c *)

Definition IOAPIC : Z := 0xFEC00000.
Definition REG_ID : Z := 0x00.
Definition REG_VER : Z := 0x01.
Definition REG_TABLE : Z := 0x10.
Definition INT_DISABLED : Z := 0x00010000.

(** struct ioapic: reg at 0, data at 16 *)
Definition ioapicread (reg : Z) : BM Z :=
  a ← getb b_ioapic;
  mmio_write a reg ;;
  mmio_read (a + 16).
Definition ioapicwrite (reg data : Z) : BM unit :=
  a ← getb b_ioapic;
  mmio_write a reg ;;
  mmio_write (a + 16) data.

Definition ioapicinit : BM unit :=
  modb (λ b, b <| b_ioapic := IOAPIC |>) ;;
  v ← ioapicread REG_VER;
  let maxintr := Z.land (Z.shiftr v 16) 0xFF in
  v ← ioapicread REG_ID;
  let id := Z.shiftr v 24 in
  ioapicid ← getb b_ioapicid;
  when (negb (id =? ioapicid))
    (kern (cprintf (cstring "ioapicinit: id isn't equal to ioapicid; not a MP\n") [])) ;;
  forM (seqZ 0 (maxintr + 1)) (λ i,
    ioapicwrite (REG_TABLE + 2 * i) (Z.lor INT_DISABLED (T_IRQ0 + i)) ;;
    ioapicwrite (REG_TABLE + 2 * i + 1) 0).

Definition ioapicenable (irq cpunum : Z) : BM unit :=
  ioapicwrite (REG_TABLE + 2 * irq) (T_IRQ0 + irq) ;;
  ioapicwrite (REG_TABLE + 2 * irq + 1) (Z.shiftl cpunum 24).

(** ** picirq.c *)

Definition IO_PIC1 : Z := 0x20.
Definition IO_PIC2 : Z := 0xA0.
Definition picinit : BM unit :=
  outb (IO_PIC1 + 1) 0xFF ;;
  outb (IO_PIC2 + 1) 0xFF.

(** ** uart.c *)

Definition COM1 : Z := 0x3f8.
Definition uartinit : BM unit :=
  outb (COM1 + 2) 0 ;;
  outb (COM1 + 3) 0x80 ;;
  outb (COM1 + 0) (115200 / 9600) ;;
  outb (COM1 + 1) 0 ;;
  outb (COM1 + 3) 0x03 ;;
  outb (COM1 + 4) 0 ;;
  outb (COM1 + 1) 0x01 ;;
  v ← inb (COM1 + 5);
  if v =? 0xFF then mret tt else
  kern (mod_cons (λ cn, cn <| cn_uart := 1 |>)) ;;
  _ ← inb (COM1 + 2);
  _ ← inb (COM1 + 0);
  ioapicenable IRQ_COM1 0 ;;
  kern (forM (cstring "xv6...\n") uartputc).

(** consoleinit, with the keyboard's interrupt *)
Definition consoleinit_ : BM unit :=
  kern consoleinit ;;
  ioapicenable IRQ_KBD 0.

(** ** ide.c: ideinit *)

(** [for(i=0; i<1000; i++) if(inb(0x1f7) != 0)] *)
Fixpoint disk1_loop (k : nat) : BM unit :=
  match k with
  | O => mret tt
  | S k' =>
    v ← inb 0x1f7;
    if ctrue v then kern (mod_ide (λ x, x <| ide_havedisk1 := 1 |>)) else disk1_loop k'
  end.
Definition ideinit_ : BM unit :=
  kern (initlock L_ide "ide") ;;
  ncpu ← getb b_ncpu;
  ioapicenable IRQ_IDE (Z.of_nat ncpu - 1) ;;
  _ ← ports.idewait false;
  outb 0x1f6 (Z.lor 0xe0 (Z.shiftl 1 4)) ;;
  disk1_loop 1000 ;;
  outb 0x1f6 (Z.lor 0xe0 (Z.shiftl 0 4)).

Context `{Symbols}.

(** ** Segments and traps *)

Definition NSEGS : nat := 6.
(** lgdt, lidt: the limit and the address in the three halfwords *)
Definition lgdt (p size : Z) : BM unit := modb (λ b, b <| b_gdtr := (u16 (size - 1), u32 p) |>).
Definition lidt (p size : Z) : BM unit := modb (λ b, b <| b_idtr := (u16 (size - 1), u32 p) |>).

Definition set_gdt (c : nat) (i : Z) (d : segdesc) : BM unit :=
  modb (λ b, b <| b_gdt := alter (insert (Z.to_nat i) d) c (b_gdt b) |>).
Definition seginit : BM unit :=
  i ← kern cpuid;
  let c := Z.to_nat i in
  set_gdt c SEG_KCODE (SEG (Z.lor STA_X STA_R) 0 0xffffffff 0) ;;
  set_gdt c SEG_KDATA (SEG STA_W 0 0xffffffff 0) ;;
  set_gdt c SEG_UCODE (SEG (Z.lor STA_X STA_R) 0 0xffffffff DPL_USER) ;;
  set_gdt c SEG_UDATA (SEG STA_W 0 0xffffffff DPL_USER) ;;
  lgdt (sym_gdt c) (8 * Z.of_nat NSEGS).

Definition set_idt (i : Z) (g : gatedesc) : BM unit :=
  modb (λ b, b <| b_idt := <[Z.to_nat i := g]> (b_idt b) |>).
Definition tvinit : BM unit :=
  forM (seqZ 0 256) (λ i, set_idt i (SETGATE false (Z.shiftl SEG_KCODE 3) (vectors i) 0)) ;;
  set_idt T_SYSCALL (SETGATE true (Z.shiftl SEG_KCODE 3) (vectors T_SYSCALL) DPL_USER).
Definition idtinit : BM unit := lidt sym_idt (8 * 256).

(** ** main.c *)

(** Common set-up; [k] rounds of the scheduler, which does not return. *)
Definition mpmain (k : nat) : BM unit :=
  i ← kern cpuid; j ← kern cpuid;
  kern (cprintf (cstring "cpu%d: starting %d\n") [A_int j; A_int i]) ;;
  idtinit ;;
  c ← kern mycpu; kern (mod_cpu c (λ cp, cp <| c_started := 1 |>)) ;;
  kern (scheduler k).
Definition mpenter (k : nat) : BM unit :=
  kern switchkvm ;;
  seginit ;;
  lapicinit ;;
  mpmain k.

(** [while(c->started == 0);] *)
Fixpoint started_loop (c fuel : nat) (h : hst bootst) : comp boot_wait (hst bootst) unit :=
  if negb (c_started (b_cpus (h_s h) !!! c) =? 0) then Done tt h
  else match fuel with
       | O => NoFuel
       | S fuel' => Block (W_started c) h (started_loop c fuel')
       end.
Definition wait_started (c : nat) : BM unit := λ n h, started_loop c n h.

(** The body of the loop over the CPUs. *)
Definition startother (code : Z) (c : nat) : BM unit :=
  me ← kern mycpu;
  if (c =? me)%nat then mret tt else
  stack ← kern kalloc;
  kern (mod_mem (λ m, store32 m (code - 4) (stack +u KSTACKSIZE))) ;;
  kern (mod_mem (λ m, store32 m (code - 8) sym_mpenter)) ;;
  kern (mod_mem (λ m, store32 m (code - 12) (V2P sym_entrypgdir))) ;;
  cp ← kern (get_cpu c);
  lapicstartap (c_apicid cp) (V2P code) ;;
  wait_started c.
Definition startothers : BM unit :=
  let code := P2V 0x7000 in
  kern (mod_mem (λ m, store_bytes m code entryother)) ;;
  ncpu ← getb b_ncpu;
  forM (seq 0 ncpu) (startother code).

Section main.
Context `{Disk}.
Definition main (k : nat) : BM unit :=
  im ← getb (λ b, d_im (kd (bk b)));
  kern (kinit1 (im_end im) (P2V (4 * 1024 * 1024))) ;;
  kern kvmalloc ;;
  mpinit ;;
  lapicinit ;;
  seginit ;;
  picinit ;;
  ioapicinit ;;
  consoleinit_ ;;
  uartinit ;;
  kern pinit ;;
  tvinit ;;
  kern binit ;;
  kern fileinit ;;
  ideinit_ ;;
  startothers ;;
  kern (kinit2 (P2V (4 * 1024 * 1024)) (P2V PHYSTOP)) ;;
  kern userinit ;;
  mpmain k.
End main.

(** The boot page table. *)
Definition PTE_PS : Z := 0x080.
Definition entrypgdir : list Z :=
  let e := Z.lor (Z.lor (Z.lor 0 PTE_P) PTE_W) PTE_PS in
  <[Z.to_nat (Z.shiftr KERNBASE PDXSHIFT) := e]> (<[0%nat := e]> (replicate (Z.to_nat NPDENTRIES) 0)).
End boot.
