(* ===== verification/BootFacts.v ===== *)
(** * BootFacts: what the start-up code leaves behind

    The interrupt and segment tables as the processor decodes them, the
    registers of the I/O APIC as its history of accesses sets them, and the
    state in which each of the other processors is started. *)

From S2P Require Import Prelude Memory Kstate Spinlock Kalloc Cprintf Vm Sched Sleeplock Bio Io Mp Ide IdePorts.
From S2P Require Import Log Inode Console Fs Pipe File Proc Trap Boot.

(** ** Descriptors *)

(** Field [k] of a packed structure. *)
Lemma bits_field (fs : list (Z * Z)) (k : nat) w v :
  fs !! k = Some (w, v) → forallb (λ p, 0 <=? p.1) fs = true →
  bits (pack fs) (foldr (λ p, Z.add p.1) 0 (take k fs)) w = v mod 2 ^ w.
Proof.
  intros Hk Hf. assert (∀ p, p ∈ fs → 0 <= p.1) as Hp.
  { intros p Hp. apply Z.leb_le. apply list_elem_of_In in Hp. exact (proj1 (forallb_forall _ _) Hf p Hp). }
  rewrite <- (take_drop_middle fs k (w, v) Hk) at 1. apply bits_pack.
  - apply Forall_forall. intros p Hpt. apply Hp. by eapply elem_of_take in Hpt as (i & Hi & _); eapply list_elem_of_lookup_2.
  - apply (Hp (w, v)). by eapply list_elem_of_lookup_2.
Qed.

Lemma setgate_decode t sel off d :
  is_u32 off → 0 <= sel < 2 ^ 16 → 0 <= d < 4 →
  let x := gate_bits (SETGATE t sel off d) in
  cpu_handler x = off ∧ cpu_selector x = sel ∧ cpu_type x = (if t then STS_TG32 else STS_IG32)
  ∧ cpu_app x = 0 ∧ cpu_dpl x = d ∧ cpu_present x = 1.
Proof.
  intros Ho Hs Hd x. set (g := SETGATE t sel off d) in x. unfold is_u32 in Ho.
  pose (fs := [(16, off_15_0 g); (16, gd_cs g); (5, gd_args g); (3, gd_rsv1 g); (4, gd_type g); (1, gd_s g);
      (2, gd_dpl g); (1, gd_p g); (16, off_31_16 g)]).
  pose proof (bits_field fs) as Hb.
  assert (bits x 0 16 = off_15_0 g mod 2 ^ 16) as E1 by exact (Hb 0%nat _ _ eq_refl eq_refl).
  assert (bits x 16 16 = gd_cs g mod 2 ^ 16) as E2 by exact (Hb 1%nat _ _ eq_refl eq_refl).
  assert (bits x 40 4 = gd_type g mod 2 ^ 4) as E3 by exact (Hb 4%nat _ _ eq_refl eq_refl).
  assert (bits x 44 1 = gd_s g mod 2 ^ 1) as E4 by exact (Hb 5%nat _ _ eq_refl eq_refl).
  assert (bits x 45 2 = gd_dpl g mod 2 ^ 2) as E5 by exact (Hb 6%nat _ _ eq_refl eq_refl).
  assert (bits x 47 1 = gd_p g mod 2 ^ 1) as E6 by exact (Hb 7%nat _ _ eq_refl eq_refl).
  assert (bits x 48 16 = off_31_16 g mod 2 ^ 16) as E7 by exact (Hb 8%nat _ _ eq_refl eq_refl).
  unfold cpu_handler, cpu_selector, cpu_type, cpu_app, cpu_dpl, cpu_present. rewrite E1, E2, E3, E4, E5, E6, E7.
  subst g. cbn [off_15_0 gd_cs gd_type gd_s gd_dpl gd_p off_31_16 SETGATE].
  change 0xffff with (Z.ones 16). rewrite Z.land_ones, Z.shiftr_div_pow2, Z.mod_mod by lia.
  rewrite (Z.mod_small (off / 2 ^ 16)) by (split; [apply Z.div_pos; lia | apply Z.div_lt_upper_bound; lia]).
  rewrite (Z.mod_small sel), (Z.mod_small d) by lia. pose proof (Z.div_mod off (2 ^ 16) ltac:(done)).
  split_and!; try done; [lia|]. by destruct t.
Qed.

Section tables.
Context `{Devices} `{Symbols}.
Implicit Types (b : bootst) (h : list access).

(** ** The interrupt table *)

Lemma set_idts n f l : ∀ b h,
  forM l (λ i, set_idt i (f i)) n (Io.H b h)
  = Done tt (Io.H (b <| b_idt := foldl (λ t i, <[Z.to_nat i := f i]> t) (b_idt b) l |>) h).
Proof.
  induction l as [|i l IH]; intros b h; simpl; [by destruct b|].
  rewrite (bind_done _ _ _ _ tt (Io.H (b <| b_idt := <[Z.to_nat i := f i]> (b_idt b) |>) h)) by done.
  by rewrite IH.
Qed.
Lemma inserts_lookup {A} (f : Z → A) l : ∀ (t : list A) i,
  (∀ j, j ∈ l → 0 <= j) → 0 <= i → Z.to_nat i ∈ Z.to_nat <$> l → (Z.to_nat i < length t)%nat →
  foldl (λ t i, <[Z.to_nat i := f i]> t) t l !! Z.to_nat i = Some (f i).
Proof.
  induction l as [|x l IH] using rev_ind; intros t i Hl Hi Hin Ht; [by apply elem_of_nil in Hin|].
  rewrite foldl_app. simpl. assert (length (foldl (λ t i, <[Z.to_nat i := f i]> t) t l) = length t) as Hlen.
  { clear. revert t. induction l as [|y l IH]; intros t; simpl; [done|]. by rewrite IH, length_insert. }
  destruct (decide (x = i)) as [->|Hne].
  - apply list_lookup_insert_eq. by rewrite Hlen.
  - assert (Z.to_nat x ≠ Z.to_nat i) by (pose proof (Hl x ltac:(set_solver)); lia).
    rewrite list_lookup_insert_ne by done. apply IH; [set_solver | done | | done].
    rewrite fmap_app in Hin. set_solver.
Qed.

(** What the processor finds at an interrupt or trap [i]. *)
Definition gate_at (b : bootst) (i : Z) : Z := gate_bits (b_idt b !!! Z.to_nat i).
Lemma tvinit_done n b h :
  length (b_idt b) = 256%nat → (∀ i, is_u32 (vectors i)) →
  ∃ b', tvinit n (Io.H b h) = Done tt (Io.H b' h)
    ∧ ∀ i, 0 <= i < 256 →
      cpu_handler (gate_at b' i) = vectors i ∧ cpu_selector (gate_at b' i) = Z.shiftl SEG_KCODE 3
      ∧ cpu_type (gate_at b' i) = (if i =? T_SYSCALL then STS_TG32 else STS_IG32)
      ∧ cpu_app (gate_at b' i) = 0
      ∧ cpu_dpl (gate_at b' i) = (if i =? T_SYSCALL then DPL_USER else 0) ∧ cpu_present (gate_at b' i) = 1.
Proof.
  intros Hl Hv. unfold tvinit. rewrite (bind_done _ _ _ _ _ _ (set_idts n _ _ b h)).
  set (f := λ i, SETGATE false (Z.shiftl SEG_KCODE 3) (vectors i) 0). set (t := foldl _ _ _).
  eexists. split; [reflexivity|]. intros i Hi. unfold gate_at. cbn [h_s b_idt set_b_idt set_field].
  assert (t !! Z.to_nat i = Some (f i)) as Ht.
  { apply (inserts_lookup f); [|lia| |rewrite Hl; lia].
    - intros j Hj%elem_of_seqZ. lia.
    - apply list_elem_of_fmap. exists i. split; [done|]. apply elem_of_seqZ. lia. }
  assert (length t = 256%nat) as Hlen.
  { subst t. rewrite <- Hl. generalize (seqZ 0 256) (b_idt b). clear. intros l. induction l as [|y l IH]; intros t; simpl; [done|].
    by rewrite IH, length_insert. }
  destruct (i =? T_SYSCALL) eqn:E.
  - apply Z.eqb_eq in E. subst i. rewrite (lookup_total_Some _ (Z.to_nat T_SYSCALL) (SETGATE true (Z.shiftl SEG_KCODE 3) (vectors T_SYSCALL) DPL_USER)).
    2:{ apply list_lookup_insert_eq. rewrite Hlen. unfold T_SYSCALL. lia. }
    apply setgate_decode; [apply Hv | done | done].
  - apply Z.eqb_neq in E. rewrite (lookup_total_Some _ (Z.to_nat i) (f i)).
    2:{ rewrite list_lookup_insert_ne; [done|]. unfold T_SYSCALL in *. lia. }
    apply setgate_decode; [apply Hv | done | done].
Qed.

(** ** The segments *)

Definition seg_at (b : bootst) (c : nat) (i : Z) : Z :=
  seg_bits ((b_gdt b !!! c) !!! Z.to_nat i).
(** A flat segment: all addresses, of the given type and privilege. *)
Definition flat (x type dpl : Z) : Prop :=
  cpu_base x = 0 ∧ cpu_limit x = 0xffffffff ∧ cpu_type x = type ∧ cpu_app x = 1
  ∧ cpu_dpl x = dpl ∧ cpu_present x = 1.

Lemma seginit_done n b h c :
  mycpu n (bk b) = Done c (bk b) → (∃ t, b_gdt b !! c = Some t ∧ length t = NSEGS) →
  ∃ b', seginit n (Io.H b h) = Done tt (Io.H b' h)
    ∧ flat (seg_at b' c SEG_KCODE) (Z.lor STA_X STA_R) 0 ∧ flat (seg_at b' c SEG_KDATA) STA_W 0
    ∧ flat (seg_at b' c SEG_UCODE) (Z.lor STA_X STA_R) DPL_USER ∧ flat (seg_at b' c SEG_UDATA) STA_W DPL_USER
    ∧ b_gdtr b' = (47, u32 (sym_gdt c)).
Proof.
  intros Hc (t & Ht & Hlen). destruct t as [|x0 [|x1 [|x2 [|x3 [|x4 [|x5 []]]]]]]; try discriminate Hlen.
  unfold seginit, cpuid. erewrite bind_done.
  2:{ apply kern_done. rewrite (bind_done _ _ _ _ _ _ Hc). done. }
  rewrite Nat2Z.id. replace (b <| bk := bk b |>) with b by by destruct b.
  eexists. split; [reflexivity|]. unfold seg_at. simpl b_gdt.
  match goal with |- context [alter ?f4 c (alter ?f3 c (alter ?f2 c (alter ?f1 c (b_gdt b))))] =>
    set (g := alter f4 c (alter f3 c (alter f2 c (alter f1 c (b_gdt b))))) end.
  assert (g !!! c = [x0; SEG (Z.lor STA_X STA_R) 0 0xffffffff 0; SEG STA_W 0 0xffffffff 0;
    SEG (Z.lor STA_X STA_R) 0 0xffffffff DPL_USER; SEG STA_W 0 0xffffffff DPL_USER; x5]) as ->.
  { subst g. apply lookup_total_Some. rewrite !list_lookup_alter_eq, Ht. reflexivity. }
  do 4 (split; [unfold flat; split_and!; vm_compute; reflexivity|]). reflexivity.
Qed.

(** C27: the tables that tvinit and seginit build mean to the processor what they
    should.  Interrupt or trap i, for every i below 256, enters the kernel's
    code segment at vectors[i]; only the system call gate may be used by user
    code, and only it leaves interrupts on.  The four segments cover all
    addresses, the user's with user privilege, the kernel's without. *)
Theorem protection_tables n b h c :
  length (b_idt b) = 256%nat → (∀ i, is_u32 (vectors i)) →
  mycpu n (bk b) = Done c (bk b) → (∃ t, b_gdt b !! c = Some t ∧ length t = NSEGS) →
  (∃ b', tvinit n (Io.H b h) = Done tt (Io.H b' h)
     ∧ ∀ i, 0 <= i < 256 →
       cpu_handler (gate_at b' i) = vectors i ∧ cpu_selector (gate_at b' i) = Z.shiftl SEG_KCODE 3
       ∧ cpu_type (gate_at b' i) = (if i =? T_SYSCALL then STS_TG32 else STS_IG32)
       ∧ cpu_app (gate_at b' i) = 0
       ∧ cpu_dpl (gate_at b' i) = (if i =? T_SYSCALL then DPL_USER else 0) ∧ cpu_present (gate_at b' i) = 1)
  ∧ ∃ b', seginit n (Io.H b h) = Done tt (Io.H b' h)
    ∧ flat (seg_at b' c SEG_KCODE) (Z.lor STA_X STA_R) 0 ∧ flat (seg_at b' c SEG_KDATA) STA_W 0
    ∧ flat (seg_at b' c SEG_UCODE) (Z.lor STA_X STA_R) DPL_USER ∧ flat (seg_at b' c SEG_UDATA) STA_W DPL_USER
    ∧ b_gdtr b' = (47, u32 (sym_gdt c)).
Proof. intros Hl Hv Hc Hg. split; [by apply tvinit_done | by apply seginit_done]. Qed.
End tables.

(** ** Starting the other processors *)

(** The commands sent with the interrupt command register of the local APIC at
    [a], the last one first: the destination and the low word. *)
Fixpoint icr_hi (a : Z) (h : list access) : Z :=
  match h with
  | [] => 0
  | Store x v :: h' => if x =? a + 4 * ICRHI then v else icr_hi a h'
  | _ :: h' => icr_hi a h'
  end.
Fixpoint icr_cmds (a : Z) (h : list access) : list (Z * Z) :=
  match h with
  | [] => []
  | Store x v :: h' =>
    if x =? a + 4 * ICRLO then (Z.shiftr (icr_hi a h') 24, v) :: icr_cmds a h' else icr_cmds a h'
  | _ :: h' => icr_cmds a h'
  end.

Definition boot_code : Z := P2V 0x7000.
(** The universal start-up algorithm for the processor with this id, at 0x7000. *)
Definition start_cmds (id : Z) : list (Z * Z) :=
  [(id, Z.lor STARTUP 7); (id, Z.lor STARTUP 7); (id, Z.lor INIT LEVEL); (id, Z.lor (Z.lor INIT LEVEL) ASSERT)].

Definition with_mem (m : mem) (b : bootst) : bootst :=
  b <| bk := bk b <| kd := kd (bk b) <| d_mm := d_mm (kd (bk b)) <| mm_mem := m |> |> |> |>.
Definition warm_reset (m : mem) : mem :=
  store16 (store16 m (P2V 0x467) 0) (P2V 0x467 + 2) (Z.shiftr 0x7000 4).

Section starting.
Context `{Devices} `{Symbols}.
Implicit Types (b : bootst) (h : list access).

Lemma bind_mret_h {A B} (a : A) (f : A → BM B) n x : (mret a ≫= f) n x = f a n x.
Proof. done. Qed.
(** The history after a write to a register of the local APIC. *)
Definition after_lapicw (a i v : Z) (h : list access) : list access :=
  let h' := Store (a + 4 * i) (u32 v) :: h in Load (a + 4 * ID) (u32 (dev_load h' (a + 4 * ID))) :: h'.
Lemma lapicw_done n b h i v : lapicw i v n (Io.H b h) = Done tt (Io.H b (after_lapicw (b_lapic b) i v h)).
Proof. reflexivity. Qed.
Lemma icr_lo a v h :
  icr_cmds a (after_lapicw a ICRLO v h) = (Z.shiftr (icr_hi a h) 24, u32 v) :: icr_cmds a h
  ∧ icr_hi a (after_lapicw a ICRLO v h) = icr_hi a h.
Proof.
  unfold after_lapicw. cbn [icr_cmds icr_hi]. rewrite Z.eqb_refl.
  rewrite (proj2 (Z.eqb_neq (a + 4 * ICRLO) (a + 4 * ICRHI))) by (change (4 * ICRLO) with 768; change (4 * ICRHI) with 784; lia).
  done.
Qed.
Lemma icr_hi_set a v h :
  icr_cmds a (after_lapicw a ICRHI v h) = icr_cmds a h ∧ icr_hi a (after_lapicw a ICRHI v h) = u32 v.
Proof.
  unfold after_lapicw. cbn [icr_cmds icr_hi]. rewrite Z.eqb_refl.
  rewrite (proj2 (Z.eqb_neq (a + 4 * ICRHI) (a + 4 * ICRLO))) by (change (4 * ICRLO) with 768; change (4 * ICRHI) with 784; lia).
  done.
Qed.

Lemma lapicstartap_done n b h id :
  0 <= id < 256 →
  ∃ h', lapicstartap id (V2P boot_code) n (Io.H b h) = Done tt (Io.H (with_mem (warm_reset (boot_mem b)) b) h')
    ∧ icr_cmds (b_lapic b) h' = start_cmds id ++ icr_cmds (b_lapic b) h.
Proof.
  intros Hid. unfold lapicstartap. cbv zeta.
  do 2 rewrite (bind_done _ _ _ _ _ _ (outb_done n b _ _ _)).
  erewrite bind_done by (by apply kern_done). erewrite bind_done by (by apply kern_done).
  change (V2P boot_code) with 0x7000. set (b1 := set_field bk _ (set_field bk _ b)).
  change b1 with (with_mem (warm_reset (boot_mem b)) b). clear b1. set (b1 := with_mem _ b).
  change (b_lapic b) with (b_lapic b1). unfold microdelay.
  do 2 rewrite (bind_done _ _ _ _ _ _ (lapicw_done n b1 _ _ _)). rewrite bind_mret_h.
  rewrite (bind_done _ _ _ _ _ _ (lapicw_done n b1 _ _ _)), bind_mret_h.
  change (seqZ 0 2) with [0; 1]. cbn [forM].
  assert (∀ h, (lapicw ICRHI (Z.shiftl id 24) ;; lapicw ICRLO (Z.lor STARTUP (Z.shiftr 28672 12)) ;; mret tt : BM unit)
    n (Io.H b1 h) = Done tt (Io.H b1 (after_lapicw (b_lapic b1) ICRLO (Z.lor STARTUP 7)
      (after_lapicw (b_lapic b1) ICRHI (Z.shiftl id 24) h)))) as Hs by reflexivity.
  do 2 rewrite (bind_done _ _ _ _ _ _ (Hs _)). clear Hs. eexists. split; [reflexivity|].
  assert (Z.shiftr (u32 (Z.shiftl id 24)) 24 = id) as Hr.
  { rewrite Z.shiftl_mul_pow2, u32_small, Z.shiftr_div_pow2, Z.div_mul by lia. done. }
  rewrite (proj1 (icr_lo _ _ _)), (proj1 (icr_hi_set _ _ _)), (proj2 (icr_hi_set _ _ _)).
  rewrite (proj1 (icr_lo _ _ _)), (proj1 (icr_hi_set _ _ _)), (proj2 (icr_hi_set _ _ _)).
  rewrite (proj1 (icr_lo _ _ _)), (proj1 (icr_lo _ _ _)), (proj2 (icr_lo _ _ _)).
  rewrite (proj1 (icr_hi_set _ _ _)), (proj2 (icr_hi_set _ _ _)), Hr. reflexivity.
Qed.

(** What entryother.S needs to bring processor [c] up: its code at 0x7000, below
    it the stack, the function to enter and the page table, the warm reset
    vector, and the start-up commands sent to it. *)
Record ap_ready (c : nat) (b : bootst) (h : list access) (page : Z) : Prop := {
  ap_code : mem_has (boot_mem b) boot_code entryother;
  ap_page : page_ok (d_im (kd (bk b))) page;
  ap_stack : load32 (boot_mem b) (boot_code - 4) = page + KSTACKSIZE;
  ap_entry : load32 (boot_mem b) (boot_code - 8) = u32 sym_mpenter;
  ap_pgdir : load32 (boot_mem b) (boot_code - 12) = V2P sym_entrypgdir;
  ap_reset : load32 (boot_mem b) (P2V 0x467) = 0x700 * 2 ^ 16;
  ap_cmds : ∃ l, icr_cmds (b_lapic b) h = start_cmds (c_apicid (b_cpus b !!! c)) ++ l }.

(** What it does then: it sets its own started, and apart from that works on its
    stack, the locks, the tables and the devices. *)
Record came_up (c : nat) (page : Z) (b b' : bootst) : Prop := {
  cu_started : c_started (b_cpus b' !!! c) ≠ 0;
  cu_others j : c_started (b_cpus b !!! j) ≠ 0 → c_started (b_cpus b' !!! j) ≠ 0;
  cu_ids : c_apicid <$> b_cpus b' = c_apicid <$> b_cpus b;
  cu_ncpu : b_ncpu b' = b_ncpu b;
  cu_eflags : m_eflags (km (bk b')) = m_eflags (km (bk b));
  cu_lapic : m_lapic (km (bk b')) = m_lapic (km (bk b));
  cu_im : d_im (kd (bk b')) = d_im (kd (bk b));
  cu_free : mm_freelist (d_mm (kd (bk b'))) = mm_freelist (d_mm (kd (bk b)));
  cu_lock : mm_use_lock (d_mm (kd (bk b'))) = mm_use_lock (d_mm (kd (bk b)));
  cu_mem a : ¬ (page <= a < page + PGSIZE) → boot_mem b' a = boot_mem b a }.

(** A processor comes up if it was started as it should be; otherwise, anything
    may happen. *)
Definition ap_answers (w : boot_wait) (x x' : hst bootst) : Prop :=
  match w with
  | W_started c => ∀ page, ap_ready c (h_s x) (h_io x) page → came_up c page (h_s x) (h_s x')
  | W_kernel _ => True
  end.

(** The machine while [me] starts the others: those below [k] are up. *)
Record starting_inv (me N : nat) (ids : list Z) (l : list Z) (k : nat) (b : bootst) : Prop := {
  st_if : Z.land (m_eflags (km (bk b))) FL_IF = 0;
  st_me : find_cpu (lapicid_of (km (bk b))) (b_cpus b) (b_ncpu b) = Some me;
  st_ncpu : b_ncpu b = N;
  st_ids : c_apicid <$> b_cpus b = ids;
  st_lock : mm_use_lock (d_mm (kd (bk b))) = 0;
  st_im : P2V 0x100000 <= im_end (d_im (kd (bk b)));
  st_free : kmem_ok (kd (bk b)) (drop (if (me <? k)%nat then k - 1 else k)%nat l);
  st_code : mem_has (boot_mem b) boot_code entryother;
  st_up j : (j < k)%nat → j ≠ me → c_started (b_cpus b !!! j) ≠ 0 }.

Lemma find_cpu_ids a cs cs' n :
  c_apicid <$> cs = c_apicid <$> cs' → find_cpu a cs n = find_cpu a cs' n.
Proof.
  revert cs' n. induction cs as [|c cs IH]; intros [|c' cs'] [|n] Hc; simpl in *; try done.
  injection Hc as Hc1 Hc2. rewrite Hc1. destruct (_ =? a); [done|]. by rewrite (IH cs').
Qed.
Lemma find_cpu_below a cs N me : find_cpu a cs N = Some me → (me < N)%nat.
Proof.
  revert cs me. induction N as [|N IH]; intros [|c cs] me; simpl; try done.
  destruct (_ =? _); [intros [= <-]; lia|]. intros (m' & Hm & ->)%fmap_Some. apply IH in Hm. lia.
Qed.
Lemma mycpu_at me N ids l k b n : starting_inv me N ids l k b → mycpu n (bk b) = Done me (bk b).
Proof.
  intros [Hif Hme _ _ _ _ _ _ _]. unfold mycpu, readeflags, lapicid. destruct b as [[mm d] ? ? ? ? ? ? ?].
  unfold b_cpus, b_ncpu in Hme. simpl in *. kstep. rewrite Hif. simpl. by rewrite Hme.
Qed.

Lemma mem_has_frame m m' a l :
  (∀ x : Z, a <= x < a + Z.of_nat (length l) → m' x = m x) → mem_has m a l → mem_has m' a l.
Proof.
  unfold mem_has. revert a. induction l as [|x l IH]; intros a Hf; simpl in *; [done|].
  intros [= Hx Hl]. rewrite Hf by lia. rewrite Hx. f_equal. apply IH; [|done]. intros b Hb. apply Hf. lia.
Qed.
Lemma load_store_bytes l : ∀ m a,
  Forall (λ x, 0 <= x < 256) l → load_bytes (store_bytes m a l) a (length l) = l.
Proof.
  induction l as [|x l IH]; intros m a Hl; simpl; [done|]. inversion_clear Hl as [|? ? Hx Hl'].
  rewrite store_bytes_out by lia. rewrite store8_eq, u8_small by done. f_equal. by apply IH.
Qed.
Lemma store16_frame m a v (x : Z) : ¬ (a <= x < a + 2) → store16 m a v x = m x.
Proof. intros Hb. unfold store16. mem_case. Qed.
Lemma warm_reset_frame m (x : Z) : ¬ (P2V 0x467 <= x < P2V 0x467 + 4) → warm_reset m x = m x.
Proof. intros Hb. unfold warm_reset. rewrite !store16_frame by lia. done. Qed.
Lemma warm_reset_word m : load32 (warm_reset m) (P2V 0x467) = 0x700 * 2 ^ 16.
Proof. unfold load32, warm_reset, store16. rewrite !store8_lookup. repeat (case_decide; try lia). reflexivity. Qed.

Definition boot_words (m : mem) (page : Z) : mem :=
  store32 (store32 (store32 m (boot_code - 4) (page +u KSTACKSIZE)) (boot_code - 8) sym_mpenter)
    (boot_code - 12) (V2P sym_entrypgdir).
Lemma boot_words_frame m page (x : Z) : ¬ (boot_code - 12 <= x < boot_code) → boot_words m page x = m x.
Proof. intros Hb. unfold boot_words. rewrite !store32_frame by lia. done. Qed.

(** The state after a stack is taken and the words are written. *)
Definition ap_state (page : Z) (b : bootst) : bootst :=
  b <| bk := bk b <| kd := kd (bk b) <| d_mm :=
    kalloc_mm (d_mm (kd (bk b))) <| mm_mem := warm_reset (boot_words (boot_mem b) page) |> |> |> |>.

(** Up to the wait. *)
Lemma startother_run n me N ids l l' k b h page :
  starting_inv me N ids l k b → k ≠ me → kmem_ok (kd (bk b)) (page :: l') →
  0 <= c_apicid (b_cpus b !!! k) < 256 →
  ∃ h', startother boot_code k n (Io.H b h) = wait_started k n (Io.H (ap_state page b) h')
    ∧ icr_cmds (b_lapic b) h' = start_cmds (c_apicid (b_cpus b !!! k)) ++ icr_cmds (b_lapic b) h.
Proof.
  intros Hi Hk Hl Hid. unfold startother. erewrite bind_done by (apply kern_done; by eapply mycpu_at).
  replace (b <| bk := bk b |>) with b by by destruct b. rewrite (proj2 (Nat.eqb_neq k me)) by done.
  destruct (kalloc_mm_pop _ _ _ Hl) as (Hpage & Hpop & _).
  assert (kalloc n (bk b) = Done page (bk b <| kd := kd (bk b) <| d_mm := kalloc_mm (d_mm (kd (bk b))) |> |>)) as Ha.
  { pose proof (st_lock _ _ _ _ _ _ Hi) as Hlk. rewrite <- Hpage. destruct (bk b) as [mm d]. apply kalloc_done. by left. }
  rewrite (bind_done _ _ _ _ _ _ (kern_done _ n b h _ _ Ha)).
  do 3 (erewrite bind_done by (by apply kern_done)).
  erewrite bind_done by (by apply kern_done). cbv beta.
  match goal with |- context [Io.H ?b0 h] => set (b2 := b0) end.
  change (m_cpus (km (bk _)) !!! k) with (b_cpus b !!! k).
  destruct (lapicstartap_done n b2 h (c_apicid (b_cpus b !!! k)) Hid) as (h' & Hs & Hcmd).
  rewrite (bind_done _ _ _ _ _ _ Hs). exists h'. split; [|exact Hcmd].
  assert (with_mem (warm_reset (boot_mem b2)) b2 = ap_state page b) as ->; [|reflexivity].
  subst b2. unfold ap_state, with_mem, boot_mem. rewrite Hpop. reflexivity.
Qed.

(** Nothing of the start-up code is in a free page. *)
Lemma low_not_page im v (x : Z) : P2V 0x100000 <= im_end im → page_ok im v → v <= x → boot_code + 4096 <= x.
Proof. intros Hi (_ & Hv & _) Hx. unfold boot_code. change (P2V 0x7000) with 0x80007000. change (P2V 0x100000) with 0x80100000 in Hi. lia. Qed.
Lemma ap_mem_frame b page (x : Z) :
  boot_code <= x → warm_reset (boot_words (boot_mem b) page) x = boot_mem b x.
Proof.
  unfold boot_code. change (P2V 0x7000) with 0x80007000. intros Hx.
  rewrite warm_reset_frame, boot_words_frame; [done | unfold boot_code; change (P2V 0x7000) with 0x80007000; lia |].
  change (P2V 0x467) with 0x80000467. lia.
Qed.

Lemma ap_state_ready me N ids l l' k b h h' page :
  starting_inv me N ids l k b → kmem_ok (kd (bk b)) (page :: l') →
  icr_cmds (b_lapic b) h' = start_cmds (c_apicid (b_cpus b !!! k)) ++ icr_cmds (b_lapic b) h →
  ap_ready k (ap_state page b) h' page.
Proof.
  intros Hi [_ Hp _] Hcmd. inversion_clear Hp as [|? ? Hpage _].
  assert (∀ (o : Z) m, 4 <= o <= 12 → load32 (warm_reset m) (boot_code - o) = load32 m (boot_code - o)) as Hw.
  { intros o m Ho. apply load32_frame. intros x Hx. apply warm_reset_frame. unfold boot_code in Hx.
    change (P2V 0x7000) with 0x80007000 in Hx. change (P2V 0x467) with 0x80000467. lia. }
  assert (is_u32 (page + KSTACKSIZE)) as Hu.
  { destruct Hpage as (_ & _ & Hp1 & Hp2). unfold is_u32, KERNBASE, PHYSTOP, KSTACKSIZE in *. lia. }
  split.
  - eapply mem_has_frame; [|apply (st_code _ _ _ _ _ _ Hi)]. intros x Hx. apply ap_mem_frame. lia.
  - exact Hpage.
  - change (boot_mem (ap_state page b)) with (warm_reset (boot_words (boot_mem b) page)).
    rewrite (Hw 4) by lia. unfold boot_words.
    rewrite !load32_store32_ne by lia. rewrite load32_store32, u32_idemp. by apply u32_small.
  - change (boot_mem (ap_state page b)) with (warm_reset (boot_words (boot_mem b) page)).
    rewrite (Hw 8) by lia. unfold boot_words. rewrite load32_store32_ne by lia. apply load32_store32.
  - change (boot_mem (ap_state page b)) with (warm_reset (boot_words (boot_mem b) page)).
    rewrite (Hw 12) by lia. unfold boot_words. rewrite load32_store32. unfold V2P. apply u32_idemp.
  - apply warm_reset_word.
  - exists (icr_cmds (b_lapic b) h). exact Hcmd.
Qed.

(** The invariant after the wait. *)
Lemma ap_state_inv me N ids l l' k b b' page :
  starting_inv me N ids l k b → k ≠ me → (Z.of_nat (length entryother) <= 4096) →
  drop (if (me <? k)%nat then k - 1 else k)%nat l = page :: l' →
  came_up k page (ap_state page b) b' → starting_inv me N ids l (S k) b'.
Proof.
  intros Hi Hk He Hd Hu. pose proof (st_free _ _ _ _ _ _ Hi) as Hf. rewrite Hd in Hf.
  destruct (kalloc_mm_pop _ _ _ Hf) as (Hpage & Hpop & Hf').
  assert (drop (if (me <? S k)%nat then S k - 1 else S k)%nat l = l') as Hd'.
  { replace (if (me <? S k)%nat then S k - 1 else S k)%nat with (S (if (me <? k)%nat then k - 1 else k))%nat.
    - by rewrite <- Nat.add_1_r, <- drop_drop, Hd.
    - destruct (Nat.ltb_spec me k), (Nat.ltb_spec me (S k)); lia. }
  destruct Hf as [_ Hpok Hnd]. inversion_clear Hpok as [|? ? Hpage' Hl']. inversion_clear Hnd as [|? ? Hnin _].
  split.
  - rewrite (cu_eflags _ _ _ _ Hu). apply (st_if _ _ _ _ _ _ Hi).
  - rewrite <- (st_me _ _ _ _ _ _ Hi). rewrite (cu_ncpu _ _ _ _ Hu).
    replace (lapicid_of (km (bk b'))) with (lapicid_of (km (bk b))) by (unfold lapicid_of; by rewrite (cu_lapic _ _ _ _ Hu)).
    apply find_cpu_ids. apply (cu_ids _ _ _ _ Hu).
  - rewrite (cu_ncpu _ _ _ _ Hu). apply (st_ncpu _ _ _ _ _ _ Hi).
  - rewrite (cu_ids _ _ _ _ Hu). apply (st_ids _ _ _ _ _ _ Hi).
  - rewrite (cu_lock _ _ _ _ Hu). simpl. rewrite Hpop. apply (st_lock _ _ _ _ _ _ Hi).
  - rewrite (cu_im _ _ _ _ Hu). apply (st_im _ _ _ _ _ _ Hi).
  - rewrite Hd'. apply (kmem_ok_frame (kd (bk b) <| d_mm := kalloc_mm (d_mm (kd (bk b))) |>));
      [apply (cu_im _ _ _ _ Hu) | | | exact Hf'].
    + rewrite (cu_free _ _ _ _ Hu). done.
    + intros x y Hx Hy. pose proof (proj1 (Forall_forall _ _) Hl' x Hx) as Hxp.
      change (mm_mem (d_mm (kd (bk b'))) y) with (boot_mem b' y). rewrite (cu_mem _ _ _ _ Hu).
      * change (boot_mem (ap_state page b) y) with (warm_reset (boot_words (boot_mem b) page) y).
        rewrite ap_mem_frame; [simpl; by rewrite Hpop|].
        pose proof (low_not_page _ x y (st_im _ _ _ _ _ _ Hi) Hxp). lia.
      * destruct (pages_apart x page) as [|]; [apply Hxp | apply Hpage' | by intros -> | lia | lia].
  - eapply mem_has_frame; [|apply (st_code _ _ _ _ _ _ Hi)]. intros x Hx. rewrite (cu_mem _ _ _ _ Hu).
    + apply ap_mem_frame. lia.
    + intros Hin. pose proof (low_not_page _ page x (st_im _ _ _ _ _ _ Hi) Hpage'). lia.
  - intros j Hj Hne. destruct (decide (j = k)) as [->|]; [apply (cu_started _ _ _ _ Hu)|].
    apply (cu_others _ _ _ _ Hu). apply (st_up _ _ _ _ _ _ Hi); [lia | done].
Qed.

Lemma startother_wp n me N ids l k b h :
  (1 <= n)%nat → starting_inv me N ids l k b → (k < N)%nat → (N <= length ids)%nat → (N - 1 <= length l)%nat → (me < N)%nat →
  Forall (λ i, 0 <= i < 256) ids → Z.of_nat (length entryother) <= 4096 →
  wp ap_answers (startother boot_code k n (Io.H b h)) (λ _ x, starting_inv me N ids l (S k) (h_s x)).
Proof.
  intros Hn Hi HkN HN Hl Hme Hids He. destruct (decide (k = me)) as [->|Hk].
  - unfold startother. erewrite bind_done by (apply kern_done; by eapply mycpu_at).
    rewrite Nat.eqb_refl. simpl. replace (b <| bk := bk b |>) with b by by destruct b.
    destruct Hi as [I1 I2 I3 I4 I5 I6 I7 I8 I9]. split; try done.
    + rewrite (proj2 (Nat.ltb_lt me (S me))) by lia. rewrite Nat.ltb_irrefl in I7. by replace (S me - 1)%nat with me by lia.
    + intros j Hj Hne. apply I9; lia.
  - destruct (drop (if (me <? k)%nat then k - 1 else k)%nat l) as [|page l'] eqn:Hd.
    { apply (f_equal length) in Hd. rewrite length_drop in Hd. simpl in Hd. destruct (Nat.ltb_spec me k); lia. }
    pose proof (st_free _ _ _ _ _ _ Hi) as Hf. rewrite Hd in Hf.
    assert (0 <= c_apicid (b_cpus b !!! k) < 256) as Hid.
    { assert (k < length (b_cpus b))%nat as Hlt.
      { rewrite <- (length_fmap c_apicid), (st_ids _ _ _ _ _ _ Hi). lia. }
      apply list_lookup_lookup_total_lt in Hlt.
      apply (Forall_lookup_1 (λ i, 0 <= i < 256) ids k (c_apicid (b_cpus b !!! k)) Hids). rewrite <- (st_ids _ _ _ _ _ _ Hi), list_lookup_fmap, Hlt. done. }
    destruct (startother_run n me N ids l l' k b h page Hi Hk Hf Hid) as (h' & -> & Hcmd).
    pose proof (ap_state_ready me N ids l l' k b h h' page Hi Hf Hcmd) as Hready.
    assert (∀ b', came_up k page (ap_state page b) b' → starting_inv me N ids l (S k) b') as Hinv
      by (intros b'; by eapply ap_state_inv).
    unfold wait_started. destruct n as [|n]; [lia|]. cbn [started_loop h_s].
    destruct (c_started (b_cpus (ap_state page b) !!! k) =? 0) eqn:E; cbn [negb wp].
    + intros x Hx. pose proof (Hx page Hready) as Hu.
      assert (started_loop k n x = Done tt x) as ->; [|simpl; by apply Hinv].
      destruct n; simpl; by rewrite (proj2 (Z.eqb_neq _ _) (cu_started _ _ _ _ Hu)).
    + apply Hinv. apply Z.eqb_neq in E. by split.
Qed.

Lemma wp_startothers n me N ids l b h : ∀ j k,
  (j + k = N)%nat → (1 <= n)%nat → starting_inv me N ids l j b → (N <= length ids)%nat → (N - 1 <= length l)%nat →
  (me < N)%nat → Forall (λ i, 0 <= i < 256) ids → Z.of_nat (length entryother) <= 4096 →
  wp ap_answers (forM (seq j k) (startother boot_code) n (Io.H b h)) (λ _ x, starting_inv me N ids l N (h_s x)).
Proof.
  intros j k. revert j b h. induction k as [|k IH]; intros j b h Hjk Hn Hi HN Hl Hme Hids He; cbn [seq forM].
  - assert (j = N) as -> by lia. exact Hi.
  - apply wp_bind. eapply wp_mono; [|apply (startother_wp n me N ids l j b h); done || lia].
    intros _ [b' h'] Hi'. apply IH; done || lia.
Qed.

(** C28: startothers brings up every processor but the one it runs on.  Whenever it
    waits for one, everything that one needs is in place: the code of
    entryother.S at 0x7000, in the words below it a stack in a page taken from
    the allocator for it alone, the function to enter and the boot page table,
    the warm reset vector, and the start-up commands sent to the processor with
    this id.  Given that a processor so started comes up, startothers returns,
    all have started, and a page for each is gone from the free list. *)
Theorem startothers_spec n me b h l :
  (1 <= n)%nat → Z.land (m_eflags (km (bk b))) FL_IF = 0 →
  find_cpu (lapicid_of (km (bk b))) (b_cpus b) (b_ncpu b) = Some me →
  (b_ncpu b <= length (b_cpus b))%nat → (b_ncpu b - 1 <= length l)%nat →
  Forall (λ c, 0 <= c_apicid c < 256) (b_cpus b) →
  mm_use_lock (d_mm (kd (bk b))) = 0 → P2V 0x100000 <= im_end (d_im (kd (bk b))) → kmem_ok (kd (bk b)) l →
  Z.of_nat (length entryother) <= 4096 → Forall (λ x, 0 <= x < 256) entryother →
  wp ap_answers (startothers n (Io.H b h)) (λ _ x,
    (∀ j, (j < b_ncpu b)%nat → j ≠ me → c_started (b_cpus (h_s x) !!! j) ≠ 0)
    ∧ kmem_ok (kd (bk (h_s x))) (drop (b_ncpu b - 1) l)).
Proof.
  intros Hn Hif Hme HN Hl Hids Hlk Him Hf He Heb.
  assert (me < b_ncpu b)%nat as Hlt.
  { by eapply find_cpu_below. }
  unfold startothers. cbv zeta. change (P2V 0x7000) with boot_code.
  erewrite bind_done by (by apply kern_done). rewrite (bind_done _ _ _ _ (b_ncpu b) (Io.H (with_mem (store_bytes (boot_mem b) boot_code entryother) b) h)) by done.
  set (b1 := with_mem _ b).
  eapply wp_mono; [|apply (wp_startothers n me (b_ncpu b) (c_apicid <$> b_cpus b) l b1 h 0 (b_ncpu b)); try done].
  - intros _ [b' h'] Hi. cbn [h_s] in *. split; [apply (st_up _ _ _ _ _ _ Hi)|].
    pose proof (st_free _ _ _ _ _ _ Hi) as Hf'. by rewrite (proj2 (Nat.ltb_lt me (b_ncpu b))) in Hf' by done.
  - split; try done.
    + rewrite (proj2 (Nat.ltb_ge me 0)) by lia. rewrite drop_0.
      eapply kmem_ok_frame; [| | |exact Hf]; [done | done |]. intros x y Hx Hy.
      pose proof (proj1 (Forall_forall _ _) (ko_pages _ _ Hf) x Hx) as Hxp.
      pose proof (low_not_page _ x y Him Hxp). simpl. apply store_bytes_out. lia.
    + unfold mem_has. change (boot_mem b1) with (store_bytes (boot_mem b) boot_code entryother).
      apply load_store_bytes. done.
    + intros j Hj. lia.
  - by rewrite length_fmap.
  - by apply Forall_fmap.
Qed.
End starting.

(** ** The I/O APIC

    Its registers after a history of accesses: the selected one, and the values
    last written to each. *)
Fixpoint ioapic_of (h : list access) (r0 : Z → Z) : Z * (Z → Z) :=
  match h with
  | [] => (0, r0)
  | Store x v :: h' =>
    let '(sel, r) := ioapic_of h' r0 in
    if x =? IOAPIC then (v, r) else if x =? IOAPIC + 16 then (sel, <[sel := v]> r) else (sel, r)
  | _ :: h' => ioapic_of h' r0
  end.
Definition ioapic_reg (h : list access) (r0 : Z → Z) (i : Z) : Z := (ioapic_of h r0).2 i.
(** Line [i] is off, or delivered as trap [T_IRQ0 + i] to processor [c]. *)
Definition line_off (h : list access) (r0 : Z → Z) (i : Z) : Prop :=
  ioapic_reg h r0 (REG_TABLE + 2 * i) = Z.lor INT_DISABLED (T_IRQ0 + i) ∧ ioapic_reg h r0 (REG_TABLE + 2 * i + 1) = 0.
Definition line_on (h : list access) (r0 : Z → Z) (i c : Z) : Prop :=
  ioapic_reg h r0 (REG_TABLE + 2 * i) = T_IRQ0 + i ∧ ioapic_reg h r0 (REG_TABLE + 2 * i + 1) = Z.shiftl c 24.

(** The two interrupt controllers of the PC: the mask last written to each. *)
Fixpoint pic_mask (port : Z) (h : list access) : option Z :=
  match h with
  | [] => None
  | Out p v :: h' => if p =? port then Some v else pic_mask port h'
  | _ :: h' => pic_mask port h'
  end.

Section ioapic.
Context `{Devices}.
Implicit Types (b : bootst) (h : list access).

Definition ioapicwrite_h (i v : Z) (h : list access) : list access :=
  Store (IOAPIC + 16) (u32 v) :: Store IOAPIC (u32 i) :: h.
Lemma ioapicwrite_done n b h i v :
  b_ioapic b = IOAPIC → ioapicwrite i v n (Io.H b h) = Done tt (Io.H b (ioapicwrite_h i v h)).
Proof. intros Hb. unfold ioapicwrite, getb, mbind, M_bind, gets. simpl. by rewrite Hb. Qed.
Lemma ioapicwrite_reg h r0 i v (j : Z) :
  is_u32 i → is_u32 v → ioapic_reg (ioapicwrite_h i v h) r0 j = if decide (j = i) then v else ioapic_reg h r0 j.
Proof.
  intros Hi Hv. unfold ioapicwrite_h, ioapic_reg. rewrite !u32_small by done. cbn [ioapic_of].
  destruct (ioapic_of h r0) as [sel r]. change (IOAPIC =? IOAPIC) with true. change (IOAPIC + 16 =? IOAPIC) with false.
  change (IOAPIC + 16 =? IOAPIC + 16) with true. cbn [snd]. case_decide; [subst; by rewrite fn_lookup_insert|].
  by rewrite fn_lookup_insert_ne.
Qed.

Definition ioapicenable_h (i c : Z) (h : list access) : list access :=
  ioapicwrite_h (REG_TABLE + 2 * i + 1) (Z.shiftl c 24) (ioapicwrite_h (REG_TABLE + 2 * i) (T_IRQ0 + i) h).
Lemma ioapicenable_done n b h i c :
  b_ioapic b = IOAPIC → ioapicenable i c n (Io.H b h) = Done tt (Io.H b (ioapicenable_h i c h)).
Proof.
  intros Hb. unfold ioapicenable.
  rewrite (bind_done _ _ _ _ _ _ (ioapicwrite_done n b h _ _ Hb)). by rewrite (ioapicwrite_done _ _ _ _ _ Hb).
Qed.
Lemma ioapicenable_regs i c h r0 :
  0 <= i < 256 → 0 <= c < 256 →
  line_on (ioapicenable_h i c h) r0 i c
  ∧ ∀ j, j ≠ REG_TABLE + 2 * i → j ≠ REG_TABLE + 2 * i + 1 → ioapic_reg (ioapicenable_h i c h) r0 j = ioapic_reg h r0 j.
Proof.
  intros Hi Hc. unfold ioapicenable_h.
  assert (is_u32 (REG_TABLE + 2 * i) ∧ is_u32 (REG_TABLE + 2 * i + 1) ∧ is_u32 (T_IRQ0 + i) ∧ is_u32 (Z.shiftl c 24))
    as (H1 & H2 & H3 & H4).
  { rewrite Z.shiftl_mul_pow2 by lia. unfold is_u32, REG_TABLE, T_IRQ0. lia. }
  split; [split|].
  - rewrite !ioapicwrite_reg by done. rewrite decide_False by lia. by rewrite decide_True.
  - rewrite ioapicwrite_reg by done. by rewrite decide_True.
  - intros j Hj1 Hj2. rewrite !ioapicwrite_reg by done. by rewrite !decide_False by done.
Qed.

Lemma ioapic_mask n b : ∀ k j h,
  b_ioapic b = IOAPIC → 0 <= j → j + Z.of_nat k <= 256 →
  ∃ h', forM (seqZ j (Z.of_nat k)) (λ i,
      ioapicwrite (REG_TABLE + 2 * i) (Z.lor INT_DISABLED (T_IRQ0 + i)) ;;
      ioapicwrite (REG_TABLE + 2 * i + 1) 0) n (Io.H b h) = Done tt (Io.H b h')
    ∧ (∀ r0 i, (j <= i < j + Z.of_nat k → line_off h' r0 i) ∧ (0 <= i < j → line_off h r0 i → line_off h' r0 i))
    ∧ ∀ p, pic_mask p h' = pic_mask p h.
Proof.
  induction k as [|k IH]; intros j h Hb Hj Hk.
  - exists h. split; [done|]. split; [|done]. intros r0 i. split; [lia|done].
  - rewrite seqZ_cons by lia. cbn [forM]. erewrite bind_done.
    2:{ rewrite (bind_done _ _ _ _ _ _ (ioapicwrite_done n b h _ _ Hb)). by rewrite (ioapicwrite_done _ _ _ _ _ Hb). }
    replace (Z.succ j) with (j + 1) by lia. replace (Z.pred (Z.of_nat (S k))) with (Z.of_nat k) by lia.
    destruct (IH (j + 1) (ioapicwrite_h (REG_TABLE + 2 * j + 1) 0 (ioapicwrite_h (REG_TABLE + 2 * j)
      (Z.lor INT_DISABLED (T_IRQ0 + j)) h)) Hb) as (h' & Hd & Hl & Hp); [lia | lia |].
    exists h'. split; [exact Hd|]. split; [|exact Hp]. intros r0 i. destruct (Hl r0 i) as [Hl1 Hl2].
    assert (Z.lor INT_DISABLED (T_IRQ0 + j) = INT_DISABLED + (T_IRQ0 + j)) as Hor.
    { change INT_DISABLED with (1 * 2 ^ 16). apply lor_high_low; unfold T_IRQ0; lia. }
    assert (is_u32 (REG_TABLE + 2 * j) ∧ is_u32 (REG_TABLE + 2 * j + 1) ∧ is_u32 (Z.lor INT_DISABLED (T_IRQ0 + j)) ∧ is_u32 0)
      as (H1 & H2 & H3 & H4).
    { rewrite Hor. unfold is_u32, REG_TABLE, T_IRQ0, INT_DISABLED. lia. }
    split.
    + intros Hi. destruct (decide (i = j)) as [->|]; [|apply Hl1; lia]. apply Hl2; [lia|].
      split; rewrite !ioapicwrite_reg by done; [rewrite decide_False by lia; by rewrite decide_True | by rewrite decide_True].
    + intros Hi [Ho1 Ho2]. apply Hl2; [lia|]. split; rewrite !ioapicwrite_reg by done; by rewrite !decide_False by lia.
Qed.

Lemma ioapicread_done n b h i :
  b_ioapic b = IOAPIC → is_u32 i →
  let h1 := Store IOAPIC i :: h in
  ioapicread i n (Io.H b h)
  = Done (u32 (dev_load h1 (IOAPIC + 16))) (Io.H b (Load (IOAPIC + 16) (u32 (dev_load h1 (IOAPIC + 16))) :: h1)).
Proof.
  intros Hb Hi. unfold ioapicread, getb, mmio_write, mmio_read, access_, mbind, M_bind, gets, modify. simpl.
  rewrite Hb, (u32_small i) by done. reflexivity.
Qed.
Lemma ioapic_select i h r0 : (ioapic_of (Store IOAPIC i :: h) r0).1 = i ∧ (ioapic_of (Store IOAPIC i :: h) r0).2 = (ioapic_of h r0).2.
Proof. cbn [ioapic_of]. by destruct (ioapic_of h r0). Qed.

(** What an I/O APIC with the registers [r0] answers. *)
Definition ioapic_law (r0 : Z → Z) : Prop :=
  ∀ h i, i = REG_VER ∨ i = REG_ID → (ioapic_of h r0).1 = i → u32 (dev_load h (IOAPIC + 16)) = r0 i.
Definition lines (r0 : Z → Z) : Z := Z.land (Z.shiftr (r0 REG_VER) 16) 0xFF + 1.

Lemma lines_range r0 : 1 <= lines r0 <= 256.
Proof.
  unfold lines. change 0xFF with (Z.ones 8). rewrite Z.land_ones by lia.
  pose proof (Z.mod_pos_bound (Z.shiftr (r0 REG_VER) 16) (2 ^ 8)). lia.
Qed.

Lemma ioapicinit_done n b h r0 :
  ioapic_law r0 → Z.shiftr (r0 REG_ID) 24 = b_ioapicid b →
  ∃ h', ioapicinit n (Io.H b h) = Done tt (Io.H (b <| b_ioapic := IOAPIC |>) h')
    ∧ (∀ i, 0 <= i < lines r0 → line_off h' r0 i) ∧ ∀ p, pic_mask p h' = pic_mask p h.
Proof.
  intros Hlaw Hid. unfold ioapicinit. set (b1 := b <| b_ioapic := IOAPIC |>).
  rewrite (bind_done _ _ _ _ tt (Io.H b1 h)) by done.
  rewrite (bind_done _ _ _ _ _ _ (ioapicread_done n b1 h REG_VER eq_refl ltac:(done))).
  rewrite (Hlaw _ REG_VER (or_introl eq_refl) (proj1 (ioapic_select _ _ _))). cbv zeta.
  rewrite (bind_done _ _ _ _ _ _ (ioapicread_done n b1 _ REG_ID eq_refl ltac:(done))).
  rewrite (Hlaw _ REG_ID (or_intror eq_refl) (proj1 (ioapic_select _ _ _))).
  rewrite (bind_done _ _ _ _ (b_ioapicid b) (Io.H b1 (Load (IOAPIC + 16) (r0 REG_ID) :: Store IOAPIC REG_ID
    :: Load (IOAPIC + 16) (r0 REG_VER) :: Store IOAPIC REG_VER :: h))) by done.
  rewrite Hid, Z.eqb_refl. cbn [negb when]. rewrite bind_mret_h.
  pose proof (lines_range r0) as Hl. fold (lines r0).
  rewrite <- (Z2Nat.id (lines r0)) by lia.
  destruct (ioapic_mask n b1 (Z.to_nat (lines r0)) 0 (Load (IOAPIC + 16) (r0 REG_ID) :: Store IOAPIC REG_ID
    :: Load (IOAPIC + 16) (r0 REG_VER) :: Store IOAPIC REG_VER :: h) eq_refl) as (h' & Hd & Hoff & Hp); [lia | lia |].
  exists h'. split; [exact Hd|]. split; [|exact Hp]. intros i Hi. apply (proj1 (Hoff r0 i)). lia.
Qed.

(** Characters sent to the serial port. *)
Lemma uart_puts n l : ∀ m d,
  cn_uart (d_cons d) ≠ 0 →
  forM l uartputc n (K m d) = Done tt (K m (d <| d_cons := d_cons d <| cn_out := cn_out (d_cons d) ++ (u8 <$> l) |> |>)).
Proof.
  induction l as [|c l IH]; intros m d Hu.
  - simpl. rewrite app_nil_r. by destruct d as [? ? ? ? ? ? ? ? ? ? ? ? ? ? ? ? [] ?].
  - cbn [forM]. rewrite (bind_done _ _ _ _ _ _ (uartputc_done n m d c)). unfold uart_put. rewrite ctrue_ne by done.
    rewrite IH by done. simpl. by rewrite <- app_assoc.
Qed.

(** consoleinit and uartinit on the console's variables. *)
Definition cons_up (serial : bool) (d : kdata) : kdata :=
  let cn := d_cons d <| cn_locking := 1 |> in
  d <| d_devsw := <[CONSOLE := true]> (d_devsw d) |>
    <| d_cons := if serial then cn <| cn_uart := 1 |> <| cn_out := cn_out cn ++ (u8 <$> cstring "xv6...\n") |> else cn |>.

(** The registers of the I/O APIC and the masks are left alone. *)
Definition same_routes (h h' : list access) : Prop :=
  (∀ r0 i, ioapic_reg h' r0 i = ioapic_reg h r0 i) ∧ ∀ p, p = 0x21 ∨ p = 0xA1 → pic_mask p h' = pic_mask p h.

Lemma uartinit_done n b h :
  b_ioapic b = IOAPIC →
  ∃ v h' b', uartinit n (Io.H b h) = Done tt (Io.H b' h') ∧ In (COM1 + 5) v ∈ h'
    ∧ b_ioapic b' = IOAPIC ∧ b_ncpu b' = b_ncpu b
    ∧ if v =? 0xFF then b' = b ∧ same_routes h h'
      else (∀ r0, line_on h' r0 IRQ_COM1 0
             ∧ ∀ j, j ≠ REG_TABLE + 2 * IRQ_COM1 → j ≠ REG_TABLE + 2 * IRQ_COM1 + 1 → ioapic_reg h' r0 j = ioapic_reg h r0 j)
           ∧ (∀ p, p = 0x21 ∨ p = 0xA1 → pic_mask p h' = pic_mask p h)
           ∧ kd (bk b') = kd (bk b) <| d_cons := d_cons (kd (bk b)) <| cn_uart := 1 |>
               <| cn_out := cn_out (d_cons (kd (bk b))) ++ (u8 <$> cstring "xv6...\n") |> |>.
Proof.
  intros Hb. unfold uartinit. do 7 rewrite (bind_done _ _ _ _ _ _ (outb_done n b _ _ _)).
  set (h1 := Out (COM1 + 1) (u8 1) :: _). rewrite (bind_done _ _ _ _ _ _ (inb_done n b h1 _)). set (v := u8 _).
  assert (same_routes h h1) as [Hr1 Hp1] by (split; [done|]; by intros p [->| ->]).
  destruct (v =? 0xFF) eqn:E.
  - exists v, (In (COM1 + 5) v :: h1), b. rewrite E. split; [done|]. split; [constructor|]. split; [done|]. split; [done|]. split; [done|]. by split.
  - set (b1 := b <| bk := bk b <| kd := kd (bk b) <| d_cons := d_cons (kd (bk b)) <| cn_uart := 1 |> |> |> |>).
    rewrite (bind_done _ _ _ _ tt (Io.H b1 (In (COM1 + 5) v :: h1))) by done.
    do 2 rewrite (bind_done _ _ _ _ _ _ (inb_done n b1 _ _)). set (h2 := In (COM1 + 0) _ :: _).
    rewrite (bind_done _ _ _ _ _ _ (ioapicenable_done n b1 h2 IRQ_COM1 0 Hb)).
    assert (forM (cstring "xv6...\n") uartputc n (bk b1) = Done tt (bk b1 <| kd := kd (bk b1) <| d_cons :=
      d_cons (kd (bk b1)) <| cn_out := cn_out (d_cons (kd (bk b1))) ++ (u8 <$> cstring "xv6...\n") |> |> |>)) as Hputs.
    { destruct (bk b1) as [m d] eqn:Eb. apply uart_puts. change d with (kd (K m d)). by rewrite <- Eb. }
    eexists v, (ioapicenable_h IRQ_COM1 0 h2), _. split; [by apply kern_done|]. rewrite E.
    split; [unfold ioapicenable_h, ioapicwrite_h, h2; rewrite !elem_of_cons; tauto|].
    split; [exact Hb|]. split; [by unfold b_ncpu|]. split; [|split; [|done]].
    + intros r0. destruct (ioapicenable_regs IRQ_COM1 0 h2 r0) as [Hon Hoff]; [done | done |].
      split; [exact Hon|]. intros j Hj1 Hj2. rewrite Hoff by done. apply Hr1.
    + intros p Hp. by rewrite <- (Hp1 p Hp).
Qed.

Lemma routing_uart n b h r0 :
  ioapic_law r0 → Z.shiftr (r0 REG_ID) 24 = b_ioapicid b → IRQ_IDE < lines r0 →
  ∃ v b' h', (picinit ;; ioapicinit ;; consoleinit_ ;; uartinit) n (Io.H b h) = Done tt (Io.H b' h')
    ∧ pic_mask 0x21 h' = Some 0xFF ∧ pic_mask 0xA1 h' = Some 0xFF
    ∧ line_on h' r0 IRQ_KBD 0
    ∧ In (COM1 + 5) v ∈ h'
    ∧ (if v =? 0xFF then line_off h' r0 IRQ_COM1 else line_on h' r0 IRQ_COM1 0)
    ∧ (∀ i, 0 <= i < lines r0 → i ≠ IRQ_KBD → i ≠ IRQ_COM1 → line_off h' r0 i)
    ∧ kd (bk b') = cons_up (negb (v =? 0xFF)) (kd (bk b)) ∧ b_ioapic b' = IOAPIC ∧ b_ncpu b' = b_ncpu b.
Proof.
  intros Hlaw Hid Hlines. unfold picinit. rewrite (bind_done _ _ _ _ tt (Io.H b (Out 0xA1 0xFF :: Out 0x21 0xFF :: h))) by done.
  destruct (ioapicinit_done n b (Out 0xA1 0xFF :: Out 0x21 0xFF :: h) r0 Hlaw Hid) as (h1 & Hin & Hoff & Hp).
  rewrite (bind_done _ _ _ _ _ _ Hin). set (b1 := b <| b_ioapic := IOAPIC |>).
  set (b2 := b1 <| bk := K (km (bk b) <| m_locks := <[L_cons := Spinlock 0 "console" None]> (m_locks (km (bk b))) |>)
    (cons_up false (kd (bk b))) |>).
  assert (consoleinit_ n (Io.H b1 h1) = Done tt (Io.H b2 (ioapicenable_h IRQ_KBD 0 h1))) as Hc.
  { unfold consoleinit_. rewrite (bind_done _ _ _ _ tt (Io.H b2 h1)) by done. by apply ioapicenable_done. }
  rewrite (bind_done _ _ _ _ _ _ Hc). set (h2 := ioapicenable_h _ _ h1).
  destruct (ioapicenable_regs IRQ_KBD 0 h1 r0) as [Hkbd Hk]; [done | done |]. fold h2 in Hkbd, Hk.
  assert (∀ i, 0 <= i < lines r0 → i ≠ IRQ_KBD → line_off h2 r0 i) as Hoff2.
  { intros i Hi Hne. destruct (Hoff i Hi) as [Ho1 Ho2]. unfold IRQ_KBD, REG_TABLE in *. split; rewrite Hk by (unfold REG_TABLE; lia); done. }
  destruct (uartinit_done n b2 h2 eq_refl) as (v & h' & b' & Hu & Hv & Hio & Hnc & Hcase).
  exists v, b', h'. split; [exact Hu|].
  assert (IRQ_COM1 < lines r0) by (unfold IRQ_COM1, IRQ_IDE in *; lia).
  assert ((∀ p, p = 0x21 ∨ p = 0xA1 → pic_mask p h' = pic_mask p h2)
    ∧ ∀ j, j ≠ REG_TABLE + 2 * IRQ_COM1 → j ≠ REG_TABLE + 2 * IRQ_COM1 + 1 → ioapic_reg h' r0 j = ioapic_reg h2 r0 j) as [Hpm Hreg].
  { destruct (v =? 0xFF); [by destruct Hcase as [_ [Hr Hm]]|]. destruct Hcase as (Hon & Hm & _). split; [done|]. apply Hon. }
  split; [rewrite Hpm by tauto; exact (Hp 0x21)|]. split; [rewrite Hpm by tauto; exact (Hp 0xA1)|].
  unfold IRQ_KBD, IRQ_COM1, REG_TABLE in *. split.
  { destruct Hkbd as [Hk1 Hk2]. split; rewrite Hreg by (unfold REG_TABLE; lia); done. }
  split; [exact Hv|]. split.
  { destruct (v =? 0xFF); [|apply Hcase]. destruct Hcase as [_ [Hr _]].
    destruct (Hoff2 4) as [Ho1 Ho2]; [lia | lia |]. split; rewrite Hr; done. }
  split.
  { intros i Hi Hn1 Hn2. destruct (Hoff2 i Hi Hn1) as [Ho1 Ho2]. unfold REG_TABLE in *. split; rewrite Hreg by (unfold REG_TABLE; lia); done. }
  split; [|done]. destruct (v =? 0xFF); cbn [negb]; [by destruct Hcase as [-> _]|]. destruct Hcase as (_ & _ & ->). reflexivity.
Qed.

(** *** The rest of main's device initialisation *)

(** Accesses that leave the routes alone are added to the history. *)
Definition adds_quietly (h h' : list access) : Prop := same_routes h h' ∧ h ⊆ h'.
#[local] Instance adds_quietly_refl : Reflexive adds_quietly.
Proof. intros h. by split. Qed.
#[local] Instance adds_quietly_trans : Transitive adds_quietly.
Proof.
  intros h1 h2 h3 [[R1 M1] S1] [[R2 M2] S2]. split; [split|set_solver].
  - intros r0 i. by rewrite R2.
  - intros p Hp. by rewrite M2, M1.
Qed.
Lemma adds_in port v h : adds_quietly h (In port v :: h).
Proof. split; [by split | set_solver]. Qed.
Lemma adds_out port v h : port ≠ 0x21 → port ≠ 0xA1 → adds_quietly h (Out port v :: h).
Proof.
  intros H1 H2. split; [split; [done|] | set_solver]. intros p [-> | ->]; cbn [pic_mask]; by rewrite (proj2 (Z.eqb_neq _ _)).
Qed.

(** The disk's status register says ready after at most [k] reads. *)
Definition ide_ready_value (v : Z) : bool := Z.land v (Z.lor IDE_BSY IDE_DRDY) =? IDE_DRDY.
Fixpoint disk_ready (k : nat) (h : list access) : Prop :=
  match k with
  | O => False
  | S k' => let v := u8 (dev_in h 0x1f7) in ide_ready_value v = true ∨ disk_ready k' (In 0x1f7 v :: h)
  end.
Lemma idewait_ready {W S} n (s : S) h :
  disk_ready n h → ∃ r h', (ports.idewait false : HM W S Z) n (Io.H s h) = Done r (Io.H s h') ∧ adds_quietly h h'.
Proof.
  intros Hr. assert (Hl : ∀ k h, disk_ready k h →
    ∃ r h', (ports.idewait_loop k : HM W S Z) n (Io.H s h) = Done r (Io.H s h') ∧ adds_quietly h h').
  { induction k as [|k IH]; intros h0 Hk; [done|]. cbn [ports.idewait_loop]. rewrite (bind_done _ _ _ _ _ _ (inb_done n s h0 _)).
    fold (ide_ready_value (u8 (dev_in h0 0x1f7))). cbn [disk_ready] in Hk.
    destruct (ide_ready_value _); cbn [negb]; [eexists _, _; split; [reflexivity | apply adds_in]|].
    destruct Hk as [|Hk]; [done|]. destruct (IH _ Hk) as (r & h' & Hd & Hq). exists r, h'. split; [exact Hd|].
    etrans; [apply adds_in | exact Hq]. }
  destruct (Hl n h Hr) as (r & h' & Hd & Hq). exists 0, h'. split; [|exact Hq].
  unfold ports.idewait. by rewrite (bind_done _ _ _ _ r (Io.H s h')) by exact Hd.
Qed.
Lemma disk1_loop_done n k : ∀ b h, ∃ d h',
  disk1_loop k n (Io.H b h) = Done tt (Io.H (b <| bk := bk b <| kd := kd (bk b) <| d_ide := d |> |> |>) h') ∧ adds_quietly h h'.
Proof.
  induction k as [|k IH]; intros b h; cbn [disk1_loop].
  - exists (d_ide (kd (bk b))), h. split; [|done]. destruct b as [[m d] ? ? ? ? ? ? ?]. by destruct d.
  - rewrite (bind_done _ _ _ _ _ _ (inb_done n b h _)). destruct (ctrue _).
    + eexists _, _. split; [by apply kern_done | apply adds_in].
    + destruct (IH b (In 0x1f7 (u8 (dev_in h 0x1f7)) :: h)) as (d & h' & Hd & Hq). exists d, h'. split; [exact Hd|].
      etrans; [apply adds_in | exact Hq].
Qed.

(** What the later steps leave alone. *)
Record keeps_cons (b b' : bootst) : Prop := {
  kc_ioapic : b_ioapic b' = b_ioapic b;
  kc_ncpu : b_ncpu b' = b_ncpu b;
  kc_cons : d_cons (kd (bk b')) = d_cons (kd (bk b));
  kc_devsw : d_devsw (kd (bk b')) = d_devsw (kd (bk b))
}.
#[local] Instance keeps_cons_trans : Transitive keeps_cons.
Proof. intros b1 b2 b3 [? ? ? ?] [? ? ? ?]. split; congruence. Qed.

Lemma binit_keeps n m d :
  ∃ m' d', binit n (K m d) = Done tt (K m' d') ∧ m_ncpu m' = m_ncpu m ∧ d_cons d' = d_cons d ∧ d_devsw d' = d_devsw d.
Proof.
  unfold binit. rewrite (bind_done _ _ _ _ tt (K (m <| m_locks := <[L_bcache := Spinlock 0 "bcache" None]> (m_locks m) |>) d)) by done.
  match goal with |- context [forM _ ?f] => set (body := f) end.
  unfold mod_buf. rewrite !bind_modd. set (d0 := set_field _ _ (set_field _ _ d)). set (m0 := set_field _ _ m).
  assert (d_cons d0 = d_cons d ∧ d_devsw d0 = d_devsw d ∧ m_ncpu m0 = m_ncpu m) as (Hc & Hv & Hn) by done.
  clearbody d0 m0. revert m0 d0 Hc Hv Hn. generalize (seq 0 NBUF) as l. induction l as [|k l IH]; intros m1 d1 Hc Hv Hn.
  - by exists m1, d1.
  - cbn [forM]. eapply IH; simpl; done.
Qed.

Lemma ideinit_done n b h r0 :
  b_ioapic b = IOAPIC → (1 <= b_ncpu b <= 256)%nat → (∀ h, disk_ready n h) →
  ∃ b' h', ideinit_ n (Io.H b h) = Done tt (Io.H b' h') ∧ keeps_cons b b'
    ∧ line_on h' r0 IRQ_IDE (Z.of_nat (b_ncpu b) - 1)
    ∧ (∀ j, j ≠ REG_TABLE + 2 * IRQ_IDE → j ≠ REG_TABLE + 2 * IRQ_IDE + 1 → ioapic_reg h' r0 j = ioapic_reg h r0 j)
    ∧ (∀ p, p = 0x21 ∨ p = 0xA1 → pic_mask p h' = pic_mask p h) ∧ h ⊆ h'.
Proof.
  intros Hb Hn Hd. unfold ideinit_.
  set (b1 := b <| bk := bk b <| km := km (bk b) <| m_locks := <[L_ide := Spinlock 0 "ide" None]> (m_locks (km (bk b))) |> |> |>).
  rewrite (bind_done _ _ _ _ tt (Io.H b1 h)) by done. rewrite (bind_done _ _ _ _ (b_ncpu b) (Io.H b1 h)) by done.
  rewrite (bind_done _ _ _ _ _ _ (ioapicenable_done n b1 h IRQ_IDE (Z.of_nat (b_ncpu b) - 1) Hb)). set (h1 := ioapicenable_h _ _ h).
  destruct (@idewait_ready boot_wait bootst n b1 h1 (Hd h1)) as (r & h2 & Hw & Hq2). rewrite (bind_done _ _ _ _ _ _ Hw).
  rewrite (bind_done _ _ _ _ _ _ (outb_done n b1 h2 _ _)). set (h3 := Out _ _ :: h2).
  destruct (disk1_loop_done n 1000 b1 h3) as (d & h4 & Hl & Hq4). rewrite (bind_done _ _ _ _ _ _ Hl), outb_done.
  eexists _, _. split; [reflexivity|]. split; [by split|].
  assert (Hq : adds_quietly h1 (Out 0x1f6 (u8 (Z.lor 0xe0 (Z.shiftl 0 4))) :: h4)).
  { etrans; [exact Hq2|]. etrans; [by apply (adds_out 0x1f6 (u8 (Z.lor 0xe0 (Z.shiftl 1 4))))|].
    etrans; [exact Hq4|]. by apply adds_out. }
  destruct Hq as [[Hr Hm] Hs].
  destruct (ioapicenable_regs IRQ_IDE (Z.of_nat (b_ncpu b) - 1) h r0) as [[Hon1 Hon2] Hoff]; [done | lia |]. fold h1 in Hon1, Hon2, Hoff.
  split_and!; [split; rewrite Hr; done | intros j H1 H2; rewrite Hr; by apply Hoff | intros p Hp; by rewrite Hm |].
  intros x Hx. apply Hs. unfold h1, ioapicenable_h, ioapicwrite_h. rewrite !elem_of_cons. tauto.
Qed.

Lemma seq4_done {W S A B C D F} (m1 : M W S A) (m2 : M W S B) (m3 : M W S C) (m4 : M W S D) (m5 : M W S F) n s a s' :
  (m1 ;; m2 ;; m3 ;; m4) n s = Done a s' → (m1 ;; m2 ;; m3 ;; m4 ;; m5) n s = m5 n s'.
Proof.
  intros (a1 & s1 & H1 & (a2 & s2 & H2 & (a3 & s3 & H3 & H4)%bind_done_inv)%bind_done_inv)%bind_done_inv.
  by rewrite (bind_done _ _ _ _ _ _ H1), (bind_done _ _ _ _ _ _ H2), (bind_done _ _ _ _ _ _ H3), (bind_done _ _ _ _ _ _ H4).
Qed.

(** pinit, tvinit, binit and fileinit. *)
Lemma boot_quiet `{Symbols} {A} n b h (rest : BM A) :
  ∃ b', (kern pinit ;; tvinit ;; kern binit ;; kern fileinit ;; rest) n (Io.H b h) = rest n (Io.H b' h) ∧ keeps_cons b b'.
Proof.
  set (b1 := b <| bk := bk b <| km := km (bk b) <| m_locks := <[L_ptable := Spinlock 0 "ptable" None]> (m_locks (km (bk b))) |> |> |>).
  rewrite (bind_done _ _ _ _ tt (Io.H b1 h)) by done.
  assert (Htv : ∃ t, tvinit n (Io.H b1 h) = Done tt (Io.H (b1 <| b_idt := t |>) h)).
  { unfold tvinit. rewrite (bind_done _ _ _ _ _ _ (set_idts n _ _ b1 h)). eexists. reflexivity. }
  destruct Htv as [t Htv]. rewrite (bind_done _ _ _ _ _ _ Htv). set (b2 := b1 <| b_idt := t |>).
  destruct (binit_keeps n (km (bk b2)) (kd (bk b2))) as (m3 & d3 & Hb & Hk1 & Hk2 & Hk3).
  erewrite bind_done by (apply kern_done; exact Hb). set (b3 := b2 <| bk := K m3 d3 |>).
  rewrite (bind_done _ _ _ _ tt (Io.H (b3 <| bk := K (m3 <| m_locks := <[L_ftable := Spinlock 0 "ftable" None]> (m_locks m3) |>) d3 |>) h)) by done.
  eexists. split; [reflexivity|]. split; [done | exact Hk1 | exact Hk2 | exact Hk3].
Qed.

End ioapic.

(** The boot page table maps the first 4 MB of memory, at 0 and at KERNBASE, and
    nothing else: with PTE_PS an entry maps a large page. *)
Definition large_page (e va : Z) : option Z :=
  if ctrue (Z.land e PTE_P) && ctrue (Z.land e PTE_PS)
  then Some (Z.shiftl (Z.shiftr e PDXSHIFT) PDXSHIFT + va mod 2 ^ PDXSHIFT) else None.
Lemma entrypgdir_maps va :
  0 <= va < 2 ^ 32 →
  large_page (entrypgdir !!! Z.to_nat (PDX va)) va
  = if decide (va < 2 ^ 22) then Some va else
    if decide (KERNBASE <= va < KERNBASE + 2 ^ 22) then Some (V2P va) else None.
Proof.
  intros Hva. unfold PDX, PDXSHIFT. rewrite Z.shiftr_div_pow2 by lia. change 0x3FF with (Z.ones 10). rewrite Z.land_ones by lia.
  assert (0 <= va / 2 ^ 22 < 2 ^ 10) as Hd by (split; [apply Z.div_pos; lia | apply Z.div_lt_upper_bound; lia]).
  rewrite Z.mod_small by done. pose proof (Z.div_mod va (2 ^ 22) ltac:(done)) as Hdm.
  pose proof (Z.mod_pos_bound va (2 ^ 22) ltac:(done)) as Hm. unfold KERNBASE in *. unfold entrypgdir.
  change (Z.to_nat (Z.shiftr KERNBASE PDXSHIFT)) with 512%nat.
  set (e := Z.lor _ PTE_PS). assert (large_page e va = Some (va mod 2 ^ 22)) as He by reflexivity.
  destruct (decide (va / 2 ^ 22 = 512)) as [E|E].
  - rewrite E. rewrite (lookup_total_Some _ _ e) by reflexivity. rewrite decide_False, decide_True by lia.
    rewrite He. f_equal. unfold V2P, KERNBASE. rewrite u32_small by lia. lia.
  - destruct (decide (va / 2 ^ 22 = 0)) as [E0|E0].
    + rewrite E0. rewrite (lookup_total_Some _ _ e) by reflexivity. rewrite decide_True by lia.
      rewrite He. f_equal. lia.
    + rewrite decide_False, decide_False by lia. rewrite (lookup_total_Some _ _ 0); [done|].
      rewrite !list_lookup_insert_ne by lia. apply lookup_replicate_2. unfold NPDENTRIES. lia.
Qed.

(** ** A machine with two processors *)

Definition sym0 : Symbols :=
  {| vectors := λ i, u32 (0x80105000 + 10 * i); sym_idt := 0x80110000; sym_gdt := λ c, 0x80120000 + 176 * Z.of_nat c;
     sym_mpenter := 0x80102EE0; sym_entrypgdir := 0x80109000; entryother := [0xFA; 0x31; 0xC0] |}.
(** Its I/O APIC: id 5, 24 lines. *)
Definition ioa0 (i : Z) : Z := if i =? REG_VER then 0x170011 else if i =? REG_ID then 0x5000000 else 0.
Definition dev_ioa : Devices :=
  {| dev_in := λ _ _, 0x60; dev_insl := λ _ _ _, []; 
     dev_load := λ h a, let i := (ioapic_of h ioa0).1 in
       if (i =? REG_VER) || (i =? REG_ID) then ioa0 i else (ioapic_of h ioa0).2 i |}.
Definition free_page : Z := P2V 0x200000.
Definition boot2 : bootst :=
  let d := zero_data (Image (P2V 0x110000) 0 0 0 []) (λ _, 0) (λ _ _, []) in
  Boot (K (Mach 0 0 (Some 0) [Cpu 0 0 0 None 0 0 0 0; Cpu 3 0 0 None 0 0 0 0] 2 ∅)
          (d <| d_mm := d_mm d <| mm_freelist := free_page |> |>))
    0xFEE00000 IOAPIC 5 (replicate 2 (replicate NSEGS seg0)) (replicate 256 gate0) (0, 0) (0, 0).

Lemma protection_tables_witness :
  (∃ b', @tvinit sym0 1%nat (H boot2 []) = Done tt (H b' []) ∧ cpu_dpl (gate_at b' 64) = 3 ∧ cpu_dpl (gate_at b' 14) = 0)
  ∧ ∃ b', @seginit sym0 1%nat (H boot2 []) = Done tt (H b' []) ∧ flat (seg_at b' 0 SEG_UDATA) STA_W DPL_USER.
Proof.
  destruct (@protection_tables sym0 1%nat boot2 [] 0%nat) as [(b1 & Hd1 & Hg) (b2 & Hd2 & _ & _ & _ & Hs & _)].
  - reflexivity.
  - intros i. apply u32_range.
  - reflexivity.
  - exists (replicate NSEGS seg0). split; reflexivity.
  - split; [exists b1 | exists b2].
    + split; [exact Hd1|]. split; [apply (Hg 64); lia | apply (Hg 14); lia].
    + split; [exact Hd2 | exact Hs].
Defined.

Lemma startothers_spec_witness :
  wp (@ap_answers sym0) (@startothers dev_ioa sym0 1%nat (H boot2 []))
    (λ _ x, c_started (b_cpus (h_s x) !!! 1%nat) ≠ 0).
Proof.
  eapply wp_mono; [|apply (@startothers_spec dev_ioa sym0 1%nat 0%nat boot2 [] [free_page])].
  - intros [] x [Hx _]. apply (Hx 1%nat); [apply Nat.lt_1_2 | discriminate].
  - apply Nat.le_refl.
  - reflexivity.
  - reflexivity.
  - apply Nat.le_refl.
  - apply Nat.le_refl.
  - repeat (constructor; [simpl; lia|]). constructor.
  - reflexivity.
  - vm_compute. discriminate.
  - split; [split; reflexivity | constructor; [|constructor] | apply NoDup_singleton].
    split; [reflexivity|]. split; [vm_compute; discriminate|]. split; vm_compute; reflexivity.
  - simpl. lia.
  - repeat (constructor; [lia|]). constructor.
Defined.

