(* ===== verification/Asm.v ===== *)
(** * Asm: the assembly files of the kernel and of the user library

    swtch.S, trapasm.S, vectors.S (as vectors.pl writes it), usys.S and
    initcode.S as lists of instructions, and the processor that runs them:
    registers, memory as the program sees it through its page table, and what
    the processor does at an interrupt and at iret.  The segments are flat (see
    BootFacts), so that an address is an offset; faults of the accesses
    themselves are left out. *)

From S2P Require Import Prelude Memory Kstate Io Trap.

Inductive reg := EAX | ECX | EDX | EBX | ESP | EBP | ESI | EDI.
Inductive seg := CS | DS | ES | FS | GS | SS.
#[export] Instance reg_eq_dec : EqDecision reg.
Proof. solve_decision. Defined.
#[export] Instance seg_eq_dec : EqDecision seg.
Proof. solve_decision. Defined.

(** The processor.  [idt i] is the descriptor of interrupt i; [esp0] and [ss0]
    are the stack of the task state segment, which switchuvm sets. *)
Record x86cpu := X86 {
  regs : reg → Z;
  segs : seg → Z;
  eip : Z;
  eflags : Z;
  cmem : mem;
  idt : Z → Z;
  esp0 : Z;
  ss0 : Z
}.
#[export] Instance set_regs : Setter regs :=
  λ g c, X86 (g (regs c)) (segs c) (eip c) (eflags c) (cmem c) (idt c) (esp0 c) (ss0 c).
#[export] Instance set_segs : Setter segs :=
  λ g c, X86 (regs c) (g (segs c)) (eip c) (eflags c) (cmem c) (idt c) (esp0 c) (ss0 c).
#[export] Instance set_eip : Setter eip :=
  λ g c, X86 (regs c) (segs c) (g (eip c)) (eflags c) (cmem c) (idt c) (esp0 c) (ss0 c).
#[export] Instance set_eflags : Setter eflags :=
  λ g c, X86 (regs c) (segs c) (eip c) (g (eflags c)) (cmem c) (idt c) (esp0 c) (ss0 c).
#[export] Instance set_cmem : Setter cmem :=
  λ g c, X86 (regs c) (segs c) (eip c) (eflags c) (g (cmem c)) (idt c) (esp0 c) (ss0 c).

Definition setr (r : reg) (v : Z) (c : x86cpu) : x86cpu := c <| regs := <[r := v]> (regs c) |>.
Definition sets (s : seg) (v : Z) (c : x86cpu) : x86cpu := c <| segs := <[s := v]> (segs c) |>.

(** The privilege level that a selector asks for. *)
Definition rpl (sel : Z) : Z := Z.land sel 3.

(** ** Instructions *)

(** The symbols of the files, and those of the C code that they use. *)
Inductive label :=
  Swtch | Alltraps | Trapret | Vector (i : Z) | Stub (name : string) | Start | Exit | Sym_trap | Sym_init | Sym_argv.
#[export] Instance label_eq_dec : EqDecision label.
Proof. solve_decision. Defined.

Inductive instr :=
  | movl_load (disp : Z) (base dst : reg)  (* movl disp(%base), %dst *)
  | movl_store (src base : reg)            (* movl %src, (%base) *)
  | movl (src dst : reg)
  | movl_imm (v : Z) (dst : reg)
  | movw_imm (v : Z) (dst : reg)           (* the low half of dst *)
  | movw_seg (src : reg) (dst : seg)
  | pushl (r : reg)
  | pushl_imm (v : Z)
  | pushl_sym (l : label)
  | pushl_seg (s : seg)
  | popl (r : reg)
  | popl_seg (s : seg)
  | pushal
  | popal
  | addl_imm (v : Z) (dst : reg)
  | jmp (l : label)
  | call (l : label)
  | ret
  | int (n : Z)
  | iret.

#[export] Instance instr_eq_dec : EqDecision instr.
Proof. solve_decision. Defined.

(** A line of a file: an instruction, with the label before it. *)
Notation line := (option label * instr)%type.

(** Where the linker puts things: the address of the n-th instruction of the
    text and of the symbols of other files.  [seg_pad]: the upper half of the
    word that a push of a segment register leaves, which differs between
    processors. *)
Class Linker := {
  addr : nat → Z;
  ext : label → Z;
  seg_pad : x86cpu → Z
}.

Section machine.
Context `{Linker}.

Definition push (v : Z) (c : x86cpu) : x86cpu :=
  let sp := regs c ESP -u 4 in
  setr ESP sp (c <| cmem := store32 (cmem c) sp v |>).
Definition push_seg (sel : Z) (c : x86cpu) : x86cpu := push (u16 sel + 2 ^ 16 * u16 (seg_pad c)) c.
Definition top (c : x86cpu) : Z := load32 (cmem c) (regs c ESP).
Definition drop4 (c : x86cpu) : x86cpu := setr ESP (regs c ESP +u 4) c.

(** The flags that an addition sets: CF, PF, AF, ZF, SF and OF. *)
Definition add_flags (a b : Z) : Z :=
  let r := a +u b in
  let parity := foldr (λ i p, xorb (Z.testbit r i) p) true [0; 1; 2; 3; 4; 5; 6; 7] in
  Z.b2z (2 ^ 32 <=? u32 a + u32 b)
  + 4 * Z.b2z parity
  + 16 * Z.b2z (16 <=? a mod 16 + b mod 16)
  + 64 * Z.b2z (r =? 0)
  + 128 * Z.b2z (Z.testbit r 31)
  + 2048 * Z.b2z (negb (Bool.eqb (Z.testbit r 31) (Z.testbit a 31)) && Bool.eqb (Z.testbit a 31) (Z.testbit b 31)).
Definition arith_flags : Z := 0x8D5.

(** *** Interrupts

    The processor takes the handler from the descriptor; when it comes from a
    less privileged level it first switches to the stack of the task state
    segment and saves the old one there.  An interrupt gate turns interrupts
    off, a trap gate does not; both clear the flags TF, NT, RF and VM. *)
Definition interrupt (n : Z) (err : option Z) (c : x86cpu) : x86cpu :=
  let g := idt c n in
  let c1 :=
    if rpl (cpu_selector g) <? rpl (segs c CS) then
      push (regs c ESP) (push_seg (segs c SS) (setr ESP (esp0 c) (sets SS (ss0 c) c)))
    else c in
  let c2 := push (eip c) (push_seg (segs c CS) (push (eflags c) c1)) in
  let c3 := match err with Some e => push e c2 | None => c2 end in
  let off := Z.lor 0x34100 (if cpu_type g =? STS_IG32 then FL_IF else 0) in
  sets CS (cpu_selector g)
    (c3 <| eip := cpu_handler g |> <| eflags := Z.land (eflags c) (Z.lnot off) |>).

(** [int n]: a program may only use a gate of its own level; otherwise it is a
    general protection fault of the instruction, at [pc]. *)
Definition T_GPFLT : Z := 13.
Definition soft_int (n pc : Z) (c : x86cpu) : x86cpu :=
  if cpu_dpl (idt c n) <? rpl (segs c CS) then interrupt T_GPFLT (Some (8 * n + 2)) (c <| eip := pc |>)
  else interrupt n None c.

(** [iret] also takes the stack back when it returns to a less privileged
    level. *)
Definition iret_ (c : x86cpu) : x86cpu :=
  let pc := top c in let c := drop4 c in
  let sel := u16 (top c) in let c := drop4 c in
  let fl := top c in let c := drop4 c in
  let cs_old := segs c CS in
  let c := sets CS sel (c <| eip := pc |> <| eflags := fl |>) in
  if rpl cs_old <? rpl sel then
    let sp := top c in let c := drop4 c in
    sets SS (u16 (top c)) (setr ESP sp c)
  else c.

Definition pushal_ (c : x86cpu) : x86cpu :=
  push (regs c EDI) (push (regs c ESI) (push (regs c EBP) (push (regs c ESP)
    (push (regs c EBX) (push (regs c EDX) (push (regs c ECX) (push (regs c EAX) c))))))).
Definition pop_reg (r : reg) (c : x86cpu) : x86cpu := setr r (top c) (drop4 c).
Definition popal_ (c : x86cpu) : x86cpu :=
  pop_reg EAX (pop_reg ECX (pop_reg EDX (pop_reg EBX (drop4 (pop_reg EBP (pop_reg ESI (pop_reg EDI c))))))).

(** ** The text *)

Variable text : list line.

Fixpoint find_label (k : nat) (t : list line) (l : label) : option nat :=
  match t with
  | [] => None
  | (lb, _) :: t => if decide (lb = Some l) then Some k else find_label (S k) t l
  end.
Definition sym (l : label) : Z :=
  match find_label 0 text l with Some k => addr k | None => ext l end.

(** [exec_instr i pc next c]: the instruction at [pc], with the next one at [next]. *)
Definition exec_instr (i : instr) (pc next : Z) (c0 : x86cpu) : x86cpu :=
  let c := c0 <| eip := next |> in
  match i with
  | movl_load disp base dst => setr dst (load32 (cmem c) (regs c base +u disp)) c
  | movl_store src base => c <| cmem := store32 (cmem c) (regs c base) (regs c src) |>
  | movl src dst => setr dst (regs c src) c
  | movl_imm v dst => setr dst (u32 v) c
  | movw_imm v dst => setr dst (2 ^ 16 * (regs c dst / 2 ^ 16) + u16 v) c
  | movw_seg src dst => sets dst (u16 (regs c src)) c
  | pushl r => push (regs c r) c
  | pushl_imm v => push (u32 v) c
  | pushl_sym l => push (sym l) c
  | pushl_seg s => push_seg (segs c s) c
  | popl r => pop_reg r c
  | popl_seg s => sets s (u16 (top c)) (drop4 c)
  | pushal => pushal_ c
  | popal => popal_ c
  | addl_imm v dst =>
    setr dst (regs c dst +u v)
      (c <| eflags := Z.lor (Z.land (eflags c) (Z.lnot arith_flags)) (add_flags (regs c dst) v) |>)
  | jmp l => c <| eip := sym l |>
  | call l => push next c <| eip := sym l |>
  | ret => drop4 c <| eip := top c |>
  | int n => soft_int n pc c
  | iret => iret_ c
  end.

Fixpoint fetch (k : nat) (t : list line) (a : Z) : option (nat * instr) :=
  match t with
  | [] => None
  | (_, i) :: t => if addr k =? a then Some (k, i) else fetch (S k) t a
  end.
(** One step; none when the processor is in code that is not of the text. *)
Definition step (c : x86cpu) : option x86cpu :=
  '(k, i) ← fetch 0 text (eip c); Some (exec_instr i (addr k) (addr (S k)) c).

(** [n] steps. *)
Fixpoint steps (n : nat) (c : x86cpu) : option x86cpu :=
  match n with
  | O => Some c
  | S n => c' ← step c; steps n c'
  end.

End machine.

(** ** The files *)

Definition at_ (l : label) (i : instr) : line := (Some l, i).
Definition ins (i : instr) : line := (None, i).

Definition swtch_S : list line :=
  [at_ Swtch (movl_load 4 ESP EAX);
   ins (movl_load 8 ESP EDX);
   ins (pushl EBP);
   ins (pushl EBX);
   ins (pushl ESI);
   ins (pushl EDI);
   ins (movl_store ESP EAX);
   ins (movl EDX ESP);
   ins (popl EDI);
   ins (popl ESI);
   ins (popl EBX);
   ins (popl EBP);
   ins ret].

Definition trapasm_S : list line :=
  [at_ Alltraps (pushl_seg DS);
   ins (pushl_seg ES);
   ins (pushl_seg FS);
   ins (pushl_seg GS);
   ins pushal;
   ins (movw_imm (Z.shiftl SEG_KDATA 3) EAX);
   ins (movw_seg EAX DS);
   ins (movw_seg EAX ES);
   ins (pushl ESP);
   ins (call Sym_trap);
   ins (addl_imm 4 ESP);
   at_ Trapret popal;
   ins (popl_seg GS);
   ins (popl_seg FS);
   ins (popl_seg ES);
   ins (popl_seg DS);
   ins (addl_imm 8 ESP);
   ins iret].

(** vectors.pl: the interrupts for which the processor pushes an error code. *)
Definition has_err (i : Z) : bool := (i =? 8) || ((10 <=? i) && (i <=? 14)) || (i =? 17).
Definition vector (i : Z) : list line :=
  if has_err i then [at_ (Vector i) (pushl_imm i); ins (jmp Alltraps)]
  else [at_ (Vector i) (pushl_imm 0); ins (pushl_imm i); ins (jmp Alltraps)].
Definition vectors_S : list line := mjoin (vector <$> seqZ 0 256).

Definition kernel_S : list line := swtch_S ++ trapasm_S ++ vectors_S.

(** syscall.h, in the order of usys.S. *)
Definition usys_names : list (string * Z) :=
  [("fork", 1); ("exit", 2); ("wait", 3); ("pipe", 4); ("read", 5); ("write", 16); ("close", 21);
   ("kill", 6); ("exec", 7); ("open", 15); ("mknod", 17); ("unlink", 18); ("fstat", 8); ("link", 19);
   ("mkdir", 20); ("chdir", 9); ("dup", 10); ("getpid", 11); ("sbrk", 12); ("sleep", 13);
   ("uptime", 14); ("halt", 22); ("cps", 23); ("getppid", 24); ("getsz", 25); ("chpr", 26);
   ("getcount", 27); ("time", 28); ("utctime", 29); ("dup2", 30)]%string.
Definition SYSCALL (name : string) (no : Z) : list line :=
  [at_ (Stub name) (movl_imm no EAX); ins (int T_SYSCALL); ins ret].
Definition usys_S : list line := mjoin ((λ p, SYSCALL p.1 p.2) <$> usys_names).

Definition SYS_exec : Z := 7.
Definition SYS_exit : Z := 2.
Definition initcode_S : list line :=
  [at_ Start (pushl_sym Sym_argv);
   ins (pushl_sym Sym_init);
   ins (pushl_imm 0);
   ins (movl_imm SYS_exec EAX);
   ins (int T_SYSCALL);
   at_ Exit (movl_imm SYS_exit EAX);
   ins (int T_SYSCALL);
   ins (jmp Exit)].

(** x86.h: struct trapframe. *)
Record trapframe := Trapframe {
  t_edi : Z; t_esi : Z; t_ebp : Z; t_oesp : Z; t_ebx : Z; t_edx : Z; t_ecx : Z; t_eax : Z;
  t_gs : Z; t_fs : Z; t_es : Z; t_ds : Z;
  t_trapno : Z; t_err : Z; t_eip : Z; t_cs : Z; t_eflags : Z; t_esp : Z; t_ss : Z
}.
Definition trapframe_at (m : mem) (a : Z) : trapframe :=
  Trapframe (load32 m a) (load32 m (a + 4)) (load32 m (a + 8)) (load32 m (a + 12)) (load32 m (a + 16))
    (load32 m (a + 20)) (load32 m (a + 24)) (load32 m (a + tf_eax))
    (load16 m (a + 32)) (load16 m (a + 36)) (load16 m (a + tf_es)) (load16 m (a + tf_ds))
    (load32 m (a + tf_trapno)) (load32 m (a + tf_err)) (load32 m (a + tf_eip)) (load16 m (a + tf_cs))
    (load32 m (a + tf_eflags)) (load32 m (a + tf_esp)) (load16 m (a + tf_ss)).

(** proc.h: struct context. *)
Record context := Context_ { x_edi : Z; x_esi : Z; x_ebx : Z; x_ebp : Z; x_eip : Z }.
Definition context_at (m : mem) (a : Z) : context :=
  Context_ (load32 m a) (load32 m (a + 4)) (load32 m (a + 8)) (load32 m (a + ctx_ebp)) (load32 m (a + ctx_eip)).
