(* ===== verification/AsmFacts.v ===== *)
(** * AsmFacts: context switches, traps and system calls at the level of instructions *)

From S2P Require Import Prelude Memory Kstate Spinlock Kalloc Sched SchedFacts Io Trap Mp Boot BootFacts Asm.

(** ** Words on a stack *)

Definition words (m : mem) (a : Z) (ws : list Z) : Prop :=
  ∀ j w, ws !! j = Some w → load32 m (a + 4 * Z.of_nat j) = w.

Lemma words_cons m a w ws : words m a (w :: ws) ↔ load32 m a = w ∧ words m (a + 4) ws.
Proof.
  split.
  - intros Hw. split; [rewrite <- (Hw O w) by done; f_equal; lia|].
    intros j x Hx. rewrite <- (Hw (S j) x) by done. f_equal. lia.
  - intros [H1 H2] [|j] x Hx; simpl in Hx.
    + injection Hx as <-. rewrite <- H1. f_equal. lia.
    + rewrite <- (H2 _ _ Hx). f_equal. lia.
Qed.
Lemma words_frame m m' a ws :
  (∀ b, a <= b < a + 4 * Z.of_nat (length ws) → m' b = m b) → words m a ws → words m' a ws.
Proof.
  intros Hm Hw j w Hj. rewrite <- (Hw _ _ Hj). apply load32_frame. intros b Hb. apply Hm.
  apply lookup_lt_Some in Hj. lia.
Qed.
Lemma words_push m a w ws : is_u32 w → words m (a + 4) ws → words (store32 m a w) a (w :: ws).
Proof.
  intros Hw Hs. apply words_cons. split; [rewrite load32_store32; by apply u32_small|].
  eapply words_frame; [|done]. intros b Hb. apply store32_frame. lia.
Qed.

(** Half a word. *)
Lemma load16_load32 m a : mem_ok m → load16 m a = u16 (load32 m a).
Proof.
  intros Hm. unfold load16, load32, u16. pose proof (Hm a). pose proof (Hm (a + 1)).
  pose proof (Hm (a + 2)). pose proof (Hm (a + 3)).
  replace (_ + _ + _ + _) with (m a + 2 ^ 8 * m (a + 1) + (m (a + 2) + 2 ^ 8 * m (a + 3)) * 2 ^ 16) by lia.
  rewrite Z.mod_add, Z.mod_small by lia. done.
Qed.
Lemma u16_half x h : 0 <= x < 2 ^ 16 → u16 (u16 x + 2 ^ 16 * h) = x.
Proof. intros Hx. unfold u16. rewrite Z.mul_comm, Z.mod_add, Z.mod_mod, Z.mod_small by lia. done. Qed.
Lemma u16_low x v : 0 <= v < 2 ^ 16 → u16 (2 ^ 16 * x + u16 v) = v.
Proof. intros Hv. rewrite Z.add_comm. by apply u16_half. Qed.
Lemma half_u32 x h : is_u32 (u16 x + 2 ^ 16 * u16 h).
Proof.
  pose proof (Z.mod_pos_bound x (2 ^ 16)). pose proof (Z.mod_pos_bound h (2 ^ 16)).
  unfold is_u32, u16 in *. lia.
Qed.
Lemma words_push_at m a a' w ws :
  a' = a + 4 → is_u32 w → words m a' ws → words (store32 m a w) a (w :: ws).
Proof. intros -> ? ?. by apply words_push. Qed.
Lemma words_nil m a : words m a [].
Proof. intros j w Hj. done. Qed.

(** ** Running the text *)

Section run.
Context `{Linker}.
Variable text : list line.

Definition reach (c c' : x86cpu) : Prop := ∃ n, steps text n c = Some c'.
Lemma reach_refl c : reach c c.
Proof. by exists O. Qed.
Lemma reach_step c c1 c2 : step text c = Some c1 → reach c1 c2 → reach c c2.
Proof. intros H1 [n Hn]. exists (S n). simpl. by rewrite H1. Qed.
Lemma reach_trans c1 c2 c3 : reach c1 c2 → reach c2 c3 → reach c1 c3.
Proof.
  intros [n Hn]. revert c1 Hn. induction n as [|n IH]; intros c1 Hn H2; simpl in Hn; [by simplify_eq|].
  destruct (step text c1) as [c|] eqn:E; [|done]. eapply reach_step; [done|]. by apply IH.
Qed.

Lemma reach_then c c1 (P : x86cpu → Prop) :
  step text c = Some c1 → (∃ c', reach c1 c' ∧ P c') → ∃ c', reach c c' ∧ P c'.
Proof. intros Hs (c' & Hc & HP). exists c'. split; [by eapply reach_step | done]. Qed.
Lemma reach_more c c1 (P : x86cpu → Prop) :
  reach c c1 → (∃ c', reach c1 c' ∧ P c') → ∃ c', reach c c' ∧ P c'.
Proof. intros Hs (c' & Hc & HP). exists c'. split; [by eapply reach_trans | done]. Qed.

(** The linker gives every instruction an address of its own. *)
Record placed : Prop := {
  addr_inj : ∀ j k, (j < length text)%nat → (k < length text)%nat → addr j = addr k → j = k;
  addr_u32 : ∀ k, is_u32 (addr k)
}.

Lemma fetch_at t : ∀ k j lb i,
  (∀ j' k', (j' < k + length t)%nat → (k' < k + length t)%nat → addr j' = addr k' → j' = k') →
  t !! j = Some (lb, i) → fetch k t (addr (k + j)) = Some ((k + j)%nat, i).
Proof.
  induction t as [|[lb' i'] t IH]; intros k j lb i Hi Hj; [done|]. simpl in *. destruct j as [|j].
  - simplify_eq/=. by rewrite Nat.add_0_r, Z.eqb_refl.
  - apply lookup_lt_Some in Hj as Hlt. simpl in *.
    rewrite (proj2 (Z.eqb_neq _ _)) by (intros E; apply Hi in E; lia).
    replace (k + S j)%nat with (S k + j)%nat by lia. eapply IH; [|done].
    intros. apply Hi; [lia | lia | done].
Qed.
Lemma step_at k lb i c :
  placed → text !! k = Some (lb, i) → eip c = addr k →
  step text c = Some (exec_instr text i (addr k) (addr (S k)) c).
Proof.
  intros Hlink Hk Hc. unfold step. rewrite Hc.
  change (addr k) with (addr (0 + k)) at 1. by rewrite (fetch_at text 0 k lb i) by (done || apply Hlink).
Qed.

Lemma find_label_app t t' l : ∀ k j, find_label k t l = Some j → find_label k (t ++ t') l = Some j.
Proof. induction t as [|[lb i] t IH]; intros k j; simpl; [done|]. case_decide; [done | apply IH]. Qed.
End run.

(** The operations on a processor whose fields are known. *)
Section fields.
Context `{Linker}.
Variables (R : reg → Z) (S : seg → Z) (pc fl e0 s0 : Z) (M : mem) (I : Z → Z).
Notation c := (X86 R S pc fl M I e0 s0).
Lemma cpu_eip v : c <| eip := v |> = X86 R S v fl M I e0 s0.
Proof. done. Qed.
Lemma cpu_eflags v : c <| eflags := v |> = X86 R S pc v M I e0 s0.
Proof. done. Qed.
Lemma cpu_cmem v : c <| cmem := v |> = X86 R S pc fl v I e0 s0.
Proof. done. Qed.
Lemma cpu_setr r v : setr r v c = X86 (<[r := v]> R) S pc fl M I e0 s0.
Proof. done. Qed.
Lemma cpu_sets s v : sets s v c = X86 R (<[s := v]> S) pc fl M I e0 s0.
Proof. done. Qed.
Lemma cpu_push v : push v c = X86 (<[ESP := R ESP -u 4]> R) S pc fl (store32 M (R ESP -u 4) v) I e0 s0.
Proof. done. Qed.
Lemma cpu_drop4 : drop4 c = X86 (<[ESP := R ESP +u 4]> R) S pc fl M I e0 s0.
Proof. done. Qed.
Lemma cpu_pop_reg r :
  pop_reg r c = X86 (<[r := load32 M (R ESP)]> (<[ESP := R ESP +u 4]> R)) S pc fl M I e0 s0.
Proof. done. Qed.
End fields.

(** Evaluates the fields of the processor after an instruction. *)
Ltac cpu_simpl :=
  cbv beta iota zeta delta [exec_instr];
  repeat (progress
    (first [rewrite cpu_eip | rewrite cpu_eflags | rewrite cpu_cmem | rewrite cpu_setr | rewrite cpu_sets
           | rewrite cpu_push | rewrite cpu_drop4 | rewrite cpu_pop_reg
           | progress unfold push_seg, top | progress unfold pushal_ | progress unfold popal_];
     cbn [regs segs eip eflags cmem idt esp0 ss0];
     rewrite ?fn_lookup_insert; rewrite ?fn_lookup_insert_ne by discriminate));
  cbn [regs segs eip eflags cmem idt esp0 ss0];
  repeat (rewrite fn_lookup_insert || rewrite fn_lookup_insert_ne by discriminate).

(** Addresses that do not wrap around. *)
Ltac small := repeat match goal with |- context [u32 ?x] => rewrite (u32_small x) by lia end.

(** The kernel's files, with the file of the program that runs. *)
Definition all_S (user : list line) : list line := kernel_S ++ user.

Section kernel.
Context `{Linker}.
Variable user : list line.
Notation text := (all_S user).

Lemma kernel_step k lb i c :
  placed text → kernel_S !! k = Some (lb, i) → eip c = addr k →
  step text c = Some (exec_instr text i (addr k) (addr (S k)) c).
Proof. intros Hl Hk. apply (step_at _ k lb); [done|]. by apply lookup_app_l_Some. Qed.

Lemma kernel_sym l k : find_label 0 kernel_S l = Some k → sym text l = addr k.
Proof. intros E. unfold sym, all_S. by rewrite (find_label_app _ _ _ _ _ E). Qed.
Lemma sym_Swtch : sym text Swtch = addr 0.
Proof. by apply kernel_sym. Qed.
Lemma sym_Alltraps : sym text Alltraps = addr 13.
Proof. by apply kernel_sym. Qed.
Lemma sym_Trapret : sym text Trapret = addr 24.
Proof. by apply kernel_sym. Qed.

(** One instruction of the kernel's files, in a goal [∃ c', reach text c c' ∧ P c']. *)
Ltac asm k :=
  eapply reach_then; [eapply (kernel_step k); [done | reflexivity | reflexivity]|]; cpu_simpl; small.

(** What a push of a segment register leaves in the upper half can be anything. *)
Ltac some_pad p := lazymatch goal with |- context [seg_pad ?c] => generalize (seg_pad c); intros p end.

(** ** Context switches *)

(** The processor at the entry of swtch(old, new), called from [ret]. *)
Definition swtch_call (c : x86cpu) (ret old new : Z) : Prop :=
  let sp := regs c ESP in
  eip c = sym text Swtch ∧ (∀ r, is_u32 (regs c r))
  ∧ words (cmem c) sp [ret; old; new] ∧ 16 <= sp ∧ sp + 12 <= 2 ^ 32 ∧ 0 <= new ∧ new + 20 < 2 ^ 32
  (* neither the words that swtch saves nor *old are in the context to switch to *)
  ∧ (new + 20 <= sp - 16 ∨ sp <= new)
  ∧ (old + 4 <= new ∨ new + 20 <= old)
  (* *old is not in the context that swtch saves *)
  ∧ (old + 4 <= sp - 16 ∨ sp + 4 <= old).

Lemma swtch_run c ret old new :
  placed text → swtch_call c ret old new →
  let sp := regs c ESP in let x := context_at (cmem c) new in
  ∃ c', reach text c c' ∧ eip c' = x_eip x
    ∧ regs c' EDI = x_edi x ∧ regs c' ESI = x_esi x ∧ regs c' EBX = x_ebx x ∧ regs c' EBP = x_ebp x
    ∧ regs c' ESP = new + 20
    ∧ context_at (cmem c') (sp - 16) = Context_ (regs c EDI) (regs c ESI) (regs c EBX) (regs c EBP) ret
    ∧ load32 (cmem c') old = sp - 16
    ∧ (∀ b, ¬ (sp - 16 <= b < sp) → ¬ (old <= b < old + 4) → cmem c' b = cmem c b).
Proof.
  intros Hl (Hpc & Hr & Hw & Hsp & Hsp' & Hnew0 & Hnew & Hd1 & Hd2 & Hd3) sp x.
  rewrite sym_Swtch in Hpc. destruct c as [R S pc fl M I e0 s0].
  cbn [regs segs eip eflags cmem] in *. subst pc sp x.
  apply words_cons in Hw as [Hw1 Hw]. apply words_cons in Hw as [Hw2 Hw]. apply words_cons in Hw as [Hw3 _].
  asm 0%nat. rewrite Hw2.
  asm 1%nat. replace (R ESP + 8) with (R ESP + 4 + 4) by lia. rewrite Hw3.
  asm 2%nat. asm 3%nat. asm 4%nat. asm 5%nat. asm 6%nat. asm 7%nat.
  asm 8%nat. asm 9%nat. asm 10%nat. asm 11%nat. asm 12%nat.
  eexists. split; [apply reach_refl|]. cpu_simpl. set (m' := store32 _ old _).
  assert (Hf : ∀ b, ¬ (R ESP - 16 <= b < R ESP) → ¬ (old <= b < old + 4) → m' b = M b).
  { intros b H1 H2. unfold m'. rewrite !store32_frame by lia. done. }
  assert (Hs : words m' (R ESP - 4 - 4 - 4 - 4) [R EDI; R ESI; R EBX; R EBP; ret]).
  { apply (words_frame (store32 (store32 (store32 (store32 M (R ESP - 4) (R EBP)) (R ESP - 4 - 4) (R EBX))
      (R ESP - 4 - 4 - 4) (R ESI)) (R ESP - 4 - 4 - 4 - 4) (R EDI))).
    { intros b Hb. apply store32_frame. simpl in Hb. lia. }
    do 4 (eapply words_push_at; [|apply Hr|]; [by rewrite Z.sub_add|]).
    apply words_cons. split; [done | apply words_nil]. }
  assert (Hn : ∀ a, new <= a <= new + 16 → load32 m' a = load32 M a).
  { intros a Ha. apply load32_frame. intros b Hb. apply Hf; lia. }
  unfold context_at, ctx_ebp, ctx_eip. cbn [x_edi x_esi x_ebx x_ebp x_eip].
  rewrite !Hn by lia. split_and!; try (f_equal; lia); try lia; [| |exact Hf].
  - repeat (apply words_cons in Hs as [<- Hs]). f_equal; f_equal; lia.
  - unfold m'. rewrite load32_store32, u32_small by lia. lia.
Qed.

(** C12: swtch is, for the thread that calls it, a function that returns later.
    It stores the address of the thread's context in *old and goes on in the
    other thread; when any thread, on any processor, later switches to this
    context and nothing has written to it, the caller continues after its call
    with its stack and with the registers that a function must preserve. *)
Theorem swtch_resumes c1 ret1 old1 new1 :
  placed text → swtch_call c1 ret1 old1 new1 →
  ∃ c1' ctx, reach text c1 c1' ∧ eip c1' = x_eip (context_at (cmem c1) new1) ∧ regs c1' ESP = new1 + 20
    ∧ load32 (cmem c1') old1 = ctx
    ∧ ∀ c2 ret2 old2, swtch_call c2 ret2 old2 ctx →
      (∀ b, ctx <= b < ctx + 20 → cmem c2 b = cmem c1' b) →
      ∃ c2', reach text c2 c2' ∧ eip c2' = ret1 ∧ regs c2' ESP = regs c1 ESP + 4
        ∧ ∀ r, r ∈ [EBX; ESI; EDI; EBP] → regs c2' r = regs c1 r.
Proof.
  intros Hl Hc. destruct (swtch_run _ _ _ _ Hl Hc) as (c1' & H1 & H2 & _ & _ & _ & _ & H3 & H4 & H5 & _).
  exists c1', (regs c1 ESP - 16). split_and!; try done. intros c2 ret2 old2 Hc2 Hm.
  destruct (swtch_run _ _ _ _ Hl Hc2) as (c2' & G1 & G2 & G3 & G4 & G5 & G6 & G7 & _).
  assert (E : context_at (cmem c2) (regs c1 ESP - 16) = context_at (cmem c1') (regs c1 ESP - 16)).
  { unfold context_at, ctx_ebp, ctx_eip. f_equal; apply load32_frame; intros b Hb; apply Hm; lia. }
  rewrite E, H4 in *. cbn [x_edi x_esi x_ebx x_ebp x_eip] in *.
  exists c2'. split_and!; [done | done | lia|]. intros r Hr. set_unfold in Hr. naive_solver.
Qed.

(** ** Traps *)

Lemma trapframe_words m a edi esi ebp oesp ebx edx ecx eax gs fs es ds no err pc cs fl sp ss ws :
  mem_ok m →
  words m a ([edi; esi; ebp; oesp; ebx; edx; ecx; eax; gs; fs; es; ds; no; err; pc; cs; fl; sp; ss] ++ ws) →
  trapframe_at m a
  = Trapframe edi esi ebp oesp ebx edx ecx eax (u16 gs) (u16 fs) (u16 es) (u16 ds) no err pc (u16 cs) fl sp (u16 ss).
Proof.
  intros Hm Hw. cbn [app] in Hw. unfold trapframe_at. rewrite !load16_load32 by done.
  unfold tf_eax, tf_es, tf_ds, tf_trapno, tf_err, tf_eip, tf_cs, tf_eflags, tf_esp, tf_ss.
  repeat (apply words_cons in Hw as [<- Hw]).
  f_equal; repeat (f_equal; try lia).
Qed.

(** trap is called with the address of the frame that alltraps completes below
    the words [ws] that vectors.S and the processor have pushed. *)
Lemma alltraps_run c ws :
  placed text → eip c = sym text Alltraps → (∀ r, is_u32 (regs c r)) → mem_ok (cmem c) →
  let sp := regs c ESP in 56 <= sp → words (cmem c) sp ws →
  ∃ c', reach text c c' ∧
    ∃ p1 p2 p3 p4, eip c' = sym text Sym_trap ∧ regs c' ESP = sp - 56
    ∧ words (cmem c') (sp - 56)
        ([addr 23; sp - 48; regs c EDI; regs c ESI; regs c EBP; sp - 16; regs c EBX; regs c EDX; regs c ECX; regs c EAX;
          u16 (segs c GS) + 2 ^ 16 * u16 p4; u16 (segs c FS) + 2 ^ 16 * u16 p3;
          u16 (segs c ES) + 2 ^ 16 * u16 p2; u16 (segs c DS) + 2 ^ 16 * u16 p1] ++ ws)
    ∧ segs c' DS = Z.shiftl SEG_KDATA 3 ∧ segs c' ES = Z.shiftl SEG_KDATA 3
    ∧ segs c' CS = segs c CS ∧ segs c' SS = segs c SS ∧ eflags c' = eflags c
    ∧ mem_ok (cmem c') ∧ (∀ b, ¬ (sp - 56 <= b < sp) → cmem c' b = cmem c b).
Proof.
  intros Hl Hpc Hr Hm sp Hsp Hw. rewrite sym_Alltraps in Hpc. destruct c as [R S pc fl M I e0 s0].
  cbn [regs segs eip eflags cmem] in *. subst pc. unfold sp in *. clear sp. pose proof (Hr ESP) as Hsp'. unfold is_u32 in Hsp'.
  asm 13%nat. some_pad p1. asm 14%nat. some_pad p2. asm 15%nat. some_pad p3. asm 16%nat. some_pad p4.
  asm 17%nat. asm 18%nat. asm 19%nat. asm 20%nat. asm 21%nat. asm 22%nat.
  eexists. split; [apply reach_refl|]. exists p1, p2, p3, p4. cpu_simpl.
  split_and!; [done | lia | | by rewrite u16_low | by rewrite u16_low | done | done | done | |].
  - replace (R ESP - 56) with (R ESP - 4 - 4 - 4 - 4 - 4 - 4 - 4 - 4 - 4 - 4 - 4 - 4 - 4 - 4) by lia.
    replace (R ESP - 48) with (R ESP - 4 - 4 - 4 - 4 - 4 - 4 - 4 - 4 - 4 - 4 - 4 - 4) by lia.
    replace (R ESP - 16) with (R ESP - 4 - 4 - 4 - 4) by lia.
    cbn [app]. repeat (eapply words_push_at; [by rewrite Z.sub_add | | ]);
      first [apply Hr | apply half_u32 | apply Hl | exact Hw | unfold is_u32; lia].
  - repeat apply store32_ok. done.
  - intros b Hb. rewrite !store32_frame by lia. done.
Qed.

(** The code of vectors.S for an interrupt is where its label is. *)
Definition vector_placed (n : Z) : bool :=
  match find_label 0 kernel_S (Vector n) with
  | Some k => bool_decide (take (length (vector n)) (drop k kernel_S) = vector n)
  | None => false
  end.
Lemma vectors_placed : forallb vector_placed (seqZ 0 256) = true.
Proof. vm_compute. reflexivity. Qed.
Lemma vector_at n :
  0 <= n < 256 → ∃ k, sym text (Vector n) = addr k
    ∧ ∀ j x, vector n !! j = Some x → kernel_S !! (k + j)%nat = Some x.
Proof.
  intros Hn. pose proof vectors_placed as Hv. rewrite forallb_forall in Hv.
  specialize (Hv n). rewrite <- list_elem_of_In, elem_of_seqZ in Hv. specialize (Hv ltac:(lia)).
  unfold vector_placed in Hv. destruct (find_label 0 kernel_S (Vector n)) as [k|] eqn:E; [|done].
  apply bool_decide_eq_true in Hv. exists k. split; [by apply kernel_sym|]. intros j x Hj.
  rewrite <- Hv, lookup_take in Hj. case_decide; [|done]. by rewrite <- lookup_drop.
Qed.

(** What tvinit makes of the interrupt table (see BootFacts). *)
Definition idt_ok (c : x86cpu) : Prop := ∀ n, 0 <= n < 256 →
  cpu_handler (idt c n) = sym text (Vector n) ∧ cpu_selector (idt c n) = Z.shiftl SEG_KCODE 3
  ∧ cpu_type (idt c n) = (if n =? T_SYSCALL then STS_TG32 else STS_IG32)
  ∧ cpu_dpl (idt c n) = (if n =? T_SYSCALL then DPL_USER else 0).

Record cpu_ok (c : x86cpu) : Prop := {
  ok_regs : ∀ r, is_u32 (regs c r);
  ok_segs : ∀ s, 0 <= segs c s < 2 ^ 16;
  ok_eip : is_u32 (eip c);
  ok_eflags : is_u32 (eflags c);
  ok_mem : mem_ok (cmem c)
}.

Definition from_user (c : x86cpu) : bool := 0 <? rpl (segs c CS).
(** Where the part of the frame starts that every interrupt pushes. *)
Definition frame_top (c : x86cpu) : Z := if from_user c then esp0 c - 8 else regs c ESP.

(** The code of vectors.S, below what the processor has pushed. *)
Lemma vector_run n c sp ws e :
  placed text → 0 <= n < 256 → eip c = sym text (Vector n) → regs c ESP = sp → 8 <= sp < 2 ^ 32 → mem_ok (cmem c) →
  words (cmem c) sp (if has_err n then e :: ws else ws) → (has_err n = false → e = 0) →
  ∃ c', reach text c c' ∧
    let sp' := if has_err n then sp - 4 else sp - 8 in
    eip c' = sym text Alltraps ∧ regs c' ESP = sp' ∧ words (cmem c') sp' (n :: e :: ws)
    ∧ (∀ r, r ≠ ESP → regs c' r = regs c r) ∧ segs c' = segs c ∧ eflags c' = eflags c
    ∧ mem_ok (cmem c') ∧ (∀ b, ¬ (sp' <= b < sp) → cmem c' b = cmem c b).
Proof.
  intros Hl Hn Hpc Hsp Hr Hm Hw He. destruct (vector_at n Hn) as (k & Hk & Hv). rewrite Hk in Hpc.
  destruct c as [R S pc fl M I e0 s0]. cbn [regs segs eip eflags cmem] in *. subst pc.
  unfold vector in Hv. destruct (has_err n).
  - pose proof (Hv 0%nat _ eq_refl) as L0. pose proof (Hv 1%nat _ eq_refl) as L1.
    rewrite Nat.add_0_r in L0. rewrite Nat.add_1_r in L1.
    eapply reach_then; [by eapply (kernel_step k)|]. cpu_simpl. small.
    eapply reach_then; [by eapply (kernel_step (Datatypes.S k))|]. cpu_simpl. rewrite !Hsp. small.
    eexists. split; [apply reach_refl|]. cpu_simpl. split_and!; try done.
    + apply (words_push_at _ _ sp); [lia | unfold is_u32; lia | done].
    + intros r Hne. by rewrite fn_lookup_insert_ne.
    + by apply store32_ok.
    + intros b Hb. apply store32_frame. lia.
  - pose proof (Hv 0%nat _ eq_refl) as L0. pose proof (Hv 1%nat _ eq_refl) as L1.
    pose proof (Hv 2%nat _ eq_refl) as L2.
    rewrite Nat.add_0_r in L0. rewrite Nat.add_1_r in L1. replace (k + 2)%nat with (Datatypes.S (Datatypes.S k)) in L2 by lia.
    eapply reach_then; [by eapply (kernel_step k)|]. cpu_simpl. rewrite !Hsp. small.
    eapply reach_then; [by eapply (kernel_step (Datatypes.S k))|]. cpu_simpl. small.
    eapply reach_then; [by eapply (kernel_step (Datatypes.S (Datatypes.S k)))|]. cpu_simpl. rewrite (He eq_refl).
    eexists. split; [apply reach_refl|]. cpu_simpl. split_and!; try done.
    + lia.
    + replace (sp - 8) with (sp - 4 - 4) by lia.
      do 2 (eapply words_push_at; [by rewrite Z.sub_add | unfold is_u32; lia |]). by rewrite Hsp.
    + intros r Hne. by rewrite !fn_lookup_insert_ne.
    + by do 2 apply store32_ok.
    + intros b Hb. rewrite !store32_frame by lia. done.
Qed.

(** The processor saves its state and finds the code of vectors.S. *)
Lemma interrupt_run n err c :
  idt_ok c → cpu_ok c → 0 <= n < 256 → has_err n = bool_decide (is_Some err) →
  (∀ e, err = Some e → is_u32 e) →
  let hi := if from_user c then esp0 c else regs c ESP in
  let top := frame_top c in let c' := interrupt n err c in
  0 <= rpl (segs c CS) → 24 <= hi < 2 ^ 32 → 
  ∃ p q, eip c' = sym text (Vector n)
    ∧ regs c' ESP = (if has_err n then top - 16 else top - 12)
    ∧ words (cmem c') (regs c' ESP)
        ((if has_err n then [default 0 err] else []) ++ [eip c; u16 (segs c CS) + 2 ^ 16 * u16 p; eflags c] ++
         (if from_user c then [regs c ESP; u16 (segs c SS) + 2 ^ 16 * u16 q] else
          [load32 (cmem c) top; load32 (cmem c) (top + 4)]))
    ∧ (∀ r, r ≠ ESP → regs c' r = regs c r)
    ∧ (∀ s, s ≠ CS → s ≠ SS → segs c' s = segs c s)
    ∧ segs c' CS = Z.shiftl SEG_KCODE 3 ∧ segs c' SS = (if from_user c then ss0 c else segs c SS)
    ∧ mem_ok (cmem c') ∧ (∀ b, ¬ (regs c' ESP <= b < hi) → cmem c' b = cmem c b)
    ∧ Z.testbit (eflags c') 9 = (n =? T_SYSCALL) && Z.testbit (eflags c) 9.
Proof.
  intros Hi Hc Hn He Hev hi top c' Hrpl Hhi. destruct (Hi n Hn) as (G1 & G2 & G3 & G4).
  unfold c', interrupt, hi, top, frame_top, from_user in *. rewrite G1, G2, G3.
  destruct c as [R S pc fl M I e0 s0]. destruct Hc as [Hr Hs Hpc Hfl Hm].
  cbn [regs segs eip eflags cmem esp0 ss0] in *.
  change (rpl (SEG_KCODE ≪ 3)) with 0.
  assert (Hflag : ∀ b : bool, Z.testbit (Z.land fl (Z.lnot (Z.lor 0x34100 (if (if b then STS_TG32 else STS_IG32) =? STS_IG32 then FL_IF else 0)))) 9
     = b && Z.testbit fl 9).
  { intros b. rewrite Z.land_spec, Z.lnot_spec, Z.lor_spec by lia. destruct b; cbn; [by rewrite andb_true_r | by rewrite andb_false_r]. }
  rewrite He.
  destruct (0 <? rpl (S CS)); unfold push_seg; rewrite ?cpu_sets, ?cpu_setr, ?cpu_push; some_pad p;
    [some_pad q; exists q, p | exists p, 0];
    (destruct err as [e|]; [specialize (Hev e eq_refl)|]; cbn [is_Some_dec default bool_decide from_option id];
      cpu_simpl; small; split_and!; try done; try lia).
  all: try (intros s Hne Hne'; by rewrite !fn_lookup_insert_ne by done).
  all: try (intros r Hne; by rewrite !fn_lookup_insert_ne by done).
  all: try (intros b Hb; by rewrite !store32_frame by lia).
  all: try (by repeat apply store32_ok).
  all: cbn [app]; repeat (eapply words_push_at; [by rewrite Z.sub_add | first [done | apply Hr | apply half_u32] |]).
  all: try apply words_nil.
  all: repeat (apply words_cons; split; [done|]); apply words_nil.
Qed.

Ltac add_up := repeat match goal with |- context [?x + Z.pos ?a + Z.pos ?b] =>
  let c := eval vm_compute in (Z.pos a + Z.pos b) in
  replace (x + Z.pos a + Z.pos b) with (x + c) by lia end.

(** The processor goes on as the frame says, with the stack [sp], [stack_seg]. *)
Definition frame_reg (f : trapframe) (r : reg) : Z :=
  match r with
  | EAX => t_eax f | ECX => t_ecx f | EDX => t_edx f | EBX => t_ebx f
  | ESP => t_esp f | EBP => t_ebp f | ESI => t_esi f | EDI => t_edi f
  end.
Definition frame_seg (f : trapframe) (s : seg) : Z :=
  match s with CS => t_cs f | DS => t_ds f | ES => t_es f | FS => t_fs f | GS => t_gs f | SS => t_ss f end.
Record resumed (f : trapframe) (sp stack_seg : Z) (c : x86cpu) : Prop := {
  rs_eip : eip c = t_eip f;
  rs_eflags : eflags c = t_eflags f;
  rs_regs : ∀ r, r ≠ ESP → regs c r = frame_reg f r;
  rs_esp : regs c ESP = sp;
  rs_segs : ∀ s, s ≠ SS → segs c s = frame_seg f s;
  rs_ss : segs c SS = stack_seg
}.

(** trapret ends the trap: it returns to where the frame says, and takes the
    stack from the frame when that is a user program. *)
Lemma trapret_run c :
  placed text → eip c = sym text Trapret → mem_ok (cmem c) → rpl (segs c CS) = 0 →
  let a := regs c ESP in let f := trapframe_at (cmem c) a in
  0 <= a → a + 76 <= 2 ^ 32 - 1 →
  let user_mode := 0 <? rpl (t_cs f) in
  ∃ c', reach text c c' ∧
    resumed f (if user_mode then t_esp f else a + 68) (if user_mode then t_ss f else segs c SS) c'
    ∧ cmem c' = cmem c.
Proof.
  intros Hl Hpc Hm Hcs a f Ha Ha' um. rewrite sym_Trapret in Hpc.
  unfold um, f, trapframe_at, a in *. clear um f a.
  cbn [t_cs t_esp t_ss]. rewrite !load16_load32 by done.
  unfold tf_eax, tf_es, tf_ds, tf_trapno, tf_err, tf_eip, tf_cs, tf_eflags, tf_esp, tf_ss.
  destruct c as [R S pc fl M I e0 s0]. cbn [regs segs eip eflags cmem] in *. subst pc.
  asm 24%nat. asm 25%nat. asm 26%nat. asm 27%nat. asm 28%nat. asm 29%nat. asm 30%nat.
  unfold iret_. cpu_simpl. small. rewrite Hcs. add_up.
  destruct (0 <? rpl (u16 (load32 M (R ESP + 60)))); cpu_simpl; small; add_up;
    (eexists; split; [apply reach_refl|]; split; [|done]).
  all: constructor; cpu_simpl; try done; intros [] Hne; try done; cpu_simpl; done.
Qed.

(** The frame of interrupt [n] of the processor in state [c]. *)
Definition frame_of (c : x86cpu) (n : Z) (err : option Z) : trapframe :=
  let top := frame_top c in
  Trapframe (regs c EDI) (regs c ESI) (regs c EBP) (top - 36) (regs c EBX) (regs c EDX) (regs c ECX) (regs c EAX)
    (segs c GS) (segs c FS) (segs c ES) (segs c DS) n (default 0 err) (eip c) (segs c CS) (eflags c)
    (if from_user c then regs c ESP else load32 (cmem c) top)
    (if from_user c then segs c SS else load16 (cmem c) (top + 4)).

(** The processor has called trap(tf), after interrupt [n] in state [c]. *)
Record in_trap (c : x86cpu) (n : Z) (err : option Z) (c1 : x86cpu) : Prop := {
  it_eip : eip c1 = sym text Sym_trap;
  it_esp : regs c1 ESP = frame_top c - 76;
  it_args : words (cmem c1) (frame_top c - 76) [addr 23; frame_top c - 68];
  it_frame : trapframe_at (cmem c1) (frame_top c - 68) = frame_of c n err;
  it_cs : segs c1 CS = Z.shiftl SEG_KCODE 3;
  it_ds : segs c1 DS = Z.shiftl SEG_KDATA 3;
  it_es : segs c1 ES = Z.shiftl SEG_KDATA 3;
  it_ss : segs c1 SS = (if from_user c then ss0 c else segs c SS);
  it_if : Z.testbit (eflags c1) 9 = (n =? T_SYSCALL) && Z.testbit (eflags c) 9;
  it_ok : mem_ok (cmem c1);
  it_mem : ∀ b, ¬ (frame_top c - 76 <= b < if from_user c then esp0 c else regs c ESP) → cmem c1 b = cmem c b
}.

(** Room for a frame on the stack. *)
Definition stack_room (c : x86cpu) : Prop :=
  84 <= (if from_user c then esp0 c else regs c ESP) < 2 ^ 32 - 8.

Lemma rpl_pos x : 0 <= rpl x.
Proof. unfold rpl. apply Z.land_nonneg. lia. Qed.

Lemma trap_entered n err c :
  placed text → idt_ok c → cpu_ok c → stack_room c → 0 <= n < 256 →
  has_err n = bool_decide (is_Some err) → (∀ e, err = Some e → is_u32 e) →
  ∃ c1, reach text (interrupt n err c) c1 ∧ in_trap c n err c1.
Proof.
  intros Hl Hi Hc Hroom Hn He Hev. unfold stack_room in Hroom.
  destruct (interrupt_run n err c) as (p & q & H1 & H2 & H3 & H4 & H5 & H6 & H7 & H8 & H9 & H10);
    try done; [apply rpl_pos | lia|].
  set (c0 := interrupt n err c) in *. set (top := frame_top c) in *.
  assert (Ht : 76 <= top < 2 ^ 32 - 8) by (unfold top, frame_top; destruct (from_user c); lia).
  set (ws := [eip c; _; eflags c] ++ _) in H3.
  destruct (vector_run n c0 _ ws (default 0 err) Hl Hn H1 eq_refl) as (c1 & R1 & G1 & G2 & G3 & G4 & G5 & G6 & G7 & G8);
    [rewrite H2; destruct (has_err n); lia | done | by destruct (has_err n) | |].
  { intros E. rewrite E in He. destruct err; [|done]. by rewrite bool_decide_true in He. }
  assert (Esp : regs c1 ESP = top - 20) by (rewrite G2, H2; destruct (has_err n); lia).
  assert (Er : ∀ r, r ≠ ESP → regs c1 r = regs c r) by (intros r Hr; rewrite G4, H4 by done; done).
  assert (Es : ∀ s, s ≠ CS → s ≠ SS → segs c1 s = segs c s) by (intros s ? ?; rewrite G5; by apply H5).
  destruct (alltraps_run c1 (n :: default 0 err :: ws)) as
    (c2 & R2 & p1 & p2 & p3 & p4 & K1 & K2 & K3 & K4 & K5 & K6 & K7 & K8 & K9 & K10); try done.
  { intros r. destruct (decide (r = ESP)) as [->|Hr]; [rewrite Esp; unfold is_u32; lia|].
    rewrite Er by done. apply Hc. }
  { rewrite Esp. lia. }
  { by rewrite G2. }
  exists c2. split; [by eapply reach_trans|]. rewrite Esp in *. rewrite !Er, !Es in K3 by done.
  replace (top - 20 - 56) with (top - 76) in * by lia. replace (top - 20 - 48) with (top - 68) in * by lia.
  replace (top - 20 - 16) with (top - 36) in * by lia.
  constructor; try assumption; fold top.
  - cbn [app] in K3. apply words_cons in K3 as [E1 K3]. apply words_cons in K3 as [E2 _].
    repeat (apply words_cons; split; [done|]). apply words_nil.
  - cbn [app] in K3. do 2 apply words_cons in K3 as [_ K3].
    replace (top - 76 + 4 + 4) with (top - 68) in K3 by lia.
    unfold ws in K3. cbn [app] in K3.
    assert (Hseg : ∀ s h, u16 (u16 (segs c s) + 2 ^ 16 * u16 h) = segs c s) by (intros s h; apply u16_half, Hc).
    unfold frame_of. fold top. destruct (from_user c);
      erewrite (trapframe_words _ _ _ _ _ _ _ _ _ _ _ _ _ _ _ _ _ _ _ _ _ []) by (done || exact K3).
    + by rewrite !Hseg.
    + rewrite !Hseg, load16_load32 by apply Hc. done.
  - by rewrite K6, G5.
  - by rewrite K7, G5.
  - by rewrite K8, G6.
  - intros b Hb. rewrite K10, G8, H9; [done | | |]; rewrite ?H2 in *;
      destruct (has_err n); unfold top, frame_top in *; destruct (from_user c); lia.
Qed.

(** The end of alltraps, when trap has returned. *)
Lemma trap_left c a :
  placed text → eip c = addr 23 → regs c ESP = a - 4 → 4 <= a < 2 ^ 32 - 76 → mem_ok (cmem c) → rpl (segs c CS) = 0 →
  let f := trapframe_at (cmem c) a in let user_mode := 0 <? rpl (t_cs f) in
  ∃ c', reach text c c' ∧
    resumed f (if user_mode then t_esp f else a + 68) (if user_mode then t_ss f else segs c SS) c'
    ∧ cmem c' = cmem c.
Proof.
  intros Hl Hpc Hsp Ha Hm Hcs. destruct c as [R S pc fl M I e0 s0]. cbn [regs segs eip eflags cmem] in *. subst pc.
  asm 23%nat. rewrite !Hsp. small. replace (a - 4 + 4) with a by lia.
  match goal with |- ∃ c', reach _ ?c _ ∧ _ => pose proof (trapret_run c Hl) as Ht end.
  cbn [regs segs eip eflags cmem] in Ht. rewrite !fn_lookup_insert in Ht.
  apply Ht; [by rewrite sym_Trapret | done | done | lia | lia].
Qed.

(** C10: an interrupt, trap or fault and the return from it, through vectors.S and
    trapasm.S.  From user code or from the kernel the processor comes to trap
    with a pointer to a struct trapframe that holds its whole state, the number
    of the interrupt and the error code, if any; it runs in the kernel's
    segments, with interrupts on only in a system call, and only the stack below
    has changed.  When trap returns, the processor goes on with what the frame
    then holds; if that is unchanged, exactly where it was interrupted. *)
Theorem trap_roundtrip n err c :
  placed text → idt_ok c → cpu_ok c → stack_room c → 0 <= n < 256 →
  has_err n = bool_decide (is_Some err) → (∀ e, err = Some e → is_u32 e) →
  ∃ c1, reach text (interrupt n err c) c1 ∧ in_trap c n err c1
    ∧ ∀ c2, eip c2 = load32 (cmem c1) (regs c1 ESP) → regs c2 ESP = regs c1 ESP + 4 →
      mem_ok (cmem c2) → rpl (segs c2 CS) = 0 → segs c2 SS = segs c1 SS →
      let f := trapframe_at (cmem c2) (frame_top c - 68) in let user_mode := 0 <? rpl (t_cs f) in
      ∃ c3, reach text c2 c3
        ∧ resumed f (if user_mode then t_esp f else frame_top c) (if user_mode then t_ss f else segs c2 SS) c3
        ∧ cmem c3 = cmem c2
        ∧ (f = frame_of c n err →
           eip c3 = eip c ∧ eflags c3 = eflags c ∧ (∀ r, regs c3 r = regs c r) ∧ (∀ s, segs c3 s = segs c s)).
Proof.
  intros Hl Hi Hc Hroom Hn He Hev. destruct (trap_entered n err c) as (c1 & R1 & T1); try done.
  exists c1. split_and!; [done | done|]. destruct T1 as [E1 E2 E3 E4 E5 E6 E7 E8 E9 E10 E11].
  apply words_cons in E3 as [E3 _]. intros c2 Hpc Hsp Hm Hcs Hss. rewrite E2 in *. rewrite E3 in Hpc.
  destruct (trap_left c2 (frame_top c - 68)) as (c3 & R3 & Q & M3); try assumption; [lia| |].
  { unfold stack_room, frame_top in *. destruct (from_user c); lia. }
  replace (frame_top c - 68 + 68) with (frame_top c) in Q by lia.
  exists c3. split_and!; try assumption. intros Hf. rewrite Hf in Q. unfold frame_of in Q. cbn [t_cs t_esp t_ss] in Q.
  change (0 <? rpl (segs c CS)) with (from_user c) in Q. destruct Q as [Q1 Q2 Q3 Q4 Q5 Q6].
  split_and!; [exact Q1 | exact Q2 | |].
  - intros r. destruct (decide (r = ESP)) as [->|Hr]; [|rewrite Q3 by done; by destruct r].
    rewrite Q4. unfold frame_top. by destruct (from_user c).
  - intros s. destruct (decide (s = SS)) as [->|Hs]; [|rewrite Q5 by done; by destruct s].
    rewrite Q6, Hss, E8. by destruct (from_user c).
Qed.

(** C13: a new process starts.  The kernel stack that allocproc makes is one that
    swtch.S and trapasm.S can use: the first switch to its context enters
    forkret, whose return enters trapret, which loads the registers from the
    trap frame of the process and enters the user program there. *)
Theorem new_process_starts n m d i c0 l x k :
  placed text → im_trapret (d_im d) = sym text Trapret → is_u32 (im_forkret (d_im d)) →
  mach_ok m i c0 → lk_free m L_ptable → lk_free m L_kmem → length (d_procs d) = NPROC → kmem_ok d (x :: l) →
  first_proc is_unused (d_procs d) = Some k →
  ∃ d' p, allocproc n (K m d) = Done (Some k) (K m d') ∧ d_procs d' !! k = Some p
    ∧ ∀ c ret old, swtch_call c ret old (p_context p) →
      (∀ b, p_context p <= b < p_tf p → cmem c b = mm_mem (d_mm d') b) →
      (p_tf p <= regs c ESP - 16 ∨ regs c ESP <= p_context p) → (p_tf p <= old ∨ old + 4 <= p_context p) →
      ∃ c1, reach text c c1 ∧ eip c1 = im_forkret (d_im d) ∧ load32 (cmem c1) (regs c1 ESP) = sym text Trapret
        ∧ ∀ c2, eip c2 = sym text Trapret → regs c2 ESP = regs c1 ESP + 4 → mem_ok (cmem c2) → rpl (segs c2 CS) = 0 →
          let f := trapframe_at (cmem c2) (p_tf p) in 0 < rpl (t_cs f) →
          ∃ c3, reach text c2 c3 ∧ resumed f (t_esp f) (t_ss f) c3 ∧ cmem c3 = cmem c2.
Proof.
  intros Hl Htr Hfr Hok Hpt Hkm Hlen Hkok Hk.
  pose proof (allocproc_spec n m d i c0 (x :: l) Hok Hpt Hkm Hlen Hkok Hfr) as Ha.
  rewrite Hk, Htr in Ha. rewrite sym_Trapret in *. destruct Ha as (d' & p & Ha & Hkok' & Hp & _ & _ & _ & _ & _ & _ & W1 & W2 & W3 & W4 & _);
    [apply Hl|].
  exists d', p. split_and!; [done | done|]. intros c ret old Hc Hm Hd1 Hd2.
  unfold sizeof_context, ctx_eip in *.
  destruct (swtch_run _ _ _ _ Hl Hc) as (c1 & R1 & E1 & _ & _ & _ & _ & E2 & _ & _ & E3).
  exists c1. split_and!; [done | | |].
  - rewrite E1, <- W1. unfold context_at, ctx_eip. cbn [x_eip]. apply load32_frame. intros b Hb. apply Hm. lia.
  - rewrite E2, <- W2. apply load32_frame. intros b Hb. rewrite E3, Hm by lia. done.
  - intros c2 Hpc Hsp Hm2 Hcs Hf. rewrite E2 in Hsp. replace (p_context p + 20 + 4) with (p_tf p) in Hsp by lia.
    pose proof (trapret_run c2 Hl) as Ht. rewrite sym_Trapret, Hsp in Ht.
    pose proof (ko_pages _ _ Hkok) as Hpg. apply Forall_cons in Hpg as [(_ & _ & Hx & Hx') _].
    unfold KERNBASE, PHYSTOP, sizeof_trapframe, KSTACKSIZE in *.
    destruct (Ht Hpc Hm2 Hcs) as (c3 & R3 & Q & M3); [lia | lia|].
    exists c3. rewrite (proj2 (Z.ltb_lt _ _) Hf) in Q. done.
Qed.
End kernel.

(** tvinit makes such an interrupt table of the addresses of vectors.S. *)
Lemma tvinit_idt_ok `{Linker, Symbols, Devices} user n b h c :
  length (b_idt b) = 256%nat → (∀ i, is_u32 (vectors i)) →
  (∀ i, 0 <= i < 256 → vectors i = sym (all_S user) (Vector i)) →
  ∃ b', tvinit n (Io.H b h) = Done tt (Io.H b' h) ∧ ((∀ i, idt c i = gate_at b' i) → idt_ok user c).
Proof.
  intros Hb Hv Hs. destruct (tvinit_done n b h Hb Hv) as (b' & E & Hg). exists b'. split; [done|].
  intros Hi k Hk. destruct (Hg k Hk) as (G1 & G2 & G3 & _ & G4 & _). by rewrite !Hi, G1, G2, G3, G4, Hs.
Qed.

(** ** System calls *)

Section usys.
Context `{Linker}.
Notation text := (all_S usys_S).

Definition stub_placed (p : string * Z) : bool :=
  match find_label 0 text (Stub p.1) with
  | Some k => bool_decide (take 3 (drop k text) = SYSCALL p.1 p.2)
  | None => false
  end.
Lemma stubs_placed : forallb stub_placed usys_names = true.
Proof. vm_compute. reflexivity. Qed.
Lemma stub_at name no :
  (name, no) ∈ usys_names → ∃ k, sym text (Stub name) = addr k
    ∧ ∀ j x, SYSCALL name no !! j = Some x → text !! (k + j)%nat = Some x.
Proof.
  intros Hn. pose proof stubs_placed as Hv. rewrite forallb_forall in Hv.
  specialize (Hv (name, no)). rewrite <- list_elem_of_In in Hv. specialize (Hv Hn).
  unfold stub_placed in Hv. unfold sym. cbn [fst snd] in Hv.
  destruct (find_label 0 text (Stub name)) as [k|]; [|done].
  apply bool_decide_eq_true in Hv. exists k. split; [done|]. intros j x Hj.
  rewrite <- Hv, lookup_take in Hj. case_decide; [|done]. by rewrite <- lookup_drop.
Qed.

Lemma usys_range name no : (name, no) ∈ usys_names → 1 <= no <= 30.
Proof.
  intros Hn. assert (Hf : Forall (λ p, 1 <= p.2 <= 30) usys_names).
  { apply (bool_decide_eq_true _). vm_compute. reflexivity. }
  rewrite Forall_forall in Hf. apply (Hf _ Hn).
Qed.

(** The processor in the stub of system call [no], when its instruction int
    [k + 1] is next. *)
Definition at_int (k : nat) (no : Z) (c : x86cpu) : x86cpu := setr EAX no (c <| eip := addr (S (S k)) |>).

Lemma stub_enters name no c k :
  placed text → idt_ok usys_S c → cpu_ok c → (name, no) ∈ usys_names → rpl (segs c CS) = DPL_USER →
  eip c = addr k → (∀ j x, SYSCALL name no !! j = Some x → text !! (k + j)%nat = Some x) →
  reach text c (interrupt T_SYSCALL None (at_int k no c)) ∧ cpu_ok (at_int k no c)
  ∧ from_user (at_int k no c) = true.
Proof.
  intros Hl Hi Hc Hn Hcpl Hpc Ht. pose proof (usys_range _ _ Hn) as Hno.
  pose proof (Ht 0%nat _ eq_refl) as L0. pose proof (Ht 1%nat _ eq_refl) as L1.
  rewrite Nat.add_0_r in L0. rewrite Nat.add_1_r in L1. unfold at_int.
  destruct c as [R S0 pc fl M I e0 s0]. cbn [regs segs eip eflags cmem idt esp0 ss0] in *. subst pc.
  rewrite cpu_eip, cpu_setr. split_and!.
  - eapply reach_step; [by apply (step_at _ k _ _ _ Hl L0)|]. cpu_simpl. rewrite u32_small by lia.
    eapply reach_step; [by apply (step_at _ (S k) _ _ _ Hl L1)|]. cpu_simpl. unfold soft_int.
    cbn [idt segs]. destruct (Hi T_SYSCALL) as (_ & _ & _ & G); [done|]. cbn [idt] in G. rewrite G.
    rewrite Hcpl. apply reach_refl.
  - destruct Hc as [H1 H2 H3 H4 H5]. constructor; try assumption; [|apply Hl]. intros r. cbn [regs].
    destruct (decide (r = EAX)) as [->|Hr]; [rewrite fn_lookup_insert; unfold is_u32; lia|].
    rewrite fn_lookup_insert_ne by done. apply H1.
  - unfold from_user. cbn [segs]. by rewrite Hcpl.
Qed.

(** C11: a system call, from the stub in usys.S to trap and back.  A program that
    calls the stub of a system call as a C function enters trap with the call's
    number in the frame's eax; the words that argint finds from the frame's esp
    are the arguments of the C call.  When trap returns with a result in the
    frame's eax and the rest of the frame as it was, the program continues after
    its call with this result in eax, all other registers, among them those that
    a function must preserve, as they were, and its return address popped. *)
Theorem syscall_convention name no c ret args :
  placed text → idt_ok usys_S c → cpu_ok c → (name, no) ∈ usys_names →
  eip c = sym text (Stub name) → rpl (segs c CS) = DPL_USER → 84 <= esp0 c < 2 ^ 32 - 8 →
  words (cmem c) (regs c ESP) (ret :: args) → regs c ESP + 4 + 4 * Z.of_nat (length args) <= esp0 c - 84 →
  let tf := esp0 c - 76 in
  ∃ c1, reach text c c1 ∧ eip c1 = sym text Sym_trap
    ∧ load32 (cmem c1) (regs c1 ESP + 4) = tf
    ∧ let f := trapframe_at (cmem c1) tf in
      t_trapno f = T_SYSCALL ∧ t_eax f = no
      ∧ (∀ n a, args !! n = Some a → load32 (cmem c1) (u32 (t_esp f + 4 + 4 * Z.of_nat n)) = a)
      ∧ ∀ c2 v, eip c2 = load32 (cmem c1) (regs c1 ESP) → regs c2 ESP = regs c1 ESP + 4 →
        mem_ok (cmem c2) → rpl (segs c2 CS) = 0 →
        trapframe_at (cmem c2) tf
        = Trapframe (t_edi f) (t_esi f) (t_ebp f) (t_oesp f) (t_ebx f) (t_edx f) (t_ecx f) v (t_gs f) (t_fs f) (t_es f)
            (t_ds f) (t_trapno f) (t_err f) (t_eip f) (t_cs f) (t_eflags f) (t_esp f) (t_ss f) →
        load32 (cmem c2) (regs c ESP) = ret →
        ∃ c3, reach text c2 c3 ∧ eip c3 = ret ∧ regs c3 EAX = v ∧ regs c3 ESP = regs c ESP + 4
          ∧ ∀ r, r ≠ EAX → r ≠ ESP → regs c3 r = regs c r.
Proof.
  intros Hl Hi Hc Hn Hpc Hcpl Hesp Hw Hargs tf. destruct (stub_at _ _ Hn) as (k & Hk & Ht). rewrite Hk in Hpc.
  destruct (stub_enters _ _ _ _ Hl Hi Hc Hn Hcpl Hpc Ht) as (R0 & Hc0 & Hu). pose proof (ok_regs _ Hc ESP) as Hsp.
  set (c0 := at_int k no c) in *. assert (Hi0 : idt_ok usys_S c0) by exact Hi.
  destruct (trap_entered usys_S T_SYSCALL None c0) as (c1 & R1 & [E1 E2 E3 E4 E5 E6 E7 E8 E9 E10 E11]);
    try assumption; try done; [unfold stack_room; by rewrite Hu|].
  unfold frame_top in *. rewrite Hu in *. change (esp0 c0) with (esp0 c) in *.
  replace (esp0 c - 8 - 68) with tf in * by (unfold tf; lia).
  unfold frame_of in E4. rewrite Hu in E4. unfold c0, at_int, setr in E4. cbn [regs segs eip eflags set_field set_eip set_regs] in E4.
  rewrite fn_lookup_insert in E4. rewrite !fn_lookup_insert_ne in E4 by done.
  apply words_cons in E3 as [E3 E3']. apply words_cons in E3' as [E3' _].
  exists c1. split; [by eapply reach_trans|]. split; [exact E1|]. rewrite E2. split; [exact E3'|].
  rewrite E4. cbn zeta. cbn [t_edi t_esi t_ebp t_oesp t_ebx t_edx t_ecx t_eax t_gs t_fs t_es t_ds t_trapno t_err t_eip t_cs t_eflags t_esp t_ss].
  split; [done|]. split; [done|]. apply words_cons in Hw as [Hw0 Hw]. unfold is_u32 in Hsp. split.
  - intros j a Hj. apply lookup_lt_Some in Hj as Hlt. rewrite u32_small by lia. rewrite <- (Hw _ _ Hj).
    apply load32_frame. intros b Hb. apply E11. lia.
  - intros c2 v Hpc2 Hsp2 Hm2 Hcs2 Hf Hret. rewrite E3 in Hpc2.
    destruct (trap_left usys_S c2 tf Hl Hpc2) as (c3 & R3 & Q & M3); try assumption; [lia | lia|].
    rewrite Hf in Q. cbn [t_cs t_esp t_ss] in Q. rewrite Hcpl in Q. destruct Q as [Q1 Q2 Q3 Q4 Q5 Q6].
    cbn [t_eip t_eflags] in *. change (0 <? DPL_USER) with true in *.
    eapply (reach_more text _ c3); [exact R3|]. destruct c3 as [R3' S3 pc3 fl3 mm3 I3 e3 s3].
    cbn [regs segs eip eflags cmem] in *. subst pc3 mm3.
    pose proof (Ht 2%nat _ eq_refl) as L2. replace (k + 2)%nat with (S (S k)) in L2 by lia.
    eapply reach_then; [by apply (step_at _ (S (S k)) _ _ _ Hl L2)|]. cpu_simpl.
    eexists. split; [apply reach_refl|]. cpu_simpl. rewrite Q4. rewrite u32_small by lia.
    split_and!; [exact Hret | by rewrite Q3 | done |].
    intros r Hr1 Hr2. rewrite fn_lookup_insert_ne by done. rewrite Q3 by done. by destruct r.
Qed.
End usys.

(** ** The first process *)

Section initcode.
Context `{Linker}.
Notation text := (all_S initcode_S).
Lemma init_at j x : initcode_S !! j = Some x → text !! (j + length kernel_S)%nat = Some x.
Proof. intros Hj. unfold all_S. by rewrite lookup_app_r, Nat.add_sub by lia. Qed.

Ltac ini j Hat :=
  eapply reach_then; [eapply (step_at _ (j + _)); [done | by apply (Hat j) | reflexivity]|]; cpu_simpl; small.

(** initcode.S, from its first instruction, makes the system call exec with the
    addresses of its string and of its vector where argstr and argint look for
    them. *)
Lemma initcode_execs c :
  placed text → idt_ok initcode_S c → cpu_ok c → eip c = sym text Start → rpl (segs c CS) = DPL_USER →
  84 <= esp0 c < 2 ^ 32 - 8 → 12 <= regs c ESP <= esp0 c - 84 →
  is_u32 (sym text Sym_init) → is_u32 (sym text Sym_argv) →
  let tf := esp0 c - 76 in
  ∃ c1, reach text c c1 ∧ eip c1 = sym text Sym_trap ∧ load32 (cmem c1) (regs c1 ESP + 4) = tf
    ∧ let f := trapframe_at (cmem c1) tf in
      t_trapno f = T_SYSCALL ∧ t_eax f = SYS_exec
      ∧ words (cmem c1) (t_esp f + 4) [sym text Sym_init; sym text Sym_argv].
Proof.
  intros Hl Hi Hc Hpc Hcpl Hesp Hsp Hs1 Hs2 tf. pose proof (ok_regs _ Hc) as Hr. pose proof (ok_mem _ Hc) as Hm.
  assert (Es : sym text Start = addr (length kernel_S)) by (unfold sym; by vm_compute find_label).
  rewrite Es in Hpc. destruct c as [R S0 pc fl M I e0 s0].
  cbn [regs segs eip eflags cmem idt esp0 ss0] in *. subst pc.
  pose proof init_at as Hat. set (K := length kernel_S) in *. clearbody K.
  ini 0%nat Hat. ini 1%nat Hat. ini 2%nat Hat. ini 3%nat Hat.
  eapply reach_then; [eapply (step_at _ (4 + K)); [done | by apply Hat | reflexivity]|]. cpu_simpl.
  unfold soft_int. cbn [idt segs]. destruct (Hi T_SYSCALL) as (_ & _ & _ & G); [done|]. cbn [idt] in G. rewrite G, Hcpl.
  change (_ <? DPL_USER) with false. cbv iota. match goal with |- context [interrupt _ _ ?c] => set (c0 := c) end.
  assert (Hc0 : cpu_ok c0).
  { destruct Hc as [H1 H2 H3 H4 H5]. constructor; try assumption; [|apply Hl | by repeat apply store32_ok].
    intros r. unfold c0. specialize (H1 ESP) as H1'. unfold is_u32 in *. cbn [regs] in *.
    destruct r; cpu_simpl; try apply H1; [by vm_compute | lia]. }
  assert (Hu : from_user c0 = true) by (unfold from_user, c0; cbn [segs]; by rewrite Hcpl).
  destruct (trap_entered initcode_S T_SYSCALL None c0) as (c1 & R1 & [E1 E2 E3 E4 E5 E6 E7 E8 E9 E10 E11]);
    try assumption; try done; [unfold stack_room; by rewrite Hu|].
  unfold frame_top in *. rewrite Hu in *. change (esp0 c0) with e0 in *. replace (e0 - 8 - 68) with tf in * by (unfold tf; lia).
  unfold frame_of in E4. rewrite Hu in E4. unfold c0 in E4. cbn [regs segs eip eflags] in E4.
  rewrite fn_lookup_insert in E4. rewrite (fn_lookup_insert_ne _ EAX ESP) in E4 by done. rewrite fn_lookup_insert in E4.
  do 2 apply words_cons in E3 as [? E3]. exists c1. rewrite E2, E4. cbn zeta. cbn [t_trapno t_eax t_esp].
  split_and!; try assumption; try done. eapply words_frame; [intros b Hb; apply E11; simpl in Hb; lia|].
  unfold c0. cbn [cmem]. replace (R ESP - 4 - 4 - 4 + 4) with (R ESP - 4 - 4) by lia.
  eapply words_frame; [intros b Hb; apply store32_frame; simpl in Hb; lia|].
  do 2 (eapply words_push_at; [by rewrite Z.sub_add | assumption |]). apply words_nil.
Qed.
End initcode.

(** ** A concrete machine *)

(** The text with four bytes for each instruction, trapret at 0x80105000. *)
#[local] Instance link0 : Linker := {|
  addr k := if (k <? 4096)%nat then 0x80104FA0 + 4 * Z.of_nat k else 0;
  ext _ := 0x80200000;
  seg_pad _ := 0 |}.
Lemma placed0 user : (length (all_S user) < 4096)%nat → placed (all_S user).
Proof.
  intros Hl. constructor.
  - intros j k Hj Hk. unfold addr, link0. rewrite !(proj2 (Nat.ltb_lt _ _)) by lia. lia.
  - intros k. unfold addr, link0, is_u32. destruct (Nat.ltb_spec k 4096); lia.
Qed.

Definition idt0 (user : list line) (n : Z) : Z :=
  gate_bits (SETGATE (n =? T_SYSCALL) (Z.shiftl SEG_KCODE 3) (sym (all_S user) (Vector n))
    (if n =? T_SYSCALL then DPL_USER else 0)).
Definition idt0_good (n : Z) : Prop :=
  let g := idt0 usys_S n in
  cpu_handler g = sym (all_S usys_S) (Vector n) ∧ cpu_selector g = Z.shiftl SEG_KCODE 3
  ∧ cpu_type g = (if n =? T_SYSCALL then STS_TG32 else STS_IG32)
  ∧ cpu_dpl g = (if n =? T_SYSCALL then DPL_USER else 0).
#[local] Instance idt0_good_dec n : Decision (idt0_good n).
Proof. unfold idt0_good. apply _. Defined.
Lemma idt0_all : Forall idt0_good (seqZ 0 256).
Proof. apply (bool_decide_eq_true _). vm_compute. reflexivity. Qed.
Lemma idt0_ok c : idt c = idt0 usys_S → idt_ok usys_S c.
Proof.
  intros E n Hn. rewrite E. pose proof idt0_all as Hf. rewrite Forall_forall in Hf.
  apply Hf, elem_of_seqZ. lia.
Qed.

(** A user program about to call getpid, with its return address on its stack. *)
Definition cpu0 : x86cpu :=
  X86 (λ r, match r with ESP => 0x2000 | _ => 7 end)
    (λ s, match s with CS => 0x1B | _ => 0x23 end)
    (sym (all_S usys_S) (Stub "getpid")) 0x202
    (store32 (λ _, 0) 0x2000 0x55) (idt0 usys_S) 0x80400000 0x10.
Lemma cpu0_ok : cpu_ok cpu0.
Proof.
  constructor; [intros []; unfold is_u32; cbn; lia | intros []; cbn; lia | | unfold is_u32; cbn; lia |].
  - unfold is_u32. vm_compute. split; [discriminate | reflexivity].
  - apply store32_ok. intros a. lia.
Qed.
Lemma cpu0_words : words (cmem cpu0) (regs cpu0 ESP) [0x55].
Proof. apply words_cons. split; [reflexivity | apply words_nil]. Qed.

Lemma syscall_convention_witness : ∃ c1, reach (all_S usys_S) cpu0 c1 ∧ t_eax (trapframe_at (cmem c1) (0x80400000 - 76)) = 11.
Proof.
  destruct (syscall_convention "getpid" 11 cpu0 0x55 []) as (c1 & H1 & _ & _ & _ & H2 & _).
  - apply placed0. apply Nat.ltb_lt. vm_compute. reflexivity.
  - by apply idt0_ok.
  - apply cpu0_ok.
  - apply (bool_decide_eq_true _). vm_compute. reflexivity.
  - reflexivity.
  - reflexivity.
  - cbn. lia.
  - apply cpu0_words.
  - cbn. lia.
  - by exists c1.
Defined.

Lemma trap_roundtrip_witness :
  ∃ c1, reach (all_S usys_S) (interrupt 14 (Some 6) cpu0) c1 ∧ in_trap usys_S cpu0 14 (Some 6) c1.
Proof.
  destruct (trap_roundtrip usys_S 14 (Some 6) cpu0) as (c1 & H1 & H2 & _).
  - apply placed0. apply Nat.ltb_lt. vm_compute. reflexivity.
  - by apply idt0_ok.
  - apply cpu0_ok.
  - unfold stack_room. change (from_user cpu0) with true. cbn. lia.
  - lia.
  - reflexivity.
  - intros e [= <-]. unfold is_u32. lia.
  - by exists c1.
Defined.

(** A thread of the kernel that calls swtch(0x80300000, 0x80310000). *)
Definition cpu1 : x86cpu :=
  X86 (λ r, match r with ESP => 0x80320000 | _ => 9 end) (λ s, 0x10) (sym (all_S []) Swtch) 2
    (store32 (store32 (store32 (store32 (λ _, 0) 0x80320000 0x80100500) 0x80320004 0x80300000) 0x80320008 0x80310000)
       0x80310010 0x80100600)
    (λ _, 0) 0 0.
Lemma swtch_resumes_witness : ∃ c1', reach (all_S []) cpu1 c1' ∧ eip c1' = 0x80100600.
Proof.
  destruct (swtch_resumes [] cpu1 0x80100500 0x80300000 0x80310000) as (c1' & ctx & H1 & H2 & _).
  - apply placed0. apply Nat.ltb_lt. vm_compute. reflexivity.
  - unfold swtch_call. split; [reflexivity|]. split; [intros []; unfold is_u32; cbn; lia|].
    split; [repeat (apply words_cons; split; [reflexivity|]); apply words_nil|]. cbn. lia.
  - exists c1'. split; [exact H1|]. rewrite H2. reflexivity.
Defined.

Lemma new_process_starts_witness :
  ∃ d' p, allocproc 0%nat (K mt dt1) = Done (Some 1%nat) (K mt d') ∧ d_procs d' !! 1%nat = Some p.
Proof.
  destruct (new_process_starts [] 0 mt dt1 0 ct [] page1 1) as (d' & p & H1 & H2 & _);
    [ | reflexivity | by vm_compute | apply runs_proc_mt | by eexists | by eexists | done | apply kmem_dt1 | done |].
  - apply placed0. apply Nat.ltb_lt. vm_compute. reflexivity.
  - exists d', p. split; [exact H1 | exact H2].
Defined.
