(* ===== verification/TrapFacts.v ===== *)
(** * TrapFacts: dispatching and counting system calls *)

From S2P Require Import Prelude Memory Kstate Spinlock Kalloc Cprintf Vm VmFacts Sched SchedFacts Sleeplock Bio Ide Log Inode.
From S2P Require Import Console Fs Pipe PipeFacts File Proc Rtc Syscall SyscallFacts Exec Sysfile Trap.

(** The process [i] runs on this CPU. *)
Definition running (m : mach) (i : nat) : Prop := ∃ c cp, mach_ok m c cp ∧ c_proc cp = Some i.
Lemma curproc_running n m d i : running m i → curproc n (K m d) = Done i (K m d).
Proof. intros (c & cp & Hok & Hp). by eapply curproc_done. Qed.

(** The number in %eax when process [i] made its system call. *)
Definition sys_num (d : kdata) (i : nat) : Z := s32 (load32 (mm_mem (d_mm d)) (p_tf (d_procs d !!! i) + tf_eax)).
(** The entry of the counter for call [num], incremented. *)
Definition counted (num : Z) (p : proc) : proc :=
  p <| p_sys_count := alter (λ c, s32 (c + 1)) (Z.to_nat (num - 1)) (p_sys_count p) |>.

Lemma getcount_done n m d i k :
  running m i → 1 <= k <= Z.of_nat (length (p_sys_count (d_procs d !!! i))) →
  getcount k n (K m d) = Done (p_sys_count (d_procs d !!! i) !!! Z.to_nat (k - 1)) (K m d).
Proof.
  intros Hr Hk. unfold getcount. rewrite (bind_done _ _ _ _ _ _ (curproc_running n m d i Hr)). krun.
  rewrite (proj2 (Z.ltb_ge _ _)) by lia. rewrite (lookup_Some_total _ (Z.to_nat (k - 1))) by lia. done.
Qed.

Section trap.
Context `{Disk}.

Lemma syscalls_Some num f : syscalls num = Some f → 1 <= num <= 30.
Proof.
  unfold syscalls. destruct (Z.ltb_spec num 1); [done|]. intros Hf%lookup_lt_Some. simpl in Hf. lia.
Qed.

Lemma syscall_calls n m d i f :
  running m i → (i < length (d_procs d))%nat → syscalls (sys_num d i) = Some f →
  sys_num d i <= Z.of_nat (length (p_sys_count (d_procs d !!! i))) →
  syscall n (K m d) = (r ← f; store_tf i tf_eax r) n
    (K m (d <| d_procs := alter (counted (sys_num d i)) i (d_procs d) |>)).
Proof.
  intros Hr Hi Hf Hlen. pose proof (syscalls_Some _ _ Hf) as Hnum. unfold syscall.
  rewrite (bind_done _ _ _ _ _ _ (curproc_running n m d i Hr)), (bind_done _ _ _ _ _ _ (load_tf_done n m d i _)).
  fold (sys_num d i). rewrite Hf, (bind_done _ _ _ _ _ _ (curproc_running n m d i Hr)). krun.
  set (p := d_procs d !!! i) in *. set (k := Z.to_nat (sys_num d i - 1)).
  assert (Hk : (k < length (p_sys_count p))%nat) by lia.
  rewrite (lookup_Some_total _ _ Hk). krun.
  rewrite (alter_ext_at _ (counted (sys_num d i)) _ _ p); [done | by apply lookup_Some_total |].
  unfold counted. fold k. by rewrite (list_alter_insert_at _ _ _ _ (lookup_Some_total _ _ Hk)).
Qed.

(** C36: a system call with a number from 1 to 29 is counted, and the function
    of the table is called: what syscall does is what the function does, with
    its result stored as the saved %eax, in a state where getcount of this
    number is one more and nothing else has changed. *)
Theorem syscall_counts n m d i f :
  running m i → (i < length (d_procs d))%nat → length (p_sys_count (d_procs d !!! i)) = SYS_cn →
  syscalls (sys_num d i) = Some f → sys_num d i ≠ 30 →
  ∃ ps, syscall n (K m d) = (r ← f; store_tf i tf_eax r) n (K m (d <| d_procs := ps |>))
    ∧ (∀ j, j ≠ i → ps !! j = d_procs d !! j)
    ∧ (∀ k c, 1 <= k <= 29 → getcount k n (K m d) = Done c (K m d) →
         getcount k n (K m (d <| d_procs := ps |>))
         = Done (if decide (k = sys_num d i) then s32 (c + 1) else c) (K m (d <| d_procs := ps |>))).
Proof.
  intros Hr Hi Hlen Hf Hne. pose proof (syscalls_Some _ _ Hf) as Hnum. unfold SYS_cn in Hlen.
  exists (alter (counted (sys_num d i)) i (d_procs d)). split_and!.
  - apply syscall_calls; [done | done | done |]. lia.
  - intros j Hj. by apply list_lookup_alter_ne.
  - intros k c Hk Hc. rewrite (getcount_done n m d i) in Hc by (done || lia). injection Hc as <-.
    rewrite (getcount_done n m _ i); [|done|]; simpl; rewrite alter_state_lookup by done; simpl;
      rewrite ?length_alter; [|lia].
    f_equal. destruct (decide (k = sys_num d i)) as [->|Hk'].
    + rewrite list_lookup_total_alter, decide_True; [done | lia].
    + rewrite list_lookup_total_alter, decide_False; [done | lia].
Qed.

(** The array has 29 counters but the table 30 calls: system call 30,
    dup2, writes past the end of sys_count before it is dispatched, and
    getcount reads out of bounds for any argument that is not 1 to 29. *)
Theorem syscall_count_overflow n m d i :
  running m i → (i < length (d_procs d))%nat → length (p_sys_count (d_procs d !!! i)) = SYS_cn →
  (sys_num d i = 30 → syscall n (K m d) = Undef "sys_count out of range")
  ∧ ∀ k, ¬ (1 <= k <= 29) → getcount k n (K m d) = Undef "sys_count out of range".
Proof.
  intros Hr Hi Hlen. unfold SYS_cn in Hlen. split.
  - intros Hnum. unfold syscall.
    rewrite (bind_done _ _ _ _ _ _ (curproc_running n m d i Hr)), (bind_done _ _ _ _ _ _ (load_tf_done n m d i _)).
    fold (sys_num d i). rewrite Hnum. assert (syscalls 30 = Some sys_dup2) as -> by done.
    rewrite (bind_done _ _ _ _ _ _ (curproc_running n m d i Hr)). krun.
    rewrite (lookup_ge_None_2 (p_sys_count (d_procs d !!! i))); [done|]. rewrite Hlen. vm_compute. lia.
  - intros k Hk. unfold getcount. rewrite (bind_done _ _ _ _ _ _ (curproc_running n m d i Hr)). krun.
    destruct (Z.ltb_spec (k - 1) 0); [done|]. rewrite lookup_ge_None_2 by lia. done.
Qed.
End trap.

(** The process of SyscallFacts makes system call [num]. *)
Definition dsys (num : Z) : kdata :=
  upd_mem (λ m, store32 m (P2V 0x5000 + tf_eax) num)
    (du <| d_procs := alter (λ p, p <| p_tf := P2V 0x5000 |>) 0%nat (d_procs du) |>).
Lemma running_mp : running mp 0.
Proof. apply user_ctx_du. Qed.
Lemma syscall_counts_witness :
  ∃ ps, syscall (H := Ide.memide.disk) 0%nat (K mp (dsys 11)) = (r ← sys_getpid; store_tf 0 tf_eax r) 0%nat (K mp (dsys 11 <| d_procs := ps |>)).
Proof.
  destruct (syscall_counts (H := Ide.memide.disk) 0 mp (dsys 11) 0 sys_getpid) as (ps & H & _);
    [apply running_mp | simpl; lia | done | | by vm_compute | by exists ps].
  assert (sys_num (dsys 11) 0 = 11) as -> by by vm_compute. done.
Defined.
Lemma syscall_count_overflow_witness :
  syscall (H := Ide.memide.disk) 0%nat (K mp (dsys 30)) = Undef "sys_count out of range".
Proof.
  apply (syscall_count_overflow (H := Ide.memide.disk) 0 mp (dsys 30) 0);
    [apply running_mp | simpl; lia | done | by vm_compute].
Defined.
