(* ===== verification/FileFacts.v ===== *)
(** * FileFacts: the open file table, and dup2 *)

From S2P Require Import Prelude Memory Kstate Spinlock Kalloc Cprintf Vm VmFacts Sched SchedFacts Sleeplock Bio Ide Log Inode.
From S2P Require Import Console Fs Pipe PipeFacts File Proc Rtc Syscall Exec Sysfile SyscallFacts.

(** ** filealloc, filedup, fileclose *)

Lemma get_file_done n m d f : get_file f n (K m d) = Done (d_files d !!! f) (K m d).
Proof. done. Qed.
Lemma mod_file_done n m d f g :
  mod_file f g n (K m d) = Done tt (K m (d <| d_files := alter g f (d_files d) |>)).
Proof. done. Qed.

Definition file_ref (k : Z) (x : file) : file := x <| f_ref := f_ref x + k |>.

Section files.
Context (n : nat) (m : mach) (i : nat) (c : cpu) (Hok : mach_ok m i c) (Hft : lk_free m L_ftable).

Lemma filedup_done d f :
  1 <= f_ref (d_files d !!! f) →
  filedup f n (K m d) = Done f (K m (d <| d_files := alter (file_ref 1) f (d_files d) |>)).
Proof.
  intros Hr. unfold filedup. rewrite (bind_done _ _ _ _ _ _ (acquire_done n m d i c _ Hok Hft)).
  rewrite (bind_done _ _ _ _ _ _ (get_file_done n _ d f)), (proj2 (Z.ltb_ge _ _)) by lia.
  rewrite (bind_done _ _ _ _ _ _ (mod_file_done n _ d f _)).
  by rewrite (bind_done _ _ _ _ _ _ (release_acq n m _ i c _ Hok Hft)).
Qed.
Lemma filedup_panics d f : f_ref (d_files d !!! f) < 1 → filedup f n (K m d) = Panic "filedup".
Proof.
  intros Hr. unfold filedup. rewrite (bind_done _ _ _ _ _ _ (acquire_done n m d i c _ Hok Hft)).
  rewrite (bind_done _ _ _ _ _ _ (get_file_done n _ d f)), (proj2 (Z.ltb_lt _ _)) by lia. done.
Qed.

Lemma file_lookup_alter d f g : (f < length (d_files d))%nat → alter g f (d_files d) !!! f = g (d_files d !!! f).
Proof. intros Hf. rewrite list_lookup_total_alter, decide_True; done. Qed.

Context `{Disk}.

(** One of several references goes away. *)
Lemma fileclose_shared d f :
  (f < length (d_files d))%nat → 2 <= f_ref (d_files d !!! f) →
  fileclose f n (K m d) = Done tt (K m (d <| d_files := alter (file_ref (-1)) f (d_files d) |>)).
Proof.
  intros Hf Hr. unfold fileclose. rewrite (bind_done _ _ _ _ _ _ (acquire_done n m d i c _ Hok Hft)).
  rewrite (bind_done _ _ _ _ _ _ (get_file_done n _ d f)), (proj2 (Z.ltb_ge _ _)) by lia.
  rewrite (bind_done _ _ _ _ _ _ (mod_file_done n _ d f _)), (bind_done _ _ _ _ _ _ (get_file_done n _ _ f)).
  simpl. rewrite file_lookup_alter by done. simpl. rewrite Z.gtb_ltb, (proj2 (Z.ltb_lt _ _)) by lia.
  by rewrite (release_acq n m _ i c _ Hok Hft).
Qed.

(** The last one: the file is free and what it names is closed. *)
Definition file_gone (x : file) : file := x <| f_ref := 0 |> <| f_type := FD_NONE |>.
Lemma fileclose_last d f :
  (f < length (d_files d))%nat → f_ref (d_files d !!! f) = 1 →
  fileclose f n (K m d) =
    match f_type (d_files d !!! f) with
    | FD_PIPE => pipeclose (f_pipe (d_files d !!! f)) (ctrue (f_writable (d_files d !!! f)))
    | FD_INODE => begin_op ;; ip ← from_opt "fileclose: null inode" (f_ip (d_files d !!! f)); iput ip ;; end_op
    | FD_NONE => mret tt
    end n (K m (d <| d_files := alter file_gone f (d_files d) |>)).
Proof.
  intros Hf Hr. unfold fileclose. rewrite (bind_done _ _ _ _ _ _ (acquire_done n m d i c _ Hok Hft)).
  rewrite (bind_done _ _ _ _ _ _ (get_file_done n _ d f)), (proj2 (Z.ltb_ge _ _)) by lia.
  rewrite (bind_done _ _ _ _ _ _ (mod_file_done n _ d f _)), (bind_done _ _ _ _ _ _ (get_file_done n _ _ f)).
  simpl. rewrite file_lookup_alter by done. simpl. rewrite Hr. simpl.
  rewrite (bind_done _ _ _ _ _ _ (mod_file_done n _ _ f _)), (bind_done _ _ _ _ _ _ (mod_file_done n _ _ f _)).
  rewrite (bind_done _ _ _ _ _ _ (release_acq n m _ i c _ Hok Hft)). simpl.
  by rewrite !list_alter_alter_eq.
Qed.
End files.

(** ** pipeclose, when the other end stays open *)

Definition close_end (writable : bool) (x : pipe) : pipe :=
  if writable then x <| pi_writeopen := 0 |> else x <| pi_readopen := 0 |>.
Definition end_chan (P : Z) (writable : bool) : chan := if writable then Ch_nread P else Ch_nwrite P.
Definition other_open (writable : bool) (x : pipe) : Prop :=
  if writable then pi_readopen x ≠ 0 else pi_writeopen x ≠ 0.

Lemma pipeclose_half n m i c d P x w :
  mach_ok m i c → lk_free m (L_pipe P) → lk_free m L_ptable → length (d_procs d) = NPROC →
  d_pipes d !! P = Some x → other_open w x →
  pipeclose P w n (K m d) = Done tt (K m (d <| d_pipes := alter (close_end w) P (d_pipes d) |>
    <| d_procs := wake (Some (end_chan P w)) <$> d_procs d |>)).
Proof.
  intros Hok Hlk Hpt Hlen Hx Ho. unfold pipeclose.
  rewrite (bind_done _ _ _ _ _ _ (acquire_done n m d i c _ Hok Hlk)).
  pose proof (mach_ok_acq (L_pipe P) _ _ _ Hok) as Hok1.
  set (d1 := d <| d_pipes := alter (close_end w) P (d_pipes d) |>).
  rewrite (bind_done _ _ _ _ tt (K (acq (L_pipe P) m) (d1 <| d_procs := wake (Some (end_chan P w)) <$> d_procs d1 |>))).
  2:{ unfold mod_pipe. destruct w; rewrite bind_modd;
        (erewrite wakeup_done; [done | exact Hok1 | by apply acq_free_other | done]). }
  unfold get_pipe. rewrite bind_getd. cbn [kd]. subst d1. simpl. rewrite lookup_alter_eq, Hx. simpl.
  assert ((pi_readopen (close_end w x) =? 0) && (pi_writeopen (close_end w x) =? 0) = false) as ->.
  { destruct w; simpl in *; rewrite (proj2 (Z.eqb_neq _ _) Ho), ?andb_false_r; done. }
  by rewrite (release_acq n m _ i c _ Hok Hlk).
Qed.

(** ** dup2 *)

(** The [k]-th argument as a file descriptor: the descriptor and its file. *)
Definition arg_fd (m : mach) (d : kdata) (i : nat) (k : Z) : option (Z * nat) :=
  fd ← arg_word m d i k;
  if decide (0 <= fd < Z.of_nat NOFILE) then f ← p_ofile (d_procs d !!! i) !!! Z.to_nat fd; Some (fd, f) else None.

Lemma argfd_done n m d i k : user_ctx m d i → argfd k n (K m d) = Done (arg_fd m d i k) (K m d).
Proof.
  intros Huc. unfold argfd, arg_fd. rewrite (bind_done _ _ _ _ _ _ (argint_done n m d i Huc k)).
  destruct (arg_word m d i k) as [fd|]; simpl; [|done].
  destruct (Z.ltb_spec fd 0); simpl; [by rewrite decide_False by lia|].
  destruct (Z.geb_spec fd (Z.of_nat NOFILE)); simpl; [by rewrite decide_False by (unfold NOFILE in *; lia)|].
  rewrite decide_True by (unfold NOFILE in *; lia).
  rewrite (bind_done _ _ _ _ _ _ (curproc_user n m d i Huc)). done.
Qed.

(** Descriptor [fd] of process [i] is the file [f]. *)
Definition with_ofile (i : nat) (fd : Z) (o : option nat) (d : kdata) : kdata :=
  d <| d_procs := alter (λ p, p <| p_ofile := <[Z.to_nat fd := o]> (p_ofile p) |>) i (d_procs d) |>.

(** C37: dup2(oldfd, newfd) where newfd is open and not the last reference to
    its file: newfd's file loses a reference, oldfd's file gains one, newfd
    names oldfd's file and is returned.  If oldfd is not open the result is -1 and nothing
    has changed. *)
Theorem dup2_spec `{Disk} n m i j c d :
  user_ctx m d i → mach_ok m j c → lk_free m L_ftable → c_proc c = Some i →
  match arg_fd m d i 0, arg_fd m d i 1 with
  | Some (oldfd, f), Some (newfd, g) =>
    (f < length (d_files d))%nat → (g < length (d_files d))%nat →
    1 <= f_ref (d_files d !!! f) → 2 <= f_ref (d_files d !!! g) →
    sys_dup2 n (K m d) = Done newfd (K m (with_ofile i newfd (Some f)
      (d <| d_files := alter (file_ref 1) f (alter (file_ref (-1)) g (d_files d)) |>)))
  | None, _ => sys_dup2 n (K m d) = Done (-1) (K m d)
  | _, None => True
  end.
Proof.
  intros Huc Hok Hft Hcp. unfold sys_dup2, need.
  rewrite (bind_done _ _ _ _ _ _ (argfd_done n m d i 0 Huc)).
  destruct (arg_fd m d i 0) as [[oldfd f]|] eqn:E0; [|done].
  rewrite (bind_done _ _ _ _ _ _ (argfd_done n m d i 1 Huc)).
  destruct (arg_fd m d i 1) as [[newfd g]|] eqn:E1; [|done].
  intros Hf Hg Hrf Hrg. rewrite (bind_done _ _ _ _ _ _ (fileclose_shared n m _ _ Hok Hft d g Hg Hrg)).
  set (d1 := d <| d_files := alter (file_ref (-1)) g (d_files d) |>).
  assert (Hrf1 : 1 <= f_ref (d_files d1 !!! f)).
  { simpl. rewrite list_lookup_total_alter. destruct (decide _) as [[-> _]|]; simpl; lia. }
  cbn [snd]. rewrite (bind_done _ _ _ _ _ _ (filedup_done n m _ _ Hok Hft d1 f Hrf1)).
  rewrite (bind_done _ _ _ _ _ _ (curproc_done n m _ _ _ i Hok Hcp)). cbn [from_opt fst].
  rewrite bind_mret. unfold get_proc. rewrite bind_getd. cbn [kd].
  unfold set_ofile, mod_proc. rewrite bind_modd. cbn [fst].
  assert (Hold : p_ofile (d_procs d !!! i) !!! Z.to_nat oldfd = Some f).
  { unfold arg_fd in E0. destruct (arg_word m d i 0) as [fd|]; simpl in E0; [|done]. destruct (decide _); [|done].
    destruct (p_ofile _ !!! Z.to_nat fd) eqn:E; simpl in E0; [|done]. by simplify_eq. }
  subst d1. simpl. rewrite Hold. done.
Qed.

(** C38: where dup2 does not do what its comment says.  When newfd is a valid
    number but not open, newfd is used uninitialised.  When newfd is oldfd and
    this is the only reference, here to an end of a pipe whose other end is
    open, the file is closed first and the kernel panics in filedup; the comment
    says that nothing is done then. *)
Theorem dup2_defects `{Disk} n m i j c d oldfd f :
  user_ctx m d i → mach_ok m j c → lk_free m L_ftable → c_proc c = Some i → (f < length (d_files d))%nat →
  arg_fd m d i 0 = Some (oldfd, f) → 1 <= f_ref (d_files d !!! f) →
  (arg_fd m d i 1 = None → sys_dup2 n (K m d) = Undef "dup2: newfd uninitialised")
  ∧ (∀ x, arg_fd m d i 1 = Some (oldfd, f) → f_ref (d_files d !!! f) = 1 → f_type (d_files d !!! f) = FD_PIPE →
       d_pipes d !! f_pipe (d_files d !!! f) = Some x → other_open (ctrue (f_writable (d_files d !!! f))) x →
       lk_free m (L_pipe (f_pipe (d_files d !!! f))) → lk_free m L_ptable → length (d_procs d) = NPROC →
       sys_dup2 n (K m d) = Panic "filedup").
Proof.
  intros Huc Hok Hft Hcp Hf E0 Hr. unfold sys_dup2, need.
  rewrite (bind_done _ _ _ _ _ _ (argfd_done n m d i 0 Huc)), E0.
  rewrite (bind_done _ _ _ _ _ _ (argfd_done n m d i 1 Huc)). split.
  - intros ->. rewrite bind_mret. cbn [snd].
    rewrite (bind_done _ _ _ _ _ _ (filedup_done n m _ _ Hok Hft d f Hr)).
    by rewrite (bind_done _ _ _ _ _ _ (curproc_done n m _ _ _ i Hok Hcp)).
  - intros x -> Hr1 Hty Hx Ho Hlk Hpt Hlen.
    rewrite (bind_done _ _ _ _ _ _ (eq_trans (fileclose_last n m _ _ Hok Hft d f Hf Hr1)
      ltac:(rewrite Hty; by eapply (pipeclose_half n m _ _ (d <| d_files := alter file_gone f (d_files d) |>))))).
    cbn [snd]. apply bind_panic. eapply filedup_panics; [done | done |]. simpl.
    rewrite file_lookup_alter by done. simpl. lia.
Qed.

(** The process of SyscallFacts with the read end of its pipe as descriptor 0
    and the write end as descriptor 1, and the two words [a], [b] as arguments. *)
Definition mf : mach :=
  proc_mach 0 ((L_ftable, "ftable") :: (L_pipe 0x80004000, "pipe") :: sched_locks) <| m_cr3 := 0x1000 |>.
Definition pipe_file (w ref : Z) : file :=
  (d_files du !!! 0%nat) <| f_type := FD_PIPE |> <| f_ref := ref |> <| f_readable := 1 - w |> <| f_writable := w |> <| f_pipe := 0x80004000 |>.
Definition df (ref a b : Z) : kdata :=
  upd_mem (λ m, store32 (store32 m (P2V 0x3004) a) (P2V 0x3008) b) du
    <| d_files := <[0%nat := pipe_file 0 ref]> (<[1%nat := pipe_file 1 2]> (d_files du)) |>
    <| d_procs := alter (λ p, p <| p_ofile := <[0%nat := Some 0%nat]> (<[1%nat := Some 1%nat]> (p_ofile p)) |>) 0%nat (d_procs du) |>.
Lemma user_ctx_df ref a b : user_ctx mf (df ref a b) 0.
Proof.
  split.
  - exists 0%nat, ct. split; [split|]; try done. by right.
  - by vm_compute.
  - intros va Hva. change (p_sz (d_procs (df ref a b) !!! 0%nat)) with 4096 in Hva.
    unfold translate, walk. rewrite (proj2 (Z.leb_gt _ _)) by (unfold KERNBASE; lia).
    rewrite PDX_eq, PTX_eq by lia. rewrite (Z.div_small va PGSIZE) by (unfold PGSIZE; lia).
    assert (load32 (mm_mem (d_mm (df ref a b))) (P2V (m_cr3 mf) + 4 * (0 / 1024)) = 0x2007) as -> by by vm_compute.
    change (ctrue (Z.land 0x2007 PTE_P)) with true. cbn [fmap option_fmap option_map mbind option_bind].
    assert (load32 (mm_mem (d_mm (df ref a b))) (P2V (PTE_ADDR 0x2007) + 4 * (0 mod 1024)) = 0x3007) as -> by by vm_compute.
    eexists. reflexivity.
Qed.
Lemma mach_ok_mf : mach_ok mf 0 ct.
Proof. split; try done. by right. Qed.
Lemma dup2_spec_witness :
  ∃ s, sys_dup2 (H := Ide.memide.disk) 0%nat (K mf (df 1 0 1)) = Done 1 s.
Proof.
  pose proof (dup2_spec (H := Ide.memide.disk) 0 mf 0 0 ct (df 1 0 1) (user_ctx_df 1 0 1) mach_ok_mf) as H.
  assert (arg_fd mf (df 1 0 1) 0 0 = Some (0, 0%nat)) as E0 by by vm_compute.
  assert (arg_fd mf (df 1 0 1) 0 1 = Some (1, 1%nat)) as E1 by by vm_compute.
  rewrite E0, E1 in H.
  specialize (H ltac:(by eexists) eq_refl ltac:(change (length (d_files (df 1 0 1))) with 100%nat; lia)
    ltac:(change (length (d_files (df 1 0 1))) with 100%nat; lia)
    ltac:(change (f_ref (d_files (df 1 0 1) !!! 0%nat)) with 1; lia)
    ltac:(change (f_ref (d_files (df 1 0 1) !!! 1%nat)) with 2; lia)).
  eexists. exact H.
Defined.
Lemma dup2_defects_witness :
  sys_dup2 (H := Ide.memide.disk) 0%nat (K mf (df 1 0 0)) = Panic "filedup"
  ∧ sys_dup2 (H := Ide.memide.disk) 0%nat (K mf (df 1 0 5)) = Undef "dup2: newfd uninitialised".
Proof.
  assert (Hlen : ∀ a b, (0 < length (d_files (df 1 a b)))%nat) by (intros a b; change (length (d_files (df 1 a b))) with 100%nat; lia).
  assert (Href : ∀ a b, 1 <= f_ref (d_files (df 1 a b) !!! 0%nat)) by (intros a b; change (f_ref (d_files (df 1 a b) !!! 0%nat)) with 1; lia).
  split.
  - refine (proj2 (dup2_defects (H := Ide.memide.disk) 0 mf 0 0 ct (df 1 0 0) 0 0 (user_ctx_df 1 0 0) mach_ok_mf
      ltac:(by eexists) eq_refl (Hlen 0 0) ltac:(by vm_compute) (Href 0 0)) small_pipe
      ltac:(by vm_compute) eq_refl eq_refl eq_refl ltac:(done) ltac:(by eexists) ltac:(by eexists) eq_refl).
  - refine (proj1 (dup2_defects (H := Ide.memide.disk) 0 mf 0 0 ct (df 1 0 5) 0 0 (user_ctx_df 1 0 5) mach_ok_mf
      ltac:(by eexists) eq_refl (Hlen 0 5) ltac:(by vm_compute) (Href 0 5)) ltac:(by vm_compute)).
Defined.
