(* ===== verification/User.v ===== *)
(** * User: what a user program runs on

    A user program is a computation over its own memory.  A system call is the
    [Block] outcome of the computation: the call with its arguments as the
    kernel fetches them (a string or a buffer is passed as its bytes), answered
    with the value of %eax and, for calls that store into the program's
    memory, the bytes stored.  The code that follows a call is a function of
    the state it finds then, so that a theorem quantifies over every kernel
    that keeps a contract [K] and an environment of its own [E]: what is in
    the files, which descriptors are open, what was printed. *)

From S2P Require Import Prelude Memory Cprintf.

(** The system calls of user.h (usys.S: the number in %eax, then int 64). *)
Inductive ucall : Type :=
| U_fork
| U_exit
| U_wait
| U_pipe
| U_read (fd n : Z)
| U_kill (pid : Z)
| U_exec (path : list Z) (argv : list (list Z))
| U_fstat (fd : Z)
| U_chdir (path : list Z)
| U_dup (fd : Z)
| U_getpid
| U_sbrk (n : Z)
| U_sleep (n : Z)
| U_uptime
| U_open (path : list Z) (mode : Z)
| U_write (fd : Z) (l : list Z)
| U_mknod (path : list Z) (major minor : Z)
| U_unlink (path : list Z)
| U_link (old new : list Z)
| U_mkdir (path : list Z)
| U_close (fd : Z)
| U_halt
| U_cps
| U_getppid
| U_getsz
| U_chpr (pid prio : Z)
| U_getcount (n : Z)
| U_time
| U_utctime
| U_dup2 (oldfd newfd : Z).

(** The process as its own code sees it.  [u_freep] is the static variable of
    umalloc.c, whose address is never taken. *)
Record ust (E : Type) : Type := U {
  u_mem : mem;
  u_freep : Z;
  u_ret : Z;          (* %eax after the last system call *)
  u_data : list Z;    (* what that call stored for the program *)
  u_env : E
}.
Arguments U {E} _ _ _ _ _.
Arguments u_mem {E} _.
Arguments u_freep {E} _.
Arguments u_ret {E} _.
Arguments u_data {E} _.
Arguments u_env {E} _.

Abbreviation UM E := (M ucall (ust E)).

Section user.
Context {E : Type}.
Local Abbreviation st := (ust E).

#[global] Instance set_u_mem : Setter (@u_mem E) := λ f s, U (f (u_mem s)) (u_freep s) (u_ret s) (u_data s) (u_env s).
#[global] Instance set_u_freep : Setter (@u_freep E) := λ f s, U (u_mem s) (f (u_freep s)) (u_ret s) (u_data s) (u_env s).

(** A system call: its value. *)
Definition sys (w : ucall) : UM E Z := λ n s, Block w s (λ s', Done (u_ret s') s').
(** ... and what it stored. *)
Definition sys_data (w : ucall) : UM E (Z * list Z) := λ n s, Block w s (λ s', Done (u_ret s', u_data s') s').
(** exit does not return. *)
Definition exit {A} : UM E A := λ n s, Block U_exit s (λ _, Undef "exit returned").

Definition getm : UM E mem := gets u_mem.
Definition modm (f : mem → mem) : UM E unit := modify (λ s, s <| u_mem := f (u_mem s) |>).
Definition ld8 (a : Z) : UM E Z := gets (λ s, u_mem s a).
Definition st8 (a v : Z) : UM E unit := modm (λ m, store8 m a v).
Definition ld32m (a : Z) : UM E Z := gets (λ s, load32 (u_mem s) a).
Definition st32m (a v : Z) : UM E unit := modm (λ m, store32 m a v).

(** The bytes of the string at [p]; [None] when there is no NUL in [fuel]
    bytes. *)
Fixpoint load_str (fuel : nat) (m : mem) (p : Z) : option (list Z) :=
  match fuel with
  | O => None
  | S fuel' => if m p =? 0 then Some [] else l ← load_str fuel' m (p + 1); mret (m p :: l)
  end.
(** A function of the memory with a bound on its loop. *)
Definition bounded {A} (f : nat → mem → option A) : UM E A :=
  with_fuel (λ fuel, m ← getm; match f fuel m with Some a => mret a | None => out_of_fuel end).
Definition string_at (p : Z) : UM E (list Z) := bounded (λ fuel m, load_str fuel m p).

(** read, write and fstat on memory. *)
Definition read_at (fd buf n : Z) : UM E Z :=
  '(r, l) ← sys_data (U_read fd n);
  modm (λ m, store_bytes m buf l) ;;
  mret r.
Definition write_at (fd buf n : Z) : UM E Z :=
  m ← getm;
  sys (U_write fd (load_bytes m buf (Z.to_nat n))).
Definition fstat_at (fd st : Z) : UM E Z :=
  '(r, l) ← sys_data (U_fstat fd);
  modm (λ m, store_bytes m st l) ;;
  mret r.
Definition open_at (path mode : Z) : UM E Z := l ← string_at path; sys (U_open l mode).

(** ** Programs against a kernel

    [K w e r l e']: in environment [e] the kernel may answer the call [w] with
    the value [r], storing [l], and leave the environment [e']. *)
Definition kernel : Type := ucall → E → Z → list Z → E → Prop.

(** [uwp K P c Q]: whatever the kernel [K] answers, [c] does nothing undefined
    and waits in no loop beyond its bound, [P] holds at each of its system calls
    (at exit and exec, the calls that do not return, it is the
    postcondition), and [Q] holds when it returns. *)
Fixpoint uwp {A} (K : kernel) (P : ucall → st → Prop) (c : comp ucall st A) (Q : A → st → Prop) : Prop :=
  match c with
  | Done a s => Q a s
  | Panic _ | Undef _ | NoFuel => False
  | Block w s k => P w s ∧ ∀ r l e',
      w ≠ U_exit → K w (u_env s) r l e' → uwp K P (k (U (u_mem s) (u_freep s) r l e')) Q
  end.

Lemma uwp_mono {A} K P (c : comp ucall st A) (Q Q' : A → st → Prop) :
  (∀ a s, Q a s → Q' a s) → uwp K P c Q → uwp K P c Q'.
Proof. intros HQ. induction c as [| | | |w s k IH]; simpl; eauto. intros [HP Hk]. split; [done|]. eauto. Qed.
Lemma uwp_weaken {A} K (P P' : ucall → st → Prop) (c : comp ucall st A) Q :
  (∀ w s, P w s → P' w s) → uwp K P c Q → uwp K P' c Q.
Proof. intros HP. induction c as [| | | |w s k IH]; simpl; eauto. intros [? Hk]. split; eauto. Qed.
Lemma uwp_bind {A B} K P (m : UM E A) (f : A → UM E B) n s Q :
  uwp K P (m n s) (λ a s', uwp K P (f a n s') Q) → uwp K P ((m ≫= f) n s) Q.
Proof.
  unfold mbind, M_bind. generalize (m n s) as c. induction c as [| | | |w s' k IH]; simpl; eauto.
  intros [HP Hk]. split; eauto.
Qed.
Lemma uwp_bind_done {A B} K P (m : UM E A) (f : A → UM E B) n s Q a s' :
  m n s = Done a s' → uwp K P (f a n s') Q → uwp K P ((m ≫= f) n s) Q.
Proof. intros H ?. by rewrite (bind_done _ _ _ _ _ _ H). Qed.
(** Two statements that belong together, the first of which returns a pair. *)
Lemma uwp_assoc {A1 A2 B C} K P (m : UM E (A1 * A2)) (f : A1 → A2 → UM E B) (g : B → UM E C) n s Q :
  uwp K P (((m ≫= λ '(a, b), f a b) ≫= g) n s) Q → uwp K P ((m ≫= λ '(a, b), f a b ≫= g) n s) Q.
Proof.
  unfold mbind, M_bind. generalize (m n s) as c. induction c as [[a b] s'| | | |w s' k IH]; simpl; [done..|].
  intros [HP Hk]. split; eauto.
Qed.
Lemma uwp_sys K P w n s (Q : Z → st → Prop) :
  P w s → (∀ r l e', w ≠ U_exit → K w (u_env s) r l e' → Q r (U (u_mem s) (u_freep s) r l e')) →
  uwp K P (sys w n s) Q.
Proof. done. Qed.
Lemma uwp_exit {A} K P n s (Q : A → st → Prop) : P U_exit s → uwp K P (exit n s) Q.
Proof. intros. by split. Qed.

Lemma load_str_cstr m p l fuel : cstr m p l → (length l < fuel)%nat → load_str fuel m p = Some l.
Proof.
  revert p l. induction fuel as [|fuel IH]; intros p l H Hf; [lia|].
  destruct l as [|c l]; simpl in *; [by rewrite H|].
  destruct H as (-> & Hc & H). destruct (Z.eqb_spec c 0); [done|]. by rewrite (IH _ l) by (done || lia).
Qed.
Lemma bounded_done {A} (f : nat → mem → option A) n (s : st) a :
  f n (u_mem s) = Some a → bounded f n s = Done a s.
Proof. intros H. unfold bounded, with_fuel, getm. kstep. by rewrite H. Qed.
Lemma string_at_done p l n (s : st) :
  cstr (u_mem s) p l → (length l < n)%nat → string_at p n s = Done l s.
Proof. intros H Hn. by apply bounded_done, load_str_cstr. Qed.
End user.

(** ** Strings in the program's memory *)

(** A string from its bytes. *)
Lemma cstr_intro m p l :
  (∀ i x, l !! i = Some x → m (p + Z.of_nat i) = x) → Forall (λ x, x ≠ 0) l → m (p + Z.of_nat (length l)) = 0 → cstr m p l.
Proof.
  revert p. induction l as [|c l IH]; intros p H Hl H0; simpl in *; [by rewrite Z.add_0_r in H0|].
  apply Forall_cons in Hl as [Hc Hl]. split_and!.
  - rewrite <- (H 0%nat c eq_refl). f_equal. lia.
  - done.
  - apply IH; [|done|by replace (p + 1 + Z.of_nat (length l)) with (p + Z.of_nat (S (length l))) by lia].
    intros i x Hx. rewrite <- (H (S i) x Hx). f_equal. lia.
Qed.
Lemma cstr_lookup m p l i x : cstr m p l → l !! i = Some x → m (p + Z.of_nat i) = x.
Proof.
  revert p i. induction l as [|c l IH]; intros p i H Hi; [done|]. destruct H as (H1 & _ & H).
  destruct i as [|i]; simpl in Hi.
  - injection Hi as ->. rewrite <- H1. f_equal. lia.
  - rewrite <- (IH _ i H Hi). f_equal. lia.
Qed.
