(* ===== verification/Ulib.v ===== *)
(** * Ulib: the user library, ulib.c, and printf.c

    The string functions are functions of the memory; a loop that runs to a
    NUL takes a bound and is [None] when there is none within it.  The others
    are programs over the system calls. *)

From S2P Require Import Prelude Memory Cprintf User.

(** ** ulib.c: strings *)

(** Copies up to and including the NUL. *)
Fixpoint strcpy (fuel : nat) (m : mem) (s t : Z) : option mem :=
  match fuel with
  | O => None
  | S fuel' =>
    let m' := store8 m s (m t) in
    if m t =? 0 then Some m' else strcpy fuel' m' (s + 1) (t + 1)
  end.

Fixpoint strcmp (fuel : nat) (m : mem) (p q : Z) : option Z :=
  match fuel with
  | O => None
  | S fuel' =>
    if negb (m p =? 0) && (m p =? m q) then strcmp fuel' m (p + 1) (q + 1)
    else Some (m p - m q)
  end.

Fixpoint strlen_loop (fuel : nat) (m : mem) (s n : Z) : option Z :=
  match fuel with
  | O => None
  | S fuel' => if negb (m (s + n) =? 0) then strlen_loop fuel' m s (n + 1) else Some n
  end.
Definition strlen (fuel : nat) (m : mem) (s : Z) : option Z := strlen_loop fuel m s 0.

Definition memset (m : mem) (dst c n : Z) : mem := stosb (Z.to_nat n) m dst c.

(** The address of the first [c], or 0. *)
Fixpoint strchr (fuel : nat) (m : mem) (s c : Z) : option Z :=
  match fuel with
  | O => None
  | S fuel' =>
    if m s =? 0 then Some 0 else
    if m s =? c then Some s else strchr fuel' m (s + 1) c
  end.
(** strchr on a string constant, as a test. *)
Definition in_str (l : list Z) (c : Z) : bool := existsb (Z.eqb c) l.

Definition memmove (m : mem) (vdst vsrc n : Z) : mem := copy_up (Z.to_nat n) m vdst vsrc.

Fixpoint strncmp (n : nat) (m : mem) (p q : Z) : Z :=
  match n with
  | O => 0
  | S n' =>
    if negb (m p =? 0) && (m p =? m q) then strncmp n' m (p + 1) (q + 1)
    else m p - m q
  end.

(** ** ulib.c: numbers *)

Definition ch_space : Z := 32.
Definition ch_plus : Z := 43.
Definition ch_minus : Z := 45.
Definition ch_0 : Z := 48.

Fixpoint skip_spaces (fuel : nat) (m : mem) (s : Z) : option Z :=
  match fuel with
  | O => None
  | S fuel' => if m s =? ch_space then skip_spaces fuel' m (s + 1) else Some s
  end.
(** The digits of the base, [n = n*base + *s++ - '0']; an int wraps around. *)
Fixpoint digits_value (base : Z) (fuel : nat) (m : mem) (s n : Z) : option Z :=
  match fuel with
  | O => None
  | S fuel' =>
    if (ch_0 <=? m s) && (m s <=? ch_0 + base - 1)
    then digits_value base fuel' m (s + 1) (s32 (n * base + m s - ch_0))
    else Some n
  end.
(** atoi and atoo differ in the base alone. *)
Definition ato (base : Z) (fuel : nat) (m : mem) (s : Z) : option Z :=
  s ← skip_spaces fuel m s;
  let sign := if m s =? ch_minus then -1 else 1 in
  let s := if (m s =? ch_plus) || (m s =? ch_minus) then s + 1 else s in
  n ← digits_value base fuel m s 0;
  Some (s32 (sign * n)).
Definition atoi : nat → mem → Z → option Z := ato 10.
Definition atoo : nat → mem → Z → option Z := ato 8.

Section ulib.
Context {E : Type}.

(** ** ulib.c: programs over the system calls *)

Definition ch_cr : Z := 13.

(** The character read is a local variable, [buf[i++] = c]. *)
Fixpoint gets_loop (k : nat) (buf i : Z) : UM E Z :=
  match k with
  | O => mret i
  | S k' =>
    '(cc, l) ← sys_data (U_read 0 1);
    if cc <? 1 then mret i else
    let c := l !!! 0%nat in
    st8 (buf + i) c ;;
    if (c =? ch_nl) || (c =? ch_cr) then mret (i + 1) else gets_loop k' buf (i + 1)
  end.
Definition gets (buf max : Z) : UM E unit :=
  i ← gets_loop (Z.to_nat (max - 1)) buf 0;
  st8 (buf + i) 0.

Definition stat (n st : Z) : UM E Z :=
  fd ← open_at n 0;
  if fd <? 0 then mret (-1) else
  r ← fstat_at fd st;
  _ ← sys (U_close fd);
  mret r.

(** ** printf.c *)

Definition putc (fd c : Z) : UM E unit := _ ← sys (U_write fd [u8 c]); mret tt.

Definition udigits : list Z := str "0123456789ABCDEF".
Definition uprintint_chars (xx base : Z) (sgn : bool) : list Z :=
  let neg := sgn && (xx <? 0) in
  let x := if neg then u32 (- xx) else u32 xx in
  reverse (digits_loop udigits 32 x base ++ (if neg then [45] else [])).
Definition uprintint (fd xx base : Z) (sgn : bool) : UM E unit :=
  forM (uprintint_chars xx base sgn) (putc fd).

(** An argument of printf: a word, or the address of a string constant. *)
Inductive uarg : Type :=
| W (w : Z)
| L (l : list Z).

Fixpoint puts_loop (fuel : nat) (fd s : Z) : UM E unit :=
  match fuel with
  | O => out_of_fuel
  | S fuel' => c ← ld8 s; if c =? 0 then mret tt else putc fd c ;; puts_loop fuel' fd (s + 1)
  end.
(** [%s]: the null pointer prints as (null). *)
Definition puts_arg (fd : Z) (a : uarg) : UM E unit :=
  match a with
  | L l => forM l (putc fd)
  | W s => if s =? 0 then forM (str "(null)") (putc fd) else with_fuel (λ fuel, puts_loop fuel fd s)
  end.

(** The loop over the format, in state 0 or (the flag) after a percent sign.
    An argument that was not passed is undefined. *)
Fixpoint printf_loop (fd : Z) (fmt : list Z) (percent : bool) (args : list uarg) : UM E unit :=
  match fmt with
  | [] => mret tt
  | c :: fmt' =>
    if negb percent then
      if c =? ch_percent then printf_loop fd fmt' true args
      else putc fd c ;; printf_loop fd fmt' false args
    else if c =? 100 (* d *) then
      match args with
      | W x :: args' => uprintint fd (s32 x) 10 true ;; printf_loop fd fmt' false args'
      | _ => undef "printf: argument"
      end
    else if (c =? 120) || (c =? 112) (* x p *) then
      match args with
      | W x :: args' => uprintint fd (s32 x) 16 false ;; printf_loop fd fmt' false args'
      | _ => undef "printf: argument"
      end
    else if c =? 115 (* s *) then
      match args with
      | a :: args' => puts_arg fd a ;; printf_loop fd fmt' false args'
      | [] => undef "printf: argument"
      end
    else if c =? 99 (* c *) then
      match args with
      | W x :: args' => putc fd x ;; printf_loop fd fmt' false args'
      | _ => undef "printf: argument"
      end
    else if c =? ch_percent then putc fd c ;; printf_loop fd fmt' false args
    else putc fd ch_percent ;; putc fd c ;; printf_loop fd fmt' false args
  end.
Definition printf (fd : Z) (fmt : string) (args : list uarg) : UM E unit :=
  printf_loop fd (cstring fmt) false args.
End ulib.
