(* ===== verification/Umalloc.v ===== *)
(** * Umalloc: the memory allocator of the user library, umalloc.c

    Kernighan and Ritchie's allocator, on the bytes of the program's memory: a
    header of 8 bytes (the pointer to the next free block, then the block's
    size in headers) at the start of each block, the free blocks in a ring in
    the order of their addresses, with the static header [base] as the ring's
    fixed member.  The address of [base] is the linker's choice, a parameter
    here. *)

From S2P Require Import Prelude Memory User.

Definition sizeof_Header : Z := 8.

Section umalloc.
Context {E : Type} (base : Z).

(** [p->s.ptr] and [p->s.size] *)
Definition h_ptr (p : Z) : UM E Z := ld32m p.
Definition h_size (p : Z) : UM E Z := ld32m (p + 4).
Definition set_h_ptr (p v : Z) : UM E unit := st32m p v.
Definition set_h_size (p v : Z) : UM E unit := st32m (p + 4) v.
(** [p + n] on a [Header*] *)
Definition hdr_add (p n : Z) : Z := p +u sizeof_Header * n.

Definition get_freep : UM E Z := gets u_freep.
Definition set_freep (p : Z) : UM E unit := modify (λ s, s <| u_freep := p |>).

(** The block of the ring after which [bp] belongs. *)
Fixpoint free_loop (fuel : nat) (bp p : Z) : UM E Z :=
  match fuel with
  | O => out_of_fuel
  | S fuel' =>
    nx ← h_ptr p;
    if (bp >? p) && (bp <? nx) then mret p else
    if (p >=? nx) && ((bp >? p) || (bp <? nx)) then mret p else
    free_loop fuel' bp nx
  end.
(** Joins the block at [bp] to its upper neighbour, or links it. *)
Definition free_join_up (bp p : Z) : UM E unit :=
  bsz ← h_size bp; nx ← h_ptr p;
  if hdr_add bp bsz =? nx then
    nsz ← h_size nx; set_h_size bp (bsz +u nsz) ;;
    nx ← h_ptr p; nnx ← h_ptr nx; set_h_ptr bp nnx
  else set_h_ptr bp nx.
(** Joins it to its lower neighbour [p], or links it behind. *)
Definition free_join_down (bp p : Z) : UM E unit :=
  psz ← h_size p;
  if hdr_add p psz =? bp then
    bsz ← h_size bp; set_h_size p (psz +u bsz) ;;
    bnx ← h_ptr bp; set_h_ptr p bnx
  else set_h_ptr p bp.
Definition free (ap : Z) : UM E unit :=
  let bp := ap -u sizeof_Header in
  fp ← get_freep;
  p ← with_fuel (λ fuel, free_loop fuel bp fp);
  free_join_up bp p ;;
  free_join_down bp p ;;
  set_freep p.

Definition morecore (nu : Z) : UM E Z :=
  let nu := if nu <? 4096 then 4096 else nu in
  p ← sys (U_sbrk (s32 (nu *u sizeof_Header)));
  let p := u32 p in
  if p =? 2 ^ 32 - 1 then mret 0 else
  set_h_size p nu ;;
  free (hdr_add p 1) ;;
  get_freep.

(** Takes [nunits] units from the block [p] that has as many or more. *)
Definition malloc_take (nunits prevp p : Z) : UM E Z :=
  sz ← h_size p;
  p ← (if sz =? nunits then nx ← h_ptr p; set_h_ptr prevp nx ;; mret p
       else set_h_size p (sz -u nunits) ;;
            sz ← h_size p; let p := hdr_add p sz in
            set_h_size p nunits ;; mret p);
  set_freep prevp ;;
  mret (hdr_add p 1).
Fixpoint malloc_loop (fuel : nat) (nunits prevp p : Z) : UM E Z :=
  match fuel with
  | O => out_of_fuel
  | S fuel' =>
    sz ← h_size p;
    if sz >=? nunits then malloc_take nunits prevp p else
    fp ← get_freep;
    if p =? fp then
      p ← morecore nunits;
      if p =? 0 then mret 0 else
      nx ← h_ptr p; malloc_loop fuel' nunits p nx
    else nx ← h_ptr p; malloc_loop fuel' nunits p nx
  end.
Definition malloc (nbytes : Z) : UM E Z :=
  let nunits := (nbytes +u sizeof_Header -u 1) / sizeof_Header +u 1 in
  fp ← get_freep;
  (if fp =? 0 then set_freep base ;; set_h_ptr base base ;; set_h_size base 0 else mret tt) ;;
  prevp ← get_freep;
  p ← h_ptr prevp;
  with_fuel (λ fuel, malloc_loop fuel nunits prevp p).
End umalloc.
