(* ===== verification/UmallocFacts.v ===== *)
(** * UmallocFacts: malloc and free manage disjoint blocks

    The invariant of umalloc.c's free list (a ring of disjoint blocks in the
    order of their addresses, no two of them adjacent, all of them disjoint
    from every allocated block), that malloc and free keep it and terminate,
    and what a client gets: its blocks behave as arrays of its own. *)

From stdpp Require Import sorting.
From S2P Require Import Prelude Memory User Umalloc.

(** A block: its address and its size in headers. *)
Abbreviation blk := (Z * Z)%type.
Definition blk_end (x : blk) : Z := x.1 + 8 * x.2.
Definition bdisj (x y : blk) : Prop := blk_end x <= y.1 ∨ blk_end y <= x.1.
(** Below, with room for the header, and not adjacent. *)
Definition blt (x y : blk) : Prop := x.1 + 8 <= y.1 ∧ blk_end x < y.1.

(** Membership in a list that is put together, from what is known of its parts. *)
Ltac in_list := subst; rewrite ?elem_of_app, ?elem_of_cons, ?elem_of_app, ?elem_of_cons in *; tauto.

(** [e] is where the last block points. *)
Fixpoint linked (m : mem) (ns : list blk) (e : Z) : Prop :=
  match ns with
  | [] => True
  | x :: ns' => load32 m x.1 = hd e ns'.*1 ∧ load32 m (x.1 + 4) = x.2 ∧ linked m ns' e
  end.
Definition ring (m : mem) (ns : list blk) : Prop := linked m ns (hd 0 ns.*1).

Lemma hd_app {A} (e : A) l1 l2 : hd e (l1 ++ l2) = hd (hd e l2) l1.
Proof. by destruct l1. Qed.
Lemma hlist_app m l1 l2 e : linked m (l1 ++ l2) e ↔ linked m l1 (hd e l2.*1) ∧ linked m l2 e.
Proof.
  induction l1 as [|x l1 IH]; simpl; [tauto|]. rewrite IH, fmap_app, hd_app. tauto.
Qed.
Lemma ring_rotate m l1 l2 : ring m (l1 ++ l2) → ring m (l2 ++ l1).
Proof.
  unfold ring. rewrite !hlist_app, !fmap_app, !hd_app.
  destruct l1, l2; simpl; tauto.
Qed.
Lemma hlist_frame m m' ns e :
  (∀ x b, x ∈ ns → x.1 <= b < x.1 + 8 → m' b = m b) → linked m ns e → linked m' ns e.
Proof.
  induction ns as [|x ns IH]; simpl; [done|]. intros Hf (H1 & H2 & H3).
  split_and!.
  - rewrite <- H1. apply load32_frame. intros. apply (Hf x); [set_solver | lia].
  - rewrite <- H2. apply load32_frame. intros. apply (Hf x); [set_solver | lia].
  - apply IH; [|done]. intros y b Hy. apply Hf. set_solver.
Qed.

(** The ring in address order, [base] first. *)
Record hnodes (base : Z) (ns : list blk) : Prop := {
  hn_sorted : StronglySorted blt ns;
  hn_base : head ns = Some (base, 0);
  hn_size : ∀ x, x ∈ ns → x = (base, 0) ∨ (1 <= x.2 ∧ base + 8 <= x.1)
}.
Definition covers (ns : list blk) (a : Z) : Prop := ∃ x, x ∈ ns ∧ x.1 <= a < blk_end x.

(** The allocator in good order below [hi], with the free blocks [ns] and the
    allocated ones [al]. *)
Record heap_ok {E} (base hi : Z) (s : ust E) (ns : list blk) (al : gmap Z Z) : Prop := {
  hp_nodes : hnodes base ns;
  hp_ring : ring (u_mem s) ns;
  hp_freep : u_freep s ∈ ns.*1;
  hp_bound : 0 < base ∧ base + 8 <= hi ∧ hi < 2 ^ 31 ∧ ∀ x, x ∈ ns → blk_end x <= hi;
  hp_alloc : ∀ a n, al !! a = Some n → 1 <= n ∧ base + 8 <= a ∧ a + 8 * n <= hi
    ∧ load32 (u_mem s) (a + 4) = n ∧ ∀ x, x ∈ ns → bdisj (a, n) x;
  hp_disj : ∀ a n b k, al !! a = Some n → al !! b = Some k → a ≠ b → bdisj (a, n) (b, k)
}.

(** What the allocator may write: its static header and the free blocks. *)
Definition hregion (base : Z) (ns : list blk) (a : Z) : Prop := base <= a < base + 8 ∨ covers ns a.

(** ** The ring *)

Lemma hnodes_lt base ns l1 y l2 :
  hnodes base ns → ns = l1 ++ y :: l2 →
  StronglySorted blt l1 ∧ StronglySorted blt l2 ∧ (∀ x, x ∈ l1 → blt x y) ∧ (∀ z, z ∈ l2 → blt y z)
  ∧ ∀ x z, x ∈ l1 → z ∈ l2 → blt x z.
Proof.
  intros [Hs _ _] ->. split_and!.
  - by eapply StronglySorted_app_1_l.
  - apply StronglySorted_app_1_r in Hs. by apply StronglySorted_inv in Hs as [? _].
  - intros x Hx. eapply StronglySorted_app_1_elem_of; [done|done|set_solver].
  - apply StronglySorted_app_1_r in Hs. apply StronglySorted_inv in Hs as [_ Hs].
    intros z Hz. by rewrite Forall_forall in Hs; apply Hs.
  - intros x z Hx Hz. eapply StronglySorted_app_1_elem_of; [done|done|set_solver].
Qed.
Lemma sorted_join l1 l2 :
  StronglySorted blt l1 → StronglySorted blt l2 → (∀ x z, x ∈ l1 → z ∈ l2 → blt x z) →
  StronglySorted blt (l1 ++ l2).
Proof.
  induction l1 as [|x l1 IH]; simpl; [done|]. intros [H1 Hx]%StronglySorted_inv H2 H.
  constructor; [apply IH; set_solver|]. apply Forall_app. split; [done|].
  apply Forall_forall. intros z Hz. apply H; set_solver.
Qed.
Lemma hnodes_min base ns x : hnodes base ns → x ∈ ns → x = (base, 0) ∨ (1 <= x.2 ∧ base + 8 <= x.1).
Proof. intros [_ _ H]. apply H. Qed.
Lemma hnodes_hregion base ns x a : hnodes base ns → x ∈ ns → x.1 <= a < x.1 + 8 → hregion base ns a.
Proof.
  intros Hn Hx Ha. destruct (hnodes_min _ _ _ Hn Hx) as [->|[H1 H2]]; [by left|].
  right. exists x. split; [done|]. unfold blk_end. lia.
Qed.
(** Two different blocks of the ring have disjoint headers. *)
Lemma hnodes_apart base ns l1 y l2 x :
  hnodes base ns → ns = l1 ++ y :: l2 → x ∈ l2 ++ l1 → x.1 + 8 <= y.1 ∨ y.1 + 8 <= x.1.
Proof.
  intros Hn Hns Hx. destruct (hnodes_lt _ _ _ _ _ Hn Hns) as (_ & _ & H1 & H2 & _).
  apply elem_of_app in Hx as [Hx|Hx]; [right; by apply (H2 x) | left; by apply (H1 x)].
Qed.

(** Where [b] belongs: the last block below it. *)
Lemma hnodes_split base ns b :
  hnodes base ns → base < b →
  ∃ l1 y l2, ns = l1 ++ y :: l2 ∧ y.1 < b ∧ ∀ z, z ∈ l2 → b <= z.1.
Proof.
  intros Hn Hb. assert (Hne : ∃ y r, ns = y :: r ∧ y.1 < b).
  { destruct Hn as [_ H _]. destruct ns as [|y r]; simpl in H; [done|]. injection H as ->. by exists (base, 0), r. }
  destruct Hne as (y & r & -> & Hy). apply hn_sorted in Hn. clear Hb base. revert y Hy Hn.
  induction r as [|z r IH]; intros y Hy Hs.
  - exists [], y, []. split_and!; [done|done|]. set_solver.
  - destruct (decide (z.1 < b)) as [Hz|Hz].
    + destruct (IH z Hz) as (l1 & w & l2 & -> & Hw & Hl2); [by apply StronglySorted_inv in Hs as [? _]|].
      by exists (y :: l1), w, l2.
    + exists [], y, (z :: r). split_and!; [done|done|].
      apply StronglySorted_inv in Hs as [Hs _]. apply StronglySorted_inv in Hs as [_ Hs].
      rewrite Forall_forall in Hs. intros w [->|Hw]%elem_of_cons; [lia|]. specialize (Hs w Hw). destruct Hs. lia.
Qed.

Section free.
Context {E : Type}.
Implicit Types s : ust E.

(** ** The search of free *)

Definition stops (bp p nx : Z) : bool :=
  ((bp >? p) && (bp <? nx)) || ((p >=? nx) && ((bp >? p) || (bp <? nx))).
Lemma free_loop_stop fuel bp p n s :
  (0 < fuel)%nat → stops bp p (load32 (u_mem s) p) = true → free_loop fuel bp p n s = Done p s.
Proof.
  intros Hf Hs. destruct fuel; [lia|]. simpl. unfold h_ptr, ld32m. kstep. unfold stops in Hs.
  destruct (_ && _); [done|]. simpl in Hs. by rewrite Hs.
Qed.
Lemma free_loop_go fuel bp p n s :
  stops bp p (load32 (u_mem s) p) = false →
  free_loop (S fuel) bp p n s = free_loop fuel bp (load32 (u_mem s) p) n s.
Proof.
  intros Hs. simpl. unfold h_ptr, ld32m. unfold mbind, M_bind. simpl. unfold stops in Hs.
  apply orb_false_iff in Hs as [-> ->]. done.
Qed.

(** Through blocks below [bp] that are not the last of them. *)
Lemma free_loop_up fuel bp n s mid y post e :
  linked (u_mem s) (mid ++ y :: post) e → StronglySorted blt (mid ++ [y]) → y.1 < bp →
  stops bp y.1 (hd e post.*1) = true → (length mid < fuel)%nat →
  free_loop fuel bp (hd y.1 mid.*1) n s = Done y.1 s.
Proof.
  revert fuel. induction mid as [|x mid IH]; intros fuel Hl Hs Hy Hst Hf; simpl in *.
  - destruct Hl as (H1 & _). apply free_loop_stop; [lia|]. by rewrite H1.
  - destruct fuel as [|fuel]; [lia|]. destruct Hl as (H1 & _ & H3).
    apply StronglySorted_inv in Hs as [Hs Hx]. rewrite Forall_forall in Hx.
    assert (Hnx : x.1 < load32 (u_mem s) x.1 ∧ load32 (u_mem s) x.1 <= y.1).
    { rewrite H1, fmap_app. destruct mid as [|w mid]; simpl.
      - destruct (Hx y ltac:(set_solver)). lia.
      - destruct (Hx w ltac:(set_solver)). split; [lia|].
        apply StronglySorted_inv in Hs as [_ Hs]. rewrite Forall_forall in Hs.
        destruct (Hs y ltac:(set_solver)). lia. }
    rewrite free_loop_go by (unfold stops; lia).
    rewrite H1, fmap_app, hd_app. apply IH; [done|done|done|done|lia].
Qed.

(** Through blocks above [bp], to the end of the list. *)
Lemma free_loop_over fuel bp n s seg e :
  linked (u_mem s) seg e → StronglySorted blt seg → (∀ z, z ∈ seg → bp <= z.1) → e < bp →
  free_loop (length seg + fuel) bp (hd e seg.*1) n s = free_loop fuel bp e n s.
Proof.
  induction seg as [|x seg IH]; intros Hl Hs Hb He; [done|]. cbn [length Nat.add].
  destruct Hl as (H1 & _ & H3). apply StronglySorted_inv in Hs as [Hs Hx]. rewrite Forall_forall in Hx.
  change (hd e (x :: seg).*1) with x.1.
  rewrite free_loop_go.
  - rewrite H1. apply IH; [done|done| |done]. intros z Hz. apply Hb. set_solver.
  - rewrite H1. pose proof (Hb x ltac:(set_solver)). unfold stops. destruct seg as [|w seg]; simpl; [lia|].
    destruct (Hx w ltac:(set_solver)). lia.
Qed.

Lemma free_loop_done base fuel bp n s ns l1 y l2 fp :
  hnodes base ns → ring (u_mem s) ns → fp ∈ ns.*1 → ns = l1 ++ y :: l2 → base < bp →
  y.1 < bp → (∀ z, z ∈ l2 → bp < z.1) → (length ns < fuel)%nat →
  free_loop fuel bp fp n s = Done y.1 s.
Proof.
  intros Hn Hr Hfp Hns Hbb Hy Hl2 Hf.
  assert (Hhd : hd 0 ns.*1 = base).
  { destruct Hn as [_ H _]. destruct ns as [|z ns]; simpl in *; [done|]. by injection H as ->. }
  unfold ring in Hr. rewrite Hhd in Hr.
  assert (Hst : stops bp y.1 (hd base l2.*1) = true).
  { unfold stops. destruct l2 as [|z l2]; simpl.
    - assert (y ∈ ns) by (subst; set_solver).
      destruct (hnodes_min _ _ _ Hn ltac:(done)) as [->|[? ?]]; simpl in *; lia.
    - pose proof (Hl2 z ltac:(set_solver)). lia. }
  assert (Hup : ∀ mid l0 fuel, l1 = l0 ++ mid → (length mid < fuel)%nat →
            free_loop fuel bp (hd y.1 mid.*1) n s = Done y.1 s).
  { intros mid l0 fuel' -> Hf'. apply (free_loop_up _ _ _ _ mid y l2 base); try done.
    - subst ns. rewrite <- app_assoc in Hr. by apply hlist_app in Hr as [_ Hr].
    - apply hn_sorted in Hn. subst ns. apply (StronglySorted_app_1_l _ _ l2).
      rewrite <- !app_assoc in *. by apply StronglySorted_app_1_r in Hn. }
  assert (Hlow : ∀ fuel, (length l1 < fuel)%nat → free_loop fuel bp base n s = Done y.1 s).
  { intros fuel' Hf'. rewrite <- (Hup l1 [] fuel' eq_refl Hf'). f_equal. rewrite <- Hhd. subst ns.
    rewrite fmap_app, hd_app. by destruct l1. }
  rewrite Hns in Hfp. rewrite fmap_app in Hfp. apply elem_of_app in Hfp as [Hfp|Hfp].
  - apply list_elem_of_fmap in Hfp as (x & -> & Hx). apply list_elem_of_split in Hx as (l0 & mid & ->).
    apply (Hup (x :: mid) l0); [done|]. subst ns. rewrite !length_app in Hf. simpl in *. lia.
  - rewrite fmap_cons in Hfp. apply elem_of_cons in Hfp as [->|Hfp].
    { apply (Hup [] l1); [by rewrite app_nil_r | simpl; lia]. }
    apply list_elem_of_fmap in Hfp as (x & -> & Hx). apply list_elem_of_split in Hx as (l0 & seg & ->).
    replace fuel with (length (x :: seg) + (fuel - length (x :: seg)))%nat
      by (subst ns; rewrite !length_app in Hf; simpl in *; rewrite length_app in Hf; simpl in *; lia).
    change x.1 with (hd base (x :: seg).*1). rewrite free_loop_over.
    + apply Hlow. subst ns. rewrite !length_app in Hf. simpl in *. rewrite length_app in Hf. simpl in *. lia.
    + subst ns. apply hlist_app in Hr as [_ Hr]. change (y :: l0 ++ x :: seg) with ((y :: l0) ++ x :: seg) in Hr.
      by apply hlist_app in Hr as [_ Hr].
    + destruct (hnodes_lt _ _ _ _ _ Hn Hns) as (_ & H2 & _). by apply StronglySorted_app_1_r in H2.
    + intros z Hz. apply Z.lt_le_incl, Hl2. set_solver.
    + done.
Qed.

(** ** Joining *)

Lemma hd_range base hi ns y l :
  hnodes base ns → 0 < base → hi < 2 ^ 31 → (∀ x, x ∈ ns → blk_end x <= hi) → y ∈ ns → (∀ x, x ∈ l → x ∈ ns) →
  0 <= hd y.1 l.*1 < 2 ^ 32.
Proof.
  intros Hn Hb Hhi Hns Hy Hl. assert (Hx : ∃ x, x ∈ ns ∧ hd y.1 l.*1 = x.1).
  { destruct l as [|x l]; [by exists y|]. exists x. split; [apply Hl; set_solver | done]. }
  destruct Hx as (x & Hx & ->). pose proof (Hns x Hx). unfold blk_end in *.
  destruct (hnodes_min _ _ _ Hn Hx) as [->|?]; simpl in *; lia.
Qed.
Lemma free_join_up_done base hi k s l1 y l2 b n :
  let ns := l1 ++ y :: l2 in
  hnodes base ns → ring (u_mem s) ns → 0 < base → hi < 2 ^ 31 → (∀ x, x ∈ ns → blk_end x <= hi) →
  load32 (u_mem s) (b + 4) = n → 1 <= n → b + 8 * n <= hi → base + 8 <= b → (∀ z, z ∈ l2 → b + 8 * n <= z.1) →
  (∀ x, x ∈ ns → x.1 + 8 <= b ∨ b + 8 <= x.1) →
  ∃ m1 n' l2', free_join_up b y.1 k s = Done tt (s <| u_mem := m1 |>)
    ∧ (∀ a, ¬ (b <= a < b + 8) → m1 a = u_mem s a)
    ∧ load32 m1 b = hd y.1 (l2' ++ l1).*1 ∧ load32 m1 (b + 4) = n'
    ∧ ((n' = n ∧ l2' = l2 ∧ ∀ z, z ∈ l2 → b + 8 * n < z.1)
       ∨ ∃ z, l2 = z :: l2' ∧ b + 8 * n = z.1 ∧ n' = n + z.2).
Proof.
  intros ns Hn Hr Hb0 Hhi Hns Hsz Hn1 Hbhi Hbb Hl2 Hap.
  apply ring_rotate in Hr. unfold ring in Hr. simpl in Hr. destruct Hr as (Hy & _ & Hrest).
  assert (Hnx : hd y.1 (l2 ++ l1).*1 = b + 8 * n → ∃ z l2', l2 = z :: l2' ∧ z.1 = b + 8 * n).
  { destruct l2 as [|z l2]; simpl; [|eauto]. intros H. exfalso.
    assert (hd y.1 l1.*1 = base); [|lia]. pose proof (hn_base _ _ Hn) as Hh. unfold ns in Hh.
    destruct l1; simpl in *; by injection Hh as ->. }
  assert (Hhb : hdr_add b n = b + 8 * n) by (unfold hdr_add, sizeof_Header; apply u32_small; lia).
  unfold free_join_up, h_size, h_ptr, set_h_size, set_h_ptr, ld32m, st32m, modm. kstep.
  rewrite Hsz, Hy, Hhb. destruct (Z.eqb_spec (b + 8 * n) (hd y.1 (l2 ++ l1).*1)) as [He|Hne].
  - destruct (Hnx (eq_sym He)) as (z & l2' & -> & Hz). simpl in *.
    assert (Hzn : z ∈ ns) by (unfold ns; set_solver).
    assert (Hyn : y ∈ ns) by (unfold ns; set_solver).
    destruct Hrest as (Hz1 & Hz2 & _).
    destruct (hnodes_min _ _ _ Hn Hzn) as [->|[Hz3 _]]; [simpl in *; lia|].
    pose proof (Hns z Hzn) as Hze. unfold blk_end in Hze. pose proof (Hap _ Hzn). pose proof (Hap _ Hyn).
    rewrite Hz2. eexists _, (n + z.2), l2'. split; [done|]. simpl. split_and!.
    + intros a Ha. rewrite !store32_frame by lia. done.
    + rewrite load32_store32.
      rewrite (load32_store32_ne _ (b + 4) _ y.1) by lia. rewrite Hy.
      rewrite (load32_store32_ne _ (b + 4) _ z.1) by lia. rewrite Hz1.
      apply u32_small, (hd_range base hi ns); try done. unfold ns. set_solver.
    + rewrite load32_store32_ne by lia. rewrite load32_store32. rewrite u32_idemp. apply u32_small. lia.
    + right. exists z. split_and!; [done|lia|done].
  - eexists _, n, l2. split; [done|]. simpl. split_and!.
    + intros a Ha. rewrite !store32_frame by lia. done.
    + rewrite load32_store32. apply u32_small, (hd_range base hi ns); try done; unfold ns; set_solver.
    + rewrite load32_store32_ne by lia. done.
    + left. split_and!; [done|done|]. intros z Hz. pose proof (Hl2 z Hz).
      destruct l2 as [|w l2]; [set_solver|]. simpl in Hne.
      apply elem_of_cons in Hz as [->|Hz]; [lia|].
      destruct (hnodes_lt _ _ _ _ _ Hn eq_refl) as (_ & Hs & _). apply StronglySorted_inv in Hs as [_ Hs].
      rewrite Forall_forall in Hs. destruct (Hs z Hz). pose proof (Hl2 w ltac:(set_solver)). lia.
Qed.

Lemma free_join_down_done hi k s y b n nx :
  load32 (u_mem s) (y.1 + 4) = y.2 → load32 (u_mem s) b = nx → load32 (u_mem s) (b + 4) = n →
  0 <= y.2 → 1 <= n → 0 < y.1 → y.1 + 8 <= b → blk_end y <= b → b + 8 * n <= hi → hi < 2 ^ 31 → 0 <= nx < 2 ^ 32 →
  ∃ m2, free_join_down b y.1 k s = Done tt (s <| u_mem := m2 |>)
    ∧ (∀ a, ¬ (y.1 <= a < y.1 + 8) → m2 a = u_mem s a)
    ∧ ((blk_end y = b ∧ load32 m2 y.1 = nx ∧ load32 m2 (y.1 + 4) = y.2 + n)
       ∨ (blk_end y < b ∧ load32 m2 y.1 = b ∧ load32 m2 (y.1 + 4) = y.2)).
Proof.
  unfold blk_end. intros Hys Hnx Hsz Hy0 Hn Hyp Hyb Hye Hbhi Hhi Hx.
  assert (Hhy : hdr_add y.1 y.2 = y.1 + 8 * y.2) by (unfold hdr_add, sizeof_Header; apply u32_small; lia).
  unfold free_join_down, h_size, h_ptr, set_h_size, set_h_ptr, ld32m, st32m, modm. kstep.
  rewrite Hys, Hhy. destruct (Z.eqb_spec (y.1 + 8 * y.2) b) as [He|Hne]; simpl.
  - eexists. split; [done|]. simpl. split; [|left; split_and!].
    + intros a Ha. rewrite !store32_frame by lia. done.
    + done.
    + rewrite load32_store32, load32_store32_ne, Hnx by lia. by apply u32_small.
    + rewrite load32_store32_ne, load32_store32, u32_idemp, Hsz by lia. apply u32_small. lia.
  - eexists. split; [done|]. simpl. split; [|right; split_and!].
    + intros a Ha. rewrite !store32_frame by lia. done.
    + lia.
    + rewrite load32_store32. apply u32_small. lia.
    + rewrite load32_store32_ne by lia. done.
Qed.

(** ** The new ring *)

Lemma hnodes_insert base l1 y l2 l2' b n :
  hnodes base (l1 ++ y :: l2) → (∀ z, z ∈ l2' → z ∈ l2) → StronglySorted blt l2' →
  blt y (b, n) → (∀ z, z ∈ l2' → blt (b, n) z) → 1 <= n → base + 8 <= b →
  hnodes base (l1 ++ y :: (b, n) :: l2').
Proof.
  intros Hn Hsub Hs Hyb Hb Hn1 Hbb. destruct (hnodes_lt _ _ _ _ _ Hn eq_refl) as (H1 & _ & H3 & H4 & H5). split.
  - apply sorted_join; [done| |].
    + constructor; [constructor; [done|by apply Forall_forall]|]. apply Forall_forall.
      intros z [->|Hz]%elem_of_cons; [done|auto].
    + intros x z Hx [->|[->|Hz]%elem_of_cons]%elem_of_cons; [auto| |auto].
      destruct (H3 x Hx), Hyb. unfold blt, blk_end in *. simpl in *. lia.
  - destruct Hn as [_ Hn _]. by destruct l1.
  - intros x Hx. apply elem_of_app in Hx as [Hx|[->|[->|Hx]%elem_of_cons]%elem_of_cons].
    + apply (hn_size _ _ Hn). set_solver.
    + apply (hn_size _ _ Hn). set_solver.
    + by right.
    + apply (hn_size _ _ Hn). set_solver.
Qed.
Lemma hnodes_grow base l1 y l2 l2' n :
  hnodes base (l1 ++ y :: l2) → (∀ z, z ∈ l2' → z ∈ l2) → StronglySorted blt l2' →
  1 <= y.2 → 1 <= n → (∀ z, z ∈ l2' → blt (y.1, y.2 + n) z) →
  hnodes base (l1 ++ (y.1, y.2 + n) :: l2').
Proof.
  intros Hn Hsub Hs Hy1 Hn1 Hb. destruct (hnodes_lt _ _ _ _ _ Hn eq_refl) as (H1 & _ & H3 & H4 & H5). split.
  - apply sorted_join; [done| |].
    + constructor; [done|]. by apply Forall_forall.
    + intros x z Hx [->|Hz]%elem_of_cons; [|auto].
      destruct (H3 x Hx). unfold blt, blk_end in *. simpl in *. lia.
  - destruct Hn as [_ Hn _]. destruct l1; simpl in *; [|done]. injection Hn as ->. simpl in *. lia.
  - intros x Hx. apply elem_of_app in Hx as [Hx|[->|Hx]%elem_of_cons].
    + apply (hn_size _ _ Hn). set_solver.
    + right. destruct (hn_size _ _ Hn y ltac:(set_solver)) as [->|?]; simpl in *; lia.
    + apply (hn_size _ _ Hn). set_solver.
Qed.

(** Where the blocks of the ring are, seen from an allocated block. *)
Lemma alloc_split base hi s ns al b n :
  heap_ok base hi s ns al → al !! b = Some n →
  ∃ l1 y l2, ns = l1 ++ y :: l2 ∧ y.1 < b ∧ y.1 + 8 <= b ∧ blk_end y <= b
    ∧ (∀ z, z ∈ l2 → b + 8 * n <= z.1) ∧ (∀ x, x ∈ ns → x.1 + 8 <= b ∨ b + 8 <= x.1).
Proof.
  intros Hh Hb. destruct (hp_alloc _ _ _ _ _ Hh _ _ Hb) as (Hn & Hbb & Hbhi & _ & Hd).
  pose proof (hp_nodes _ _ _ _ _ Hh) as Hns.
  destruct (hnodes_split base ns b Hns) as (l1 & y & l2 & -> & Hy & Hl2); [lia|].
  assert (Hap : ∀ x, x ∈ l1 ++ y :: l2 → x.1 + 8 <= b ∨ b + 8 <= x.1).
  { intros x Hx. destruct (hnodes_min _ _ _ Hns Hx) as [->|?]; [simpl; lia|].
    destruct (Hd x Hx); unfold blk_end in *; simpl in *; lia. }
  exists l1, y, l2. split_and!; [done|done| | | |done].
  - destruct (Hap y ltac:(set_solver)); lia.
  - destruct (Hd y ltac:(set_solver)); unfold blk_end in *; simpl in *; lia.
  - intros z Hz. pose proof (Hl2 z Hz). destruct (Hd z ltac:(set_solver)) as [?|?]; [done|].
    destruct (hnodes_min _ _ z Hns ltac:(set_solver)) as [->|?]; unfold blk_end in *; simpl in *; lia.
Qed.

(** What the ring looks like after free: [n'] is the size of the block at
    [b] after the first join, [l2'] what follows it. *)
Definition joined (l1 : list blk) (y : blk) (b n' : Z) (l2' : list blk) : list blk :=
  if blk_end y =? b then l1 ++ (y.1, y.2 + n') :: l2' else l1 ++ y :: (b, n') :: l2'.

Lemma joined_nodes base l1 y l2 b n' l2' :
  hnodes base (l1 ++ y :: l2) → (∀ z, z ∈ l2' → z ∈ l2) → StronglySorted blt l2' →
  1 <= n' → y.1 + 8 <= b → blk_end y <= b → base + 8 <= b → (∀ z, z ∈ l2' → b + 8 * n' < z.1) →
  hnodes base (joined l1 y b n' l2').
Proof.
  intros Hn Hsub Hs Hn1 Hy8 Hye Hbb Hl2. unfold joined. destruct (Z.eqb_spec (blk_end y) b) as [He|Hne].
  - apply (hnodes_grow base l1 y l2); try done.
    + unfold blk_end in He. lia.
    + intros z Hz. pose proof (Hl2 z Hz). unfold blt, blk_end in *. simpl. lia.
  - apply (hnodes_insert base l1 y l2); try done.
    + unfold blt. simpl. lia.
    + intros z Hz. pose proof (Hl2 z Hz). unfold blt, blk_end. simpl. lia.
Qed.
Lemma joined_elem l1 y b n' l2' x :
  x ∈ joined l1 y b n' l2' →
  x ∈ l1 ∨ x = y ∨ x ∈ l2' ∨ (x = (b, n')) ∨ (blk_end y = b ∧ x = (y.1, y.2 + n')).
Proof. unfold joined. destruct (Z.eqb_spec (blk_end y) b); set_solver. Qed.
Lemma joined_ring m m1 m2 l1 y l2 b n' l2' :
  ring m (l1 ++ y :: l2) → (∃ l0, l2 = l0 ++ l2') →
  (∀ x, x ∈ l2' ++ l1 → ∀ a, x.1 <= a < x.1 + 8 → m2 a = m a) →
  (∀ a, b <= a < b + 8 → m2 a = m1 a) →
  load32 m1 b = hd y.1 (l2' ++ l1).*1 → load32 m1 (b + 4) = n' →
  ((blk_end y = b ∧ load32 m2 y.1 = load32 m1 b ∧ load32 m2 (y.1 + 4) = y.2 + n')
   ∨ (blk_end y < b ∧ load32 m2 y.1 = b ∧ load32 m2 (y.1 + 4) = y.2)) →
  ring m2 (joined l1 y b n' l2').
Proof.
  intros Hr [l0 ->] Hf Hb H1 H2 Hd. apply ring_rotate in Hr. unfold ring in Hr. simpl in Hr.
  destruct Hr as (_ & _ & Hr). rewrite <- app_assoc in Hr. apply hlist_app in Hr as [_ Hr].
  assert (Hl : linked m2 (l2' ++ l1) y.1).
  { eapply hlist_frame; [|done]. intros x a Hx. by apply Hf. }
  unfold joined. destruct (Z.eqb_spec (blk_end y) b) as [He|Hne].
  - destruct Hd as [(_ & Hd1 & Hd2)|(? & _)]; [|lia].
    apply (ring_rotate _ ((y.1, y.2 + n') :: l2') l1). unfold ring. simpl. by rewrite Hd1, Hd2.
  - destruct Hd as [(? & _)|(_ & Hd1 & Hd2)]; [lia|].
    apply (ring_rotate _ (y :: (b, n') :: l2') l1). unfold ring. simpl. rewrite Hd1, Hd2.
    rewrite !(load32_frame m1 m2) by (intros; apply Hb; lia). done.
Qed.

(** The blocks of the ring cover what they covered and the freed block. *)
Lemma joined_covers l1 y l2 b n n' l2' a :
  0 <= y.2 → 1 <= n →
  ((n' = n ∧ l2' = l2) ∨ ∃ z, l2 = z :: l2' ∧ b + 8 * n = z.1 ∧ n' = n + z.2 ∧ 0 <= z.2) →
  covers (joined l1 y b n' l2') a ↔ covers (l1 ++ y :: l2) a ∨ b <= a < b + 8 * n.
Proof.
  intros Hy Hn Hc. assert (Happ : ∀ k1 k2, covers (k1 ++ k2) a ↔ covers k1 a ∨ covers k2 a).
  { intros k1 k2. unfold covers. setoid_rewrite elem_of_app. firstorder. }
  assert (Hcons : ∀ x k, covers (x :: k) a ↔ x.1 <= a < blk_end x ∨ covers k a).
  { intros x k. unfold covers. setoid_rewrite elem_of_cons. split.
    - intros (w & [->|Hw] & ?); eauto.
    - intros [?|(w & ? & ?)]; eauto. }
  assert (Hb : covers l2' a ∨ b <= a < b + 8 * n' ↔ covers l2 a ∨ b <= a < b + 8 * n).
  { destruct Hc as [[-> ->]|(z & -> & Hz & -> & Hz2)]; [done|]. rewrite Hcons. unfold blk_end.
    assert (b <= a < b + 8 * (n + z.2) ↔ z.1 <= a < z.1 + 8 * z.2 ∨ b <= a < b + 8 * n) as -> by lia. tauto. }
  unfold joined. rewrite (Happ l1 (y :: l2)), (Hcons y l2). destruct (Z.eqb_spec (blk_end y) b) as [He|Hne].
  - rewrite Happ, Hcons. unfold blk_end in *. simpl.
    assert (Hn' : 0 <= n') by (destruct Hc as [[-> _]|(z & _ & _ & -> & ?)]; lia).
    assert (y.1 <= a < y.1 + 8 * (y.2 + n') ↔ y.1 <= a < y.1 + 8 * y.2 ∨ b <= a < b + 8 * n') as -> by lia. tauto.
  - rewrite Happ, !Hcons. unfold blk_end. simpl. tauto.
Qed.

(** The search and the two joins, on the memory. *)
Lemma free_run base hi k s ns al b n :
  heap_ok base hi s ns al → al !! b = Some n → (length ns < k)%nat →
  ∃ l1 y l2 n' l2' m2, ns = l1 ++ y :: l2
    ∧ free (b + 8) k s = Done tt (s <| u_mem := m2 |> <| u_freep := y.1 |>)
    ∧ y.1 + 8 <= b ∧ blk_end y <= b ∧ 1 <= n' ∧ b + 8 * n' <= hi ∧ (∀ z, z ∈ l2' → b + 8 * n' < z.1)
    ∧ ((n' = n ∧ l2' = l2) ∨ ∃ z, l2 = z :: l2' ∧ b + 8 * n = z.1 ∧ n' = n + z.2 ∧ 0 <= z.2)
    ∧ (∀ a, ¬ (b <= a < b + 8) → ¬ (y.1 <= a < y.1 + 8) → m2 a = u_mem s a)
    ∧ ring m2 (joined l1 y b n' l2').
Proof.
  intros Hh Hb Hk. destruct (hp_alloc _ _ _ _ _ Hh _ _ Hb) as (Hn & Hbb & Hbhi & Hsz & _).
  destruct (alloc_split _ _ _ _ _ _ _ Hh Hb) as (l1 & y & l2 & Hns & Hy & Hy8 & Hye & Hl2 & Hap).
  destruct Hh as [Hnodes Hring Hfp (Hb0 & Hbh & Hhi & Hend) _ _].
  destruct (free_join_up_done base hi k s l1 y l2 b n) as (m1 & n' & l2' & Hup & Hf1 & Hp1 & Hs1 & Hc);
    try done; try (by rewrite <- Hns).
  assert (Hyn : y ∈ ns) by in_list.
  assert (Hy2 : load32 (u_mem s) (y.1 + 4) = y.2).
  { subst ns. apply ring_rotate in Hring. by destruct Hring as (_ & ? & _). }
  pose proof (λ x, hnodes_min _ _ x Hnodes) as Hmin.
  assert (Hc' : 1 <= n' ∧ b + 8 * n' <= hi ∧ (∀ z, z ∈ l2' → b + 8 * n' < z.1)
      ∧ ((n' = n ∧ l2' = l2) ∨ ∃ z, l2 = z :: l2' ∧ b + 8 * n = z.1 ∧ n' = n + z.2 ∧ 0 <= z.2)
      ∧ ∃ l0, l2 = l0 ++ l2').
  { destruct Hc as [(-> & -> & H)|(z & -> & Hz & ->)]; [split_and!; try done; [by left | by exists []]|].
    assert (Hzn : z ∈ ns) by in_list. pose proof (Hend z Hzn) as Hze. unfold blk_end in Hze.
    assert (1 <= z.2) by (destruct (Hmin z Hzn) as [->|?]; simpl in *; lia).
    split_and!; [lia|lia| |right; exists z; split_and!; [done|done|done|lia]|by exists [z]].
    destruct (hnodes_lt _ _ _ _ _ Hnodes Hns) as (_ & Hs & _). apply StronglySorted_inv in Hs as [_ Hs].
    rewrite Forall_forall in Hs. intros w Hw. destruct (Hs w Hw). unfold blk_end in *. lia. }
  destruct Hc' as (Hn1 & Hbn & Hl2' & Hc' & Hsub). clear Hc.
  assert (Hnx : 0 <= hd y.1 (l2' ++ l1).*1 < 2 ^ 32).
  { apply (hd_range base hi ns); try done. destruct Hsub as [l0 ->]. subst ns. set_solver. }
  destruct (free_join_down_done hi k (s <| u_mem := m1 |>) y b n' (hd y.1 (l2' ++ l1).*1))
    as (m2 & Hdn & Hf2 & Hc2); simpl; try done.
  { rewrite <- Hy2. apply load32_frame. intros. apply Hf1. lia. }
  { destruct (Hmin y Hyn) as [->|?]; simpl; lia. }
  { destruct (Hmin y Hyn) as [->|?]; simpl; lia. }
  simpl in Hf2. exists l1, y, l2, n', l2', m2. split_and!; try done.
  - unfold free. cbv zeta. replace (b + 8 -u sizeof_Header) with b by (unfold sizeof_Header; rewrite u32_small; lia).
    erewrite bind_done by done. erewrite bind_done.
    2: { unfold with_fuel. apply (free_loop_done base k b k s ns l1 y l2); try done; [lia|].
         intros z Hz. specialize (Hl2 z Hz). lia. }
    rewrite (bind_done _ _ _ _ _ _ Hup), (bind_done _ _ _ _ _ _ Hdn). done.
  - intros a Ha1 Ha2. rewrite Hf2, Hf1 by done. done.
  - apply (joined_ring (u_mem s) m1 m2 l1 y l2); try done.
    + by rewrite <- Hns.
    + intros x Hx a Ha. destruct Hsub as [l0 ->].
      assert (Hxs : x ∈ (l0 ++ l2') ++ l1) by in_list.
      pose proof (hnodes_apart _ _ _ _ _ x Hnodes Hns Hxs).
      pose proof (Hap x ltac:(in_list)). rewrite Hf2, Hf1 by lia. done.
    + intros a Ha. apply Hf2. lia.
    + rewrite Hp1. destruct Hc2 as [?|?]; [left|right]; done.
Qed.

(** free puts the block back: the free blocks cover what they covered and the
    block, and nothing but free memory has been written. *)
Lemma free_done base hi k s ns al b n :
  heap_ok base hi s ns al → al !! b = Some n → (length ns < k)%nat →
  ∃ m' fp' ns', free (b + 8) k s = Done tt (s <| u_mem := m' |> <| u_freep := fp' |>)
    ∧ heap_ok base hi (s <| u_mem := m' |> <| u_freep := fp' |>) ns' (delete b al)
    ∧ (∀ a, covers ns' a ↔ covers ns a ∨ b <= a < b + 8 * n)
    ∧ (∀ a, ¬ hregion base ns a → ¬ (b <= a < b + 8 * n) → m' a = u_mem s a)
    ∧ (length ns' <= S (length ns))%nat ∧ ∃ x, x ∈ ns' ∧ n <= x.2.
Proof.
  intros Hh Hb Hk. destruct (hp_alloc _ _ _ _ _ Hh _ _ Hb) as (Hn & Hbb & Hbhi & _).
  destruct (free_run _ _ _ _ _ _ _ _ Hh Hb Hk)
    as (l1 & y & l2 & n' & l2' & m2 & Hns & Hrun & Hy8 & Hye & Hn1 & Hbn & Hl2' & Hc & Hf & Hr).
  pose proof Hh as [Hnodes Hring Hfp (Hb0 & Hbh & Hhi & Hend) Hal Hdj].
  assert (Hyn : y ∈ ns) by in_list.
  assert (Hy2 : 0 <= y.2) by (destruct (hnodes_min _ _ _ Hnodes Hyn) as [->|?]; simpl; lia).
  assert (Hsub : (∀ z, z ∈ l2' → z ∈ l2) ∧ StronglySorted blt l2').
  { destruct (hnodes_lt _ _ _ _ _ Hnodes Hns) as (_ & Hs & _).
    destruct Hc as [[_ ->]|(z & -> & _)]; [done|]. split; [intros; in_list|]. by apply StronglySorted_inv in Hs as [? _]. }
  destruct Hsub as [Hsub Hs].
  assert (Hframe : ∀ a, ¬ hregion base ns a → ¬ (b <= a < b + 8 * n) → m2 a = u_mem s a).
  { intros a Ha Hba. apply Hf; [lia|]. intros Hya. apply Ha. by apply (hnodes_hregion _ _ y). }
  assert (Hcov := joined_covers l1 y l2 b n n' l2').
  exists m2, y.1, (joined l1 y b n' l2'). split; [done|]. split_and!.
  - split; simpl.
    + apply (joined_nodes base l1 y l2); try done. by rewrite <- Hns.
    + done.
    + unfold joined. destruct (_ =? _); rewrite fmap_app; apply elem_of_app; right; apply list_elem_of_here.
    + split_and!; try done. intros x Hx. apply joined_elem in Hx as [Hx|[->|[Hx|[->|[He ->]]]]].
      * apply Hend. in_list.
      * by apply Hend.
      * apply Hsub in Hx. apply Hend. in_list.
      * done.
      * unfold blk_end in *. simpl. lia.
    + intros a k' [Hne Ha]%lookup_delete_Some. destruct (Hal a k' Ha) as (H1 & H2 & H3 & H4 & H5).
      pose proof (Hdj _ _ _ _ Ha Hb ltac:(done)) as Hd. split_and!; try done.
      * rewrite <- H4. apply load32_frame. intros c Hcc. apply Hframe.
        -- intros [?|(x & Hx & ?)]; [lia|]. destruct (H5 x Hx); unfold blk_end in *; simpl in *; lia.
        -- destruct Hd; unfold blk_end in *; simpl in *; lia.
      * intros x Hx. assert (Hin : ∀ z, z ∈ l2 → bdisj (a, k') z) by (intros; apply H5; in_list).
        assert (Hdn : bdisj (a, k') (b, n')).
        { destruct Hc as [[-> ->]|(z & -> & Hz & -> & ?)]; [done|]. pose proof (Hin z ltac:(in_list)) as Hz'.
          destruct Hd, Hz'; unfold bdisj, blk_end in *; simpl in *; lia. }
        apply joined_elem in Hx as [Hx|[->|[Hx|[->|[He ->]]]]].
        -- apply H5. in_list.
        -- by apply H5.
        -- auto.
        -- done.
        -- pose proof (H5 y Hyn) as Hy'. destruct Hdn, Hy'; unfold bdisj, blk_end in *; simpl in *; lia.
    + intros a k1 c k2 [_ Ha]%lookup_delete_Some [_ Hc']%lookup_delete_Some. by apply Hdj.
  - intros a. rewrite Hns. by apply Hcov.
  - done.
  - unfold joined. rewrite Hns. destruct Hc as [[_ ->]|(z & -> & _)], (_ =? _); rewrite !length_app; simpl; lia.
  - unfold joined. assert (n <= n') by (destruct Hc as [[-> _]|(z & _ & _ & -> & ?)]; lia).
    destruct (_ =? _).
    + exists (y.1, y.2 + n'). split; [in_list | simpl; lia].
    + exists (b, n'). split; [in_list | simpl; lia].
Qed.
End free.

(** ** malloc: taking from a block *)

Section malloc.
Context {E : Type}.
Implicit Types s : ust E.

(** The ring after [nu] units of [x] are gone, and the block they make. *)
Definition rest_of (x : blk) (nu : Z) (l2 : list blk) : list blk :=
  if x.2 =? nu then l2 else (x.1, x.2 - nu) :: l2.
Definition taken (x : blk) (nu : Z) : Z := x.1 + 8 * (x.2 - nu).

Lemma rest_nodes base l1 y x l2 nu :
  hnodes base (l1 ++ y :: x :: l2) → 1 <= nu <= x.2 → hnodes base (l1 ++ y :: rest_of x nu l2).
Proof.
  intros Hn Hnu. destruct (hnodes_lt _ _ _ _ _ Hn eq_refl) as (H1 & H2 & H3 & H4 & H5).
  assert (Hx : blt y x) by (apply H4; in_list). apply StronglySorted_inv in H2 as [H2 H2x]. rewrite Forall_forall in H2x.
  assert (Hxb : base + 8 <= x.1).
  { destruct (hnodes_min _ _ x Hn ltac:(in_list)) as [->|?]; simpl in *; lia. }
  unfold rest_of. destruct (Z.eqb_spec x.2 nu).
  - split.
    + apply sorted_join; [done| |].
      * constructor; [done|]. apply Forall_forall. intros z Hz. apply H4. in_list.
      * intros w z Hw [->|Hz]%elem_of_cons; [by apply H3|]. apply H5; in_list.
    + destruct Hn as [_ Hn _]. by destruct l1.
    + intros z Hz. apply (hn_size _ _ Hn). in_list.
  - apply (hnodes_insert base l1 y (x :: l2)); try done.
    + intros; in_list.
    + intros z Hz. destruct (H2x z Hz). unfold blt, blk_end in *. simpl. lia.
    + lia.
Qed.
Lemma rest_elem l1 y x l2 nu z :
  z ∈ l1 ++ y :: rest_of x nu l2 →
  z ∈ l1 ++ y :: x :: l2 ∨ (z = (x.1, x.2 - nu) ∧ x.2 ≠ nu).
Proof.
  unfold rest_of. destruct (Z.eqb_spec x.2 nu); intros Hz; [left; in_list|].
  apply elem_of_app in Hz as [?|[->|[->|?]%elem_of_cons]%elem_of_cons]; [left; in_list..|by right|left; in_list].
Qed.
Lemma rest_covers base l1 y x l2 nu a :
  hnodes base (l1 ++ y :: x :: l2) → 1 <= nu <= x.2 →
  (covers (l1 ++ y :: x :: l2) a ↔ covers (l1 ++ y :: rest_of x nu l2) a ∨ taken x nu <= a < taken x nu + 8 * nu).
Proof.
  intros Hn Hnu. unfold covers, taken. split.
  - intros (z & Hz & Ha). unfold rest_of. destruct (Z.eqb_spec x.2 nu) as [<-|Hne].
    + destruct (decide (z = x)) as [->|]; [right; unfold blk_end in Ha; lia|].
      left. exists z. split; [in_list | done].
    + destruct (decide (z = x)) as [->|]; [|left; exists z; split; [in_list | done]].
      destruct (decide (a < x.1 + 8 * (x.2 - nu))); [|right; unfold blk_end in Ha; lia].
      left. exists (x.1, x.2 - nu). split; [in_list | unfold blk_end; simpl; lia].
  - intros [(z & Hz & Ha)|Ha].
    + apply rest_elem in Hz as [Hz|[-> _]]; [by exists z|].
      exists x. split; [in_list|]. unfold blk_end in *. simpl in *. lia.
    + exists x. split; [in_list|]. unfold blk_end. lia.
Qed.

(** The memory after the block [x], reached from [y], is cut. *)
Lemma malloc_take_run base hi k s ns al l1 y x l2 nu :
  heap_ok base hi s ns al → ns = l1 ++ y :: x :: l2 → 1 <= nu <= x.2 →
  ∃ m', malloc_take nu y.1 x.1 k s = Done (taken x nu + 8) (s <| u_mem := m' |> <| u_freep := y.1 |>)
    ∧ ring m' (l1 ++ y :: rest_of x nu l2) ∧ load32 m' (taken x nu + 4) = nu
    ∧ ∀ a, ¬ (y.1 <= a < y.1 + 8) → ¬ (x.1 <= a < blk_end x) → m' a = u_mem s a.
Proof.
  intros [Hn Hr Hfp (Hb0 & Hbh & Hhi & Hend) Hal Hdj] Hns Hnu. unfold taken.
  pose proof (Hend x ltac:(in_list)) as Hxe. unfold blk_end in *.
  assert (Hxb : base + 8 <= x.1).
  { destruct (hnodes_min _ _ x Hn ltac:(in_list)) as [->|?]; simpl in *; lia. }
  assert (Hyx : y.1 + 8 <= x.1).
  { destruct (hnodes_lt _ _ _ _ _ Hn Hns) as (_ & _ & _ & H & _). apply (H x). in_list. }
  assert (Hap : ∀ z, z ∈ l2 ++ l1 → (z.1 + 8 <= y.1 ∨ y.1 + 8 <= z.1) ∧ (z.1 + 8 <= x.1 ∨ x.1 + 8 * x.2 < z.1)).
  { intros z Hz. split; [apply (hnodes_apart _ _ _ _ _ z Hn Hns); in_list|].
    rewrite (cons_middle y l1), app_assoc in Hns.
    destruct (hnodes_lt _ _ _ _ _ Hn Hns) as (_ & _ & H1 & H2 & _).
    apply elem_of_app in Hz as [Hz|Hz]; [right; by apply (H2 z) | left; apply (H1 z); in_list]. }
  assert (Hrr : ring (u_mem s) (y :: x :: l2 ++ l1)).
  { subst ns. by apply ring_rotate in Hr. }
  destruct Hrr as (Hy1 & Hy2 & Hx1 & Hx2 & Hrest). simpl in Hy1, Hx1, Hrest.
  assert (Hback : ∀ m', ring m' (y :: rest_of x nu l2 ++ l1) → ring m' (l1 ++ y :: rest_of x nu l2)).
  { intros m'. apply (ring_rotate m' (y :: rest_of x nu l2) l1). }
  unfold malloc_take, h_size, h_ptr, set_h_size, set_h_ptr, ld32m, st32m, modm, set_freep, hdr_add, sizeof_Header.
  kstep. rewrite Hx2. destruct (Z.eqb_spec x.2 nu) as [Heq|Hne]; simpl.
  - eexists. split; [f_equal; rewrite u32_small by lia; lia|]. split_and!.
    + apply Hback. unfold rest_of. rewrite Heq, Z.eqb_refl. unfold ring. simpl. split_and!.
      * rewrite load32_store32, Hx1. apply u32_small, (hd_range base hi ns); try done; intros; in_list.
      * rewrite load32_store32_ne by lia. done.
      * eapply hlist_frame; [|done]. intros z a Hz Ha. destruct (Hap z Hz). apply store32_frame. lia.
    + rewrite load32_store32_ne by lia. rewrite <- Heq, <- Hx2. f_equal. lia.
    + intros a Ha _. apply store32_frame. lia.
  - rewrite load32_store32, u32_idemp, (u32_small (x.2 - nu)) by lia.
    rewrite (u32_small (x.1 + 8 * (x.2 - nu))) by lia.
    eexists. split; [f_equal; apply u32_small; lia|]. split_and!.
    + apply Hback. unfold rest_of. rewrite (proj2 (Z.eqb_neq _ _) Hne). unfold ring. simpl. split_and!.
      * rewrite !load32_store32_ne by lia. done.
      * rewrite !load32_store32_ne by lia. done.
      * rewrite !load32_store32_ne by lia. done.
      * rewrite load32_store32_ne, load32_store32 by lia. apply u32_small. lia.
      * eapply hlist_frame; [|done]. intros z a Hz Ha. destruct (Hap z Hz). rewrite !store32_frame by lia. done.
    + rewrite load32_store32. apply u32_small. lia.
    + intros a _ Ha. rewrite !store32_frame by lia. done.
Qed.

(** A free block and an allocated one are at different addresses. *)
Lemma alloc_fresh base hi s ns al x b :
  heap_ok base hi s ns al → x ∈ ns → x.1 <= b < blk_end x → al !! b = None.
Proof.
  intros Hh Hx Hb. destruct (al !! b) as [n|] eqn:Hal; [|done].
  destruct (hp_alloc _ _ _ _ _ Hh _ _ Hal) as (? & _ & _ & _ & Hd).
  destruct (Hd x Hx); unfold blk_end in *; simpl in *; lia.
Qed.

Lemma malloc_take_done base hi k s ns al l1 y x l2 nu :
  heap_ok base hi s ns al → ns = l1 ++ y :: x :: l2 → 1 <= nu <= x.2 →
  ∃ m' fp' b ns', malloc_take nu y.1 x.1 k s = Done (b + 8) (s <| u_mem := m' |> <| u_freep := fp' |>)
    ∧ heap_ok base hi (s <| u_mem := m' |> <| u_freep := fp' |>) ns' (<[b := nu]> al)
    ∧ al !! b = None
    ∧ (∀ a, covers ns a ↔ covers ns' a ∨ b <= a < b + 8 * nu)
    ∧ (∀ a, ¬ hregion base ns a → m' a = u_mem s a)
    ∧ (length ns' <= length ns)%nat.
Proof.
  intros Hh Hns Hnu. destruct (malloc_take_run base hi k s ns al l1 y x l2 nu Hh Hns Hnu) as (m' & Hrun & Hr & Hsz & Hf).
  pose proof Hh as [Hn _ _ (Hb0 & Hbh & Hhi & Hend) Hal Hdj].
  assert (Hx : x ∈ ns) by in_list. assert (Hy : y ∈ ns) by in_list.
  pose proof (Hend x Hx) as Hxe. unfold blk_end in Hxe.
  assert (Hxb : base + 8 <= x.1) by (destruct (hnodes_min _ _ x Hn Hx) as [->|?]; simpl in *; lia).
  assert (Hframe : ∀ a, ¬ hregion base ns a → m' a = u_mem s a).
  { intros a Ha. apply Hf; intros Hin; apply Ha; [by apply (hnodes_hregion _ _ y)|]. right. by exists x. }
  assert (Hsub : ∀ a n, al !! a = Some n → bdisj (a, n) (taken x nu, nu)).
  { intros a n Ha. destruct (Hal a n Ha) as (_ & _ & _ & _ & Hd).
    destruct (Hd x Hx); unfold bdisj, taken, blk_end in *; simpl in *; lia. }
  assert (Hrd : ∀ z, z ∈ l1 ++ y :: rest_of x nu l2 → bdisj (taken x nu, nu) z).
  { intros z Hz. unfold rest_of, taken, bdisj, blk_end in *. simpl.
    rewrite (cons_middle y l1), app_assoc in Hns. destruct (hnodes_lt _ _ _ _ _ Hn Hns) as (_ & _ & H1 & H2 & _).
    assert (Hz' : z ∈ l1 ++ [y] ∨ z ∈ l2 ∨ (z = (x.1, x.2 - nu))) by (destruct (_ =? _); in_list).
    destruct Hz' as [Hz'|[Hz'| ->]].
    - right. destruct (H1 z Hz'). unfold blk_end in *. lia.
    - left. destruct (H2 z Hz'). unfold blk_end in *. lia.
    - right. simpl. lia. }
  exists m', y.1, (taken x nu), (l1 ++ y :: rest_of x nu l2). split; [done|]. split_and!.
  - split; simpl.
    + apply rest_nodes; [by rewrite <- Hns | done].
    + done.
    + rewrite fmap_app. apply elem_of_app; right; apply list_elem_of_here.
    + split_and!; try done. intros z Hz. apply rest_elem in Hz as [Hz|[-> ?]]; [apply Hend; in_list|].
      unfold blk_end. simpl. lia.
    + intros a n Ha. apply lookup_insert_Some in Ha as [[<- <-]|[Hne Ha]].
      * unfold taken in *. split_and!; try lia; try done.
      * destruct (Hal a n Ha) as (H1 & H2 & H3 & H4 & H5). split_and!; try done.
        -- rewrite <- H4. apply load32_frame. intros c Hc. apply Hframe.
           intros [?|(z & Hz & ?)]; [lia|]. destruct (H5 z Hz); unfold blk_end in *; simpl in *; lia.
        -- intros z Hz. apply rest_elem in Hz as [Hz|[-> ?]]; [apply H5; in_list|].
           destruct (H5 x Hx); unfold bdisj, blk_end in *; simpl in *; lia.
    + intros a n b k'. rewrite !lookup_insert_Some. intros [[<- <-]|[Ha1 Ha]] [[<- <-]|[Hb1 Hb]] Hab; try done.
      * destruct (Hsub _ _ Hb); [by right | by left].
      * by apply Hsub.
      * by apply Hdj.
  - apply (alloc_fresh base hi s ns al x); [done|done|]. unfold taken, blk_end. lia.
  - intros a. rewrite Hns at 1. apply (rest_covers base); [by rewrite <- Hns | done].
  - done.
  - subst ns. unfold rest_of. rewrite !length_app. destruct (_ =? _); simpl; lia.
Qed.

(** ** malloc: the search *)

(** What [malloc_loop] does at the end of a round without a fit. *)
Definition next_round (fuel : nat) (nu : Z) : UM E Z :=
  p ← morecore nu; if p =? 0 then mret 0 else nx ← h_ptr p; malloc_loop fuel nu p nx.

Lemma malloc_loop_S fuel nu q p n s :
  malloc_loop (S fuel) nu q p n s =
    if load32 (u_mem s) (p + 4) >=? nu then malloc_take nu q p n s
    else if p =? u_freep s then next_round fuel nu n s
    else malloc_loop fuel nu p (load32 (u_mem s) p) n s.
Proof.
  cbn [malloc_loop]. rewrite (bind_done _ _ _ _ (load32 (u_mem s) (p + 4)) s) by done.
  destruct (_ >=? _); [done|]. rewrite (bind_done _ _ _ _ (u_freep s) s) by done. destruct (_ =? _); [done|].
  by rewrite (bind_done _ _ _ _ (load32 (u_mem s) p) s) by done.
Qed.
Lemma malloc_round fuel nu n s y v q :
  (∀ v1 p x v2, q :: v ++ [y] = v1 ++ p :: x :: v2 → load32 (u_mem s) p.1 = x.1 ∧ load32 (u_mem s) (x.1 + 4) = x.2) →
  (∀ x, x ∈ v → x.1 ≠ y.1) → u_freep s = y.1 →
  (∃ v1 p x v2, q :: v ++ [y] = v1 ++ p :: x :: v2 ∧ nu <= x.2
     ∧ malloc_loop (S (length v + fuel)) nu q.1 (load32 (u_mem s) q.1) n s = malloc_take nu p.1 x.1 n s)
  ∨ (∀ x, x ∈ v ++ [y] → x.2 < nu)
    ∧ malloc_loop (S (length v + fuel)) nu q.1 (load32 (u_mem s) q.1) n s = next_round fuel nu n s.
Proof.
  revert q. induction v as [|x v IH]; intros q Hadj Hne Hfp.
  - destruct (Hadj [] q y []) as [-> Hy]; [done|].
    cbn [length Nat.add]. rewrite malloc_loop_S, Hy. destruct (Z.geb_spec y.2 nu) as [Hle|Hlt].
    + left. exists [], q, y, []. split_and!; [done|lia|done].
    + right. split; [intros x Hx; apply list_elem_of_singleton in Hx as ->; lia|].
      by rewrite Hfp, Z.eqb_refl.
  - destruct (Hadj [] q x (v ++ [y])) as [-> Hx]; [done|].
    cbn [length Nat.add]. rewrite malloc_loop_S, Hx. destruct (Z.geb_spec x.2 nu) as [Hle|Hlt].
    + left. exists [], q, x, (v ++ [y]). split_and!; [done|lia|done].
    + destruct (Z.eqb_spec x.1 (u_freep s)) as [He|_]; [exfalso; apply (Hne x); [in_list|congruence]|].
      destruct (IH x) as [(v1 & p & z & v2 & Hv & Hz & Heq)|[Hall Heq]].
      * intros v1 p z v2 Hv. apply (Hadj (q :: v1) p z v2). simpl. by rewrite Hv.
      * intros z Hz. apply Hne. in_list.
      * done.
      * left. exists (q :: v1), p, z, v2. split_and!; [simpl; by rewrite Hv|done|]. exact Heq.
      * right. split; [|exact Heq]. intros z [->|Hz]%elem_of_cons; [lia|by apply Hall].
Qed.

(** Neighbours on the way round the ring are neighbours in the list, unless
    the second is the list's head. *)
Lemma round_adjacent (ns l1 l2 v1 v2 : list blk) y p x :
  ns = l1 ++ y :: l2 → y :: (l2 ++ l1) ++ [y] = v1 ++ p :: x :: v2 → head ns ≠ Some x →
  ∃ k1 k2, ns = k1 ++ p :: x :: k2.
Proof.
  intros -> Hv Hx. assert (Hh : head (l1 ++ [y]) ≠ Some x) by (by destruct l1).
  assert (Hv' : (y :: l2) ++ (l1 ++ [y]) = (v1 ++ [p]) ++ x :: v2).
  { rewrite <- !app_assoc. simpl. rewrite <- Hv. simpl. by rewrite <- app_assoc. }
  apply app_eq_inv in Hv' as [(k & H1 & H2)|(k & H1 & H2)].
  - destruct k as [|z k]; simpl in H2; [by rewrite <- H2 in Hh|]. injection H2 as <- _.
    exists (l1 ++ v1), k. by rewrite H1, <- !app_assoc.
  - destruct k as [|z k _] using rev_ind; [by rewrite H2 in Hh|].
    rewrite app_assoc in H1. apply app_inj_tail in H1 as [_ <-].
    exists k, (v2 ++ l2). rewrite (cons_middle y l1 l2), app_assoc, H2, <- !app_assoc. done.
Qed.

Lemma malloc_search base hi s ns al fuel nu n :
  heap_ok base hi s ns al → 1 <= nu →
  (∃ k1 p x k2, ns = k1 ++ p :: x :: k2 ∧ nu <= x.2
     ∧ malloc_loop (length ns + fuel) nu (u_freep s) (load32 (u_mem s) (u_freep s)) n s = malloc_take nu p.1 x.1 n s)
  ∨ (∀ x, x ∈ ns → x.2 < nu)
    ∧ malloc_loop (length ns + fuel) nu (u_freep s) (load32 (u_mem s) (u_freep s)) n s = next_round fuel nu n s.
Proof.
  intros [Hn Hr Hfp _ _ _] Hnu. apply list_elem_of_fmap in Hfp as (y & Hfp & Hy).
  apply list_elem_of_split in Hy as (l1 & l2 & Hns).
  assert (Hl : linked (u_mem s) ((y :: l2 ++ l1) ++ [y]) (load32 (u_mem s) y.1)).
  { subst ns. apply ring_rotate in Hr. unfold ring in Hr. simpl in Hr. apply hlist_app. simpl.
    destruct Hr as (H1 & H2 & H3). done. }
  assert (Hlen : (length ns + fuel = S (length (l2 ++ l1) + fuel))%nat).
  { subst ns. rewrite !length_app. simpl. lia. }
  destruct (malloc_round fuel nu n s y (l2 ++ l1) y) as [(v1 & p & x & v2 & Hv & Hx & Heq)|[Hall Heq]].
  - intros v1 p x v2 Hv. rewrite <- app_comm_cons, Hv in Hl. apply hlist_app in Hl as [_ (H1 & _ & _ & H2 & _)]. done.
  - intros x Hx He. destruct (hnodes_apart _ _ _ _ _ x Hn Hns Hx); lia.
  - done.
  - left. destruct (round_adjacent ns l1 l2 v1 v2 y p x Hns Hv) as (k1 & k2 & ->).
    { rewrite (hn_base _ _ Hn). intros [= <-]. simpl in Hx. lia. }
    exists k1, p, x, k2. rewrite Hlen, Hfp. done.
  - right. rewrite Hlen, Hfp. split; [|done]. intros x Hx. apply Hall. in_list.
Qed.
End malloc.

(** ** malloc *)

(** The contract of sbrk: it fails and changes nothing, or the program's
    memory, which ends at [brk], grows by [n] bytes. *)
Class SbrkLaw {E} (K : kernel) (brk : E → Z) : Prop :=
  sbrk_law n e r l e' : 0 <= n → K (U_sbrk n) e r l e' →
    (r = -1 ∧ brk e' = brk e) ∨ (r = brk e ∧ brk e' = brk e + n ∧ brk e' < 2 ^ 31).

Section client.
Context {E : Type} {K : @kernel E} {brk : E → Z} {SL : SbrkLaw K brk} (P : ucall → ust E → Prop).
Hypothesis HP : ∀ n s, P (U_sbrk n) s.
Implicit Types s : ust E.

(** The allocator before its first use, or in good order. *)
Definition heap (base : Z) s (ns : list blk) (al : gmap Z Z) : Prop :=
  (u_freep s = 0 ∧ ns = [(base, 0)] ∧ al = ∅ ∧ 0 < base ∧ base + 8 <= brk (u_env s) < 2 ^ 31)
  ∨ heap_ok base (brk (u_env s)) s ns al.

(** What is left alone when the program's memory grew from [e] to [e']. *)
Definition kept (base : Z) (ns : list blk) (e e' : E) (m m' : mem) : Prop :=
  ∀ a, ¬ hregion base ns a → ¬ (brk e <= a < brk e') → m' a = m a.

Lemma heap_ok_env base hi s s' ns al :
  u_mem s' = u_mem s → u_freep s' = u_freep s → heap_ok base hi s ns al → heap_ok base hi s' ns al.
Proof. intros H1 H2 [????? ?]. split; rewrite ?H1, ?H2; done. Qed.

(** The client may write inside its blocks. *)
Lemma heap_write base s ns al b nu m' :
  heap base s ns al → al !! b = Some nu → (∀ a, ¬ (b + 8 <= a < b + 8 * nu) → m' a = u_mem s a) →
  heap base (s <| u_mem := m' |>) ns al.
Proof.
  intros [(_ & _ & -> & _)|Hh] Hb Hm; [by rewrite lookup_empty in Hb|]. right.
  destruct Hh as [Hn Hr Hfp Hbd Hha Hdj]. pose proof (Hha _ _ Hb) as (Hnu & Hbb & _ & _ & Hpn). split; simpl; try done.
  - eapply hlist_frame; [|done]. intros x a Hx Hax. apply Hm. intros Ha.
    destruct (hnodes_min _ _ x Hn Hx) as [->|Hx1]; [simpl in *; lia|].
    destruct (Hpn x Hx); unfold blk_end in *; simpl in *; lia.
  - intros a n' Ha'. destruct (Hha a n' Ha') as (H1 & H2 & H3 & H4 & H5). split_and!; try done.
    rewrite <- H4. apply load32_frame. intros x Hx. apply Hm.
    destruct (decide (a = b)) as [->|Hne]; [lia|].
    destruct (Hdj _ _ _ _ Ha' Hb Hne); unfold blk_end in *; simpl in *; lia.
Qed.

(** The memory sbrk returns, as an allocated block. *)
Lemma heap_ok_sbrk base s ns al nu e' :
  heap_ok base (brk (u_env s)) s ns al → 1 <= nu → brk e' = brk (u_env s) + 8 * nu → brk e' < 2 ^ 31 →
  let b := brk (u_env s) in
  heap_ok base (brk e') (U (store32 (u_mem s) (b + 4) nu) (u_freep s) b [] e') ns (<[b := nu]> al)
  ∧ al !! b = None.
Proof.
  intros [Hn Hr Hfp (Hb0 & Hbh & Hhi & Hend) Hal Hdj] Hnu He He' b.
  assert (Hfresh : ∀ a n, al !! a = Some n → a + 8 * n <= b) by (intros a n Ha; apply Hal in Ha; lia).
  assert (Hnd : ∀ x, x ∈ ns → x.1 + 8 <= b).
  { intros x Hx. pose proof (Hend x Hx). unfold blk_end in *. destruct (hnodes_min _ _ x Hn Hx) as [->|?]; simpl in *; lia. }
  split.
  - split; simpl; try done.
    + eapply hlist_frame; [|done]. intros x a Hx Ha. pose proof (Hnd x Hx). apply store32_frame. lia.
    + split_and!; try lia. intros x Hx. pose proof (Hend x Hx). lia.
    + intros a n Ha. apply lookup_insert_Some in Ha as [[<- <-]|[Hne Ha]].
      * split_and!; try lia.
        -- rewrite load32_store32. apply u32_small. lia.
        -- intros x Hx. right. by apply Hend.
      * destruct (Hal a n Ha) as (H1 & H2 & H3 & H4 & H5). split_and!; try done; try lia.
        rewrite load32_store32_ne by lia. done.
    + intros a n c k. rewrite !lookup_insert_Some. intros [[<- <-]|[Ha1 Ha]] [[<- <-]|[Hb1 Hb]] Hab; try done.
      * right. by apply (Hfresh c k).
      * left. by apply (Hfresh a n).
      * by apply Hdj.
  - destruct (al !! b) as [n|] eqn:Ha; [|done]. apply Hal in Ha. lia.
Qed.

(** The kernel has refused an sbrk. *)
Definition refused : Prop := ∃ n e l e', K (U_sbrk n) e (-1) l e'.

Lemma morecore_uwp base k s ns al nu :
  heap_ok base (brk (u_env s)) s ns al → 1 <= nu <= 2 ^ 28 - 1 → (length ns < k)%nat →
  uwp K P (morecore nu k s) (λ r s',
    (r = 0 ∧ refused ∧ u_mem s' = u_mem s ∧ u_freep s' = u_freep s ∧ brk (u_env s') = brk (u_env s))
    ∨ ∃ ns', r = u_freep s' ∧ r ≠ 0 ∧ heap_ok base (brk (u_env s')) s' ns' al
      ∧ brk (u_env s) <= brk (u_env s')
      ∧ (∀ a, covers ns' a ↔ covers ns a ∨ brk (u_env s) <= a < brk (u_env s'))
      ∧ kept base ns (u_env s) (u_env s') (u_mem s) (u_mem s')
      ∧ (length ns' <= S (length ns))%nat ∧ ∃ x, x ∈ ns' ∧ nu <= x.2).
Proof.
  intros Hh Hnu Hk. unfold morecore. cbv zeta. set (nu' := if nu <? 4096 then 4096 else nu).
  assert (Hnu' : nu <= nu' ∧ 1 <= nu' < 2 ^ 28).
  { unfold nu'. destruct (Z.ltb_spec nu 4096); lia. }
  assert (Hsz : s32 (nu' *u sizeof_Header) = 8 * nu').
  { unfold sizeof_Header. rewrite u32_small, s32_small by lia. lia. }
  rewrite Hsz. pose proof (hp_bound _ _ _ _ _ Hh) as (Hb0 & Hbh & Hhi & _).
  apply uwp_bind, uwp_sys; [apply HP|]. intros r l e' _ Hr.
  destruct (sbrk_law (8 * nu') _ _ _ _ ltac:(lia) Hr) as [[-> He]|(-> & He & He')].
  { rewrite (proj2 (Z.eqb_eq _ _)) by done. left. split_and!; try done. by eexists _, _, _, _. }
  set (b := brk (u_env s)) in *. rewrite (u32_small b) by lia.
  rewrite (proj2 (Z.eqb_neq _ _)) by lia.
  destruct (heap_ok_sbrk base s ns al nu' e' Hh) as [Hh1 Hfr]; [lia|done|done|]. fold b in Hh1, Hfr.
  set (s1 := U (store32 (u_mem s) (b + 4) nu') (u_freep s) b l e').
  assert (Hh1' : heap_ok base (brk e') s1 ns (<[b := nu']> al)) by (eapply heap_ok_env; [..|exact Hh1]; done).
  destruct (free_done base (brk e') k s1 ns _ b nu' Hh1') as (m' & fp' & ns' & Hrun & Hh2 & Hcov & Hf & Hlen & x & Hx & Hxn);
    [apply lookup_insert_eq | done |].
  eapply uwp_bind_done; [done|]. eapply uwp_bind_done.
  { unfold hdr_add, sizeof_Header. rewrite u32_small by lia. exact Hrun. }
  right. exists ns'. rewrite delete_insert_id in Hh2 by done. cbn [u_env u_freep u_mem set_field set_u_freep set_u_mem] in *.
  assert (Hfp : fp' ≠ 0).
  { pose proof (hp_freep _ _ _ _ _ Hh2) as Hfp. simpl in Hfp. apply list_elem_of_fmap in Hfp as (z & -> & Hz).
    destruct (hnodes_min _ _ z (hp_nodes _ _ _ _ _ Hh2) Hz) as [->|?]; simpl; lia. }
  split_and!; try done.
  - simpl. lia.
  - intros a. rewrite Hcov. simpl. by rewrite He.
  - intros a Ha1 Ha2. rewrite Hf; [|done|simpl in Ha2; lia]. simpl. apply store32_frame. simpl in Ha2. lia.
  - exists x. split; [done|lia].
Qed.

(** What malloc returns: a block of [nu] units out of the free ones, or 0. *)
Definition malloc_post (base nu : Z) s ns al (r : Z) s' : Prop :=
  (r = 0 ∧ refused ∧ heap base s' ns al ∧ brk (u_env s') = brk (u_env s)
     ∧ kept base ns (u_env s) (u_env s') (u_mem s) (u_mem s'))
  ∨ ∃ b ns', r = b + 8 ∧ heap_ok base (brk (u_env s')) s' ns' (<[b := nu]> al) ∧ al !! b = None
      ∧ brk (u_env s) <= brk (u_env s')
      ∧ (∀ a, covers ns' a ∨ b <= a < b + 8 * nu ↔ covers ns a ∨ brk (u_env s) <= a < brk (u_env s'))
      ∧ kept base ns (u_env s) (u_env s') (u_mem s) (u_mem s')
      ∧ (length ns' <= S (length ns))%nat.

Lemma malloc_take_post base k s ns al nu k1 p x k2 :
  heap_ok base (brk (u_env s)) s ns al → ns = k1 ++ p :: x :: k2 → 1 <= nu <= x.2 →
  ∃ b m' fp' ns', malloc_take nu p.1 x.1 k s = Done (b + 8) (s <| u_mem := m' |> <| u_freep := fp' |>)
    ∧ heap_ok base (brk (u_env s)) (s <| u_mem := m' |> <| u_freep := fp' |>) ns' (<[b := nu]> al) ∧ al !! b = None
    ∧ (∀ a, covers ns a ↔ covers ns' a ∨ b <= a < b + 8 * nu)
    ∧ (∀ a, ¬ hregion base ns a → m' a = u_mem s a) ∧ (length ns' <= length ns)%nat.
Proof.
  intros Hh Hns Hnu. destruct (malloc_take_done _ _ k s ns al k1 p x k2 nu Hh Hns Hnu) as (m' & fp' & b & ns' & H).
  by exists b, m', fp', ns'.
Qed.

Lemma malloc_loop_uwp base k fuel s ns al nu :
  heap_ok base (brk (u_env s)) s ns al → 1 <= nu <= 2 ^ 28 - 1 → (length ns < k)%nat → (S (length ns) <= fuel)%nat →
  uwp K P (malloc_loop (length ns + fuel) nu (u_freep s) (load32 (u_mem s) (u_freep s)) k s) (malloc_post base nu s ns al).
Proof.
  intros Hh Hnu Hk Hf.
  destruct (malloc_search _ _ _ _ _ fuel nu k Hh ltac:(lia)) as [(k1 & p & x & k2 & Hns & Hx & ->)|[_ ->]].
  - destruct (malloc_take_post base k s ns al nu k1 p x k2 Hh Hns) as (b & m' & fp' & ns' & -> & H1 & H2 & H3 & H4 & H5); [lia|].
    right. exists b, ns'. split_and!; try done; simpl.
    + intros a. rewrite H3. intuition lia.
    + intros a Ha _. by apply H4.
    + lia.
  - unfold next_round. apply uwp_bind. eapply uwp_mono; [|by apply (morecore_uwp base k s ns al nu)].
    intros r s1 [(-> & Href & Hm & Hfp & Hb)|(ns1 & -> & Hne & Hh1 & Hb & Hcov & Hkept & Hlen & x & Hx & Hxn)].
    { left. split_and!; [done|done| |done|intros a _ _; by rewrite Hm]. right. rewrite Hb. by eapply heap_ok_env. }
    rewrite (proj2 (Z.eqb_neq _ _) Hne). eapply uwp_bind_done; [done|].
    destruct (malloc_search _ _ _ _ _ (fuel - length ns1) nu k Hh1 ltac:(lia)) as [(k1 & p & z & k2 & Hns & Hz & Heq)|[Hall _]];
      [|specialize (Hall x Hx); lia].
    replace (length ns1 + (fuel - length ns1))%nat with fuel in Heq by lia. rewrite Heq.
    destruct (malloc_take_post base k s1 ns1 al nu k1 p z k2 Hh1 Hns) as (b & m' & fp' & ns' & -> & H1 & H2 & H3 & H4 & H5); [lia|].
    right. exists b, ns'. split_and!; try done; simpl.
    + intros a. rewrite <- H3. apply Hcov.
    + intros a Ha Ha2. rewrite H4; [by apply Hkept|]. intros [?|Hc%Hcov]; [apply Ha; by left|].
      destruct Hc as [Hc|?]; [apply Ha; by right|done].
    + lia.
Qed.

Lemma heap_init base s : 0 < base → base + 8 <= brk (u_env s) < 2 ^ 31 →
  let s1 := s <| u_freep := base |> <| u_mem := store32 (store32 (u_mem s) base base) (base + 4) 0 |> in
  heap_ok base (brk (u_env s)) s1 [(base, 0)] ∅.
Proof.
  intros Hb He s1. split; simpl.
  - split; [repeat constructor|done|]. intros x ->%list_elem_of_singleton. by left.
  - unfold ring. simpl. split_and!; [| |done].
    + rewrite load32_store32_ne, load32_store32 by lia. apply u32_small. lia.
    + by rewrite load32_store32.
  - apply list_elem_of_here.
  - split_and!; try lia. intros x ->%list_elem_of_singleton. unfold blk_end. simpl. lia.
  - intros a n. by rewrite lookup_empty.
  - intros a n b k'. by rewrite lookup_empty.
Qed.

Definition nunits (nbytes : Z) : Z := (nbytes + 7) / 8 + 1.
Lemma malloc_uwp base k s ns al nbytes :
  heap base s ns al → 0 <= nbytes <= 2 ^ 31 - 32 → (2 * length ns + 1 <= k)%nat →
  uwp K P (malloc base nbytes k s) (malloc_post base (nunits nbytes) s ns al).
Proof.
  intros Hh Hnb Hk. unfold malloc. cbv zeta.
  assert (Hnu : 1 <= nunits nbytes <= 2 ^ 28 - 1) by (unfold nunits; Z.div_mod_to_equations; lia).
  assert ((nbytes +u sizeof_Header -u 1) / sizeof_Header +u 1 = nunits nbytes) as ->.
  { unfold sizeof_Header, nunits in *. rewrite (u32_small (nbytes + 8)), (u32_small (nbytes + 8 - 1)) by lia.
    replace (nbytes + 8 - 1) with (nbytes + 7) by lia. apply u32_small. lia. }
  assert (Hl : (1 <= length ns)%nat).
  { destruct Hh as [(_ & -> & _)|Hh]; [done|]. pose proof (hp_freep _ _ _ _ _ Hh) as Hfp.
    destruct ns; [by apply elem_of_nil in Hfp|simpl; lia]. }
  eapply uwp_bind_done; [done|]. destruct Hh as [(Hfp & -> & -> & Hb & He)|Hh].
  - rewrite Hfp. simpl Z.eqb. pose proof (heap_init base s Hb He) as H1.
    set (s1 := s <| u_freep := base |> <| u_mem := _ |>) in H1.
    eapply uwp_bind_done; [done|]. eapply uwp_bind_done; [done|]. eapply uwp_bind_done; [done|].
    unfold with_fuel. replace k with (1 + (k - 1))%nat at 1 by lia.
    eapply uwp_mono; [|apply (malloc_loop_uwp base k (k - 1) s1 _ _ _ H1); simpl in *; lia].
    assert (Hkept : ∀ a, ¬ hregion base [(base, 0)] a → store32 (store32 (u_mem s) base base) (base + 4) 0 a = u_mem s a).
    { intros a Ha. rewrite !store32_frame; [done| |]; intros ?; apply Ha; left; lia. }
    intros r s' [(-> & H1' & H2 & H3 & H4)|(b & ns' & -> & H2 & H3 & H4 & H5 & H6 & H7)].
    + left. split_and!; try done. intros a Ha Ha2. rewrite H4 by done. by apply Hkept.
    + right. exists b, ns'. split_and!; try done. intros a Ha Ha2. rewrite H6 by done. by apply Hkept.
  - rewrite (proj2 (Z.eqb_neq _ _)).
    2: { pose proof (hp_freep _ _ _ _ _ Hh) as Hfp. apply list_elem_of_fmap in Hfp as (z & -> & Hz).
         pose proof (hp_bound _ _ _ _ _ Hh) as (? & _).
         destruct (hnodes_min _ _ z (hp_nodes _ _ _ _ _ Hh) Hz) as [->|?]; simpl; lia. }
    eapply uwp_bind_done; [done|]. eapply uwp_bind_done; [done|]. eapply uwp_bind_done; [done|].
    unfold with_fuel. replace k with (length ns + (k - length ns))%nat at 1 by lia.
    apply malloc_loop_uwp; [done|done|lia|lia].
Qed.
End client.
