(* ===== verification/UmallocSpec.v ===== *)
(** * UmallocSpec: what a client of malloc and free can rely on

    Whatever a program does within its rights with the blocks it gets (no use
    of a block after free or outside its size), each block behaves as an array
    of its own; and what malloc does with a request so large that its
    arithmetic wraps around. *)

From S2P Require Import Prelude Memory User Umalloc UmallocFacts.

(** The i-th successful malloc, whatever its address, is the client's block [i]. *)
Inductive hop : Type :=
| HMalloc (n : Z)
| HFree (i : nat)
| HPut (i : nat) (off v : Z)
| HGet (i : nat) (off : Z).

(** The client: it keeps the pointers, and gives up when malloc returns 0.
    The result is what it read, and whether it came to the end. *)
Fixpoint run_hops {E} (base : Z) (ρ : list Z) (os : list hop) : UM E (list Z * bool) :=
  match os with
  | [] => mret ([], true)
  | HMalloc n :: os' => p ← malloc base n; if p =? 0 then mret ([], false) else run_hops base (ρ ++ [p]) os'
  | HFree i :: os' => free (ρ !!! i) ;; run_hops base ρ os'
  | HPut i off v :: os' => st8 (ρ !!! i + off) v ;; run_hops base ρ os'
  | HGet i off :: os' => c ← ld8 (ρ !!! i + off); '(l, ok) ← run_hops base ρ os'; mret (c :: l, ok)
  end.

(** Separate arrays: the size and the cells written so far, [None] after free. *)
Abbreviation arrays := (list (option (Z * gmap Z Z))).
Definition abs_hop (σ : arrays) (o : hop) : option (arrays * list Z) :=
  match o with
  | HMalloc n => if (0 <=? n) && (n <=? 2 ^ 31 - 32) then Some (σ ++ [Some (n, ∅)], []) else None
  | HFree i => match σ !! i with Some (Some _) => Some (<[i := None]> σ, []) | _ => None end
  | HPut i off v =>
    match σ !! i with
    | Some (Some (n, c)) => if (0 <=? off) && (off <? n) then Some (<[i := Some (n, <[off := u8 v]> c)]> σ, []) else None
    | _ => None
    end
  | HGet i off =>
    match σ !! i with
    | Some (Some (n, c)) => match c !! off with Some v => Some (σ, [v]) | None => None end
    | _ => None
    end
  end.
Fixpoint abs_hops (σ : arrays) (os : list hop) : option (arrays * list Z) :=
  match os with
  | [] => Some (σ, [])
  | o :: os' =>
    match abs_hop σ o with
    | Some (σ1, l1) => match abs_hops σ1 os' with Some (σ2, l2) => Some (σ2, l1 ++ l2) | None => None end
    | None => None
    end
  end.

Section spec.
Context {E : Type} {K : @kernel E} {brk : E → Z} {SL : SbrkLaw K brk}.
Implicit Types s : ust E.

Definition only_sbrk (w : ucall) s : Prop := ∃ n, w = U_sbrk n.

(** The client's arrays are in its blocks. *)
Record arrays_ok (ρ : list Z) (σ : arrays) (m : mem) (al : gmap Z Z) : Prop := {
  ao_length : length ρ = length σ;
  ao_block : ∀ i n c, σ !! i = Some (Some (n, c)) →
    ∃ p, ρ !! i = Some p ∧ al !! (p - 8) = Some (nunits n)
      ∧ ∀ off v, c !! off = Some v → 0 <= off < n ∧ m (p + off) = v;
  ao_distinct : ∀ i j n c n' c', σ !! i = Some (Some (n, c)) → σ !! j = Some (Some (n', c')) → i ≠ j →
    ρ !!! i ≠ ρ !!! j
}.
(** The rest of the program's memory. *)
Definition rest_kept (base e0 : Z) (m0 m : mem) : Prop := ∀ a, a < e0 → ¬ (base <= a < base + 8) → m a = m0 a.
Definition hclient (base : Z) (k : nat) (e0 : Z) (m0 : mem) (ρ : list Z) (σ : arrays) s : Prop :=
  ∃ ns al, heap (brk := brk) base s ns al ∧ arrays_ok ρ σ (u_mem s) al ∧ (2 * length ns + 1 <= k)%nat
    ∧ rest_kept base e0 m0 (u_mem s) ∧ e0 <= brk (u_env s) ∧ (∀ a, covers ns a → e0 <= a)
    ∧ (∀ a n, al !! a = Some n → e0 <= a).

Lemma nunits_room n off : 0 <= off < n → off < 8 * nunits n - 8.
Proof. unfold nunits. intros. Z.div_mod_to_equations. lia. Qed.

(** A step that writes nothing in the client's blocks keeps its arrays. *)
Lemma arrays_ok_frame ρ σ m m' al al' :
  arrays_ok ρ σ m al → (∀ a n, al !! a = Some n → al' !! a = Some n) →
  (∀ a n x, al !! a = Some n → a <= x < a + 8 * n → m' x = m x) → arrays_ok ρ σ m' al'.
Proof.
  intros [Hl Hb Hd] Hal Hm. split; [done| |done]. intros i n c Hi.
  destruct (Hb i n c Hi) as (p & Hp & Ha & Hc). exists p. split_and!; [done|by apply Hal|].
  intros off v Hv. destruct (Hc off v Hv) as [Ho <-]. split; [done|].
  apply (Hm _ _ _ Ha). pose proof (nunits_room n off Ho). lia.
Qed.

Lemma heap_ok_heap base s ns al : heap_ok base (brk (u_env s)) s ns al → heap (brk := brk) base s ns al.
Proof. by right. Qed.

(** Allocated blocks lie outside what the allocator writes. *)
Lemma heap_apart base s ns al a n x :
  heap (brk := brk) base s ns al → al !! a = Some n → a <= x < a + 8 * n →
  ¬ hregion base ns x ∧ x < brk (u_env s).
Proof.
  intros [(_ & _ & -> & _)|Hh] Ha Hx; [by rewrite lookup_empty in Ha|].
  destruct (hp_alloc _ _ _ _ _ Hh _ _ Ha) as (H1 & H2 & H3 & _ & H5). split; [|lia].
  intros [?|(z & Hz & ?)]; [lia|]. destruct (H5 z Hz); unfold blk_end in *; simpl in *; lia.
Qed.

Lemma hclient_malloc base k e0 m0 ρ σ s n :
  hclient base (2 + k) e0 m0 ρ σ s → 0 <= n <= 2 ^ 31 - 32 → ∀ k', (2 + k <= k')%nat →
  uwp K only_sbrk (malloc base n k' s) (λ p s', rest_kept base e0 m0 (u_mem s')
    ∧ (p ≠ 0 → hclient base (4 + k) e0 m0 (ρ ++ [p]) (σ ++ [Some (n, ∅)]) s')).
Proof.
  intros (ns & al & Hh & Ha & Hlen & Hrest & He0 & Hlow & Hal) Hn k' Hk'.
  eapply uwp_mono; [|apply (malloc_uwp (SL := SL) only_sbrk (λ n _, ex_intro _ n eq_refl) base k' s ns al n Hh Hn); lia].
  intros p s' [(-> & _ & _ & He & Hkept)|(b & ns' & -> & Hh' & Hfr & Hb & Hcov & Hkept & Hlen')].
  { split; [|done]. intros a Ha1 Ha2. rewrite Hkept; [by apply Hrest| |lia].
    intros [?|Hc]; [done|]. specialize (Hlow a Hc). lia. }
  assert (Hrest' : rest_kept base e0 m0 (u_mem s')).
  { intros a Ha1 Ha2. rewrite Hkept; [by apply Hrest| |lia]. intros [?|Hc]; [done|]. specialize (Hlow a Hc). lia. }
  split; [done|]. intros Hp.
  destruct Ha as [Hl Hbk Hd]. exists ns', (<[b := nunits n]> al). split_and!.
  - by right.
  - assert (Ha : arrays_ok ρ σ (u_mem s') (<[b := nunits n]> al)).
    { eapply arrays_ok_frame; [by split|..].
      - intros a n' Ha. rewrite lookup_insert_ne; [done|congruence].
      - intros a n' x Ha Hx. destruct (heap_apart _ _ _ _ _ _ _ Hh Ha Hx). apply Hkept; [done|lia]. }
    destruct Ha as [_ Hbk' _]. split; [rewrite !length_app; simpl; lia| |].
    + intros i n' c Hi. apply lookup_snoc_Some in Hi as [[Hi1 Hi]|[-> [= <- <-]]].
      * destruct (Hbk' i n' c Hi) as (p & Hp' & ?). exists p. split; [|done]. by apply lookup_app_l_Some.
      * exists (b + 8). rewrite <- Hl, list_lookup_middle by done. split; [done|].
        replace (b + 8 - 8) with b by lia. rewrite lookup_insert_eq. split; [done|]. intros off v. by rewrite lookup_empty.
    + assert (Hnew : ∀ i n' c, σ !! i = Some (Some (n', c)) → (ρ ++ [b + 8]) !!! i = ρ !!! i ∧ ρ !!! i ≠ b + 8).
      { intros i n' c Hi. destruct (Hbk i n' c Hi) as (p & Hp' & Hal' & _).
        rewrite (lookup_total_app_l ρ) by (by eapply lookup_lt_Some). split; [done|].
        rewrite (lookup_total_Some _ _ _ Hp'). intros ->. replace (b + 8 - 8) with b in Hal' by lia. congruence. }
      assert (Hlast : (ρ ++ [b + 8]) !!! length σ = b + 8) by (by rewrite <- Hl, list_lookup_total_middle).
      intros i j n1 c1 n2 c2 Hi Hj Hij.
      apply lookup_snoc_Some in Hi as [[Hi1 Hi]|[-> [= <- <-]]], Hj as [[Hj1 Hj]|[-> [= <- <-]]].
      * destruct (Hnew _ _ _ Hi) as [-> _], (Hnew _ _ _ Hj) as [-> _]. by eapply Hd.
      * destruct (Hnew _ _ _ Hi) as [-> ?]. by rewrite Hlast.
      * destruct (Hnew _ _ _ Hj) as [-> ?]. rewrite Hlast. congruence.
      * done.
  - lia.
  - done.
  - lia.
  - intros a Hc. destruct (proj1 (Hcov a) (or_introl Hc)) as [?%Hlow|?]; lia.
  - intros a n'. rewrite lookup_insert_Some. intros [[<- <-]|[_ H]]; [|by eapply Hal].
    assert (1 <= nunits n) by (unfold nunits; Z.div_mod_to_equations; lia).
    destruct (proj1 (Hcov b)) as [?%Hlow|?]; [right; lia|lia|lia].
Qed.

Lemma hclient_free base k e0 m0 ρ σ s i x :
  hclient base (2 + k) e0 m0 ρ σ s → σ !! i = Some (Some x) → ∀ k', (2 + k <= k')%nat →
  ∃ s', free (ρ !!! i) k' s = Done tt s' ∧ hclient base (4 + k) e0 m0 ρ (<[i := None]> σ) s'.
Proof.
  destruct x as [n c]. intros (ns & al & Hh & Ha & Hlen & Hrest & He0 & Hlow & Hal) Hi k' Hk'.
  destruct (ao_block _ _ _ _ Ha _ _ _ Hi) as (p & Hp & Hb & _). rewrite (lookup_total_Some _ _ _ Hp).
  destruct Hh as [(_ & _ & -> & _)|Hh]; [by rewrite lookup_empty in Hb|].
  destruct (free_done _ _ k' s ns al (p - 8) _ Hh Hb) as (m' & fp' & ns' & Hrun & Hh' & Hcov & Hf & Hlen' & _); [lia|].
  replace (p - 8 + 8) with p in Hrun by lia. eexists. split; [exact Hrun|].
  destruct Ha as [Hl Hbk Hd]. exists ns', (delete (p - 8) al). split_and!.
  - by right.
  - split; [by rewrite length_insert| |].
    + intros j n' c' [[-> [? _]]|[Hij Hj]]%list_lookup_insert_Some; [done|].
      destruct (Hbk j n' c' Hj) as (q & Hq & Hqb & Hqc). exists q. split; [done|].
      assert (q ≠ p).
      { intros ->. apply (Hd i j n c n' c' Hi Hj Hij). by rewrite (lookup_total_Some _ _ _ Hp), (lookup_total_Some _ _ _ Hq). }
      rewrite lookup_delete_ne by lia. split; [done|]. intros off v Hv. destruct (Hqc off v Hv) as [Ho <-].
      split; [done|]. pose proof (nunits_room n' off Ho). simpl.
      destruct (heap_apart base s ns al (q - 8) (nunits n') (q + off) ltac:(by right) Hqb) as [Hnr _]; [lia|].
      apply Hf; [done|]. destruct (hp_disj _ _ _ _ _ Hh _ _ _ _ Hqb Hb ltac:(lia)); unfold blk_end in *; simpl in *; lia.
    + intros j j' n1 c1 n2 c2 [[-> [? _]]|[_ Hj]]%list_lookup_insert_Some; [done|].
      intros [[-> [? _]]|[_ Hj']]%list_lookup_insert_Some; [done|]. by eapply Hd.
  - simpl. lia.
  - intros a Ha1 Ha2. simpl. rewrite Hf; [by apply Hrest| |specialize (Hal _ _ Hb); lia].
    intros [?|Hc]; [done|]. specialize (Hlow a Hc). lia.
  - done.
  - intros a [?%Hlow|?]%Hcov; [done|]. specialize (Hal _ _ Hb). lia.
  - intros a n' [_ H]%lookup_delete_Some. by eapply Hal.
Qed.

Lemma hclient_put base k e0 m0 ρ σ s i n c off v :
  hclient base k e0 m0 ρ σ s → σ !! i = Some (Some (n, c)) → 0 <= off < n →
  hclient base k e0 m0 ρ (<[i := Some (n, <[off := u8 v]> c)]> σ)
    (s <| u_mem := store8 (u_mem s) (ρ !!! i + off) v |>).
Proof.
  intros (ns & al & Hh & Ha & Hlen & Hrest & He0 & Hlow & Hal) Hi Ho.
  destruct (ao_block _ _ _ _ Ha _ _ _ Hi) as (p & Hp & Hb & Hpc). rewrite (lookup_total_Some _ _ _ Hp).
  pose proof (nunits_room n off Ho) as Hroom.
  destruct Hh as [(_ & _ & -> & _)|Hh]; [by rewrite lookup_empty in Hb|].
  exists ns, al. destruct Ha as [Hl Hbk Hd]. split_and!; try done.
  - apply (heap_write _ _ _ _ (p - 8) (nunits n)); [by right|done|]. intros a Ha. apply store8_ne. lia.
  - split; [by rewrite length_insert| |].
    + intros j n' c' [[-> [[= <- <-] _]]|[Hij Hj]]%list_lookup_insert_Some; simpl.
      * exists p. split_and!; [done|done|]. intros o w [[<- <-]|[Hne Hw]]%lookup_insert_Some.
        -- split; [done|]. apply store8_eq.
        -- rewrite store8_ne by lia. by apply Hpc.
      * destruct (Hbk j n' c' Hj) as (q & Hq & Hqb & Hqc). exists q. split_and!; [done|done|].
        intros o w Hw. destruct (Hqc o w Hw) as [How <-]. split; [done|]. apply store8_ne. intros Heq.
        pose proof (nunits_room n' o How). assert (q ≠ p).
        { intros ->. apply (Hd i j n c n' c' Hi Hj Hij). by rewrite (lookup_total_Some _ _ _ Hp), (lookup_total_Some _ _ _ Hq). }
        destruct (hp_disj _ _ _ _ _ Hh _ _ _ _ Hqb Hb ltac:(lia)); unfold blk_end in *; simpl in *; lia.
    + intros j j' n1 c1 n2 c2 Hj Hj' Hne.
      assert (Hback : ∀ j n' c', <[i:=Some (n, <[off:=u8 v]> c)]> σ !! j = Some (Some (n', c')) →
                ∃ n'' c'', σ !! j = Some (Some (n'', c''))).
      { intros a n' c' [[-> [_ _]]|[_ H]]%list_lookup_insert_Some; eauto. }
      destruct (Hback _ _ _ Hj) as (? & ? & ?), (Hback _ _ _ Hj') as (? & ? & ?). by eapply Hd.
  - intros a Ha1 Ha2. simpl. rewrite store8_ne; [by apply Hrest|]. specialize (Hal _ _ Hb). lia.
Qed.

Lemma hclient_get base k e0 m0 ρ σ s i n c off v :
  hclient base k e0 m0 ρ σ s → σ !! i = Some (Some (n, c)) → c !! off = Some v → u_mem s (ρ !!! i + off) = v.
Proof.
  intros (ns & al & _ & Ha & _) Hi Hv. destruct (ao_block _ _ _ _ Ha _ _ _ Hi) as (p & Hp & _ & Hc).
  rewrite (lookup_total_Some _ _ _ Hp). by apply Hc.
Qed.
Lemma hclient_mono base k k' e0 m0 ρ σ s : (k <= k')%nat → hclient base k e0 m0 ρ σ s → hclient base k' e0 m0 ρ σ s.
Proof. intros ? (ns & al & ? & ? & ? & ?). exists ns, al. split_and!; try done; [lia|tauto..]. Qed.

Lemma run_hops_uwp base e0 m0 n os : ∀ k ρ σ s σ' l,
  hclient base (2 + k) e0 m0 ρ σ s → abs_hops σ os = Some (σ', l) → (2 + k + 2 * length os <= n)%nat →
  uwp K only_sbrk (run_hops base ρ os n s) (λ r s',
    (if r.2 then r.1 = l else r.1 `prefix_of` l) ∧ rest_kept base e0 m0 (u_mem s')).
Proof.
  induction os as [|o os IH]; intros k ρ σ s σ' l Hc Ho Hn.
  { injection Ho as <- <-. split; [done|]. by destruct Hc as (ns & al & _ & _ & _ & ? & _). }
  simpl in Ho, Hn. destruct (abs_hop σ o) as [[σ1 l1]|] eqn:E1; [|done].
  destruct (abs_hops σ1 os) as [[σ2 l2]|] eqn:E2; [|done]. injection Ho as <- <-.
  destruct o as [sz|i|i off v|i off]; simpl in E1 |- *.
  - destruct ((0 <=? sz) && (sz <=? 2 ^ 31 - 32)) eqn:Hsz; [|done]. injection E1 as <- <-.
    apply andb_true_iff in Hsz as [?%Z.leb_le ?%Z.leb_le].
    apply uwp_bind. eapply uwp_mono; [|apply (hclient_malloc base k e0 m0 ρ σ s sz Hc); [done|lia]].
    intros p s1 [Hk Hp]. simpl. destruct (Z.eqb_spec p 0) as [->|Hne]; [split; [apply prefix_nil|done]|].
    apply (IH (2 + k)%nat _ (σ ++ [Some (sz, ∅)]) s1 σ2); [by apply Hp|done|lia].
  - destruct (σ !! i) as [[x|]|] eqn:Hi; [|done..]. injection E1 as <- <-.
    destruct (hclient_free base k e0 m0 ρ σ s i x Hc Hi n) as (s1 & Hrun & Hc1); [lia|].
    eapply uwp_bind_done; [exact Hrun|]. apply (IH (2 + k)%nat _ (<[i := None]> σ) s1 σ2); [done|done|lia].
  - destruct (σ !! i) as [[[sz c]|]|] eqn:Hi; [|done..].
    destruct ((0 <=? off) && (off <? sz)) eqn:Hoff; [|done]. injection E1 as <- <-.
    apply andb_true_iff in Hoff as [?%Z.leb_le ?%Z.ltb_lt].
    eapply uwp_bind_done; [done|]. apply (IH k _ (<[i := Some (sz, <[off := u8 v]> c)]> σ) _ σ2); [|done|lia].
    by apply hclient_put.
  - destruct (σ !! i) as [[[sz c]|]|] eqn:Hi; [|done..]. destruct (c !! off) as [v|] eqn:Hv; [|done].
    injection E1 as <- <-. eapply uwp_bind_done; [done|]. rewrite (hclient_get _ _ _ _ _ _ _ _ _ _ _ _ Hc Hi Hv).
    apply uwp_bind. eapply uwp_mono; [|apply (IH k ρ σ s σ2 l2 Hc E2); lia].
    intros [r ok] s1 [Hr Hk]. simpl in *. split; [|done]. destruct ok; [by rewrite Hr|by apply prefix_cons].
Qed.
End spec.

(** ** Properties *)

(** C22: malloc and free give a program arrays of its own.  For every sequence
    of malloc, free, and reads and writes inside the blocks that are allocated at the time,
    each call returns (the searches of the ring end), every read returns
    what was last written in that cell of that block, through all other
    allocations and frees, no system call but sbrk is made, and of the memory the program had before, nothing
    but the allocator's static header is written.  If sbrk
    refuses, malloc returns 0, and what was read until then is right. *)
Theorem malloc_refines_arrays {E} {K : @kernel E} {brk : E → Z} {SL : SbrkLaw K brk} base n s os σ l :
  u_freep s = 0 → 0 < base → base + 8 <= brk (u_env s) < 2 ^ 31 →
  abs_hops [] os = Some (σ, l) → (2 * length os + 3 <= n)%nat →
  uwp K only_sbrk (run_hops base [] os n s) (λ r s',
    (if r.2 then r.1 = l else r.1 `prefix_of` l) ∧ rest_kept base (brk (u_env s)) (u_mem s) (u_mem s')).
Proof.
  intros Hfp Hb He Ho Hn. apply (run_hops_uwp base (brk (u_env s)) (u_mem s) n os 1 [] [] s σ l); [|done|lia].
  exists [(base, 0)], ∅. split_and!; try done.
  - by left.
  - intros a (x & ->%list_elem_of_singleton & Ha). unfold blk_end in Ha. simpl in Ha. lia.
Qed.

(** More units than any free block has: malloc asks sbrk for them. *)
Lemma malloc_asks {E} {brk : E → Z} base n (s : ust E) ns al nu nbytes :
  heap (brk := brk) base s ns al → (length ns <= n)%nat → 2 ^ 28 <= nu →
  (nbytes +u sizeof_Header -u 1) / sizeof_Header +u 1 = nu →
  ∃ s' kont, malloc base nbytes n s = Block (U_sbrk (s32 (nu *u sizeof_Header))) s' kont.
Proof.
  intros Hh Hn Hnu Hnb. unfold malloc. cbv zeta. rewrite Hnb.
  assert (Hs : ∀ (s1 : ust E) ns1 al1, heap_ok base (brk (u_env s)) s1 ns1 al1 → (length ns1 <= n)%nat →
    ∃ s' kont, malloc_loop n nu (u_freep s1) (load32 (u_mem s1) (u_freep s1)) n s1
      = Block (U_sbrk (s32 (nu *u sizeof_Header))) s' kont).
  { intros s1 ns1 al1 H1 Hl. pose proof (hp_bound _ _ _ _ _ H1) as (Hb & _ & Hhi & Hx).
    assert (Hf : (length ns1 + (n - length ns1))%nat = n) by lia.
    destruct (malloc_search _ _ _ _ _ (n - length ns1) nu n H1 ltac:(lia)) as [(k1 & p & x & k2 & -> & Hlt & _)|[_ Heq]].
    - assert (Hin : x ∈ k1 ++ p :: x :: k2) by in_list. specialize (Hx x Hin). unfold blk_end in Hx.
      destruct (hnodes_min _ _ x (hp_nodes _ _ _ _ _ H1) Hin) as [->|?]; simpl in *; lia.
    - rewrite Hf in Heq. rewrite Heq. unfold next_round, morecore. cbv zeta. destruct (Z.ltb_spec nu 4096); [lia|].
      exists s1. eexists. reflexivity. }
  rewrite (bind_done _ _ _ _ (u_freep s) s) by done. destruct Hh as [(Hfp & -> & -> & Hb & He)|Hh].
  - rewrite Hfp. simpl Z.eqb. exact (Hs _ _ _ (heap_init base s Hb He) Hn).
  - rewrite (proj2 (Z.eqb_neq _ _)); [exact (Hs _ _ _ Hh Hn)|].
    pose proof (hp_freep _ _ _ _ _ Hh) as Hfp. apply list_elem_of_fmap in Hfp as (z & -> & Hz).
    pose proof (hp_bound _ _ _ _ _ Hh) as (? & _).
    destruct (hnodes_min _ _ z (hp_nodes _ _ _ _ _ Hh) Hz) as [->|?]; simpl; lia.
Qed.

(** C39: malloc's size arithmetic wraps around, before the first use of the
    allocator as in any well-formed state of it.  A request of 2^32 - 7 bytes or more is served as a request of no
    bytes.  One of 2^31 - 15 to 2^32 - 16 bytes asks sbrk, whose argument is
    a signed int, for a negative number of bytes, which shrinks the program's
    memory; and one of 2^32 - 15 to 2^32 - 8 bytes asks it for 0 bytes. *)
Theorem malloc_huge {E} {brk : E → Z} base n (s : ust E) ns al nbytes :
  2 ^ 31 - 15 <= nbytes < 2 ^ 32 →
  (2 ^ 32 - 7 <= nbytes → malloc base nbytes n s = malloc base 0 n s)
  ∧ (nbytes < 2 ^ 32 - 7 → heap (brk := brk) base s ns al → (length ns <= n)%nat →
     ∃ k s' kont, malloc base nbytes n s = Block (U_sbrk k) s' kont ∧ k = 8 * nunits nbytes - 2 ^ 32
       ∧ (nbytes <= 2 ^ 32 - 16 → k < 0) ∧ (2 ^ 32 - 16 < nbytes → k = 0)).
Proof.
  intros Hnb. split.
  - intros Hw. unfold malloc. cbv zeta. unfold sizeof_Header.
    replace ((nbytes +u 8 -u 1) / 8 +u 1) with 1; [done|].
    cint. unfold u32 at 2. replace (nbytes + 8 - 1) with (nbytes - 2 ^ 32 + 7 + 1 * 2 ^ 32) by lia.
    rewrite Z.mod_add, Z.mod_small by lia. rewrite Z.div_small by lia. done.
  - intros Hlt Hh Hn. set (nu := nunits nbytes).
    assert (Hnu : 2 ^ 28 <= nu <= 2 ^ 29 ∧ (nbytes <= 2 ^ 32 - 16 → nu < 2 ^ 29) ∧ (2 ^ 32 - 16 < nbytes → nu = 2 ^ 29))
      by (unfold nu, nunits; Z.div_mod_to_equations; lia).
    destruct (malloc_asks base n s ns al nu nbytes Hh Hn) as (s' & kont & Hm); [lia| |].
    { unfold sizeof_Header. cint. rewrite (u32_small (nbytes + 8 - 1)) by lia. replace (nbytes + 8 - 1) with (nbytes + 7) by lia.
      apply u32_small. fold (nunits nbytes) nu. lia. }
    exists (s32 (nu *u sizeof_Header)), s', kont. split; [exact Hm|].
    assert (s32 (nu *u sizeof_Header) = 8 * nu - 2 ^ 32) as ->; [|lia]. unfold sizeof_Header. cint.
    unfold s32. replace (nu * 8 + 2 ^ 31) with (8 * nu - 2 ^ 31 + 1 * 2 ^ 32) by lia. rewrite Z.mod_add, Z.mod_small by lia. lia.
Qed.

(** *** Witnesses *)

(** A kernel that gives what it has. *)
Definition sbrk_demo : @kernel Z := λ w e r _ e',
  match w with U_sbrk n => 0 <= e ∧ e + n < 2 ^ 31 ∧ r = e ∧ e' = e + n | _ => False end.
Lemma sbrk_demo_law : SbrkLaw sbrk_demo (λ e, e).
Proof. intros n e r l e' _ (_ & H & -> & ->). by right. Qed.
Definition hops_demo : list hop :=
  [HMalloc 10; HMalloc 5000; HPut 0 3 7; HPut 1 4999 8; HFree 0; HMalloc 3; HPut 2 0 9; HGet 1 4999; HGet 2 0].
Definition ust_demo : ust Z := U (λ _, 0) 0 0 [] 0x4000.
Lemma malloc_refines_arrays_witness :
  uwp sbrk_demo only_sbrk (run_hops 0x2000 [] hops_demo 30%nat ust_demo) (λ r _, r.2 = true → r.1 = [8; 9]).
Proof.
  eapply uwp_mono; [|refine (@malloc_refines_arrays _ _ _ sbrk_demo_law 0x2000 30%nat ust_demo hops_demo _ [8; 9] _ _ _ _ _)].
  - intros [r [|]] s' [Hr _] H; [exact Hr | discriminate H].
  - reflexivity.
  - lia.
  - cbv. split; [intros H; discriminate H | reflexivity].
  - vm_compute. reflexivity.
  - cbv. lia.
Defined.
Lemma malloc_huge_witness :
  malloc 0x2000 (2 ^ 32 - 1) 10%nat ust_demo = malloc 0x2000 0 10%nat ust_demo
  ∧ ∃ k s' kont, malloc 0x2000 (2 ^ 31) 10%nat ust_demo = Block (U_sbrk k) s' kont ∧ k < 0.
Proof.
  split.
  - apply (malloc_huge (brk := λ e, e) 0x2000 10%nat ust_demo [] ∅ (2 ^ 32 - 1)); lia.
  - destruct (malloc_huge (brk := λ e, e) 0x2000 10%nat ust_demo [(0x2000, 0)] ∅ (2 ^ 31)) as [_ H]; [lia|].
    destruct H as (k & s' & kont & H & _ & Hk & _); [lia | left; by split_and! | simpl; lia |].
    exists k, s', kont. split; [exact H | apply Hk; lia].
Defined.
