(* ===== verification/Grep.v ===== *)
(** * Grep: grep.c

    The matcher on C strings in memory, the scan of the buffer and main.  The
    address of the static buffer [buf] is the linker's, a parameter. *)

From S2P Require Import Prelude Memory Cprintf User Ulib.

Definition ch_hat : Z := 94.
Definition ch_dollar : Z := 36.
Definition ch_dot : Z := 46.
Definition ch_star : Z := 42.

(** ** The matcher: [None] when the bound on its recursion is used up *)

Fixpoint matchhere (fuel : nat) (m : mem) (re text : Z) : option bool :=
  match fuel with
  | O => None
  | S fuel' =>
    if m re =? 0 then Some true else
    if m (re + 1) =? ch_star then matchstar fuel' m (m re) (re + 2) text else
    if (m re =? ch_dollar) && (m (re + 1) =? 0) then Some (m text =? 0) else
    if negb (m text =? 0) && ((m re =? ch_dot) || (m re =? m text)) then matchhere fuel' m (re + 1) (text + 1) else
    Some false
  end
with matchstar (fuel : nat) (m : mem) (c re text : Z) : option bool :=
  match fuel with
  | O => None
  | S fuel' =>
    match matchhere fuel' m re text with
    | None => None
    | Some true => Some true
    | Some false =>
      if negb (m text =? 0) && ((m text =? c) || (c =? ch_dot)) then matchstar fuel' m c re (text + 1)
      else Some false
    end
  end.

(** [do if(matchhere(re, text)) return 1; while( *text++ != 0);] *)
Fixpoint match_loop (fuel : nat) (m : mem) (re text : Z) : option bool :=
  match fuel with
  | O => None
  | S fuel' =>
    match matchhere fuel m re text with
    | None => None
    | Some true => Some true
    | Some false => if m text =? 0 then Some false else match_loop fuel' m re (text + 1)
    end
  end.
Definition match_ (fuel : nat) (m : mem) (re text : Z) : option bool :=
  if m re =? ch_hat then matchhere fuel m (re + 1) text else match_loop fuel m re text.

Section grep.
Context {E : Type} (buf : Z).

Definition sizeof_buf : Z := 1024.

(** The lines of the buffer from [p] on; the result is where the last,
    incomplete one begins. *)
Fixpoint grep_scan (fuel : nat) (pattern p : Z) : UM E Z :=
  match fuel with
  | O => out_of_fuel
  | S fuel' =>
    q ← bounded (λ f m, strchr f m p ch_nl);
    if q =? 0 then mret p else
    st8 q 0 ;;
    b ← bounded (λ f m, match_ f m pattern p);
    (if b : bool then st8 q ch_nl ;; _ ← write_at 1 p (q + 1 - p); mret tt else mret tt) ;;
    grep_scan fuel' pattern (q + 1)
  end.

Fixpoint grep_loop (fuel : nat) (pattern fd m : Z) : UM E unit :=
  match fuel with
  | O => out_of_fuel
  | S fuel' =>
    n ← read_at fd (buf + m) (sizeof_buf - m - 1);
    if n <=? 0 then mret tt else
    let m := m + n in
    st8 (buf + m) 0 ;;
    p ← with_fuel (λ f, grep_scan f pattern buf);
    let m := if p =? buf then 0 else m in
    if m >? 0 then
      let m := m - (p - buf) in
      modm (λ mm, memmove mm buf p m) ;;
      grep_loop fuel' pattern fd m
    else grep_loop fuel' pattern fd m
  end.
Definition grep (pattern fd : Z) : UM E unit := with_fuel (λ fuel, grep_loop fuel pattern fd 0).

(** [argv[i]] *)
Definition arg (argv i : Z) : UM E Z := ld32m (argv + 4 * i).

Definition grep_main (argc argv : Z) : UM E unit :=
  if argc <=? 1 then printf 2 "usage: grep pattern [file ...]\n" [] ;; exit else
  pattern ← arg argv 1;
  if argc <=? 2 then grep pattern 0 ;; exit else
  forM (seqZ 2 (argc - 2)) (λ i,
    a ← arg argv i;
    fd ← open_at a 0;
    if fd <? 0 then printf 1 "grep: cannot open %s\n" [W a] ;; exit else
    grep pattern fd ;;
    _ ← sys (U_close fd);
    mret tt) ;;
  exit.
End grep.
