(* ===== verification/GrepFacts.v ===== *)
(** * GrepFacts: grep's matcher decides its patterns, and grep prints the lines
    that match

    A pattern is read as a regular expression with anchors; the language it
    denotes is defined on its own, by concatenation of the languages of its
    items, and the matcher is shown to decide membership. *)

From S2P Require Import Prelude Memory Cprintf User Ulib Grep.

(** ** Patterns and what they match *)

Inductive atom : Type :=
| Any
| Lit (c : Z).
Record pattern : Type := Pat { pt_bol : bool; pt_items : list (atom * bool); pt_eol : bool }.

Definition atom_of (c : Z) : atom := if c =? ch_dot then Any else Lit c.
Definition sat (a : atom) (x : Z) : bool := match a with Any => true | Lit c => c =? x end.

Fixpoint parse_items (l : list Z) : list (atom * bool) * bool :=
  match l with
  | [] => ([], false)
  | c :: l1 =>
    match l1 with
    | d :: l2 =>
      if d =? ch_star then let '(its, e) := parse_items l2 in ((atom_of c, true) :: its, e)
      else let '(its, e) := parse_items l1 in ((atom_of c, false) :: its, e)
    | [] => if c =? ch_dollar then ([], true) else ([(atom_of c, false)], false)
    end
  end.
Definition parse (l : list Z) : pattern :=
  match l with
  | c :: l' => if c =? ch_hat then let '(its, e) := parse_items l' in Pat true its e
               else let '(its, e) := parse_items l in Pat false its e
  | [] => Pat false [] false
  end.

(** The strings of an item: one character, or (starred) any number. *)
Definition item_lang (i : atom * bool) (w : list Z) : Prop :=
  if i.2 then Forall (λ x, sat i.1 x = true) w else ∃ x, w = [x] ∧ sat i.1 x = true.
Fixpoint items_lang (its : list (atom * bool)) (w : list Z) : Prop :=
  match its with
  | [] => w = []
  | i :: its' => ∃ w1 w2, w = w1 ++ w2 ∧ item_lang i w1 ∧ items_lang its' w2
  end.
(** A text matches when a part of it is in the language; the anchors fix
    where that part begins and ends. *)
Definition matches (p : pattern) (t : list Z) : Prop :=
  ∃ u w v, t = u ++ w ++ v ∧ items_lang (pt_items p) w ∧ (pt_bol p = true → u = []) ∧ (pt_eol p = true → v = []).

(** ** The matcher on lists *)

Fixpoint starb (a : atom) (k : list Z → bool) (t : list Z) : bool :=
  k t || match t with x :: t' => sat a x && starb a k t' | [] => false end.
Fixpoint hereb (its : list (atom * bool)) (eol : bool) (t : list Z) : bool :=
  match its with
  | [] => if eol then bool_decide (t = []) else true
  | (a, true) :: its' => starb a (hereb its' eol) t
  | (a, false) :: its' => match t with x :: t' => sat a x && hereb its' eol t' | [] => false end
  end.
Fixpoint anyb (k : list Z → bool) (t : list Z) : bool :=
  k t || match t with _ :: t' => anyb k t' | [] => false end.
Definition matchb (p : pattern) (t : list Z) : bool :=
  if pt_bol p then hereb (pt_items p) (pt_eol p) t else anyb (hereb (pt_items p) (pt_eol p)) t.

Lemma starb_spec a k t :
  starb a k t = true ↔ ∃ w v, t = w ++ v ∧ Forall (λ x, sat a x = true) w ∧ k v = true.
Proof.
  induction t as [|x t IH]; simpl.
  - rewrite orb_false_r. split; [intros H; by exists [], []|].
    intros (w & v & Ht & _ & Hk). symmetry in Ht. by apply app_eq_nil in Ht as [-> ->].
  - rewrite orb_true_iff, andb_true_iff, IH. split.
    + intros [H|(Hx & w & v & -> & Hw & Hv)]; [by exists [], (x :: t)|].
      exists (x :: w), v. split_and!; [done|by constructor|done].
    + intros (w & v & Ht & Hw & Hk). destruct w as [|y w]; simpl in Ht; [subst; by left|].
      injection Ht as <- ->. inversion Hw; subst. right. split; [done|]. by exists w, v.
Qed.
Lemma hereb_spec its eol t :
  hereb its eol t = true ↔ ∃ w v, t = w ++ v ∧ items_lang its w ∧ (eol = true → v = []).
Proof.
  revert t. induction its as [|[a [|]] its IH]; intros t; simpl.
  - split.
    + intros H. exists [], t. split_and!; [done|done|]. intros ->. by apply bool_decide_eq_true in H.
    + intros (w & v & -> & -> & He). destruct eol; [|done]. apply bool_decide_eq_true. by rewrite He.
  - rewrite starb_spec. setoid_rewrite IH. split.
    + intros (w & v & -> & Hw & w2 & v2 & -> & H2 & He). exists (w ++ w2), v2.
      split_and!; [by rewrite app_assoc| |done]. by exists w, w2.
    + intros (w & v & -> & (w1 & w2 & -> & H1 & H2) & He). exists w1, (w2 ++ v).
      split_and!; [by rewrite app_assoc|done|]. by exists w2, v.
  - destruct t as [|x t].
    + split; [done|]. intros (w & v & Ht & (w1 & w2 & -> & (x & -> & _) & _) & _). done.
    + rewrite andb_true_iff, IH. split.
      * intros (Hx & w & v & -> & Hw & He). exists (x :: w), v. split_and!; [done| |done].
        exists [x], w. split_and!; [done|by exists x|done].
      * intros (w & v & Ht & (w1 & w2 & -> & (y & -> & Hy) & H2) & He). simpl in *. injection Ht as -> ->.
        split; [done|]. by exists w2, v.
Qed.
Lemma anyb_spec k t : anyb k t = true ↔ ∃ u v, t = u ++ v ∧ k v = true.
Proof.
  induction t as [|x t IH]; simpl.
  - rewrite orb_false_r. split; [intros H; by exists [], []|].
    intros (u & v & Ht & Hk). symmetry in Ht. by apply app_eq_nil in Ht as [-> ->].
  - rewrite orb_true_iff, IH. split.
    + intros [H|(u & v & -> & Hv)]; [by exists [], (x :: t) | by exists (x :: u), v].
    + intros (u & v & Ht & Hk). destruct u as [|y u]; simpl in Ht; [subst; by left|].
      injection Ht as <- ->. right. by exists u, v.
Qed.
Lemma matchb_spec p t : matchb p t = true ↔ matches p t.
Proof.
  unfold matchb, matches. destruct (pt_bol p).
  - rewrite hereb_spec. split.
    + intros (w & v & -> & Hw & He). by exists [], w, v.
    + intros (u & w & v & -> & Hw & Hu & He). rewrite Hu by done. by exists w, v.
  - rewrite anyb_spec. setoid_rewrite hereb_spec. split.
    + intros (u & v & -> & w & v' & -> & Hw & He). by exists u, w, v'.
    + intros (u & w & v & -> & Hw & _ & He). exists u, (w ++ v). split; [done|]. by exists w, v.
Qed.
#[global] Instance matches_dec p t : Decision (matches p t).
Proof. refine (cast_if (decide (matchb p t = true))); by rewrite <- matchb_spec. Defined.

(** ** The C code computes the matcher on lists *)

Lemma sat_atom_of c x : sat (atom_of c) x = (c =? ch_dot) || (c =? x).
Proof. unfold atom_of. destruct (Z.eqb_spec c ch_dot); done. Qed.
Lemma cstr_cons m p c l : cstr m p (c :: l) → m p = c ∧ c ≠ 0 ∧ cstr m (p + 1) l.
Proof. done. Qed.
Lemma cstr_head m p l : cstr m p l → m p = default 0 (head l).
Proof. destruct l as [|c l]; simpl; [done|tauto]. Qed.

Lemma matchhere_done m fuel :
  (∀ re text l t, cstr m re l → cstr m text t → (length l + length t < fuel)%nat →
     matchhere fuel m re text = Some (let '(its, e) := parse_items l in hereb its e t))
  ∧ (∀ c re text l t, cstr m re l → cstr m text t → (length l + length t + 1 < fuel)%nat →
     matchstar fuel m c re text = Some (let '(its, e) := parse_items l in starb (atom_of c) (hereb its e) t)).
Proof.
  induction fuel as [|fuel [IHh IHs]]; [split; intros; lia|]. split.
  - intros re text l t Hl Ht Hf. cbn [matchhere]. destruct l as [|c l]; [by rewrite Hl|].
    destruct Hl as (-> & Hc & Hl). rewrite (proj2 (Z.eqb_neq c 0) Hc). rewrite (cstr_head _ _ _ Hl).
    cbn [length] in Hf. destruct l as [|d l]; cbn [from_option head].
    + rewrite Z.eqb_refl, andb_true_r. cbn [parse_items]. destruct (Z.eqb_spec c ch_dollar).
      * cbn. rewrite (cstr_head _ _ _ Ht). destruct t as [|x t]; [done|]. destruct Ht as (_ & Hx & _). simpl.
        f_equal. by apply Z.eqb_neq.
      * change (0 =? ch_star) with false. cbv iota. cbn [hereb]. destruct t as [|x t]; [by rewrite Ht|].
        destruct Ht as (-> & Hx & Ht). rewrite (proj2 (Z.eqb_neq x 0) Hx), sat_atom_of. cbn [negb andb].
        destruct ((c =? ch_dot) || (c =? x)) eqn:E; [|done]. rewrite (IHh _ _ [] t) by (done || simpl in *; lia). done.
    + destruct Hl as (Hd & Hd0 & Hl). unfold id. destruct (Z.eqb_spec d ch_star) as [->|Hds].
      * cbn [parse_items]. rewrite Z.eqb_refl. replace (re + 2) with (re + 1 + 1) by lia.
        rewrite (IHs c _ _ l t Hl Ht) by (simpl in *; lia). by destruct (parse_items l).
      * rewrite (proj2 (Z.eqb_neq d 0) Hd0), andb_false_r.
        assert (Hp : parse_items (c :: d :: l) = let '(its, e) := parse_items (d :: l) in ((atom_of c, false) :: its, e)).
        { cbn [parse_items]. by rewrite (proj2 (Z.eqb_neq _ _) Hds). }
        rewrite Hp. destruct t as [|x t].
        -- rewrite Ht. cbn. by destruct (match l with [] => _ | _ => _ end).
        -- destruct Ht as (-> & Hx & Ht). rewrite (proj2 (Z.eqb_neq x 0) Hx). cbn [negb andb].
           destruct (parse_items (d :: l)) as [its e] eqn:E. cbn [hereb]. rewrite sat_atom_of.
           destruct ((c =? ch_dot) || (c =? x)); [|done].
           rewrite (IHh _ _ (d :: l) t) by (done || simpl in *; lia). by rewrite E.
  - intros c re text l t Hl Ht Hf. cbn [matchstar]. rewrite (IHh re text l t Hl Ht) by lia.
    destruct (parse_items l) as [its e] eqn:E. destruct t as [|x t]; cbn [starb].
    + rewrite Ht. by destruct (hereb its e []).
    + destruct (hereb its e (x :: t)); [done|]. destruct Ht as (-> & Hx & Ht).
      rewrite (proj2 (Z.eqb_neq x 0) Hx), sat_atom_of. cbn [negb andb orb].
      rewrite (Z.eqb_sym x c), orb_comm. destruct ((c =? ch_dot) || (c =? x)); [|done].
      rewrite (IHs c re _ l t) by (done || simpl in *; lia). by rewrite E.
Qed.

Lemma match_loop_done m fuel re text l t :
  cstr m re l → cstr m text t → (length l + length t < fuel)%nat →
  match_loop fuel m re text = Some (let '(its, e) := parse_items l in anyb (hereb its e) t).
Proof.
  revert text t. induction fuel as [|fuel IH]; intros text t Hl Ht Hf; [lia|]. cbn [match_loop].
  rewrite (proj1 (matchhere_done m (S fuel)) re text l t Hl Ht) by lia.
  destruct (parse_items l) as [its e] eqn:E. destruct t as [|x t]; cbn [anyb].
  - rewrite Ht. by destruct (hereb its e []).
  - destruct (hereb its e (x :: t)); [done|]. destruct Ht as (-> & Hx & Ht). rewrite (proj2 (Z.eqb_neq x 0) Hx).
    rewrite (IH _ t) by (done || simpl in *; lia). done.
Qed.
Lemma match_done m fuel re text l t :
  cstr m re l → cstr m text t → (length l + length t < fuel)%nat →
  match_ fuel m re text = Some (matchb (parse l) t).
Proof.
  intros Hl Ht Hf. unfold match_, matchb. rewrite (cstr_head _ _ _ Hl). destruct l as [|c l].
  - cbn [head from_option]. change (0 =? ch_hat) with false. by rewrite (match_loop_done m fuel re text [] t).
  - cbn [head from_option parse]. unfold id. destruct (Z.eqb_spec c ch_hat).
    + destruct Hl as (_ & _ & Hl). rewrite (proj1 (matchhere_done m fuel) _ _ l t Hl Ht) by (simpl in *; lia).
      by destruct (parse_items l).
    + rewrite (match_loop_done m fuel re text (c :: l) t) by done. by destruct (parse_items (c :: l)).
Qed.

(** ** Lines *)

(** The complete lines of a text, without their newlines, and what is left. *)
Fixpoint split_lines (l : list Z) : list (list Z) * list Z :=
  match l with
  | [] => ([], [])
  | c :: l' =>
    let '(ls, r) := split_lines l' in
    if c =? ch_nl then ([] :: ls, r) else
    match ls with [] => ([], c :: r) | x :: ls' => ((c :: x) :: ls', r) end
  end.
Definition unlines (ls : list (list Z)) : list Z := mjoin ((λ l, l ++ [ch_nl]) <$> ls).

Lemma unlines_app l1 l2 : unlines (l1 ++ l2) = unlines l1 ++ unlines l2.
Proof. unfold unlines. by rewrite fmap_app, join_app. Qed.
Lemma split_lines_line l r ls t : ch_nl ∉ l → split_lines r = (ls, t) → split_lines (l ++ ch_nl :: r) = (l :: ls, t).
Proof.
  intros Hl Hr. induction l as [|c l IH]; simpl; [by rewrite Hr|].
  rewrite IH by set_solver. by rewrite (proj2 (Z.eqb_neq c ch_nl)) by set_solver.
Qed.
Lemma split_lines_tail r : ch_nl ∉ r → split_lines r = ([], r).
Proof.
  induction r as [|c r IH]; intros H; simpl; [done|]. rewrite IH by set_solver.
  by rewrite (proj2 (Z.eqb_neq c ch_nl)) by set_solver.
Qed.
Lemma split_lines_unlines ls r :
  Forall (λ l, ch_nl ∉ l) ls → ch_nl ∉ r → split_lines (unlines ls ++ r) = (ls, r).
Proof.
  intros Hls Hr. induction Hls as [|l ls Hl Hls IH]; [by apply split_lines_tail|].
  unfold unlines. simpl. rewrite <- !app_assoc. simpl. by apply split_lines_line.
Qed.
Lemma split_lines_ok l ls r :
  split_lines l = (ls, r) → l = unlines ls ++ r ∧ Forall (λ l, ch_nl ∉ l) ls ∧ ch_nl ∉ r.
Proof.
  revert ls r. induction l as [|c l IH]; intros ls r; simpl.
  { intros [= <- <-]. split_and!; [done|constructor|set_solver]. }
  destruct (split_lines l) as [ls1 r1]. destruct (IH _ _ eq_refl) as (-> & H1 & H2).
  destruct (Z.eqb_spec c ch_nl) as [->|Hc].
  - intros [= <- <-]. split_and!; [done| |done]. constructor; [set_solver|done].
  - destruct ls1 as [|x ls1]; intros [= <- <-].
    + split_and!; [done|constructor|set_solver].
    + inversion H1; subst. split_and!; [done| |done]. constructor; [set_solver|done].
Qed.
(** Reading on after the incomplete line. *)
Lemma split_lines_app ls part r :
  Forall (λ l, ch_nl ∉ l) ls → split_lines (unlines ls ++ part ++ r) =
    (ls ++ (split_lines (part ++ r)).1, (split_lines (part ++ r)).2).
Proof.
  intros Hls. destruct (split_lines (part ++ r)) as [ls1 r1] eqn:E.
  destruct (split_lines_ok _ _ _ E) as (-> & H1 & H2). rewrite app_assoc, <- unlines_app.
  apply split_lines_unlines; [by apply Forall_app|done].
Qed.

(** ** Strings in the buffer *)

Lemma strchr_found fuel m p x y :
  cstr m p (x ++ ch_nl :: y) → ch_nl ∉ x → (length x < fuel)%nat → strchr fuel m p ch_nl = Some (p + Z.of_nat (length x)).
Proof.
  revert p x. induction fuel as [|fuel IH]; intros p x Hc Hx Hf; [lia|]. destruct x as [|c x]; simpl in *.
  - destruct Hc as (-> & _). simpl. f_equal. lia.
  - destruct Hc as (-> & Hc & H). rewrite (proj2 (Z.eqb_neq c 0) Hc), (proj2 (Z.eqb_neq c ch_nl)) by set_solver.
    rewrite (IH _ x) by (done || lia || set_solver). f_equal. lia.
Qed.
Lemma strchr_none fuel m p x :
  cstr m p x → ch_nl ∉ x → (length x < fuel)%nat → strchr fuel m p ch_nl = Some 0.
Proof.
  revert p x. induction fuel as [|fuel IH]; intros p x Hc Hx Hf; [lia|]. destruct x as [|c x]; simpl in *.
  - by rewrite Hc.
  - destruct Hc as (-> & Hc & H). rewrite (proj2 (Z.eqb_neq c 0) Hc), (proj2 (Z.eqb_neq c ch_nl)) by set_solver.
    apply (IH _ x); [done|set_solver|lia].
Qed.
Lemma cstr_app m p x y : cstr m p (x ++ y) → cstr m (p + Z.of_nat (length x)) y.
Proof.
  revert p. induction x as [|c x IH]; intros p; simpl; [by rewrite Z.add_0_r|].
  intros (_ & _ & H%IH). by replace (p + Z.of_nat (S (length x))) with (p + 1 + Z.of_nat (length x)) by lia.
Qed.
(** Cut at a position: the string before it. *)
Lemma cstr_cut m m' p x y :
  cstr m p (x ++ y) → (∀ a, p <= a < p + Z.of_nat (length x) → m' a = m a) → m' (p + Z.of_nat (length x)) = 0 →
  cstr m' p x.
Proof.
  revert p. induction x as [|c x IH]; intros p; simpl; [by rewrite Z.add_0_r|].
  intros (H1 & H2 & H3) Hf H0. split_and!; [rewrite Hf by lia; done|done|]. apply IH; [done| |].
  - intros. apply Hf. lia.
  - by replace (p + 1 + Z.of_nat (length x)) with (p + Z.of_nat (S (length x))) by lia.
Qed.
Lemma load_bytes_cstr m p x y : cstr m p (x ++ y) → load_bytes m p (length x) = x.
Proof.
  revert p. induction x as [|c x IH]; intros p; simpl; [done|]. intros (-> & _ & H). f_equal. by apply IH.
Qed.

(** ** The scan of the buffer *)

(** What grep needs of the kernel: a read returns as much of the file as is
    asked for and there is ([rest]), and what is written appears in [out]. *)
Class GrepLaw {E} (K : @kernel E) (fd : Z) (rest out : E → list Z) : Prop := {
  read_full n e r l e' : 0 <= n → K (U_read fd n) e r l e' →
    l = take (Z.to_nat n) (rest e) ∧ r = Z.of_nat (length l) ∧ rest e' = drop (Z.to_nat n) (rest e) ∧ out e' = out e;
  write_all l e r l' e' : K (U_write 1 l) e r l' e' → rest e' = rest e ∧ out e' = out e ++ l
}.
Definition grep_calls {E} (fd : Z) (w : ucall) (s : ust E) : Prop :=
  (∃ n, w = U_read fd n) ∨ ∃ l, w = U_write 1 l.
Definition selected (pat : list Z) (ls : list (list Z)) : list Z := unlines (filter (matches (parse pat)) ls).

Section scan.
Context {E : Type} {K : @kernel E} {fd : Z} {rest out : E → list Z} {GL : GrepLaw K fd rest out}.
Implicit Types s : ust E.

Lemma selected_cons pat l ls :
  selected pat (l :: ls) = (if matchb (parse pat) l then l ++ [ch_nl] else []) ++ selected pat ls.
Proof.
  unfold selected. rewrite filter_cons. destruct (matchb (parse pat) l) eqn:Hm.
  - rewrite decide_True by (by apply matchb_spec). done.
  - rewrite decide_False; [done|]. intros H%matchb_spec. congruence.
Qed.

Lemma grep_scan_uwp pat re n ls : ∀ fuel p part s,
  0 < p → cstr (u_mem s) p (unlines ls ++ part) → Forall (λ l, ch_nl ∉ l) ls → ch_nl ∉ part →
  cstr (u_mem s) pat re →
  pat + Z.of_nat (length re) < p ∨ p + Z.of_nat (length (unlines ls ++ part)) < pat →
  (length ls < fuel)%nat → (length re + length (unlines ls ++ part) < n)%nat →
  uwp K (grep_calls fd) (grep_scan fuel pat p n s) (λ p' s',
    p' = p + Z.of_nat (length (unlines ls))
    ∧ (∀ a, ¬ (p <= a < p') → u_mem s' a = u_mem s a)
    ∧ rest (u_env s') = rest (u_env s) ∧ out (u_env s') = out (u_env s) ++ selected re ls).
Proof.
  induction ls as [|l ls IH]; intros fuel p part s Hp Hc Hls Hpart Hre Hdis Hf Hn; (destruct fuel as [|fuel]; [simpl in Hf; lia|]).
  { change (unlines [] ++ part) with part in *. cbn [grep_scan].
    eapply uwp_bind_done; [apply bounded_done, (strchr_none _ _ _ part Hc Hpart); lia|].
    simpl. split_and!; [lia|done|done|]. unfold selected, unlines. simpl. by rewrite app_nil_r. }
  apply Forall_cons in Hls as [Hl Hls].
  assert (Hu : unlines (l :: ls) ++ part = l ++ ch_nl :: (unlines ls ++ part)).
  { unfold unlines. simpl. by rewrite <- !app_assoc. }
  assert (Hu' : length (unlines (l :: ls)) = S (length l + length (unlines ls))).
  { change (unlines (l :: ls)) with ((l ++ [ch_nl]) ++ unlines ls). rewrite !length_app. simpl. lia. }
  rewrite Hu in Hc, Hdis, Hn. rewrite !length_app in Hn, Hdis. simpl in Hn, Hdis.
  set (q := p + Z.of_nat (length l)). cbn [grep_scan].
  eapply uwp_bind_done; [apply bounded_done, (strchr_found _ _ _ l _ Hc Hl); lia|]. fold q.
  rewrite (proj2 (Z.eqb_neq q 0)) by lia.
  set (m1 := store8 (u_mem s) q 0). eapply uwp_bind_done; [done|].
  assert (Hm1 : ∀ a, a ≠ q → m1 a = u_mem s a) by (intros; apply store8_ne; lia).
  assert (Hl1 : cstr m1 p l).
  { eapply cstr_cut; [exact Hc| |apply store8_eq]. intros; apply Hm1; lia. }
  assert (Hre1 : cstr m1 pat re) by (eapply cstr_frame; [|exact Hre]; intros; apply Hm1; lia).
  assert (Hq : u_mem s q = ch_nl ∧ cstr (u_mem s) (q + 1) (unlines ls ++ part)).
  { apply cstr_app in Hc. destruct Hc as (? & _ & ?). done. }
  eapply uwp_bind_done; [apply bounded_done, (match_done m1 n pat p re l Hre1 Hl1); lia|].
  (* what is common to both branches *)
  assert (Hnext : ∀ s2, (∀ a, a ≠ q → u_mem s2 a = u_mem s a) → rest (u_env s2) = rest (u_env s) →
    out (u_env s2) = out (u_env s) ++ (if matchb (parse re) l then l ++ [ch_nl] else []) →
    uwp K (grep_calls fd) (grep_scan fuel pat (q + 1) n s2) (λ p' s',
      p' = p + Z.of_nat (length (unlines (l :: ls))) ∧ (∀ a, ¬ (p <= a < p') → u_mem s' a = u_mem s a)
      ∧ rest (u_env s') = rest (u_env s) ∧ out (u_env s') = out (u_env s) ++ selected re (l :: ls))).
  { intros s2 Hm2 Hr2 Ho2. rewrite !length_app in *.
    eapply uwp_mono; [|apply (IH fuel (q + 1) part s2); try done].
    - intros p' s' (-> & Hf' & Hr' & Ho'). split_and!.
      + unfold q. lia.
      + intros a Ha. rewrite Hf' by (unfold q; lia). apply Hm2. unfold q. lia.
      + by rewrite Hr', Hr2.
      + by rewrite Ho', Ho2, <- app_assoc, selected_cons.
    - lia.
    - destruct Hq as [_ Hq]. eapply cstr_frame; [|exact Hq]. intros; apply Hm2; lia.
    - eapply cstr_frame; [|exact Hre]. intros; apply Hm2; lia.
    - rewrite length_app. lia.
    - simpl in Hf. lia.
    - rewrite length_app. lia. }
  destruct (matchb (parse re) l).
  - apply uwp_bind. eapply uwp_bind_done; [done|]. set (m2 := store8 m1 q ch_nl).
    assert (Hm2 : ∀ a, m2 a = u_mem s a).
    { intros a. unfold m2. rewrite store8_lookup. case_decide as Ha; [|by apply Hm1].
      subst a. destruct Hq as [-> _]. done. }
    assert (Hld : load_bytes m2 p (Z.to_nat (q + 1 - p)) = l ++ [ch_nl]).
    { replace (Z.to_nat (q + 1 - p)) with (length (l ++ [ch_nl])) by (rewrite length_app; simpl; lia).
      apply (load_bytes_cstr _ _ _ (unlines ls ++ part)). rewrite <- app_assoc. simpl.
      eapply cstr_frame; [|exact Hc]. intros; apply Hm2. }
    apply uwp_bind. eapply (uwp_bind_done _ _ _ _ _ _ _ m2); [done|]. rewrite Hld.
    apply uwp_sys; [right; by eexists|]. intros r l' e' _ Hw. destruct (write_all _ _ _ _ _ Hw) as [Hr' Ho'].
    apply Hnext; simpl; [intros; apply Hm2|done|done].
  - eapply uwp_bind_done; [done|]. apply Hnext; [intros; by apply Hm1|done|by rewrite app_nil_r].
Qed.

Lemma split_lines_prefix c r :
  ch_nl ∉ c → split_lines (c ++ r) =
    match split_lines r with ([], t) => ([], c ++ t) | (x :: ls, t) => ((c ++ x) :: ls, t) end.
Proof.
  induction c as [|a c IH]; intros Hc; simpl; [by destruct (split_lines r) as [[|??]?]|].
  rewrite IH by set_solver. destruct (split_lines r) as [[|x ls] t];
    by rewrite (proj2 (Z.eqb_neq a ch_nl)) by set_solver.
Qed.
Definition short (k : nat) (l : list Z) : Prop :=
  Forall (λ x, length x <= k)%nat (split_lines l).1 ∧ (length (split_lines l).2 <= k)%nat.
Lemma short_prefix k c r : ch_nl ∉ c → short k (c ++ r) → (length c <= k)%nat.
Proof.
  intros Hc [H1 H2]. rewrite split_lines_prefix in H1, H2 by done.
  destruct (split_lines r) as [[|x ls] t]; simpl in *; [|inversion H1; subst]; rewrite length_app in *; lia.
Qed.

(** The buffer after a read, its length and its end marked. *)
Lemma grep_fill buf m acc l :
  (∀ i x, acc !! i = Some x → m (buf + Z.of_nat i) = x) → Forall (λ x, 0 < x < 256) (acc ++ l) →
  cstr (store8 (store_bytes m (buf + Z.of_nat (length acc)) l) (buf + Z.of_nat (length (acc ++ l))) 0) buf (acc ++ l).
Proof.
  intros Hacc Hb. apply cstr_intro.
  - intros i x Hi. pose proof (lookup_lt_Some _ _ _ Hi). rewrite store8_ne by lia.
    rewrite Forall_lookup in Hb. pose proof (Hb i x Hi).
    apply lookup_app_Some in Hi as [Hi|[Hge Hi]].
    + pose proof (lookup_lt_Some _ _ _ Hi). rewrite store_bytes_out by lia. by apply Hacc.
    + replace (buf + Z.of_nat i) with (buf + Z.of_nat (length acc) + Z.of_nat (i - length acc)) by lia.
      apply store_bytes_in; [done|lia].
  - eapply Forall_impl; [done|]. simpl. lia.
  - apply store8_eq.
Qed.

(** The incomplete line is moved to the front of the buffer. *)
Lemma grep_shift m buf p part i x :
  buf < p → cstr m p part → Forall (λ x, 0 < x < 256) part → part !! i = Some x →
  memmove m buf p (Z.of_nat (length part)) (buf + Z.of_nat i) = x.
Proof.
  intros Hp Hc Hb Hi. unfold memmove. pose proof (lookup_lt_Some _ _ _ Hi).
  assert (Hba : bytes_at m p (Z.of_nat (length part))).
  { intros a Ha. destruct (lookup_lt_is_Some_2 part (Z.to_nat (a - p))) as [y Hy]; [lia|].
    pose proof (cstr_lookup _ _ _ _ _ Hc Hy) as Hm. rewrite Forall_lookup in Hb. specialize (Hb _ _ Hy).
    replace (p + Z.of_nat (Z.to_nat (a - p))) with a in Hm by lia. lia. }
  rewrite copy_up_lookup by (rewrite ?Nat2Z.id; (done || lia)). rewrite decide_True by lia.
  rewrite <- (cstr_lookup _ _ _ _ _ Hc Hi). f_equal. lia.
Qed.
Lemma memmove_out m d src k b : 0 <= k → ¬ (d <= b < d + k) → memmove m d src k b = m b.
Proof.
  unfold memmove. intros Hk. rewrite <- (Z2Nat.id k Hk). rewrite Nat2Z.id. generalize (Z.to_nat k). clear k Hk.
  intros k. revert m d src. induction k as [|k IH]; intros m d src Hb; simpl; [done|].
  rewrite IH by lia. apply store8_ne. lia.
Qed.

Lemma grep_loop_uwp buf pat re n : ∀ fuel acc s,
  0 < buf → pat + Z.of_nat (length re) < buf ∨ buf + 1024 <= pat → cstr (u_mem s) pat re →
  (∀ i x, acc !! i = Some x → u_mem s (buf + Z.of_nat i) = x) → ch_nl ∉ acc →
  Forall (λ x, 0 < x < 256) (acc ++ rest (u_env s)) → short 1022 (acc ++ rest (u_env s)) →
  (length (rest (u_env s)) < fuel)%nat → (length re + 1100 < n)%nat →
  uwp K (grep_calls fd) (grep_loop buf fuel pat fd (Z.of_nat (length acc)) n s) (λ _ s',
    out (u_env s') = out (u_env s) ++ selected re (split_lines (acc ++ rest (u_env s))).1).
Proof.
  induction fuel as [|fuel IH]; intros acc s Hbuf Hdis Hre Hacc Hnl Hby Hsh Hf Hn; [lia|].
  assert (Hla := short_prefix _ _ _ Hnl Hsh). cbn [grep_loop]. set (R := rest (u_env s)) in *.
  apply uwp_bind, uwp_bind. split; [left; by eexists|]. intros r l e' _ Hr.
  destruct (read_full (sizeof_buf - Z.of_nat (length acc) - 1) _ _ _ _ ltac:(unfold sizeof_buf; lia) Hr) as (Hl & -> & Hrest & Hout). fold R in Hl, Hrest.
  set (k := Z.to_nat (sizeof_buf - Z.of_nat (length acc) - 1)) in *.
  assert (Hk : (k + length acc = 1023)%nat) by (unfold k, sizeof_buf; lia).
  assert (HR : R = l ++ rest e') by (by rewrite Hl, Hrest, take_drop).
  assert (Hlk : length l = Nat.min k (length R)) by (by rewrite Hl, length_take).
  eapply uwp_bind_done; [done|]. unfold mret, M_ret. cbn [uwp]. cbn [u_mem u_freep u_ret u_data u_env set_field set_u_mem].
  destruct l as [|x0 l0] eqn:El.
  { cbn [length Z.of_nat]. cbn. assert (R = []) as ->.
    { destruct R as [|x R]; [done|]. destruct k; [lia|]. done. }
    rewrite app_nil_r, split_lines_tail by done. 
    change (out e' = out (u_env s) ++ []). by rewrite Hout, app_nil_r. }
  rewrite <- El in *. assert (Hl1 : (0 < length l)%nat) by (rewrite El; simpl; lia). clear x0 l0 El Hl.
  rewrite (proj2 (Z.leb_gt _ 0)) by lia. cbv zeta.
  assert (Hlen : Z.of_nat (length acc) + Z.of_nat (length l) = Z.of_nat (length (acc ++ l))) by (rewrite length_app; lia).
  rewrite Hlen. eapply uwp_bind_done; [done|]. cbn [u_mem u_freep u_ret u_data u_env set_field set_u_mem].
  rewrite HR, app_assoc in Hby, Hsh |- *.
  pose proof Hby as [Hbc Hbr]%Forall_app.
  pose proof (grep_fill buf (u_mem s) acc l Hacc Hbc) as Hc.
  set (m2 := store8 _ _ 0) in *. set (c := acc ++ l) in *.
  assert (Hlc : (length c <= 1023)%nat) by (unfold c; rewrite length_app; lia).
  assert (Hm2 : ∀ a, ¬ (buf <= a < buf + 1024) → m2 a = u_mem s a).
  { intros a Ha. unfold m2. rewrite store8_ne, store_bytes_out by lia. done. }
  assert (Hre2 : cstr m2 pat re) by (eapply cstr_frame; [|exact Hre]; intros; apply Hm2; lia).
  destruct (split_lines c) as [ls part] eqn:Hs. destruct (split_lines_ok _ _ _ Hs) as (Hcs & Hls & Hpart).
  apply uwp_bind. unfold with_fuel.
  eapply uwp_mono; [|apply (grep_scan_uwp pat re n ls n buf part (U m2 (u_freep s) (Z.of_nat (length l)) l e')); simpl; try done].
  2: { by rewrite <- Hcs. }
  2: { rewrite <- Hcs. lia. }
  2: { assert (length ls <= length (unlines ls))%nat; [|rewrite Hcs, length_app in Hlc; lia].
       clear. induction ls as [|x ls IH]; [done|]. change (unlines (x :: ls)) with ((x ++ [ch_nl]) ++ unlines ls).
       rewrite !length_app. simpl. lia. }
  2: { rewrite <- Hcs. lia. }
  intros p s3 (-> & Hf3 & Hr3 & Ho3). simpl in Hf3, Hr3, Ho3.
  assert (Hfuel : (length (rest e') < fuel)%nat) by (rewrite HR, length_app in Hf; lia).
  rewrite Hcs in Hsh |- *. rewrite <- app_assoc in Hsh |- *.
  assert (Hre3 : cstr (u_mem s3) pat re).
  { eapply cstr_frame; [|exact Hre2]. intros a Ha. apply Hf3. rewrite Hcs, length_app in Hlc. lia. }
  destruct ls as [|l1 ls].
  - change (unlines []) with (@nil Z) in *. cbn [length Z.of_nat] in *. rewrite Z.add_0_r, Z.eqb_refl. cbn.
    simpl in Hcs. subst part.
    assert (rest e' = []) as Hnil.
    { destruct (rest e') as [|y ys] eqn:Hy; [done|]. exfalso. pose proof (short_prefix 1022 c (y :: ys) Hpart Hsh).
      assert (k < length R)%nat.
      { destruct (le_lt_dec (length R) k) as [Hle|]; [|done].
        rewrite drop_ge in Hrest by done. done. }
      unfold c in *. rewrite length_app in *. lia. }
    eapply uwp_mono; [|apply (IH [] s3); try done; rewrite ?Hr3, ?Hnil; try done].
    + intros [] s4 Ho4. rewrite Ho4, Ho3, Hout, Hr3, Hnil. simpl. rewrite (app_nil_r c), Hs. simpl.
      change (selected re []) with (@nil Z). by rewrite !app_nil_r.
    + set_solver.
    + split; [apply Forall_nil_2 | simpl; lia].
    + simpl. rewrite Hnil in Hfuel. done.
  - assert (Hul : (0 < length (unlines (l1 :: ls)))%nat).
    { change (unlines (l1 :: ls)) with ((l1 ++ [ch_nl]) ++ unlines ls). rewrite !length_app. simpl. lia. }
    set (U1 := unlines (l1 :: ls)) in *. rewrite (proj2 (Z.eqb_neq _ _)) by lia.
    assert (Hlp : length c = (length U1 + length part)%nat) by (by rewrite Hcs, length_app).
    cbv iota. rewrite <- Hcs. rewrite (proj2 (Z.gtb_lt (Z.of_nat (length c)) 0)) by lia. eapply uwp_bind_done; [done|].
    replace (Z.of_nat (length c) - (buf + Z.of_nat (length U1) - buf)) with (Z.of_nat (length part)) by lia.
    assert (Hbp : Forall (λ x, 0 < x < 256) part) by (rewrite Hcs in Hbc; by apply Forall_app in Hbc as [_ ?]).
    assert (Hc3 : cstr (u_mem s3) (buf + Z.of_nat (length U1)) part).
    { eapply cstr_frame; [|apply cstr_app; rewrite <- Hcs; exact Hc]. intros a Ha. apply Hf3. lia. }
    pose proof (split_lines_app (l1 :: ls) part (rest e') Hls) as Hsp. fold U1 in Hsp.
    eapply uwp_mono; [|apply (IH part); simpl; rewrite ?Hr3; try done].
    + intros [] s4 Ho4. rewrite Ho4. simpl. rewrite Ho3, Hout, Hr3, Hsp.
      unfold selected. cbv beta iota delta [fst]. by rewrite (filter_app _ (l1 :: ls)), unlines_app, app_assoc.
    + eapply cstr_frame; [|exact Hre3]. intros a Ha. apply memmove_out; lia.
    + intros i x Hx. apply (grep_shift (u_mem s3) buf); [lia|done|done|done].
    + apply Forall_app. done.
    + unfold short in Hsh |- *. rewrite Hsp in Hsh. simpl in Hsh. destruct Hsh as [Hsh1 Hsh2].
      split; [|done]. by apply (Forall_app _ (l1 :: ls)) in Hsh1 as [_ ?].
Qed.
End scan.

(** ** Properties *)

(** C24: grep's matcher decides the language of its patterns.  With a bound on
    its recursion of the length of pattern and text and one, match terminates, and it returns 1 exactly when some part of the
    text (at the beginning after a hat, at the end before a dollar sign) is in
    the regular language the pattern denotes. *)
Theorem match_regexp fuel m re text l t :
  cstr m re l → cstr m text t → (length l + length t < fuel)%nat →
  ∃ b, match_ fuel m re text = Some b ∧ (b = true ↔ matches (parse l) t).
Proof.
  intros Hl Ht Hf. exists (matchb (parse l) t). split; [by apply match_done | apply matchb_spec].
Qed.

(** C40: on a file whose lines fit its buffer grep prints exactly the
    lines that match, in order, each with its newline, whatever way they lie
    across the pieces in which the file is read, and it returns.  What follows the
    last newline of the file is not looked at. *)
Theorem grep_lines {E} {K : @kernel E} {fd : Z} {rest out : E → list Z} {GL : GrepLaw K fd rest out} buf pat re n s :
  0 < buf → pat + Z.of_nat (length re) < buf ∨ buf + sizeof_buf <= pat → cstr (u_mem s) pat re →
  Forall (λ x, 0 < x < 256) (rest (u_env s)) → short 1022 (rest (u_env s)) →
  (length re + length (rest (u_env s)) + 1100 < n)%nat →
  uwp K (grep_calls fd) (grep buf pat fd n s) (λ _ s',
    out (u_env s') = out (u_env s) ++ unlines (filter (matches (parse re)) (split_lines (rest (u_env s))).1)).
Proof.
  intros Hb Hd Hre Hby Hs Hn. apply (grep_loop_uwp buf pat re n n [] s); try done; [set_solver|lia|lia].
Qed.

(** grep loses input that comes in pieces.  When a read returns bytes
    without a newline (a pipe or the console gives what there is), they are dropped:
    grep goes on with an empty buffer, although there is room for the rest of the line. *)
Theorem grep_short_reads {E} buf pat fd fuel n (s : ust E) :
  0 < buf → (1024 < n)%nat →
  ∃ kont, grep_loop buf (S fuel) pat fd 0 n s = Block (U_read fd 1023) s kont
    ∧ ∀ l e', (0 < length l <= 1023)%nat → Forall (λ x, 0 < x < 256) l → ch_nl ∉ l →
      ∃ m', kont (U (u_mem s) (u_freep s) (Z.of_nat (length l)) l e')
        = grep_loop buf fuel pat fd 0 n (U m' (u_freep s) (Z.of_nat (length l)) l e').
Proof.
  intros Hb Hn. cbn [grep_loop]. eexists. split.
  { apply bind_block. unfold read_at. apply bind_block. reflexivity. }
  intros l e' Hl Hby Hnl. pose proof (grep_fill buf (u_mem s) [] l ltac:(done) Hby) as Hc. simpl in Hc.
  rewrite Z.add_0_r in Hc. set (m2 := store8 _ _ 0) in *. exists m2.
  set (s1 := U (store_bytes (u_mem s) buf l) (u_freep s) (Z.of_nat (length l)) l e').
  cbn [comp_bind u_mem u_ret u_data u_freep u_env]. rewrite Z.add_0_r. rewrite (bind_done _ _ _ _ tt s1) by done.
  cbn [comp_bind mret M_ret]. destruct (Z.leb_spec (Z.of_nat (length l)) 0); [lia|]. rewrite Z.add_0_l.
  set (s2 := U m2 (u_freep s) (Z.of_nat (length l)) l e').
  assert (Hscan : with_fuel (λ f, grep_scan f pat buf) n s2 = Done buf s2).
  { unfold with_fuel. destruct n as [|n]; [lia|]. cbn [grep_scan]. rewrite (bind_done _ _ _ _ 0 s2); [done|].
    apply bounded_done, (strchr_none _ _ _ l); [done|done|lia]. }
  rewrite (bind_done _ _ _ _ tt s2) by done. rewrite (bind_done _ _ _ _ _ _ Hscan). by rewrite Z.eqb_refl.
Qed.

(** *** Witnesses *)

(** A file and what was printed. *)
Definition file_demo : @kernel (list Z * list Z) := λ w e r l e',
  match w with
  | U_read _ n => l = take (Z.to_nat n) e.1 ∧ r = Z.of_nat (length l) ∧ e' = (drop (Z.to_nat n) e.1, e.2)
  | U_write _ l' => r = Z.of_nat (length l') ∧ e' = (e.1, e.2 ++ l')
  | _ => False
  end.
Lemma file_demo_law fd : GrepLaw file_demo fd fst snd.
Proof.
  split.
  - intros n e r l e' _ (-> & -> & ->). done.
  - intros l e r l' e' (-> & ->). done.
Qed.
(** The text at 0x100, the pattern at 0x200, the buffer at 0x1000. *)
Definition mem_grep : mem :=
  store_bytes (store_bytes (λ _, 0) 0x100 (str "xabbbc")) 0x200 (str "ab*c$").
Definition ust_grep (text : list Z) : ust (list Z * list Z) := U mem_grep 0 0 [] (text, []).
Lemma mem_grep_text : cstr mem_grep 0x100 (str "xabbbc").
Proof. vm_compute. repeat split; intros H; discriminate H. Qed.
Lemma mem_grep_pat : cstr mem_grep 0x200 (str "ab*c$").
Proof. vm_compute. repeat split; intros H; discriminate H. Qed.

Lemma match_regexp_witness : ∃ b, match_ 20%nat mem_grep 0x200 0x100 = Some b ∧ (b = true ↔ matches (parse (str "ab*c$")) (str "xabbbc")).
Proof. apply (match_regexp 20 mem_grep 0x200 0x100); [exact mem_grep_pat | exact mem_grep_text | vm_compute; lia]. Defined.
Lemma grep_lines_witness :
  let text := cstring "xac\nabcd\nabbbc\nabc" in
  uwp file_demo (grep_calls 3) (grep 0x1000 0x200 3 2000%nat (ust_grep text)) (λ _ s', (u_env s').2 = cstring "xac\nabbbc\n").
Proof.
  intros text. eapply uwp_mono;
    [|refine (@grep_lines _ _ 3 _ _ (file_demo_law 3) 0x1000 0x200 (str "ab*c$") 2000%nat (ust_grep text) _ _ _ _ _ _)].
  - intros [] s' H. rewrite H. vm_compute. reflexivity.
  - lia.
  - left. vm_compute. reflexivity.
  - exact mem_grep_pat.
  - vm_compute. repeat constructor.
  - split; vm_compute; [repeat constructor; lia | lia].
  - vm_compute. lia.
Defined.
Lemma grep_short_reads_witness :
  ∃ kont, grep_loop 0x1000 9 0x200 0 0 2000%nat (ust_grep []) = Block (U_read 0 1023) (ust_grep []) kont.
Proof.
  destruct (grep_short_reads 0x1000 0x200 0 8 2000 (ust_grep [])) as (kont & H & _); [lia | lia |]. by exists kont.
Defined.
