(* ===== verification/Sh.v ===== *)
(** * Sh: the shell, sh.c

    The parser, on the bytes of the program's memory: the nodes of the parsed
    command are blocks from malloc, their strings point into the line.  A
    [char **ps] argument is passed as the pointer and returned with the
    result.  Then runcmd, the reading of commands and main (the build does not
    define USE_BUILTINS).  The addresses of the static objects are the
    linker's: [base] of umalloc.c, [buf] of main. *)

From S2P Require Import Prelude Memory Cprintf User Ulib Umalloc.

(** ** Command nodes *)

Definition EXEC : Z := 1.
Definition REDIR : Z := 2.
Definition PIPE : Z := 3.
Definition LIST : Z := 4.
Definition BACK : Z := 5.
Definition MAXARGS : Z := 10.

(** The structures: offsets of the fields and sizes. *)
Definition cmd_type : Z := 0.
Definition execcmd_argv (i : Z) : Z := 4 + 4 * i.
Definition execcmd_eargv (i : Z) : Z := 4 + 4 * MAXARGS + 4 * i.
Definition sizeof_execcmd : Z := 4 + 8 * MAXARGS.
Definition redircmd_cmd : Z := 4.
Definition redircmd_file : Z := 8.
Definition redircmd_efile : Z := 12.
Definition redircmd_mode : Z := 16.
Definition redircmd_fd : Z := 20.
Definition sizeof_redircmd : Z := 24.
Definition pipecmd_left : Z := 4.
Definition pipecmd_right : Z := 8.
Definition sizeof_pipecmd : Z := 12.
Definition listcmd_left : Z := 4.
Definition listcmd_right : Z := 8.
Definition sizeof_listcmd : Z := 12.
Definition backcmd_cmd : Z := 4.
Definition sizeof_backcmd : Z := 8.

Definition SH_O_RDONLY : Z := 0x000.
Definition SH_O_WRONLY : Z := 0x001.
Definition SH_O_RDWR : Z := 0x002.
Definition SH_O_CREATE : Z := 0x200.

(** ** Tokens *)

Definition whitespace : list Z := [32; 9; 13; 10; 11].
Definition symbols : list Z := str "<|>&;()".
Definition ch_a : Z := 97.

Definition is_ws (c : Z) : bool := in_str whitespace c.
Definition is_sym (c : Z) : bool := in_str symbols c.

(** [while(s < es && strchr(whitespace, *s)) s++;] with [k] = es - s *)
Fixpoint skip_ws (k : nat) (m : mem) (s : Z) : Z :=
  match k with
  | O => s
  | S k' => if is_ws (m s) then skip_ws k' m (s + 1) else s
  end.
Fixpoint skip_word (k : nat) (m : mem) (s : Z) : Z :=
  match k with
  | O => s
  | S k' => if negb (is_ws (m s)) && negb (is_sym (m s)) then skip_word k' m (s + 1) else s
  end.

(** The result: the token, where it begins and ends, and the new [*ps]. *)
Definition gettoken (m : mem) (s es : Z) : Z * Z * Z * Z :=
  let s := skip_ws (Z.to_nat (es - s)) m s in
  let q := s in
  let c := m s in
  let '(ret, s) :=
    if c =? 0 then (0, s)
    else if (c =? 124) || (c =? 40) || (c =? 41) || (c =? 59) || (c =? 38) || (c =? 60) then (c, s + 1)
    else if c =? 62 then
      let s := s + 1 in
      if m s =? 62 then (ch_plus, s + 1) else (c, s)
    else (ch_a, skip_word (Z.to_nat (es - s)) m s) in
  let eq := s in
  (ret, q, eq, skip_ws (Z.to_nat (es - s)) m s).

(** Is the next character one of [toks]?  And the new [*ps]. *)
Definition peek (m : mem) (s es : Z) (toks : list Z) : bool * Z :=
  let s := skip_ws (Z.to_nat (es - s)) m s in
  (negb (m s =? 0) && in_str toks (m s), s).

Section sh.
Context {E : Type} (base : Z).

Definition panic {A} (s : string) : UM E A := printf 2 "%s\n" [L (str s)] ;; exit.

Definition fork1 : UM E Z :=
  pid ← sys U_fork;
  if pid =? -1 then panic "fork" else mret pid.

(** ** Constructors *)

(** The common beginning: [cmd = malloc(n); memset(cmd, 0, n); cmd->type = t] *)
Definition new_cmd (n t : Z) : UM E Z :=
  cmd ← malloc base n;
  modm (λ m, memset m cmd 0 n) ;;
  st32m (cmd + cmd_type) t ;;
  mret cmd.

Definition execcmd : UM E Z := new_cmd sizeof_execcmd EXEC.
Definition redircmd (subcmd file efile mode fd : Z) : UM E Z :=
  cmd ← new_cmd sizeof_redircmd REDIR;
  st32m (cmd + redircmd_cmd) subcmd ;;
  st32m (cmd + redircmd_file) file ;;
  st32m (cmd + redircmd_efile) efile ;;
  st32m (cmd + redircmd_mode) mode ;;
  st32m (cmd + redircmd_fd) fd ;;
  mret cmd.
Definition pipecmd (left right : Z) : UM E Z :=
  cmd ← new_cmd sizeof_pipecmd PIPE;
  st32m (cmd + pipecmd_left) left ;;
  st32m (cmd + pipecmd_right) right ;;
  mret cmd.
Definition listcmd (left right : Z) : UM E Z :=
  cmd ← new_cmd sizeof_listcmd LIST;
  st32m (cmd + listcmd_left) left ;;
  st32m (cmd + listcmd_right) right ;;
  mret cmd.
Definition backcmd (subcmd : Z) : UM E Z :=
  cmd ← new_cmd sizeof_backcmd BACK;
  st32m (cmd + backcmd_cmd) subcmd ;;
  mret cmd.

(** ** The parser *)

Fixpoint parseredirs (fuel : nat) (cmd ps es : Z) : UM E (Z * Z) :=
  match fuel with
  | O => out_of_fuel
  | S fuel' =>
    m ← getm;
    let '(b, ps) := peek m ps es (str "<>") in
    if negb b then mret (cmd, ps) else
    let '(tok, _, _, ps) := gettoken m ps es in
    let '(tok2, q, eq, ps) := gettoken m ps es in
    if negb (tok2 =? ch_a) then panic "missing file for redirection" else
    cmd ← (if tok =? 60 then redircmd cmd q eq SH_O_RDONLY 0
           else if tok =? 62 then redircmd cmd q eq (Z.lor SH_O_WRONLY SH_O_CREATE) 1
           else if tok =? ch_plus then redircmd cmd q eq (Z.lor SH_O_WRONLY SH_O_CREATE) 1
           else mret cmd);
    parseredirs fuel' cmd ps es
  end.

(** The loop of parseexec over the words, [ret] the command with its
    redirections. *)
Fixpoint parseargs (fuel : nat) (cmd ret argc ps es : Z) : UM E (Z * Z * Z) :=
  match fuel with
  | O => out_of_fuel
  | S fuel' =>
    m ← getm;
    let '(b, ps) := peek m ps es (str "|)&;") in
    if b then mret (ret, argc, ps) else
    let '(tok, q, eq, ps) := gettoken m ps es in
    if tok =? 0 then mret (ret, argc, ps) else
    if negb (tok =? ch_a) then panic "syntax" else
    st32m (cmd + execcmd_argv argc) q ;;
    st32m (cmd + execcmd_eargv argc) eq ;;
    let argc := argc + 1 in
    if argc >=? MAXARGS then panic "too many args" else
    '(ret, ps) ← parseredirs fuel' ret ps es;
    parseargs fuel' cmd ret argc ps es
  end.

(** The loop of parseline over the ampersands. *)
Fixpoint parseback (fuel : nat) (cmd ps es : Z) : UM E (Z * Z) :=
  match fuel with
  | O => out_of_fuel
  | S fuel' =>
    m ← getm;
    let '(b, ps) := peek m ps es (str "&") in
    if negb b then mret (cmd, ps) else
    let '(_, _, _, ps) := gettoken m ps es in
    cmd ← backcmd cmd;
    parseback fuel' cmd ps es
  end.

Fixpoint parseline (fuel : nat) (ps es : Z) : UM E (Z * Z) :=
  match fuel with
  | O => out_of_fuel
  | S fuel' =>
    '(cmd, ps) ← parsepipe fuel' ps es;
    '(cmd, ps) ← parseback fuel' cmd ps es;
    m ← getm;
    let '(b, ps) := peek m ps es (str ";") in
    if negb b then mret (cmd, ps) else
    let '(_, _, _, ps) := gettoken m ps es in
    '(rcmd, ps) ← parseline fuel' ps es;
    cmd ← listcmd cmd rcmd;
    mret (cmd, ps)
  end
with parsepipe (fuel : nat) (ps es : Z) : UM E (Z * Z) :=
  match fuel with
  | O => out_of_fuel
  | S fuel' =>
    '(cmd, ps) ← parseexec fuel' ps es;
    m ← getm;
    let '(b, ps) := peek m ps es (str "|") in
    if negb b then mret (cmd, ps) else
    let '(_, _, _, ps) := gettoken m ps es in
    '(rcmd, ps) ← parsepipe fuel' ps es;
    cmd ← pipecmd cmd rcmd;
    mret (cmd, ps)
  end
with parseexec (fuel : nat) (ps es : Z) : UM E (Z * Z) :=
  match fuel with
  | O => out_of_fuel
  | S fuel' =>
    m ← getm;
    let '(b, ps) := peek m ps es (str "(") in
    if b then parseblock fuel' ps es else
    cmd ← execcmd;
    '(ret, ps) ← parseredirs fuel' cmd ps es;
    '(ret, argc, ps) ← parseargs fuel' cmd ret 0 ps es;
    st32m (cmd + execcmd_argv argc) 0 ;;
    st32m (cmd + execcmd_eargv argc) 0 ;;
    mret (ret, ps)
  end
with parseblock (fuel : nat) (ps es : Z) : UM E (Z * Z) :=
  match fuel with
  | O => out_of_fuel
  | S fuel' =>
    m ← getm;
    let '(b, ps) := peek m ps es (str "(") in
    if negb b then panic "parseblock" else
    let '(_, _, _, ps) := gettoken m ps es in
    '(cmd, ps) ← parseline fuel' ps es;
    m ← getm;
    let '(b, ps) := peek m ps es (str ")") in
    if negb b then panic "syntax - missing )" else
    let '(_, _, _, ps) := gettoken m ps es in
    parseredirs fuel' cmd ps es
  end.

(** [for(i=0; ecmd->argv[i]; i++) *ecmd->eargv[i] = 0;] *)
Fixpoint nulterminate_args (k : nat) (ecmd i : Z) : UM E unit :=
  match k with
  | O => out_of_fuel
  | S k' =>
    a ← ld32m (ecmd + execcmd_argv i);
    if a =? 0 then mret tt else
    e ← ld32m (ecmd + execcmd_eargv i);
    st8 e 0 ;;
    nulterminate_args k' ecmd (i + 1)
  end.
Fixpoint nulterminate (fuel : nat) (cmd : Z) : UM E unit :=
  match fuel with
  | O => out_of_fuel
  | S fuel' =>
    if cmd =? 0 then mret tt else
    t ← ld32m (cmd + cmd_type);
    if t =? EXEC then with_fuel (λ k, nulterminate_args k cmd 0)
    else if t =? REDIR then
      c ← ld32m (cmd + redircmd_cmd);
      nulterminate fuel' c ;;
      e ← ld32m (cmd + redircmd_efile);
      st8 e 0
    else if t =? PIPE then
      l ← ld32m (cmd + pipecmd_left); nulterminate fuel' l ;;
      r ← ld32m (cmd + pipecmd_right); nulterminate fuel' r
    else if t =? LIST then
      l ← ld32m (cmd + listcmd_left); nulterminate fuel' l ;;
      r ← ld32m (cmd + listcmd_right); nulterminate fuel' r
    else if t =? BACK then
      c ← ld32m (cmd + backcmd_cmd); nulterminate fuel' c
    else mret tt
  end.

Definition parsecmd (s : Z) : UM E Z :=
  n ← bounded (λ f m, strlen f m s);
  let es := s + n in
  '(cmd, s) ← with_fuel (λ fuel, parseline fuel s es);
  m ← getm;
  let '(_, s) := peek m s es [] in
  if negb (s =? es) then
    printf 2 "leftovers: %s\n" [W s] ;;
    panic "syntax"
  else
  with_fuel (λ fuel, nulterminate fuel cmd) ;;
  mret cmd.

(** ** Running *)

(** The strings of [argv], as exec's system call fetches them. *)
Fixpoint load_argv (k : nat) (argv : Z) : UM E (list (list Z)) :=
  match k with
  | O => out_of_fuel
  | S k' =>
    a ← ld32m argv;
    if a =? 0 then mret [] else
    l ← string_at a;
    ls ← load_argv k' (argv + 4);
    mret (l :: ls)
  end.

(** runcmd does not return. *)
Fixpoint runcmd (fuel : nat) (cmd : Z) : UM E unit :=
  match fuel with
  | O => out_of_fuel
  | S fuel' =>
    if cmd =? 0 then exit else
    t ← ld32m (cmd + cmd_type);
    (if t =? EXEC then
      a ← ld32m (cmd + execcmd_argv 0);
      if a =? 0 then exit else
      path ← string_at a;
      argv ← with_fuel (λ k, load_argv k (cmd + execcmd_argv 0));
      _ ← sys (U_exec path argv);
      printf 2 "exec %s failed\n" [W a]
    else if t =? REDIR then
      fd ← ld32m (cmd + redircmd_fd);
      _ ← sys (U_close (s32 fd));
      file ← ld32m (cmd + redircmd_file);
      mode ← ld32m (cmd + redircmd_mode);
      r ← open_at file mode;
      if r <? 0 then printf 2 "open %s failed\n" [W file] ;; exit else
      c ← ld32m (cmd + redircmd_cmd);
      runcmd fuel' c
    else if t =? LIST then
      pid ← fork1;
      (if pid =? 0 then l ← ld32m (cmd + listcmd_left); runcmd fuel' l else mret tt) ;;
      _ ← sys U_wait;
      r ← ld32m (cmd + listcmd_right);
      runcmd fuel' r
    else if t =? PIPE then
      '(r, l) ← sys_data U_pipe;
      if r <? 0 then panic "pipe" else
      let p0 := s32 (ld32 l 0) in
      let p1 := s32 (ld32 l 4) in
      pid ← fork1;
      (if pid =? 0 then
         _ ← sys (U_close 1);
         _ ← sys (U_dup p1);
         _ ← sys (U_close p0);
         _ ← sys (U_close p1);
         c ← ld32m (cmd + pipecmd_left);
         runcmd fuel' c
       else mret tt) ;;
      pid ← fork1;
      (if pid =? 0 then
         _ ← sys (U_close 0);
         _ ← sys (U_dup p0);
         _ ← sys (U_close p0);
         _ ← sys (U_close p1);
         c ← ld32m (cmd + pipecmd_right);
         runcmd fuel' c
       else mret tt) ;;
      _ ← sys (U_close p0);
      _ ← sys (U_close p1);
      _ ← sys U_wait;
      _ ← sys U_wait;
      mret tt
    else if t =? BACK then
      pid ← fork1;
      if pid =? 0 then c ← ld32m (cmd + backcmd_cmd); runcmd fuel' c else mret tt
    else panic "runcmd") ;;
    exit
  end.

(** ** Reading commands *)

Definition getcmd (buf nbuf : Z) : UM E Z :=
  printf 2 "$ " [] ;;
  modm (λ m, memset m buf 0 nbuf) ;;
  gets buf nbuf ;;
  c ← ld8 buf;
  if c =? 0 then mret (-1) else mret 0.

(** strncmp with a string constant. *)
Fixpoint strncmp_const (n : nat) (m : mem) (p : Z) (q : list Z) : Z :=
  match n with
  | O => 0
  | S n' =>
    let c := default 0 (head q) in
    if negb (m p =? 0) && (m p =? c) then strncmp_const n' m (p + 1) (tail q) else m p - c
  end.

Fixpoint open_console (fuel : nat) : UM E unit :=
  match fuel with
  | O => out_of_fuel
  | S fuel' =>
    fd ← sys (U_open (str "console") SH_O_RDWR);
    if fd <? 0 then mret tt else
    if fd >=? 3 then _ ← sys (U_close fd); mret tt else
    open_console fuel'
  end.

Fixpoint sh_loop (fuel : nat) (buf : Z) : UM E unit :=
  match fuel with
  | O => out_of_fuel
  | S fuel' =>
    r ← getcmd buf 100;
    if r <? 0 then mret tt else
    m ← getm;
    if (m buf =? 99) && (m (buf + 1) =? 100) && (m (buf + 2) =? ch_space) then
      n ← bounded (λ f m, strlen f m buf);
      st8 (buf + n - 1) 0 ;;
      path ← string_at (buf + 3);
      r ← sys (U_chdir path);
      (if r <? 0 then printf 2 "cannot cd %s\n" [W (buf + 3)] else mret tt) ;;
      sh_loop fuel' buf
    else
    n ← bounded (λ f m, strlen f m buf);
    if negb (m buf =? ch_nl) && (strncmp_const (Z.to_nat (n -u 1)) m buf (str "exit") =? 0) then exit else
    pid ← fork1;
    (if pid =? 0 then cmd ← parsecmd buf; with_fuel (λ f, runcmd f cmd) else mret tt) ;;
    _ ← sys U_wait;
    sh_loop fuel' buf
  end.
Definition sh_main (buf : Z) : UM E unit :=
  with_fuel open_console ;;
  with_fuel (λ fuel, sh_loop fuel buf) ;;
  exit.
End sh.
