(* ===== verification/ShTokens.v ===== *)
(** * ShTokens: the shell's tokens

    The scanner of sh.c on a line of text in memory.  A position in the line
    is given by what is left of the line from there on: [pos es l] is where
    the suffix [l] of a line that ends at [es] begins. *)

From S2P Require Import Prelude Memory Cprintf User Ulib Sh.

Definition pos (es : Z) (l : list Z) : Z := es - Z.of_nat (length l).
(** The suffix [l] of the line is in memory. *)
Definition text (m : mem) (es : Z) (l : list Z) : Prop := cstr m (pos es l) l.

Definition wordch (c : Z) : Prop := 0 < c < 256 ∧ is_ws c = false ∧ is_sym c = false.
Definition delim (c : Z) : Prop := c = 0 ∨ is_ws c = true ∨ is_sym c = true.
Definition word (w : list Z) : Prop := w ≠ [] ∧ Forall wordch w.
(** What is left is nothing or begins with a delimiter. *)
Definition ends (l : list Z) : Prop := ∀ c, head l = Some c → delim c.
(** What is left after blanks. *)
Fixpoint lskip (l : list Z) : list Z :=
  match l with
  | [] => []
  | c :: l' => if is_ws c then lskip l' else l
  end.
(** [n] bytes of text at [q]. *)
Definition word_at (m : mem) (q : Z) (w : list Z) : Prop := ∀ i c, w !! i = Some c → m (q + Z.of_nat i) = c.

Lemma pos_app es w l : pos es (w ++ l) + Z.of_nat (length w) = pos es l.
Proof. unfold pos. rewrite length_app. lia. Qed.
Lemma pos_cons es c l : pos es (c :: l) + 1 = pos es l.
Proof. unfold pos. simpl. lia. Qed.
Lemma text_app m es w l : text m es (w ++ l) → text m es l.
Proof.
  unfold text. induction w as [|c w IH]; simpl; [done|]. intros (_ & _ & H). apply IH. by rewrite pos_cons in H.
Qed.
Lemma text_head m es l : text m es l → m (pos es l) = default 0 (head l).
Proof. unfold text. destruct l; simpl; [done|tauto]. Qed.
Lemma text_nonzero m es c l : text m es (c :: l) → c ≠ 0.
Proof. by intros (_ & ? & _). Qed.
Lemma text_word_at m es w l : text m es (w ++ l) → word_at m (pos es (w ++ l)) w.
Proof.
  unfold text, word_at. intros H i c Hi. eapply cstr_lookup; [done|]. by apply lookup_app_l_Some.
Qed.

(** ** Skipping *)

Lemma skip_ws_text m es l : text m es l → skip_ws (Z.to_nat (es - pos es l)) m (pos es l) = pos es (lskip l).
Proof.
  unfold text. replace (Z.to_nat (es - pos es l)) with (length l) by (unfold pos; lia).
  induction l as [|c l IH]; [done|]. intros (H1 & _ & H3). cbn [length skip_ws lskip]. rewrite H1.
  destruct (is_ws c); [|done]. rewrite pos_cons in *. by apply IH.
Qed.
Lemma lskip_suffix l : ∃ b, l = b ++ lskip l.
Proof.
  induction l as [|c l [b Hb]]; simpl; [by exists []|]. destruct (is_ws c); [|by exists []].
  exists (c :: b). simpl. by rewrite <- Hb.
Qed.
Lemma text_lskip m es l : text m es l → text m es (lskip l).
Proof. destruct (lskip_suffix l) as [b Hb]. rewrite Hb at 1. apply text_app. Qed.
Lemma lskip_idemp l : lskip (lskip l) = lskip l.
Proof. induction l as [|c l IH]; simpl; [done|]. destruct (is_ws c) eqn:E; [done|]. simpl. by rewrite E. Qed.
Lemma lskip_nonblank c l : is_ws c = false → lskip (c :: l) = c :: l.
Proof. simpl. by intros ->. Qed.
Lemma lskip_word w l : word w → lskip (w ++ l) = w ++ l.
Proof. intros [Hw Hc]. destruct w as [|c w]; [done|]. apply Forall_cons in Hc as [(_ & H & _) _]. by apply lskip_nonblank. Qed.

Lemma peek_text m es l toks :
  text m es l → peek m (pos es l) es toks =
    (match head (lskip l) with Some c => in_str toks c | None => false end, pos es (lskip l)).
Proof.
  intros H. unfold peek. rewrite (skip_ws_text _ _ _ H). rewrite (text_head _ _ _ (text_lskip _ _ _ H)).
  destruct (lskip l) as [|c l'] eqn:E; [done|]. simpl.
  assert (c ≠ 0) as Hc by (apply (text_nonzero m es c l'); rewrite <- E; by apply text_lskip).
  unfold id. by rewrite (proj2 (Z.eqb_neq c 0) Hc).
Qed.

Lemma skip_word_text m es w l :
  text m es (w ++ l) → Forall wordch w → ends l →
  skip_word (Z.to_nat (es - pos es (w ++ l))) m (pos es (w ++ l)) = pos es l.
Proof.
  unfold text. replace (Z.to_nat (es - pos es (w ++ l))) with (length (w ++ l)) by (unfold pos; lia).
  intros H Hw Hl. induction Hw as [|c w (Hc0 & Hc1 & Hc2) Hw IH]; simpl app in *.
  - destruct l as [|c l]; [done|]. destruct H as (H & Hc & _). cbn [length skip_word]. rewrite H.
    destruct (Hl c eq_refl) as [->|[->| ->]]; [done|done|]. by rewrite andb_false_r.
  - destruct H as (H & _ & H'). cbn [length skip_word]. rewrite H, Hc1, Hc2. simpl. rewrite pos_cons in *. by apply IH.
Qed.

(** ** gettoken *)

(** A symbol of one character. *)
Definition sym1 (c : Z) : Prop := c ∈ [124; 40; 41; 59; 38; 60].
Lemma gettoken_sym m es l c l' :
  text m es l → lskip l = c :: l' → sym1 c →
  gettoken m (pos es l) es = (c, pos es (c :: l'), pos es l', pos es (lskip l')).
Proof.
  intros H Hl Hc. unfold gettoken. rewrite (skip_ws_text _ _ _ H), Hl.
  pose proof (text_lskip _ _ _ H) as H'. rewrite Hl in H'. rewrite (text_head _ _ _ H'). cbn [head from_option]. unfold id.
  assert ((c =? 0) = false ∧ (c =? 124) || (c =? 40) || (c =? 41) || (c =? 59) || (c =? 38) || (c =? 60) = true) as [-> ->].
  { unfold sym1 in Hc. rewrite !elem_of_cons, elem_of_nil in Hc. lia. }
  rewrite pos_cons. rewrite skip_ws_text; [done|]. by apply (text_app _ _ [c]).
Qed.
(** The symbols > and >>. *)
Lemma gettoken_gt m es l l' :
  text m es l → lskip l = 62 :: l' → head l' ≠ Some 62 →
  gettoken m (pos es l) es = (62, pos es (62 :: l'), pos es l', pos es (lskip l')).
Proof.
  intros H Hl Hc. unfold gettoken. rewrite (skip_ws_text _ _ _ H), Hl.
  pose proof (text_lskip _ _ _ H) as H'. rewrite Hl in H'. rewrite (text_head _ _ _ H'). cbn [head from_option]. unfold id.
  simpl Z.eqb. cbn [orb]. cbv iota. pose proof (text_app _ _ [62] _ H') as H2.
  rewrite pos_cons, (text_head _ _ _ H2).
  rewrite (proj2 (Z.eqb_neq (default 0 (head l')) 62)).
  - by rewrite skip_ws_text.
  - destruct l' as [|x l']; simpl in *; [done|congruence].
Qed.
Lemma gettoken_gtgt m es l l' :
  text m es l → lskip l = 62 :: 62 :: l' →
  gettoken m (pos es l) es = (ch_plus, pos es (62 :: 62 :: l'), pos es l', pos es (lskip l')).
Proof.
  intros H Hl. unfold gettoken. rewrite (skip_ws_text _ _ _ H), Hl.
  pose proof (text_lskip _ _ _ H) as H'. rewrite Hl in H'. rewrite (text_head _ _ _ H'). cbn [head from_option]. unfold id.
  simpl Z.eqb. cbn [orb]. cbv iota. pose proof (text_app _ _ [62] _ H') as H2.
  rewrite pos_cons, (text_head _ _ _ H2). cbn [head from_option]. unfold id. simpl Z.eqb. cbv iota.
  rewrite pos_cons. rewrite skip_ws_text; [done|]. by apply (text_app _ _ [62]).
Qed.
Lemma wordch_plain c : wordch c →
  (c =? 0) = false ∧ (c =? 124) || (c =? 40) || (c =? 41) || (c =? 59) || (c =? 38) || (c =? 60) = false ∧ (c =? 62) = false.
Proof.
  intros (Hc & _ & Hs).
  change (is_sym c) with ((c =? 60) || ((c =? 124) || ((c =? 62) || ((c =? 38) || ((c =? 59) || ((c =? 40) || ((c =? 41) || false))))))) in Hs.
  repeat split; lia.
Qed.
Lemma gettoken_word m es l w l' :
  text m es l → lskip l = w ++ l' → word w → ends l' →
  gettoken m (pos es l) es = (ch_a, pos es (w ++ l'), pos es l', pos es (lskip l')).
Proof.
  intros H Hl [Hw Hc] He. unfold gettoken. rewrite (skip_ws_text _ _ _ H), Hl.
  pose proof (text_lskip _ _ _ H) as H'. rewrite Hl in H'. rewrite (text_head _ _ _ H').
  assert (∃ c, head (w ++ l') = Some c ∧ wordch c) as (c & -> & Hwc).
  { destruct w as [|c w]; [done|]. apply Forall_cons in Hc as [? _]. by exists c. }
  cbn [from_option]. unfold id. destruct (wordch_plain c Hwc) as (-> & -> & ->).
  rewrite skip_word_text by done. rewrite skip_ws_text; [done|]. by eapply text_app.
Qed.
Lemma gettoken_end m es l :
  text m es l → lskip l = [] → gettoken m (pos es l) es = (0, pos es [], pos es [], pos es []).
Proof.
  intros H Hl. unfold gettoken. rewrite (skip_ws_text _ _ _ H), Hl.
  pose proof (text_lskip _ _ _ H) as H'. rewrite Hl in H'. rewrite (text_head _ _ _ H'). cbn.
  replace (es - pos es []) with 0 by (unfold pos; simpl; lia). done.
Qed.
