(* ===== verification/ShHeap.v ===== *)
(** * ShHeap: the nodes of parsed commands

    What it means that a command tree is in the shell's memory, and the
    constructors of sh.c on top of the allocator's contract. *)

From S2P Require Import Prelude Memory Cprintf User Ulib Umalloc UmallocFacts UmallocSpec Sh ShTokens.

(** ** Commands *)

Inductive rdir : Type := RIn | ROut | RApp.
Inductive cmd : Type :=
| CExec (argv : list (list Z))
| CRedir (c : cmd) (d : rdir) (file : list Z)
| CPipe (left right : cmd)
| CList (left right : cmd)
| CBack (c : cmd).

Definition rmode (d : rdir) : Z := match d with RIn => SH_O_RDONLY | _ => Z.lor SH_O_WRONLY SH_O_CREATE end.
Definition rfd (d : rdir) : Z := match d with RIn => 0 | _ => 1 end.

(** Where things are: the allocator's header, the line, and the end of the
    memory the program started with. *)
Record layout : Type := Layout { l_base : Z; l_lo : Z; l_es : Z; l_e0 : Z }.
Record layout_ok (L : layout) : Prop := {
  lo_pos : 0 < l_base L ∧ 0 < l_lo L ∧ l_lo L <= l_es L < l_e0 L ∧ l_e0 L < 2 ^ 31;
  lo_base : l_base L + 8 <= l_e0 L;
  lo_apart : l_es L < l_base L ∨ l_base L + 8 <= l_lo L
}.

(** A word of the line: it begins at [q], and [e] is the delimiter after it. *)
Definition word_ref (L : layout) (m : mem) (q e : Z) (w : list Z) : Prop :=
  word w ∧ l_lo L <= q ∧ e = q + Z.of_nat (length w) ∧ e <= l_es L ∧ word_at m q w ∧ delim (m e).

Definition block_of (al : gmap Z Z) (p n : Z) : Prop := al !! (p - 8) = Some (nunits n).

(** The tree [c] is at [p], in blocks of [al]. *)
Fixpoint node (L : layout) (m : mem) (al : gmap Z Z) (p : Z) (c : cmd) : Prop :=
  match c with
  | CExec argv =>
    block_of al p sizeof_execcmd ∧ load32 m p = EXEC ∧ Z.of_nat (length argv) < MAXARGS
    ∧ (∀ i w, argv !! i = Some w →
         word_ref L m (load32 m (p + execcmd_argv (Z.of_nat i))) (load32 m (p + execcmd_eargv (Z.of_nat i))) w)
    ∧ (∀ x, execcmd_argv (Z.of_nat (length argv)) <= x < execcmd_argv MAXARGS
         ∨ execcmd_eargv (Z.of_nat (length argv)) <= x < execcmd_eargv MAXARGS → m (p + x) = 0)
  | CRedir c d f =>
    block_of al p sizeof_redircmd ∧ load32 m p = REDIR
    ∧ word_ref L m (load32 m (p + redircmd_file)) (load32 m (p + redircmd_efile)) f
    ∧ load32 m (p + redircmd_mode) = rmode d ∧ load32 m (p + redircmd_fd) = rfd d
    ∧ node L m al (load32 m (p + redircmd_cmd)) c
  | CPipe l r =>
    block_of al p sizeof_pipecmd ∧ load32 m p = PIPE
    ∧ node L m al (load32 m (p + pipecmd_left)) l ∧ node L m al (load32 m (p + pipecmd_right)) r
  | CList l r =>
    block_of al p sizeof_listcmd ∧ load32 m p = LIST
    ∧ node L m al (load32 m (p + listcmd_left)) l ∧ node L m al (load32 m (p + listcmd_right)) r
  | CBack c =>
    block_of al p sizeof_backcmd ∧ load32 m p = BACK ∧ node L m al (load32 m (p + backcmd_cmd)) c
  end.

(** ** What stays *)

(** Memory nobody else may write: the program's own, and the allocated blocks. *)
Definition safe (L : layout) (al : gmap Z Z) (x : Z) : Prop :=
  (x < l_e0 L ∧ ¬ (l_base L <= x < l_base L + 8)) ∨ ∃ b n, al !! b = Some n ∧ b + 8 <= x < b + 8 * n.
Definition skept (L : layout) (al : gmap Z Z) (m m' : mem) : Prop := ∀ x, safe L al x → m' x = m x.

#[global] Instance skept_refl L al : Reflexive (skept L al).
Proof. by intros m x _. Qed.
Lemma skept_trans L al al' m m' m'' : al ⊆ al' → skept L al m m' → skept L al' m' m'' → skept L al m m''.
Proof.
  intros Hs H1 H2 x Hx. rewrite H2; [by apply H1|]. destruct Hx as [?|(b & n & Hb & ?)]; [by left|].
  right. exists b, n. split; [by eapply lookup_weaken|done].
Qed.
Lemma block_safe L al p n x : block_of al p n → 0 <= n → p <= x < p + n → safe L al x.
Proof.
  intros Hb Hn Hx. right. exists (p - 8), (nunits n). split; [done|]. unfold nunits. Z.div_mod_to_equations. lia.
Qed.
Lemma line_safe L al x : layout_ok L → l_lo L <= x <= l_es L → safe L al x.
Proof. intros [H1 H2 H3] Hx. left. lia. Qed.

Lemma word_ref_mono L m m' q e w : (∀ x, l_lo L <= x <= l_es L → m' x = m x) → word_ref L m q e w → word_ref L m' q e w.
Proof.
  intros Hm (H1 & H2 & H3 & H4 & H5 & H6). split_and!; try done.
  - intros i c Hi. rewrite <- (H5 i c Hi). apply Hm. pose proof (lookup_lt_Some _ _ _ Hi). lia.
  - rewrite Hm; [done|]. lia.
Qed.
Lemma block_load L al m m' p n x :
  block_of al p n → 0 <= n → 0 <= x → x + 4 <= n → skept L al m m' → load32 m' (p + x) = load32 m (p + x).
Proof.
  intros Hb Hn Hx Hxn Hk. apply load32_frame. intros y Hy. apply Hk. apply (block_safe L al p n); [done|done|lia].
Qed.
Ltac block_eq Hb Hk :=
  repeat match goal with |- context [load32 ?m' (?p + ?x)] =>
    match type of Hk with skept ?L ?al ?m m' =>
      rewrite (block_load L al m m' p _ x Hb) by (done || lia) end end.

Lemma node_mono L m m' al al' p c :
  layout_ok L → al ⊆ al' → skept L al m m' → node L m al p c → node L m' al' p c.
Proof.
  intros HL Hs Hk. assert (Hb : ∀ p n, block_of al p n → block_of al' p n).
  { intros q n. unfold block_of. intros H. by eapply lookup_weaken. }
  assert (Hw : ∀ q e w, word_ref L m q e w → word_ref L m' q e w).
  { intros q e w. apply word_ref_mono. intros x Hx. apply Hk. by apply line_safe. }
  assert (H0 : ∀ p n, block_of al p n → 0 <= n → 4 <= n → load32 m' p = load32 m p).
  { intros q n Hq Hn H4. rewrite <- (Z.add_0_r q). apply (block_load L al m m' q n); [done|lia|lia|lia|done]. }
  revert p. induction c as [argv|c IH d f|l IHl r IHr|l IHl r IHr|c IH]; intros p; cbn [node].
  - intros (H1 & H2 & H3 & H4 & H5). rewrite (H0 p _ H1) by done. split_and!; [auto|done|done| |].
    + intros i w Hi. pose proof (lookup_lt_Some _ _ _ Hi). specialize (H4 i w Hi).
      unfold execcmd_argv, execcmd_eargv, sizeof_execcmd, MAXARGS in *. block_eq H1 Hk. auto.
    + intros x Hx. rewrite Hk; [by apply H5|]. unfold execcmd_argv, execcmd_eargv, sizeof_execcmd, MAXARGS in *.
      apply (block_safe L al p _ _ H1); lia.
  - intros (H1 & H2 & H3 & H4 & H5 & H6). rewrite (H0 p _ H1) by done. unfold sizeof_redircmd in *.
    block_eq H1 Hk. auto 10.
  - intros (H1 & H2 & H3 & H4). rewrite (H0 p _ H1) by done. unfold sizeof_pipecmd in *. block_eq H1 Hk. auto 10.
  - intros (H1 & H2 & H3 & H4). rewrite (H0 p _ H1) by done. unfold sizeof_listcmd in *. block_eq H1 Hk. auto 10.
  - intros (H1 & H2 & H3). rewrite (H0 p _ H1) by done. unfold sizeof_backcmd in *. block_eq H1 Hk. auto 10.
Qed.

(** ** The constructors *)

(** A kernel whose sbrk does not refuse. *)
Class Plenty {E} (K : @kernel E) : Prop := plenty n e r l e' : K (U_sbrk n) e r l e' → r ≠ -1.

Section cons.
Context {E : Type} {K : @kernel E} {brk : E → Z} {SL : SbrkLaw K brk} {PL : Plenty K}.
Context (L : layout) (HL : layout_ok L).
Implicit Types s : ust E.

(** The allocator with at most [k] free blocks, all above the program's own memory. *)
Definition pinv (k : nat) (al : gmap Z Z) s : Prop :=
  ∃ ns, heap (brk := brk) (l_base L) s ns al ∧ (length ns <= k)%nat ∧ (∀ a, covers ns a → l_e0 L <= a)
    ∧ l_e0 L <= brk (u_env s) ∧ ∀ b n, al !! b = Some n → l_e0 L <= b.

(** What a block in use looks like from outside. *)
Lemma pinv_block k al s b n : pinv k al s → al !! b = Some n → l_e0 L <= b ∧ 1 <= n ∧ b + 8 * n < 2 ^ 31.
Proof.
  intros (ns & Hh & _ & _ & _ & Hb) Hal. destruct Hh as [(_ & _ & -> & _)|Hh]; [by rewrite lookup_empty in Hal|].
  split; [by eapply Hb|]. destruct (hp_alloc _ _ _ _ _ Hh _ _ Hal) as (? & _ & ? & _).
  pose proof (hp_bound _ _ _ _ _ Hh) as (_ & _ & ? & _). lia.
Qed.
Lemma pinv_mono k k' al s : (k <= k')%nat → pinv k al s → pinv k' al s.
Proof. intros ? (ns & ? & ? & ?). exists ns. split_and!; [done|lia|tauto..]. Qed.

(** Writing inside a block of one's own. *)
Lemma pinv_write k al s p n m' :
  pinv k al s → block_of al p n → (∀ a, ¬ (p <= a < p + n) → m' a = u_mem s a) → 0 <= n →
  pinv k al (s <| u_mem := m' |>) ∧ skept L (delete (p - 8) al) (u_mem s) m'.
Proof.
  intros Hi Hb Hm Hn. pose proof (pinv_block _ _ _ _ _ Hi Hb) as (He & Hnu & Hlt).
  assert (Hroom : p + n <= p - 8 + 8 * nunits n) by (unfold nunits; Z.div_mod_to_equations; lia).
  destruct Hi as (ns & Hh & Hk & Hc & Hbrk & Hal). split.
  - exists ns. split_and!; try done. apply (heap_write _ _ _ _ (p - 8) (nunits n)); [done|done|].
    intros a Ha. apply Hm. lia.
  - intros x Hx. apply Hm. intros Hpx. destruct Hx as [?|(b & k' & [Hne Hb']%lookup_delete_Some & ?)].
    + lia.
    + destruct Hh as [(_ & _ & -> & _)|Hh]; [by rewrite lookup_empty in Hb'|].
      destruct (hp_disj _ _ _ _ _ Hh _ _ _ _ Hb' Hb ltac:(congruence)); unfold blk_end in *; simpl in *; lia.
Qed.

Lemma new_cmd_uwp k al s n sz t :
  pinv k al s → 4 <= sz <= 100 → is_u32 t → (2 * k + 1 <= n)%nat →
  uwp K only_sbrk (new_cmd (l_base L) sz t n s) (λ p s',
    al !! (p - 8) = None ∧ block_of (<[p - 8 := nunits sz]> al) p sz ∧ pinv (S k) (<[p - 8 := nunits sz]> al) s'
    ∧ skept L al (u_mem s) (u_mem s') ∧ load32 (u_mem s') p = t ∧ ∀ x, 4 <= x < sz → u_mem s' (p + x) = 0).
Proof.
  intros Hi Hsz Ht Hn. pose proof Hi as (ns & Hh & Hk & Hc & Hbrk & Hal). unfold new_cmd. apply uwp_bind.
  eapply uwp_mono; [|apply (malloc_uwp (SL := SL) only_sbrk (λ n _, ex_intro _ n eq_refl) _ n s ns al sz Hh); lia].
  intros p s1 [(_ & (? & ? & ? & ? & Href) & _)|(b & ns' & -> & Hh' & Hfr & Hb & Hcov & Hkept & Hlen)];
    [exfalso; by apply (plenty _ _ _ _ _ Href)|].
  assert (Hi1 : pinv (S k) (<[b := nunits sz]> al) s1).
  { exists ns'. assert (Hcov' : ∀ a, covers ns' a ∨ b <= a < b + 8 * nunits sz → l_e0 L <= a).
    { intros a [?%Hc|?]%Hcov; lia. }
    split_and!; [by right|lia|auto|lia|]. intros b' n' [[<- <-]|[_ H]]%lookup_insert_Some; [|by eapply Hal].
    apply Hcov'. right. unfold nunits. Z.div_mod_to_equations. lia. }
  assert (Hk1 : skept L al (u_mem s) (u_mem s1)).
  { intros x [Hx|(b' & n' & Hb' & Hx)].
    - apply Hkept; [|lia]. intros [?|?%Hc]; lia.
    - destruct (heap_apart _ _ _ _ _ _ x Hh Hb') as [? ?]; [lia|]. apply Hkept; [done|lia]. }
  set (m2 := store32 (memset (u_mem s1) (b + 8) 0 sz) (b + 8) t).
  destruct (pinv_write (S k) _ s1 (b + 8) sz m2 Hi1) as [Hi2 Hk2].
  { unfold block_of. replace (b + 8 - 8) with b by lia. apply lookup_insert_eq. }
  { intros a Ha. unfold m2. rewrite store32_frame by lia. unfold memset. rewrite stosb_lookup, decide_False by lia. done. }
  { lia. }
  replace (b + 8 - 8) with b in Hk2 by lia. rewrite delete_insert_id in Hk2 by done.
  eapply uwp_bind_done; [done|]. eapply uwp_bind_done; [done|]. cbn [uwp mret M_ret]. unfold cmd_type. simpl u_mem.
  rewrite Z.add_0_r. fold m2. unfold block_of. replace (b + 8 - 8) with b by lia. split_and!.
  - done.
  - apply lookup_insert_eq.
  - unfold cmd_type in *. exact Hi2.
  - intros x Hx. rewrite Hk2 by done. by apply Hk1.
  - unfold m2. rewrite load32_store32. by apply u32_small.
  - intros x Hx. unfold m2. rewrite store32_frame by lia. unfold memset. rewrite stosb_lookup, decide_True by lia. done.
Qed.

(** A step of the parser that leaves a new tree behind. *)
Definition grown (k : nat) (al : gmap Z Z) s (p : Z) s' (c : cmd) : Prop :=
  ∃ al', al ⊆ al' ∧ pinv k al' s' ∧ skept L al (u_mem s) (u_mem s') ∧ node L (u_mem s') al' p c.

Lemma node_ptr k al s p c m : pinv k al s → node L m al p c → is_u32 p.
Proof.
  intros Hi Hn. assert (∃ n, 0 <= n ∧ block_of al p n) as (n & Hn0 & Hb).
  { destruct c; destruct Hn as [Hb _]; (eexists; split; [|exact Hb]; done). }
  pose proof (pinv_block _ _ _ _ _ Hi Hb) as (? & ? & ?). pose proof (lo_pos L HL). unfold is_u32. lia.
Qed.
Lemma word_ref_range m q e w : word_ref L m q e w → is_u32 q ∧ is_u32 e.
Proof.
  intros (_ & H1 & H2 & H3 & _). pose proof (lo_pos L HL). unfold is_u32. lia.
Qed.

(** The fields of a new node are filled in. *)
Lemma fill_uwp k al s s1 p sz m' :
  al !! (p - 8) = None → pinv (S k) (<[p - 8 := nunits sz]> al) s1 → skept L al (u_mem s) (u_mem s1) →
  (∀ a, ¬ (p <= a < p + sz) → m' a = u_mem s1 a) → 0 <= sz →
  al ⊆ <[p - 8 := nunits sz]> al ∧ pinv (S k) (<[p - 8 := nunits sz]> al) (s1 <| u_mem := m' |>)
  ∧ skept L al (u_mem s) m' ∧ block_of (<[p - 8 := nunits sz]> al) p sz.
Proof.
  intros Hfr Hi Hk Hm Hsz. assert (Hb : block_of (<[p - 8 := nunits sz]> al) p sz) by apply lookup_insert_eq.
  destruct (pinv_write _ _ _ p sz m' Hi Hb Hm Hsz) as [Hi' Hk']. rewrite delete_insert_id in Hk' by done.
  split_and!; [by apply insert_subseteq|done| |done]. intros x Hx. rewrite Hk' by done. by apply Hk.
Qed.

Lemma execcmd_uwp k al s n :
  pinv k al s → (2 * k + 1 <= n)%nat →
  uwp K only_sbrk (execcmd (l_base L) n s) (λ p s', ∃ al', al ⊆ delete (p - 8) al' ∧ pinv (S k) al' s'
    ∧ skept L al (u_mem s) (u_mem s') ∧ node L (u_mem s') al' p (CExec [])).
Proof.
  intros Hi Hn. eapply uwp_mono; [|by apply (new_cmd_uwp k al s n sizeof_execcmd EXEC)].
  intros p s1 (Hfr & Hb & Hi1 & Hk & Ht & Hz). eexists. split; [|split; [exact Hi1|split; [done|]]].
  { by rewrite delete_insert_id. }
  cbn [node]. split_and!; [done|done|done|done|]. intros x Hx. apply Hz.
  unfold execcmd_argv, execcmd_eargv, sizeof_execcmd, MAXARGS in *. simpl in Hx. lia.
Qed.

Ltac fields := unfold is_u32 in *; repeat (rewrite load32_store32 || rewrite load32_store32_ne by lia);
  rewrite ?u32_small by lia; try done.
Lemma redircmd_uwp k al s n sub file efile c d f :
  pinv k al s → (2 * k + 1 <= n)%nat → node L (u_mem s) al sub c → word_ref L (u_mem s) file efile f →
  uwp K only_sbrk (redircmd (l_base L) sub file efile (rmode d) (rfd d) n s) (λ p s', grown (S k) al s p s' (CRedir c d f)).
Proof.
  intros Hi Hn Hsub Hf. pose proof (node_ptr _ _ _ _ _ _ Hi Hsub) as Hsr. destruct (word_ref_range _ _ _ _ Hf) as [Hfr1 Hfr2].
  unfold redircmd. apply uwp_bind. eapply uwp_mono; [|by apply (new_cmd_uwp k al s n sizeof_redircmd REDIR)].
  intros p s1 (Hfr & Hb & Hi1 & Hk & Ht & _). unfold redircmd_cmd, redircmd_file, redircmd_efile, redircmd_mode, redircmd_fd.
  repeat (eapply uwp_bind_done; [done|]). cbn [uwp mret M_ret u_mem set_field set_u_mem].
  set (m' := store32 _ (p + 20) _).
  destruct (fill_uwp k al s s1 p sizeof_redircmd m' Hfr Hi1 Hk) as (Hs & Hi2 & Hk2 & Hb2).
  { intros a Ha. unfold m', sizeof_redircmd in *. by rewrite !store32_frame by lia. }
  { done. }
  eexists. split_and!; [exact Hs|exact Hi2|exact Hk2|]. cbn [node u_mem set_field set_u_mem].
  assert (Hr : is_u32 (rmode d) ∧ is_u32 (rfd d)) by (by destruct d). destruct Hr as [Hr1 Hr2].
  unfold redircmd_cmd, redircmd_file, redircmd_efile, redircmd_mode, redircmd_fd.
  assert (Hc : load32 m' (p + 4) = sub ∧ load32 m' (p + 8) = file ∧ load32 m' (p + 12) = efile
    ∧ load32 m' (p + 16) = rmode d ∧ load32 m' (p + 20) = rfd d ∧ load32 m' p = REDIR).
  { unfold m'. split_and!; fields. }
  destruct Hc as (-> & -> & -> & -> & -> & ->). split_and!; try done.
  - eapply word_ref_mono; [|exact Hf]. intros x Hx. apply Hk2. by apply line_safe.
  - by eapply node_mono.
Qed.
Lemma pipecmd_uwp k al s n l r cl cr :
  pinv k al s → (2 * k + 1 <= n)%nat → node L (u_mem s) al l cl → node L (u_mem s) al r cr →
  uwp K only_sbrk (pipecmd (l_base L) l r n s) (λ p s', grown (S k) al s p s' (CPipe cl cr)).
Proof.
  intros Hi Hn Hl Hr. pose proof (node_ptr _ _ _ _ _ _ Hi Hl) as Hlr. pose proof (node_ptr _ _ _ _ _ _ Hi Hr) as Hrr.
  unfold pipecmd. apply uwp_bind. eapply uwp_mono; [|by apply (new_cmd_uwp k al s n sizeof_pipecmd PIPE)].
  intros p s1 (Hfr & Hb & Hi1 & Hk & Ht & _). unfold pipecmd_left, pipecmd_right.
  repeat (eapply uwp_bind_done; [done|]). cbn [uwp mret M_ret u_mem set_field set_u_mem]. set (m' := store32 _ (p + 8) _).
  destruct (fill_uwp k al s s1 p sizeof_pipecmd m' Hfr Hi1 Hk) as (Hs & Hi2 & Hk2 & Hb2).
  { intros a Ha. unfold m', sizeof_pipecmd in *. by rewrite !store32_frame by lia. }
  { done. }
  eexists. split_and!; [exact Hs|exact Hi2|exact Hk2|]. cbn [node u_mem set_field set_u_mem].
  unfold pipecmd_left, pipecmd_right.
  assert (Hc : load32 m' (p + 4) = l ∧ load32 m' (p + 8) = r ∧ load32 m' p = PIPE) by (unfold m'; split_and!; fields).
  destruct Hc as (-> & -> & ->). split_and!; try done; by eapply node_mono.
Qed.
Lemma listcmd_uwp k al s n l r cl cr :
  pinv k al s → (2 * k + 1 <= n)%nat → node L (u_mem s) al l cl → node L (u_mem s) al r cr →
  uwp K only_sbrk (listcmd (l_base L) l r n s) (λ p s', grown (S k) al s p s' (CList cl cr)).
Proof.
  intros Hi Hn Hl Hr. pose proof (node_ptr _ _ _ _ _ _ Hi Hl) as Hlr. pose proof (node_ptr _ _ _ _ _ _ Hi Hr) as Hrr.
  unfold listcmd. apply uwp_bind. eapply uwp_mono; [|by apply (new_cmd_uwp k al s n sizeof_listcmd LIST)].
  intros p s1 (Hfr & Hb & Hi1 & Hk & Ht & _). unfold listcmd_left, listcmd_right.
  repeat (eapply uwp_bind_done; [done|]). cbn [uwp mret M_ret u_mem set_field set_u_mem]. set (m' := store32 _ (p + 8) _).
  destruct (fill_uwp k al s s1 p sizeof_listcmd m' Hfr Hi1 Hk) as (Hs & Hi2 & Hk2 & Hb2).
  { intros a Ha. unfold m', sizeof_listcmd in *. by rewrite !store32_frame by lia. }
  { done. }
  eexists. split_and!; [exact Hs|exact Hi2|exact Hk2|]. cbn [node u_mem set_field set_u_mem].
  unfold listcmd_left, listcmd_right.
  assert (Hc : load32 m' (p + 4) = l ∧ load32 m' (p + 8) = r ∧ load32 m' p = LIST) by (unfold m'; split_and!; fields).
  destruct Hc as (-> & -> & ->). split_and!; try done; by eapply node_mono.
Qed.
Lemma backcmd_uwp k al s n p0 c :
  pinv k al s → (2 * k + 1 <= n)%nat → node L (u_mem s) al p0 c →
  uwp K only_sbrk (backcmd (l_base L) p0 n s) (λ p s', grown (S k) al s p s' (CBack c)).
Proof.
  intros Hi Hn Hc0. pose proof (node_ptr _ _ _ _ _ _ Hi Hc0) as Hcr.
  unfold backcmd. apply uwp_bind. eapply uwp_mono; [|by apply (new_cmd_uwp k al s n sizeof_backcmd BACK)].
  intros p s1 (Hfr & Hb & Hi1 & Hk & Ht & _). unfold backcmd_cmd.
  repeat (eapply uwp_bind_done; [done|]). cbn [uwp mret M_ret u_mem set_field set_u_mem]. set (m' := store32 _ (p + 4) _).
  destruct (fill_uwp k al s s1 p sizeof_backcmd m' Hfr Hi1 Hk) as (Hs & Hi2 & Hk2 & Hb2).
  { intros a Ha. unfold m', sizeof_backcmd in *. by rewrite !store32_frame by lia. }
  { done. }
  eexists. split_and!; [exact Hs|exact Hi2|exact Hk2|]. cbn [node u_mem set_field set_u_mem]. unfold backcmd_cmd.
  assert (Hc : load32 m' (p + 4) = p0 ∧ load32 m' p = BACK) by (unfold m'; split_and!; fields).
  destruct Hc as (-> & ->). split_and!; try done; by eapply node_mono.
Qed.
End cons.
