(* ===== verification/ShFacts.v ===== *)
(** * ShFacts: the shell parses what is written

    Every command tree can be written as a line; parsecmd on that line builds
    exactly that tree, with each word a string of its own. *)

From S2P Require Import Prelude Memory Cprintf User Ulib Umalloc UmallocFacts UmallocSpec Sh ShTokens ShHeap.

(** ** Writing commands *)

(** The blanks between words and after symbols. *)
Record style : Type := Style { st_sep : list Z; st_pad : list Z }.
Definition blank (l : list Z) : Prop := Forall (λ c, is_ws c = true) l.
Definition style_ok (y : style) : Prop := st_sep y ≠ [] ∧ blank (st_sep y) ∧ blank (st_pad y).

Definition rsym (d : rdir) : list Z := match d with RIn => [60] | ROut => [62] | RApp => [62; 62] end.
Definition pr_words (y : style) (ws : list (list Z)) : list Z := mjoin ((λ w, w ++ st_sep y) <$> ws).
Definition pr_redir (y : style) (df : rdir * list Z) : list Z := rsym df.1 ++ st_pad y ++ df.2.
Definition pr_redirs (y : style) (rs : list (rdir * list Z)) : list Z := mjoin (pr_redir y <$> rs).

(** The precedence of a command: 0 what parseexec parses, 1 parsepipe, 2
    with ampersands, 3 parseline. *)
Definition level (c : cmd) : nat :=
  match c with CExec _ | CRedir _ _ _ => 0 | CPipe _ _ => 1 | CBack _ => 2 | CList _ _ => 3 end.
Definition paren (y : style) (b : bool) (t : list Z) : list Z :=
  if b then [40] ++ st_pad y ++ t ++ [41] ++ st_pad y else t.
Fixpoint pr (y : style) (lv : nat) (c : cmd) : list Z :=
  paren y (lv <? level c)%nat
    match c with
    | CExec argv => pr_words y argv
    | CRedir c d f => pr y 0 c ++ pr_redir y (d, f)
    | CPipe l r => pr y 0 l ++ [124] ++ st_pad y ++ pr y 1 r
    | CBack c => pr y 2 c ++ [38] ++ st_pad y
    | CList l r => pr y 2 l ++ [59] ++ st_pad y ++ pr y 3 r
    end.

(** The words are words, and there are not too many. *)
Fixpoint cmd_ok (c : cmd) : Prop :=
  match c with
  | CExec argv => Forall word argv ∧ Z.of_nat (length argv) < MAXARGS
  | CRedir c _ f => word f ∧ cmd_ok c
  | CPipe l r | CList l r => cmd_ok l ∧ cmd_ok r
  | CBack c => cmd_ok c
  end.
Fixpoint csize (c : cmd) : nat :=
  match c with
  | CExec argv => 4 + length argv
  | CRedir c _ _ | CBack c => 4 + csize c
  | CPipe l r | CList l r => 4 + csize l + csize r
  end.
Fixpoint wrap (c : cmd) (rs : list (rdir * list Z)) : cmd :=
  match rs with
  | [] => c
  | (d, f) :: rs' => wrap (CRedir c d f) rs'
  end.

(** ** What may come next *)

Definition follow (cs : list Z) (rest : list Z) : Prop := ∀ c, head (lskip rest) = Some c → c ∈ cs.
Definition after_exec : list Z := [124; 38; 59; 41].
Definition after_pipe : list Z := [38; 59; 41].
Definition after_back : list Z := [59; 41].
Definition after_line : list Z := [41].

Lemma follow_mono cs cs' rest : (∀ c, c ∈ cs → c ∈ cs') → follow cs rest → follow cs' rest.
Proof. intros H Hf c Hc. auto. Qed.
Lemma follow_sub1 rest : follow after_pipe rest → follow after_exec rest.
Proof. apply follow_mono. unfold after_pipe, after_exec. set_solver. Qed.
Lemma follow_sub2 rest : follow after_back rest → follow after_pipe rest.
Proof. apply follow_mono. unfold after_pipe, after_back. set_solver. Qed.
Lemma follow_sub3 rest : follow after_line rest → follow after_back rest.
Proof. apply follow_mono. unfold after_line, after_back. set_solver. Qed.
Lemma follow_cons cs c rest : c ∈ cs → is_ws c = false → follow cs (c :: rest).
Proof. intros Hc Hw x. rewrite lskip_nonblank by done. by intros [= <-]. Qed.
Lemma lskip_blank b l : blank b → lskip (b ++ l) = lskip l.
Proof. intros Hb. induction Hb as [|c b Hc Hb IH]; simpl; [done|]. by rewrite Hc. Qed.
(** Blanks at the front do not matter behind more text either. *)
Lemma lskip_app_cong t l l' : lskip l = lskip l' → lskip (t ++ l) = lskip (t ++ l') ∨ ∃ c, c ∈ t ∧ is_ws c = false.
Proof.
  intros H. induction t as [|c t IH]; simpl; [by left|]. destruct (is_ws c) eqn:E.
  - destruct IH as [->|(x & Hx & ?)]; [by left|]. right. exists x. split; [by right|done].
  - right. exists c. split; [by left|done].
Qed.
Lemma lskip_app_suffix t rest : ∃ b, lskip (t ++ rest) = b ++ lskip rest.
Proof.
  induction t as [|c t [b IH]]; simpl; [by exists []|]. destruct (is_ws c); [by exists b|].
  destruct (lskip_suffix rest) as [b' Hb']. exists (c :: t ++ b'). simpl. by rewrite Hb' at 1; rewrite <- app_assoc.
Qed.
Lemma head_lskip_nonblank l c : head (lskip l) = Some c → is_ws c = false.
Proof.
  induction l as [|x l IH]; simpl; [done|]. destruct (is_ws x) eqn:E; [done|]. simpl. by intros [= <-].
Qed.
(** After a symbol of the follow sets a word has ended. *)
Lemma follow_ends rest : follow after_exec rest → ends rest.
Proof.
  intros Hf c Hc. destruct rest as [|x rest]; [done|]. injection Hc as ->. destruct (is_ws c) eqn:E; [right; by left|].
  right; right. specialize (Hf c). rewrite lskip_nonblank in Hf by done. specialize (Hf eq_refl).
  unfold after_exec in Hf. rewrite !elem_of_cons, elem_of_nil in Hf. by destruct Hf as [->|[->|[->|[->|[]]]]].
Qed.
Lemma ends_blank b l : blank b → b ≠ [] → ends (b ++ l).
Proof. intros Hb Hn c. destruct Hb as [|x b Hx Hb]; [done|]. intros [= <-]. right. by left. Qed.
Lemma ends_app b l : blank b → ends l → ends (b ++ l).
Proof. intros Hb Hl. destruct b as [|x b]; [done|]. by apply ends_blank. Qed.
Lemma pr_redirs_ends y rs l : ends l → ends (pr_redirs y rs ++ l).
Proof.
  destruct rs as [|[[| |] f] rs]; [done|..]; intros _ c [= <-]; right; by right.
Qed.

Section parse.
Context {E : Type} {K : @kernel E} {brk : E → Z} {SL : SbrkLaw K brk} {PL : Plenty K}.
Context (L : layout) (HL : layout_ok L) (y : style) (Hy : style_ok y).
Implicit Types s : ust E.
Let base := l_base L.
Let es := l_es L.

(** The suffix [l] of the line is in memory. *)
Definition line (m : mem) (l : list Z) : Prop := text m es l ∧ l_lo L <= pos es l.

Lemma line_suffix m b l : line m (b ++ l) → line m l.
Proof. intros [H1 H2]. split; [by eapply text_app|]. rewrite <- (pos_app es b l). lia. Qed.
Lemma line_lskip m l t rest : line m l → lskip l = lskip (t ++ rest) → line m (lskip rest).
Proof.
  intros H He. destruct (lskip_suffix l) as [b Hb]. destruct (lskip_app_suffix t rest) as [b' Hb'].
  rewrite Hb, He, Hb', app_assoc in H. by eapply line_suffix.
Qed.
Lemma line_self m l : line m l → line m (lskip l).
Proof. intros H. by apply (line_lskip m l [] l). Qed.
Lemma line_kept al m m' l : skept L al m m' → line m l → line m' l.
Proof.
  intros Hk [H1 H2]. split; [|done]. eapply cstr_frame; [|exact H1]. intros x Hx. apply Hk.
  apply line_safe; [done|]. unfold pos, es in *. lia.
Qed.
Lemma line_peek m l toks : line m l →
  peek m (pos es l) es toks = (match head (lskip l) with Some c => in_str toks c | None => false end, pos es (lskip l)).
Proof. intros [H _]. by apply peek_text. Qed.
(** A word of the line. *)
Lemma line_word m w l : line m (w ++ l) → word w → ends l →
  word_ref L m (pos es (w ++ l)) (pos es l) w.
Proof.
  intros [H1 H2] Hw He. split_and!; [done|done| |unfold pos, es; lia| |].
  - by rewrite pos_app.
  - by apply text_word_at.
  - rewrite (text_head _ _ _ (text_app _ _ _ _ H1)). destruct l as [|c l]; [by left|]. by apply He.
Qed.

(** [parser] (with [d] levels of calls to itself) on the text [t], when what
    follows begins with a character of [cs], returns the tree [c]. *)
Definition parses (parser : nat → Z → Z → UM E (Z * Z)) (d : nat) (cs t : list Z) (c : cmd) (sz : nat) : Prop :=
  ∀ l rest fuel n k al s, lskip l = lskip (t ++ rest) → follow cs rest →
    (4 * sz + d <= fuel)%nat → (2 * (k + sz) + 1 <= n)%nat → line (u_mem s) l → pinv (brk := brk) L k al s →
    uwp K only_sbrk (parser fuel (pos es l) es n s) (λ r s',
      r.2 = pos es (lskip rest) ∧ grown (brk := brk) L (k + sz) al s r.1 s' c).

Lemma grown_mono k k' al s p s' c : (k <= k')%nat → grown (brk := brk) L k al s p s' c → grown (brk := brk) L k' al s p s' c.
Proof. intros Hk (al' & H1 & H2 & H3). exists al'. split_and!; [done|by eapply pinv_mono|tauto..]. Qed.
(** A tree built on the way to another. *)
Lemma grown_step k al al1 s s1 p s2 c :
  al ⊆ al1 → skept L al (u_mem s) (u_mem s1) → grown (brk := brk) L k al1 s1 p s2 c → grown (brk := brk) L k al s p s2 c.
Proof.
  intros H1 H2 (al2 & H3 & H4 & H5 & H6). exists al2. split_and!; [by etrans|done| |done]. by eapply skept_trans.
Qed.

(** ** Redirections *)

Definition no_redir (rest : list Z) : Prop := ∀ x, head (lskip rest) = Some x → x ∉ [60; 62].
Lemma parseredirs_none l rest fuel n s p :
  lskip l = lskip rest → no_redir rest → (0 < fuel)%nat → line (u_mem s) l →
  parseredirs base fuel p (pos es l) es n s = Done (p, pos es (lskip rest)) s.
Proof.
  intros Hl Hrest Hf Hline. destruct fuel as [|fuel]; [lia|]. cbn [parseredirs]. erewrite bind_done by done.
  rewrite (line_peek _ _ _ Hline), Hl.
  assert (match head (lskip rest) with Some c => in_str (str "<>") c | None => false end = false) as ->; [|done].
  destruct (head (lskip rest)) as [x|] eqn:Hx; [|done]. specialize (Hrest x Hx).
  rewrite !not_elem_of_cons in Hrest. destruct Hrest as (? & ? & _).
  change (in_str (str "<>") x) with ((x =? 60) || ((x =? 62) || false)). lia.
Qed.

Lemma parseredirs_uwp rs : ∀ l rest fuel n k al s p c,
  lskip l = lskip (pr_redirs y rs ++ rest) → no_redir rest → (rs ≠ [] → ends rest) →
  Forall (λ df, word df.2) rs → (length rs < fuel)%nat → (2 * (k + length rs) + 1 <= n)%nat →
  line (u_mem s) l → pinv (brk := brk) L k al s → node L (u_mem s) al p c →
  uwp K only_sbrk (parseredirs base fuel p (pos es l) es n s) (λ r s',
    r.2 = pos es (lskip rest) ∧ grown (brk := brk) L (k + length rs) al s r.1 s' (wrap c rs)).
Proof.
  induction rs as [|[d f] rs IH]; intros l rest fuel n k al s p c Hl Hrest Hends Hws Hfuel Hn Hline Hi Hp;
    (destruct fuel as [|fuel]; [simpl in Hfuel; lia|]).
  - rewrite (parseredirs_none l rest) by (done || lia). simpl. split; [done|].
    exists al. split_and!; [done| |done|done]. by rewrite Nat.add_0_r.
  - cbn [parseredirs]. eapply uwp_bind_done; [done|]. rewrite (line_peek _ _ _ Hline).
    apply Forall_cons in Hws as [Hf Hws]. simpl in Hf.
    set (l1 := f ++ pr_redirs y rs ++ rest).
    assert (Hl' : lskip l = rsym d ++ st_pad y ++ l1).
    { rewrite Hl. unfold pr_redirs, pr_redir, l1. simpl. rewrite <- !app_assoc.
      by destruct d. }
    assert (Hpad : lskip (st_pad y ++ l1) = l1).
    { rewrite lskip_blank by apply Hy. unfold l1. by apply lskip_word. }
    assert (Hend1 : ends (pr_redirs y rs ++ rest)) by (apply pr_redirs_ends, Hends; done).
    pose proof (line_self _ _ Hline) as Hline'. rewrite Hl' in Hline'.
    assert (Hline1 : line (u_mem s) l1) by (rewrite app_assoc in Hline'; by apply line_suffix in Hline').
    assert (Htok : ∃ tok q e, gettoken (u_mem s) (pos es (lskip l)) es = (tok, q, e, pos es (lskip (st_pad y ++ l1)))
      ∧ tok = match d with RIn => 60 | ROut => 62 | RApp => ch_plus end
      ∧ match head (lskip l) with Some c => in_str (str "<>") c | None => false end = true).
    { rewrite Hl'. destruct d; cbn [rsym app] in Hline' |- *; destruct Hline' as [Ht _]; eexists _, _, _;
        (split; [|done]).
      - apply (gettoken_sym _ _ _ _ _ Ht eq_refl). unfold sym1. set_solver.
      - apply (gettoken_gt _ _ _ _ Ht eq_refl). destruct Hy as (_ & _ & Hb).
        destruct Hb as [|b pad Hb0 Hb]; simpl; [|by intros [= ->]].
        destruct Hf as [Hf0 Hfc]. unfold l1. destruct f as [|x f]; [done|]. apply Forall_cons in Hfc as [(_ & _ & Hx) _].
        simpl. by intros [= ->].
      - apply (gettoken_gtgt _ _ _ _ Ht eq_refl). }
    rewrite Hpad in Htok.
    destruct Htok as (tok & q & e & Htok & Htk & ->). cbn [negb]. rewrite Htok.
    rewrite (gettoken_word _ _ l1 f (pr_redirs y rs ++ rest)); [|apply Hline1|by apply lskip_word|done|done].
    change (ch_a =? ch_a) with true. cbn [negb]. apply uwp_bind.
    pose proof (line_word _ _ _ Hline1 Hf Hend1) as Href.
    assert (Hcons : uwp K only_sbrk ((if tok =? 60 then redircmd base p (pos es l1) (pos es (pr_redirs y rs ++ rest)) SH_O_RDONLY 0
           else if tok =? 62 then redircmd base p (pos es l1) (pos es (pr_redirs y rs ++ rest)) (Z.lor SH_O_WRONLY SH_O_CREATE) 1
           else if tok =? ch_plus then redircmd base p (pos es l1) (pos es (pr_redirs y rs ++ rest)) (Z.lor SH_O_WRONLY SH_O_CREATE) 1
           else mret p) n s) (λ p' s', grown (brk := brk) L (S k) al s p' s' (CRedir c d f))).
    { simpl in Hn. pose proof (redircmd_uwp L HL k al s n p _ _ c d f Hi ltac:(lia) Hp Href) as Hr. rewrite Htk. by destruct d. }
    eapply uwp_mono; [|exact Hcons]. intros p' s' Hg.
    destruct Hg as (al1 & Hs1 & Hi1 & Hk1 & Hn1).
    eapply uwp_mono; [|apply (IH (lskip (pr_redirs y rs ++ rest)) rest fuel n (S k) al1 s' p' (CRedir c d f));
      try done; try (simpl in *; lia)].
    + intros r s2 [Hr Hg2]. split; [done|]. replace (k + length ((d, f) :: rs))%nat with (S k + length rs)%nat by (simpl; lia).
      by eapply grown_step.
    + by rewrite lskip_idemp.
    + intros Hrs. apply Hends. done.
    + apply (line_kept al (u_mem s)); [done|]. apply (line_lskip _ l1 f); [done|done].
Qed.

(** ** Words *)

Lemma skept_mono al al' m m' : al ⊆ al' → skept L al' m m' → skept L al m m'.
Proof.
  intros Hs H x [Hx|(b & n & Hb & Hx)]; apply H; [by left|]. right. exists b, n. split; [by eapply lookup_weaken|done].
Qed.

(** A word is stored in the node. *)
Lemma store_arg k al s p acc q e w m' :
  pinv (brk := brk) L k al s → node L (u_mem s) al p (CExec acc) → word_ref L (u_mem s) q e w →
  Z.of_nat (length acc) + 1 < MAXARGS →
  (∀ a, m' a = store32 (store32 (u_mem s) (p + execcmd_argv (Z.of_nat (length acc))) q)
                 (p + execcmd_eargv (Z.of_nat (length acc))) e a) →
  pinv (brk := brk) L k al (s <| u_mem := m' |>) ∧ skept L (delete (p - 8) al) (u_mem s) m'
  ∧ node L m' al p (CExec (acc ++ [w])).
Proof.
  unfold execcmd_argv, execcmd_eargv, MAXARGS. intros Hi (Hb & Ht & _ & Hargs & Hz) Hw Hlen Hm.
  destruct (word_ref_range L HL _ _ _ _ Hw) as [Hq He]. set (i := Z.of_nat (length acc)) in *.
  assert (Hfr : ∀ a, ¬ (p <= a < p + sizeof_execcmd) → m' a = u_mem s a).
  { intros a Ha. rewrite Hm. unfold sizeof_execcmd, MAXARGS in Ha. rewrite !store32_frame by lia. done. }
  destruct (pinv_write L k al s p sizeof_execcmd m' Hi Hb Hfr ltac:(done)) as [Hi' Hk]. split_and!; [done|done|].
  assert (Hline : ∀ x, l_lo L <= x <= l_es L → m' x = u_mem s x) by (intros x Hx; apply Hk; by apply line_safe).
  assert (Hld : ∀ a, (∀ b, a <= b < a + 4 → m' b = store32 (store32 (u_mem s) (p + (4 + 4 * i)) q) (p + (4 + 4 * 10 + 4 * i)) e b)).
  { intros a b _. apply Hm. }
  cbn [node]. unfold execcmd_argv, execcmd_eargv, MAXARGS. rewrite length_app. simpl length. split_and!; [done| |lia| |].
  - rewrite (load32_frame _ _ _ (Hld p)). by rewrite !load32_store32_ne by lia.
  - intros j v Hj. rewrite (load32_frame _ _ _ (Hld _)), (load32_frame _ _ (p + (4 + 4 * 10 + 4 * Z.of_nat j)) (Hld _)).
    apply lookup_app_Some in Hj as [Hj|[Hj1 Hj]].
    + pose proof (lookup_lt_Some _ _ _ Hj). rewrite !load32_store32_ne by lia.
      eapply word_ref_mono; [exact Hline|]. by apply (Hargs j v).
    + destruct (j - length acc)%nat as [|?] eqn:Ej; [|done]. simpl in Hj. injection Hj as <-.
      replace (Z.of_nat j) with i by lia. unfold is_u32 in *. rewrite load32_store32_ne by lia.
      rewrite !load32_store32, !u32_small by lia. by eapply word_ref_mono.
  - intros x Hx. rewrite Hm, !store32_frame by lia. apply Hz. fold i. unfold execcmd_argv, execcmd_eargv, MAXARGS. lia.
Qed.

#[local] Arguments node : simpl never.

Definition args_post k al s (p : Z) (argc : nat) (rest : list Z) (c : cmd) (argv : list (list Z)) (r : Z * Z * Z) s' : Prop :=
  r.1.2 = Z.of_nat argc ∧ r.2 = pos es (lskip rest)
  ∧ ∃ al', al ⊆ al' ∧ pinv (brk := brk) L k al' s' ∧ skept L (delete (p - 8) al) (u_mem s) (u_mem s')
      ∧ node L (u_mem s') al' r.1.1 c ∧ node L (u_mem s') al' p (CExec argv).

(** The end of the words. *)
Lemma parseargs_end l rest fuel n s p ret argc :
  lskip l = lskip rest → follow after_exec rest → (0 < fuel)%nat → line (u_mem s) l →
  parseargs base fuel p ret argc (pos es l) es n s = Done (ret, argc, pos es (lskip rest)) s.
Proof.
  intros Hl Hf Hfuel Hline. destruct fuel as [|fuel]; [lia|]. cbn [parseargs]. erewrite bind_done by done.
  rewrite (line_peek _ _ _ Hline), Hl. destruct (lskip rest) as [|c r] eqn:Er; cbn [head].
  - rewrite (gettoken_end (u_mem s) es []); [done| |done].
    pose proof (line_self _ _ Hline) as H. rewrite Hl in H. apply H.
  - assert (c ∈ after_exec) as Hc by (apply Hf; by rewrite Er).
    assert (in_str (str "|)&;") c = true) as ->; [|done].
    unfold after_exec in Hc. rewrite !elem_of_cons, elem_of_nil in Hc. by destruct Hc as [->|[->|[->|[->|[]]]]].
Qed.

Lemma pr_words_cons w ws l : pr_words y (w :: ws) ++ l = w ++ st_sep y ++ pr_words y ws ++ l.
Proof. unfold pr_words. simpl. by rewrite <- !app_assoc. Qed.

Lemma word_peek w l toks :
  word w → (∀ c, wordch c → in_str toks c = false) →
  match head (w ++ l) with Some c => in_str toks c | None => false end = false.
Proof. intros [Hw Hc] H. destruct w as [|c w]; [done|]. apply Forall_cons in Hc as [Hc _]. by apply H. Qed.
Lemma wordch_sym toks c : forallb is_sym toks = true → wordch c → in_str toks c = false.
Proof.
  intros Hs (_ & _ & Hc). unfold in_str. apply not_true_is_false. intros H.
  apply existsb_exists in H as (x & Hx & ->%Z.eqb_eq). rewrite forallb_forall in Hs. by rewrite Hs in Hc.
Qed.

(** One word, up to the call that looks for redirections. *)
Lemma parseargs_step w T l fuel n k al s p ret acc Q :
  lskip l = w ++ st_sep y ++ T → word w → Z.of_nat (length acc) + 1 < MAXARGS →
  line (u_mem s) l → pinv (brk := brk) L k al s → node L (u_mem s) al p (CExec acc) →
  (∀ s1, pinv (brk := brk) L k al s1 → skept L (delete (p - 8) al) (u_mem s) (u_mem s1) →
     node L (u_mem s1) al p (CExec (acc ++ [w])) → line (u_mem s1) (lskip T) →
     uwp K only_sbrk (('(ret, ps) ← parseredirs base fuel ret (pos es (lskip T)) es;
       parseargs base fuel p ret (Z.of_nat (length (acc ++ [w]))) ps es) n s1) Q) →
  uwp K only_sbrk (parseargs base (S fuel) p ret (Z.of_nat (length acc)) (pos es l) es n s) Q.
Proof.
  intros Hl Hw Hlen Hline Hi Hp HQ. cbn [parseargs]. eapply uwp_bind_done; [done|]. rewrite (line_peek _ _ _ Hline), Hl.
  rewrite word_peek; [|done|intros c; by apply wordch_sym].
  destruct Hy as (Hsep & Hbl & _). assert (Hend : ends (st_sep y ++ T)) by (by apply ends_blank).
  pose proof (line_self _ _ Hline) as Hline1. rewrite Hl in Hline1.
  rewrite (gettoken_word (u_mem s) es _ w (st_sep y ++ T)); [|apply Hline1|by apply lskip_word|done|done].
  change (ch_a =? 0) with false. change (ch_a =? ch_a) with true. cbn [negb]. cbv iota.
  pose proof (line_word _ _ _ Hline1 Hw Hend) as Href. rewrite (lskip_blank _ _ Hbl).
  eapply uwp_bind_done; [done|]. eapply uwp_bind_done; [done|]. cbn [u_mem set_field set_u_mem]. set (m' := store32 _ _ _).
  destruct (store_arg k al s p acc _ _ w m' Hi Hp Href Hlen ltac:(done)) as (Hi' & Hk & Hn').
  destruct (Z.geb_spec (Z.of_nat (length acc) + 1) MAXARGS); [lia|].
  replace (Z.of_nat (length acc) + 1) with (Z.of_nat (length (acc ++ [w]))) by (rewrite length_app; simpl; lia).
  change (set_u_mem (λ _, m') (set_u_mem _ s)) with (s <| u_mem := m' |>).
  apply HQ; [done|done|done|].
  apply (line_kept (delete (p - 8) al) (u_mem s)); [done|]. rewrite app_assoc in Hline1.
  by apply line_suffix, line_self in Hline1.
Qed.
Lemma parseargs_uwp ws : ∀ w l rs rest fuel n k al s p acc,
  lskip l = lskip (pr_words y (w :: ws) ++ pr_redirs y rs ++ rest) → follow after_exec rest →
  Forall word (w :: ws) → Forall (λ df, word df.2) rs → Z.of_nat (length acc + length (w :: ws)) < MAXARGS →
  (length ws + length rs + 2 < fuel)%nat → (2 * (k + length rs) + 1 <= n)%nat →
  line (u_mem s) l → pinv (brk := brk) L k al s → node L (u_mem s) al p (CExec acc) →
  uwp K only_sbrk (parseargs base fuel p p (Z.of_nat (length acc)) (pos es l) es n s)
    (args_post (k + length rs) al s p (length acc + length (w :: ws)) rest (wrap (CExec (acc ++ w :: ws)) rs) (acc ++ w :: ws)).
Proof.
  induction ws as [|w2 ws IH]; intros w l rs rest fuel n k al s p acc Hl Hf Hws Hrs Hlen Hfuel Hn Hline Hi Hp;
    (destruct fuel as [|fuel]; [lia|]); rewrite pr_words_cons in Hl; apply Forall_cons in Hws as [Hw Hws];
    rewrite (lskip_word w) in Hl by done; apply (parseargs_step w _ _ _ _ k al _ _ _ _ _ Hl Hw); try done;
    try (simpl in Hlen; lia); intros s1 Hi1 Hk1 Hp1 Hline1; apply uwp_bind.
  - simpl app in *. pose proof (follow_ends _ Hf) as He.
    eapply uwp_mono; [|apply (parseredirs_uwp rs _ rest fuel n k al s1 p (CExec (acc ++ [w]))); try done; try (simpl in *; lia)].
    + intros [r ps] s2 [Hps (al2 & Hs2 & Hi2 & Hk2 & Hn2)]. simpl in *. subst ps. assert (Hline2 : line (u_mem s2) (lskip rest)).
      { eapply line_kept; [exact Hk2|]. eapply line_lskip; [exact Hline1|]. apply lskip_idemp. }
      rewrite (parseargs_end (lskip rest) rest); [|apply lskip_idemp|done|lia|done].
      split_and!; simpl; [rewrite length_app; simpl; lia|done|]. exists al2. split; [done|]. split; [done|]. split; [|split; [done|]].
      * intros x Hx. rewrite Hk2; [by apply Hk1|]. destruct Hx as [?|(b & k' & [_ Hb]%lookup_delete_Some & ?)]; [by left|right; eauto].
      * eapply node_mono; [done|exact Hs2|exact Hk2|done].
    + by rewrite lskip_idemp.
    + intros x Hx. specialize (Hf x Hx). unfold after_exec in Hf. set_solver.
  - set (T := pr_words y (w2 :: ws) ++ pr_redirs y rs ++ rest) in *.
    assert (Hw2 : word w2) by (by apply Forall_cons in Hws as [? _]).
    eapply uwp_mono with (Q := λ r s2, r = (p, pos es (lskip T)) ∧ s2 = s1).
    + intros [r ps] s2 [[= -> ->] ->]. eapply uwp_mono; [|apply (IH w2 (lskip T) rs rest fuel n k al s1 p (acc ++ [w]));
        try done; [apply lskip_idemp|rewrite length_app; simpl in *; lia|simpl in *; lia]].
      rewrite <- app_assoc, length_app. simpl. rewrite <- Nat.add_assoc. simpl.
      intros r s2 (H1 & H2 & al2 & Hs2 & Hi2 & Hk2 & Hr2 & Hp2). split_and!; [done|done|]. exists al2. split; [done|]. split; [done|]. split; [|done].
      intros x Hx. rewrite Hk2 by done. by apply Hk1.
    + rewrite (parseredirs_none (lskip T) T); [done|apply lskip_idemp| |lia|done].
      unfold T. rewrite pr_words_cons. intros x. rewrite lskip_word by done. destruct Hw2 as [Hw0 Hwc].
      destruct w2 as [|c w2]; [done|]. intros [= <-]. apply Forall_cons in Hwc as [(_ & _ & Hc) _].
      intros [->|[->|[]%elem_of_nil]%elem_of_cons]%elem_of_cons; done.
Qed.

(** ** parseexec on words and redirections *)

Lemma store32_zero m a b : (∀ x, a <= x < a + 4 → m x = 0) → store32 m a 0 b = m b.
Proof.
  intros H. destruct (decide (a <= b < a + 4)) as [Hb|Hb]; [|by apply store32_frame].
  rewrite (H b Hb). unfold store32. rewrite !store8_lookup. repeat case_decide; try done; lia.
Qed.
(** The terminating null pointers are there already. *)
Lemma exec_finish k al s p argv :
  pinv (brk := brk) L k al s → node L (u_mem s) al p (CExec argv) → ∀ m',
  m' = store32 (store32 (u_mem s) (p + execcmd_argv (Z.of_nat (length argv))) 0) (p + execcmd_eargv (Z.of_nat (length argv))) 0 →
  pinv (brk := brk) L k al (s <| u_mem := m' |>) ∧ ∀ x, m' x = u_mem s x.
Proof.
  intros Hi Hp m' Hm. assert (Hx : ∀ x, m' x = u_mem s x).
  { destruct Hp as (_ & _ & Hlen & _ & Hz). unfold execcmd_argv, execcmd_eargv, MAXARGS in *. intros x. subst m'.
    assert (H0 : ∀ b, store32 (u_mem s) (p + (4 + 4 * Z.of_nat (length argv))) 0 b = u_mem s b).
    { intros b. apply store32_zero. intros z Hzz. replace z with (p + (z - p)) by lia. apply Hz. lia. }
    rewrite store32_zero; [apply H0|]. intros z Hzz. rewrite H0. replace z with (p + (z - p)) by lia. apply Hz. lia. }
  split; [|done]. destruct Hp as (Hb & _). by apply (pinv_write L k al s p sizeof_execcmd m' Hi Hb).
Qed.

Lemma exec_head argv rs rest c :
  Forall word argv → follow after_exec rest →
  head (lskip (pr_words y argv ++ pr_redirs y rs ++ rest)) = Some c → c ≠ 40.
Proof.
  intros Hw Hf. destruct argv as [|w ws].
  - destruct rs as [|[[| |] f] rs]; simpl; [|by intros [= <-]..].
    intros H%Hf ->. unfold after_exec in H. set_solver.
  - apply Forall_cons in Hw as [Hw _]. rewrite pr_words_cons, lskip_word by done. destruct Hw as [Hw Hc].
    destruct w as [|x w]; [done|]. apply Forall_cons in Hc as [(_ & _ & Hc) _]. intros [= <-] ->. done.
Qed.
Lemma follow_no_redir rest : follow after_exec rest → no_redir rest.
Proof. intros Hf x Hx. specialize (Hf x Hx). unfold after_exec in Hf. set_solver. Qed.

(** From the call of parseredirs on. *)
Lemma exec_rest argv rs l rest fuel n k al s p :
  lskip l = lskip (pr_words y argv ++ pr_redirs y rs ++ rest) → follow after_exec rest →
  Forall word argv → Z.of_nat (length argv) < MAXARGS → Forall (λ df, word df.2) rs →
  (length argv + length rs + 3 <= fuel)%nat → (2 * (k + length rs) + 1 <= n)%nat →
  line (u_mem s) l → pinv (brk := brk) L k al s → node L (u_mem s) al p (CExec []) →
  uwp K only_sbrk (('(ret, ps) ← parseredirs base fuel p (pos es l) es;
      parseargs base fuel p ret 0 ps es) n s)
    (args_post (k + length rs) al s p (length argv) rest (wrap (CExec argv) rs) argv).
Proof.
  intros Hl Hf Hw Hlen Hrs Hfuel Hn Hline Hi Hp. apply uwp_bind. destruct argv as [|w ws].
  - simpl app in Hl. pose proof (follow_ends _ Hf) as He.
    eapply uwp_mono; [|apply (parseredirs_uwp rs l rest fuel n k al s p (CExec [])); try done; [by apply follow_no_redir|simpl in *; lia]].
    intros [r ps] s2 [Hps (al2 & Hs2 & Hi2 & Hk2 & Hn2)]. simpl in Hps, Hn2. subst ps.
    rewrite (parseargs_end (lskip rest) rest); [|apply lskip_idemp|done|lia|].
    + split; [done|]. split; [done|]. exists al2. split; [done|]. split; [done|]. split; [|split; [done|]].
      * eapply skept_mono; [apply delete_subseteq|done].
      * eapply node_mono; [done|exact Hs2|exact Hk2|done].
    + eapply line_kept; [exact Hk2|]. by eapply line_lskip.
  - set (T := pr_words y (w :: ws) ++ pr_redirs y rs ++ rest) in *.
    rewrite (parseredirs_none l T); [|done| |lia|done].
    + simpl. apply (parseargs_uwp ws w (lskip T) rs rest fuel n k al s p []); try done; try (simpl in *; lia).
      * apply lskip_idemp.
      * rewrite <- Hl. by apply line_self.
    + intros x. unfold T. apply Forall_cons in Hw as [Hw _]. rewrite pr_words_cons, lskip_word by done. destruct Hw as [Hw Hc].
      destruct w as [|c w]; [done|]. intros [= <-]. apply Forall_cons in Hc as [(_ & _ & Hc) _].
      intros [->|[->|[]%elem_of_nil]%elem_of_cons]%elem_of_cons; done.
Qed.

Lemma parseexec_words argv rs :
  Forall word argv → Z.of_nat (length argv) < MAXARGS → Forall (λ df, word df.2) rs →
  parses (parseexec base) 2 after_exec (pr_words y argv ++ pr_redirs y rs) (wrap (CExec argv) rs) (2 + length argv + length rs).
Proof.
  intros Hw Hlen Hrs l rest fuel n k al s Hl Hf Hfuel Hn Hline Hi. rewrite <- app_assoc in Hl.
  destruct fuel as [|fuel]; [lia|]. cbn [parseexec]. eapply uwp_bind_done; [done|]. rewrite (line_peek _ _ _ Hline).
  assert (match head (lskip l) with Some c => in_str (str "(") c | None => false end = false) as ->.
  { rewrite Hl. destruct (head (lskip (pr_words y argv ++ pr_redirs y rs ++ rest))) as [c|] eqn:Hc; [|done].
    apply exec_head in Hc; [|done|done]. change (in_str (str "(") c) with ((c =? 40) || false). lia. }
  apply uwp_bind. eapply uwp_mono; [|apply (execcmd_uwp L k al s n Hi); lia].
  intros p s1 (al1 & Hs1 & Hi1 & Hk1 & Hp1).
  assert (Hal : al ⊆ al1) by (etrans; [exact Hs1|apply delete_subseteq]).
  assert (Hline1 : line (u_mem s1) (lskip l)) by (eapply line_kept; [exact Hk1|by apply line_self]).
  pose proof (exec_rest argv rs (lskip l) rest fuel n (S k) al1 s1 p) as Hrest.
  rewrite lskip_idemp in Hrest. specialize (Hrest Hl Hf Hw Hlen Hrs ltac:(lia) ltac:(lia) Hline1 Hi1 Hp1).
  apply (uwp_assoc _ _ _ (λ ret ps, parseargs base fuel p ret 0 ps es)). apply uwp_bind. eapply uwp_mono; [|exact Hrest].
  intros [[ret argc] ps] s2 (Ha & Hps & al2 & Hs2 & Hi2 & Hk2 & Hr2 & Hp2). simpl in Ha, Hps. subst argc ps.
  eapply uwp_bind_done; [done|]. eapply uwp_bind_done; [done|]. cbn [uwp mret M_ret u_mem set_field set_u_mem].
  set (m' := store32 _ _ _). destruct (exec_finish _ _ _ _ _ Hi2 Hp2 m' eq_refl) as [Hi3 Hm].
  split; [done|]. exists al2. split; [by etrans|]. split; [|split].
  - eapply pinv_mono; [|exact Hi3]. lia.
  - simpl. intros x Hx. rewrite Hm. rewrite Hk2; [by apply Hk1|].
    destruct Hx as [?|(b & k' & Hb & ?)]; [by left|]. right. exists b, k'. split; [|done]. by eapply lookup_weaken.
  - simpl. eapply node_mono; [done|reflexivity| |exact Hr2]. intros x _. apply Hm.
Qed.

Lemma parses_mono parser d cs t c sz sz' :
  (sz <= sz')%nat → parses parser d cs t c sz → parses parser d cs t c sz'.
Proof.
  intros Hs H l rest fuel n k al s Hl Hf Hfuel Hn Hline Hi.
  eapply uwp_mono; [|apply (H l rest fuel n k al s); try done; lia].
  intros r s' [Hr Hg]. split; [done|]. eapply grown_mono; [|exact Hg]. lia.
Qed.

(** ** The larger constructs *)

(** A symbol is next: it is seen, and taken with the blanks after it. *)
Lemma sym_next m l c T : line m l → lskip l = c :: st_pad y ++ T → sym1 c → ∀ toks,
  peek m (pos es l) es toks = (in_str toks c, pos es (lskip l))
  ∧ (∃ q e, gettoken m (pos es (lskip l)) es = (c, q, e, pos es (lskip T))) ∧ line m (lskip T).
Proof.
  intros Hline Hl Hc toks. pose proof (line_self _ _ Hline) as Hline'. split_and!.
  - by rewrite (line_peek _ _ _ Hline), Hl.
  - eexists _, _. rewrite (gettoken_sym m es (lskip l) c (st_pad y ++ T)); [|apply Hline'|by rewrite lskip_idemp|done].
    destruct Hy as (_ & _ & Hb). by rewrite (lskip_blank _ _ Hb).
  - rewrite Hl, app_comm_cons in Hline'. by apply line_suffix, line_self in Hline'.
Qed.
(** None of [toks] is next. *)
Lemma no_next m l cs toks rest : line m l → lskip l = lskip rest → follow cs rest → (∀ c, c ∈ cs → in_str toks c = false) →
  peek m (pos es l) es toks = (false, pos es (lskip rest)).
Proof.
  intros Hline Hl Hf Hn. rewrite (line_peek _ _ _ Hline), Hl. f_equal.
  destruct (head (lskip rest)) as [c|] eqn:Hc; [|done]. apply Hn, Hf, Hc.
Qed.
Lemma after_back_amp c : c ∈ after_back → in_str (str "&") c = false.
Proof. unfold after_back. intros [->|[->|[]%elem_of_nil]%elem_of_cons]%elem_of_cons; done. Qed.
Lemma after_pipe_bar c : c ∈ after_pipe → in_str (str "|") c = false.
Proof. unfold after_pipe. intros [->|[->|[->|[]%elem_of_nil]%elem_of_cons]%elem_of_cons]%elem_of_cons; done. Qed.
Lemma after_line_semi c : c ∈ after_line → in_str (str ";") c = false.
Proof. unfold after_line. intros [->|[]%elem_of_nil]%elem_of_cons; done. Qed.

(** One parser after the other: the second finds the line and the tree of the
    first. *)
Lemma parses_run parser d cs t c sz (Q : Z * Z → ust E → Prop) l rest fuel n k al s :
  parses parser d cs t c sz → lskip l = lskip (t ++ rest) → follow cs rest →
  (4 * sz + d <= fuel)%nat → (2 * (k + sz) + 1 <= n)%nat → line (u_mem s) l → pinv (brk := brk) L k al s →
  (∀ p s' al', al ⊆ al' → pinv (brk := brk) L (k + sz) al' s' → skept L al (u_mem s) (u_mem s') →
     node L (u_mem s') al' p c → line (u_mem s') (lskip rest) → Q (p, pos es (lskip rest)) s') →
  uwp K only_sbrk (parser fuel (pos es l) es n s) Q.
Proof.
  intros Hp Hl Hf Hfuel Hn Hline Hi HQ. eapply uwp_mono; [|by apply (Hp l rest fuel n k al s)].
  intros [p ps] s' [Hps (al' & Hs & Hi' & Hk & Hnode)]. simpl in Hps, Hnode. subst ps. apply (HQ p s' al'); try done.
  eapply line_kept; [exact Hk|]. by eapply line_lskip.
Qed.

Lemma parses_block t c sz rs :
  parses (parseline base) 4 after_line t c sz → Forall (λ df, word df.2) rs →
  parses (parseexec base) 2 after_exec (paren y true t ++ pr_redirs y rs) (wrap c rs) (2 + sz + length rs).
Proof.
  intros Ht Hrs l rest fuel n k al s Hl Hf Hfuel Hn Hline Hi.
  destruct fuel as [|[|fuel]]; [lia..|]. cbn [parseexec]. eapply uwp_bind_done; [done|].
  set (T2 := pr_redirs y rs ++ rest). set (T1 := t ++ 41 :: st_pad y ++ T2).
  assert (Hl' : lskip l = 40 :: st_pad y ++ T1).
  { rewrite Hl. unfold paren, T1, T2. rewrite <- !app_assoc. done. }
  destruct (sym_next _ _ _ _ Hline Hl' ltac:(unfold sym1; set_solver) (str "(")) as (-> & _ & _).
  change (in_str (str "(") 40) with true. cbv iota. cbn [parseblock]. eapply uwp_bind_done; [done|].
  pose proof (line_self _ _ Hline) as Hline1.
  destruct (sym_next _ (lskip l) 40 T1 Hline1 ltac:(by rewrite lskip_idemp) ltac:(unfold sym1; set_solver) (str "("))
    as (-> & (q & e & Htok) & Hline2).
  change (in_str (str "(") 40) with true. cbn [negb]. cbv iota. rewrite lskip_idemp in Htok. rewrite lskip_idemp, Htok.
  apply uwp_bind. apply (parses_run _ _ _ _ _ _ _ (lskip T1) (41 :: st_pad y ++ T2) fuel n k al s Ht); try done; try lia.
  { apply lskip_idemp. }
  { apply follow_cons; [unfold after_line; set_solver|done]. }
  intros p s1 al1 Hs1 Hi1 Hk1 Hn1 Hline3. eapply uwp_bind_done; [done|]. rewrite lskip_nonblank in * by done.
  destruct (sym_next _ _ 41 T2 Hline3 ltac:(done) ltac:(unfold sym1; set_solver) (str ")")) as (-> & (q2 & e2 & Htok2) & Hline4).
  change (in_str (str ")") 41) with true. cbn [negb]. cbv iota. rewrite Htok2.
  eapply uwp_mono; [|apply (parseredirs_uwp rs (lskip T2) rest fuel n (k + sz) al1 s1 p c); try done; try lia].
  - intros r s2 [Hr Hg]. split; [done|]. eapply grown_step; [exact Hs1|exact Hk1|]. eapply grown_mono; [|exact Hg]. lia.
  - by rewrite lskip_idemp.
  - by apply follow_no_redir.
  - intros _. by apply follow_ends.
Qed.

Lemma parses_pipe0 t c sz :
  parses (parseexec base) 2 after_exec t c sz → parses (parsepipe base) 3 after_pipe t c sz.
Proof.
  intros Ht l rest fuel n k al s Hl Hf Hfuel Hn Hline Hi. destruct fuel as [|fuel]; [lia|]. cbn [parsepipe].
  apply uwp_bind, (parses_run _ _ _ _ _ _ _ l rest fuel n k al s Ht); try done; try lia; [by apply follow_sub1|].
  intros p s1 al1 Hs1 Hi1 Hk1 Hn1 Hline1. eapply uwp_bind_done; [done|].
  rewrite (no_next _ _ after_pipe _ rest Hline1) by (done || apply lskip_idemp || apply after_pipe_bar). simpl.
  split; [done|]. by exists al1.
Qed.
Lemma parses_pipe t u cl cr szl szr :
  parses (parseexec base) 2 after_exec t cl szl → parses (parsepipe base) 3 after_pipe u cr szr →
  parses (parsepipe base) 3 after_pipe (t ++ [124] ++ st_pad y ++ u) (CPipe cl cr) (2 + szl + szr).
Proof.
  intros Ht Hu l rest fuel n k al s Hl Hf Hfuel Hn Hline Hi. destruct fuel as [|fuel]; [lia|]. cbn [parsepipe].
  rewrite <- !app_assoc in Hl. set (T := u ++ rest) in *.
  apply uwp_bind, (parses_run _ _ _ _ _ _ _ l (124 :: st_pad y ++ T) fuel n k al s Ht); try done; try lia.
  { apply follow_cons; [unfold after_exec; set_solver|done]. }
  intros p s1 al1 Hs1 Hi1 Hk1 Hn1 Hline1. eapply uwp_bind_done; [done|]. rewrite lskip_nonblank in * by done.
  destruct (sym_next _ _ 124 T Hline1 ltac:(done) ltac:(unfold sym1; set_solver) (str "|")) as (-> & (q & e & Htok) & Hline2).
  change (in_str (str "|") 124) with true. cbn [negb]. cbv iota. rewrite Htok.
  apply uwp_bind, (parses_run _ _ _ _ _ _ _ (lskip T) rest fuel n (k + szl) al1 s1 Hu); try done; try lia; [apply lskip_idemp|].
  intros p2 s2 al2 Hs2 Hi2 Hk2 Hn2 _. apply uwp_bind.
  eapply uwp_mono; [|apply (pipecmd_uwp L HL (k + szl + szr) al2 s2 n p p2 cl cr); [done|lia|by eapply node_mono|done]].
  intros p3 s3 Hg. split; [done|]. eapply grown_step; [exact Hs1|exact Hk1|]. eapply grown_step; [exact Hs2|exact Hk2|].
  eapply grown_mono; [|exact Hg]. lia.
Qed.

(** Ampersands. *)
Fixpoint amps (j : nat) : list Z := match j with O => [] | S j' => [38] ++ st_pad y ++ amps j' end.
Fixpoint backs (j : nat) (c : cmd) : cmd := match j with O => c | S j' => backs j' (CBack c) end.
Definition parsebacks (fuel : nat) (ps es : Z) : UM E (Z * Z) :=
  '(cmd, ps) ← parsepipe base fuel ps es; parseback base fuel cmd ps es.

Lemma parseback_uwp j : ∀ l rest fuel n k al s p c,
  lskip l = lskip (amps j ++ rest) → follow after_back rest → (j < fuel)%nat → (2 * (k + j) + 1 <= n)%nat →
  line (u_mem s) l → pinv (brk := brk) L k al s → node L (u_mem s) al p c →
  uwp K only_sbrk (parseback base fuel p (pos es l) es n s) (λ r s',
    r.2 = pos es (lskip rest) ∧ grown (brk := brk) L (k + j) al s r.1 s' (backs j c)).
Proof.
  induction j as [|j IH]; intros l rest fuel n k al s p c Hl Hf Hfuel Hn Hline Hi Hp;
    (destruct fuel as [|fuel]; [lia|]); cbn [parseback]; (eapply uwp_bind_done; [done|]).
  - rewrite (no_next _ _ after_back _ rest Hline) by (done || apply after_back_amp). simpl. split; [done|].
    exists al. split; [done|]. rewrite Nat.add_0_r. done.
  - set (T := amps j ++ rest).
    assert (Hl' : lskip l = 38 :: st_pad y ++ T).
    { rewrite Hl. cbn [amps]. unfold T. by rewrite <- !app_assoc. }
    destruct (sym_next _ _ 38 T Hline Hl' ltac:(unfold sym1; set_solver) (str "&")) as (-> & (q & e & Htok) & Hline2).
    change (in_str (str "&") 38) with true. cbn [negb]. cbv iota. rewrite Htok.
    apply uwp_bind. eapply uwp_mono; [|apply (backcmd_uwp L HL k al s n p c); [done|lia|done]].
    intros p1 s1 (al1 & Hs1 & Hi1 & Hk1 & Hn1).
    eapply uwp_mono; [|apply (IH (lskip T) rest fuel n (S k) al1 s1 p1 (CBack c)); try done; try lia].
    + intros r s2 [Hr Hg]. split; [done|]. replace (k + S j)%nat with (S k + j)%nat by lia. by eapply grown_step.
    + by rewrite lskip_idemp.
    + eapply line_kept; [exact Hk1|]. done.
Qed.
Lemma parses_backs t c sz j :
  parses (parsepipe base) 3 after_pipe t c sz → parses parsebacks 3 after_back (t ++ amps j) (backs j c) (sz + 2 * j).
Proof.
  intros Ht l rest fuel n k al s Hl Hf Hfuel Hn Hline Hi. rewrite <- app_assoc in Hl. unfold parsebacks.
  apply uwp_bind, (parses_run _ _ _ _ _ _ _ l (amps j ++ rest) fuel n k al s Ht); try done; try lia.
  { destruct j; [by apply follow_sub2|]. apply follow_cons; [unfold after_pipe; set_solver|done]. }
  intros p s1 al1 Hs1 Hi1 Hk1 Hn1 Hline1.
  eapply uwp_mono; [|apply (parseback_uwp j (lskip (amps j ++ rest)) rest fuel n (k + sz) al1 s1 p c); try done; try lia; apply lskip_idemp].
  intros r s2 [Hr Hg]. split; [done|]. eapply grown_step; [exact Hs1|exact Hk1|]. eapply grown_mono; [|exact Hg]. lia.
Qed.

(** The call of parsepipe and the loop of parseline, then the rest. *)
Lemma parseline_unfold fuel l n s Q :
  uwp K only_sbrk ((parsebacks fuel (pos es l) es ≫= λ '(cmd, ps),
    m ← getm;
    let '(b, ps) := peek m ps es (str ";") in
    if negb b then mret (cmd, ps) else
    let '(_, _, _, ps) := gettoken m ps es in
    '(rcmd, ps) ← parseline base fuel ps es;
    cmd ← listcmd base cmd rcmd;
    mret (cmd, ps)) n s) Q → uwp K only_sbrk (parseline base (S fuel) (pos es l) es n s) Q.
Proof. apply (uwp_assoc _ _ _ (λ cmd ps, parseback base fuel cmd ps es)). Qed.

Lemma parses_line0 t c sz :
  parses parsebacks 3 after_back t c sz → parses (parseline base) 4 after_line t c sz.
Proof.
  intros Ht l rest fuel n k al s Hl Hf Hfuel Hn Hline Hi. destruct fuel as [|fuel]; [lia|]. apply parseline_unfold.
  apply uwp_bind, (parses_run _ _ _ _ _ _ _ l rest fuel n k al s Ht); try done; try lia; [by apply follow_sub3|].
  intros p s1 al1 Hs1 Hi1 Hk1 Hn1 Hline1. eapply uwp_bind_done; [done|].
  rewrite (no_next _ _ after_line _ rest Hline1) by (done || apply lskip_idemp || apply after_line_semi). simpl.
  split; [done|]. by exists al1.
Qed.
Lemma parses_list t u cl cr szl szr :
  parses parsebacks 3 after_back t cl szl → parses (parseline base) 4 after_line u cr szr →
  parses (parseline base) 4 after_line (t ++ [59] ++ st_pad y ++ u) (CList cl cr) (2 + szl + szr).
Proof.
  intros Ht Hu l rest fuel n k al s Hl Hf Hfuel Hn Hline Hi. destruct fuel as [|fuel]; [lia|]. apply parseline_unfold.
  rewrite <- !app_assoc in Hl. set (T := u ++ rest) in *.
  apply uwp_bind, (parses_run _ _ _ _ _ _ _ l (59 :: st_pad y ++ T) fuel n k al s Ht); try done; try lia.
  { apply follow_cons; [unfold after_back; set_solver|done]. }
  intros p s1 al1 Hs1 Hi1 Hk1 Hn1 Hline1. eapply uwp_bind_done; [done|]. rewrite lskip_nonblank in * by done.
  destruct (sym_next _ _ 59 T Hline1 ltac:(done) ltac:(unfold sym1; set_solver) (str ";")) as (-> & (q & e & Htok) & Hline2).
  change (in_str (str ";") 59) with true. cbn [negb]. cbv iota. rewrite Htok.
  apply uwp_bind, (parses_run _ _ _ _ _ _ _ (lskip T) rest fuel n (k + szl) al1 s1 Hu); try done; try lia; [apply lskip_idemp|].
  intros p2 s2 al2 Hs2 Hi2 Hk2 Hn2 _. apply uwp_bind.
  eapply uwp_mono; [|apply (listcmd_uwp L HL (k + szl + szr) al2 s2 n p p2 cl cr); [done|lia|by eapply node_mono|done]].
  intros p3 s3 Hg. split; [done|]. eapply grown_step; [exact Hs1|exact Hk1|]. eapply grown_step; [exact Hs2|exact Hk2|].
  eapply grown_mono; [|exact Hg]. lia.
Qed.

(** ** Every command is parsed back *)

(** What the four levels of the grammar do with their notations of [c]. *)
Definition parsed (c : cmd) : Prop :=
  (∀ rs, Forall (λ df, word df.2) rs →
     parses (parseexec base) 2 after_exec (pr y 0 c ++ pr_redirs y rs) (wrap c rs) (csize c + length rs))
  ∧ parses (parsepipe base) 3 after_pipe (pr y 1 c) c (csize c)
  ∧ (∀ j, parses parsebacks 3 after_back (pr y 2 c ++ amps j) (backs j c) (csize c + 2 * j))
  ∧ parses (parseline base) 4 after_line (pr y 3 c) c (csize c).

(** From a notation at one level to the looser ones. *)
Lemma lift_exec t c sz :
  (∀ rs, Forall (λ df, word df.2) rs → parses (parseexec base) 2 after_exec (t ++ pr_redirs y rs) (wrap c rs) (sz + length rs)) →
  parses (parsepipe base) 3 after_pipe t c sz.
Proof. intros H. apply parses_pipe0. specialize (H [] ltac:(constructor)). simpl in H. by rewrite app_nil_r, Nat.add_0_r in H. Qed.
Lemma lift_back t c sz :
  (∀ j, parses parsebacks 3 after_back (t ++ amps j) (backs j c) (sz + 2 * j)) → parses (parseline base) 4 after_line t c sz.
Proof. intros H. apply parses_line0. specialize (H 0%nat). simpl in H. by rewrite app_nil_r, Nat.add_0_r in H. Qed.
Lemma wrap_block t c sz :
  parses (parseline base) 4 after_line t c sz →
  ∀ rs, Forall (λ df, word df.2) rs → parses (parseexec base) 2 after_exec (paren y true t ++ pr_redirs y rs) (wrap c rs) (2 + sz + length rs).
Proof. intros H rs Hrs. by apply parses_block. Qed.

Lemma parsed_exec0 c t sz : pr y 0 c = t → pr y 1 c = t → pr y 2 c = t → pr y 3 c = t → (sz <= csize c)%nat →
  (∀ rs, Forall (λ df, word df.2) rs → parses (parseexec base) 2 after_exec (t ++ pr_redirs y rs) (wrap c rs) (sz + length rs)) →
  parsed c.
Proof.
  intros H0 H1 H2 H3 Hsz H. unfold parsed. rewrite H0, H1, H2, H3.
  pose proof (lift_exec _ _ _ H) as Hp. pose proof (λ j, parses_backs _ _ _ j Hp) as Hb. pose proof (lift_back _ _ _ Hb) as Hl.
  split_and!; intros; (eapply parses_mono; [|by eauto]); lia.
Qed.

Lemma all_parsed c : cmd_ok c → parsed c.
Proof.
  induction c as [argv|c IH d f|l IHl r IHr|l IHl r IHr|c IH]; cbn [cmd_ok].
  - intros [Hw Hlen]. apply (parsed_exec0 _ (pr_words y argv) (2 + length argv)); [done..|simpl; lia|].
    intros rs Hrs. by apply parseexec_words.
  - intros [Hf [Hc _]%IH]. apply (parsed_exec0 _ (pr y 0 c ++ pr_redir y (d, f)) (1 + csize c)); [done..|simpl; lia|].
    intros rs Hrs. rewrite <- app_assoc. eapply parses_mono; [|apply (Hc ((d, f) :: rs)); by constructor]. simpl. lia.
  - intros [[Hl _]%IHl (_ & Hr & _)%IHr]. specialize (Hl [] ltac:(constructor)). simpl in Hl. rewrite app_nil_r, Nat.add_0_r in Hl.
    pose proof (parses_pipe _ _ _ _ _ _ Hl Hr) as Hp. pose proof (λ j, parses_backs _ _ _ j Hp) as Hb.
    pose proof (lift_back _ _ _ Hb) as Hli. pose proof (wrap_block _ _ _ Hli) as Hx.
    split_and!; intros; (eapply parses_mono; [|by eauto]); simpl; lia.
  - intros [(_ & _ & Hl & _)%IHl (_ & _ & _ & Hr)%IHr]. specialize (Hl 0%nat). simpl in Hl. rewrite app_nil_r, Nat.add_0_r in Hl.
    pose proof (parses_list _ _ _ _ _ _ Hl Hr) as Hli. pose proof (wrap_block _ _ _ Hli) as Hx.
    pose proof (lift_exec _ _ _ Hx) as Hp. pose proof (λ j, parses_backs _ _ _ j Hp) as Hb.
    split_and!; intros; (eapply parses_mono; [|by eauto]); simpl; lia.
  - intros (_ & _ & Hc & _)%IH.
    assert (Hb : ∀ j, parses parsebacks 3 after_back ((pr y 2 c ++ [38] ++ st_pad y) ++ amps j) (backs j (CBack c)) (2 + csize c + 2 * j)).
    { intros j. rewrite <- !app_assoc. eapply parses_mono; [|apply (Hc (S j))]. lia. }
    pose proof (lift_back _ _ _ Hb) as Hli. pose proof (wrap_block _ _ _ Hli) as Hx. pose proof (lift_exec _ _ _ Hx) as Hp.
    split_and!; intros; (eapply parses_mono; [|by eauto]); simpl; lia.
Qed.
End parse.
