(* ===== verification/ShSpec.v ===== *)
(** * ShSpec: parsecmd is the inverse of writing a command down

    nulterminate ends every word of the parsed tree; with that, the round
    trip from a command to its line and back. *)

From S2P Require Import Prelude Memory Cprintf User Ulib Umalloc UmallocFacts UmallocSpec Sh ShTokens ShHeap ShFacts.

(** The tree [c] at [p], with its words as strings: what runcmd is given. *)
Fixpoint tree (m : mem) (p : Z) (c : cmd) : Prop :=
  match c with
  | CExec argv =>
    load32 m p = EXEC
    ∧ (∀ i w, argv !! i = Some w → load32 m (p + execcmd_argv (Z.of_nat i)) ≠ 0
         ∧ cstr m (load32 m (p + execcmd_argv (Z.of_nat i))) w)
    ∧ load32 m (p + execcmd_argv (Z.of_nat (length argv))) = 0
  | CRedir c d f =>
    load32 m p = REDIR ∧ cstr m (load32 m (p + redircmd_file)) f
    ∧ load32 m (p + redircmd_mode) = rmode d ∧ load32 m (p + redircmd_fd) = rfd d
    ∧ load32 m (p + redircmd_cmd) ≠ 0 ∧ tree m (load32 m (p + redircmd_cmd)) c
  | CPipe l r =>
    load32 m p = PIPE ∧ tree m (load32 m (p + pipecmd_left)) l ∧ tree m (load32 m (p + pipecmd_right)) r
  | CList l r =>
    load32 m p = LIST ∧ tree m (load32 m (p + listcmd_left)) l ∧ tree m (load32 m (p + listcmd_right)) r
  | CBack c => load32 m p = BACK ∧ tree m (load32 m (p + backcmd_cmd)) c
  end.

Section nul.
Context {E : Type} {K : @kernel E} {brk : E → Z} {SL : SbrkLaw K brk} {PL : Plenty K}.
Context (L : layout) (HL : layout_ok L).
Implicit Types s : ust E.

(** Delimiters of the line have been overwritten with NULs. *)
Definition nulled (m m' : mem) : Prop :=
  ∀ x, m' x = m x ∨ (l_lo L <= x <= l_es L ∧ delim (m x) ∧ m' x = 0).
#[local] Instance nulled_refl : Reflexive nulled.
Proof. intros m x. by left. Qed.
#[local] Instance nulled_trans : Transitive nulled.
Proof.
  intros m1 m2 m3 H1 H2 x. destruct (H2 x) as [->|(Hx & Hd & ->)]; [apply H1|].
  destruct (H1 x) as [He|(_ & Hd' & _)]; right; [by rewrite <- He | done].
Qed.

(** Blocks from the allocator lie above the line. *)
Definition above (al : gmap Z Z) : Prop := ∀ b n, al !! b = Some n → l_e0 L <= b.

Lemma nulled_load al m m' p n x :
  nulled m m' → above al → block_of al p n → 0 <= x → load32 m' (p + x) = load32 m (p + x).
Proof.
  intros Hm Ha Hb Hx. specialize (Ha _ _ Hb). pose proof (lo_pos L HL). apply load32_frame.
  intros z Hz. destruct (Hm z) as [->|(? & _)]; [done|lia].
Qed.
Lemma nulled_word m m' q e w : nulled m m' → word_ref L m q e w → word_ref L m' q e w.
Proof.
  intros Hm (Hw & H2 & H3 & H4 & H5 & H6). split_and!; try done.
  - intros i c Hi. rewrite <- (H5 i c Hi). destruct (Hm (q + Z.of_nat i)) as [->|(_ & Hd & _)]; [done|].
    rewrite (H5 i c Hi) in Hd. destruct Hw as [_ Hw]. rewrite Forall_lookup in Hw. destruct (Hw i c Hi) as (? & ? & ?).
    destruct Hd as [?|[?|?]]; [lia|congruence..].
  - destruct (Hm e) as [->|(_ & _ & ->)]; [done|by left].
Qed.
Ltac nul_eq Hm Ha Hb :=
  repeat match goal with |- context [load32 ?m' (?p + ?x)] =>
    match type of Hm with nulled ?m m' => rewrite (nulled_load _ m m' p _ x Hm Ha Hb) by (done || lia) end end.

Lemma nulled_node al m m' p c : nulled m m' → above al → node L m al p c → node L m' al p c.
Proof.
  intros Hm Ha. assert (H0 : ∀ p n, block_of al p n → load32 m' p = load32 m p).
  { intros q n Hb. rewrite <- (Z.add_0_r q). by apply (nulled_load al m m' q n). }
  revert p. induction c as [argv|c IH d f|l IHl r IHr|l IHl r IHr|c IH]; intros p; cbn [node].
  - intros (H1 & H2 & H3 & H4 & H5). rewrite (H0 p _ H1). split_and!; [done|done|done| |].
    + intros i w Hi. pose proof (lookup_lt_Some _ _ _ Hi). specialize (H4 i w Hi).
      unfold execcmd_argv, execcmd_eargv, MAXARGS in *. nul_eq Hm Ha H1. by eapply nulled_word.
    + intros x Hx. destruct (Hm (p + x)) as [->|(? & _)]; [by apply H5|].
      pose proof (Ha _ _ H1). pose proof (lo_pos L HL). unfold execcmd_argv, execcmd_eargv, MAXARGS in *. lia.
  - intros (H1 & H2 & H3 & H4 & H5 & H6). rewrite (H0 p _ H1).
    nul_eq Hm Ha H1. split_and!; try done; [by eapply nulled_word | by apply IH].
  - intros (H1 & H2 & H3 & H4). rewrite (H0 p _ H1). nul_eq Hm Ha H1. auto.
  - intros (H1 & H2 & H3 & H4). rewrite (H0 p _ H1). nul_eq Hm Ha H1. auto.
  - intros (H1 & H2 & H3). rewrite (H0 p _ H1). nul_eq Hm Ha H1. auto.
Qed.

(** All words of the tree are ended. *)
Fixpoint ended (m : mem) (p : Z) (c : cmd) : Prop :=
  match c with
  | CExec argv => ∀ i, (i < length argv)%nat → m (load32 m (p + execcmd_eargv (Z.of_nat i))) = 0
  | CRedir c d f => ended m (load32 m (p + redircmd_cmd)) c ∧ m (load32 m (p + redircmd_efile)) = 0
  | CPipe l r => ended m (load32 m (p + pipecmd_left)) l ∧ ended m (load32 m (p + pipecmd_right)) r
  | CList l r => ended m (load32 m (p + listcmd_left)) l ∧ ended m (load32 m (p + listcmd_right)) r
  | CBack c => ended m (load32 m (p + backcmd_cmd)) c
  end.
Lemma nulled_zero m m' x : nulled m m' → m x = 0 → m' x = 0.
Proof. intros Hm H. destruct (Hm x) as [->|(_ & _ & ->)]; done. Qed.
Lemma nulled_ended al m m' p c : nulled m m' → above al → node L m al p c → ended m p c → ended m' p c.
Proof.
  intros Hm Ha. revert p. induction c as [argv|c IH d f|l IHl r IHr|l IHl r IHr|c IH]; intros p; cbn [node ended].
  - intros (H1 & _ & H3 & _) He i Hi. unfold execcmd_eargv, MAXARGS in *. nul_eq Hm Ha H1.
    eapply nulled_zero; [exact Hm|]. by apply He.
  - intros (H1 & _ & _ & _ & _ & H6) [He1 He2]. nul_eq Hm Ha H1. split; [auto|]. by eapply nulled_zero.
  - intros (H1 & _ & H3 & H4) [He1 He2]. nul_eq Hm Ha H1. auto.
  - intros (H1 & _ & H3 & H4) [He1 He2]. nul_eq Hm Ha H1. auto.
  - intros (H1 & _ & H3) He. nul_eq Hm Ha H1. auto.
Qed.

(** A word that is ended is a string. *)
Lemma word_ref_cstr m q e w : word_ref L m q e w → m e = 0 → cstr m q w ∧ q ≠ 0.
Proof.
  intros (Hw & H2 & -> & H4 & H5 & _) H0. pose proof (lo_pos L HL). split; [|lia]. apply cstr_intro; [done| |done].
  destruct Hw as [_ Hw]. eapply Forall_impl; [exact Hw|]. intros c (? & _). simpl. lia.
Qed.
Lemma load32_zero m a : (∀ x, a <= x < a + 4 → m x = 0) → load32 m a = 0.
Proof. intros H. unfold load32. rewrite !H by lia. done. Qed.
Lemma tree_intro al m p c : above al → node L m al p c → ended m p c → tree m p c ∧ p ≠ 0.
Proof.
  intros Ha. pose proof (lo_pos L HL) as Hlo. assert (Hp : ∀ p n, block_of al p n → p ≠ 0).
  { intros q n Hb. specialize (Ha _ _ Hb). lia. }
  revert p. induction c as [argv|c IH d f|l IHl r IHr|l IHl r IHr|c IH]; intros p; cbn [node ended tree].
  - intros (H1 & H2 & H3 & H4 & H5) He. split_and!; [done| | |by eapply Hp].
    + intros i w Hi. specialize (H4 i w Hi). pose proof (lookup_lt_Some _ _ _ Hi) as Hl.
      destruct (word_ref_cstr _ _ _ _ H4 (He i Hl)). done.
    + apply load32_zero. intros x Hx. replace x with (p + (x - p)) by lia. apply H5.
      unfold execcmd_argv, execcmd_eargv, MAXARGS in *. lia.
  - intros (H1 & H2 & H3 & H4 & H5 & H6) [He1 He2]. destruct (word_ref_cstr _ _ _ _ H3 He2). destruct (IH _ H6 He1).
    split_and!; try done. by eapply Hp.
  - intros (H1 & H2 & H3 & H4) [He1 He2]. destruct (IHl _ H3 He1), (IHr _ H4 He2). split_and!; try done. by eapply Hp.
  - intros (H1 & H2 & H3 & H4) [He1 He2]. destruct (IHl _ H3 He1), (IHr _ H4 He2). split_and!; try done. by eapply Hp.
  - intros (H1 & H2 & H3) He. destruct (IH _ H3 He). split_and!; try done. by eapply Hp.
Qed.

(** ** nulterminate *)

Lemma nulled_store m q e w : word_ref L m q e w → nulled m (store8 m e 0) ∧ store8 m e 0 e = 0.
Proof.
  intros (_ & H1 & -> & H2 & _ & Hd). split; [|apply store8_eq]. intros x. rewrite store8_lookup.
  case_decide as Hx; [|by left]. subst x. right. split_and!; [lia..|done|done].
Qed.

Lemma nulterminate_args_done al p argv n : ∀ k i s,
  above al → node L (u_mem s) al p (CExec argv) → (i <= length argv)%nat → (length argv - i < k)%nat →
  (∀ j, (j < i)%nat → u_mem s (load32 (u_mem s) (p + execcmd_eargv (Z.of_nat j))) = 0) →
  ∃ m', nulterminate_args k p (Z.of_nat i) n s = Done tt (s <| u_mem := m' |>)
    ∧ nulled (u_mem s) m' ∧ ended m' p (CExec argv).
Proof.
  induction k as [|k IH]; intros i s Ha Hp Hi Hk Hend; [lia|]. cbn [nulterminate_args].
  erewrite bind_done by done. pose proof Hp as (Hb & _ & Hlen & Hargs & Hz).
  destruct (decide (i = length argv)) as [->|Hne].
  - rewrite load32_zero.
    2: { intros x Hx. replace x with (p + (x - p)) by lia. apply Hz. unfold execcmd_argv, execcmd_eargv, MAXARGS in *. lia. }
    simpl. exists (u_mem s). split; [by destruct s|]. split; [done|]. exact Hend.
  - destruct (lookup_lt_is_Some_2 argv i) as [w Hw]; [lia|]. specialize (Hargs i w Hw).
    assert (Hq : load32 (u_mem s) (p + execcmd_argv (Z.of_nat i)) ≠ 0).
    { destruct Hargs as (_ & ? & _). pose proof (lo_pos L HL). lia. }
    rewrite (proj2 (Z.eqb_neq _ 0) Hq). erewrite bind_done by done.
    destruct (nulled_store _ _ _ _ Hargs) as [Hnul H0]. set (e := load32 _ (p + execcmd_eargv (Z.of_nat i))) in *.
    set (m1 := store8 (u_mem s) e 0) in *. rewrite (bind_done _ _ _ _ tt (s <| u_mem := m1 |>)) by done.
    replace (Z.of_nat i + 1) with (Z.of_nat (S i)) by lia.
    assert (Hld : ∀ j, (j < length argv)%nat → load32 m1 (p + execcmd_eargv (Z.of_nat j)) = load32 (u_mem s) (p + execcmd_eargv (Z.of_nat j))).
    { intros j Hj. apply (nulled_load al _ _ p sizeof_execcmd); try done. unfold execcmd_eargv, MAXARGS. lia. }
    destruct (IH (S i) (s <| u_mem := m1 |>) Ha) as (m' & Hrun & Hnul' & He').
    + change (u_mem (s <| u_mem := m1 |>)) with m1. by apply (nulled_node al (u_mem s)).
    + lia.
    + lia.
    + change (u_mem (s <| u_mem := m1 |>)) with m1. intros j Hj. rewrite Hld by lia. destruct (decide (j = i)) as [->|]; [exact H0|].
      eapply nulled_zero; [exact Hnul|]. apply Hend. lia.
    + exists m'. split; [exact Hrun|]. split; [by etrans|done].
Qed.

Lemma nulterminate_done al n c : ∀ fuel p s,
  above al → node L (u_mem s) al p c → (csize c <= fuel)%nat → (MAXARGS < Z.of_nat n) →
  ∃ m', nulterminate fuel p n s = Done tt (s <| u_mem := m' |>) ∧ nulled (u_mem s) m' ∧ ended m' p c.
Proof.
  intros fuel p s Ha Hp Hfuel Hn. assert (Hne : p ≠ 0).
  { assert (∃ k, block_of al p k) as [k Hb] by (destruct c; destruct Hp as [Hb _]; eauto).
    specialize (Ha _ _ Hb). pose proof (lo_pos L HL). lia. }
  revert fuel p s Hp Hfuel Hne.
  assert (Hstep : ∀ fuel p s t, p ≠ 0 → load32 (u_mem s) p = t → nulterminate (S fuel) p n s =
    (if t =? EXEC then with_fuel (λ k, nulterminate_args k p 0)
    else if t =? REDIR then
      c ← ld32m (p + redircmd_cmd); nulterminate fuel c ;; e ← ld32m (p + redircmd_efile); st8 e 0
    else if t =? PIPE then
      l ← ld32m (p + pipecmd_left); nulterminate fuel l ;; r ← ld32m (p + pipecmd_right); nulterminate fuel r
    else if t =? LIST then
      l ← ld32m (p + listcmd_left); nulterminate fuel l ;; r ← ld32m (p + listcmd_right); nulterminate fuel r
    else if t =? BACK then c ← ld32m (p + backcmd_cmd); nulterminate fuel c
    else mret tt) n s).
  { intros fuel p s t Hp Ht. cbn [nulterminate]. rewrite (proj2 (Z.eqb_neq p 0) Hp).
    rewrite (bind_done _ _ _ _ t s); [done|]. unfold cmd_type. rewrite Z.add_0_r. unfold ld32m, Prelude.gets. by rewrite Ht. }
  assert (Hptr : ∀ m q c, node L m al q c → q ≠ 0).
  { intros m q c' Hq. assert (∃ k, block_of al q k) as [k Hb] by (destruct c'; destruct Hq as [Hb _]; eauto).
    specialize (Ha _ _ Hb). pose proof (lo_pos L HL). lia. }
  induction c as [argv|c IH d f|l IHl r IHr|l IHl r IHr|c IH]; intros fuel p s Hp Hfuel Hne;
    (destruct fuel as [|fuel]; [simpl in Hfuel; lia|]); simpl in Hfuel;
    pose proof Hp as Hp'; cbn [node] in Hp'.
  - destruct Hp' as (_ & Ht & Hlen & _). rewrite (Hstep _ _ _ _ Hne Ht).
    apply (nulterminate_args_done al p argv n n 0 s); try done; lia.
  - destruct Hp' as (Hb & Ht & Hf & _ & _ & Hc). rewrite (Hstep _ _ _ _ Hne Ht). cbv beta iota delta [Z.eqb Pos.eqb EXEC REDIR PIPE LIST BACK].
    erewrite bind_done by done. destruct (IH fuel _ s Hc ltac:(lia) (Hptr _ _ _ Hc)) as (m1 & Hrun & Hn1 & He1).
    rewrite (bind_done _ _ _ _ _ _ Hrun). erewrite bind_done by done. cbn [u_mem set_field set_u_mem].
    pose proof (nulled_word _ _ _ _ _ Hn1 Hf) as Hf1.
    assert (Hld : load32 m1 (p + redircmd_efile) = load32 (u_mem s) (p + redircmd_efile)) by (by apply (nulled_load al _ _ p sizeof_redircmd)).
    rewrite Hld. destruct (nulled_store _ _ _ _ Hf1) as [Hn2 H0]. eexists. split; [reflexivity|].
    assert (Hall : nulled (u_mem s) (store8 m1 (load32 (u_mem s) (p + redircmd_efile)) 0)) by (by etrans). split; [done|].
    cbn [ended]. rewrite !(nulled_load al _ _ p sizeof_redircmd _ Hall Ha Hb) by done. split; [|done].
    apply (nulled_ended al m1); try done. by apply (nulled_node al (u_mem s)).
  - destruct Hp' as (Hb & Ht & Hl & Hr). rewrite (Hstep _ _ _ _ Hne Ht). cbv beta iota delta [Z.eqb Pos.eqb EXEC REDIR PIPE LIST BACK].
    erewrite bind_done by done. destruct (IHl fuel _ s Hl ltac:(lia) (Hptr _ _ _ Hl)) as (m1 & Hrun & Hn1 & He1).
    rewrite (bind_done _ _ _ _ _ _ Hrun). erewrite bind_done by done. cbn [u_mem set_field set_u_mem].
    rewrite (nulled_load al _ _ p sizeof_pipecmd _ Hn1 Ha Hb) by done.
    pose proof (nulled_node _ _ _ _ _ Hn1 Ha Hr) as Hr1.
    destruct (IHr fuel (load32 (u_mem s) (p + pipecmd_right)) (s <| u_mem := m1 |>)) as (m2 & Hrun2 & Hn2 & He2);
      [exact Hr1|lia|exact (Hptr _ _ _ Hr)|].
    exists m2. split; [exact Hrun2|]. assert (Hall : nulled (u_mem s) m2) by (by etrans). split; [done|].
    cbn [ended]. rewrite !(nulled_load al _ _ p sizeof_pipecmd _ Hall Ha Hb) by done. split; [|done].
    apply (nulled_ended al m1); try done. by apply (nulled_node al (u_mem s)).
  - destruct Hp' as (Hb & Ht & Hl & Hr). rewrite (Hstep _ _ _ _ Hne Ht). cbv beta iota delta [Z.eqb Pos.eqb EXEC REDIR PIPE LIST BACK].
    erewrite bind_done by done. destruct (IHl fuel _ s Hl ltac:(lia) (Hptr _ _ _ Hl)) as (m1 & Hrun & Hn1 & He1).
    rewrite (bind_done _ _ _ _ _ _ Hrun). erewrite bind_done by done. cbn [u_mem set_field set_u_mem].
    rewrite (nulled_load al _ _ p sizeof_listcmd _ Hn1 Ha Hb) by done.
    pose proof (nulled_node _ _ _ _ _ Hn1 Ha Hr) as Hr1.
    destruct (IHr fuel (load32 (u_mem s) (p + listcmd_right)) (s <| u_mem := m1 |>)) as (m2 & Hrun2 & Hn2 & He2);
      [exact Hr1|lia|exact (Hptr _ _ _ Hr)|].
    exists m2. split; [exact Hrun2|]. assert (Hall : nulled (u_mem s) m2) by (by etrans). split; [done|].
    cbn [ended]. rewrite !(nulled_load al _ _ p sizeof_listcmd _ Hall Ha Hb) by done. split; [|done].
    apply (nulled_ended al m1); try done. by apply (nulled_node al (u_mem s)).
  - destruct Hp' as (Hb & Ht & Hc). rewrite (Hstep _ _ _ _ Hne Ht). cbv beta iota delta [Z.eqb Pos.eqb EXEC REDIR PIPE LIST BACK].
    erewrite bind_done by done. destruct (IH fuel _ s Hc ltac:(lia) (Hptr _ _ _ Hc)) as (m1 & Hrun & Hn1 & He1).
    exists m1. split; [exact Hrun|]. split; [done|]. cbn [ended]. by rewrite (nulled_load al _ _ p sizeof_backcmd _ Hn1 Ha Hb) by done.
Qed.
End nul.

(** ** The round trip *)

Lemma strlen_done fuel m p l : cstr m p l → (length l < fuel)%nat → strlen fuel m p = Some (Z.of_nat (length l)).
Proof.
  intros Hl Hf. unfold strlen. assert (Hgen : ∀ fuel n l, cstr m (p + n) l → (length l < fuel)%nat →
    strlen_loop fuel m p n = Some (n + Z.of_nat (length l))).
  { clear. induction fuel as [|fuel IH]; intros n l Hl Hf; [lia|]. destruct l as [|c l]; simpl in *.
    - rewrite Hl. simpl. f_equal. lia.
    - destruct Hl as (-> & Hc & Hl). rewrite (proj2 (Z.eqb_neq c 0) Hc). simpl.
      replace (p + n + 1) with (p + (n + 1)) in Hl by lia. rewrite (IH _ l) by (done || lia). f_equal. lia. }
  rewrite (Hgen fuel 0 l); [done|by rewrite Z.add_0_r|done].
Qed.

(** C23: parsecmd is the inverse of writing a command down.  For every command
    tree whose words are words of the shell (and fewer than MAXARGS to a command), written as a line with any blanks, with parentheses
    where the grammar needs them, parsecmd terminates and returns that tree:
    every node has its type, every redirection its file, mode
    and descriptor, and every word is a string of its own inside the line.  Nothing is printed, and
    the only system call is sbrk. *)
Theorem parsecmd_roundtrip {E} {K : @kernel E} {brk : E → Z} {SL : SbrkLaw K brk} {PL : Plenty K}
    base buf y c trail n s :
  let l := pr y 3 c ++ trail in
  style_ok y → blank trail → cmd_ok c → cstr (u_mem s) buf l → u_freep s = 0 →
  layout_ok (Layout base buf (buf + Z.of_nat (length l)) (brk (u_env s))) →
  (4 * csize c + length l + 11 <= n)%nat →
  uwp K only_sbrk (parsecmd base buf n s) (λ p s', tree (u_mem s') p c ∧ p ≠ 0).
Proof.
  intros l Hy Htr Hok Hl Hfp HL Hn. set (L := Layout _ _ _ _) in HL. set (es := l_es L).
  assert (Hpos : pos es l = buf) by (unfold pos, es, L; simpl; lia).
  assert (Hline : line L (u_mem s) l) by (split; [unfold text; fold es; rewrite Hpos; done|fold es; rewrite Hpos; done]).
  assert (Hi : pinv (brk := brk) L 1 ∅ s).
  { pose proof (lo_pos L HL). pose proof (lo_base L HL). exists [(base, 0)]. split; [left; simpl in *; split_and!; try done; lia|].
    split; [done|]. split; [|split; [done|intros b k; by rewrite lookup_empty]].
    intros a (x & ->%list_elem_of_singleton & Ha). unfold blk_end in Ha. simpl in Ha. lia. }
  destruct (all_parsed L HL y Hy c Hok) as (_ & _ & _ & Hp).
  unfold parsecmd. eapply uwp_bind_done; [apply bounded_done, (strlen_done _ _ _ l Hl); lia|].
  change (buf + Z.of_nat (length l)) with es. apply uwp_bind. unfold with_fuel at 1. rewrite <- Hpos at 1.
  assert (Hskip : lskip trail = []) by (rewrite <- (app_nil_r trail); by apply lskip_blank).
  apply (parses_run L HL _ _ _ _ _ _ _ l trail n n 1 ∅ s Hp); try done; try lia.
  { intros c'. by rewrite Hskip. }
  intros p s1 al1 _ Hi1 _ Hn1 Hline1. rewrite Hskip in Hline1 |- *. eapply uwp_bind_done; [done|].
  pose proof (line_peek L (u_mem s1) [] [] Hline1) as Hpk. fold es in Hpk |- *. rewrite Hpk.
  assert (pos es [] = es) as Hes by (unfold pos; simpl; lia). cbn [lskip]. rewrite Hes, Z.eqb_refl. cbn [negb].
  destruct (nulterminate_done L HL al1 n c n p s1) as (m' & Hrun & Hnul & He); [|done|lia|unfold MAXARGS; lia|].
  { by destruct Hi1 as (ns & _ & _ & _ & _ & ?). }
  eapply uwp_bind_done; [exact Hrun|]. cbn [uwp mret M_ret u_mem set_field set_u_mem].
  assert (Ha : above L al1) by (by destruct Hi1 as (ns & _ & _ & _ & _ & ?)).
  apply (tree_intro L HL al1); [done| |done]. by apply (nulled_node L HL al1 (u_mem s1)).
Qed.

Lemma sbrk_demo_plenty : Plenty sbrk_demo.
Proof. intros n e r l e' (H & _ & -> & _). lia. Qed.
(** ls | (grep x; wc) > out & *)
Definition cmd_demo : cmd :=
  CBack (CPipe (CExec [str "ls"]) (CRedir (CList (CExec [str "grep"; str "x"]) (CExec [str "wc"])) ROut (str "out"))).
Definition style_demo : style := Style [32] [32].
Definition line_demo : list Z := pr style_demo 3 cmd_demo ++ [10].
Definition ust_sh : ust Z := U (store_bytes (λ _, 0) 0x1000 line_demo) 0 0 [] 0x4000.
Lemma parsecmd_roundtrip_witness :
  uwp sbrk_demo only_sbrk (parsecmd 0x2000 0x1000 400%nat ust_sh) (λ p s', tree (u_mem s') p cmd_demo ∧ p ≠ 0).
Proof.
  refine (@parsecmd_roundtrip _ _ _ sbrk_demo_law sbrk_demo_plenty 0x2000 0x1000 style_demo cmd_demo [10] 400%nat ust_sh _ _ _ _ _ _ _).
  - split; [intros H; discriminate H|split; repeat constructor].
  - repeat constructor.
  - repeat split; try (intros H; discriminate H); repeat (constructor; try reflexivity; try (intros H; discriminate H)); reflexivity.
  - vm_compute. repeat split; intros H; discriminate H.
  - reflexivity.
  - split; vm_compute; [repeat split; intros H; discriminate H|intros H; discriminate H|left; reflexivity].
  - vm_compute. lia.
Defined.
