(* ===== verification/Progs.v ===== *)
(** * Progs: the small user programs

    cat, echo, ls, wc, ln, mkdir, rm, kill, init, halt, zombie, proc_creater,
    and the programs that exercise one system call each (test_*.c, forktest,
    stressfs), and date.c.  main gets [argc] and [argv], the address of its vector of
    strings.  The addresses of static and automatic arrays are the compiler's
    and the linker's, parameters here.  A command that calls a function twice
    in one argument list is written in the order of the text. *)

From S2P Require Import Prelude Memory Cprintf User Ulib Grep Sh.

Definition O_RDONLY : Z := SH_O_RDONLY.
Definition O_WRONLY : Z := SH_O_WRONLY.
Definition O_RDWR : Z := SH_O_RDWR.
Definition O_CREATE : Z := SH_O_CREATE.
Definition U_T_DIR : Z := 1.
Definition U_T_FILE : Z := 2.
Definition U_T_DEV : Z := 3.

(** struct stat and struct dirent in memory *)
Definition off_st_type : Z := 0.
Definition off_st_ino : Z := 8.
Definition off_st_size : Z := 16.
Definition U_DIRSIZ : Z := 14.
Definition sizeof_de : Z := 16.
Definition off_de_inum : Z := 0.
Definition off_de_name : Z := 2.

Section progs.
Context {E : Type}.

(** [atoi] on a program's memory *)
Definition atoi_at (s : Z) : UM E Z := bounded (λ f m, atoi f m s).
Definition strlen_at (s : Z) : UM E Z := bounded (λ f m, strlen f m s).
(** a call whose value is not used *)
Definition do_sys (w : ucall) : UM E unit := _ ← sys w; mret tt.

(** ** cat.c *)

Definition sizeof_catbuf : Z := 512.

Fixpoint cat_loop (fuel : nat) (buf fd : Z) : UM E Z :=
  match fuel with
  | O => out_of_fuel
  | S fuel' =>
    n ← read_at fd buf sizeof_catbuf;
    if n <=? 0 then mret n else
    r ← write_at 1 buf n;
    if negb (r =? n) then printf 1 "cat: write error\n" [] ;; exit else
    cat_loop fuel' buf fd
  end.
Definition cat (buf fd : Z) : UM E unit :=
  n ← with_fuel (λ fuel, cat_loop fuel buf fd);
  if n <? 0 then printf 1 "cat: read error\n" [] ;; exit else mret tt.

Definition cat_main (buf argc argv : Z) : UM E unit :=
  if argc <=? 1 then cat buf 0 ;; exit else
  forM (seqZ 1 (argc - 1)) (λ i,
    a ← arg argv i;
    fd ← open_at a 0;
    if fd <? 0 then printf 1 "cat: cannot open %s\n" [W a] ;; exit else
    cat buf fd ;;
    do_sys (U_close fd)) ;;
  exit.

(** ** echo.c *)

Definition echo_main (argc argv : Z) : UM E unit :=
  forM (seqZ 1 (argc - 1)) (λ i,
    a ← arg argv i;
    printf 1 "%s%s" [W a; L (if i + 1 <? argc then [ch_space] else [ch_nl])]) ;;
  exit.

(** ** ls.c *)

(** [for(p = path + k; p >= path && *p != '/'; p--) ; p++], [k] = strlen(path) *)
Fixpoint after_slash (k : nat) (m : mem) (path : Z) : Z :=
  if m (path + Z.of_nat k) =? 47 then path + Z.of_nat k + 1 else
  match k with O => path | S k' => after_slash k' m path end.
Definition fmtname (buf path : Z) : UM E Z :=
  n ← strlen_at path;
  m ← getm;
  let p := after_slash (Z.to_nat n) m path in
  n ← strlen_at p;
  if n >=? U_DIRSIZ then mret p else
  modm (λ m, memmove m buf p n) ;;
  n ← strlen_at p;
  modm (λ m, memset m (buf + n) ch_space (U_DIRSIZ - n)) ;;
  mret buf.

(** One line of the listing, from the struct stat at [st]. *)
Definition ls_line (nbuf path st : Z) : UM E unit :=
  f ← fmtname nbuf path;
  m ← getm;
  printf 1 "%s %d %d %d\n"
    [W f; W (s16 (load16 m (st + off_st_type))); W (load32 m (st + off_st_ino)); W (load32 m (st + off_st_size))].

Fixpoint ls_entries (fuel : nat) (nbuf buf p de st fd : Z) : UM E unit :=
  match fuel with
  | O => out_of_fuel
  | S fuel' =>
    n ← read_at fd de sizeof_de;
    if negb (n =? sizeof_de) then mret tt else
    m ← getm;
    if load16 m (de + off_de_inum) =? 0 then ls_entries fuel' nbuf buf p de st fd else
    modm (λ m, memmove m p (de + off_de_name) U_DIRSIZ) ;;
    st8 (p + U_DIRSIZ) 0 ;;
    r ← stat buf st;
    (if r <? 0 then printf 1 "ls: cannot stat %s\n" [W buf] else ls_line nbuf buf st) ;;
    ls_entries fuel' nbuf buf p de st fd
  end.

Definition sizeof_lsbuf : Z := 512.
Definition ls (nbuf buf de st path : Z) : UM E unit :=
  fd ← open_at path 0;
  if fd <? 0 then printf 2 "ls: cannot open %s\n" [W path] else
  r ← fstat_at fd st;
  if r <? 0 then printf 2 "ls: cannot stat %s\n" [W path] ;; do_sys (U_close fd) else
  m ← getm;
  let type := s16 (load16 m (st + off_st_type)) in
  (if (type =? U_T_FILE) || (type =? U_T_DEV) then ls_line nbuf path st
   else if type =? U_T_DIR then
     n ← strlen_at path;
     if n +u 1 +u U_DIRSIZ +u 1 >? sizeof_lsbuf then printf 1 "ls: path too long\n" [] else
     m ← bounded (λ f m, strcpy f m buf path);
     modm (λ _, m) ;;
     n ← strlen_at buf;
     st8 (buf + n) 47 ;;
     with_fuel (λ fuel, ls_entries fuel nbuf buf (buf + n + 1) de st fd)
   else mret tt) ;;
  do_sys (U_close fd).
(** [dot] is the address of the constant for the current directory. *)
Definition ls_main (nbuf buf de st dot argc argv : Z) : UM E unit :=
  if argc <? 2 then ls nbuf buf de st dot ;; exit else
  forM (seqZ 1 (argc - 1)) (λ i, a ← arg argv i; ls nbuf buf de st a) ;;
  exit.

(** ** wc.c *)

Definition sizeof_wcbuf : Z := 512.
Definition wc_blanks : list Z := [32; 13; 9; 10; 11].

(** lines, words, characters, and whether the last one was in a word *)
Record wcs := Wc { wc_l : Z; wc_w : Z; wc_c : Z; wc_inword : bool }.

Definition wc_char (x : wcs) (ch : Z) : wcs :=
  let c := s32 (wc_c x + 1) in
  let l := if ch =? ch_nl then s32 (wc_l x + 1) else wc_l x in
  if in_str wc_blanks ch then Wc l (wc_w x) c false
  else if wc_inword x then Wc l (wc_w x) c true
  else Wc l (s32 (wc_w x + 1)) c true.
(** [for(i = 0; i < n; i++)] over buf *)
Fixpoint wc_chars (k : nat) (m : mem) (p : Z) (x : wcs) : wcs :=
  match k with
  | O => x
  | S k' => wc_chars k' m (p + 1) (wc_char x (m p))
  end.
Fixpoint wc_loop (fuel : nat) (buf fd : Z) (x : wcs) : UM E (Z * wcs) :=
  match fuel with
  | O => out_of_fuel
  | S fuel' =>
    n ← read_at fd buf sizeof_wcbuf;
    if n <=? 0 then mret (n, x) else
    m ← getm;
    wc_loop fuel' buf fd (wc_chars (Z.to_nat n) m buf x)
  end.
Definition wc (buf fd : Z) (name : uarg) : UM E unit :=
  '(n, x) ← with_fuel (λ fuel, wc_loop fuel buf fd (Wc 0 0 0 false));
  if n <? 0 then printf 1 "wc: read error\n" [] ;; exit else
  printf 1 "%d %d %d %s\n" [W (wc_l x); W (wc_w x); W (wc_c x); name].

Definition wc_main (buf argc argv : Z) : UM E unit :=
  if argc <=? 1 then wc buf 0 (L []) ;; exit else
  forM (seqZ 1 (argc - 1)) (λ i,
    a ← arg argv i;
    fd ← open_at a 0;
    if fd <? 0 then printf 1 "wc: cannot open %s\n" [W a] ;; exit else
    wc buf fd (W a) ;;
    do_sys (U_close fd)) ;;
  exit.

(** ** ln.c, mkdir.c, rm.c, kill.c *)

Definition ln_main (argc argv : Z) : UM E unit :=
  if negb (argc =? 3) then printf 2 "Usage: ln old new\n" [] ;; exit else
  a ← arg argv 1; b ← arg argv 2;
  old ← string_at a; new ← string_at b;
  r ← sys (U_link old new);
  (if r <? 0 then printf 2 "link %s %s: failed\n" [W a; W b] else mret tt) ;;
  exit.

(** The loop of mkdir and rm: one call for each argument, until one fails. *)
Fixpoint each_arg (call : list Z → ucall) (msg : string) (k : nat) (argv i : Z) : UM E unit :=
  match k with
  | O => mret tt
  | S k' =>
    a ← arg argv i;
    path ← string_at a;
    r ← sys (call path);
    if r <? 0 then printf 2 msg [W a] else each_arg call msg k' argv (i + 1)
  end.
Definition mkdir_main (argc argv : Z) : UM E unit :=
  if argc <? 2 then printf 2 "Usage: mkdir files...\n" [] ;; exit else
  each_arg U_mkdir "mkdir: %s failed to create\n" (Z.to_nat (argc - 1)) argv 1 ;;
  exit.
Definition rm_main (argc argv : Z) : UM E unit :=
  if argc <? 2 then printf 2 "Usage: rm files...\n" [] ;; exit else
  each_arg U_unlink "rm: %s failed to delete\n" (Z.to_nat (argc - 1)) argv 1 ;;
  exit.
Definition kill_main (argc argv : Z) : UM E unit :=
  if argc <? 2 then printf 2 "usage: kill pid...\n" [] ;; exit else
  forM (seqZ 1 (argc - 1)) (λ i, a ← arg argv i; pid ← atoi_at a; do_sys (U_kill pid)) ;;
  exit.

(** ** init.c *)

(** [while((wpid = wait()) >= 0 && wpid != pid) printf(...)] *)
Fixpoint init_wait (fuel : nat) (pid : Z) : UM E unit :=
  match fuel with
  | O => out_of_fuel
  | S fuel' =>
    wpid ← sys U_wait;
    if (wpid >=? 0) && negb (wpid =? pid) then printf 1 "zombie!\n" [] ;; init_wait fuel' pid
    else mret tt
  end.
Fixpoint init_loop (fuel : nat) : UM E unit :=
  match fuel with
  | O => out_of_fuel
  | S fuel' =>
    printf 1 "init: starting sh\n" [] ;;
    pid ← sys U_fork;
    if pid <? 0 then printf 1 "init: fork failed\n" [] ;; exit else
    if pid =? 0 then
      do_sys (U_exec (str "sh") [str "sh"]) ;;
      printf 1 "init: exec sh failed\n" [] ;;
      exit
    else
    with_fuel (λ f, init_wait f pid) ;;
    init_loop fuel'
  end.
Definition init_main : UM E unit :=
  fd ← sys (U_open (str "console") O_RDWR);
  (if fd <? 0 then
     do_sys (U_mknod (str "console") 1 1) ;;
     do_sys (U_open (str "console") O_RDWR)
   else mret tt) ;;
  do_sys (U_dup 0) ;;
  do_sys (U_dup 0) ;;
  with_fuel init_loop.

(** ** halt.c, zombie.c, proc_creater.c *)

Definition halt_main : UM E unit := do_sys U_halt ;; exit.

Definition zombie_main : UM E unit :=
  pid ← sys U_fork;
  (if pid >? 0 then do_sys (U_sleep 5) else mret tt) ;;
  exit.

(** [for(int j = 1; j < 1000000000; j++) p = p + j * p;] *)
Definition burn (p : Z) : Z :=
  (Z.iter (10 ^ 9 - 1) (λ x : Z * Z, (x.1 + 1, s32 (x.2 + x.1 * x.2))) (1, p)).2.
Fixpoint proc_creater_loop (k : nat) : UM E unit :=
  match k with
  | O => mret tt
  | S k' =>
    id ← sys U_fork;
    if id <? 0 then pid ← sys U_getpid; printf 1 "%d couldn't create child\n" [W pid] ;; proc_creater_loop k'
    else if id >? 0 then
      pid ← sys U_getpid; printf 1 "parent = %d\n" [W pid] ;;
      do_sys U_wait ;;
      proc_creater_loop k'
    else
      pid ← sys U_getpid; printf 1 "Child = %d\n" [W pid] ;;
      let p := burn 1 in
      mret tt
  end.
Definition proc_creater_main (argc argv : Z) : UM E unit :=
  n ← (if argc <? 2 then mret 1 else a ← arg argv 1; atoi_at a);
  let n := if (n <? 0) || (n >? 20) then 2 else n in
  proc_creater_loop (Z.to_nat n) ;;
  exit.

(** ** The programs for one system call each *)

Definition test_chpr_main (argc argv : Z) : UM E unit :=
  if argc <? 3 then printf 2 "Usage: test_chpr pid priority\n" [] ;; exit else
  a ← arg argv 1; pid ← atoi_at a;
  b ← arg argv 2; priority ← atoi_at b;
  (if (priority <? 0) || (priority >? 20) then printf 2 "priority is not between 0-20\n" [] else mret tt) ;;
  do_sys (U_chpr pid priority) ;;
  exit.

Definition test_cps_main : UM E unit := do_sys U_cps ;; exit.

(** main returns, to the address 0xffffffff that exec leaves on the stack. *)
Definition test_dup2_main : UM E unit :=
  in_ ← sys (U_open (str "README") O_RDONLY);
  out ← sys (U_open (str "out") O_WRONLY);
  do_sys (U_dup2 in_ 0) ;;
  do_sys (U_dup2 out 0) ;;
  do_sys (U_close in_) ;;
  do_sys (U_close out) ;;
  do_sys (U_exec (str "grep") [str "grep"; str "xv6"]) ;;
  undef "main returned".

Definition U_SYS_fork : Z := 1.
Definition U_SYS_wait : Z := 3.
Definition U_SYS_write : Z := 16.
Definition print_count (fmt : string) (n : Z) : UM E unit := c ← sys (U_getcount n); printf 1 fmt [W c].
Definition test_getcount_main : UM E unit :=
  print_count "initial fork count %d\n" U_SYS_fork ;;
  pid ← sys U_fork;
  (if pid =? 0 then
     print_count "child fork count %d\n" U_SYS_fork ;;
     print_count "child write count %d\n" U_SYS_write
   else
     do_sys U_wait ;;
     print_count "parent fork count %d\n" U_SYS_fork ;;
     print_count "parent write count %d\n" U_SYS_write) ;;
  print_count "wait count %d\n" U_SYS_wait ;;
  exit.

Definition test_getppid_main : UM E unit :=
  parent ← sys U_getpid;
  child ← sys U_fork;
  (if child =? 0 then
     pid ← sys U_getpid; ppid ← sys U_getppid;
     printf 1 "child: parent=%d child=%d getpid()=%d getppid()=%d\n" [W parent; W child; W pid; W ppid]
   else
     do_sys U_wait ;;
     pid ← sys U_getpid; ppid ← sys U_getppid;
     printf 1 "parent: parent=%d child=%d getpid()=%d getppid()=%d\n" [W parent; W child; W pid; W ppid]) ;;
  exit.

Definition test_getsz_main : UM E unit :=
  size ← sys U_getsz;
  printf 1 "%d\n" [W size] ;;
  exit.

(** [a] and [b] are local variables; the call stores them when it gets as far. *)
Definition test_time_main (argv : Z) : UM E unit :=
  pid ← sys U_fork;
  '(a, b, status) ←
    (if pid =? 0 then
       a1 ← arg argv 1;
       path ← string_at a1;
       args ← with_fuel (λ k, load_argv k argv);
       do_sys (U_exec path args) ;;
       printf 1 "exec %s failed\n" [W a1] ;;
       mret (3, 4, 0)
     else
       '(status, l) ← sys_data U_time;
       mret (if decide (8 <= length l)%nat then (ld32 l 0, ld32 l 4, status) else (3, 4, status)));
  printf 1 "Wait Time = %d\n Run Time = %d with Status %d \n" [W a; W b; W status] ;;
  exit.

(** struct rtcdate at [r]: second, minute, hour, day, month, year *)
Definition test_utctime_main (r : Z) : UM E unit :=
  '(v, l) ← sys_data U_utctime;
  modm (λ m, store_bytes m r l) ;;
  if negb (v =? 0) then printf 2 "date failed\n" [] ;; exit else
  printf 1 "Current UTC Time: " [] ;;
  second ← ld32m r; minute ← ld32m (r + 4); hour ← ld32m (r + 8);
  printf 1 "%d:%d:%d " [W hour; W minute; W second] ;;
  day ← ld32m (r + 12); month ← ld32m (r + 16); year ← ld32m (r + 20);
  printf 1 "%d-%d-%d\n" [W day; W month; W year] ;;
  exit.

(** ** forktest.c, with a printf of its own *)

Definition FORK_N : nat := 1000.
Definition forktest_printf (fd : Z) (s : string) : UM E unit := do_sys (U_write fd (cstring s)).
(** The number of children made; the loop begins at [n]. *)
Fixpoint fork_many (k : nat) (n : Z) : UM E Z :=
  match k with
  | O => mret n
  | S k' =>
    pid ← sys U_fork;
    if pid <? 0 then mret n else
    if pid =? 0 then exit else
    fork_many k' (n + 1)
  end.
Definition forktest : UM E unit :=
  forktest_printf 1 "fork test\n" ;;
  n ← fork_many FORK_N 0;
  if n =? Z.of_nat FORK_N then forktest_printf 1 "fork claimed to work N times!\n" ;; exit else
  forM (seqZ 0 n) (λ _,
    r ← sys U_wait;
    if r <? 0 then forktest_printf 1 "wait stopped early\n" ;; exit else mret tt) ;;
  r ← sys U_wait;
  if negb (r =? -1) then forktest_printf 1 "wait got too many\n" ;; exit else
  forktest_printf 1 "fork test OK\n".
Definition forktest_main : UM E unit := forktest ;; exit.

(** ** stressfs.c: [path] and [data] are its local arrays *)

(** [for(i = 0; i < 4; i++) if(fork() > 0) break;] *)
Fixpoint stressfs_fork (k : nat) (i : Z) : UM E Z :=
  match k with
  | O => mret i
  | S k' => pid ← sys U_fork; if pid >? 0 then mret i else stressfs_fork k' (i + 1)
  end.
Definition stressfs_main (path data : Z) : UM E unit :=
  modm (λ m, store_bytes m path (str "stressfs0" ++ [0])) ;;
  printf 1 "stressfs starting\n" [] ;;
  modm (λ m, memset m data 97 512) ;;
  i ← stressfs_fork 4 0;
  printf 1 "write %d\n" [W i] ;;
  c ← ld8 (path + 8);
  st8 (path + 8) (c + i) ;;
  fd ← open_at path (Z.lor O_CREATE O_RDWR);
  forM (seqZ 0 20) (λ _, _ ← write_at fd data 512; mret tt) ;;
  do_sys (U_close fd) ;;
  printf 1 "read\n" [] ;;
  fd ← open_at path O_RDONLY;
  forM (seqZ 0 20) (λ _, _ ← read_at fd data 512; mret tt) ;;
  do_sys (U_close fd) ;;
  do_sys U_wait ;;
  exit.
(** ** date.c

    Of the builds with CS333_P1, whose system call [date] is not in this source.
    [days] and [months] are the addresses of the names, [file] that of the name
    of the source file. *)

(** The day of the week, 0 for Sunday; C's division rounds towards zero, and every sum
    is that of 32-bit ints. *)
Definition dayofweek (y m d : Z) : Z :=
  let '(d, y) := if m <? 3 then (s32 (d + y), s32 (y - 1)) else (s32 (d + s32 (y - 2)), y) in
  Z.rem (s32 (s32 (s32 (s32 (s32 (Z.quot (s32 (23 * m)) 9 + d) + 4) + Z.quot y 4) - Z.quot y 100) + Z.quot y 400)) 7.

Definition date_main (date : Z → UM E Z) (r file : Z) (days months : list Z) : UM E unit :=
  v ← date r;
  if negb (v =? 0) then printf 2 "Error: date call failed. %s at line %d\n" [W file; W 28] ;; exit else
  second ← ld32m r; minute ← ld32m (r + 4); hour ← ld32m (r + 8);
  d ← ld32m (r + 12); month ← ld32m (r + 16); year ← ld32m (r + 20);
  let day := dayofweek (s32 year) (s32 month) (s32 d) in
  if day <? 0 then undef "date: days" else
  match days !! Z.to_nat day, months !! Z.to_nat month with
  | Some wd, Some mo =>
    printf 1 "%s %s %d" [W wd; W mo; W d] ;;
    printf 1 " " [] ;;
    (if hour <? 10 then printf 1 "0" [] else mret tt) ;;
    printf 1 "%d:" [W hour] ;;
    (if minute <? 10 then printf 1 "0" [] else mret tt) ;;
    printf 1 "%d:" [W minute] ;;
    (if second <? 10 then printf 1 "0" [] else mret tt) ;;
    printf 1 "%d UTC %d\n" [W second; W year] ;;
    exit
  | _, _ => undef "date: months"
  end.
End progs.

(** *** The calendar *)

Definition leap (y : Z) : bool := (y mod 4 =? 0) && negb (y mod 100 =? 0) || (y mod 400 =? 0).
Definition month_days (y m : Z) : Z :=
  if m =? 2 then (if leap y then 29 else 28)
  else if (m =? 4) || (m =? 6) || (m =? 9) || (m =? 11) then 30 else 31.
Definition year_days (y : Z) : Z := if leap y then 366 else 365.
Definition sum_Z (l : list Z) : Z := foldr Z.add 0 l.
(** The days from the first of January of year 1 to the date. *)
Definition day_number (y m d : Z) : Z :=
  sum_Z (year_days <$> seqZ 1 (y - 1)) + sum_Z (month_days y <$> seqZ 1 (m - 1)) + (d - 1).

Lemma sum_Z_snoc l x : sum_Z (l ++ [x]) = sum_Z l + x.
Proof. induction l as [|y l IH]; simpl; [lia|]. unfold sum_Z in *. simpl. lia. Qed.
Lemma leap_days y : 0 <= y → Z.b2z (leap (y + 1)) = ((y + 1) / 4 - (y + 1) / 100 + (y + 1) / 400) - (y / 4 - y / 100 + y / 400).
Proof.
  intros Hy. unfold leap. Z.to_euclidean_division_equations.
  destruct (Z.eqb_spec r 0), (Z.eqb_spec r0 0), (Z.eqb_spec r1 0); cbn [andb orb negb Z.b2z]; lia.
Qed.
Lemma years_before y : 0 <= y → sum_Z (year_days <$> seqZ 1 y) = 365 * y + y / 4 - y / 100 + y / 400.
Proof.
  intros Hy. pattern y. apply natlike_ind; [done | | done]. clear y Hy. intros y Hy IH.
  unfold Z.succ. rewrite (seqZ_app 1 y 1) by lia. change (seqZ (1 + y) 1) with [1 + y].
  rewrite fmap_app. cbn [fmap list_fmap]. rewrite sum_Z_snoc, IH, (Z.add_comm 1 y).
  pose proof (leap_days y Hy). unfold year_days. destruct (leap (y + 1)); cbn [Z.b2z] in *; lia.
Qed.
Lemma months_before y m :
  1 <= m <= 12 →
  sum_Z (month_days y <$> seqZ 1 (m - 1))
  = nth (Z.to_nat (m - 1)) [0; 31; 59; 90; 120; 151; 181; 212; 243; 273; 304; 334] 0
    + (if 2 <? m then Z.b2z (leap y) else 0).
Proof.
  intros Hm. assert (m - 1 ∈ seqZ 0 12) as Hc by (apply elem_of_seqZ; lia). remember (m - 1) as k eqn:E.
  replace m with (k + 1) by lia. clear Hm E m. cbv in Hc.
  repeat (apply elem_of_cons in Hc as [->|Hc]); [..|by apply elem_of_nil in Hc];
    cbv -[leap Z.add]; destruct (leap y); reflexivity.
Qed.

(** No sum overflows, from the inside out. *)
Ltac drop_s32 :=
  repeat match goal with
  | |- context [s32 ?x] => lazymatch x with context [s32 _] => fail | _ => rewrite (s32_small x) by lia end
  end.

Lemma dayofweek_mod y m d :
  1 <= y <= 1700000000 → 1 <= m <= 12 → 1 <= d <= 31 →
  let y' := if m <? 3 then y - 1 else y in
  dayofweek y m d = (23 * m / 9 + d + y' - (if m <? 3 then -1 else 2) + 4 + y' / 4 - y' / 100 + y' / 400) mod 7.
Proof.
  intros Hy Hm Hd. unfold dayofweek.
  assert (H9 : 0 <= 23 * m / 9 <= 31) by (Z.to_euclidean_division_equations; lia).
  assert (Hq : ∀ k, 0 <= k → 0 <= k / 4 - k / 100 ∧ k / 4 <= k / 4 - k / 100 + k / 100 ∧ 0 <= k / 400 <= k / 100 ∧ 4 * (k / 4) <= k)
    by (intros k Hk; Z.to_euclidean_division_equations; lia).
  pose proof (Hq y). pose proof (Hq (y - 1)). clear Hq.
  destruct (m <? 3).
  - rewrite (s32_small (23 * m)), (s32_small (y - 1)), (s32_small (d + y)), !Z.quot_div_nonneg by lia.
    drop_s32. rewrite Z.rem_mod_nonneg by lia. f_equal. lia.
  - rewrite (s32_small (23 * m)), (s32_small (y - 2)), (s32_small (d + _)), !Z.quot_div_nonneg by lia.
    drop_s32. rewrite Z.rem_mod_nonneg by lia. f_equal. lia.
Qed.

(** C25: the formula of date.c gives the day of the week of every date of the
    Gregorian calendar up to the year 1700000000: counted over whole years,
    months and days from Monday, the first of January of year 1.  Until then no
    sum of the formula overflows an int. *)
Theorem dayofweek_spec y m d :
  1 <= y <= 1700000000 → 1 <= m <= 12 → 1 <= d <= month_days y m → dayofweek y m d = (day_number y m d + 1) mod 7.
Proof.
  intros Hy Hm Hd.
  assert (month_days y m <= 31) by (unfold month_days; repeat case_match; lia).
  rewrite dayofweek_mod by lia. cbv zeta. unfold day_number. rewrite years_before, months_before by lia.
  assert (E : Z.b2z (leap y) = (y / 4 - y / 100 + y / 400) - ((y - 1) / 4 - (y - 1) / 100 + (y - 1) / 400)).
  { pose proof (leap_days (y - 1)) as Hl. rewrite Z.sub_add in Hl. apply Hl. lia. }
  assert (Hc : m ∈ seqZ 1 12) by (apply elem_of_seqZ; lia). cbv in Hc. clear Hm Hd H.
  repeat (apply elem_of_cons in Hc as [->|Hc]); [..|by apply elem_of_nil in Hc];
    match goal with |- context [23 * ?k / 9] => let v := eval vm_compute in (23 * k / 9) in change (23 * k / 9) with v end;
    match goal with |- context [nth ?i ?l 0] => let v := eval vm_compute in (nth i l 0) in change (nth i l 0) with v end;
    cbn [Z.ltb Z.compare Pos.compare Pos.compare_cont]; revert E;
    generalize (Z.b2z (leap y)) (y / 4) (y / 100) (y / 400) ((y - 1) / 4) ((y - 1) / 100) ((y - 1) / 400);
    intros; Z.to_euclidean_division_equations; lia.
Qed.
Lemma dayofweek_spec_witness : dayofweek 2000 2 29 = 2.
Proof. rewrite dayofweek_spec; [reflexivity | lia | lia |]. vm_compute. split; discriminate. Defined.
