(* ===== verification/Usertests.v ===== *)
(** * Usertests: usertests.c

    The tests of the system calls, one definition for each function of the
    file, and main.  The static arrays [buf], [name] and [uninit], umalloc's
    [base], and the local arrays of the functions are at addresses of the
    compiler's choice.  [stdout] is 1 and never changes.  A loop without a
    system call that does not end is a computation no bound is enough for. *)

From S2P Require Import Prelude Memory Cprintf User Ulib Umalloc Grep Sh Progs.

Definition sizeof_tbuf : Z := 8192.
Definition U_MAXFILE : Z := 12 + 512 / 4.
Definition BIG : Z := 100 * 1024 * 1024.
Definition U_KERNBASE : Z := 0x80000000.
Definition U_MAXARG : nat := 32.

Section usertests.
Context {E : Type} (base buf name uninit : Z).

(** Calls with string constants *)
Definition t_mkdir (s : string) : UM E Z := sys (U_mkdir (str s)).
Definition t_chdir (s : string) : UM E Z := sys (U_chdir (str s)).
Definition t_unlink (s : string) : UM E Z := sys (U_unlink (str s)).
Definition t_link (a b : string) : UM E Z := sys (U_link (str a) (str b)).
Definition t_open (s : string) (mode : Z) : UM E Z := sys (U_open (str s) mode).
Definition t_write (fd : Z) (s : string) : UM E Z := sys (U_write fd (str s)).
Definition t_close (fd : Z) : UM E unit := do_sys (U_close fd).
Definition t_wait : UM E unit := do_sys U_wait.
(** [unlink(p)] for a string in memory *)
Definition unlink_at (p : Z) : UM E Z := l ← string_at p; sys (U_unlink l).
(** sbrk; what the kernel puts into new memory is stored there *)
Definition t_sbrk (n : Z) : UM E Z :=
  '(r, l) ← sys_data (U_sbrk (s32 n));
  modm (λ m, store_bytes m (u32 r) l) ;;
  mret (u32 r).
(** [if(b){ printf(1, msg); exit(); }] *)
Definition fail_if (b : bool) (msg : string) : UM E unit :=
  if b then printf 1 msg [] ;; exit else mret tt.
Definition ignore {A} (c : UM E A) : UM E unit := _ ← c; mret tt.
(** [for(;;) ;] *)
Definition forever {A} : UM E A := out_of_fuel.
(** A fault: the kernel ends the process. *)
Definition fault {A} : UM E A := exit.

Definition iputtest : UM E unit :=
  printf 1 "iput test\n" [] ;;
  r ← t_mkdir "iputdir"; fail_if (r <? 0) "mkdir failed\n" ;;
  r ← t_chdir "iputdir"; fail_if (r <? 0) "chdir iputdir failed\n" ;;
  r ← t_unlink "../iputdir"; fail_if (r <? 0) "unlink ../iputdir failed\n" ;;
  r ← t_chdir "/"; fail_if (r <? 0) "chdir / failed\n" ;;
  printf 1 "iput test ok\n" [].

Definition exitiputtest : UM E unit :=
  printf 1 "exitiput test\n" [] ;;
  pid ← sys U_fork;
  fail_if (pid <? 0) "fork failed\n" ;;
  (if pid =? 0 then
     r ← t_mkdir "iputdir"; fail_if (r <? 0) "mkdir failed\n" ;;
     r ← t_chdir "iputdir"; fail_if (r <? 0) "child chdir failed\n" ;;
     r ← t_unlink "../iputdir"; fail_if (r <? 0) "unlink ../iputdir failed\n" ;;
     exit
   else mret tt) ;;
  t_wait ;;
  printf 1 "exitiput test ok\n" [].

Definition openiputtest : UM E unit :=
  printf 1 "openiput test\n" [] ;;
  r ← t_mkdir "oidir"; fail_if (r <? 0) "mkdir oidir failed\n" ;;
  pid ← sys U_fork;
  fail_if (pid <? 0) "fork failed\n" ;;
  (if pid =? 0 then
     fd ← t_open "oidir" O_RDWR;
     fail_if (fd >=? 0) "open directory for write succeeded\n" ;;
     exit
   else mret tt) ;;
  do_sys (U_sleep 1) ;;
  r ← t_unlink "oidir"; fail_if (negb (r =? 0)) "unlink failed\n" ;;
  t_wait ;;
  printf 1 "openiput test ok\n" [].

Definition opentest : UM E unit :=
  printf 1 "open test\n" [] ;;
  fd ← t_open "echo" 0; fail_if (fd <? 0) "open echo failed!\n" ;;
  t_close fd ;;
  fd ← t_open "doesnotexist" 0; fail_if (fd >=? 0) "open doesnotexist succeeded!\n" ;;
  printf 1 "open test ok\n" [].

Definition writetest : UM E unit :=
  printf 1 "small file test\n" [] ;;
  fd ← t_open "small" (Z.lor O_CREATE O_RDWR);
  (if fd >=? 0 then printf 1 "creat small succeeded; ok\n" []
   else printf 1 "error: creat small failed!\n" [] ;; exit) ;;
  forM (seqZ 0 100) (λ i,
    r ← t_write fd "aaaaaaaaaa";
    (if negb (r =? 10) then printf 1 "error: write aa %d new file failed\n" [W i] ;; exit else mret tt) ;;
    r ← t_write fd "bbbbbbbbbb";
    if negb (r =? 10) then printf 1 "error: write bb %d new file failed\n" [W i] ;; exit else mret tt) ;;
  printf 1 "writes ok\n" [] ;;
  t_close fd ;;
  fd ← t_open "small" O_RDONLY;
  (if fd >=? 0 then printf 1 "open small succeeded ok\n" []
   else printf 1 "error: open small failed!\n" [] ;; exit) ;;
  i ← read_at fd buf 2000;
  (if i =? 2000 then printf 1 "read succeeded ok\n" []
   else printf 1 "read failed\n" [] ;; exit) ;;
  t_close fd ;;
  r ← t_unlink "small"; fail_if (r <? 0) "unlink small failed\n" ;;
  printf 1 "small file test ok\n" [].

(** [for(;;)] of writetest1: the blocks must be 0, 1, ... *)
Fixpoint writetest1_read (fuel : nat) (fd n : Z) : UM E unit :=
  match fuel with
  | O => out_of_fuel
  | S fuel' =>
    i ← read_at fd buf 512;
    if i =? 0 then
      if n =? U_MAXFILE - 1 then printf 1 "read only %d blocks from big" [W n] ;; exit else mret tt
    else if negb (i =? 512) then printf 1 "read failed %d\n" [W i] ;; exit else
    x ← ld32m buf;
    if negb (s32 x =? n) then printf 1 "read content of block %d is %d\n" [W n; W x] ;; exit else
    writetest1_read fuel' fd (n + 1)
  end.
Definition writetest1 : UM E unit :=
  printf 1 "big files test\n" [] ;;
  fd ← t_open "big" (Z.lor O_CREATE O_RDWR); fail_if (fd <? 0) "error: creat big failed!\n" ;;
  forM (seqZ 0 U_MAXFILE) (λ i,
    st32m buf i ;;
    r ← write_at fd buf 512;
    fail_if (negb (r =? 512)) "error: write big file failed\n") ;;
  t_close fd ;;
  fd ← t_open "big" O_RDONLY; fail_if (fd <? 0) "error: open big failed!\n" ;;
  with_fuel (λ fuel, writetest1_read fuel fd 0) ;;
  t_close fd ;;
  r ← t_unlink "big"; fail_if (r <? 0) "unlink big failed\n" ;;
  printf 1 "big files ok\n" [].

Definition createtest : UM E unit :=
  printf 1 "many creates, followed by unlink test\n" [] ;;
  st8 name 97 ;;
  st8 (name + 2) 0 ;;
  forM (seqZ 0 52) (λ i,
    st8 (name + 1) (ch_0 + i) ;;
    fd ← open_at name (Z.lor O_CREATE O_RDWR);
    t_close fd) ;;
  st8 name 97 ;;
  st8 (name + 2) 0 ;;
  forM (seqZ 0 52) (λ i,
    st8 (name + 1) (ch_0 + i) ;;
    ignore (unlink_at name)) ;;
  printf 1 "many creates, followed by unlink; ok\n" [].

Definition dirtest : UM E unit :=
  printf 1 "mkdir test\n" [] ;;
  r ← t_mkdir "dir0"; fail_if (r <? 0) "mkdir failed\n" ;;
  r ← t_chdir "dir0"; fail_if (r <? 0) "chdir dir0 failed\n" ;;
  r ← t_chdir ".."; fail_if (r <? 0) "chdir .. failed\n" ;;
  r ← t_unlink "dir0"; fail_if (r <? 0) "unlink dir0 failed\n" ;;
  printf 1 "mkdir test ok\n" [].

Definition exectest : UM E unit :=
  printf 1 "exec test\n" [] ;;
  r ← sys (U_exec (str "echo") [str "echo"; str "ALL"; str "TESTS"; str "PASSED"]);
  fail_if (r <? 0) "exec echo failed\n".

(** [for(i = 0; i < k; i++) buf[i] = seq++;] *)
Fixpoint pipe1_fill (k : nat) (p seq : Z) : UM E Z :=
  match k with
  | O => mret seq
  | S k' => st8 p seq ;; pipe1_fill k' (p + 1) (seq + 1)
  end.
Fixpoint pipe1_write (n : nat) (fd seq : Z) : UM E unit :=
  match n with
  | O => mret tt
  | S n' =>
    seq ← pipe1_fill 1033 buf seq;
    r ← write_at fd buf 1033;
    fail_if (negb (r =? 1033)) "pipe1 oops 1\n" ;;
    pipe1_write n' fd seq
  end.
(** Are the [k] bytes from [p] the low bytes of seq, seq + 1, ...? *)
Fixpoint pipe1_same (k : nat) (m : Memory.mem) (p seq : Z) : bool :=
  match k with
  | O => true
  | S k' => (m p =? u8 seq) && pipe1_same k' m (p + 1) (seq + 1)
  end.
(** The total, or [None] when the function has returned. *)
Fixpoint pipe1_read (fuel : nat) (fd cc seq total : Z) : UM E (option Z) :=
  match fuel with
  | O => out_of_fuel
  | S fuel' =>
    n ← read_at fd buf cc;
    if n <=? 0 then mret (Some total) else
    m ← getm;
    if negb (pipe1_same (Z.to_nat n) m buf seq) then printf 1 "pipe1 oops 2\n" [] ;; mret None else
    let cc := cc * 2 in
    pipe1_read fuel' fd (if cc >? sizeof_tbuf then sizeof_tbuf else cc) (seq + n) (total + n)
  end.
Definition pipe1 : UM E unit :=
  '(r, l) ← sys_data U_pipe;
  let fds0 := s32 (ld32 l 0) in
  let fds1 := s32 (ld32 l 4) in
  fail_if (negb (r =? 0)) "pipe() failed\n" ;;
  pid ← sys U_fork;
  if pid =? 0 then
    t_close fds0 ;;
    pipe1_write 5 fds1 0 ;;
    exit
  else if pid >? 0 then
    t_close fds1 ;;
    o ← with_fuel (λ fuel, pipe1_read fuel fds0 1 0 0);
    match o with
    | None => mret tt
    | Some total =>
      (if negb (total =? 5 * 1033) then printf 1 "pipe1 oops 3 total %d\n" [W total] ;; exit else mret tt) ;;
      t_close fds0 ;;
      t_wait ;;
      printf 1 "pipe1 ok\n" []
    end
  else printf 1 "fork() failed\n" [] ;; exit.

Definition preempt : UM E unit :=
  printf 1 "preempt: " [] ;;
  pid1 ← sys U_fork;
  if pid1 =? 0 then forever else
  pid2 ← sys U_fork;
  if pid2 =? 0 then forever else
  '(_, l) ← sys_data U_pipe;
  let pfds0 := s32 (ld32 l 0) in
  let pfds1 := s32 (ld32 l 4) in
  pid3 ← sys U_fork;
  if pid3 =? 0 then
    t_close pfds0 ;;
    r ← t_write pfds1 "x";
    (if negb (r =? 1) then printf 1 "preempt write error" [] else mret tt) ;;
    t_close pfds1 ;;
    forever
  else
  t_close pfds1 ;;
  r ← read_at pfds0 buf sizeof_tbuf;
  if negb (r =? 1) then printf 1 "preempt read error" [] else
  t_close pfds0 ;;
  printf 1 "kill... " [] ;;
  do_sys (U_kill pid1) ;;
  do_sys (U_kill pid2) ;;
  do_sys (U_kill pid3) ;;
  printf 1 "wait... " [] ;;
  t_wait ;; t_wait ;; t_wait ;;
  printf 1 "preempt ok\n" [].

Fixpoint exitwait_loop (k : nat) : UM E unit :=
  match k with
  | O => printf 1 "exitwait ok\n" []
  | S k' =>
    pid ← sys U_fork;
    if pid <? 0 then printf 1 "fork failed\n" [] else
    if negb (pid =? 0) then
      r ← sys U_wait;
      if negb (r =? pid) then printf 1 "wait wrong pid\n" [] else exitwait_loop k'
    else exit
  end.
Definition exitwait : UM E unit := exitwait_loop 100.

(** The two loops of mem: a list of blocks through their first words. *)
Fixpoint mem_fill (fuel : nat) (m1 : Z) : UM E Z :=
  match fuel with
  | O => out_of_fuel
  | S fuel' => m2 ← malloc base 10001; if m2 =? 0 then mret m1 else st32m m2 m1 ;; mem_fill fuel' m2
  end.
Fixpoint mem_free (fuel : nat) (m1 : Z) : UM E unit :=
  match fuel with
  | O => out_of_fuel
  | S fuel' => if m1 =? 0 then mret tt else m2 ← ld32m m1; free m1 ;; mem_free fuel' m2
  end.
Definition mem : UM E unit :=
  printf 1 "mem test\n" [] ;;
  ppid ← sys U_getpid;
  pid ← sys U_fork;
  if pid =? 0 then
    m1 ← with_fuel (λ fuel, mem_fill fuel 0);
    with_fuel (λ fuel, mem_free fuel m1) ;;
    m1 ← malloc base (1024 * 20);
    (if m1 =? 0 then printf 1 "couldn't allocate mem?!!\n" [] ;; do_sys (U_kill ppid) ;; exit else mret tt) ;;
    free m1 ;;
    printf 1 "mem ok\n" [] ;;
    exit
  else t_wait.

(** The writes of sharedfd, until one fails. *)
Fixpoint sharedfd_write (k : nat) (fd sbuf : Z) : UM E unit :=
  match k with
  | O => mret tt
  | S k' =>
    r ← write_at fd sbuf 10;
    if negb (r =? 10) then printf 1 "fstests: write sharedfd failed\n" [] else sharedfd_write k' fd sbuf
  end.
Fixpoint sharedfd_read (fuel : nat) (fd sbuf nc np : Z) : UM E (Z * Z) :=
  match fuel with
  | O => out_of_fuel
  | S fuel' =>
    n ← read_at fd sbuf 10;
    if n <=? 0 then mret (nc, np) else
    m ← getm;
    let l := load_bytes m sbuf 10 in
    sharedfd_read fuel' fd sbuf
      (nc + Z.of_nat (length (filter (λ c, c = 99) l))) (np + Z.of_nat (length (filter (λ c, c = 112) l)))
  end.
(** [sbuf] is the local array that hides [buf]. *)
Definition sharedfd (sbuf : Z) : UM E unit :=
  printf 1 "sharedfd test\n" [] ;;
  ignore (t_unlink "sharedfd") ;;
  fd ← t_open "sharedfd" (Z.lor O_CREATE O_RDWR);
  if fd <? 0 then printf 1 "fstests: cannot open sharedfd for writing" [] else
  pid ← sys U_fork;
  modm (λ m, memset m sbuf (if pid =? 0 then 99 else 112) 10) ;;
  sharedfd_write 1000 fd sbuf ;;
  (if pid =? 0 then exit else t_wait) ;;
  t_close fd ;;
  fd ← t_open "sharedfd" 0;
  if fd <? 0 then printf 1 "fstests: cannot open sharedfd for reading\n" [] else
  '(nc, np) ← with_fuel (λ fuel, sharedfd_read fuel fd sbuf 0 0);
  t_close fd ;;
  ignore (t_unlink "sharedfd") ;;
  if (nc =? 10000) && (np =? 10000) then printf 1 "sharedfd ok\n" []
  else printf 1 "sharedfd oops %d %d\n" [W nc; W np] ;; exit.

Definition fnames : list string := ["f0"; "f1"; "f2"; "f3"]%string.
Fixpoint fourfiles_read (fuel : nat) (fd c total : Z) : UM E Z :=
  match fuel with
  | O => out_of_fuel
  | S fuel' =>
    n ← read_at fd buf sizeof_tbuf;
    if n <=? 0 then mret total else
    m ← getm;
    fail_if (negb (forallb (Z.eqb c) (load_bytes m buf (Z.to_nat n)))) "wrong char\n" ;;
    fourfiles_read fuel' fd c (total + n)
  end.
Definition fourfiles : UM E unit :=
  printf 1 "fourfiles test\n" [] ;;
  forM (seqZ 0 4) (λ pi,
    let fname := fnames !!! Z.to_nat pi in
    ignore (t_unlink fname) ;;
    pid ← sys U_fork;
    fail_if (pid <? 0) "fork failed\n" ;;
    if pid =? 0 then
      fd ← t_open fname (Z.lor O_CREATE O_RDWR); fail_if (fd <? 0) "create failed\n" ;;
      modm (λ m, memset m buf (ch_0 + pi) 512) ;;
      forM (seqZ 0 12) (λ _,
        n ← write_at fd buf 500;
        if negb (n =? 500) then printf 1 "write failed %d\n" [W n] ;; exit else mret tt) ;;
      exit
    else mret tt) ;;
  forM (seqZ 0 4) (λ _, t_wait) ;;
  forM (seqZ 0 2) (λ i,
    let fname := fnames !!! Z.to_nat i in
    fd ← t_open fname 0;
    total ← with_fuel (λ fuel, fourfiles_read fuel fd (ch_0 + i) 0);
    t_close fd ;;
    (if negb (total =? 12 * 500) then printf 1 "wrong length %d\n" [W total] ;; exit else mret tt) ;;
    ignore (t_unlink fname)) ;;
  printf 1 "fourfiles ok\n" [].

(** [nm] is the local array that hides [name]. *)
Definition createdelete (nm : Z) : UM E unit :=
  printf 1 "createdelete test\n" [] ;;
  forM (seqZ 0 4) (λ pi,
    pid ← sys U_fork;
    fail_if (pid <? 0) "fork failed\n" ;;
    if pid =? 0 then
      st8 nm (112 + pi) ;;
      st8 (nm + 2) 0 ;;
      forM (seqZ 0 20) (λ i,
        st8 (nm + 1) (ch_0 + i) ;;
        fd ← open_at nm (Z.lor O_CREATE O_RDWR); fail_if (fd <? 0) "create failed\n" ;;
        t_close fd ;;
        if (i >? 0) && (i mod 2 =? 0) then
          st8 (nm + 1) (ch_0 + i / 2) ;;
          r ← unlink_at nm; fail_if (r <? 0) "unlink failed\n"
        else mret tt) ;;
      exit
    else mret tt) ;;
  forM (seqZ 0 4) (λ _, t_wait) ;;
  st8 (nm + 2) 0 ;; st8 (nm + 1) 0 ;; st8 nm 0 ;;
  forM (seqZ 0 20) (λ i, forM (seqZ 0 4) (λ pi,
    st8 nm (112 + pi) ;;
    st8 (nm + 1) (ch_0 + i) ;;
    fd ← open_at nm 0;
    (if ((i =? 0) || (i >=? 20 / 2)) && (fd <? 0) then
       printf 1 "oops createdelete %s didn't exist\n" [W nm] ;; exit
     else if (i >=? 1) && (i <? 20 / 2) && (fd >=? 0) then
       printf 1 "oops createdelete %s did exist\n" [W nm] ;; exit
     else mret tt) ;;
    if fd >=? 0 then t_close fd else mret tt)) ;;
  forM (seqZ 0 20) (λ i, forM (seqZ 0 4) (λ _,
    st8 nm (112 + i) ;;
    st8 (nm + 1) (ch_0 + i) ;;
    ignore (unlink_at nm))) ;;
  printf 1 "createdelete ok\n" [].

Definition unlinkread : UM E unit :=
  printf 1 "unlinkread test\n" [] ;;
  fd ← t_open "unlinkread" (Z.lor O_CREATE O_RDWR); fail_if (fd <? 0) "create unlinkread failed\n" ;;
  ignore (t_write fd "hello") ;;
  t_close fd ;;
  fd ← t_open "unlinkread" O_RDWR; fail_if (fd <? 0) "open unlinkread failed\n" ;;
  r ← t_unlink "unlinkread"; fail_if (negb (r =? 0)) "unlink unlinkread failed\n" ;;
  fd1 ← t_open "unlinkread" (Z.lor O_CREATE O_RDWR);
  ignore (t_write fd1 "yyy") ;;
  t_close fd1 ;;
  r ← read_at fd buf sizeof_tbuf; fail_if (negb (r =? 5)) "unlinkread read failed" ;;
  c ← ld8 buf; fail_if (negb (c =? 104)) "unlinkread wrong data\n" ;;
  r ← write_at fd buf 10; fail_if (negb (r =? 10)) "unlinkread write failed\n" ;;
  t_close fd ;;
  ignore (t_unlink "unlinkread") ;;
  printf 1 "unlinkread ok\n" [].

Definition linktest : UM E unit :=
  printf 1 "linktest\n" [] ;;
  ignore (t_unlink "lf1") ;;
  ignore (t_unlink "lf2") ;;
  fd ← t_open "lf1" (Z.lor O_CREATE O_RDWR); fail_if (fd <? 0) "create lf1 failed\n" ;;
  r ← t_write fd "hello"; fail_if (negb (r =? 5)) "write lf1 failed\n" ;;
  t_close fd ;;
  r ← t_link "lf1" "lf2"; fail_if (r <? 0) "link lf1 lf2 failed\n" ;;
  ignore (t_unlink "lf1") ;;
  r ← t_open "lf1" 0; fail_if (r >=? 0) "unlinked lf1 but it is still there!\n" ;;
  fd ← t_open "lf2" 0; fail_if (fd <? 0) "open lf2 failed\n" ;;
  r ← read_at fd buf sizeof_tbuf; fail_if (negb (r =? 5)) "read lf2 failed\n" ;;
  t_close fd ;;
  r ← t_link "lf2" "lf2"; fail_if (r >=? 0) "link lf2 lf2 succeeded! oops\n" ;;
  ignore (t_unlink "lf2") ;;
  r ← t_link "lf2" "lf1"; fail_if (r >=? 0) "link non-existant succeeded! oops\n" ;;
  r ← t_link "." "lf1"; fail_if (r >=? 0) "link . lf1 succeeded! oops\n" ;;
  printf 1 "linktest ok\n" [].

(** The directory listing of concreate: [fa] marks the files that were seen. *)
Fixpoint concreate_list (fuel : nat) (fd de fa n : Z) : UM E Z :=
  match fuel with
  | O => out_of_fuel
  | S fuel' =>
    r ← read_at fd de sizeof_de;
    if r <=? 0 then mret n else
    m ← getm;
    if load16 m de =? 0 then concreate_list fuel' fd de fa n else
    if (m (de + 2) =? 67) && (m (de + 4) =? 0) then
      let i := s8 (m (de + 3)) - ch_0 in
      (if (i <? 0) || (i >=? 40) then printf 1 "concreate weird file %s\n" [W (de + 2)] ;; exit else mret tt) ;;
      (if negb (m (fa + i) =? 0) then printf 1 "concreate duplicate file %s\n" [W (de + 2)] ;; exit else mret tt) ;;
      st8 (fa + i) 1 ;;
      concreate_list fuel' fd de fa (n + 1)
    else concreate_list fuel' fd de fa n
  end.
(** [close(open(file, 0))] *)
Definition open_close (file : Z) : UM E unit := fd ← open_at file 0; t_close fd.
Definition concreate (file fa de : Z) : UM E unit :=
  printf 1 "concreate test\n" [] ;;
  st8 file 67 ;;
  st8 (file + 2) 0 ;;
  forM (seqZ 0 40) (λ i,
    st8 (file + 1) (ch_0 + i) ;;
    ignore (unlink_at file) ;;
    pid ← sys U_fork;
    (if (negb (pid =? 0) && (i mod 3 =? 1)) || ((pid =? 0) && (i mod 5 =? 1)) then
       l ← string_at file; do_sys (U_link (str "C0") l)
     else
       fd ← open_at file (Z.lor O_CREATE O_RDWR);
       (if fd <? 0 then printf 1 "concreate create %s failed\n" [W file] ;; exit else mret tt) ;;
       t_close fd) ;;
    if pid =? 0 then exit else t_wait) ;;
  modm (λ m, memset m fa 0 40) ;;
  fd ← t_open "." 0;
  n ← with_fuel (λ fuel, concreate_list fuel fd de fa 0);
  t_close fd ;;
  fail_if (negb (n =? 40)) "concreate not enough files in directory listing\n" ;;
  forM (seqZ 0 40) (λ i,
    st8 (file + 1) (ch_0 + i) ;;
    pid ← sys U_fork;
    fail_if (pid <? 0) "fork failed\n" ;;
    (if ((i mod 3 =? 0) && (pid =? 0)) || ((i mod 3 =? 1) && negb (pid =? 0)) then
       open_close file ;; open_close file ;; open_close file ;; open_close file
     else
       ignore (unlink_at file) ;; ignore (unlink_at file) ;; ignore (unlink_at file) ;; ignore (unlink_at file)) ;;
    if pid =? 0 then exit else t_wait) ;;
  printf 1 "concreate ok\n" [].

Fixpoint linkunlink_loop (k : nat) (x : Z) : UM E unit :=
  match k with
  | O => mret tt
  | S k' =>
    let x := x *u 1103515245 +u 12345 in
    (if x mod 3 =? 0 then fd ← t_open "x" (Z.lor O_RDWR O_CREATE); t_close fd
     else if x mod 3 =? 1 then ignore (t_link "cat" "x")
     else ignore (t_unlink "x")) ;;
    linkunlink_loop k' x
  end.
Definition linkunlink : UM E unit :=
  printf 1 "linkunlink test\n" [] ;;
  ignore (t_unlink "x") ;;
  pid ← sys U_fork;
  fail_if (pid <? 0) "fork failed\n" ;;
  linkunlink_loop 100 (if negb (pid =? 0) then 1 else 97) ;;
  (if negb (pid =? 0) then t_wait else exit) ;;
  printf 1 "linkunlink ok\n" [].

(** The name of the [i]th link, in the local array. *)
Definition bigdir_name (nm i : Z) : UM E unit :=
  st8 nm 120 ;;
  st8 (nm + 1) (ch_0 + i / 64) ;;
  st8 (nm + 2) (ch_0 + i mod 64) ;;
  st8 (nm + 3) 0.
Definition bigdir (nm : Z) : UM E unit :=
  printf 1 "bigdir test\n" [] ;;
  ignore (t_unlink "bd") ;;
  fd ← t_open "bd" O_CREATE; fail_if (fd <? 0) "bigdir create failed\n" ;;
  t_close fd ;;
  forM (seqZ 0 500) (λ i,
    bigdir_name nm i ;;
    l ← string_at nm; r ← sys (U_link (str "bd") l);
    fail_if (negb (r =? 0)) "bigdir link failed\n") ;;
  ignore (t_unlink "bd") ;;
  forM (seqZ 0 500) (λ i,
    bigdir_name nm i ;;
    r ← unlink_at nm; fail_if (negb (r =? 0)) "bigdir unlink failed") ;;
  printf 1 "bigdir ok\n" [].

(** The second half of subdir, from where dd/dd/ffff is opened. *)
Definition subdir_rest : UM E unit :=
  fd ← t_open "dd/dd/ffff" 0; fail_if (fd <? 0) "open dd/dd/ffff failed\n" ;;
  r ← read_at fd buf sizeof_tbuf; fail_if (negb (r =? 2)) "read dd/dd/ffff wrong len\n" ;;
  t_close fd ;;
  r ← t_open "dd/dd/ff" O_RDONLY; fail_if (r >=? 0) "open (unlinked) dd/dd/ff succeeded!\n" ;;
  r ← t_open "dd/ff/ff" (Z.lor O_CREATE O_RDWR); fail_if (r >=? 0) "create dd/ff/ff succeeded!\n" ;;
  r ← t_open "dd/xx/ff" (Z.lor O_CREATE O_RDWR); fail_if (r >=? 0) "create dd/xx/ff succeeded!\n" ;;
  r ← t_open "dd" O_CREATE; fail_if (r >=? 0) "create dd succeeded!\n" ;;
  r ← t_open "dd" O_RDWR; fail_if (r >=? 0) "open dd rdwr succeeded!\n" ;;
  r ← t_open "dd" O_WRONLY; fail_if (r >=? 0) "open dd wronly succeeded!\n" ;;
  r ← t_link "dd/ff/ff" "dd/dd/xx"; fail_if (r =? 0) "link dd/ff/ff dd/dd/xx succeeded!\n" ;;
  r ← t_link "dd/xx/ff" "dd/dd/xx"; fail_if (r =? 0) "link dd/xx/ff dd/dd/xx succeeded!\n" ;;
  r ← t_link "dd/ff" "dd/dd/ffff"; fail_if (r =? 0) "link dd/ff dd/dd/ffff succeeded!\n" ;;
  r ← t_mkdir "dd/ff/ff"; fail_if (r =? 0) "mkdir dd/ff/ff succeeded!\n" ;;
  r ← t_mkdir "dd/xx/ff"; fail_if (r =? 0) "mkdir dd/xx/ff succeeded!\n" ;;
  r ← t_mkdir "dd/dd/ffff"; fail_if (r =? 0) "mkdir dd/dd/ffff succeeded!\n" ;;
  r ← t_unlink "dd/xx/ff"; fail_if (r =? 0) "unlink dd/xx/ff succeeded!\n" ;;
  r ← t_unlink "dd/ff/ff"; fail_if (r =? 0) "unlink dd/ff/ff succeeded!\n" ;;
  r ← t_chdir "dd/ff"; fail_if (r =? 0) "chdir dd/ff succeeded!\n" ;;
  r ← t_chdir "dd/xx"; fail_if (r =? 0) "chdir dd/xx succeeded!\n" ;;
  r ← t_unlink "dd/dd/ffff"; fail_if (negb (r =? 0)) "unlink dd/dd/ff failed\n" ;;
  r ← t_unlink "dd/ff"; fail_if (negb (r =? 0)) "unlink dd/ff failed\n" ;;
  r ← t_unlink "dd"; fail_if (r =? 0) "unlink non-empty dd succeeded!\n" ;;
  r ← t_unlink "dd/dd"; fail_if (r <? 0) "unlink dd/dd failed\n" ;;
  r ← t_unlink "dd"; fail_if (r <? 0) "unlink dd failed\n" ;;
  printf 1 "subdir ok\n" [].
Definition subdir : UM E unit :=
  printf 1 "subdir test\n" [] ;;
  ignore (t_unlink "ff") ;;
  r ← t_mkdir "dd"; fail_if (negb (r =? 0)) "subdir mkdir dd failed\n" ;;
  fd ← t_open "dd/ff" (Z.lor O_CREATE O_RDWR); fail_if (fd <? 0) "create dd/ff failed\n" ;;
  ignore (t_write fd "ff") ;;
  t_close fd ;;
  r ← t_unlink "dd"; fail_if (r >=? 0) "unlink dd (non-empty dir) succeeded!\n" ;;
  r ← t_mkdir "/dd/dd"; fail_if (negb (r =? 0)) "subdir mkdir dd/dd failed\n" ;;
  fd ← t_open "dd/dd/ff" (Z.lor O_CREATE O_RDWR); fail_if (fd <? 0) "create dd/dd/ff failed\n" ;;
  ignore (t_write fd "FF") ;;
  t_close fd ;;
  fd ← t_open "dd/dd/../ff" 0; fail_if (fd <? 0) "open dd/dd/../ff failed\n" ;;
  cc ← read_at fd buf sizeof_tbuf;
  c ← ld8 buf; fail_if (negb (cc =? 2) || negb (c =? 102)) "dd/dd/../ff wrong content\n" ;;
  t_close fd ;;
  r ← t_link "dd/dd/ff" "dd/dd/ffff"; fail_if (negb (r =? 0)) "link dd/dd/ff dd/dd/ffff failed\n" ;;
  r ← t_unlink "dd/dd/ff"; fail_if (negb (r =? 0)) "unlink dd/dd/ff failed\n" ;;
  r ← t_open "dd/dd/ff" O_RDONLY; fail_if (r >=? 0) "open (unlinked) dd/dd/ff succeeded\n" ;;
  r ← t_chdir "dd"; fail_if (negb (r =? 0)) "chdir dd failed\n" ;;
  r ← t_chdir "dd/../../dd"; fail_if (negb (r =? 0)) "chdir dd/../../dd failed\n" ;;
  r ← t_chdir "dd/../../../dd"; fail_if (negb (r =? 0)) "chdir dd/../../dd failed\n" ;;
  r ← t_chdir "./.."; fail_if (negb (r =? 0)) "chdir ./.. failed\n" ;;
  subdir_rest.

(** [for(sz = 499; sz < 12*512; sz += 471)] *)
Definition bigwrite_sizes : list Z := (λ k, 499 + 471 * k) <$> seqZ 0 12.
Definition bigwrite : UM E unit :=
  printf 1 "bigwrite test\n" [] ;;
  ignore (t_unlink "bigwrite") ;;
  forM bigwrite_sizes (λ sz,
    fd ← t_open "bigwrite" (Z.lor O_CREATE O_RDWR); fail_if (fd <? 0) "cannot create bigwrite\n" ;;
    forM (seqZ 0 2) (λ _,
      cc ← write_at fd buf sz;
      if negb (cc =? sz) then printf 1 "write(%d) ret %d\n" [W sz; W cc] ;; exit else mret tt) ;;
    t_close fd ;;
    ignore (t_unlink "bigwrite")) ;;
  printf 1 "bigwrite ok\n" [].

Fixpoint bigfile_read (fuel : nat) (fd i total : Z) : UM E Z :=
  match fuel with
  | O => out_of_fuel
  | S fuel' =>
    cc ← read_at fd buf 300;
    fail_if (cc <? 0) "read bigfile failed\n" ;;
    if cc =? 0 then mret total else
    fail_if (negb (cc =? 300)) "short read bigfile\n" ;;
    m ← getm;
    fail_if (negb (s8 (m buf) =? i / 2) || negb (s8 (m (buf + 299)) =? i / 2)) "read bigfile wrong data\n" ;;
    bigfile_read fuel' fd (i + 1) (total + cc)
  end.
Definition bigfile : UM E unit :=
  printf 1 "bigfile test\n" [] ;;
  ignore (t_unlink "bigfile") ;;
  fd ← t_open "bigfile" (Z.lor O_CREATE O_RDWR); fail_if (fd <? 0) "cannot create bigfile" ;;
  forM (seqZ 0 20) (λ i,
    modm (λ m, memset m buf i 600) ;;
    r ← write_at fd buf 600; fail_if (negb (r =? 600)) "write bigfile failed\n") ;;
  t_close fd ;;
  fd ← t_open "bigfile" 0; fail_if (fd <? 0) "cannot open bigfile\n" ;;
  total ← with_fuel (λ fuel, bigfile_read fuel fd 0 0);
  t_close fd ;;
  fail_if (negb (total =? 20 * 600)) "read bigfile wrong total\n" ;;
  ignore (t_unlink "bigfile") ;;
  printf 1 "bigfile test ok\n" [].

Definition fourteen : UM E unit :=
  printf 1 "fourteen test\n" [] ;;
  r ← t_mkdir "12345678901234"; fail_if (negb (r =? 0)) "mkdir 12345678901234 failed\n" ;;
  r ← t_mkdir "12345678901234/123456789012345";
  fail_if (negb (r =? 0)) "mkdir 12345678901234/123456789012345 failed\n" ;;
  fd ← t_open "123456789012345/123456789012345/123456789012345" O_CREATE;
  fail_if (fd <? 0) "create 123456789012345/123456789012345/123456789012345 failed\n" ;;
  t_close fd ;;
  fd ← t_open "12345678901234/12345678901234/12345678901234" 0;
  fail_if (fd <? 0) "open 12345678901234/12345678901234/12345678901234 failed\n" ;;
  t_close fd ;;
  r ← t_mkdir "12345678901234/12345678901234";
  fail_if (r =? 0) "mkdir 12345678901234/12345678901234 succeeded!\n" ;;
  r ← t_mkdir "123456789012345/12345678901234";
  fail_if (r =? 0) "mkdir 12345678901234/123456789012345 succeeded!\n" ;;
  printf 1 "fourteen ok\n" [].

Definition rmdot : UM E unit :=
  printf 1 "rmdot test\n" [] ;;
  r ← t_mkdir "dots"; fail_if (negb (r =? 0)) "mkdir dots failed\n" ;;
  r ← t_chdir "dots"; fail_if (negb (r =? 0)) "chdir dots failed\n" ;;
  r ← t_unlink "."; fail_if (r =? 0) "rm . worked!\n" ;;
  r ← t_unlink ".."; fail_if (r =? 0) "rm .. worked!\n" ;;
  r ← t_chdir "/"; fail_if (negb (r =? 0)) "chdir / failed\n" ;;
  r ← t_unlink "dots/."; fail_if (r =? 0) "unlink dots/. worked!\n" ;;
  r ← t_unlink "dots/.."; fail_if (r =? 0) "unlink dots/.. worked!\n" ;;
  r ← t_unlink "dots"; fail_if (negb (r =? 0)) "unlink dots failed!\n" ;;
  printf 1 "rmdot ok\n" [].

Definition dirfile : UM E unit :=
  printf 1 "dir vs file\n" [] ;;
  fd ← t_open "dirfile" O_CREATE; fail_if (fd <? 0) "create dirfile failed\n" ;;
  t_close fd ;;
  r ← t_chdir "dirfile"; fail_if (r =? 0) "chdir dirfile succeeded!\n" ;;
  fd ← t_open "dirfile/xx" 0; fail_if (fd >=? 0) "create dirfile/xx succeeded!\n" ;;
  fd ← t_open "dirfile/xx" O_CREATE; fail_if (fd >=? 0) "create dirfile/xx succeeded!\n" ;;
  r ← t_mkdir "dirfile/xx"; fail_if (r =? 0) "mkdir dirfile/xx succeeded!\n" ;;
  r ← t_unlink "dirfile/xx"; fail_if (r =? 0) "unlink dirfile/xx succeeded!\n" ;;
  r ← t_link "README" "dirfile/xx"; fail_if (r =? 0) "link to dirfile/xx succeeded!\n" ;;
  r ← t_unlink "dirfile"; fail_if (negb (r =? 0)) "unlink dirfile failed!\n" ;;
  fd ← t_open "." O_RDWR; fail_if (fd >=? 0) "open . for writing succeeded!\n" ;;
  fd ← t_open "." 0;
  r ← t_write fd "x"; fail_if (r >? 0) "write . succeeded!\n" ;;
  t_close fd ;;
  printf 1 "dir vs file OK\n" [].

Definition iref : UM E unit :=
  printf 1 "empty file name\n" [] ;;
  forM (seqZ 0 (50 + 1)) (λ _,
    r ← t_mkdir "irefd"; fail_if (negb (r =? 0)) "mkdir irefd failed\n" ;;
    r ← t_chdir "irefd"; fail_if (negb (r =? 0)) "chdir irefd failed\n" ;;
    ignore (t_mkdir EmptyString) ;;
    ignore (t_link "README" EmptyString) ;;
    fd ← t_open EmptyString O_CREATE;
    (if fd >=? 0 then t_close fd else mret tt) ;;
    fd ← t_open "xx" O_CREATE;
    (if fd >=? 0 then t_close fd else mret tt) ;;
    ignore (t_unlink "xx")) ;;
  ignore (t_chdir "/") ;;
  printf 1 "empty file name OK\n" [].

Definition t_forktest : UM E unit :=
  printf 1 "fork test\n" [] ;;
  n ← fork_many 1000 0;
  fail_if (n =? 1000) "fork claimed to work 1000 times!\n" ;;
  forM (seqZ 0 n) (λ _, r ← sys U_wait; fail_if (r <? 0) "wait stopped early\n") ;;
  r ← sys U_wait;
  fail_if (negb (r =? -1)) "wait got too many\n" ;;
  printf 1 "fork test OK\n" [].

(** The parts of sbrktest: growing by single bytes (the result is [a]), ... *)
Fixpoint sbrk_bytes (k : nat) (i a : Z) : UM E Z :=
  match k with
  | O => mret a
  | S k' =>
    b ← t_sbrk 1;
    (if negb (b =? a) then printf 1 "sbrk test failed %d %x %x\n" [W i; W a; W b] ;; exit else mret tt) ;;
    st8 b 1 ;;
    sbrk_bytes k' (i + 1) (b +u 1)
  end.
(** ... growing and shrinking by a page at the end of a big program, ... *)
Definition sbrk_big : UM E unit :=
  a ← t_sbrk 0;
  let amt := BIG -u a in
  p ← t_sbrk amt;
  fail_if (negb (p =? a)) "sbrk test failed to grow big address space; enough phys mem?\n" ;;
  let lastaddr := BIG - 1 in
  st8 lastaddr 99 ;;
  a ← t_sbrk 0;
  c ← t_sbrk (-4096);
  fail_if (c =? 0xffffffff) "sbrk could not deallocate\n" ;;
  c ← t_sbrk 0;
  (if negb (c =? a -u 4096) then
     printf 1 "sbrk deallocation produced wrong address, a %x c %x\n" [W a; W c] ;; exit
   else mret tt) ;;
  a ← t_sbrk 0;
  c ← t_sbrk 4096;
  bad ← (if negb (c =? a) then mret true else e ← t_sbrk 0; mret (negb (e =? a +u 4096)));
  (if bad : bool then printf 1 "sbrk re-allocation failed, a %x c %x\n" [W a; W c] ;; exit else mret tt) ;;
  x ← ld8 lastaddr;
  fail_if (x =? 99) "sbrk de-allocation didn't really deallocate\n".
(** ... reading the kernel's memory, which faults, ... *)
Definition sbrk_kernel : UM E unit :=
  forM ((λ k, U_KERNBASE + 50000 * k) <$> seqZ 0 40) (λ a,
    ppid ← sys U_getpid;
    pid ← sys U_fork;
    fail_if (pid <? 0) "fork failed\n" ;;
    if pid =? 0 then fault else t_wait).
(** ... and running out of memory: the pids of ten big children. *)
Fixpoint sleep_forever (fuel : nat) : UM E unit :=
  match fuel with
  | O => out_of_fuel
  | S fuel' => do_sys (U_sleep 1000) ;; sleep_forever fuel'
  end.
Fixpoint sbrk_children (k : nat) (fds0 fds1 : Z) : UM E (list Z) :=
  match k with
  | O => mret []
  | S k' =>
    pid ← sys U_fork;
    (if pid =? 0 then
       a ← t_sbrk 0;
       ignore (t_sbrk (BIG -u a)) ;;
       ignore (t_write fds1 "x") ;;
       with_fuel sleep_forever
     else mret tt) ;;
    (if negb (pid =? -1) then ignore (sys (U_read fds0 1)) else mret tt) ;;
    pids ← sbrk_children k' fds0 fds1;
    mret (pid :: pids)
  end.
Definition sbrktest : UM E unit :=
  printf 1 "sbrk test\n" [] ;;
  oldbrk ← t_sbrk 0;
  a ← t_sbrk 0;
  a ← sbrk_bytes 5000 0 a;
  pid ← sys U_fork;
  fail_if (pid <? 0) "sbrk test fork failed\n" ;;
  _ ← t_sbrk 1;
  c ← t_sbrk 1;
  fail_if (negb (c =? a +u 1)) "sbrk test failed post-fork\n" ;;
  (if pid =? 0 then exit else mret tt) ;;
  t_wait ;;
  sbrk_big ;;
  a ← t_sbrk 0;
  e ← t_sbrk 0;
  c ← t_sbrk (- (e - oldbrk));
  (if negb (c =? a) then printf 1 "sbrk downsize failed, a %x c %x\n" [W a; W c] ;; exit else mret tt) ;;
  sbrk_kernel ;;
  '(r, l) ← sys_data U_pipe;
  fail_if (negb (r =? 0)) "pipe() failed\n" ;;
  pids ← sbrk_children 10 (s32 (ld32 l 0)) (s32 (ld32 l 4));
  c ← t_sbrk 4096;
  forM pids (λ pid, if pid =? -1 then mret tt else do_sys (U_kill pid) ;; t_wait) ;;
  fail_if (c =? 0xffffffff) "failed sbrk leaked memory\n" ;;
  e ← t_sbrk 0;
  (if e >? oldbrk then e ← t_sbrk 0; ignore (t_sbrk (- (e - oldbrk))) else mret tt) ;;
  printf 1 "sbrk test OK\n" [].

(** The system call sleep with the stack pointer at [p]: its argument is the
    word after it. *)
Definition validateint (p : Z) : UM E unit := n ← ld32m (p + 4); do_sys (U_sleep (s32 n)).
Definition validatetest : UM E unit :=
  printf 1 "validate test\n" [] ;;
  let hi := 1100 * 1024 in
  forM ((λ k, 4096 * k) <$> seqZ 0 (hi / 4096 + 1)) (λ p,
    pid ← sys U_fork;
    (if pid =? 0 then validateint p ;; exit else mret tt) ;;
    do_sys (U_sleep 0) ;;
    do_sys (U_sleep 0) ;;
    do_sys (U_kill pid) ;;
    t_wait ;;
    l ← string_at p;
    r ← sys (U_link (str "nosuchfile") l);
    fail_if (negb (r =? -1)) "link should not succeed\n") ;;
  printf 1 "validate ok\n" [].

Definition bsstest : UM E unit :=
  printf 1 "bss test\n" [] ;;
  forM (seqZ 0 10000) (λ i, c ← ld8 (uninit + i); fail_if (negb (c =? 0)) "bss test failed\n") ;;
  printf 1 "bss test ok\n" [].

Definition bigarg : list Z := cstring "bigargs test: failed\n" ++ replicate 199 ch_space.
Definition bigargtest : UM E unit :=
  ignore (t_unlink "bigarg-ok") ;;
  pid ← sys U_fork;
  (if pid =? 0 then
     printf 1 "bigarg test\n" [] ;;
     do_sys (U_exec (str "echo") (replicate (U_MAXARG - 1) bigarg)) ;;
     printf 1 "bigarg test ok\n" [] ;;
     fd ← t_open "bigarg-ok" O_CREATE;
     t_close fd ;;
     exit
   else fail_if (pid <? 0) "bigargtest: fork failed\n") ;;
  t_wait ;;
  fd ← t_open "bigarg-ok" 0; fail_if (fd <? 0) "bigarg test failed!\n" ;;
  t_close fd ;;
  ignore (t_unlink "bigarg-ok").

(** fsfull: the name of file [n], the writes to one file, the files. *)
Definition fsfull_name (nm n : Z) : UM E unit :=
  st8 nm 102 ;;
  st8 (nm + 1) (ch_0 + n / 1000) ;;
  st8 (nm + 2) (ch_0 + (n mod 1000) / 100) ;;
  st8 (nm + 3) (ch_0 + (n mod 100) / 10) ;;
  st8 (nm + 4) (ch_0 + n mod 10) ;;
  st8 (nm + 5) 0.
Fixpoint fsfull_write (fuel : nat) (fd total : Z) : UM E Z :=
  match fuel with
  | O => out_of_fuel
  | S fuel' => cc ← write_at fd buf 512; if cc <? 512 then mret total else fsfull_write fuel' fd (total + cc)
  end.
Fixpoint fsfull_files (fuel : nat) (nm nfiles : Z) : UM E Z :=
  match fuel with
  | O => out_of_fuel
  | S fuel' =>
    fsfull_name nm nfiles ;;
    printf 1 "writing %s\n" [W nm] ;;
    fd ← open_at nm (Z.lor O_CREATE O_RDWR);
    if fd <? 0 then printf 1 "open %s failed\n" [W nm] ;; mret nfiles else
    total ← with_fuel (λ f, fsfull_write f fd 0);
    printf 1 "wrote %d bytes\n" [W total] ;;
    t_close fd ;;
    if total =? 0 then mret nfiles else fsfull_files fuel' nm (nfiles + 1)
  end.
Definition fsfull (nm : Z) : UM E unit :=
  printf 1 "fsfull test\n" [] ;;
  nfiles ← with_fuel (λ fuel, fsfull_files fuel nm 0);
  forM (reverse (seqZ 0 (nfiles + 1))) (λ n, fsfull_name nm n ;; ignore (unlink_at nm)) ;;
  printf 1 "fsfull test finished\n" [].

(** The child uses an I/O port, which faults in user mode. *)
Definition uio : UM E unit :=
  printf 1 "uio test\n" [] ;;
  pid ← sys U_fork;
  (if pid =? 0 then fault else fail_if (pid <? 0) "fork failed\n") ;;
  t_wait ;;
  printf 1 "uio test done\n" [].

Definition argptest : UM E unit :=
  fd ← t_open "init" O_RDONLY;
  (if fd <? 0 then printf 2 "open failed\n" [] ;; exit else mret tt) ;;
  p ← t_sbrk 0;
  ignore (read_at fd (p - 1) (-1)) ;;
  t_close fd ;;
  printf 1 "arg test passed\n" [].

(** rand, on its state *)
Definition rand (randstate : Z) : Z := randstate *u 1664525 +u 1013904223.

(** The local arrays of the functions main calls: at [loc]. *)
Definition usertests_main (loc : Z) : UM E unit :=
  printf 1 "usertests starting\n" [] ;;
  r ← t_open "usertests.ran" 0;
  fail_if (r >=? 0) "already ran user tests -- rebuild fs.img\n" ;;
  fd ← t_open "usertests.ran" O_CREATE;
  t_close fd ;;
  argptest ;;
  createdelete loc ;;
  linkunlink ;;
  concreate loc (loc + 3) (loc + 44) ;;
  fourfiles ;;
  sharedfd loc ;;
  bigargtest ;;
  bigwrite ;;
  bigargtest ;;
  bsstest ;;
  sbrktest ;;
  validatetest ;;
  opentest ;;
  writetest ;;
  writetest1 ;;
  createtest ;;
  openiputtest ;;
  exitiputtest ;;
  iputtest ;;
  mem ;;
  pipe1 ;;
  preempt ;;
  exitwait ;;
  rmdot ;;
  fourteen ;;
  bigfile ;;
  subdir ;;
  linktest ;;
  unlinkread ;;
  dirfile ;;
  iref ;;
  t_forktest ;;
  bigdir loc ;;
  uio ;;
  exectest ;;
  exit.
End usertests.
